(* ===== verification/_CoqProject ===== *)
-Q . S2P
Prelude.v
Words.v
Bytes.v
GuestMemory.v
HostFile.v
DiskIo.v
Elf.v
PageTables.v
BootParams.v
VirtQueue.v
Blk.v
Rng.v
Irq.v
Clock.v
Pit.v
Pic.v
Cmos.v
PmTimer.v
Hpet.v
IoApic.v
ConsoleWriter.v
Uart.v
Board.v
Acpi.v
Net.v
Vcpu.v
Machine.v
Bus.v
RunVm.v
Runner.v
Session.v
Input.v
ArmBoard.v
ArmUart.v
Fdt.v
ArmDevices.v
ArmCpu.v
Posix.v
KvmSnapshot.v
KvmUart.v
KvmRunner.v
KvmAcpi.v
KvmBoot.v
KvmBlk.v
KvmNet.v
KvmVm.v
