(* ===== verification/Prelude.v ===== *)
(** * node-vmm: a verification development of the native virtual-machine monitor

    node-vmm boots Linux guests from Node.js.  Its native part (src/native) has one
    backend per host hypervisor; this development models the Windows backend
    (src/native/whp: Windows Hypervisor Platform) together with the helpers it shares
    with the others (src/native/common), the Linux backend (src/native/kvm), and parts of
    the macOS backend (src/native/hvf).

    ** The program and its model

    RunVm loads the kernel, builds the boot structures in guest RAM, creates the
    devices and runs one thread per vCPU plus a timer thread and console threads.  The
    devices are reached from exits of the vCPUs through memory-mapped registers and
    I/O ports, one lock ([device_mu]) around each access.  Every file below models one
    source file or class; a definition has the name of the C++ function it translates.

    - Words, Bytes: machine words as [Z] with the wrap-around written out ([u8] ...
      [u64], [i64], [bnot]), and common/bytes.h.
    - GuestMemory, HostFile, DiskIo: whp/guest_memory.h, and the ReadFile/WriteFile loops of
      whp/win_io.h with the Win32 calls as a class; guest RAM is a total map from
      addresses to bytes with a length, so that "writes only inside RAM" is a theorem.
      DiskIo is what a disk needs of its host's files, with an instance per backend.
    - Elf, PageTables, BootParams: whp/elf_loader.cc, page_tables.cc, boot_params.cc.
    - VirtQueue, Blk, Rng: whp/virtio/desc.h, blk.cc (registers, requests, the
      copy-on-write overlay), rng.cc.
    - Irq: whp/irq.cc, the injection of external interrupts, with the hypervisor's
      calls as the class [WhpApi], and the exits of RunVm around it.
    - Clock, Pit, Pic, Cmos, PmTimer, Hpet: the devices of whp/devices; a host clock is
      a stream of readings, one consumed by each call of [now()].
    - IoApic: class IoApic of whp/backend.cc.
    - ConsoleWriter, Uart: whp/console_writer.h with its two threads as a step
      relation (what each WriteFile answers, down to a call that takes no byte, is the
      host's choice), and whp/devices/uart.cc.
    - Acpi: CreateAcpiTables of whp/backend.cc and common/acpi.h: the AML encoders, the
      DSDT, and the tables it links from the RSDP.
    - Board: the addresses and interrupt lines the parts below agree on.
    - Net: class VirtioNet of whp/backend.cc: registers, the transmit and receive
      queues, the backlog of received packets and the frames to slirp.  The interrupt
      line is the class [IrqController] (IoApic is an instance) and the network stack
      the class [SlirpBackend].
    - Vcpu: the processor side of whp/backend.cc: the bootstrap registers, descriptor
      table and page tables, CPUID and MSR exits, and the decoder of I/O instructions;
      the partition's address translation is the class [WhpTranslate].
    - Machine: the exits of RunVm on the devices together.  One record holds guest RAM,
      the host, the I/O APIC and the devices, and lends the shared parts to the device
      that runs; each event (an exit of a vCPU, a tick of the timer thread, console
      input) is one step, as it is under [device_mu].  The instruction emulator is the
      class [Emulator].
    - Bus: the same machine seen from the guest: which device an address or a port
      reaches, and where a timer interrupt goes.
    - RunVm: what RunVm does before the first vCPU runs: the checks of the
      configuration, the loading of the guest, the registers of the vCPUs and the
      creation of the devices.
    - Runner: the threads of RunVm (vCPUs, watchdog, timer) and the host's control words,
      a program counter per thread over shared atomics, each access one step; the devices
      are the class [Devices].  Further steps are the stores of a running guest, the frames
      of slirp's poll thread, the console's bytes and the return of the input threads that
      RunVm joins.  Whether a cancellation of a processor that is not running ends its next
      run is the hypervisor's ([cancel_sticks], a hypothesis of [Runner.vm_shuts_down] only).
    - Session: the machine as those devices, and RunVm from its configuration to its end.
      A device handler is one step, as it holds [device_mu]; a store of another processor
      in the middle of a handler is not a step of the model.
    - ArmBoard, ArmUart, Fdt, ArmDevices, ArmCpu: src/native/hvf/backend.cc, the macOS
      backend for ARM guests: its memory map, class Pl011Uart, class FdtBuilder, the other
      board devices with the decoder dispatch_mmio (the virtio devices are the class
      [VirtioTransport]), and the exits of the vCPU loop: emulated loads and stores,
      system registers, PSCI (the register file is the class [HvRegs]).
    - Posix, KvmSnapshot, KvmUart, KvmRunner, KvmAcpi, KvmBoot: src/native/kvm/backend.cc,
      the Linux backend: the loops over its file calls (the calls are the class
      [PosixApi]), RAM snapshots (sparse image, dirty pages, delta), its serial port with
      the matcher of shutdown messages and HandleIo, its threads as a program counter per
      thread over shared flags, its ACPI tables, and the loading of the guest with the
      set-up of the processors (the ioctls of KVM are classes).
    - KvmBlk, KvmNet, KvmVm: its virtio devices and the whole machine.  The disk shares
      the requests and the overlay of Blk, over the files of Posix, with registers and a
      level-triggered line of its own; HandleMmio finds the device of an address; the
      network device has the TAP device and libslirp as classes; KvmVm makes them and the
      serial port the devices of KvmRunner's threads.  Calls of KVM_IRQ_LINE are recorded
      and taken to succeed (the routing of every line used is set before).
    - Input: console input: the reader, pump and stop_input over a bounded queue with a
      condition variable, the test of [input_done] and the entry into ReadFile as two steps;
      the UART is an instance of its class [Receiver].

    ** Conventions

    Code that mutates an object and can throw is a computation of the monad [M S]
    below: it returns a value, a C++ exception with its message, or [OutOfFuel], and in
    each case the state reached.  Code that cannot throw is a function on the state's
    record.  Callbacks (interrupt raisers, wakers) are recorded as counters or lists of
    calls.  Outside calls are type classes: an operational class, and a class of laws
    that states the documented behaviour some theorems need; each such theorem has a
    witness at a concrete instance.

    ** Loops and fuel

    A loop whose end is not structural takes a fuel argument or uses [repeat_until];
    the fuel is an upper bound of the rounds and a theorem shows that it is never used
    up: descriptor chains (at most the queue size, VirtQueue), rings (the distance of
    two 16-bit indices, Blk, Rng and KvmNet), the receive backlog (its length, Net and
    KvmNet), the draining of the TAP device (what waits in it, by a law of its class), the
    retries of partial reads and writes (the bytes left, HostFile), the comparators of Pit and Hpet (2^64 rounds; Hpet's loop can
    really diverge, and the theorem says exactly when), the scanners of ConsoleWriter
    (the bytes left), the file loops of Posix (the bytes left plus the signals still to
    come), the snapshot loops (pages of RAM, bits of a bitmap word), and the search for a
    power of two of the processor count (32 rounds, KvmBoot).

    ** What the theorems show

    - Memory safety against a hostile guest or file: [Elf.LoadElfImage_in_bounds],
      [Blk.virtio_blk_safe], [Rng.virtio_rng_safe].
    - Refinement of an abstract object: the disk behind the overlay is an array of
      bytes, for writes of any length, sectors written in part included (Blk); the receive
      path of the UART is a bounded queue (Uart).
    - Functional correctness of the boot structures against the hardware's reading of
      them: the page walk, the e820 map for every RAM size, a decoder of the MP table.
    - Invariants over every reachable state: I/O APIC, HPET, UART, CMOS.  The I/O APIC is
      moreover a queue: what is raised goes in at the back with the contents of its entry,
      what leaves at the front was accepted by the hypervisor
      ([IoApic.ioapic_level_in_flight]); an external interrupt that cannot be injected
      stays pending with a window armed ([Irq.TryDeliver_spec]).
    - Termination, bounds and the overflow of counters: Pit, PmTimer, Hpet.
    - Concurrency of the console writer: every chunk reaches the file to its last byte,
      translated, unless the host fails; the order is not kept when a flush overlaps the
      writer thread.
    - Concurrency of RunVm: the first finish decides the result ([Runner.run_outcome]); the
      threads end within a bound once it is set, and what can hold them up is named
      ([Runner.vm_shuts_down], [Input.stop_input_stuck]); the pause protocol's counters, and
      two reachable states in which the control word is wrong
      ([Runner.Demo.control_word_races]).
    - Discoverability of the ACPI tables: a reader that starts at the RSDP and follows
      the pointers finds every table with a correct checksum, and an AML reader finds
      the devices of the machine in the DSDT.
    - The network device: memory safety, the receive queue is first in first out and
      takes one posted buffer for each frame, a frame arrives in the guest's buffers as it
      was sent, transmitted frames are the buffers of their chains and reach the backend in
      ring order.  The transmit loop has no bound of its own (the guest can
      keep it busy): its fuel counts the rounds, and a theorem shows a guest for which
      no number of rounds is enough.
    - The machine: whatever the guest does, every event keeps the invariants of all
      devices, writes only guest RAM and the writable disks ([Machine.machine_safe]); it
      ends, but for a transmit kick with overlapping rings and for a timer round with an
      HPET timer that the guest set so that it cannot be caught up; the whole run, in every
      interleaving, is [Session.session_safe];
      memory-mapped accesses reach exactly the device that owns the address, and the
      emulator's and the fallback's I/O paths agree (Bus).
    - The device tree of an ARM guest: a reader of the format recovers from the blob
      exactly the description of the machine ([Fdt.Build_reads_back]), and what it
      describes is what the decoder decodes ([ArmDevices.tree_matches_board]).
    - The ARM processors: an emulated access is the architecture's, with the exact
      exceptions ([ArmCpu.emulation_divergences]); PSCI calls answer as specified.
    - The start: RunVm's setup ends in a machine that satisfies those invariants, with
      the page tables, boot parameters and ACPI tables the guest expects all readable
      from one RAM ([RunVm.boot_ready]), and registers in 64-bit mode (Vcpu).

    - The Linux backend: a saved snapshot is restored exactly and a hostile delta file
      changes nothing outside RAM (KvmSnapshot); the interrupt line follows the serial
      port and no shutdown message is missed (KvmUart); once the run is finished the
      threads end within a bound, unless the single wake-up is lost, which can happen
      (KvmRunner); what the guest finds at its start, and the RAM sizes that reach into
      the windows of the devices (KvmAcpi, KvmBoot); what a received and a transmitted
      frame do (KvmNet).  [KvmVm.kvm_vm_safe] puts them together: in every interleaving of
      the threads over the devices RunVm creates, only guest RAM is written, each
      interrupt line follows its device, the image under the overlay is unchanged, no
      call of a device hangs and the threads are never deadlocked.

    ** Not modelled

    The N-API glue and the smoke-test entry points, the calls that create the partition
    and set its properties, Win32 console modes and debug output are input/output around
    the modelled parts.  The slirp adapter's timers and sockets, the guest console
    program (src/guest) and the TypeScript layer are outside the monitor's core.  Of the
    macOS backend the virtio devices, the image loader and the threads are not modelled.
    Of the Linux backend the terminal's raw mode with the reading of console input, and
    the opening and configuration of the TAP device and of libslirp are not modelled. *)

From Stdlib Require Export ZArith Lia Bool.
From Stdlib Require Export Strings.String Strings.Ascii.
From stdpp Require Export gmap base numbers option list decidable.

#[global] Open Scope Z_scope.
#[global] Open Scope bool_scope.

(** ** Functional record update

    [s <| f := v |>] replaces field [f] of [s].  A record opts in by giving its
    eta expansion as an instance of [Eta]; the setter of a field is obtained by
    abstracting the projection in that expansion, so that [cbn] leaves the other
    fields as folded projections. *)

Class Eta (R : Type) := eta_of : R -> R.
Class Setter {R T : Type} (proj : R -> T) := upd_field : (T -> T) -> R -> R.

Ltac build_setter R proj :=
  let inst := constr:(ltac:(typeclasses eauto) : Eta R) in
  let body := eval unfold eta_of in (@eta_of R inst) in
  let body := eval red in body in
  match eval pattern proj in body with
  | ?g _ => exact (fun f => g (fun r => f (proj r)))
  end.

#[global] Hint Extern 1 (@Setter ?R _ ?proj) => build_setter R proj : typeclass_instances.

Declare Scope vmm_scope.
Delimit Scope vmm_scope with vmm.
#[global] Open Scope vmm_scope.

Notation "s <| f := v |>" := (upd_field (proj := f) (fun _ => v) s)
  (at level 1, f at level 10, v at level 99, left associativity) : vmm_scope.

(** ** Outcomes and the state-and-exception monad

    [Throw] is a C++ exception carrying its message.  [OutOfFuel] marks a bounded
    loop that was given too few iterations: no handler catches it, and every
    loop of the development has a theorem that it is not reached. *)

Inductive outcome (A : Type) : Type :=
  | Ok (a : A)
  | Throw (msg : string)
  | OutOfFuel.
Arguments Ok {A} a.
Arguments Throw {A} msg.
Arguments OutOfFuel {A}.

#[export] Instance outcome_ret : MRet outcome := fun A a => Ok a.
#[export] Instance outcome_bind : MBind outcome := fun A B f o =>
  match o with Ok a => f a | Throw m => Throw m | OutOfFuel => OutOfFuel end.

Definition is_ok {A} (o : outcome A) : bool :=
  match o with Ok _ => true | _ => false end.

(** A computation over a mutable state: the state reached is kept when the
    computation throws, as the mutations made before a C++ [throw] are. *)
Definition M (S A : Type) : Type := S -> outcome A * S.

#[export] Instance M_ret {S} : MRet (M S) := fun A a s => (Ok a, s).
#[export] Instance M_bind {S} : MBind (M S) := fun A B f m s =>
  match m s with
  | (Ok a, s') => f a s'
  | (Throw e, s') => (Throw e, s')
  | (OutOfFuel, s') => (OutOfFuel, s')
  end.

Definition lift {S A} (o : outcome A) : M S A := fun s => (o, s).
Definition gets {S A} (f : S -> A) : M S A := fun s => (Ok (f s), s).
Definition modify {S} (f : S -> S) : M S unit := fun s => (Ok tt, f s).
Definition when {S} (b : bool) (m : M S unit) : M S unit :=
  if b then m else mret tt.
Definition fail_fuel {S A} : M S A := fun s => (OutOfFuel, s).

(** [try { m } catch (...) { h }] *)
Definition try_catch {S A} (m h : M S A) : M S A := fun s =>
  match m s with
  | (Throw _, s') => h s'
  | r => r
  end.

(** Running a computation on one component of a pair of states. *)
Definition on_fst {S T A} (m : M S A) : M (S * T) A := fun '(s, t) =>
  let '(o, s') := m s in (o, (s', t)).
Definition on_snd {S T A} (m : M T A) : M (S * T) A := fun '(s, t) =>
  let '(o, t') := m t in (o, (s, t')).

(** Running a computation on a field of the state. *)
Definition zoom {S T A} (get : S -> T) (put : T -> S -> S) (m : M T A) : M S A := fun s =>
  let '(o, t) := m (get s) in (o, put t s).

(** A range-based [for]: stops at the first throw. *)
Fixpoint for_each {S X} (f : X -> M S unit) (l : list X) : M S unit :=
  match l with
  | [] => mret tt
  | x :: l => f x ≫= fun _ => for_each f l
  end.

(** *** Reasoning about computations *)

Section M_facts.
Context {S : Type}.

Lemma bind_run {A B} (m : M S A) (f : A -> M S B) s :
  (m ≫= f) s =
  match m s with
  | (Ok a, s') => f a s'
  | (Throw e, s') => (Throw e, s')
  | (OutOfFuel, s') => (OutOfFuel, s')
  end.
Proof. reflexivity. Qed.

Lemma bind_ok {A B} (m : M S A) (f : A -> M S B) s b s'' :
  (m ≫= f) s = (Ok b, s'') <->
  exists a s', m s = (Ok a, s') /\ f a s' = (Ok b, s'').
Proof.
  rewrite bind_run. destruct (m s) as [[a|e|] s'].
  - split; [eauto|]. intros (?&?&[= -> ->]&?). done.
  - split; [done|]. intros (?&?&[=]&?).
  - split; [done|]. intros (?&?&[=]&?).
Qed.

Lemma lift_bind {A B} (o : outcome A) (f : A -> M S B) s :
  (lift o ≫= f) s =
  match o with Ok a => f a s | Throw e => (Throw e, s) | OutOfFuel => (OutOfFuel, s) end.
Proof. by destruct o. Qed.
Lemma ret_bind {A B} (a : A) (f : A -> M S B) s : (mret a ≫= f) s = f a s.
Proof. done. Qed.
Lemma gets_bind {A B} (g : S -> A) (f : A -> M S B) s : (gets g ≫= f) s = f (g s) s.
Proof. done. Qed.
Lemma modify_bind {B} (g : S -> S) (f : unit -> M S B) s : (modify g ≫= f) s = f tt (g s).
Proof. done. Qed.
Lemma when_true_bind {B} (m : M S unit) (f : unit -> M S B) s :
  (when true m ≫= f) s = (m ≫= f) s.
Proof. done. Qed.
Lemma when_false_bind {B} (m : M S unit) (f : unit -> M S B) s :
  (when false m ≫= f) s = f tt s.
Proof. done. Qed.
Lemma bind_bind {A B C} (m : M S A) (f : A -> M S B) (g : B -> M S C) s :
  ((m ≫= f) ≫= g) s = (m ≫= fun a => f a ≫= g) s.
Proof. rewrite !bind_run. by destruct (m s) as [[a|e|] s']. Qed.

(** [safe I Q m]: started in the invariant [I], [m] never runs out of iterations;
    whatever its outcome it ends in [I], and a value it returns satisfies [Q]. *)
Definition safe {A} (I : S -> Prop) (Q : A -> Prop) (m : M S A) : Prop := forall s, I s ->
  match m s with
  | (Ok a, s') => I s' /\ Q a
  | (Throw _, s') => I s'
  | (OutOfFuel, _) => False
  end.

Lemma safe_inv {A} I Q (m : M S A) s o s' :
  safe I Q m -> I s -> m s = (o, s') -> o <> OutOfFuel /\ I s'.
Proof. intros Hm Hs E. specialize (Hm s Hs). rewrite E in Hm. destruct o; [by destruct Hm|done|done]. Qed.

Context (I : S -> Prop).

Lemma safe_weaken {A} (Q Q' : A -> Prop) (m : M S A) :
  safe I Q m -> (forall a, Q a -> Q' a) -> safe I Q' m.
Proof.
  intros Hm HQ s Hs. specialize (Hm s Hs). destruct (m s) as [[a|e|] s']; [|done|done].
  destruct Hm. auto.
Qed.

Lemma safe_ret {A} (Q : A -> Prop) (a : A) : Q a -> safe I Q (mret a).
Proof. intros Ha s Hs. done. Qed.

Lemma safe_bind {A B} (Q : A -> Prop) (Q' : B -> Prop) (m : M S A) (f : A -> M S B) :
  safe I Q m -> (forall a, Q a -> safe I Q' (f a)) -> safe I Q' (m ≫= f).
Proof.
  intros Hm Hf s Hs. rewrite bind_run. specialize (Hm s Hs).
  destruct (m s) as [[a|e|] s']; [|done|done]. destruct Hm as [Hs' Ha]. by apply Hf.
Qed.

Lemma safe_lift {A} (Q : A -> Prop) (o : outcome A) :
  o <> OutOfFuel -> (forall a, o = Ok a -> Q a) -> safe I Q (lift o).
Proof. intros Ho HQ s Hs. unfold lift. destruct o; [by auto|done|done]. Qed.

Lemma safe_gets {A} (Q : A -> Prop) (f : S -> A) : (forall s, I s -> Q (f s)) -> safe I Q (gets f).
Proof. intros HQ s Hs. split; [done|by apply HQ]. Qed.

Lemma safe_modify f : (forall s, I s -> I (f s)) -> safe I (fun _ => True) (modify f).
Proof. intros Hf s Hs. split; [by apply Hf|done]. Qed.

Lemma safe_when b m : (b = true -> safe I (fun _ => True) m) -> safe I (fun _ => True) (when b m).
Proof. intros Hm. destruct b; [by apply Hm|]. by apply safe_ret. Qed.

Lemma safe_if {A} (Q : A -> Prop) (b : bool) (m1 m2 : M S A) :
  (b = true -> safe I Q m1) -> (b = false -> safe I Q m2) -> safe I Q (if b then m1 else m2).
Proof. destruct b; auto. Qed.

Lemma safe_try {A} (Q : A -> Prop) (m h : M S A) :
  safe I Q m -> safe I Q h -> safe I Q (try_catch m h).
Proof.
  intros Hm Hh s Hs. unfold try_catch. specialize (Hm s Hs).
  destruct (m s) as [[a|e|] s']; [done|by apply Hh|done].
Qed.

Lemma safe_zoom {T A} (Q : A -> Prop) (get : S -> T) put (m : M T A) :
  (forall s o t', I s -> m (get s) = (o, t') ->
     o <> OutOfFuel /\ I (put t' s) /\ (forall a, o = Ok a -> Q a)) ->
  safe I Q (zoom get put m).
Proof.
  intros Hm s Hs. unfold zoom. specialize (Hm s). destruct (m (get s)) as [o t'].
  destruct (Hm o t' Hs eq_refl) as (Ho & HI & HQ). destruct o; [by auto|done|done].
Qed.

Lemma safe_for_each {X} (f : X -> M S unit) l :
  (forall x, x ∈ l -> safe I (fun _ => True) (f x)) -> safe I (fun _ => True) (for_each f l).
Proof.
  induction l as [|x l IH]; intros Hf; cbn [for_each]; [by apply safe_ret|].
  apply safe_bind with (fun _ => True); [apply Hf; by left|].
  intros _ _. apply IH. intros. apply Hf. by right.
Qed.
End M_facts.

(** *** Frames: an observation of the state that a computation leaves as it was *)

Definition frames {S X A} (g : S -> X) (m : M S A) : Prop := forall s, g (m s).2 = g s.

Section Frames.
Context {S X : Type} (g : S -> X).

Lemma frames_ret {A} (a : A) : frames g (mret a).
Proof. done. Qed.
Lemma frames_fail_fuel {A} : frames g (@fail_fuel S A).
Proof. done. Qed.
Lemma frames_lift {A} (o : outcome A) : frames g (lift o).
Proof. by intros s; destruct o. Qed.
Lemma frames_gets {A} (f : S -> A) : frames g (gets f).
Proof. done. Qed.
Lemma frames_modify f : (forall s, g (f s) = g s) -> frames g (modify f).
Proof. done. Qed.
Lemma frames_bind {A B} (m : M S A) (f : A -> M S B) : frames g m -> (forall a, frames g (f a)) -> frames g (m ≫= f).
Proof.
  intros Hm Hf s. rewrite bind_run. specialize (Hm s). destruct (m s) as [[a|e|] s']; cbn in *; [|done..].
  by rewrite Hf.
Qed.
Lemma frames_when b m : frames g m -> frames g (when b m).
Proof. by destruct b. Qed.
Lemma frames_if {A} (b : bool) (m1 m2 : M S A) : frames g m1 -> frames g m2 -> frames g (if b then m1 else m2).
Proof. by destruct b. Qed.
Lemma frames_try {A} (m h : M S A) : frames g m -> frames g h -> frames g (try_catch m h).
Proof.
  intros Hm Hh s. unfold try_catch. specialize (Hm s). destruct (m s) as [[a|e|] s']; cbn in *; [done| |done].
  by rewrite Hh.
Qed.
Lemma frames_zoom {T A} (get : S -> T) put (m : M T A) : (forall t s, g (put t s) = g s) -> frames g (zoom get put m).
Proof. intros Hp s. unfold zoom. destruct (m (get s)). apply Hp. Qed.
Lemma frames_for_each {Y} (f : Y -> M S unit) l : (forall y, frames g (f y)) -> frames g (for_each f l).
Proof.
  intros Hf. induction l as [|y l IH]; cbn [for_each]; [apply frames_ret|]. by apply frames_bind.
Qed.
Lemma frames_on_fst {T A} (m : M S A) : frames g m -> frames (fun st : S * T => g st.1) (on_fst m).
Proof. intros Hm [s t]. unfold on_fst. specialize (Hm s). by destruct (m s). Qed.
End Frames.

(** Follows the structure of a computation. *)
Ltac frames_step :=
  lazymatch goal with
  | |- frames _ (_ ≫= _) => apply frames_bind; [|intros ?]
  | |- frames _ (mret _) => apply frames_ret
  | |- frames _ (lift _) => apply frames_lift
  | |- frames _ (gets _) => apply frames_gets
  | |- frames _ (when _ _) => apply frames_when
  | |- frames _ (for_each _ _) => apply frames_for_each; intros ?
  | |- frames _ (if _ then _ else _) => apply frames_if
  | |- frames _ (try_catch _ _) => apply frames_try
  | |- frames _ (zoom _ _ _) => apply frames_zoom; intros ? ?; reflexivity
  | |- frames _ (modify _) => apply frames_modify; intros ?
  | |- frames _ fail_fuel => apply frames_fail_fuel
  end.

Lemma obind_ok {A B} (m : outcome A) (k : A -> outcome B) r : (m ≫= k) = Ok r -> exists a, m = Ok a /\ k a = Ok r.
Proof. destruct m; [by eauto|done..]. Qed.

Lemma outcome_bind_no_fuel {A B} (o : outcome A) (f : A -> outcome B) :
  o <> OutOfFuel -> (forall a, f a <> OutOfFuel) -> (o ≫= f) <> OutOfFuel.
Proof. intros Ho Hf. destruct o; [apply Hf|done|done]. Qed.

Lemma Ok_no_fuel {A} (a : A) : Ok a <> OutOfFuel.
Proof. done. Qed.

Create HintDb nofuel discriminated.
#[export] Hint Resolve outcome_bind_no_fuel Ok_no_fuel : nofuel.

(** Running the head command of a bind. *)
Create Rewrite HintDb mrun.
#[export] Hint Rewrite @bind_bind @lift_bind @ret_bind @gets_bind @modify_bind @when_true_bind
  @when_false_bind : mrun.

(** Splitting a computation along its structure; what is left are the guards and
    the facts about the state. *)
Ltac safe_step :=
  lazymatch goal with
  | |- safe _ _ (mret _) => apply safe_ret
  | |- safe _ _ (lift _ ≫= _) => eapply safe_bind; [apply safe_lift|intros ? ?]
  | |- safe _ _ (gets _ ≫= _) => eapply safe_bind; [apply safe_gets|intros ? ?]
  | |- safe _ _ (modify _ ≫= _) => eapply safe_bind; [apply safe_modify|intros ? _]
  | |- safe _ _ (modify _) => eapply safe_weaken; [apply safe_modify|]
  | |- safe _ _ (when _ _ ≫= _) => eapply safe_bind; [apply safe_when; intros ?|intros ? _]
  | |- safe _ _ (if ?b then _ else _) => apply safe_if; intros ?
  | |- safe _ _ (_ ≫= _) => eapply safe_bind; [|intros ? ?]
  end.
(** A switch: one goal per case. *)
Ltac safe_cases :=
  lazymatch goal with
  | |- safe _ _ (if _ then _ else _) => apply safe_if; intros ?; [|safe_cases]
  | |- _ => idtac
  end.
(** The next command of a bind, with what its result satisfies. *)
Ltac safe_with Q :=
  eapply (safe_bind _ Q); [first [apply safe_gets | apply safe_lift | idtac]|intros ? ?].
(** Nothing needs to be known of the result. *)
Ltac any_result := by intros ? _; instantiate (1 := fun _ => True).

(** ** [common::Check] and the checked arithmetic of the source are built on these. *)
Definition throw_unless (ok : bool) (msg : string) : outcome unit :=
  if ok then Ok tt else Throw msg.

Lemma throw_unless_ok ok msg u : throw_unless ok msg = Ok u <-> ok = true.
Proof. destruct u, ok; cbn; split; congruence. Qed.

(** ** Lists *)

Lemma nth_drop' {A} (l : list A) (k n : nat) d : nth n (drop k l) d = nth (k + n) l d.
Proof.
  revert l. induction k as [|k IH]; intros l; [done|]. destruct l; cbn; [by destruct n|apply IH].
Qed.

Lemma nth_take' {A} (l : list A) (k n : nat) d : (n < k)%nat -> nth n (take k l) d = nth n l d.
Proof.
  revert k n. induction l as [|x l IH]; intros k n Hn; destruct k, n; cbn; try done; try lia.
  apply IH. lia.
Qed.

Lemma fold_left_ext_in' {A B} (f g : A -> B -> A) (l : list B) (a : A) :
  (forall a b, b ∈ l -> f a b = g a b) -> fold_left f l a = fold_left g l a.
Proof.
  revert a. induction l as [|b l IH]; intros a Hfg; [done|]. cbn.
  rewrite Hfg by left. apply IH. intros. apply Hfg. by right.
Qed.

(** ** Long loops

    [repeat_until step n] runs [step] at most [2 ^ n] times, until it returns [inr]:
    the fuel of a loop over machine integers, still evaluable. *)
Section Repeat.
Context {A : Type} (step : A -> A + A).

Fixpoint repeat_until (n : nat) (x : A) : A + A :=
  match n with
  | O => step x
  | S n => match repeat_until n x with inl y => repeat_until n y | inr y => inr y end
  end.

Context (I Q : A -> Prop) (mu : A -> Z).
Hypothesis step_ok : forall x, I x ->
  match step x with inl y => I y /\ 0 <= mu y < mu x | inr y => Q y end.

Lemma repeat_until_progress n : forall x, I x ->
  match repeat_until n x with
  | inl y => I y /\ 0 <= mu y <= mu x - 2 ^ Z.of_nat n
  | inr y => Q y
  end.
Proof.
  induction n as [|n IH]; intros x Hx; cbn [repeat_until].
  - specialize (step_ok x Hx). destruct (step x) as [y|y]; [|done].
    split; [apply step_ok|]. change (2 ^ Z.of_nat 0) with 1. lia.
  - pose proof (IH x Hx) as H1. destruct (repeat_until n x) as [y|y]; [|done].
    destruct H1 as [Hy Hmu]. pose proof (IH y Hy) as H2.
    destruct (repeat_until n y) as [z|z]; [|done]. split; [apply H2|].
    rewrite Nat2Z.inj_succ, Z.pow_succ_r by lia. lia.
Qed.

(** A measure below [2 ^ n] makes the loop end. *)
Lemma repeat_until_ends n x : I x -> mu x < 2 ^ Z.of_nat n ->
  exists y, repeat_until n x = inr y /\ Q y.
Proof.
  intros Hx Hmu. pose proof (repeat_until_progress n x Hx) as H.
  destruct (repeat_until n x) as [y|y]; [lia|by exists y].
Qed.
End Repeat.

(** A measure that each round lowers by one bounds the rounds from below. *)
Lemma repeat_until_stays {A} (step : A -> A + A) (I : A -> Prop) (mu : A -> Z) n : forall x,
  (forall x, I x -> 0 < mu x -> exists y, step x = inl y /\ I y /\ mu y = mu x - 1) ->
  I x -> 2 ^ Z.of_nat n <= mu x ->
  exists y, repeat_until step n x = inl y /\ I y /\ mu y = mu x - 2 ^ Z.of_nat n.
Proof.
  induction n as [|n IH]; intros x Hstep Hx Hmu; cbn [repeat_until].
  - change (2 ^ Z.of_nat 0) with 1 in *. apply Hstep; [done|lia].
  - rewrite Nat2Z.inj_succ, Z.pow_succ_r in * by lia. pose proof (Z.pow_pos_nonneg 2 (Z.of_nat n)).
    destruct (IH x Hstep Hx ltac:(lia)) as (y & -> & Hy & Hmy).
    destruct (IH y Hstep Hy ltac:(lia)) as (z & -> & Hz & Hmz). exists z. split; [done|]. split; [done|lia].
Qed.

(** A loop whose every round goes on never ends. *)
Lemma repeat_until_diverges {A} (step : A -> A + A) (I : A -> Prop) n : forall x,
  (forall x, I x -> exists y, step x = inl y /\ I y) -> I x ->
  exists y, repeat_until step n x = inl y /\ I y.
Proof.
  induction n as [|n IH]; intros x Hstep Hx; cbn [repeat_until]; [by apply Hstep|].
  destruct (IH x Hstep Hx) as (y & -> & Hy). by apply IH.
Qed.

Lemma flat_map_ext_in' {A B} (f g : A -> list B) (l : list A) :
  (forall a, a ∈ l -> f a = g a) -> flat_map f l = flat_map g l.
Proof.
  induction l as [|a l IH]; intros Hfg; [done|]. cbn.
  rewrite Hfg by left. f_equal. apply IH. intros. apply Hfg. by right.
Qed.

(** A loop that appends one result per element, and stops at the first throw. *)
Fixpoint collect {A B} (f : A -> outcome B) (l : list A) : outcome (list B) :=
  match l with
  | [] => Ok []
  | a :: l => f a ≫= fun b => collect f l ≫= fun bs => Ok (b :: bs)
  end.

Lemma collect_ok {A B} (f : A -> outcome B) l bs :
  collect f l = Ok bs -> forall a, a ∈ l -> exists b, f a = Ok b.
Proof.
  revert bs. induction l as [|a l IH]; intros bs; cbn [collect]; [by intros _ a ?%not_elem_of_nil|].
  destruct (f a) as [b| |] eqn:E; cbn; [|done|done].
  destruct (collect f l) as [bs'| |]; cbn; [|done|done].
  intros _ a' Ha. apply elem_of_cons in Ha as [->|Ha]; [by exists b|by eapply IH].
Qed.

Lemma collect_no_fuel {A B} (f : A -> outcome B) l :
  (forall a, f a <> OutOfFuel) -> collect f l <> OutOfFuel.
Proof.
  intros Hf. induction l as [|a l IH]; cbn [collect]; [done|].
  apply outcome_bind_no_fuel; [apply Hf|]. intros b. apply outcome_bind_no_fuel; [done|]. done.
Qed.

(** Two functions that agree on a computed range. *)
Lemma map_seqZ_inv {A} (f g : Z -> A) lo n :
  map f (seqZ lo n) = map g (seqZ lo n) -> forall x, lo <= x < lo + n -> f x = g x.
Proof.
  intros H x Hx. assert (Hi : x ∈ seqZ lo n) by (by apply elem_of_seqZ). revert H Hi. clear Hx.
  induction (seqZ lo n) as [|y l IH]; cbn; [by intros _ ?%not_elem_of_nil|].
  intros [= H1 H2]. intros [->|Hi]%elem_of_cons; auto.
Qed.
