(* ===== verification/Words.v ===== *)
(** * Fixed-width unsigned integers

    A [uintN_t] of the source is a [Z]; the conversions [u8] ... [u64] write the
    wrap-around out, [i64] is the conversion to [int64_t], and [bnot w] is [~] at
    width [w].  The lemmas give the two idioms of the register files: testing a
    flag, [(x & m) != 0], and replacing one 32-bit half of a 64-bit register. *)

From S2P Require Import Prelude.

Definition u8 (x : Z) : Z := x mod 2 ^ 8.
Definition u16 (x : Z) : Z := x mod 2 ^ 16.
Definition u32 (x : Z) : Z := x mod 2 ^ 32.
Definition u64 (x : Z) : Z := x mod 2 ^ 64.
Definition i64 (x : Z) : Z := (x + 2 ^ 63) mod 2 ^ 64 - 2 ^ 63.
Definition bnot (w x : Z) : Z := Z.lnot x mod 2 ^ w.

(** [(x & m) != 0] *)
Definition has (x m : Z) : bool := negb (Z.land x m =? 0).

Definition UINT64_MAX : Z := 2 ^ 64 - 1.
Definition UINT32_MAX : Z := 2 ^ 32 - 1.

(** ** Ranges *)

Lemma u8_range x : 0 <= u8 x < 256.
Proof. apply (Z.mod_pos_bound x 256). lia. Qed.
Lemma u16_range x : 0 <= u16 x < 65536.
Proof. apply (Z.mod_pos_bound x 65536). lia. Qed.
Lemma u32_range x : 0 <= u32 x < 2 ^ 32.
Proof. apply Z.mod_pos_bound. lia. Qed.
Lemma u64_range x : 0 <= u64 x < 2 ^ 64.
Proof. apply Z.mod_pos_bound. lia. Qed.

Lemma u8_small x : 0 <= x < 256 -> u8 x = x.
Proof. intros. apply Z.mod_small. lia. Qed.
Lemma u16_small x : 0 <= x < 65536 -> u16 x = x.
Proof. intros. apply Z.mod_small. lia. Qed.
Lemma u32_small x : 0 <= x < 2 ^ 32 -> u32 x = x.
Proof. intros. by apply Z.mod_small. Qed.
Lemma u64_small x : 0 <= x < 2 ^ 64 -> u64 x = x.
Proof. intros. by apply Z.mod_small. Qed.

Create HintDb words discriminated.
#[export] Hint Resolve u8_range u16_range u32_range u64_range : words.

(** ** Bits *)

Lemma testbit_small x n i : 0 <= x < 2 ^ n -> n <= i -> Z.testbit x i = false.
Proof.
  intros Hx Hi. destruct (Z.ltb_spec n 0).
  - rewrite Z.pow_neg_r in Hx by done. lia.
  - rewrite <- (Z.mod_small x (2 ^ n)) by done. by apply Z.mod_pow2_bits_high.
Qed.

Lemma bits_small x n :
  0 <= n -> 0 <= x -> (forall i, n <= i -> Z.testbit x i = false) -> x < 2 ^ n.
Proof.
  intros Hn Hx Hb.
  assert (Hm : x = x mod 2 ^ n).
  { apply Z.bits_inj'. intros i Hi. destruct (Z.ltb_spec i n).
    - by rewrite Z.mod_pow2_bits_low.
    - rewrite Z.mod_pow2_bits_high by lia. by apply Hb. }
  rewrite Hm. apply Z.mod_pos_bound. lia.
Qed.

Lemma land_range x y n : 0 <= n -> 0 <= y < 2 ^ n -> 0 <= Z.land x y < 2 ^ n.
Proof.
  intros Hn Hy. assert (0 <= Z.land x y) by (apply Z.land_nonneg; lia).
  split; [done|]. apply bits_small; [done..|].
  intros i Hi. by rewrite Z.land_spec, (testbit_small y n), andb_false_r.
Qed.

Lemma lor_range x y n :
  0 <= n -> 0 <= x < 2 ^ n -> 0 <= y < 2 ^ n -> 0 <= Z.lor x y < 2 ^ n.
Proof.
  intros Hn Hx Hy. assert (0 <= Z.lor x y) by (apply Z.lor_nonneg; lia).
  split; [done|]. apply bits_small; [done..|].
  intros i Hi. by rewrite Z.lor_spec, (testbit_small x n), (testbit_small y n).
Qed.

Lemma bnot_range w x : 0 <= w -> 0 <= bnot w x < 2 ^ w.
Proof. intros. apply Z.mod_pos_bound. lia. Qed.

Lemma bnot_spec w x i : 0 <= i < w -> Z.testbit (bnot w x) i = negb (Z.testbit x i).
Proof. intros. unfold bnot. rewrite Z.mod_pow2_bits_low, Z.lnot_spec by lia. done. Qed.

(** A flag test reads one bit. *)
Lemma has_pow2 x k : 0 <= k -> has x (2 ^ k) = Z.testbit x k.
Proof.
  intros Hk. unfold has. destruct (Z.testbit x k) eqn:E.
  - destruct (Z.eqb_spec (Z.land x (2 ^ k)) 0) as [H|]; [|done].
    apply (f_equal (fun z => Z.testbit z k)) in H.
    rewrite Z.land_spec, E, Z.pow2_bits_true, Z.bits_0 in H by done. done.
  - replace (Z.land x (2 ^ k)) with 0; [done|]. symmetry. apply Z.bits_inj'. intros i Hi.
    rewrite Z.land_spec, Z.bits_0. destruct (Z.eqb_spec k i) as [->|].
    + by rewrite E.
    + rewrite Z.pow2_bits_false by done. apply andb_false_r.
Qed.

Lemma has_lor x y m : has (Z.lor x y) m = has x m || has y m.
Proof.
  unfold has. rewrite Z.land_lor_distr_l, <- negb_andb. f_equal.
  apply eq_true_iff_eq.
  rewrite andb_true_iff, !Z.eqb_eq. split.
  - by intros ?%Z.lor_eq_0_iff.
  - intros [-> ->]. done.
Qed.

(** Two values with no common bit: or is addition. *)
Lemma lor_disjoint_add a b : Z.land a b = 0 -> Z.lor a b = a + b.
Proof. intros H. pose proof (Z.add_lor_land a b). lia. Qed.

Lemma lor_shiftl_add lo hi n :
  0 <= n -> 0 <= lo < 2 ^ n -> Z.lor lo (Z.shiftl hi n) = lo + hi * 2 ^ n.
Proof.
  intros Hn Hlo. rewrite <- Z.shiftl_mul_pow2 by done. apply lor_disjoint_add.
  apply Z.bits_inj'. intros i Hi. rewrite Z.land_spec, Z.bits_0, Z.shiftl_spec by done.
  destruct (Z.ltb_spec i n).
  - rewrite (Z.testbit_neg_r hi) by lia. apply andb_false_r.
  - by rewrite (testbit_small lo n).
Qed.

(** A contiguous mask extracts a bit field in place. *)
Lemma land_field v n k :
  0 <= n -> 0 <= k -> Z.land v (Z.shiftl (Z.ones n) k) = v / 2 ^ k mod 2 ^ n * 2 ^ k.
Proof.
  intros Hn Hk. rewrite <- Z.shiftl_mul_pow2, <- Z.land_ones, <- Z.shiftr_div_pow2 by done.
  apply Z.bits_inj'. intros i Hi. rewrite Z.land_spec, !Z.shiftl_spec by done.
  destruct (Z.ltb_spec i k).
  - rewrite !(Z.testbit_neg_r _ (i - k)) by lia. apply andb_false_r.
  - by rewrite Z.land_spec, Z.shiftr_spec, Z.sub_add by lia.
Qed.

(** Or-ing flags into the low bits of an aligned value. *)
Lemma lor_aligned_add x f k : 0 <= k -> (2 ^ k | x) -> 0 <= f < 2 ^ k -> Z.lor x f = x + f.
Proof.
  intros Hk [y ->] Hf. rewrite Z.lor_comm, <- (Z.shiftl_mul_pow2 y k) at 1 by done.
  rewrite lor_shiftl_add by done. lia.
Qed.

(** [(q & ~0xFFFFFFFF) | v] and [(q & 0xFFFFFFFF) | (v << 32)]. *)
Definition set_lo32 (q v : Z) : Z := Z.lor (Z.land q 0xFFFFFFFF00000000) v.
Definition set_hi32 (q v : Z) : Z := Z.lor (Z.land q 0xFFFFFFFF) (Z.shiftl v 32).

Lemma land_lo32 q : Z.land q 0xFFFFFFFF = q mod 2 ^ 32.
Proof. change 0xFFFFFFFF with (Z.ones 32). by apply Z.land_ones. Qed.

Lemma land_hi32 q : 0 <= q < 2 ^ 64 -> Z.land q 0xFFFFFFFF00000000 = q / 2 ^ 32 * 2 ^ 32.
Proof.
  intros Hq. rewrite <- Z.shiftl_mul_pow2, <- Z.shiftr_div_pow2 by done.
  change 0xFFFFFFFF00000000 with (Z.shiftl (Z.ones 32) 32).
  apply Z.bits_inj'. intros i Hi. rewrite Z.land_spec, !Z.shiftl_spec by done.
  destruct (Z.ltb_spec i 32).
  - rewrite !(Z.testbit_neg_r _ (i - 32)) by lia. apply andb_false_r.
  - rewrite Z.shiftr_spec, Z.sub_add by lia. destruct (Z.ltb_spec i 64).
    + rewrite Z.ones_spec_low by lia. apply andb_true_r.
    + by rewrite (testbit_small q 64).
Qed.

Lemma set_lo32_spec q v :
  0 <= q < 2 ^ 64 -> 0 <= v < 2 ^ 32 -> set_lo32 q v = v + q / 2 ^ 32 * 2 ^ 32.
Proof.
  intros Hq Hv. unfold set_lo32. rewrite land_hi32, Z.lor_comm by done.
  rewrite <- (Z.shiftl_mul_pow2 (q / 2 ^ 32) 32) at 1 by done. by apply lor_shiftl_add.
Qed.

Lemma set_hi32_spec q v : set_hi32 q v = q mod 2 ^ 32 + v * 2 ^ 32.
Proof.
  unfold set_hi32. rewrite land_lo32. apply lor_shiftl_add; [done|].
  by apply Z.mod_pos_bound.
Qed.

Lemma div32_range q : 0 <= q < 2 ^ 64 -> 0 <= q / 2 ^ 32 < 2 ^ 32.
Proof. intros. split; [apply Z.div_pos; lia|]. apply Z.div_lt_upper_bound; lia. Qed.

Lemma set_lo32_range q v : 0 <= q < 2 ^ 64 -> 0 <= v < 2 ^ 32 -> 0 <= set_lo32 q v < 2 ^ 64.
Proof. intros. rewrite set_lo32_spec by done. pose proof (div32_range q). lia. Qed.
Lemma set_hi32_range q v : 0 <= v < 2 ^ 32 -> 0 <= set_hi32 q v < 2 ^ 64.
Proof.
  intros. rewrite set_hi32_spec. pose proof (Z.mod_pos_bound q (2 ^ 32)). lia.
Qed.
#[export] Hint Resolve set_lo32_range set_hi32_range : words.

(** Writing the two halves in either order programs the whole register. *)
Lemma set_halves q lo hi :
  0 <= q < 2 ^ 64 -> 0 <= lo < 2 ^ 32 -> 0 <= hi < 2 ^ 32 ->
  set_hi32 (set_lo32 q lo) hi = lo + hi * 2 ^ 32 /\
  set_lo32 (set_hi32 q hi) lo = lo + hi * 2 ^ 32.
Proof.
  intros Hq Hlo Hhi. split.
  - rewrite set_hi32_spec, set_lo32_spec, Z.mod_add, Z.mod_small by done. done.
  - rewrite set_lo32_spec by auto with words.
    rewrite set_hi32_spec, Z.div_add, Z.div_small by (try apply Z.mod_pos_bound; done).
    done.
Qed.

(** ** Exhaustive reasoning on a byte *)

Lemma byte_cases (P : Z -> bool) :
  forallb P (map Z.of_nat (seq 0 256)) = true -> forall b, 0 <= b < 256 -> P b = true.
Proof.
  intros H b Hb. rewrite forallb_forall in H. apply H.
  rewrite in_map_iff. exists (Z.to_nat b). split; [lia|]. apply in_seq. lia.
Qed.

(** A register update through a write mask keeps the other bits. *)
Lemma merge_fixed_bits d old m n :
  Z.land m n = 0 -> Z.land (Z.lor (Z.land d m) (Z.land old n)) n = Z.land old n.
Proof.
  intros H. by rewrite Z.land_lor_distr_l, <- !Z.land_assoc, H, Z.land_0_r, Z.lor_0_l, Z.land_diag.
Qed.

Lemma has_land x m n : Z.land m n = n -> has (Z.land x m) n = has x n.
Proof. intros H. unfold has. by rewrite <- Z.land_assoc, H. Qed.
