(* ===== verification/Bytes.v ===== *)
(** * native/common/bytes.h

    Throw-on-false [Check], the overflow and range guards, the little-endian
    readers and writers and [DepositBits].  A writer [WriteUn(p, v)] is modelled by
    the bytes it stores at [p[0], p[1], ...]; a reader takes the bytes found at
    [p].  The lemmas relate both to the reference encoding [le_bytes]/[le_num]. *)

From S2P Require Import Prelude Words.

(** ** The helpers of bytes.h *)

Definition Check (ok : bool) (message : string) : outcome unit :=
  if ok then Ok tt else Throw message.

Definition CheckedAdd (a b : Z) (what : string) : outcome Z :=
  Check ((b =? 0) || (a <=? UINT64_MAX - b)) (what ++ " overflow") ≫= fun _ =>
  Ok (u64 (a + b)).

Definition CheckedMul (a b : Z) (what : string) : outcome Z :=
  if (a =? 0) || (b =? 0) then Ok 0
  else
    Check (a <=? UINT64_MAX / b) (what ++ " overflow") ≫= fun _ =>
    Ok (u64 (a * b)).

Definition CheckRange (total offset len : Z) (what : string) : outcome unit :=
  Check (offset <=? total) (what ++ " offset is out of range") ≫= fun _ =>
  Check (len <=? u64 (total - offset)) (what ++ " length is out of range").

(** [p[i]] *)
Definition byte_at (p : list Z) (i : Z) : Z := nth (Z.to_nat i) p 0.

(** The hexadecimal digits [snprintf] prints with %x: at least [width], before [acc]. *)
Definition hex_digit (d : Z) : ascii := ascii_of_nat (Z.to_nat (if d <? 10 then 48 + d else 87 + d)).

Fixpoint hex_digits (fuel width : nat) (n : Z) (acc : string) : string :=
  match fuel with
  | O => acc
  | S fuel =>
      if (n =? 0) && (width =? 0)%nat then acc
      else hex_digits fuel (pred width) (n / 16) (String (hex_digit (n mod 16)) acc)
  end.

Definition WriteU16 (v : Z) : list Z :=
  [u8 (Z.land v 0xff); u8 (Z.land (Z.shiftr v 8) 0xff)].

Definition WriteU32 (v : Z) : list Z :=
  map (fun i => u8 (Z.land (Z.shiftr v (8 * i)) 0xff)) (seqZ 0 4).

Definition WriteU64 (v : Z) : list Z :=
  map (fun i => u8 (Z.land (Z.shiftr v (8 * i)) 0xff)) (seqZ 0 8).

Definition ReadU16 (p : list Z) : Z :=
  Z.lor (byte_at p 0) (Z.shiftl (byte_at p 1) 8).

Definition ReadU32 (p : list Z) : Z :=
  Z.lor (Z.lor (Z.lor (byte_at p 0) (Z.shiftl (byte_at p 1) 8))
           (Z.shiftl (byte_at p 2) 16))
    (Z.shiftl (byte_at p 3) 24).

Definition ReadU64 (p : list Z) : Z :=
  fold_left (fun v i => Z.lor v (Z.shiftl (byte_at p i) (8 * i))) (seqZ 0 8) 0.

(** The loops of [ReadLe]/[WriteLe] run while [i < len && i < 8]. *)
Definition ReadLe (p : list Z) (len : Z) : Z :=
  fold_left (fun value i => Z.lor value (Z.shiftl (byte_at p i) (i * 8)))
    (seqZ 0 (Z.min len 8)) 0.

Definition WriteLe (len value : Z) : list Z :=
  map (fun i => u8 (Z.shiftr value (i * 8))) (seqZ 0 (Z.min len 8)).

Definition DepositBits (old_value shift bits value : Z) : Z :=
  if (bits =? 0) || (64 <=? shift) then old_value
  else
    let effective := if 64 - shift <? bits then 64 - shift else bits in
    let mask := if effective =? 64 then UINT64_MAX else u64 (Z.shiftl 1 effective - 1) in
    Z.lor (Z.land old_value (bnot 64 (u64 (Z.shiftl mask shift))))
      (u64 (Z.shiftl (Z.land value mask) shift)).

(** ** The reference encoding *)

Definition is_byte (b : Z) : Prop := 0 <= b < 256.
Definition bytes_ok (bs : list Z) : Prop := Forall is_byte bs.

Definition bytes_okb (bs : list Z) : bool := forallb (fun b => (0 <=? b) && (b <? 256)) bs.

Lemma bytes_okb_ok bs : bytes_okb bs = true -> bytes_ok bs.
Proof.
  unfold bytes_okb. rewrite forallb_forall. intros H. apply Forall_forall. intros b Hb.
  specialize (H b Hb). unfold is_byte. lia.
Qed.

Fixpoint le_bytes (n : nat) (v : Z) : list Z :=
  match n with
  | O => []
  | S n => v mod 256 :: le_bytes n (v / 256)
  end.

Fixpoint le_num (bs : list Z) : Z :=
  match bs with
  | [] => 0
  | b :: bs => b + 256 * le_num bs
  end.

Lemma length_le_bytes n v : length (le_bytes n v) = n.
Proof. revert v. induction n; intros; cbn; by rewrite ?IHn. Qed.

Lemma le_bytes_ok n v : bytes_ok (le_bytes n v).
Proof.
  revert v. induction n; intros; constructor; [|apply IHn].
  by apply Z.mod_pos_bound.
Qed.

Lemma le_num_bytes n v : le_num (le_bytes n v) = v mod 2 ^ (8 * Z.of_nat n).
Proof.
  revert v. induction n as [|n IH]; intros v; cbn [le_bytes le_num].
  - by rewrite Z.mul_0_r, Z.mod_1_r.
  - rewrite IH. replace (8 * Z.of_nat (S n)) with (8 + 8 * Z.of_nat n) by lia.
    rewrite Z.pow_add_r by lia. change (2 ^ 8) with 256. by rewrite Z.rem_mul_r by lia.
Qed.

Lemma le_num_range bs : bytes_ok bs -> 0 <= le_num bs < 2 ^ (8 * Z.of_nat (length bs)).
Proof.
  induction 1 as [|b bs Hb Hbs IH]; cbn [le_num length]; [done|].
  replace (8 * Z.of_nat (S (length bs))) with (8 + 8 * Z.of_nat (length bs)) by lia.
  rewrite Z.pow_add_r by lia. change (2 ^ 8) with 256. unfold is_byte in Hb. lia.
Qed.

Lemma le_bytes_num bs : bytes_ok bs -> le_bytes (length bs) (le_num bs) = bs.
Proof.
  induction 1 as [|b bs Hb Hbs IH]; cbn [le_num le_bytes length]; [done|].
  unfold is_byte in Hb.
  replace ((b + 256 * le_num bs) mod 256) with b
    by (rewrite Z.mul_comm, Z.mod_add, Z.mod_small; lia).
  replace ((b + 256 * le_num bs) / 256) with (le_num bs)
    by (rewrite Z.mul_comm, Z.div_add, Z.div_small; lia).
  by rewrite IH.
Qed.

(** A byte extracted with a shift and a mask. *)
Lemma byte_of_shift v i : 0 <= i -> u8 (Z.land (Z.shiftr v i) 0xff) = v / 2 ^ i mod 256.
Proof.
  intros. change 0xff with (Z.ones 8). rewrite Z.land_ones, Z.shiftr_div_pow2 by lia.
  unfold u8. by rewrite Z.mod_mod.
Qed.

Lemma WriteU16_le v : WriteU16 v = le_bytes 2 v.
Proof.
  unfold WriteU16. rewrite <- (Z.shiftr_0_r v) at 1.
  rewrite !byte_of_shift by lia. by rewrite Z.div_1_r.
Qed.

Lemma WriteU32_le v : WriteU32 v = le_bytes 4 v.
Proof.
  unfold WriteU32. change (seqZ 0 4) with [0; 1; 2; 3]. cbn [map le_bytes].
  rewrite !byte_of_shift by lia. cbn [Z.mul Pos.mul]. rewrite Z.div_1_r.
  rewrite !Z.div_div by lia. done.
Qed.

Lemma WriteU64_le v : WriteU64 v = le_bytes 8 v.
Proof.
  unfold WriteU64. change (seqZ 0 8) with [0; 1; 2; 3; 4; 5; 6; 7]. cbn [map le_bytes].
  rewrite !byte_of_shift by lia. cbn [Z.mul Pos.mul]. rewrite Z.div_1_r.
  rewrite !Z.div_div by lia. done.
Qed.

Lemma byte_at_cons b bs i : 0 < i -> byte_at (b :: bs) i = byte_at bs (i - 1).
Proof.
  intros. unfold byte_at. by replace (Z.to_nat i) with (S (Z.to_nat (i - 1))) by lia.
Qed.

Lemma byte_at_range bs i : bytes_ok bs -> is_byte (byte_at bs i).
Proof.
  intros H. unfold byte_at. revert H. generalize (Z.to_nat i). clear i.
  induction bs as [|b bs IH]; intros n H; [by destruct n|].
  inversion H; subst. destruct n; [done|]. by apply IH.
Qed.

(** The reading loops accumulate the first [n] bytes, low byte first. *)
Definition read_loop (p : list Z) (n : nat) : Z :=
  fold_left (fun v i => Z.lor v (Z.shiftl (byte_at p i) (8 * i))) (seqZ 0 (Z.of_nat n)) 0.

Lemma le_num_snoc bs b :
  le_num (bs ++ [b]) = le_num bs + b * 2 ^ (8 * Z.of_nat (length bs)).
Proof.
  induction bs as [|c bs IH]; cbn [app le_num length].
  - rewrite Z.mul_0_r. lia.
  - rewrite IH. replace (8 * Z.of_nat (S (length bs))) with (8 + 8 * Z.of_nat (length bs)) by lia.
    rewrite Z.pow_add_r by lia. lia.
Qed.

Lemma read_loop_le p n : bytes_ok p -> (n <= length p)%nat -> read_loop p n = le_num (take n p).
Proof.
  intros Hp. unfold read_loop. induction n as [|n IH]; intros Hn; [done|].
  rewrite seqZ_S, fold_left_app, IH by lia. cbn [fold_left]. rewrite Z.add_0_l.
  assert (Hlt : (n < length p)%nat) by lia.
  destruct (lookup_lt_is_Some_2 p n Hlt) as [b Hb].
  erewrite take_S_r by exact Hb. rewrite le_num_snoc, length_take, Nat.min_l by lia.
  replace (byte_at p (Z.of_nat n)) with b.
  - apply lor_shiftl_add; [lia|].
    pose proof (le_num_range (take n p) (Forall_take _ _ _ Hp)) as Hr.
    by rewrite length_take, Nat.min_l in Hr by lia.
  - unfold byte_at. rewrite Nat2Z.id. symmetry. by apply nth_lookup_Some.
Qed.

Lemma ReadU64_le p : bytes_ok p -> (8 <= length p)%nat -> ReadU64 p = le_num (take 8 p).
Proof. apply (read_loop_le p 8). Qed.

Lemma ReadU32_le p : bytes_ok p -> (4 <= length p)%nat -> ReadU32 p = le_num (take 4 p).
Proof.
  intros Hp Hl. rewrite <- (read_loop_le p 4) by done. unfold read_loop.
  change (seqZ 0 (Z.of_nat 4)) with [0; 1; 2; 3]. cbn [fold_left Z.mul].
  by rewrite Z.shiftl_0_r, Z.lor_0_l.
Qed.

Lemma ReadU16_le p : bytes_ok p -> (2 <= length p)%nat -> ReadU16 p = le_num (take 2 p).
Proof.
  intros Hp Hl. rewrite <- (read_loop_le p 2) by done. unfold read_loop.
  change (seqZ 0 (Z.of_nat 2)) with [0; 1]. cbn [fold_left Z.mul].
  by rewrite Z.shiftl_0_r, Z.lor_0_l.
Qed.

Lemma length_WriteU16 v : length (WriteU16 v) = 2%nat.
Proof. done. Qed.
Lemma length_WriteU32 v : length (WriteU32 v) = 4%nat.
Proof. done. Qed.
Lemma length_WriteU64 v : length (WriteU64 v) = 8%nat.
Proof. done. Qed.

Lemma WriteU16_ok v : bytes_ok (WriteU16 v).
Proof. rewrite WriteU16_le. apply le_bytes_ok. Qed.
Lemma WriteU32_ok v : bytes_ok (WriteU32 v).
Proof. rewrite WriteU32_le. apply le_bytes_ok. Qed.
Lemma WriteU64_ok v : bytes_ok (WriteU64 v).
Proof. rewrite WriteU64_le. apply le_bytes_ok. Qed.

Create HintDb bytes discriminated.
Create Rewrite HintDb bytes_len.
#[export] Hint Resolve WriteU16_ok WriteU32_ok WriteU64_ok le_bytes_ok : bytes.
#[export] Hint Rewrite length_WriteU16 length_WriteU32 length_WriteU64 length_le_bytes : bytes_len.

Lemma ReadU16_WriteU16 v : ReadU16 (WriteU16 v) = u16 v.
Proof.
  rewrite ReadU16_le by auto with bytes. rewrite WriteU16_le, take_ge by done.
  apply le_num_bytes.
Qed.
Lemma ReadU32_WriteU32 v : ReadU32 (WriteU32 v) = u32 v.
Proof.
  rewrite ReadU32_le by auto with bytes. rewrite WriteU32_le, take_ge by done.
  apply le_num_bytes.
Qed.
Lemma ReadU64_WriteU64 v : ReadU64 (WriteU64 v) = u64 v.
Proof.
  rewrite ReadU64_le by auto with bytes. rewrite WriteU64_le, take_ge by done.
  apply le_num_bytes.
Qed.

Lemma WriteU64_ReadU64 p : bytes_ok p -> length p = 8%nat -> WriteU64 (ReadU64 p) = p.
Proof.
  intros Hp Hl. rewrite ReadU64_le, take_ge, WriteU64_le, <- Hl by (done || lia).
  by apply le_bytes_num.
Qed.

Lemma ReadU16_range p : bytes_ok p -> (2 <= length p)%nat -> 0 <= ReadU16 p < 65536.
Proof.
  intros Hp Hl. rewrite ReadU16_le by done.
  pose proof (le_num_range (take 2 p) (Forall_take _ _ _ Hp)) as H.
  rewrite length_take, Nat.min_l in H by lia. exact H.
Qed.
Lemma ReadU32_range p : bytes_ok p -> (4 <= length p)%nat -> 0 <= ReadU32 p < 2 ^ 32.
Proof.
  intros Hp Hl. rewrite ReadU32_le by done.
  pose proof (le_num_range (take 4 p) (Forall_take _ _ _ Hp)) as H.
  rewrite length_take, Nat.min_l in H by lia. exact H.
Qed.
Lemma ReadU64_range p : bytes_ok p -> (8 <= length p)%nat -> 0 <= ReadU64 p < 2 ^ 64.
Proof.
  intros Hp Hl. rewrite ReadU64_le by done.
  pose proof (le_num_range (take 8 p) (Forall_take _ _ _ Hp)) as H.
  rewrite length_take, Nat.min_l in H by lia. exact H.
Qed.

(** ** The range guards *)

Lemma CheckRange_ok total offset len what u :
  0 <= total < 2 ^ 64 -> 0 <= offset -> 0 <= len ->
  CheckRange total offset len what = Ok u <-> offset + len <= total.
Proof.
  intros Ht Ho Hl. unfold CheckRange, Check. destruct u. cbn.
  destruct (Z.leb_spec offset total); cbn.
  - rewrite u64_small by lia. destruct (Z.leb_spec len (total - offset)); split; try lia; done.
  - split; [done|lia].
Qed.

Lemma Check_ok b e u : Check b e = Ok u -> b = true.
Proof. unfold Check. by destruct b. Qed.

Lemma Check_no_fuel ok message : Check ok message <> OutOfFuel.
Proof. by destruct ok. Qed.
#[export] Hint Resolve Check_no_fuel : nofuel.
Lemma CheckRange_no_fuel total offset len what : CheckRange total offset len what <> OutOfFuel.
Proof. unfold CheckRange. auto with nofuel. Qed.
Lemma CheckedAdd_no_fuel a b what : CheckedAdd a b what <> OutOfFuel.
Proof. unfold CheckedAdd. auto with nofuel. Qed.
Lemma CheckedMul_no_fuel a b what : CheckedMul a b what <> OutOfFuel.
Proof. unfold CheckedMul. destruct ((a =? 0) || (b =? 0)); auto with nofuel. Qed.
#[export] Hint Resolve CheckRange_no_fuel CheckedAdd_no_fuel CheckedMul_no_fuel : nofuel.

Lemma CheckedAdd_ok a b what s :
  0 <= a < 2 ^ 64 -> 0 <= b < 2 ^ 64 ->
  CheckedAdd a b what = Ok s <-> s = a + b /\ a + b < 2 ^ 64.
Proof.
  intros Ha Hb. unfold CheckedAdd, Check, UINT64_MAX.
  destruct (Z.eqb_spec b 0), (Z.leb_spec a (2 ^ 64 - 1 - b)); cbn;
    rewrite ?u64_small by lia; split; try (intros [= <-]); try (intros [-> ?]);
    try done; try lia; f_equal; lia.
Qed.

Lemma CheckedMul_ok a b what s :
  0 <= a < 2 ^ 64 -> 0 <= b < 2 ^ 64 ->
  CheckedMul a b what = Ok s <-> s = a * b /\ a * b < 2 ^ 64.
Proof.
  intros Ha Hb. unfold CheckedMul, Check, UINT64_MAX.
  destruct (Z.eqb_spec a 0) as [->|]; [cbn; split; [by intros [= <-]|by intros [-> ?]]|].
  destruct (Z.eqb_spec b 0) as [->|]; [cbn; rewrite Z.mul_0_r; split; [by intros [= <-]|by intros [-> ?]]|].
  cbn [orb]. pose proof (Z.mul_div_le (2 ^ 64 - 1) b ltac:(lia)).
  pose proof (Z.mod_pos_bound (2 ^ 64 - 1) b ltac:(lia)).
  pose proof (Z.div_mod (2 ^ 64 - 1) b ltac:(lia)).
  destruct (Z.leb_spec a ((2 ^ 64 - 1) / b)); cbn.
  - assert (a * b < 2 ^ 64) by nia. rewrite u64_small by nia.
    split; [by intros [= <-]|by intros [-> ?]].
  - split; [done|]. intros [-> ?]. exfalso. nia.
Qed.

(** ** Byte buffers

    [put buf off bs] stores [bs] at [buf.data() + off]; [byte_sum] is the sum the
    checksums of the firmware tables are about. *)

Definition put (buf : list Z) (off : nat) (bs : list Z) : list Z :=
  take off buf ++ bs ++ drop (off + length bs) buf.

Definition byte_sum (l : list Z) : Z := fold_right Z.add 0 l.

Lemma byte_sum_app l1 l2 : byte_sum (l1 ++ l2) = byte_sum l1 + byte_sum l2.
Proof. unfold byte_sum. induction l1; cbn; lia. Qed.

Lemma length_put buf off bs : (off + length bs <= length buf)%nat -> length (put buf off bs) = length buf.
Proof. intros. unfold put. rewrite !length_app, length_take, length_drop. lia. Qed.

Lemma put_ok buf off bs : bytes_ok buf -> bytes_ok bs -> bytes_ok (put buf off bs).
Proof.
  intros Hb Hs. unfold put. apply Forall_app. split; [by apply Forall_take|].
  apply Forall_app. split; [done|by apply Forall_drop].
Qed.

Lemma take_put_le buf off bs n : (n <= off)%nat -> (off <= length buf)%nat -> take n (put buf off bs) = take n buf.
Proof.
  intros. unfold put. rewrite take_app_le by (rewrite length_take; lia).
  rewrite take_take. by replace (Nat.min n off) with n by lia.
Qed.

Lemma drop_put_ge buf off bs n :
  (off + length bs <= n)%nat -> (off + length bs <= length buf)%nat -> drop n (put buf off bs) = drop n buf.
Proof.
  intros. unfold put. rewrite app_assoc, drop_app_ge by (rewrite length_app, length_take; lia).
  rewrite drop_drop, length_app, length_take. f_equal. lia.
Qed.

(** Replacing one byte changes the sum by the difference. *)
Lemma byte_sum_put1 buf off v b :
  buf !! off = Some b -> byte_sum (put buf off [v]) = byte_sum buf - b + v.
Proof.
  intros Hb. rewrite <- (take_drop_middle _ _ _ Hb) at 2. unfold put. cbn [length].
  rewrite !byte_sum_app. cbn. rewrite Nat.add_1_r. unfold byte_sum. lia.
Qed.

(** ** Variable-width accesses *)

Lemma seqZ_le_bytes (n : nat) : forall v k,
  0 <= k -> map (fun i => u8 (Z.shiftr v (i * 8))) (seqZ k (Z.of_nat n)) = le_bytes n (v / 2 ^ (8 * k)).
Proof.
  induction n as [|n IH]; intros v k Hk; [done|].
  rewrite seqZ_cons by lia. rewrite Nat2Z.inj_succ, Z.pred_succ. cbn [map le_bytes].
  f_equal.
  - rewrite Z.shiftr_div_pow2 by lia. unfold u8. by rewrite (Z.mul_comm k 8).
  - rewrite IH by lia. f_equal. replace (8 * Z.succ k) with (8 * k + 8) by lia.
    rewrite Z.pow_add_r by lia. rewrite Z.div_div by lia. done.
Qed.

Lemma WriteLe_le len v : 0 <= len -> WriteLe len v = le_bytes (Z.to_nat (Z.min len 8)) v.
Proof.
  intros Hl. unfold WriteLe. rewrite <- (Z2Nat.id (Z.min len 8)) at 1 by lia.
  rewrite seqZ_le_bytes by done. by rewrite Z.mul_0_r, Z.div_1_r.
Qed.

Lemma ReadLe_le p len :
  0 <= len -> bytes_ok p -> Z.min len 8 <= Z.of_nat (length p) ->
  ReadLe p len = le_num (take (Z.to_nat (Z.min len 8)) p).
Proof.
  intros Hl Hp Hn. rewrite <- read_loop_le by (done || lia). unfold ReadLe, read_loop.
  rewrite Z2Nat.id by lia. apply fold_left_ext_in'. intros. by rewrite (Z.mul_comm b 8).
Qed.

Lemma length_WriteLe len v : 0 <= len -> length (WriteLe len v) = Z.to_nat (Z.min len 8).
Proof. intros. by rewrite WriteLe_le, length_le_bytes. Qed.
Lemma WriteLe_ok len v : 0 <= len -> bytes_ok (WriteLe len v).
Proof. intros. rewrite WriteLe_le by done. apply le_bytes_ok. Qed.
#[export] Hint Resolve WriteLe_ok : bytes.

(** Reading back an access of any width gives the value truncated to the bytes
    transferred (at most eight), and writing back what was read restores the bytes. *)
Theorem ReadLe_WriteLe len v p :
  0 <= len <= 8 -> bytes_ok p -> Z.of_nat (length p) = len ->
  ReadLe (WriteLe len v) len = v mod 2 ^ (8 * len) /\ WriteLe len (ReadLe p len) = p.
Proof.
  intros Hl Hp Hn. split.
  - rewrite ReadLe_le; [|lia|apply WriteLe_ok; lia|rewrite length_WriteLe; lia].
    rewrite WriteLe_le, take_ge, le_num_bytes by (rewrite ?length_le_bytes; lia).
    do 2 f_equal. lia.
  - rewrite ReadLe_le, WriteLe_le by (done || lia). rewrite Z.min_l, <- Hn, Nat2Z.id by lia.
    rewrite take_ge by lia. by apply le_bytes_num.
Qed.

Lemma ReadLe_WriteLe_witness : ReadLe (WriteLe 3 0x12345678) 3 = 0x345678.
Proof. by apply (ReadLe_WriteLe 3 0x12345678 [1; 2; 3]); [|apply bytes_okb_ok|]. Defined.

Lemma DepositBits_range old_value shift bits value :
  0 <= old_value < 2 ^ 64 -> 0 <= DepositBits old_value shift bits value < 2 ^ 64.
Proof.
  intros Ho. unfold DepositBits. destruct (_ || _); [done|].
  apply lor_range; [lia|apply land_range; [lia|by apply bnot_range]|apply u64_range].
Qed.

(** A deposit of the full width replaces the register. *)
Lemma DepositBits_full old_value value :
  0 <= value < 2 ^ 64 -> DepositBits old_value 0 64 value = value.
Proof.
  intros Hv. unfold DepositBits. change ((64 =? 0) || (64 <=? 0)) with false. cbv zeta iota.
  change (if 64 - 0 <? 64 then 64 - 0 else 64) with 64.
  change (if 64 =? 64 then _ else _) with (Z.ones 64).
  change (bnot 64 _) with 0. rewrite Z.land_0_r, Z.lor_0_l, Z.land_ones, Z.mod_small, Z.shiftl_0_r by lia.
  by apply u64_small.
Qed.

(** [DepositBits] replaces bits [shift, shift+bits) of the old value by the low
    bits of [value] and keeps every other bit. *)
Theorem DepositBits_spec old_value shift bits value i :
  0 <= old_value < 2 ^ 64 -> 0 <= value < 2 ^ 64 -> 0 <= shift -> 0 <= bits -> 0 <= i < 64 ->
  0 <= DepositBits old_value shift bits value < 2 ^ 64 /\
  Z.testbit (DepositBits old_value shift bits value) i =
  if (shift <=? i) && (i <? shift + bits) then Z.testbit value (i - shift)
  else Z.testbit old_value i.
Proof.
  intros Ho Hv Hs Hb Hi. unfold DepositBits.
  destruct (Z.eqb_spec bits 0) as [->|Hb0]; cbn [orb].
  { split; [done|]. destruct (Z.leb_spec shift i), (Z.ltb_spec i (shift + 0)); cbn; try done; lia. }
  destruct (Z.leb_spec 64 shift).
  { split; [done|]. by destruct (Z.leb_spec shift i); [lia|]. }
  set (eff := if 64 - shift <? bits then 64 - shift else bits).
  assert (He : 0 < eff <= 64 - shift /\ (i < shift + eff <-> i < shift + bits))
    by (unfold eff; destruct (Z.ltb_spec (64 - shift) bits); lia).
  destruct He as [He Hie]. clearbody eff.
  assert (Hm : (if eff =? 64 then UINT64_MAX else u64 (Z.shiftl 1 eff - 1)) = Z.ones eff).
  { destruct (Z.eqb_spec eff 64) as [->|]; [done|]. rewrite Z.ones_equiv, <- Z.sub_1_r.
    rewrite Z.shiftl_1_l. apply u64_small. split.
    - pose proof (Z.pow_pos_nonneg 2 eff). lia.
    - pose proof (Z.pow_le_mono_r 2 eff 64). lia. }
  rewrite Hm. split.
  { apply lor_range; [lia| |apply u64_range]. rewrite Z.land_comm. by apply land_range. }
  rewrite Z.lor_spec, Z.land_spec, bnot_spec by lia.
  unfold u64. rewrite !Z.mod_pow2_bits_low, !Z.shiftl_spec, Z.land_spec by lia.
  destruct (Z.leb_spec shift i); cbn [andb].
  - destruct (Z.ltb_spec i (shift + bits)).
    + rewrite Z.ones_spec_low by lia. by rewrite andb_false_r, andb_true_r.
    + rewrite Z.ones_spec_high by lia. by rewrite andb_false_r, orb_false_r, andb_true_r.
  - rewrite !(Z.testbit_neg_r _ (i - shift)) by lia. by rewrite andb_true_r, orb_false_r.
Qed.

Lemma DepositBits_spec_witness : Z.testbit (DepositBits 0xFF00 32 32 5) 34 = true.
Proof. apply (DepositBits_spec 0xFF00 32 32 5 34); lia. Defined.
