(* ===== verification/GuestMemory.v ===== *)
(** * native/whp/guest_memory.h: guest RAM as seen by the devices

    The host buffer that backs guest RAM is a total map from host offsets to bytes,
    so that a write outside [0, len) would be visible in the model; [ptr] is the
    bounds check of [GuestMemory::ptr].  [load]/[store] are the memcpy's and
    pointer writes of the devices. *)

From S2P Require Import Prelude Words Bytes.

(** ** Raw host memory *)

Definition ram : Type := Z -> Z.

Definition load (m : ram) (a : Z) (n : Z) : list Z := map m (seqZ a n).

Definition store (m : ram) (a : Z) (bs : list Z) : ram := fun x =>
  if (a <=? x) && (x <? a + Z.of_nat (length bs)) then nth (Z.to_nat (x - a)) bs 0 else m x.

(** [memset(p, v, n)] *)
Definition fill (m : ram) (a n v : Z) : ram := fun x =>
  if (a <=? x) && (x <? a + n) then v else m x.

Record GuestMemory := mkGuestMemory { data : ram; len : Z }.
#[export] Instance eta_GuestMemory : Eta GuestMemory :=
  fun s => mkGuestMemory (data s) (len s).

(** [GuestMemory::ptr]: the host offset of a checked range. *)
Definition ptr (mem : GuestMemory) (offset size : Z) : outcome Z :=
  CheckRange (len mem) offset size "guest memory" ≫= fun _ => Ok offset.

Definition mem_store (mem : GuestMemory) (a : Z) (bs : list Z) : GuestMemory :=
  mem <| data := store (data mem) a bs |>.

(** ** Lemmas on raw memory *)

Definition ram_ok (m : ram) : Prop := forall a, is_byte (m a).

(** [m'] differs from [m] at most where [P] holds. *)
Definition only_writes (P : Z -> Prop) (m m' : ram) : Prop :=
  forall a, ~ P a -> m' a = m a.

Definition in_range (lo n : Z) (a : Z) : Prop := lo <= a < lo + n.

Lemma length_load m a n : length (load m a n) = Z.to_nat n.
Proof. unfold load. by rewrite length_map, length_seqZ. Qed.

Lemma load_ok m a n : ram_ok m -> bytes_ok (load m a n).
Proof. intros H. apply Forall_map, Forall_forall. intros x _. apply H. Qed.

Lemma store_out m a bs x :
  ~ in_range a (Z.of_nat (length bs)) x -> store m a bs x = m x.
Proof.
  unfold in_range, store. intros H.
  destruct (Z.leb_spec a x), (Z.ltb_spec x (a + Z.of_nat (length bs))); cbn; try done. lia.
Qed.

Lemma store_in m a bs i :
  0 <= i < Z.of_nat (length bs) -> store m a bs (a + i) = nth (Z.to_nat i) bs 0.
Proof.
  intros H. unfold store.
  destruct (Z.leb_spec a (a + i)), (Z.ltb_spec (a + i) (a + Z.of_nat (length bs))); try lia.
  cbn. f_equal. lia.
Qed.

Lemma only_writes_store m a bs :
  only_writes (in_range a (Z.of_nat (length bs))) m (store m a bs).
Proof. intros x Hx. by apply store_out. Qed.

Lemma only_writes_refl P m : only_writes P m m.
Proof. by intros a _. Qed.

Lemma only_writes_trans P m1 m2 m3 :
  only_writes P m1 m2 -> only_writes P m2 m3 -> only_writes P m1 m3.
Proof. intros H1 H2 a Ha. by rewrite H2, H1. Qed.

Lemma only_writes_weaken (P Q : Z -> Prop) m m' :
  (forall a, P a -> Q a) -> only_writes P m m' -> only_writes Q m m'.
Proof. intros HPQ H a Ha. apply H. auto. Qed.

Lemma store_ok m a bs : ram_ok m -> bytes_ok bs -> ram_ok (store m a bs).
Proof.
  intros Hm Hb x. unfold store.
  destruct ((a <=? x) && (x <? a + Z.of_nat (length bs))); [|apply Hm].
  apply (byte_at_range bs (x - a)). done.
Qed.

Lemma fill_ok m a n v : ram_ok m -> is_byte v -> ram_ok (fill m a n v).
Proof. intros Hm Hv x. unfold fill. by destruct ((a <=? x) && (x <? a + n)). Qed.

Lemma fill_out m a n v x : ~ in_range a n x -> fill m a n v x = m x.
Proof.
  unfold in_range, fill. intros H.
  destruct (Z.leb_spec a x), (Z.ltb_spec x (a + n)); cbn; try done. lia.
Qed.

Lemma fill_in m a n v x : in_range a n x -> fill m a n v x = v.
Proof.
  unfold in_range, fill. intros H.
  destruct (Z.leb_spec a x), (Z.ltb_spec x (a + n)); cbn; try done; lia.
Qed.

Lemma load_ext m m' a n :
  (forall x, in_range a n x -> m' x = m x) -> load m' a n = load m a n.
Proof.
  intros H. unfold load. apply map_ext_in. intros x Hx.
  apply H. apply list_elem_of_In, elem_of_seqZ in Hx. done.
Qed.

(** Reading back what was stored, and reading elsewhere. *)
Lemma lookup_load m a n (i : nat) :
  load m a n !! i = if decide (Z.of_nat i < n) then Some (m (a + Z.of_nat i)) else None.
Proof.
  unfold load. change (map m (seqZ a n)) with (m <$> seqZ a n). rewrite list_lookup_fmap.
  case_decide.
  - by rewrite lookup_seqZ_lt by lia.
  - by rewrite lookup_seqZ_ge by lia.
Qed.

Lemma load_store_same m a bs : load (store m a bs) a (Z.of_nat (length bs)) = bs.
Proof.
  apply list_eq. intros i. rewrite lookup_load. case_decide as Hi.
  - assert (Hi' : (i < length bs)%nat) by lia.
    destruct (lookup_lt_is_Some_2 bs i Hi') as [b Hb]. rewrite Hb, store_in, Nat2Z.id by lia.
    f_equal. by apply nth_lookup_Some.
  - symmetry. apply lookup_ge_None_2. lia.
Qed.

Lemma load_store_eq m a bs n : n = Z.of_nat (length bs) -> load (store m a bs) a n = bs.
Proof. intros ->. apply load_store_same. Qed.

Lemma load_store_sub m a bs i n :
  0 <= i -> 0 <= n -> i + n <= Z.of_nat (length bs) ->
  load (store m a bs) (a + i) n = take (Z.to_nat n) (drop (Z.to_nat i) bs).
Proof.
  intros Hi Hn Hl. apply list_eq. intros j. rewrite lookup_load. case_decide as Hj.
  - rewrite lookup_take_lt, lookup_drop by lia.
    destruct (lookup_lt_is_Some_2 bs (Z.to_nat i + j)) as [b Hb]; [lia|]. rewrite Hb.
    rewrite <- Z.add_assoc, store_in by lia. f_equal. apply nth_lookup_Some. rewrite <- Hb. f_equal. lia.
  - symmetry. apply lookup_ge_None_2. rewrite length_take, length_drop. lia.
Qed.

Lemma load_sub m a n i k :
  0 <= i -> 0 <= k -> i + k <= n -> load m (a + i) k = take (Z.to_nat k) (drop (Z.to_nat i) (load m a n)).
Proof.
  intros Hi Hk Hn. apply list_eq. intros j. rewrite lookup_load.
  destruct (decide (Z.of_nat j < k)).
  - rewrite lookup_take_lt, lookup_drop, lookup_load, decide_True by lia. do 2 f_equal. lia.
  - by rewrite lookup_take_ge by lia.
Qed.

Lemma load_store_disjoint m a bs b n :
  b + n <= a \/ a + Z.of_nat (length bs) <= b ->
  load (store m a bs) b n = load m b n.
Proof.
  intros H. apply load_ext. intros x Hx. apply store_out. unfold in_range in *. lia.
Qed.

Lemma load_app m a n1 n2 :
  0 <= n1 -> 0 <= n2 -> load m a (n1 + n2) = load m a n1 ++ load m (a + n1) n2.
Proof. intros. unfold load. by rewrite seqZ_app, map_app. Qed.

Lemma load_0 m a : load m a 0 = [].
Proof. done. Qed.

Lemma store_app m a bs1 bs2 x :
  store m a (bs1 ++ bs2) x = store (store m a bs1) (a + Z.of_nat (length bs1)) bs2 x.
Proof.
  unfold store. rewrite length_app.
  destruct (Z.leb_spec a x), (Z.ltb_spec x (a + Z.of_nat (length bs1 + length bs2))),
    (Z.leb_spec (a + Z.of_nat (length bs1)) x),
    (Z.ltb_spec x (a + Z.of_nat (length bs1) + Z.of_nat (length bs2))),
    (Z.ltb_spec x (a + Z.of_nat (length bs1))); cbn; try lia; try done.
  - rewrite app_nth2 by lia. f_equal. lia.
  - rewrite app_nth1 by lia. done.
Qed.

(** The check of [ptr] is the absence of overflow past the end of RAM. *)
Lemma ptr_ok mem offset size p :
  0 <= len mem < 2 ^ 64 -> 0 <= offset -> 0 <= size ->
  ptr mem offset size = Ok p <-> p = offset /\ offset + size <= len mem.
Proof.
  intros Hl Ho Hs. unfold ptr.
  destruct (CheckRange (len mem) offset size "guest memory") as [[]|e|] eqn:E; cbn.
  - apply CheckRange_ok in E; [|done..]. split; [by intros [= <-]|by intros [-> _]].
  - split; [done|]. intros [-> H].
    apply (CheckRange_ok _ _ _ "guest memory" tt) in H; [|done..]. congruence.
  - split; [done|]. intros [-> H].
    apply (CheckRange_ok _ _ _ "guest memory" tt) in H; [|done..]. congruence.
Qed.

Lemma ptr_no_fuel mem offset size : ptr mem offset size <> OutOfFuel.
Proof. unfold ptr. auto with nofuel. Qed.
#[export] Hint Resolve ptr_no_fuel : nofuel.

(** What a device may do to guest memory: its size is fixed, it stays a memory of
    bytes, and nothing outside [0, len) is touched. *)
Record mem_step (g g' : GuestMemory) : Prop := {
  step_len : len g' = len g;
  step_bytes : ram_ok (data g');
  step_writes : only_writes (in_range 0 (len g)) (data g) (data g') }.

Lemma mem_step_refl g : ram_ok (data g) -> mem_step g g.
Proof. split; [done|done|apply only_writes_refl]. Qed.

Lemma mem_step_trans g1 g2 g3 : mem_step g1 g2 -> mem_step g2 g3 -> mem_step g1 g3.
Proof.
  intros [Hl1 _ Hw1] [Hl2 Hb2 Hw2]. split; [congruence|done|].
  eapply only_writes_trans; [exact Hw1|]. by rewrite <- Hl1.
Qed.

(** A store through a checked pointer. *)
Lemma mem_step_store g a n p bs :
  0 <= len g < 2 ^ 64 -> ram_ok (data g) -> bytes_ok bs -> 0 <= a ->
  Z.of_nat (length bs) <= n -> ptr g a n = Ok p -> mem_step g (mem_store g p bs).
Proof.
  intros Hl Hg Hb Ha Hn Hp. apply ptr_ok in Hp as [-> Hr]; [|done|done|lia].
  split; [done|by apply store_ok|].
  eapply only_writes_weaken; [|apply only_writes_store]. unfold in_range. lia.
Qed.

Lemma store_step g p bs :
  0 <= len g < 2 ^ 64 -> ram_ok (data g) -> bytes_ok bs -> 0 <= p ->
  p + Z.of_nat (length bs) <= len g -> mem_step g (mem_store g p bs).
Proof.
  intros Hl Hg Hb Hp Hr. apply (mem_step_store g p (Z.of_nat (length bs))); try done.
  apply ptr_ok; [done|done|lia|lia].
Qed.
