(* ===== verification/HostFile.v ===== *)
(** * native/whp/win_io.h and the file calls of the Windows API

    The Windows file API is not code of the repository: it is the interface
    [HostFile], a class of operations on a file-system state, with its documented
    behaviour stated by [HostFileLaws].  [PreadAll], [PwriteAll] and
    [ReadWholeFile] are the repository's loops over it.  [MemFiles] is an
    in-memory instance, against which the laws are discharged. *)

From S2P Require Import Prelude Words Bytes GuestMemory.

(** ** The host interface *)

Inductive open_mode := OpenExisting | CreateAlways.
Inductive access_mode := GenericRead | GenericReadWrite.

Class HostFile (F H : Type) := {
  (** [CreateFileA(path, access, ..., mode)]; [None] is INVALID_HANDLE_VALUE. *)
  CreateFile : string -> access_mode -> open_mode -> F -> option H * F;
  GetFileSizeEx : H -> F -> option Z;
  (** [false] when the call fails. *)
  SetFilePointerEx : H -> Z -> F -> bool * F;
  (** The bytes read (their number is the [got] of the call); [None] on failure. *)
  ReadFile : H -> Z -> F -> option (list Z) * F;
  (** The number of bytes written; [None] on failure. *)
  WriteFile : H -> list Z -> F -> option Z * F;
  FlushFileBuffers : H -> F -> bool * F;
  SetEndOfFile : H -> F -> bool * F;
  MarkSparse : H -> F -> bool * F
}.

Section Win_io.
Context {F H : Type} `{HostFile F H}.

(** [Check(call != 0, what)] around a call that returns a BOOL. *)
Definition checked_call (call : F -> bool * F) (what : string) : M F unit := fun f =>
  let '(ok, f') := call f in (Check ok what, f').

Definition seek (file : H) (off : Z) (what : string) : M F unit :=
  checked_call (SetFilePointerEx file off) what.

(** The loop of [PreadAll]: [acc] is [dst[0 .. done)].  The bytes already stored
    are returned with the outcome, since they stay in [dst] when a later read
    throws. *)
Fixpoint pread_loop (fuel : nat) (file : H) (len : Z) (acc : list Z) (f : F)
    : outcome unit * list Z * F :=
  let done := Z.of_nat (length acc) in
  if done <? len then
    match fuel with
    | O => (OutOfFuel, acc, f)
    | S fuel =>
        let want := Z.min (len - done) (2 ^ 20) in
        match ReadFile file want f with
        | (None, f') => (Throw "read disk failed", acc, f')
        | (Some [], f') => (Throw "short disk read", acc, f')
        | (Some got, f') => pread_loop fuel file len (acc ++ got) f'
        end
    end
  else (Ok tt, acc, f).

(** [PreadAll(file, dst, len, off)]: the outcome and the bytes stored at [dst]. *)
Definition PreadAll (file : H) (len off : Z) (f : F) : outcome unit * list Z * F :=
  match seek file off "seek disk read failed" f with
  | (Ok _, f') => pread_loop (Z.to_nat len) file len [] f'
  | (Throw e, f') => (Throw e, [], f')
  | (OutOfFuel, f') => (OutOfFuel, [], f')
  end.

Fixpoint pwrite_loop (fuel : nat) (file : H) (src : list Z) (f : F) : outcome unit * F :=
  match src with
  | [] => (Ok tt, f)
  | _ =>
      match fuel with
      | O => (OutOfFuel, f)
      | S fuel =>
          let want := Z.min (Z.of_nat (length src)) (2 ^ 20) in
          match WriteFile file (take (Z.to_nat want) src) f with
          | (None, f') => (Throw "write disk failed", f')
          | (Some wrote, f') =>
              if wrote =? 0 then (Throw "short disk write", f')
              else pwrite_loop fuel file (drop (Z.to_nat wrote) src) f'
          end
      end
  end.

(** [PwriteAll(file, src, len, off)], [src] being the [len] bytes at [src]. *)
Definition PwriteAll (file : H) (src : list Z) (off : Z) : M F unit :=
  seek file off "seek disk write failed" ≫= fun _ =>
  pwrite_loop (length src) file src.

Definition TruncateFileTo (file : H) (size : Z) : M F unit :=
  seek file size "seek truncate failed" ≫= fun _ =>
  checked_call (SetEndOfFile file) "truncate overlay failed".

Definition MarkFileSparse (file : H) : M F unit :=
  checked_call (MarkSparse file) "mark overlay sparse failed".

(** ** ReadWholeFile of elf_loader.cc *)

Fixpoint read_whole_loop (fuel : nat) (file : H) (path : string) (size : Z) (acc : list Z)
    : M F (list Z) := fun f =>
  let done := Z.of_nat (length acc) in
  if done <? size then
    match fuel with
    | O => (OutOfFuel, f)
    | S fuel =>
        let want := Z.min (size - done) (2 ^ 20) in
        match ReadFile file want f with
        | (None, f') => (Throw ("read " ++ path ++ " failed")%string, f')
        | (Some [], f') => (Throw ("short read " ++ path)%string, f')
        | (Some got, f') => read_whole_loop fuel file path size (acc ++ got) f'
        end
    end
  else (Ok acc, f).

Definition ReadWholeFile (path : string) : M F (list Z) := fun f =>
  match CreateFile path GenericRead OpenExisting f with
  | (None, f) => (Throw ("open " ++ path ++ " failed")%string, f)
  | (Some file, f) =>
      match GetFileSizeEx file f with
      | None => (Throw ("stat " ++ path ++ " failed")%string, f)
      | Some size =>
          if (0 <=? size) && (size <=? 2 ^ 31 - 1) then
            read_whole_loop (Z.to_nat size) file path size [] f
          else (Throw ("file is too large: " ++ path)%string, f)
      end
  end.
End Win_io.

(** ** The documented behaviour of the file calls

    [contents f h] is the file behind a handle, [position] the file pointer.  A
    successful read returns at most the bytes asked for, those found at the file
    pointer; a successful write stores a prefix of its argument there, a failed one may have
    written part of it; neither touches the file behind another handle. *)
Class HostFileLaws (F H : Type) `{HostFile F H} := {
  contents : H -> F -> Z -> Z;
  position : H -> F -> Z;
  contents_byte h f : ram_ok (contents h f);
  seek_contents h off f b f' h' :
    SetFilePointerEx h off f = (b, f') -> contents h' f' = contents h' f;
  seek_position h off f f' :
    SetFilePointerEx h off f = (true, f') -> position h f' = off;
  read_spec h want f bs f' :
    0 <= want -> ReadFile h want f = (Some bs, f') ->
    Z.of_nat (length bs) <= want /\ bs = load (contents h f) (position h f) (Z.of_nat (length bs)) /\
    position h f' = position h f + Z.of_nat (length bs);
  read_contents h want f r f' h' :
    ReadFile h want f = (r, f') -> contents h' f' = contents h' f;
  write_spec h bs f n f' :
    bytes_ok bs -> WriteFile h bs f = (Some n, f') ->
    0 <= n <= Z.of_nat (length bs) /\
    contents h f' = store (contents h f) (position h f) (take (Z.to_nat n) bs) /\
    position h f' = position h f + n;
  write_fail h bs f f' :
    WriteFile h bs f = (None, f') ->
    only_writes (in_range (position h f) (Z.of_nat (length bs))) (contents h f) (contents h f');
  write_other h bs f r f' h' :
    h <> h' -> WriteFile h bs f = (r, f') -> contents h' f' = contents h' f;
  flush_contents h f b f' h' :
    FlushFileBuffers h f = (b, f') -> contents h' f' = contents h' f
}.

Section Laws.
Context {F H : Type} `{HostFileLaws F H}.

Lemma seek_spec file off what f o f' :
  seek file off what f = (o, f') ->
  (forall h', contents h' f' = contents h' f) /\
  (o = Ok tt /\ position file f' = off \/ o = Throw what).
Proof.
  unfold seek, checked_call. destruct (SetFilePointerEx file off f) as [ok f1] eqn:E. intros [= <- <-].
  split; [intros; by eapply seek_contents|].
  destruct ok; cbn; [left|by right]. split; [done|]. by eapply seek_position.
Qed.

(** The loop appends the bytes found at the file pointer, in order. *)
Lemma pread_loop_spec fuel file len : forall acc f o bs f',
  0 <= len -> (Z.to_nat len - length acc <= fuel)%nat ->
  Z.of_nat (length acc) <= len ->
  pread_loop fuel file len acc f = (o, bs, f') ->
  (forall h', contents h' f' = contents h' f) /\
  (exists n, 0 <= n /\ Z.of_nat (length acc) + n <= len /\
     bs = acc ++ load (contents file f) (position file f) n /\
     (o = Ok tt -> Z.of_nat (length acc) + n = len)) /\
  o <> OutOfFuel.
Proof.
  induction fuel as [|fuel IH]; intros acc f o bs f' Hlen Hfuel Hacc; cbn [pread_loop].
  - destruct (Z.ltb_spec (Z.of_nat (length acc)) len); [lia|]. intros [= <- <- <-].
    split_and!; [done| |done].
    exists 0. rewrite app_nil_r. split_and!; [lia..|done|lia].
  - destruct (Z.ltb_spec (Z.of_nat (length acc)) len) as [Hlt|Hge].
    2:{ intros [= <- <- <-]. split_and!; [done| |done].
        exists 0. rewrite app_nil_r. split_and!; [lia..|done|lia]. }
    destruct (ReadFile file (Z.min (len - Z.of_nat (length acc)) (2 ^ 20)) f)
      as [[[|b got]|] f1] eqn:E.
    + intros [= <- <- <-]. split_and!; [intros; by eapply read_contents| |done].
      exists 0. rewrite app_nil_r. split_and!; [lia..|done|done].
    + intros Hrec. assert (Hw : 0 <= Z.min (len - Z.of_nat (length acc)) (2 ^ 20)) by lia.
      pose proof (read_spec _ _ _ _ _ Hw E) as (Hn & Hgot & Hpos).
      assert (Hc : forall h', contents h' f1 = contents h' f)
        by (intros; by eapply read_contents).
      remember (b :: got) as g eqn:Hg.
      assert (1 <= length g)%nat by (subst g; cbn; lia).
      apply IH in Hrec as (Hc' & (n & Hn0 & Hn1 & -> & Hok) & Hnf);
        rewrite ?length_app in *; [|lia..].
      split_and!; [intros; by rewrite Hc', Hc| |done].
      exists (Z.of_nat (length g) + n).
      split_and!; [lia|lia| |intros Ho; specialize (Hok Ho); lia].
      rewrite <- app_assoc. f_equal. rewrite load_app, <- Hgot, Hc, Hpos by lia. done.
    + intros [= <- <- <-]. split_and!; [intros; by eapply read_contents| |done].
      exists 0. rewrite app_nil_r. split_and!; [lia..|done|done].
Qed.

Lemma PreadAll_spec file len off f o bs f' :
  0 <= len -> PreadAll file len off f = (o, bs, f') ->
  (forall h', contents h' f' = contents h' f) /\
  (exists n, 0 <= n <= len /\ bs = load (contents file f) off n /\ (o = Ok tt -> n = len)) /\
  o <> OutOfFuel.
Proof.
  intros Hlen. unfold PreadAll.
  destruct (seek file off "seek disk read failed" f) as [o1 f1] eqn:E.
  apply seek_spec in E as (Hc & [[-> Hp]| ->]).
  - intros Hl. apply pread_loop_spec in Hl as (Hc' & (n & Hn0 & Hn1 & -> & Hok) & Hnf);
      cbn [length] in *; [|lia..].
    split_and!; [intros; by rewrite Hc', Hc| |done].
    exists n. split_and!; [lia|lia| |intros; specialize (Hok ltac:(done)); lia].
    by rewrite Hc, Hp.
  - intros [= <- <- <-]. split_and!; [done| |done]. exists 0. split_and!; [lia..|done|done].
Qed.

Lemma pwrite_loop_spec fuel file : forall src f o f',
  bytes_ok src -> (length src <= fuel)%nat -> pwrite_loop fuel file src f = (o, f') ->
  (forall h', h' <> file -> contents h' f' = contents h' f) /\
  only_writes (in_range (position file f) (Z.of_nat (length src)))
    (contents file f) (contents file f') /\
  (o = Ok tt -> forall a, contents file f' a = store (contents file f) (position file f) src a) /\
  o <> OutOfFuel.
Proof.
  induction fuel as [|fuel IH]; intros src f o f' Hby Hfuel; cbn [pwrite_loop];
    destruct src as [|c cs]; cbn [length] in *; try lia.
  1,2: intros [= <- <-]; split_and!; [done|apply only_writes_refl| |done];
    intros _ a; by rewrite store_out by (unfold in_range; cbn; lia).
  set (src := c :: cs) in *. change (S (length cs)) with (length src) in *.
  assert (Hsrc : (1 <= length src)%nat) by (subst src; cbn; lia). clearbody src.
  set (want := Z.min _ _).
  destruct (WriteFile file (take (Z.to_nat want) src) f) as [[wrote|] f1] eqn:E.
  2:{ intros [= <- <-]. split_and!; [intros h' Hh; by eapply write_other| |done|done].
      apply write_fail in E. eapply only_writes_weaken; [|exact E].
      intros a. unfold in_range. rewrite length_take. lia. }
  pose proof (write_spec _ _ _ _ _ (Forall_take _ _ _ Hby) E) as (Hw & Hst & Hpos). rewrite length_take in Hw.
  assert (Ho : forall h', h' <> file -> contents h' f1 = contents h' f)
    by (intros; by eapply write_other).
  rewrite take_take in Hst.
  replace (Nat.min (Z.to_nat wrote) (Z.to_nat want)) with (Z.to_nat wrote) in Hst by lia.
  assert (How : only_writes (in_range (position file f) (Z.of_nat (length src)))
                  (contents file f) (contents file f1)).
  { rewrite Hst. eapply only_writes_weaken; [|apply only_writes_store].
    intros a. unfold in_range. rewrite length_take. lia. }
  destruct (Z.eqb_spec wrote 0) as [->|Hne]; [by intros [= <- <-]|].
  intros Hrec. apply IH in Hrec as (Ho' & Hw' & Hc & Hnf); rewrite ?length_drop in *; [|by apply Forall_drop|lia].
  split_and!; [intros; by rewrite Ho', Ho| | |done].
  - eapply only_writes_trans; [exact How|]. eapply only_writes_weaken; [|exact Hw'].
    intros a. unfold in_range. rewrite Hpos. lia.
  - intros Hok a. rewrite (Hc Hok), Hst, Hpos. unfold store. rewrite length_take, length_drop.
    destruct (Z.leb_spec (position file f) a), (Z.leb_spec (position file f + wrote) a); cbn;
      try lia; try done;
    repeat match goal with |- context [?x <? ?y] => destruct (Z.ltb_spec x y) end; cbn;
      try lia; try done.
    + rewrite nth_drop'. f_equal. lia.
    + rewrite nth_take'; [done|lia].
Qed.

Lemma PwriteAll_spec file src off f o f' :
  bytes_ok src -> PwriteAll file src off f = (o, f') ->
  (forall h', h' <> file -> contents h' f' = contents h' f) /\
  only_writes (in_range off (Z.of_nat (length src))) (contents file f) (contents file f') /\
  (o = Ok tt -> forall a, contents file f' a = store (contents file f) off src a) /\
  o <> OutOfFuel.
Proof.
  intros Hby. unfold PwriteAll. rewrite bind_run.
  destruct (seek file off "seek disk write failed" f) as [o1 f1] eqn:E.
  apply seek_spec in E as (Hc & [[-> Hp]| ->]).
  - intros Hl. apply pwrite_loop_spec in Hl as (Ho & Hw & Hok & Hnf); [|done|lia].
    rewrite Hc, Hp in *. split_and!; [intros; by rewrite Ho, Hc|done..].
  - intros [= <- <-]. rewrite Hc. split_and!; [done|apply only_writes_refl|done|done].
Qed.
End Laws.

(** ** An in-memory file system

    Handle 0 is the base image, handle 1 the overlay; reads and writes transfer at
    most [chunk] bytes per call, to exercise the loops. *)
Module MemFiles.
Definition file : Type := {m : Z -> Z | ram_ok m}.
Record files := mkFiles { base : file; overlay : file; fsize : Z; pos : Z; chunk : Z }.

Lemma map_u8_ok bs : bytes_ok (map u8 bs).
Proof. apply Forall_map, Forall_forall. intros x _. apply u8_range. Qed.
Lemma map_u8_id bs : bytes_ok bs -> map u8 bs = bs.
Proof.
  induction 1 as [|b bs Hb Hbs IH]; cbn; [done|]. by rewrite IH, u8_small by (unfold is_byte in *; lia).
Qed.

Definition body (h : bool) (f : files) : Z -> Z := proj1_sig (if h then overlay f else base f).
Definition set_pos (f : files) (p : Z) : files :=
  mkFiles (base f) (overlay f) (fsize f) p (chunk f).
Definition write (b : file) (a : Z) (bs : list Z) : file :=
  exist _ (store (proj1_sig b) a (map u8 bs)) (store_ok _ _ _ (proj2_sig b) (map_u8_ok bs)).
Definition set_body (h : bool) (f : files) (bs : list Z) (p : Z) : files :=
  if h then mkFiles (base f) (write (overlay f) (pos f) bs) (fsize f) p (chunk f)
  else mkFiles (write (base f) (pos f) bs) (overlay f) (fsize f) p (chunk f).

#[export] Instance mem_files : HostFile files bool := {|
  CreateFile path access mode f :=
    match mode with OpenExisting => (Some false, f) | CreateAlways => (Some true, f) end;
  GetFileSizeEx h f := Some (fsize f);
  SetFilePointerEx h off f := (true, set_pos f off);
  ReadFile h want f :=
    let n := Z.min want (chunk f) in
    (Some (load (body h f) (pos f) n), set_pos f (pos f + Z.max 0 n));
  WriteFile h bs f :=
    let n := Z.max 0 (Z.min (Z.of_nat (length bs)) (chunk f)) in
    (Some n, set_body h f (take (Z.to_nat n) bs) (pos f + n));
  FlushFileBuffers h f := (true, f);
  SetEndOfFile h f := (true, f);
  MarkSparse h f := (true, f) |}.

#[export] Instance mem_files_laws : HostFileLaws files bool.
Proof.
  apply (Build_HostFileLaws _ _ _ body (fun _ => pos)).
  - intros h f. unfold body. apply proj2_sig.
  - intros h off f b f' h' [= <- <-]. by destruct h'.
  - intros h off f f' [= <-]. done.
  - intros h want f bs f' Hw [= <- <-]. rewrite length_load.
    split_and!; [lia| |cbn [set_pos pos]; lia].
    unfold load, seqZ. by rewrite Nat2Z.id.
  - intros h want f r f' h' [= <- <-]. by destruct h, h'.
  - intros h bs f n f' Hby [= Hn <-]. rewrite !Hn. split; [lia|].
    pose proof (map_u8_id (take (Z.to_nat n) bs) (Forall_take _ _ _ Hby)) as Hm.
    destruct h; unfold body, set_body, write; cbn; by rewrite Hm.
  - intros h bs f f' [=].
  - intros h bs f r f' h' Hne [= <- <-]. by destruct h, h'.
  - intros h f b f' h' [= <- <-]. done.
Defined.

(** A file holding [bs] followed by zeros. *)
Definition of_bytes (bs : list Z) : file :=
  exist _ (store (fun _ => 0) 0 (map u8 bs))
    (store_ok _ 0 _ (fun _ => conj (Z.le_refl 0) eq_refl) (map_u8_ok bs)).
End MemFiles.
