(* ===== verification/DiskIo.v ===== *)
(** * The disk files of the virtio-blk devices

    What blk.cc asks of the host for the files behind a disk: positioned reads and
    writes of whole ranges and a flush.  The Windows and the POSIX backends have a
    [PreadAll] and a [PwriteAll] each, loops over partial transfers of their system's
    calls; the device is written against this interface, and each backend's loops are
    an instance whose laws are proved from the documented behaviour of those calls. *)

From S2P Require Import Prelude Words Bytes GuestMemory HostFile.

Class DiskIo (F H : Type) := {
  (** [PreadAll(file, dst, len, off)]: the outcome and the bytes stored at [dst]. *)
  PreadAll : H -> Z -> Z -> F -> outcome unit * list Z * F;
  (** [PwriteAll(file, src, len, off)] *)
  PwriteAll : H -> list Z -> Z -> M F unit;
  (** The flush of the file's buffers, with the check of its result. *)
  FlushFile : H -> M F unit
}.

(** [contents h f] is the file behind a handle; [apart] are two handles whose files
    are different, so that a write to one leaves the other as it was. *)
Class DiskIoLaws (F H : Type) `{DiskIo F H} := {
  contents : H -> F -> Z -> Z;
  apart : H -> H -> Prop;
  apart_sym h h' : apart h h' -> apart h' h;
  contents_byte h f : ram_ok (contents h f);
  PreadAll_spec file n off f o bs f' :
    0 <= n -> 0 <= off -> PreadAll file n off f = (o, bs, f') ->
    (forall h', contents h' f' = contents h' f) /\
    (exists k, 0 <= k <= n /\ bs = load (contents file f) off k /\ (o = Ok tt -> k = n)) /\
    o <> OutOfFuel;
  PwriteAll_spec file src off f o f' :
    bytes_ok src -> 0 <= off -> PwriteAll file src off f = (o, f') ->
    (forall h', apart h' file -> contents h' f' = contents h' f) /\
    only_writes (in_range off (Z.of_nat (length src))) (contents file f) (contents file f') /\
    (o = Ok tt -> forall a, contents file f' a = store (contents file f) off src a) /\
    o <> OutOfFuel;
  FlushFile_spec file f o f' :
    FlushFile file f = (o, f') -> o <> OutOfFuel /\ forall h', contents h' f' = contents h' f
}.

(** ** The loops of whp/win_io.h *)

Section Windows.
Context {F H : Type}.

#[export] Instance win_disk `{HostFile F H} : DiskIo F H := {|
  PreadAll := HostFile.PreadAll;
  PwriteAll := HostFile.PwriteAll;
  FlushFile file := checked_call (FlushFileBuffers file) "virtio-blk flush failed" |}.

#[export] Instance win_disk_laws `{HostFileLaws F H} : DiskIoLaws F H.
Proof.
  refine {| contents := HostFile.contents; apart h h' := h <> h' |}.
  - done.
  - apply HostFile.contents_byte.
  - intros file n off f o bs f' Hn _. by apply HostFile.PreadAll_spec.
  - intros file src off f o f' Hb _. by apply HostFile.PwriteAll_spec.
  - intros file f o f'. cbn. unfold checked_call.
    destruct (FlushFileBuffers file f) as [ok g] eqn:E. intros [= <- <-].
    split; [apply Check_no_fuel|]. intros h'. by eapply flush_contents.
Defined.
End Windows.
