(* ===== verification/Elf.v ===== *)
(** * native/whp/elf_loader.cc: loading an ELF64 kernel into guest RAM

    The file image is a byte list, guest RAM a host map [ram] of size [mem_size].
    [LoadElfKernel] is the whole function; [load_segments] its program-header loop,
    with the checks in the order of the source.  The theorems show that no write
    leaves guest RAM whatever the file holds, and that a successful load places
    every PT_LOAD segment, zero-filled past its file size. *)

From S2P Require Import Prelude Words Bytes GuestMemory HostFile.

Definition kElfMagic : list Z := [0x7f; 69; 76; 70].
Definition kElfClass64 : Z := 2.
Definition kElfDataLe : Z := 1.
Definition kElfMachineX64 : Z := 62.
Definition kElfPtLoad : Z := 1.

Record Elf64Ehdr := mkEhdr {
  ident : list Z; e_type : Z; machine : Z; version : Z; entry : Z; phoff : Z; shoff : Z;
  e_flags : Z; ehsize : Z; phentsize : Z; phnum : Z; shentsize : Z; shnum : Z; shstrndx : Z }.

Record Elf64Phdr := mkPhdr {
  type : Z; flags : Z; offset : Z; vaddr : Z; paddr : Z; filesz : Z; memsz : Z; align : Z }.

Definition sizeof_Ehdr : Z := 64.
Definition sizeof_Phdr : Z := 56.

(** The packed structs, read from the image by [reinterpret_cast]. *)
Definition field16 (d : list Z) (off : nat) : Z := ReadU16 (drop off d).
Definition field32 (d : list Z) (off : nat) : Z := ReadU32 (drop off d).
Definition field64 (d : list Z) (off : nat) : Z := ReadU64 (drop off d).

Definition read_ehdr (d : list Z) : Elf64Ehdr :=
  mkEhdr (take 16 d) (field16 d 16) (field16 d 18) (field32 d 20) (field64 d 24)
    (field64 d 32) (field64 d 40) (field32 d 48) (field16 d 52) (field16 d 54)
    (field16 d 56) (field16 d 58) (field16 d 60) (field16 d 62).

Definition read_phdr (d : list Z) : Elf64Phdr :=
  mkPhdr (field32 d 0) (field32 d 4) (field64 d 8) (field64 d 16) (field64 d 24)
    (field64 d 32) (field64 d 40) (field64 d 48).

Record KernelInfo := mkKernelInfo { k_entry : Z; kernel_end : Z }.

Section Loader.
Context (file : list Z) (mem_size : Z).

(** One iteration of the program-header loop; the result is the new kernel_end. *)
Definition load_segment (ph : Elf64Phdr) (kend : Z) : M ram Z :=
  if negb (type ph =? kElfPtLoad) then mret kend
  else
    lift (Check (filesz ph <=? memsz ph) "kernel segment file size exceeds memory size") ≫= fun _ =>
    lift (CheckRange (Z.of_nat (length file)) (offset ph) (filesz ph)
            "kernel segment file range") ≫= fun _ =>
    lift (CheckRange mem_size (paddr ph) (memsz ph) "kernel segment guest range") ≫= fun _ =>
    modify (fun m => store m (paddr ph)
              (take (Z.to_nat (filesz ph)) (drop (Z.to_nat (offset ph)) file))) ≫= fun _ =>
    when (filesz ph <? memsz ph)
      (lift (CheckedAdd (paddr ph) (filesz ph) "kernel zero-fill range") ≫= fun zero_start =>
       modify (fun m => fill m zero_start (memsz ph - filesz ph) 0)) ≫= fun _ =>
    lift (CheckedAdd (paddr ph) (memsz ph) "kernel end") ≫= fun e =>
    mret (Z.max kend e).

Definition phdr_at (eh : Elf64Ehdr) (i : Z) : outcome Elf64Phdr :=
  CheckedMul i sizeof_Phdr "kernel program header offset" ≫= fun rel =>
  CheckedAdd (phoff eh) rel "kernel program header offset" ≫= fun ph_off =>
  Ok (read_phdr (drop (Z.to_nat ph_off) file)).

(** [for (i = 0; i < phnum; i++)] over the remaining indices. *)
Fixpoint load_segments (eh : Elf64Ehdr) (idxs : list Z) (kend : Z) : M ram Z :=
  match idxs with
  | [] => mret kend
  | i :: idxs =>
      lift (phdr_at eh i) ≫= fun ph =>
      load_segment ph kend ≫= fun kend => load_segments eh idxs kend
  end.

Definition check_ehdr (eh : Elf64Ehdr) : outcome unit :=
  Check (bool_decide (take 4 (ident eh) = kElfMagic))
    "kernel must be an ELF vmlinux for WHP v1" ≫= fun _ =>
  Check (byte_at (ident eh) 4 =? kElfClass64) "kernel must be ELF64" ≫= fun _ =>
  Check (byte_at (ident eh) 5 =? kElfDataLe) "kernel must be little-endian ELF" ≫= fun _ =>
  Check (machine eh =? kElfMachineX64) "kernel must be x86_64 ELF" ≫= fun _ =>
  Check (phentsize eh =? sizeof_Phdr) "kernel ELF program header size is unsupported" ≫= fun _ =>
  CheckedMul (phnum eh) sizeof_Phdr "kernel program header table" ≫= fun ph_size =>
  CheckRange (Z.of_nat (length file)) (phoff eh) ph_size "kernel program header table".

Definition LoadElfImage : M ram KernelInfo :=
  lift (Check (sizeof_Ehdr <=? Z.of_nat (length file)) "kernel is too small") ≫= fun _ =>
  let eh := read_ehdr file in
  lift (check_ehdr eh) ≫= fun _ =>
  load_segments eh (seqZ 0 (phnum eh)) 0 ≫= fun kend =>
  lift (Check (negb (entry eh =? 0)) "kernel ELF entrypoint is zero") ≫= fun _ =>
  mret (mkKernelInfo (entry eh) kend).
End Loader.

Definition LoadElfKernel {F H} `{HostFile F H} (mem_size : Z) (path : string)
    : M (F * ram) KernelInfo :=
  on_fst (ReadWholeFile path) ≫= fun file => on_snd (LoadElfImage file mem_size).

(** ** Properties *)

Lemma byte_at_app_0 p n i : byte_at (p ++ repeat 0 n) i = byte_at p i.
Proof.
  unfold byte_at. destruct (decide (Z.to_nat i < length p)%nat).
  - by rewrite app_nth1.
  - rewrite app_nth2, nth_repeat, nth_overflow by lia. done.
Qed.

(** Reads past the end of the image see 0, so every field is in range even there. *)
Lemma field64_range d off : bytes_ok d -> 0 <= field64 d off < 2 ^ 64.
Proof.
  intros Hd. unfold field64.
  replace (ReadU64 (drop off d)) with (ReadU64 (drop off d ++ repeat 0 8)).
  - apply ReadU64_range; [|rewrite length_app, repeat_length; lia].
    apply Forall_app. split; [by apply Forall_drop|]. by repeat constructor.
  - apply fold_left_ext_in'. intros. by rewrite byte_at_app_0.
Qed.

Lemma check_ehdr_no_fuel file eh : check_ehdr file eh <> OutOfFuel.
Proof. unfold check_ehdr. auto 20 with nofuel. Qed.

Lemma phdr_at_no_fuel file eh i : phdr_at file eh i <> OutOfFuel.
Proof. unfold phdr_at. auto 20 with nofuel. Qed.

Section Facts.
Context (file : list Z) (mem_size : Z).
Hypothesis file_bytes : bytes_ok file.
Hypothesis file_size : Z.of_nat (length file) < 2 ^ 63.
Hypothesis ram_size : 0 <= mem_size < 2 ^ 64.

Definition phdr_ok (ph : Elf64Phdr) : Prop :=
  0 <= offset ph < 2 ^ 64 /\ 0 <= paddr ph < 2 ^ 64 /\
  0 <= filesz ph < 2 ^ 64 /\ 0 <= memsz ph < 2 ^ 64.

Lemma phdr_at_ok eh i ph : phdr_at file eh i = Ok ph -> phdr_ok ph.
Proof using file_bytes.
  unfold phdr_at. destruct (CheckedMul _ _ _); cbn; [|done..].
  destruct (CheckedAdd _ _ _); cbn; [|done..]. intros [= <-].
  assert (bytes_ok (drop (Z.to_nat a0) file)) by (by apply Forall_drop).
  split_and!; cbn [offset paddr filesz memsz read_phdr]; by apply field64_range.
Qed.

(** The guest range of a PT_LOAD segment and the byte it gives to an address. *)
Definition covers (ph : Elf64Phdr) (a : Z) : bool :=
  (type ph =? kElfPtLoad) && (paddr ph <=? a) && (a <? paddr ph + memsz ph).
Definition seg_byte (ph : Elf64Phdr) (a : Z) : Z :=
  if a - paddr ph <? filesz ph then byte_at file (offset ph + (a - paddr ph)) else 0.
Definition overlay_byte (a : Z) (v : Z) (ph : Elf64Phdr) : Z :=
  if covers ph a then seg_byte ph a else v.

Lemma length_segment ph :
  0 <= offset ph -> 0 <= filesz ph -> offset ph + filesz ph <= Z.of_nat (length file) ->
  length (take (Z.to_nat (filesz ph)) (drop (Z.to_nat (offset ph)) file)) = Z.to_nat (filesz ph).
Proof. intros. rewrite length_take, length_drop. lia. Qed.

Definition place (ph : Elf64Phdr) (m : ram) : ram :=
  let m := store m (paddr ph)
             (take (Z.to_nat (filesz ph)) (drop (Z.to_nat (offset ph)) file)) in
  if filesz ph <? memsz ph then fill m (paddr ph + filesz ph) (memsz ph - filesz ph) 0 else m.

Lemma place_byte ph m a :
  0 <= offset ph -> 0 <= filesz ph <= memsz ph ->
  offset ph + filesz ph <= Z.of_nat (length file) -> type ph = kElfPtLoad ->
  place ph m a = overlay_byte a (m a) ph.
Proof.
  intros Ho Hf Hl Ht. unfold place, overlay_byte, covers, seg_byte. rewrite Ht, Z.eqb_refl.
  assert (Hlen := length_segment ph Ho (proj1 Hf) Hl).
  set (seg := take _ _) in *. cbn [andb].
  assert (Hst : store m (paddr ph) seg a =
    if (paddr ph <=? a) && (a <? paddr ph + filesz ph)
    then byte_at file (offset ph + (a - paddr ph)) else m a).
  { unfold store. rewrite Hlen, Z2Nat.id by lia.
    destruct (Z.leb_spec (paddr ph) a), (Z.ltb_spec a (paddr ph + filesz ph)); cbn; try done.
    subst seg. rewrite nth_take', nth_drop' by lia. unfold byte_at. f_equal. lia. }
  destruct (Z.ltb_spec (filesz ph) (memsz ph)); unfold fill; rewrite Hst;
    repeat match goal with
           | |- context [?x <=? ?y] => destruct (Z.leb_spec x y)
           | |- context [?x <? ?y] => destruct (Z.ltb_spec x y)
           end; cbn; lia || done.
Qed.

Inductive segment_run (ph : Elf64Phdr) (kend : Z) (m : ram) : outcome Z * ram -> Prop :=
  | seg_skip : type ph <> kElfPtLoad -> segment_run ph kend m (Ok kend, m)
  | seg_throw e : segment_run ph kend m (Throw e, m)
  | seg_load : type ph = kElfPtLoad -> filesz ph <= memsz ph ->
      offset ph + filesz ph <= Z.of_nat (length file) -> paddr ph + memsz ph <= mem_size ->
      segment_run ph kend m (Ok (Z.max kend (paddr ph + memsz ph)), place ph m).

Lemma load_segment_run ph kend m :
  phdr_ok ph -> segment_run ph kend m (load_segment file mem_size ph kend m).
Proof using file_size ram_size.
  intros (Ho & Hp & Hf & Hm). unfold load_segment.
  destruct (Z.eqb_spec (type ph) kElfPtLoad) as [Ht|Ht]; cbn [negb]; [|by constructor].
  autorewrite with mrun. unfold Check. destruct (Z.leb_spec (filesz ph) (memsz ph)); [|constructor].
  autorewrite with mrun.
  destruct (CheckRange _ (offset ph) _ _) as [u|e|] eqn:E1;
    [|constructor|exfalso; revert E1; apply CheckRange_no_fuel].
  apply CheckRange_ok in E1; [|lia..]. autorewrite with mrun.
  destruct (CheckRange mem_size _ _ _) as [u'|e|] eqn:E2;
    [|constructor|exfalso; revert E2; apply CheckRange_no_fuel].
  apply CheckRange_ok in E2; [|lia..]. autorewrite with mrun.
  assert (Hk : CheckedAdd (paddr ph) (memsz ph) "kernel end" = Ok (paddr ph + memsz ph))
    by (apply CheckedAdd_ok; [done..|]; lia).
  assert (Hz' : CheckedAdd (paddr ph) (filesz ph) "kernel zero-fill range" =
                Ok (paddr ph + filesz ph)) by (apply CheckedAdd_ok; [done..|]; lia).
  pose proof (seg_load ph kend m Ht ltac:(lia) E1 E2) as Hs. unfold place in Hs.
  destruct (filesz ph <? memsz ph); autorewrite with mrun; rewrite ?Hz';
    autorewrite with mrun; rewrite Hk; exact Hs.
Qed.

Lemma place_only_writes ph m :
  phdr_ok ph -> filesz ph <= memsz ph -> offset ph + filesz ph <= Z.of_nat (length file) ->
  type ph = kElfPtLoad -> paddr ph + memsz ph <= mem_size ->
  only_writes (in_range 0 mem_size) m (place ph m).
Proof.
  intros (Ho & Hp & Hf & Hm) ? ? ? ? a Ha. rewrite place_byte by (lia || done).
  unfold overlay_byte, covers, in_range in *.
  destruct (Z.leb_spec (paddr ph) a), (Z.ltb_spec a (paddr ph + memsz ph));
    rewrite ?andb_false_r; cbn; lia || done.
Qed.

(** The loop processes the program headers in order; each gives its bytes. *)
Lemma load_segments_spec eh idxs : forall kend m o m',
  load_segments file mem_size eh idxs kend m = (o, m') ->
  only_writes (in_range 0 mem_size) m m' /\ o <> OutOfFuel /\
  forall kend', o = Ok kend' -> exists phs,
    Forall2 (fun i ph => phdr_at file eh i = Ok ph) idxs phs /\
    (forall a, m' a = fold_left (overlay_byte a) phs (m a)) /\
    Forall (fun ph => type ph = kElfPtLoad -> paddr ph + memsz ph <= mem_size /\
                      paddr ph + memsz ph <= kend') phs /\ kend <= kend'.
Proof using file_bytes file_size ram_size.
  induction idxs as [|i idxs IH]; intros kend m o m'; cbn [load_segments].
  - intros [= <- <-]. split_and!; [apply only_writes_refl|done|]. intros ? [= <-].
    by exists [].
  - autorewrite with mrun. destruct (phdr_at file eh i) as [ph|e|] eqn:Eph.
    2:{ intros [= <- <-]. by split_and!; [apply only_writes_refl|..]. }
    2:{ by apply phdr_at_no_fuel in Eph. }
    pose proof (phdr_at_ok _ _ _ Eph) as Hph.
    rewrite bind_run. destruct (load_segment_run ph kend m Hph) as [Ht|e|Ht Hf Hl Hm].
    + intros (Hw & Hn & Hok)%IH. split_and!; [done..|].
      intros kend' Hk. destruct (Hok kend' Hk) as (phs & H2 & Hb & HF & Hle).
      exists (ph :: phs). split_and!; [by constructor| |by constructor|done].
      intros a. rewrite Hb. cbn. f_equal. unfold overlay_byte, covers.
      by destruct (Z.eqb_spec (type ph) kElfPtLoad).
    + intros [= <- <-]. by split_and!; [apply only_writes_refl|..].
    + intros (Hw & Hn & Hok)%IH. split_and!; [|done|].
      { eapply only_writes_trans; [|exact Hw]. by apply place_only_writes. }
      intros kend' Hk. destruct (Hok kend' Hk) as (phs & H2 & Hb & HF & Hle).
      exists (ph :: phs). split_and!; [by constructor| | |lia].
      * intros a. rewrite Hb. cbn. f_equal. destruct Hph as (?&?&?&?).
        apply place_byte; (lia || done).
      * constructor; [intros; lia|done].
Qed.

Lemma LoadElfImage_spec m o m' :
  LoadElfImage file mem_size m = (o, m') ->
  only_writes (in_range 0 mem_size) m m' /\ o <> OutOfFuel /\
  forall info, o = Ok info ->
    k_entry info = entry (read_ehdr file) /\ k_entry info <> 0 /\ exists phs,
    Forall2 (fun i ph => phdr_at file (read_ehdr file) i = Ok ph)
      (seqZ 0 (phnum (read_ehdr file))) phs /\
    (forall a, m' a = fold_left (overlay_byte a) phs (m a)) /\
    Forall (fun ph => type ph = kElfPtLoad -> paddr ph + memsz ph <= mem_size /\
                      paddr ph + memsz ph <= kernel_end info) phs.
Proof using file_bytes file_size ram_size.
  unfold LoadElfImage. autorewrite with mrun. unfold Check at 1.
  destruct (sizeof_Ehdr <=? Z.of_nat (length file));
    [|intros [= <- <-]; by split_and!; [apply only_writes_refl|..]].
  autorewrite with mrun. destruct (check_ehdr file (read_ehdr file)) as [u|e|] eqn:Ec;
    [|intros [= <- <-]; by split_and!; [apply only_writes_refl|..]
     |exfalso; revert Ec; apply check_ehdr_no_fuel].
  rewrite bind_run.
  destruct (load_segments _ _ _ _ _ m) as [[kend|e|] m1] eqn:El;
    apply load_segments_spec in El as (Hw & Hn & Hok); [|by intros [= <- <-]|done].
  autorewrite with mrun. unfold Check. destruct (Z.eqb_spec (entry (read_ehdr file)) 0) as [|He];
    cbn [negb]; [by intros [= <- <-]|].
  intros [= <- <-]. split_and!; [done..|]. intros info [= <-]. split_and!; [done..|].
  destruct (Hok kend eq_refl) as (phs & H2 & Hb & HF & _). by exists phs.
Qed.
End Facts.

(** The byte of the last segment of [phs] that covers [a] wins. *)
Lemma overlay_last file phs1 ph phs2 a v :
  covers ph a = true -> Forall (fun ph' => covers ph' a = false) phs2 ->
  fold_left (overlay_byte file a) (phs1 ++ ph :: phs2) v = seg_byte file ph a.
Proof.
  intros Hc Hn. rewrite fold_left_app. cbn. unfold overlay_byte at 2. rewrite Hc.
  generalize (seg_byte file ph a). induction Hn as [|ph' phs2 Hx Hn IH]; intros b; [done|].
  cbn. unfold overlay_byte at 2. rewrite Hx. apply IH.
Qed.

Lemma overlay_none file phs a v :
  Forall (fun ph => covers ph a = false) phs -> fold_left (overlay_byte file a) phs v = v.
Proof.
  revert v. induction phs as [|ph phs IH]; intros v Hf; [done|]. inversion Hf; subst. cbn.
  unfold overlay_byte at 2. rewrite H1. by apply IH.
Qed.

(** C15.  Whatever bytes the kernel file holds, and whether the load succeeds or
    throws half-way, the loader writes nothing outside guest RAM. *)
Theorem LoadElfImage_in_bounds file mem_size m o m' :
  bytes_ok file -> Z.of_nat (length file) < 2 ^ 63 -> 0 <= mem_size < 2 ^ 64 ->
  LoadElfImage file mem_size m = (o, m') ->
  o <> OutOfFuel /\ only_writes (in_range 0 mem_size) m m'.
Proof. intros Hb Hl Hm Hr. by destruct (LoadElfImage_spec _ _ Hb Hl Hm _ _ _ Hr) as (?&?&_). Qed.

(** C14.  A load that succeeds puts every PT_LOAD segment of the program-header table
    in place: an address of segment [i] that no later segment covers holds the
    file's byte, or 0 past the segment's file size; addresses of no segment keep
    their value; the entry point is the header's and not zero, and no segment
    ends beyond [kernel_end] or beyond guest RAM. *)
Theorem LoadElfImage_places_segments file mem_size m info m' :
  bytes_ok file -> Z.of_nat (length file) < 2 ^ 63 -> 0 <= mem_size < 2 ^ 64 ->
  LoadElfImage file mem_size m = (Ok info, m') ->
  let eh := read_ehdr file in
  k_entry info = entry eh /\ k_entry info <> 0 /\
  exists phs : list Elf64Phdr,
    Z.of_nat (length phs) = Z.max 0 (phnum eh) /\
    (forall i ph, phs !! i = Some ph -> phdr_at file eh (Z.of_nat i) = Ok ph) /\
    (forall i ph a, phs !! i = Some ph -> covers ph a = true ->
       (forall j ph', (i < j)%nat -> phs !! j = Some ph' -> covers ph' a = false) ->
       m' a = seg_byte file ph a) /\
    (forall a, (forall i ph, phs !! i = Some ph -> covers ph a = false) -> m' a = m a) /\
    (forall i ph, phs !! i = Some ph -> type ph = kElfPtLoad ->
       paddr ph + memsz ph <= kernel_end info /\ paddr ph + memsz ph <= mem_size).
Proof.
  intros Hb Hl Hm Hr.
  destruct (LoadElfImage_spec _ _ Hb Hl Hm _ _ _ Hr) as (_ & _ & Hok).
  destruct (Hok info eq_refl) as (He & Hne & phs & H2 & Hbyte & HF).
  split_and!; [done..|]. exists phs. split_and!.
  - apply Forall2_length in H2. rewrite length_seqZ in H2. lia.
  - intros i ph Hi. destruct (Forall2_lookup_r _ _ _ _ _ H2 Hi) as (k & Hk & Hph).
    apply lookup_seqZ in Hk as [-> _]. by rewrite Z.add_0_l in Hph.
  - intros i ph a Hi Hc Hlater. rewrite Hbyte, <- (take_drop_middle phs i ph Hi).
    apply overlay_last; [done|]. apply Forall_lookup. intros j ph' Hj.
    rewrite lookup_drop in Hj. eapply (Hlater (S i + j)%nat); [lia|done].
  - intros a Hn. rewrite Hbyte. apply overlay_none, Forall_lookup. eauto.
  - intros i ph Hi Ht. rewrite Forall_lookup in HF. destruct (HF i ph Hi Ht). lia.
Qed.

(** A one-segment kernel: four bytes of code at 0x1000, eight bytes of memory. *)
Definition demo_elf : list Z :=
  kElfMagic ++ [2; 1; 1; 0] ++ repeat 0 8 ++ WriteU16 2 ++ WriteU16 62 ++ WriteU32 1 ++
  WriteU64 0x1000 ++ WriteU64 64 ++ WriteU64 0 ++ WriteU32 0 ++ WriteU16 64 ++ WriteU16 56 ++
  WriteU16 1 ++ WriteU16 0 ++ WriteU16 0 ++ WriteU16 0 ++
  WriteU32 1 ++ WriteU32 5 ++ WriteU64 120 ++ WriteU64 0x1000 ++ WriteU64 0x1000 ++
  WriteU64 4 ++ WriteU64 8 ++ WriteU64 0x1000 ++ [0xF4; 0xEB; 0xFD; 0x90].

Lemma demo_elf_loads : (LoadElfImage demo_elf 0x10000 (fun _ => 0xAA)).1 = Ok (mkKernelInfo 0x1000 0x1008).
Proof. by vm_compute. Qed.

Lemma LoadElfImage_in_bounds_witness :
  only_writes (in_range 0 0x10000) (fun _ => 0xAA) (LoadElfImage demo_elf 0x10000 (fun _ => 0xAA)).2.
Proof.
  eapply (LoadElfImage_in_bounds demo_elf 0x10000 (fun _ => 0xAA)).
  - by apply bytes_okb_ok.
  - done.
  - done.
  - apply surjective_pairing.
Defined.

Lemma LoadElfImage_places_segments_witness :
  exists phs : list Elf64Phdr, Z.of_nat (length phs) = 1.
Proof.
  destruct (LoadElfImage_places_segments demo_elf 0x10000 (fun _ => 0xAA) (mkKernelInfo 0x1000 0x1008)
    (LoadElfImage demo_elf 0x10000 (fun _ => 0xAA)).2) as (_ & _ & phs & Hl & _).
  - by apply bytes_okb_ok.
  - done.
  - done.
  - rewrite <- demo_elf_loads. apply surjective_pairing.
  - exists phs. exact Hl.
Defined.
