(* ===== verification/PageTables.v ===== *)
(** * native/whp/page_tables.cc: the boot page tables and segment registers

    [BuildPageTables] writes a PML4, a PDPT and four page directories of 2 MiB
    pages.  The specification is the walk an x86-64 processor makes, [walk]; the
    theorem is that it maps every address below 4 GiB to itself, writable. *)

From S2P Require Import Prelude Words Bytes GuestMemory.

Definition page_size : Z := 0x1000.
Definition pt_flags : Z := 0x07.
Definition pt_huge : Z := 0x83.

Definition write_pd (m : ram) (this_pd i : Z) : ram :=
  fold_left (fun m j =>
      let phys := (i * 512 + j) * 0x200000 in
      store m (this_pd + j * 8) (WriteU64 (Z.lor phys pt_huge)))
    (seqZ 0 512) m.

Definition BuildPageTables (m : ram) (base : Z) : ram :=
  let pml4 := base in
  let pdpt := u64 (base + page_size) in
  let pd := u64 (base + 2 * page_size) in
  let m := store m pml4 (WriteU64 (Z.lor pdpt pt_flags)) in
  fold_left (fun m i =>
      let this_pd := u64 (pd + i * page_size) in
      let m := store m (u64 (pdpt + i * 8)) (WriteU64 (Z.lor this_pd pt_flags)) in
      write_pd m this_pd i)
    (seqZ 0 4) m.

(** ** Segment and table registers

    The fields of WHV_X64_SEGMENT_REGISTER the code sets; the bit fields share
    storage with [Attributes], so a segment is given by its 16 attribute bits. *)
Record Segment_t := mkSegment { Base : Z; Limit : Z; Selector : Z; Attributes : Z }.
#[export] Instance eta_Segment : Eta Segment_t :=
  fun s => mkSegment (Base s) (Limit s) (Selector s) (Attributes s).
Record Table_t := mkTable { tBase : Z; tLimit : Z }.

(** Writing the bit field of [width] bits at [shift]. *)
Definition set_attr (shift width v : Z) (s : Segment_t) : Segment_t :=
  s <| Attributes := u16 (DepositBits (Attributes s) shift width v) |>.
Definition SegmentType v := set_attr 0 4 v.
Definition NonSystemSegment v := set_attr 4 1 v.
Definition Present v := set_attr 7 1 v.
Definition Long v := set_attr 13 1 v.
Definition Default v := set_attr 14 1 v.
Definition Granularity v := set_attr 15 1 v.

Definition Segment (selector attributes : Z) : Segment_t :=
  mkSegment 0 0xffff selector attributes.

Definition LongCodeSegment : Segment_t :=
  Granularity 1 (Long 1 (Present 1 (NonSystemSegment 1 (SegmentType 11
    ((Segment 0x08 0) <| Limit := 0xFFFFF |>))))).

Definition LongDataSegment : Segment_t :=
  Granularity 1 (Default 1 (Present 1 (NonSystemSegment 1 (SegmentType 3
    ((Segment 0x10 0) <| Limit := 0xFFFFF |>))))).

Definition Table (base limit : Z) : Table_t := mkTable base limit.

(** ** The processor's walk *)

Definition entry_at (m : ram) (a : Z) : Z := ReadU64 (load m a 8).
Definition frame (e : Z) : Z := Z.land e 0x000FFFFFFFFFF000.
Definition frame2M (e : Z) : Z := Z.land e 0x000FFFFFFFE00000.
Definition index (va shift : Z) : Z := Z.land (Z.shiftr va shift) 511.

(** Translation of [va] through present and writable entries; [None] is a fault
    or a page that is not a 2 MiB page. *)
Definition walk (m : ram) (cr3 va : Z) : option Z :=
  let e4 := entry_at m (frame cr3 + index va 39 * 8) in
  if negb (has e4 1 && has e4 2) then None else
  let e3 := entry_at m (frame e4 + index va 30 * 8) in
  if negb (has e3 1 && has e3 2) || has e3 0x80 then None else
  let e2 := entry_at m (frame e3 + index va 21 * 8) in
  if negb (has e2 1 && has e2 2) || negb (has e2 0x80) then None else
  Some (frame2M e2 + Z.land va 0x1FFFFF).

(** ** Proof *)

Lemma entry_at_store_same m a v : entry_at (store m a (WriteU64 v)) a = u64 v.
Proof.
  unfold entry_at. change 8 with (Z.of_nat (length (WriteU64 v))) at 1.
  rewrite load_store_same. apply ReadU64_WriteU64.
Qed.

Lemma entry_at_store_other m a b v :
  b + 8 <= a \/ a + 8 <= b -> entry_at (store m a (WriteU64 v)) b = entry_at m b.
Proof. intros. unfold entry_at. by rewrite load_store_disjoint by (rewrite length_WriteU64; lia). Qed.

Lemma entry_at_ext m m' P a :
  only_writes P m m' -> (forall x, in_range a 8 x -> ~ P x) -> entry_at m' a = entry_at m a.
Proof. intros Hw HP. unfold entry_at. f_equal. apply load_ext. intros x Hx. apply Hw. auto. Qed.

(** A table of [n] consecutive 8-byte entries. *)
Definition write_entries (m : ram) (b : Z) (g : Z -> Z) (n : nat) : ram :=
  fold_left (fun m j => store m (b + j * 8) (WriteU64 (g j))) (seqZ 0 (Z.of_nat n)) m.

Lemma write_entries_spec m b g n :
  only_writes (in_range b (8 * Z.of_nat n)) m (write_entries m b g n) /\
  forall j, 0 <= j < Z.of_nat n -> entry_at (write_entries m b g n) (b + j * 8) = u64 (g j).
Proof.
  unfold write_entries. induction n as [|n [IHw IHe]].
  - split; [apply only_writes_refl|lia].
  - rewrite seqZ_S, fold_left_app. cbn [fold_left]. rewrite Z.add_0_l. split.
    + eapply only_writes_trans.
      * eapply only_writes_weaken; [|exact IHw]. unfold in_range. lia.
      * eapply only_writes_weaken; [|apply only_writes_store].
        unfold in_range. rewrite length_WriteU64. lia.
    + intros j Hj. destruct (decide (j = Z.of_nat n)) as [->|].
      * apply entry_at_store_same.
      * rewrite entry_at_store_other by lia. apply IHe. lia.
Qed.

Lemma write_pd_entries m pd i :
  write_pd m pd i = write_entries m pd (fun j => Z.lor ((i * 512 + j) * 0x200000) pt_huge) 512.
Proof. done. Qed.

Definition pdpt_of (base : Z) : Z := base + 0x1000.
Definition pd_of (base i : Z) : Z := base + 0x2000 + i * 0x1000.

(** The tables after the outer loop has run [n] times. *)
Lemma tables_loop m base (n : nat) :
  0 <= base < 2 ^ 40 -> (n <= 4)%nat ->
  let m' := fold_left (fun m i =>
      let this_pd := u64 (u64 (base + 2 * page_size) + i * page_size) in
      write_pd (store m (u64 (u64 (base + page_size) + i * 8))
                  (WriteU64 (Z.lor this_pd pt_flags))) this_pd i)
    (seqZ 0 (Z.of_nat n)) m in
  only_writes (in_range (base + 0x1000) 0x5000) m m' /\
  (forall i, 0 <= i < Z.of_nat n ->
     entry_at m' (pdpt_of base + i * 8) = u64 (Z.lor (pd_of base i) pt_flags)) /\
  (forall i j, 0 <= i < Z.of_nat n -> 0 <= j < 512 ->
     entry_at m' (pd_of base i + j * 8) = u64 (Z.lor ((i * 512 + j) * 0x200000) pt_huge)).
Proof.
  intros Hb. unfold pdpt_of, pd_of, page_size. induction n as [|n IH]; intros Hn.
  - cbn. split_and!; [apply only_writes_refl|lia..].
  - cbn zeta in *. rewrite seqZ_S, fold_left_app. cbn [fold_left]. rewrite Z.add_0_l.
    destruct (IH ltac:(lia)) as (Hw & H3 & H2). clear IH.
    set (m1 := fold_left _ _ m) in *. clearbody m1.
    rewrite !(u64_small (base + _)) by lia. rewrite !u64_small by lia.
    rewrite write_pd_entries.
    set (m2 := store m1 _ _). set (pd := base + 2 * 4096 + Z.of_nat n * 4096).
    destruct (write_entries_spec m2 pd
      (fun j => Z.lor ((Z.of_nat n * 512 + j) * 2097152) pt_huge) 512) as [Hw2 He2].
    set (m3 := write_entries _ _ _ _) in *.
    assert (Hw12 : only_writes (in_range (base + 4096 + Z.of_nat n * 8) 8) m1 m2)
      by exact (only_writes_store _ _ (WriteU64 _)).
    split_and!.
    + eapply only_writes_trans; [exact Hw|]. eapply only_writes_trans.
      * eapply only_writes_weaken; [|exact Hw12]. unfold in_range. lia.
      * eapply only_writes_weaken; [|exact Hw2]. unfold in_range, pd. lia.
    + intros i Hi. rewrite (entry_at_ext _ _ _ _ Hw2) by (unfold in_range, pd; lia).
      destruct (decide (i = Z.of_nat n)) as [->|].
      * unfold m2. rewrite entry_at_store_same. do 2 f_equal.
      * rewrite (entry_at_ext _ _ _ _ Hw12) by (unfold in_range; lia). apply H3. lia.
    + intros i j Hi Hj. destruct (decide (i = Z.of_nat n)) as [->|].
      * replace (base + 8192 + Z.of_nat n * 4096 + j * 8) with (pd + j * 8) by (unfold pd; lia).
        by apply He2.
      * rewrite (entry_at_ext _ _ _ _ Hw2) by (unfold in_range, pd; lia).
        rewrite (entry_at_ext _ _ _ _ Hw12) by (unfold in_range; lia). apply H2; lia.
Qed.

(** A table entry: an aligned frame with flag bits. *)
Lemma frame_flags x f :
  (2 ^ 12 | x) -> 0 <= x < 2 ^ 52 -> 0 <= f < 2 ^ 12 -> frame (Z.lor x f) = x.
Proof.
  intros [y ->] Hx Hf. unfold frame.
  rewrite (lor_aligned_add _ _ 12) by (done || by exists y).
  change 0x000FFFFFFFFFF000 with (Z.shiftl (Z.ones 40) 12). rewrite land_field by lia.
  rewrite Z.add_comm, Z.div_add, (Z.div_small f), Z.add_0_l by lia.
  rewrite Z.mod_small by lia. done.
Qed.

Lemma frame2M_flags x f :
  (2 ^ 21 | x) -> 0 <= x < 2 ^ 52 -> 0 <= f < 2 ^ 21 -> frame2M (Z.lor x f) = x.
Proof.
  intros [y ->] Hx Hf. unfold frame2M.
  rewrite (lor_aligned_add _ _ 21) by (done || by exists y).
  change 0x000FFFFFFFE00000 with (Z.shiftl (Z.ones 31) 21). rewrite land_field by lia.
  rewrite Z.add_comm, Z.div_add, (Z.div_small f), Z.add_0_l by lia.
  rewrite Z.mod_small by lia. done.
Qed.

Lemma has_aligned x f m k :
  0 <= k -> (2 ^ k | x) -> 0 <= m < 2 ^ k -> has (Z.lor x f) m = has f m.
Proof.
  intros Hk Hx Hm. rewrite has_lor. replace (has x m) with false; [done|].
  symmetry. unfold has. replace (Z.land x m) with 0; [done|].
  destruct Hx as [y ->]. symmetry. apply Z.bits_inj'. intros i Hi.
  rewrite Z.land_spec, Z.bits_0, <- Z.shiftl_mul_pow2, Z.shiftl_spec by done.
  destruct (Z.ltb_spec i k).
  - by rewrite (Z.testbit_neg_r _ (i - k)) by lia.
  - rewrite (testbit_small m k) by lia. apply andb_false_r.
Qed.

Lemma index_val va k : 0 <= k -> index va k = va / 2 ^ k mod 512.
Proof.
  intros. unfold index. change 511 with (Z.ones 9).
  by rewrite Z.land_ones, Z.shiftr_div_pow2 by lia.
Qed.

Ltac pt_side := solve [done | unfold pdpt_of, pd_of, pt_flags, pt_huge; lia].

(** The three levels as [BuildPageTables] leaves them, in any memory [m'] that still
    holds the six pages. *)
Record identity_tables (m' : ram) (base : Z) : Prop := {
  it_pml4 : entry_at m' base = Z.lor (pdpt_of base) pt_flags;
  it_pdpt i : 0 <= i < 4 -> entry_at m' (pdpt_of base + i * 8) = u64 (Z.lor (pd_of base i) pt_flags);
  it_pd i j : 0 <= i < 4 -> 0 <= j < 512 ->
    entry_at m' (pd_of base i + j * 8) = u64 (Z.lor ((i * 512 + j) * 0x200000) pt_huge) }.

Lemma tables_built m base :
  0 <= base < 2 ^ 40 -> (2 ^ 12 | base) -> identity_tables (BuildPageTables m base) base.
Proof.
  intros Hb Ha. unfold BuildPageTables. set (m0 := store m base _).
  destruct (tables_loop m0 base 4 Hb ltac:(lia)) as (Hw & H3 & H2).
  change (Z.of_nat 4) with 4 in *. cbn zeta in *. constructor; [|by apply H3|by apply H2].
  rewrite (entry_at_ext _ _ _ _ Hw) by (unfold in_range; lia).
  unfold m0. rewrite entry_at_store_same.
  unfold pdpt_of, page_size. rewrite (u64_small (base + 4096)) by lia.
  rewrite (lor_aligned_add _ _ 12); [rewrite u64_small by pt_side|..]; try done.
  by apply Z.divide_add_r; [|exists 1].
Qed.

Lemma tables_kept m m' P base :
  only_writes P m m' -> (forall x, in_range base 0x6000 x -> ~ P x) ->
  identity_tables m base -> identity_tables m' base.
Proof.
  unfold in_range. intros Hw HP [H4 H3 H2].
  constructor; intros; (rewrite (entry_at_ext m m' P) by
    (done || (unfold in_range, pdpt_of, pd_of; intros; apply HP; lia))); auto.
Qed.

Lemma walk_identity m' base va :
  identity_tables m' base -> 0 <= base < 2 ^ 40 -> (2 ^ 12 | base) -> 0 <= va < 2 ^ 32 ->
  walk m' base va = Some va.
Proof.
  intros [H4 H3 H2] Hb Ha Hva.
  assert (Hi3 : 0 <= va / 2 ^ 30 < 4) by (split; [apply Z.div_pos|apply Z.div_lt_upper_bound]; lia).
  assert (Hi2 : 0 <= va / 2 ^ 21 mod 512 < 512) by (apply Z.mod_pos_bound; lia).
  set (i := va / 2 ^ 30) in *. set (j := va / 2 ^ 21 mod 512) in *.
  assert (Hpd : (2 ^ 12 | pd_of base i)).
  { unfold pd_of. apply Z.divide_add_r; [|by exists i]. apply Z.divide_add_r; [done|by exists 2]. }
  assert (Hpdpt : (2 ^ 12 | pdpt_of base)) by (by apply Z.divide_add_r; [|exists 1]).
  specialize (H3 i Hi3). rewrite u64_small in H3
    by (rewrite (lor_aligned_add _ _ 12) by done; pt_side).
  specialize (H2 i j Hi3 Hi2).
  assert (Hph : (2 ^ 21 | (i * 512 + j) * 2097152)) by (by exists (i * 512 + j)).
  rewrite u64_small in H2 by (rewrite (lor_aligned_add _ _ 21) by done; pt_side).
  unfold walk. rewrite !index_val by lia.
  replace (frame base) with base
    by (rewrite <- (Z.lor_0_r base) at 2; by rewrite frame_flags by pt_side).
  rewrite (Z.div_small va (2 ^ 39)), Z.mod_0_l, Z.mul_0_l, Z.add_0_r, H4 by lia.
  rewrite !(has_aligned (pdpt_of base) _ _ 12) by done. cbn [negb andb has Z.land].
  rewrite frame_flags by pt_side.
  fold i. rewrite (Z.mod_small i) by lia. rewrite H3.
  rewrite !(has_aligned (pd_of base i) _ _ 12) by done. cbn [negb andb orb has].
  change (has pt_flags 1) with true. change (has pt_flags 2) with true.
  change (has pt_flags 0x80) with false. cbn [negb andb orb].
  rewrite frame_flags by pt_side.
  fold j. rewrite H2. rewrite !(has_aligned _ _ _ 21) by done.
  change (has pt_huge 1) with true. change (has pt_huge 2) with true.
  change (has pt_huge 0x80) with true. cbn [negb andb orb].
  rewrite frame2M_flags by pt_side.
  change 0x1FFFFF with (Z.ones 21). rewrite Z.land_ones by lia. f_equal.
  unfold i, j. replace (va / 2 ^ 30) with (va / 2 ^ 21 / 512) by (by rewrite Z.div_div by lia).
  pose proof (Z.div_mod (va / 2 ^ 21) 512 ltac:(lia)).
  pose proof (Z.div_mod va (2 ^ 21) ltac:(lia)). lia.
Qed.

Lemma BuildPageTables_writes m base :
  0 <= base < 2 ^ 40 -> only_writes (in_range base 0x6000) m (BuildPageTables m base).
Proof.
  intros Hb. unfold BuildPageTables. set (m0 := store m base _).
  destruct (tables_loop m0 base 4 Hb ltac:(lia)) as (Hw & _ & _). cbn zeta in *.
  apply (only_writes_trans _ _ m0).
  - eapply only_writes_weaken; [|apply only_writes_store].
    unfold in_range. rewrite length_WriteU64. lia.
  - eapply only_writes_weaken; [|exact Hw]. unfold in_range. lia.
Qed.

(** After [BuildPageTables(mem, base)], a processor whose CR3 is [base] maps
    every virtual address below 4 GiB to the same physical address through
    present, writable 2 MiB pages, and only the six pages at [base] were written. *)
Theorem BuildPageTables_identity m base :
  0 <= base < 2 ^ 40 -> (page_size | base) ->
  only_writes (in_range base 0x6000) m (BuildPageTables m base) /\
  forall va, 0 <= va < 2 ^ 32 -> walk (BuildPageTables m base) base va = Some va.
Proof.
  intros Hb Ha. split; [by apply BuildPageTables_writes|]. intros va Hva.
  by apply walk_identity; [apply tables_built|..].
Qed.

(** The bootstrap processor's tables: CR3 = 0x9000. *)
Lemma BuildPageTables_identity_witness :
  walk (BuildPageTables (fun _ => 0xAA) 0x9000) 0x9000 0xFEC01234 = Some 0xFEC01234.
Proof. apply (BuildPageTables_identity (fun _ => 0xAA) 0x9000); [lia|by exists 9|lia]. Defined.
