(* ===== verification/BootParams.v ===== *)
(** * native/whp/boot_params.cc: the Linux zero page and the MP table

    Guest RAM is written through [ram]; the MP table is built in a byte buffer
    first, as the source builds its vector.  The theorems decode what a kernel
    reads back: the e820 map is sorted, contiguous and covers exactly the RAM,
    both MP checksums are zero, and a rejected command line leaves RAM untouched. *)

From S2P Require Import Prelude Words Bytes GuestMemory.

Definition kBootParamsAddr : Z := 0x7000.
Definition kCmdlineAddr : Z := 0x20000.
Definition kE820Offset : Z := 0x2D0.
Definition kE820EntrySize : Z := 20.
Definition kMaxE820Entries : Z := 4.

Definition PutE820 (m : ram) (off addr size type : Z) : ram :=
  let m := store m off (WriteU64 addr) in
  let m := store m (off + 8) (WriteU64 size) in
  store m (off + 16) (WriteU32 type).

Definition Checksum (data : list Z) (start len : nat) : Z :=
  let sum := fold_left (fun sum b => u8 (sum + b)) (take len (drop start data)) 0 in
  u8 (bnot 32 sum + 1).

(** The range checks made before anything is written. *)
Definition boot_checks (mem_size cmdline_len : Z) : outcome unit :=
  let B := kBootParamsAddr in
  CheckRange mem_size kCmdlineAddr cmdline_len "kernel cmdline" ≫= fun _ =>
  CheckRange mem_size (B + 0x1E8) 1 "boot params e820 count" ≫= fun _ =>
  CheckRange mem_size (B + 0x1FA) 2 "boot params video mode" ≫= fun _ =>
  CheckRange mem_size (B + 0x1FE) 2 "boot params setup signature" ≫= fun _ =>
  CheckRange mem_size (B + 0x202) 4 "boot params header signature" ≫= fun _ =>
  CheckRange mem_size (B + 0x210) 2 "boot params loader flags" ≫= fun _ =>
  CheckRange mem_size (B + 0x228) 4 "boot params cmdline pointer" ≫= fun _ =>
  CheckRange mem_size (B + 0x238) 4 "boot params cmdline length" ≫= fun _ =>
  CheckRange mem_size (B + kE820Offset) (kE820EntrySize * kMaxE820Entries)
    "boot params e820 table".

Definition boot_writes (mem_size : Z) (cmdline : list Z) (m : ram) : ram :=
  let B := kBootParamsAddr in
  let E := B + kE820Offset in
  let m := store m kCmdlineAddr (cmdline ++ [0]) in
  let m := store m (B + 0x1E8) [4] in
  let m := PutE820 m E 0x00000000 0x0009FC00 1 in
  let m := PutE820 m (E + kE820EntrySize) 0x0009FC00 0x00040400 2 in
  let m := PutE820 m (E + 2 * kE820EntrySize) 0x000E0000 0x00020000 2 in
  let m := if 0x00100000 <? mem_size
           then PutE820 m (E + 3 * kE820EntrySize) 0x00100000 (u64 (mem_size - 0x00100000)) 1
           else m in
  let m := store m (B + 0x1FA) (WriteU16 0xFFFF) in
  let m := store m (B + 0x1FE) (WriteU16 0xAA55) in
  let m := store m (B + 0x202) (WriteU32 0x53726448) in
  let m := store m (B + 0x210) [0xFF] in
  let m := store m (B + 0x211) [Z.lor (m (B + 0x211)) 0x01] in
  let m := store m (B + 0x228) (WriteU32 (u32 kCmdlineAddr)) in
  store m (B + 0x238) (WriteU32 (u32 (Z.of_nat (length cmdline)))).

Definition WriteBootParams (mem_size : Z) (cmdline : list Z) : M ram unit :=
  lift (if UINT32_MAX <? Z.of_nat (length cmdline)
        then Throw "kernel cmdline is too large" else Ok tt) ≫= fun _ =>
  lift (boot_checks mem_size (Z.of_nat (length cmdline) + 1)) ≫= fun _ =>
  modify (boot_writes mem_size cmdline).

(** ** The MP table *)

Definition ascii_bytes (s : string) : list Z :=
  map (fun c => Z.of_nat (nat_of_ascii c)) (list_ascii_of_string s).

Definition apic_version : Z := 0x14.
Definition max_legacy_gsi : Z := 23.

Definition mp_cpu (cpu : Z) : list Z :=
  let entry := repeat 0 20 in
  let entry := put entry 0 [0] in
  let entry := put entry 1 [u8 cpu] in
  let entry := put entry 2 [apic_version] in
  let entry := put entry 3 [Z.lor 0x01 (if cpu =? 0 then 0x02 else 0)] in
  let entry := put entry 4 (WriteU32 0x600) in
  put entry 8 (WriteU32 (Z.lor 0x200 0x001)).

Definition mp_bus : list Z :=
  put (put (repeat 0 8) 0 [1]) 2 (ascii_bytes "ISA   ").

Definition mp_ioapic (io_apic_id : Z) : list Z :=
  let e := put (repeat 0 8) 0 [2] in
  let e := put e 1 [io_apic_id] in
  let e := put e 2 [apic_version] in
  let e := put e 3 [1] in
  put e 4 (WriteU32 0xFEC00000).

Definition mp_irq (io_apic_id pit_io_apic_pin irq : Z) : list Z :=
  let e := put (repeat 0 8) 0 [3] in
  let e := put e 1 [0] in
  let e := put e 4 [0] in
  let e := put e 5 [u8 irq] in
  let e := put e 6 [io_apic_id] in
  put e 7 [u8 (if irq =? 0 then pit_io_apic_pin else u32 irq)].

Definition mp_extint : list Z := put (put (repeat 0 8) 0 [4]) 1 [3].
Definition mp_nmi : list Z :=
  put (put (put (put (repeat 0 8) 0 [4]) 1 [1]) 6 [0xFF]) 7 [1].

Definition mp_entries (cpus pit_io_apic_pin : Z) : list Z :=
  let io_apic_id := u8 (cpus + 1) in
  concat (map mp_cpu (seqZ 0 cpus)) ++ mp_bus ++ mp_ioapic io_apic_id ++
  concat (map (mp_irq io_apic_id pit_io_apic_pin) (seqZ 0 (max_legacy_gsi + 1))) ++
  mp_extint ++ mp_nmi.

(** [entry_count++] once per entry appended. *)
Definition mp_entry_count (cpus : Z) : Z :=
  u16 (Z.max 0 cpus + 1 + 1 + (max_legacy_gsi + 1) + 1 + 1).

Definition mp_size (cpus : Z) : Z :=
  16 + 44 + 20 * cpus + 8 + 8 + 8 * (max_legacy_gsi + 1) + 8 * 2.

Definition mp_start (cpus : Z) : Z :=
  Z.land (u64 (0xA0000 - u64 (mp_size cpus))) (bnot 64 0xF).

Definition mp_buffer (cpus pit_io_apic_pin : Z) : list Z :=
  let start := mp_start cpus in
  let buf := repeat 0 (Z.to_nat (mp_size cpus)) in
  let buf := put buf 0 (ascii_bytes "_MP_") in
  let buf := put buf 4 (WriteU32 (u32 (start + 16))) in
  let buf := put buf 8 [1] in
  let buf := put buf 9 [4] in
  let buf := put buf 10 [Checksum buf 0 16] in
  let entries := mp_entries cpus pit_io_apic_pin in
  let n := Z.of_nat (length entries) in
  let buf := put buf 16 (ascii_bytes "PCMP") in
  let buf := put buf (16 + 4) (WriteU16 (u16 (44 + n))) in
  let buf := put buf (16 + 6) [4] in
  let buf := put buf (16 + 8) (ascii_bytes "FC      ") in
  let buf := put buf (16 + 16) (ascii_bytes "000000000000") in
  let buf := put buf (16 + 34) (WriteU16 (mp_entry_count cpus)) in
  let buf := put buf (16 + 36) (WriteU32 0xFEE00000) in
  let buf := put buf (16 + 44) entries in
  put buf (16 + 7) [Checksum buf 16 (44 + length entries)].

Definition WriteMpTable (mem_size cpus pit_io_apic_pin : Z) : M ram unit :=
  lift (CheckRange mem_size (mp_start cpus) (u64 (mp_size cpus)) "MP table") ≫= fun _ =>
  modify (fun m => store m (mp_start cpus) (mp_buffer cpus pit_io_apic_pin)).

(** ** What the kernel reads back *)

Record e820_entry := mkE820 { e_addr : Z; e_size : Z; e_kind : Z }.
#[export] Instance e820_eq_dec : EqDecision e820_entry.
Proof. solve_decision. Defined.

Definition read_e820 (m : ram) (i : Z) : e820_entry :=
  let a := kBootParamsAddr + kE820Offset + i * kE820EntrySize in
  mkE820 (ReadU64 (load m a 8)) (ReadU64 (load m (a + 8) 8)) (ReadU32 (load m (a + 16) 4)).

(** The [e820_entries] first entries of the table. *)
Definition e820_map (m : ram) : list e820_entry :=
  map (read_e820 m) (seqZ 0 (m (kBootParamsAddr + 0x1E8))).

(** [l] tiles [lo, hi): each entry starts where the previous one ends. *)
Fixpoint tiles (lo : Z) (l : list e820_entry) (hi : Z) : Prop :=
  match l with
  | [] => lo = hi
  | e :: l => e_addr e = lo /\ 0 < e_size e /\ tiles (lo + e_size e) l hi
  end.

Lemma store_hit m a b : store m a [b] a = b.
Proof. rewrite <- (Z.add_0_r a) at 2. by apply (store_in m a [b] 0). Qed.

(** Looking a field up through the stores made after it. *)
Ltac skip_stores :=
  repeat first
    [ rewrite load_store_eq by reflexivity
    | rewrite load_store_disjoint by (cbn [length]; rewrite ?length_WriteU64, ?length_WriteU32,
        ?length_WriteU16, ?length_app; lia)
    | rewrite store_hit
    | rewrite store_out by (unfold in_range; cbn [length]; rewrite ?length_WriteU64,
        ?length_WriteU32, ?length_WriteU16, ?length_app; lia) ].

Lemma boot_e820 mem_size cmdline m :
  0x100000 < mem_size < 2 ^ 64 ->
  e820_map (boot_writes mem_size cmdline m) =
  [mkE820 0 0x9FC00 1; mkE820 0x9FC00 0x40400 2; mkE820 0xE0000 0x20000 2;
   mkE820 0x100000 (mem_size - 0x100000) 1].
Proof.
  intros Hm. unfold e820_map, boot_writes, PutE820.
  unfold kBootParamsAddr, kCmdlineAddr, kE820Offset, kE820EntrySize.
  destruct (Z.ltb_spec 0x100000 mem_size); [|lia]. cbv zeta.
  match goal with |- context [seqZ 0 ?x] => replace x with 4 end.
  2:{ symmetry. cbn [Z.add Pos.add Pos.succ Z.mul Pos.mul]. skip_stores. done. }
  change (seqZ 0 4) with [0; 1; 2; 3]. cbn [map]. unfold read_e820.
  unfold kBootParamsAddr, kE820Offset, kE820EntrySize.
  cbn [Z.add Pos.add Pos.succ Pos.add_carry Z.mul Pos.mul]. skip_stores.
  rewrite !ReadU64_WriteU64, !ReadU32_WriteU32. by rewrite !(u64_small (mem_size - _)) by lia.
Qed.

(** ** The zero page *)

Lemma tiles_e820 mem_size cmdline m :
  0x100000 < mem_size < 2 ^ 64 -> tiles 0 (e820_map (boot_writes mem_size cmdline m)) mem_size.
Proof.
  intros Hm. rewrite boot_e820 by done. cbn [tiles e_addr e_size]. split_and!; lia.
Qed.

(** With no RAM above 1 MiB the fourth entry is counted but not written. *)
Lemma boot_e820_small mem_size cmdline m :
  mem_size <= 0x100000 ->
  e820_map (boot_writes mem_size cmdline m) =
  [mkE820 0 0x9FC00 1; mkE820 0x9FC00 0x40400 2; mkE820 0xE0000 0x20000 2; read_e820 m 3].
Proof.
  intros Hm. unfold e820_map, boot_writes, PutE820.
  unfold kBootParamsAddr, kCmdlineAddr, kE820Offset, kE820EntrySize.
  destruct (Z.ltb_spec 0x100000 mem_size); [lia|]. cbv zeta.
  match goal with |- context [seqZ 0 ?x] => replace x with 4 end.
  2:{ symmetry. cbn [Z.add Pos.add Pos.succ Z.mul Pos.mul]. skip_stores. done. }
  change (seqZ 0 4) with [0; 1; 2; 3]. cbn [map]. unfold read_e820.
  unfold kBootParamsAddr, kE820Offset, kE820EntrySize.
  cbn [Z.add Pos.add Pos.succ Pos.add_carry Z.mul Pos.mul]. skip_stores.
  by rewrite !ReadU64_WriteU64, !ReadU32_WriteU32.
Qed.

Lemma boot_checks_ok mem_size n :
  0 <= mem_size < 2 ^ 64 -> 0 <= n ->
  boot_checks mem_size n =
  if kCmdlineAddr + n <=? mem_size then Ok tt else CheckRange mem_size kCmdlineAddr n "kernel cmdline".
Proof.
  intros Hm Hn.
  unfold boot_checks. cbv zeta.
  destruct (Z.leb_spec (kCmdlineAddr + n) mem_size) as [H|H].
  1: assert (Hr : forall o k w, 0 <= o -> 0 <= k -> o + k <= kCmdlineAddr -> CheckRange mem_size o k w = Ok tt)
    by (intros; apply CheckRange_ok; lia).
  - replace (CheckRange mem_size kCmdlineAddr n "kernel cmdline") with (Ok tt)
      by (symmetry; apply CheckRange_ok; unfold kCmdlineAddr in *; lia).
    cbn [mbind outcome_bind]. unfold kBootParamsAddr, kE820Offset, kE820EntrySize, kMaxE820Entries.
    rewrite !Hr by (unfold kCmdlineAddr; lia). done.
  - destruct (CheckRange mem_size kCmdlineAddr n "kernel cmdline") as [u|e|] eqn:E; try done.
    apply CheckRange_ok in E; unfold kCmdlineAddr in *; lia.
Qed.

Lemma CheckRange_throws total offset len what :
  0 <= total < 2 ^ 64 -> 0 <= offset -> 0 <= len -> total < offset + len ->
  exists e, CheckRange total offset len what = Throw e.
Proof.
  intros. destruct (CheckRange total offset len what) as [u|e|] eqn:E.
  - apply CheckRange_ok in E; lia.
  - by exists e.
  - by apply CheckRange_no_fuel in E.
Qed.

(** The header fields of the zero page at 0x7000, and the command line. *)
Record zero_page_header (cmdline : list Z) (m : ram) : Prop := {
  zp_boot_flag : ReadU16 (load m (kBootParamsAddr + 0x1FE) 2) = 0xAA55;
  zp_header : ReadU32 (load m (kBootParamsAddr + 0x202) 4) = 0x53726448;
  zp_loaded_high : Z.testbit (m (kBootParamsAddr + 0x211)) 0 = true;
  zp_cmd_line_ptr : ReadU32 (load m (kBootParamsAddr + 0x228) 4) = kCmdlineAddr;
  zp_cmdline_size : ReadU32 (load m (kBootParamsAddr + 0x238) 4) = Z.of_nat (length cmdline);
  zp_cmdline : load m kCmdlineAddr (Z.of_nat (length cmdline) + 1) = cmdline ++ [0] }.

(** What the boot protocol asks of the zero page of a machine with RAM above 1 MiB. *)
Record zero_page (mem_size : Z) (cmdline : list Z) (m : ram) : Prop := {
  zp_e820 : tiles 0 (e820_map m) mem_size;
  zp_usable : forall a, (exists e, e ∈ e820_map m /\ e_kind e = 1 /\ in_range (e_addr e) (e_size e) a)
                <-> 0 <= a < 0x9FC00 \/ 0x100000 <= a < mem_size;
  zp_fields : zero_page_header cmdline m }.

Lemma usable_e820 mem_size cmdline m :
  0x100000 < mem_size < 2 ^ 64 -> forall a,
  (exists e, e ∈ e820_map (boot_writes mem_size cmdline m) /\ e_kind e = 1 /\
             in_range (e_addr e) (e_size e) a)
  <-> 0 <= a < 0x9FC00 \/ 0x100000 <= a < mem_size.
Proof.
  intros Hm a. rewrite boot_e820 by done. unfold in_range. split.
  - intros (e & He & Hk & Ha). repeat (apply elem_of_cons in He as [->|He]; [cbn in *; lia|]).
    by apply elem_of_nil in He.
  - intros [Ha|Ha]; (eexists; split; [|split; [|cbv beta; cbn [e_addr e_size]]]).
    + by left.
    + done.
    + cbn [e_addr e_size]. lia.
    + right; right; right; by left.
    + done.
    + cbn [e_addr e_size]. lia.
Qed.

Lemma boot_header mem_size cmdline m :
  Z.of_nat (length cmdline) <= UINT32_MAX -> zero_page_header cmdline (boot_writes mem_size cmdline m).
Proof.
  intros Hn. constructor;
    unfold boot_writes, PutE820, kBootParamsAddr, kCmdlineAddr, kE820Offset, kE820EntrySize;
    destruct (Z.ltb_spec 0x100000 mem_size); cbv zeta;
    cbn [Z.add Pos.add Pos.succ Pos.add_carry Z.mul Pos.mul]; skip_stores.
  all: rewrite ?ReadU16_WriteU16, ?ReadU32_WriteU32; try done.
  1,2: rewrite Z.lor_spec; change (Z.testbit 1 0) with true; apply orb_true_r.
  1,2: unfold UINT32_MAX in Hn; by rewrite !(u32_small (Z.of_nat _)) by lia.
  all: replace (Z.of_nat (length cmdline) + 1) with (Z.of_nat (length (cmdline ++ [0])))
      by (rewrite length_app; cbn [length]; lia); skip_stores; done.
Qed.

Lemma boot_zero_page mem_size cmdline m :
  0x100000 < mem_size < 2 ^ 64 -> Z.of_nat (length cmdline) <= UINT32_MAX ->
  zero_page mem_size cmdline (boot_writes mem_size cmdline m).
Proof. intros Hm Hn. constructor; [by apply tiles_e820|by apply usable_e820|by apply boot_header]. Qed.

Lemma boot_e820_count mem_size cmdline m : boot_writes mem_size cmdline m (kBootParamsAddr + 0x1E8) = 4.
Proof.
  unfold boot_writes, PutE820, kBootParamsAddr, kCmdlineAddr, kE820Offset, kE820EntrySize. cbv zeta.
  destruct (_ <? _); cbn [Z.add Pos.add Pos.succ Pos.add_carry Z.mul Pos.mul]; skip_stores; done.
Qed.

(** The zero page and the command line, and nothing else. *)
Definition boot_params_area (cmdline : list Z) (a : Z) : Prop :=
  in_range kBootParamsAddr 0x400 a \/ in_range kCmdlineAddr (Z.of_nat (length cmdline) + 1) a.

(** What a boot loader reads of it, the e820 count first. *)
Definition zero_page_fields (cmdline : list Z) (a : Z) : Prop :=
  in_range (kBootParamsAddr + 0x1E8) 0x218 a \/ in_range kCmdlineAddr (Z.of_nat (length cmdline) + 1) a.

Lemma zero_page_ext mem_size cmdline m m2 :
  m (kBootParamsAddr + 0x1E8) = 4 -> (forall a, zero_page_fields cmdline a -> m2 a = m a) ->
  zero_page mem_size cmdline m -> zero_page mem_size cmdline m2.
Proof.
  intros Hc He Hz.
  assert (Hl : forall a n, kBootParamsAddr + 0x1E8 <= a -> a + n <= kBootParamsAddr + 0x400 -> load m2 a n = load m a n)
    by (intros a n H1 H2; apply load_ext; intros x Hx; apply He; left; unfold in_range in *; lia).
  assert (Hm : e820_map m2 = e820_map m).
  { unfold e820_map. rewrite He by (left; unfold in_range; lia). rewrite Hc. apply map_ext_in. intros i Hi.
    apply list_elem_of_In, elem_of_seqZ in Hi. unfold read_e820, kE820Offset, kE820EntrySize. rewrite !Hl by lia. done. }
  destruct Hz as [Ht Hu Hf]. constructor; rewrite ?Hm; try done.
  destruct Hf. constructor; rewrite ?Hl by lia; try done.
  - rewrite He; [done|]. left. unfold in_range. lia.
  - rewrite <- zp_cmdline0. apply load_ext. intros x Hx. apply He. by right.
Qed.

Lemma boot_writes_only mem_size cmdline m : only_writes (boot_params_area cmdline) m (boot_writes mem_size cmdline m).
Proof.
  unfold boot_writes, PutE820. cbv zeta.
  assert (Hs : forall m0 a bs, only_writes (boot_params_area cmdline) m m0 ->
      kBootParamsAddr <= a -> a + Z.of_nat (length bs) <= kBootParamsAddr + 0x400 ->
      only_writes (boot_params_area cmdline) m (store m0 a bs)).
  { intros m0 a bs Hm Ha Hb. eapply only_writes_trans; [exact Hm|].
    eapply only_writes_weaken; [|apply only_writes_store]. intros z Hz. left. unfold in_range in *. lia. }
  unfold kE820Offset, kE820EntrySize.
  destruct (_ <? _); repeat (apply Hs; [|lia|cbn [length]; rewrite ?length_WriteU64, ?length_WriteU32, ?length_WriteU16; lia]);
    (eapply only_writes_weaken; [|apply only_writes_store]; intros z Hz; right; rewrite length_app in Hz; unfold in_range in *; cbn [length] in Hz; lia).
Qed.

(** C18. [WriteBootParams], for every RAM size and command line: it succeeds exactly when
    the command line fits in RAM above 0x20000 (and its length in 32 bits), and otherwise
    leaves guest RAM as it was.  On success the header fields and the NUL-terminated
    command line are in place and nothing but the zero page and the command line was
    written.  With more than 1 MiB of RAM the e820 map tiles the RAM without gap or
    overlap and its usable part is exactly [0, 0x9FC00) and [1 MiB, mem_size).  With less,
    the count still says four entries: three that reserve everything from 0x9FC00 to
    1 MiB, whether it is RAM or not, and one that was not written. *)
Theorem WriteBootParams_spec mem_size cmdline m :
  0 <= mem_size < 2 ^ 64 ->
  let n := Z.of_nat (length cmdline) in
  match WriteBootParams mem_size cmdline m with
  | (Ok _, m') =>
      n <= UINT32_MAX /\ kCmdlineAddr + n + 1 <= mem_size /\ zero_page_header cmdline m' /\
      only_writes (boot_params_area cmdline) m m' /\
      (0x100000 < mem_size -> zero_page mem_size cmdline m') /\
      (mem_size <= 0x100000 -> e820_map m' =
         [mkE820 0 0x9FC00 1; mkE820 0x9FC00 0x40400 2; mkE820 0xE0000 0x20000 2; read_e820 m 3])
  | (Throw _, m') => m' = m /\ (UINT32_MAX < n \/ mem_size < kCmdlineAddr + n + 1)
  | (OutOfFuel, _) => False
  end.
Proof.
  intros Hm n. unfold WriteBootParams. fold n.
  destruct (Z.ltb_spec UINT32_MAX n); autorewrite with mrun; [split; [done|by left]|].
  rewrite boot_checks_ok by lia.
  destruct (Z.leb_spec (kCmdlineAddr + (n + 1)) mem_size) as [|Hlt].
  - unfold modify. split_and!; [done|lia|by apply boot_header|apply boot_writes_only| |].
    + intros Hs. apply boot_zero_page; [lia|done].
    + intros Hs. by apply boot_e820_small.
  - destruct (CheckRange_throws mem_size kCmdlineAddr (n + 1) "kernel cmdline") as [e ->];
      [lia|done|lia|lia|]. split; [done|right; lia].
Qed.

Lemma WriteBootParams_spec_witness :
  zero_page 0x8000000 (ascii_bytes "console=ttyS0")
    (WriteBootParams 0x8000000 (ascii_bytes "console=ttyS0") (fun _ => 0xAA)).2.
Proof.
  destruct (WriteBootParams_spec 0x8000000 (ascii_bytes "console=ttyS0") (fun _ => 0xAA)) as (_ & _ & _ & _ & Hz & _);
    [split; [discriminate|reflexivity]|].
  exact (Hz eq_refl).
Defined.

(** ** The MP table *)

Lemma put_app_l l1 l2 off bs :
  (off + length bs <= length l1)%nat -> put (l1 ++ l2) off bs = put l1 off bs ++ l2.
Proof.
  intros H. unfold put. rewrite take_app_le, drop_app_le by lia. by rewrite <- !app_assoc.
Qed.

Lemma put_app_r l1 l2 bs :
  length l2 = length bs -> put (l1 ++ l2) (length l1) bs = l1 ++ bs.
Proof.
  intros H. unfold put. rewrite take_app_length, drop_app_ge by lia.
  rewrite drop_ge by lia. by rewrite app_nil_r.
Qed.

Lemma Checksum_sum l start n :
  Checksum l start n = - byte_sum (take n (drop start l)) mod 256.
Proof.
  unfold Checksum. generalize (take n (drop start l)). intros bs.
  assert (Hf : forall bs a, fold_left (fun sum b => u8 (sum + b)) bs (a mod 256)
                     = (a + byte_sum bs) mod 256).
  { clear. induction bs as [|b bs IH]; intros a; cbn [fold_left]; [by rewrite Z.add_0_r|].
    change (byte_sum (b :: bs)) with (b + byte_sum bs).
    unfold u8 at 2. change (2 ^ 8) with 256. rewrite Zplus_mod_idemp_l, IH. f_equal. lia. }
  change 0 with (0 mod 256) at 1. rewrite Hf, Z.add_0_l. unfold u8, bnot, Z.lnot.
  change (2 ^ 8) with 256. rewrite <- Zplus_mod_idemp_l.
  rewrite Z.mod_mod_divide by (by exists (2 ^ 24)). rewrite Zplus_mod_idemp_l.
  replace (Z.pred (- (byte_sum bs mod 256)) + 1) with (0 - byte_sum bs mod 256) by lia.
  by rewrite Zminus_mod_idemp_r, Z.sub_0_l.
Qed.

(** Storing the checksum of a range in one of its bytes, which was zero, makes the
    range sum to zero. *)
Lemma checksum_zero l off :
  l !! off = Some 0 -> byte_sum (put l off [- byte_sum l mod 256]) mod 256 = 0.
Proof.
  intros H. rewrite (byte_sum_put1 _ _ _ _ H), Z.sub_0_r, Zplus_mod_idemp_r.
  by rewrite Z.add_opp_diag_r.
Qed.

(** The floating pointer structure and the table header, field by field. *)
Definition mp_floating (start c : Z) : list Z :=
  ascii_bytes "_MP_" ++ WriteU32 (start + 16) ++ [1; 4; c; 0; 0; 0; 0; 0].
Definition mp_header (n count c : Z) : list Z :=
  ascii_bytes "PCMP" ++ WriteU16 (44 + n) ++ [4; c] ++ ascii_bytes "FC      " ++
  ascii_bytes "000000000000" ++ [0; 0; 0; 0; 0; 0] ++ WriteU16 count ++
  WriteU32 0xFEE00000 ++ [0; 0; 0; 0].

Lemma length_concat_const {A B} (f : A -> list B) k l :
  (forall x, length (f x) = k) -> length (concat (map f l)) = (k * length l)%nat.
Proof.
  intros Hf. induction l as [|x l IH]; cbn [map concat length]; [lia|].
  rewrite length_app, Hf, IH. lia.
Qed.

Lemma length_mp_entries cpus pin :
  0 <= cpus -> Z.of_nat (length (mp_entries cpus pin)) = mp_size cpus - 60.
Proof.
  intros Hc. unfold mp_entries, mp_size. rewrite !length_app.
  rewrite (length_concat_const mp_cpu 20), (length_concat_const (mp_irq _ _) 8) by done.
  rewrite !length_seqZ. unfold max_legacy_gsi. cbn [length mp_bus mp_ioapic mp_extint mp_nmi].
  change (length mp_bus) with 8%nat. change (length (mp_ioapic (u8 (cpus + 1)))) with 8%nat.
  change (length mp_extint) with 8%nat. change (length mp_nmi) with 8%nat. lia.
Qed.

Lemma length4 {A} (l : list A) : length l = 4%nat -> exists a b c d, l = [a; b; c; d].
Proof. destruct l as [|a [|b [|c [|d [|]]]]]; try done. eauto. Qed.
Lemma length2 {A} (l : list A) : length l = 2%nat -> exists a b, l = [a; b].
Proof. destruct l as [|a [|b [|]]]; try done. eauto. Qed.

(** Evaluating the stores into a buffer whose first bytes are explicit, innermost first. *)
Ltac run_puts :=
  repeat match goal with
  | |- context [put ?l ?off ?bs] =>
      lazymatch l with context [put] => fail | _ => idtac end;
      lazymatch bs with context [put] => fail | _ => idtac end;
      let r := eval cbn [put take drop app length Nat.add] in (put l off bs) in
      change (put l off bs) with r
  end.

Lemma mp_buffer_layout cpus pin :
  0 <= cpus -> 0 <= mp_start cpus + 16 < 2 ^ 32 -> mp_size cpus < 2 ^ 16 ->
  let entries := mp_entries cpus pin in
  let n := Z.of_nat (length entries) in
  let fl := mp_floating (mp_start cpus) 0 in
  let hd := mp_header n (mp_entry_count cpus) 0 in
  mp_buffer cpus pin =
  put fl 10 [- byte_sum fl mod 256] ++ put (hd ++ entries) 7 [- byte_sum (hd ++ entries) mod 256].
Proof.
  intros Hc Hs Hz. unfold mp_buffer. cbv zeta.
  pose proof (length_mp_entries cpus pin Hc) as Hn.
  set (entries := mp_entries cpus pin) in *. clearbody entries.
  set (count := mp_entry_count cpus). clearbody count.
  replace (Z.to_nat (mp_size cpus)) with (16 + (44 + length entries))%nat by lia.
  rewrite !repeat_app. rewrite (u32_small (_ + 16)), u16_small by lia.
  set (start := mp_start cpus) in *. clearbody start.
  rewrite !Checksum_sum. unfold mp_floating, mp_header.
  destruct (length4 (WriteU32 (start + 16)) eq_refl) as (a0 & a1 & a2 & a3 & ->).
  destruct (length2 (WriteU16 (44 + Z.of_nat (length entries))) eq_refl) as (b0 & b1 & ->).
  destruct (length2 (WriteU16 count) eq_refl) as (d0 & d1 & ->).
  destruct (length4 (WriteU32 0xFEE00000) eq_refl) as (e0 & e1 & e2 & e3 & ->).
  assert (Hr : drop (length entries) (repeat 0 (length entries)) = [])
    by (apply drop_ge; by rewrite repeat_length).
  set (zeros := repeat 0 (length entries)) in *. clearbody zeros.
  change (repeat 0 16 ++ repeat 0 44 ++ zeros) with (repeat 0 60 ++ zeros).
  cbn [repeat app ascii_bytes list_ascii_of_string map].
  run_puts. rewrite !Hr, !app_nil_r.
  assert (Ht : take (length entries) entries = entries) by by apply take_ge.
  cbn [take drop app Nat.add]. rewrite !take_0. cbn [app]. by rewrite Ht.
Qed.

(** What a kernel reads from the entry list: the entry type gives the length. *)
Inductive MpEntry :=
  | MpProcessor (apic_id version flags signature features : Z)
  | MpBus (id : Z) (name : list Z)
  | MpIoApic (id version flags address : Z)
  | MpIoInterrupt (kind flags bus irq apic pin : Z)
  | MpLocalInterrupt (kind flags bus irq apic pin : Z).

Fixpoint mp_decode (fuel : nat) (bs : list Z) : option (list MpEntry) :=
  match fuel, bs with
  | _, [] => Some []
  | S fuel, ty :: _ =>
      let '(n, e) :=
        match ty with
        | 0 => (20%nat, Some (MpProcessor (byte_at bs 1) (byte_at bs 2) (byte_at bs 3)
                          (ReadU32 (drop 4 bs)) (ReadU32 (drop 8 bs))))
        | 1 => (8%nat, Some (MpBus (byte_at bs 1) (take 6 (drop 2 bs))))
        | 2 => (8%nat, Some (MpIoApic (byte_at bs 1) (byte_at bs 2) (byte_at bs 3)
                          (ReadU32 (drop 4 bs))))
        | 3 => (8%nat, Some (MpIoInterrupt (byte_at bs 1) (ReadU16 (drop 2 bs)) (byte_at bs 4)
                          (byte_at bs 5) (byte_at bs 6) (byte_at bs 7)))
        | 4 => (8%nat, Some (MpLocalInterrupt (byte_at bs 1) (ReadU16 (drop 2 bs)) (byte_at bs 4)
                          (byte_at bs 5) (byte_at bs 6) (byte_at bs 7)))
        | _ => (0%nat, None)
        end in
      if (length bs <? n)%nat then None
      else e ← e; es ← mp_decode fuel (drop n bs); Some (e :: es)
  | O, _ => None
  end.

(** The topology the table should describe. *)
Definition mp_topology (cpus pin : Z) : list MpEntry :=
  map (fun cpu => MpProcessor cpu 0x14 (if cpu =? 0 then 3 else 1) 0x600 0x201) (seqZ 0 cpus) ++
  [MpBus 0 (ascii_bytes "ISA   "); MpIoApic (cpus + 1) 0x14 1 0xFEC00000] ++
  map (fun irq => MpIoInterrupt 0 0 0 irq (cpus + 1) (if irq =? 0 then pin else irq)) (seqZ 0 24) ++
  [MpLocalInterrupt 3 0 0 0 0 0; MpLocalInterrupt 1 0 0 0 0xFF 1].

(** [enc] is decoded as [e] in front of any entries. *)
Definition mp_encodes (enc : list Z) (e : MpEntry) : Prop := forall f rest,
  mp_decode (S f) (enc ++ rest) = (es ← mp_decode f rest; Some (e :: es)).

Lemma mp_cpu_encodes cpu :
  0 <= cpu < 256 ->
  mp_encodes (mp_cpu cpu) (MpProcessor cpu 0x14 (if cpu =? 0 then 3 else 1) 0x600 0x201).
Proof.
  intros Hc f rest. unfold mp_cpu, put. rewrite u8_small by lia. by destruct (cpu =? 0).
Qed.
Lemma mp_ioapic_encodes id : mp_encodes (mp_ioapic id) (MpIoApic id 0x14 1 0xFEC00000).
Proof. done. Qed.
Lemma mp_irq_encodes id pin irq :
  0 <= irq < 24 -> 0 <= pin < 256 ->
  mp_encodes (mp_irq id pin irq) (MpIoInterrupt 0 0 0 irq id (if irq =? 0 then pin else irq)).
Proof.
  intros Hi Hp f rest. unfold mp_irq.
  rewrite (u8_small irq), (u32_small irq) by lia.
  replace (u8 (if irq =? 0 then pin else irq)) with (if irq =? 0 then pin else irq); [done|].
  destruct (irq =? 0); by rewrite u8_small by lia.
Qed.

Lemma mp_decode_list {A} (enc : A -> list Z) (e : A -> MpEntry) l f rest :
  (forall x, x ∈ l -> mp_encodes (enc x) (e x)) ->
  mp_decode (length l + f) (concat (map enc l) ++ rest) =
  (es ← mp_decode f rest; Some (map e l ++ es)).
Proof.
  induction l as [|x l IH]; intros H; cbn [map concat length].
  - cbn. by destruct (mp_decode f rest).
  - rewrite <- app_assoc. cbn [Nat.add]. rewrite H by left.
    rewrite IH by (intros; apply H; by right). by destruct (mp_decode f rest).
Qed.

Lemma mp_decode_entries cpus pin :
  0 <= cpus < 255 -> 0 <= pin < 256 ->
  mp_decode (Z.to_nat cpus + 28) (mp_entries cpus pin) = Some (mp_topology cpus pin).
Proof.
  intros Hc Hp. unfold mp_entries, mp_topology.
  rewrite <- (length_seqZ 0 cpus) at 1.
  rewrite (mp_decode_list mp_cpu (fun cpu => MpProcessor cpu 0x14 (if cpu =? 0 then 3 else 1) 0x600 0x201))
    by (intros x Hx%elem_of_seqZ; apply mp_cpu_encodes; lia).
  rewrite (u8_small (cpus + 1)) by lia.
  change 28%nat with (S (S (length (seqZ 0 (max_legacy_gsi + 1)) + 2))).
  assert (Hb : mp_encodes mp_bus (MpBus 0 (ascii_bytes "ISA   "))) by done.
  rewrite Hb, mp_ioapic_encodes.
  rewrite (mp_decode_list _ (fun irq => MpIoInterrupt 0 0 0 irq (cpus + 1) (if irq =? 0 then pin else irq)))
    by (intros x Hx%elem_of_seqZ; apply mp_irq_encodes; unfold max_legacy_gsi in *; lia).
  done.
Qed.

(** The two structures a kernel looks for at the top of low memory. *)
Record mp_table_at (m : ram) (start cpus pin : Z) : Prop := {
  mp_signature : load m start 4 = ascii_bytes "_MP_";
  mp_pointer : ReadU32 (load m (start + 4) 4) = start + 16;
  mp_floating_sum : byte_sum (load m start 16) mod 256 = 0;
  mp_table_sum : byte_sum (load m (start + 16) (ReadU16 (load m (start + 20) 2))) mod 256 = 0;
  mp_count : ReadU16 (load m (start + 16 + 34) 2) = Z.of_nat (length (mp_topology cpus pin));
  mp_entries_at : mp_decode (Z.to_nat (ReadU16 (load m (start + 16 + 34) 2)))
      (load m (start + 60) (ReadU16 (load m (start + 20) 2) - 44)) = Some (mp_topology cpus pin) }.

Lemma length_mp_floating start c : length (mp_floating start c) = 16%nat.
Proof. done. Qed.
Lemma length_mp_header n count c : length (mp_header n count c) = 44%nat.
Proof. done. Qed.

(** The buffer as the floating structure [fl] followed by the table [hd ++ entries]. *)
Lemma mp_buffer_parts cpus pin :
  1 <= cpus <= 64 -> exists cf ct,
  let entries := mp_entries cpus pin in
  let n := Z.of_nat (length entries) in
  let fl := mp_floating (mp_start cpus) cf in
  let tb := mp_header n (mp_entry_count cpus) ct ++ entries in
  mp_buffer cpus pin = fl ++ tb /\ byte_sum fl mod 256 = 0 /\ byte_sum tb mod 256 = 0.
Proof.
  intros Hc.
  assert (Hs : 0 <= mp_start cpus + 16 < 2 ^ 32).
  { unfold mp_start. pose proof (land_range (u64 (0xA0000 - u64 (mp_size cpus))) (bnot 64 0xF) 64).
    change (bnot 64 0xF) with (2 ^ 64 - 16) in *.
    rewrite !u64_small in * by (unfold mp_size, max_legacy_gsi; rewrite ?u64_small; lia).
    assert (Z.land (655360 - mp_size cpus) (2 ^ 64 - 16) < 2 ^ 20); [|lia].
    rewrite Z.land_comm. apply land_range; [lia|]. unfold mp_size, max_legacy_gsi. lia. }
  pose proof (mp_buffer_layout cpus pin ltac:(lia) Hs) as HL. cbv zeta in HL.
  rewrite HL by (unfold mp_size, max_legacy_gsi; lia). clear HL.
  set (entries := mp_entries cpus pin). set (n := Z.of_nat (length entries)).
  set (fl := mp_floating (mp_start cpus) 0).
  set (tb := mp_header n (mp_entry_count cpus) 0 ++ entries).
  exists (- byte_sum fl mod 256), (- byte_sum tb mod 256). cbv zeta.
  split_and!; [done| |].
  - by apply (checksum_zero fl 10).
  - by apply (checksum_zero tb 7).
Qed.

Lemma mp_start_range cpus :
  1 <= cpus <= 64 -> mp_start cpus = (0xA0000 - mp_size cpus) / 16 * 16.
Proof.
  intros Hc. assert (Hz : 0 <= mp_size cpus < 2 ^ 16) by (unfold mp_size, max_legacy_gsi; lia).
  unfold mp_start. rewrite !u64_small by (rewrite ?u64_small; lia).
  change (bnot 64 0xF) with (Z.shiftl (Z.ones 60) 4). rewrite land_field by lia.
  rewrite (Z.mod_small (_ / _)); [done|].
  split; [apply Z.div_pos; lia|]. apply Z.div_lt_upper_bound; lia.
Qed.

Lemma mp_buffer_table_at m cpus pin :
  1 <= cpus <= 64 -> 0 <= pin < 256 ->
  load m (mp_start cpus) (Z.of_nat (length (mp_buffer cpus pin))) = mp_buffer cpus pin ->
  mp_table_at m (mp_start cpus) cpus pin.
Proof.
  intros Hc Hp Hbuf. destruct (mp_buffer_parts cpus pin Hc) as (cf & ct & HB & Hf & Ht).
  cbv zeta in *.
  pose proof (length_mp_entries cpus pin ltac:(lia)) as Hn.
  pose proof (mp_decode_entries cpus pin ltac:(lia) Hp) as Hd.
  set (entries := mp_entries cpus pin) in *. set (n := Z.of_nat (length entries)) in *.
  assert (Hz : 0 <= n < 2 ^ 12) by (unfold mp_size, max_legacy_gsi in Hn; lia).
  pose proof (mp_start_range cpus Hc) as Hst. set (start := mp_start cpus) in *.
  assert (Hst' : 0 <= start + 16 < 2 ^ 32)
    by (pose proof (Z.mod_pos_bound (0xA0000 - mp_size cpus) 16);
        pose proof (Z.div_mod (0xA0000 - mp_size cpus) 16); lia).
  set (buf := mp_buffer cpus pin) in *.
  set (fl := mp_floating start cf) in *. set (hd := mp_header n (mp_entry_count cpus) ct) in *.
  assert (Hl : Z.of_nat (length buf) = 60 + n).
  { rewrite HB, !length_app. unfold fl, hd. rewrite length_mp_floating, length_mp_header. lia. }
  assert (Hsub : forall i k, 0 <= i -> 0 <= k -> i + k <= 60 + n ->
    load m (start + i) k = take (Z.to_nat k) (drop (Z.to_nat i) buf))
    by (intros i k Hi Hk Hik; rewrite (load_sub m start (60 + n) i k) by lia; rewrite <- Hl; by rewrite Hbuf).
  assert (Hlen : ReadU16 (load m (start + 20) 2) = 44 + n).
  { rewrite Hsub, HB by lia. change (take _ _) with (WriteU16 (44 + n)).
    rewrite ReadU16_WriteU16. apply u16_small. lia. }
  assert (Hcnt : ReadU16 (load m (start + 16 + 34) 2) =
                 Z.of_nat (length (mp_topology cpus pin))).
  { rewrite <- Z.add_assoc, Hsub, HB by lia. change (take _ _) with (WriteU16 (mp_entry_count cpus)).
    rewrite ReadU16_WriteU16. unfold mp_entry_count, max_legacy_gsi, mp_topology.
    rewrite !length_app, !length_map, !length_seqZ. cbn [length].
    rewrite !u16_small by (rewrite ?u16_small; lia). lia. }
  split; try done.
  - rewrite <- (Z.add_0_r start) at 1. rewrite Hsub, HB by lia. done.
  - rewrite Hsub, HB by lia. change (take _ _) with (WriteU32 (start + 16)).
    rewrite ReadU32_WriteU32. by apply u32_small.
  - rewrite <- (Z.add_0_r start) at 1. rewrite Hsub, HB by lia. exact Hf.
  - rewrite Hlen, Hsub, HB by lia.
    rewrite take_ge; [exact Ht|]. rewrite length_drop, <- HB. lia.
  - rewrite Hcnt, Hlen, Hsub, HB by lia.
    rewrite take_ge by (rewrite length_drop, <- HB; lia).
    change (drop (Z.to_nat 60) _) with entries. rewrite <- Hd. f_equal.
    unfold mp_topology. rewrite !length_app, !length_map, !length_seqZ. cbn [length]. lia.
Qed.

Lemma mp_low cpus : 1 <= cpus <= 64 -> 0x9F000 <= mp_start cpus /\ mp_start cpus + mp_size cpus <= 0xA0000.
Proof.
  intros Hc. rewrite mp_start_range by lia. unfold mp_size, max_legacy_gsi.
  match goal with |- context [?x / 16] => pose proof (Z.mod_pos_bound x 16); pose proof (Z.div_mod x 16) end. lia.
Qed.

Lemma length_mp_buffer n pin : 1 <= n <= 64 -> Z.of_nat (length (mp_buffer n pin)) = mp_size n.
Proof.
  intros Hn. destruct (mp_buffer_parts n pin Hn) as (cf & ct & HB & _). cbv zeta in HB.
  rewrite HB, !length_app, length_mp_floating, length_mp_header.
  pose proof (length_mp_entries n pin). lia.
Qed.

(** C19. For every processor count the monitor accepts, [WriteMpTable] places a
    floating pointer structure below 0xA0000 and a configuration table that a
    kernel decodes to exactly the machine's topology, both with a zero byte sum;
    it writes only that range, and when RAM does not reach it, nothing at all. *)
Theorem WriteMpTable_spec mem_size cpus pin m :
  1 <= cpus <= 64 -> 0 <= pin < 256 -> 0 <= mem_size < 2 ^ 64 ->
  0 <= mp_start cpus /\ mp_start cpus + mp_size cpus <= 0xA0000 /\
  match WriteMpTable mem_size cpus pin m with
  | (Ok _, m') => mp_start cpus + mp_size cpus <= mem_size /\
      mp_table_at m' (mp_start cpus) cpus pin /\
      only_writes (in_range (mp_start cpus) (mp_size cpus)) m m'
  | (Throw _, m') => m' = m /\ mem_size < mp_start cpus + mp_size cpus
  | (OutOfFuel, _) => False
  end.
Proof.
  intros Hc Hp Hm. pose proof (mp_start_range cpus Hc) as Hst.
  pose proof (Z.mod_pos_bound (0xA0000 - mp_size cpus) 16).
  pose proof (Z.div_mod (0xA0000 - mp_size cpus) 16).
  assert (Hz : 0 <= mp_size cpus < 2 ^ 16) by (unfold mp_size, max_legacy_gsi; lia).
  split; [lia|]. split; [lia|]. unfold WriteMpTable. autorewrite with mrun.
  rewrite (u64_small (mp_size cpus)) by lia.
  destruct (CheckRange mem_size (mp_start cpus) (mp_size cpus) "MP table") as [u|e|] eqn:E.
  - apply CheckRange_ok in E; [|lia..]. unfold modify.
    split_and!; [done|apply mp_buffer_table_at; [done..|by apply load_store_same]|].
    eapply only_writes_weaken; [|apply only_writes_store].
    destruct (mp_buffer_parts cpus pin Hc) as (cf & ct & HB & _). cbv zeta in HB.
    intros a. rewrite HB, !length_app, length_mp_floating, length_mp_header.
    pose proof (length_mp_entries cpus pin). unfold in_range. lia.
  - split; [done|]. destruct (Z.ltb_spec mem_size (mp_start cpus + mp_size cpus)); [done|].
    assert (CheckRange mem_size (mp_start cpus) (mp_size cpus) "MP table" = Ok tt)
      by (apply CheckRange_ok; lia). congruence.
  - by apply CheckRange_no_fuel in E.
Qed.

Lemma WriteMpTable_spec_witness :
  mp_table_at (WriteMpTable 0x8000000 2 2 (fun _ => 0xAA)).2 (mp_start 2) 2 2.
Proof.
  destruct (WriteMpTable_spec 0x8000000 2 2 (fun _ => 0xAA)) as (_ & _ & H); [lia..|].
  exact (proj1 (proj2 H)).
Defined.

(** With 38 processors or more the table starts below 0x9FC00, in memory the
    e820 map of [WriteBootParams] declares usable and outside the last KiB of base
    memory that is searched for the floating pointer structure. *)
Theorem WriteMpTable_in_usable_ram cpus :
  1 <= cpus <= 64 ->
  (mp_start cpus < 0x9FC00 <-> 38 <= cpus) /\
  forall mem_size cmdline m, 0x100000 < mem_size < 2 ^ 64 -> 38 <= cpus ->
    exists e, e ∈ e820_map (boot_writes mem_size cmdline m) /\ e_kind e = 1 /\
              in_range (e_addr e) (e_size e) (mp_start cpus).
Proof.
  intros Hc. pose proof (mp_start_range cpus Hc) as Hst.
  pose proof (Z.mod_pos_bound (0xA0000 - mp_size cpus) 16).
  pose proof (Z.div_mod (0xA0000 - mp_size cpus) 16).
  assert (Hlow : mp_start cpus < 0x9FC00 <-> 38 <= cpus)
    by (unfold mp_size, max_legacy_gsi in *; lia).
  split; [done|]. intros mem_size cmdline m Hm H38. apply usable_e820; [done|]. left.
  split; [|by apply Hlow]. unfold mp_size, max_legacy_gsi in *. lia.
Qed.

Lemma WriteMpTable_in_usable_ram_witness : mp_start 64 < 0x9FC00.
Proof. apply (WriteMpTable_in_usable_ram 64); lia. Defined.
