(* ===== verification/VirtQueue.v ===== *)
(** * native/whp/virtio/desc.h and the split virtqueue of the block device

    Register offsets and constants of virtio-mmio, descriptors, the walk of a
    descriptor chain ([walk_chain_inline] of blk.cc) and the used ring
    ([push_used_inline]).  The walk is specified by the relation [linked]: the
    theorem is that it returns exactly the acyclic chains, for any guest memory,
    and always ends. *)

From S2P Require Import Prelude Words Bytes GuestMemory.

(** ** desc.h *)

Definition kMagic : Z := 0x74726976.
Definition kVendor : Z := 0x554D4551.
Definition kVersion : Z := 2.
Definition kMaxQueueSize : Z := 256.

Definition kRingDescFNext : Z := 1.
Definition kRingDescFWrite : Z := 2.
Definition kRingDescFIndirect : Z := 4.
Definition kRingAvailFNoInterrupt : Z := 1.

Definition kFVersion1 : Z := 2 ^ 32.
Definition kNetFMac : Z := 2 ^ 5.
Definition kNetFStatus : Z := 2 ^ 16.

Definition kInterruptVring : Z := 0x1.
Definition kInterruptConfig : Z := 0x2.

Definition kMmioMagicValue : Z := 0x000.
Definition kMmioVersion : Z := 0x004.
Definition kMmioDeviceId : Z := 0x008.
Definition kMmioVendorId : Z := 0x00C.
Definition kMmioDeviceFeatures : Z := 0x010.
Definition kMmioDeviceFeaturesSel : Z := 0x014.
Definition kMmioDriverFeatures : Z := 0x020.
Definition kMmioDriverFeaturesSel : Z := 0x024.
Definition kMmioQueueSel : Z := 0x030.
Definition kMmioQueueNumMax : Z := 0x034.
Definition kMmioQueueNum : Z := 0x038.
Definition kMmioQueueReady : Z := 0x044.
Definition kMmioQueueNotify : Z := 0x050.
Definition kMmioInterruptStatus : Z := 0x060.
Definition kMmioInterruptAck : Z := 0x064.
Definition kMmioStatus : Z := 0x070.
Definition kMmioQueueDescLow : Z := 0x080.
Definition kMmioQueueDescHigh : Z := 0x084.
Definition kMmioQueueDriverLow : Z := 0x090.
Definition kMmioQueueDriverHigh : Z := 0x094.
Definition kMmioQueueDeviceLow : Z := 0x0A0.
Definition kMmioQueueDeviceHigh : Z := 0x0A4.
Definition kMmioConfigGeneration : Z := 0x0FC.

Record Desc := mkDesc { addr : Z; dlen : Z; flags : Z; next : Z }.

(** [DescChain]: [items[0 .. size)]; [push] throws past [kMaxQueueSize]. *)
Definition push (chain : list Desc) (desc : Desc) : outcome (list Desc) :=
  Check (Z.of_nat (length chain) <? kMaxQueueSize) "virtio descriptor chain too long" ≫= fun _ =>
  Ok (chain ++ [desc]).

Definition read_desc (m : ram) (p : Z) : Desc :=
  mkDesc (ReadU64 (load m p 8)) (ReadU32 (load m (p + 8) 4))
         (ReadU16 (load m (p + 12) 2)) (ReadU16 (load m (p + 14) 2)).

(** The [Queue] of the block and entropy devices. *)
Record Queue := mkQueue {
  qsize : Z; ready : bool; last_avail : Z; desc_addr : Z; driver_addr : Z; device_addr : Z }.
#[export] Instance eta_Queue : Eta Queue := fun q =>
  mkQueue (qsize q) (ready q) (last_avail q) (desc_addr q) (driver_addr q) (device_addr q).

Record queue_ok (max : Z) (q : Queue) : Prop := {
  qok_size : 1 <= qsize q <= max; qok_last : 0 <= last_avail q < 65536;
  qok_desc : 0 <= desc_addr q < 2 ^ 64; qok_driver : 0 <= driver_addr q < 2 ^ 64;
  qok_device : 0 <= device_addr q < 2 ^ 64 }.

(** ** The chain walk *)

Section Walk.
Context (mem : GuestMemory) (desc_addr q_size : Z).

Fixpoint walk_loop (fuel : nat) (seen : gset Z) (chain : list Desc) (idx : Z)
    : outcome (list Desc) :=
  match fuel with
  | O => OutOfFuel
  | S fuel =>
      Check (idx <? q_size) "virtio descriptor next out of bounds" ≫= fun _ =>
      Check (negb (bool_decide (idx ∈ seen))) "virtio descriptor cycle" ≫= fun _ =>
      let seen := {[ idx ]} ∪ seen in
      Check (idx <? q_size) "virtio descriptor index out of bounds" ≫= fun _ =>
      ptr mem (u64 (desc_addr + idx * 16)) 16 ≫= fun p =>
      let d := read_desc (data mem) p in
      Check (negb (has (flags d) kRingDescFIndirect))
        "virtio indirect descriptors are not supported" ≫= fun _ =>
      push chain d ≫= fun chain =>
      if negb (has (flags d) kRingDescFNext) then Ok chain
      else walk_loop fuel seen chain (next d)
  end.

(** Each round consumes a fresh index below [q_size <= kMaxQueueSize]. *)
Definition walk_chain_inline (head : Z) : outcome (list Desc) :=
  walk_loop (S (Z.to_nat kMaxQueueSize)) ∅ [] head.
End Walk.

(** ** The used ring *)

Definition checked_ptr (a n : Z) : M GuestMemory Z := fun g => (ptr g a n, g).
Definition store_at (p : Z) (bs : list Z) : M GuestMemory unit := modify (fun g => mem_store g p bs).
Definition load_at (p n : Z) : M GuestMemory (list Z) := gets (fun g => load (data g) p n).

Definition push_used_inline (device_addr q_size id written : Z) : M GuestMemory unit :=
  checked_ptr (u64 (device_addr + 2)) 2 ≫= fun idxp =>
  load_at idxp 2 ≫= fun b =>
  let used := ReadU16 b in
  let entry := u64 (device_addr + 4 + used mod q_size * 8) in
  checked_ptr entry 8 ≫= fun p => store_at p (WriteU32 id) ≫= fun _ =>
  checked_ptr (u64 (entry + 4)) 4 ≫= fun p => store_at p (WriteU32 written) ≫= fun _ =>
  store_at idxp (WriteU16 (used + 1)).

(** Free-running 16-bit ring cursors. *)
Lemma u16_dist a b : 0 <= a < 65536 -> 0 <= b < 65536 -> a <> b ->
  u16 (a - u16 (b + 1)) = u16 (a - b) - 1.
Proof. intros. unfold u16. Z.to_euclidean_division_equations. lia. Qed.

Lemma u16_dist_pos a b : 0 <= a < 65536 -> 0 <= b < 65536 -> a <> b -> 0 < u16 (a - b).
Proof. intros. unfold u16. Z.to_euclidean_division_equations. lia. Qed.

(** ** Ranges of what is read from guest memory *)

Record desc_ok (d : Desc) : Prop := {
  ok_addr : 0 <= addr d < 2 ^ 64; ok_len : 0 <= dlen d < 2 ^ 32;
  ok_flags : 0 <= flags d < 65536; ok_next : 0 <= next d < 65536 }.

Lemma read_desc_ok m p : ram_ok m -> desc_ok (read_desc m p).
Proof.
  intros Hm. split; cbn [read_desc addr dlen flags next];
    (apply ReadU64_range || apply ReadU32_range || apply ReadU16_range);
    try (by apply load_ok); by rewrite length_load.
Qed.

(** ** Specification of the walk *)

Section Walk_spec.
Context (mem : GuestMemory) (desc_addr q_size : Z).
Hypothesis mem_size : 0 <= len mem < 2 ^ 64.
Hypothesis mem_bytes : ram_ok (data mem).
Hypothesis queue_size : 1 <= q_size <= kMaxQueueSize.

(** Descriptor [i] of the table exists, lies in guest memory and is direct. *)
Definition desc_at (i : Z) (d : Desc) : Prop :=
  0 <= i < q_size /\ u64 (desc_addr + i * 16) + 16 <= len mem /\
  d = read_desc (data mem) (u64 (desc_addr + i * 16)) /\ has (flags d) kRingDescFIndirect = false.

(** [linked i ixs ds]: following NEXT from [i] visits the indices [ixs] and the
    descriptors [ds], and ends at the first descriptor without NEXT. *)
Inductive linked : Z -> list Z -> list Desc -> Prop :=
  | linked_last i d :
      desc_at i d -> has (flags d) kRingDescFNext = false -> linked i [i] [d]
  | linked_next i d ixs ds :
      desc_at i d -> has (flags d) kRingDescFNext = true -> linked (next d) ixs ds ->
      linked i (i :: ixs) (d :: ds).

Lemma linked_range i ixs ds : linked i ixs ds -> Forall (fun i => 0 <= i < q_size) ixs.
Proof.
  induction 1 as [i d [Hd _]|i d ixs ds [Hd _] _ _ IH]; (constructor; [done|]); [by constructor|done].
Qed.

Lemma linked_length i ixs ds : linked i ixs ds -> length ixs = length ds.
Proof. induction 1; cbn; lia. Qed.

Lemma seen_size (X : gset Z) :
  (forall i, i ∈ X -> 0 <= i < q_size) -> (size X <= Z.to_nat q_size)%nat.
Proof.
  intros HX. rewrite <- (Nat.mul_1_r (Z.to_nat q_size)).
  transitivity (size (list_to_set (seqZ 0 q_size) : gset Z)).
  - apply subseteq_size. intros i Hi%HX. apply elem_of_list_to_set, elem_of_seqZ. lia.
  - rewrite size_list_to_set by apply NoDup_seqZ. rewrite length_seqZ. lia.
Qed.

Lemma elem_of_add (X : gset Z) i j : j ∈ {[ i ]} ∪ X <-> j = i \/ j ∈ X.
Proof. by rewrite elem_of_union, elem_of_singleton. Qed.

Lemma size_add (X : gset Z) i : i ∉ X -> size ({[ i ]} ∪ X) = S (size X).
Proof.
  intros Hi. rewrite size_union, size_singleton; [done|].
  intros j ->%elem_of_singleton Hj. done.
Qed.

(** What one descriptor check of the walk says. *)
Lemma walk_step_ok idx p :
  0 <= idx < q_size ->
  ptr mem (u64 (desc_addr + idx * 16)) 16 = Ok p <->
  p = u64 (desc_addr + idx * 16) /\ u64 (desc_addr + idx * 16) + 16 <= len mem.
Proof. intros. apply ptr_ok; [done|apply u64_range|done]. Qed.

Lemma walk_loop_spec fuel : forall seen chain idx,
  (forall i, i ∈ seen -> 0 <= i < q_size) -> length chain = size seen -> 0 <= idx ->
  (Z.to_nat q_size - size seen < fuel)%nat ->
  walk_loop mem desc_addr q_size fuel seen chain idx <> OutOfFuel /\
  forall ds, walk_loop mem desc_addr q_size fuel seen chain idx = Ok ds <->
    exists ixs ds', ds = chain ++ ds' /\ linked idx ixs ds' /\ NoDup ixs /\
                   (forall i, i ∈ ixs -> i ∉ seen).
Proof.
  induction fuel as [|fuel IH]; intros seen chain idx Hseen Hlen Hidx Hfuel; [lia|].
  cbn [walk_loop]. unfold Check at 1.
  destruct (Z.ltb_spec idx q_size) as [Hlt|]; cbn [mbind outcome_bind].
  2:{ split; [done|]. intros ds. split; [done|]. intros (ixs & ds' & _ & Hl & _).
      apply linked_range in Hl as Hr. inversion Hl; subst; inversion Hr; lia. }
  unfold Check at 1. case_bool_decide as Hin; cbn [negb mbind outcome_bind].
  { split; [done|]. intros ds. split; [done|]. intros (ixs & ds' & _ & Hl & _ & Hn).
    exfalso. apply (Hn idx); [|done]. inversion Hl; subst; by left. }
  unfold Check at 1. cbn [mbind outcome_bind].
  pose proof (walk_step_ok idx) as Hptr.
  destruct (ptr mem _ 16) as [p|e|] eqn:Ep; cbn [mbind outcome_bind].
  2:{ split; [done|]. intros ds. split; [done|]. intros (ixs & ds' & _ & Hl & _).
      assert (exists d, desc_at idx d) as [d Hd] by (inversion Hl; subst; eauto).
      destruct Hd as (_ & Hd & _). specialize (proj2 (Hptr _ ltac:(lia)) (conj eq_refl Hd)). done. }
  2:{ by apply ptr_no_fuel in Ep. }
  clear Hptr. apply (walk_step_ok idx) in Ep as [-> Hr]; [|lia].
  set (d := read_desc (data mem) _). unfold Check at 1.
  destruct (has (flags d) kRingDescFIndirect) eqn:Eind; cbn [negb mbind outcome_bind].
  { split; [done|]. intros ds. split; [done|]. intros (ixs & ds' & _ & Hl & _).
    assert (exists d, desc_at idx d) as [d' Hd] by (inversion Hl; subst; eauto).
    destruct Hd as (_ & _ & -> & Hd). by unfold d in Eind; congruence. }
  assert (Hd : desc_at idx d) by done.
  assert (Hseen' : forall i, i ∈ {[ idx ]} ∪ seen -> 0 <= i < q_size)
    by (intros i [->|Hi]%elem_of_add; [lia|by apply Hseen]).
  pose proof (seen_size _ Hseen') as Hfresh.
  rewrite size_add in Hfresh by done.
  unfold push, Check at 1.
  destruct (Z.ltb_spec (Z.of_nat (length chain)) kMaxQueueSize); [|lia]. cbn [mbind outcome_bind].
  destruct (has (flags d) kRingDescFNext) eqn:Enext; cbn [negb].
  - destruct (IH ({[ idx ]} ∪ seen) (chain ++ [d]) (next d)) as [Hnf Hok].
    + done.
    + rewrite length_app, size_add by done. cbn [length]. lia.
    + pose proof (ok_next _ (read_desc_ok (data mem) (u64 (desc_addr + idx * 16)) mem_bytes)).
      unfold d. lia.
    + rewrite size_add by done. lia.
    + split; [done|]. intros ds. rewrite Hok. split.
      * intros (ixs & ds' & -> & Hl & Hnd & Hns). exists (idx :: ixs), (d :: ds').
        split_and!; [by rewrite <- app_assoc|by constructor| |].
        -- constructor; [|done]. intros Hi. apply (Hns idx Hi). apply elem_of_add. by left.
        -- intros i [->|Hi]%elem_of_cons; [done|]. intros Hs. apply (Hns i Hi). apply elem_of_add. by right.
      * intros (ixs & ds' & -> & Hl & Hnd & Hns). inversion Hl as [i d0 Hd0 Hn0|i d0 ixs0 ds0 Hd0 Hn0 Hl0]; subst.
        { destruct Hd0 as (_ & _ & -> & _). unfold d in Enext. congruence. }
        assert (d0 = d) as -> by (by destruct Hd0 as (_ & _ & -> & _)).
        inversion Hnd as [|? ? Hni Hnd0]; subst.
        exists ixs0, ds0. split_and!; [by rewrite <- app_assoc|done|done|].
        intros i Hi [->|Hs]%elem_of_add; [done|]. by apply (Hns i); [right|].
  - split; [done|]. intros ds. split.
    + intros [= <-]. exists [idx], [d]. split_and!; [done|by constructor|apply NoDup_singleton|].
      intros i ->%list_elem_of_singleton. done.
    + intros (ixs & ds' & -> & Hl & _). inversion Hl as [i d0 Hd0 Hn0|i d0 ixs0 ds0 Hd0 Hn0 Hl0]; subst.
      * by destruct Hd0 as (_ & _ & -> & _).
      * destruct Hd0 as (_ & _ & -> & _). unfold d in Enext. congruence.
Qed.
End Walk_spec.

(** C13.  For any guest memory and any table the driver points at, the chain walk ends;
    it succeeds exactly on the chains that follow NEXT from [head] through distinct,
    in-range, direct descriptors to one without NEXT, and returns those descriptors
    in order.  A chain thus has between 1 and [q_size] descriptors. *)
Theorem walk_chain_spec mem desc_addr q_size head :
  0 <= len mem < 2 ^ 64 -> ram_ok (data mem) -> 1 <= q_size <= kMaxQueueSize -> 0 <= head ->
  walk_chain_inline mem desc_addr q_size head <> OutOfFuel /\
  forall ds, walk_chain_inline mem desc_addr q_size head = Ok ds <->
    exists ixs, linked mem desc_addr q_size head ixs ds /\ NoDup ixs /\
               1 <= Z.of_nat (length ds) <= q_size.
Proof.
  intros Hm Hb Hq Hh. unfold walk_chain_inline.
  destruct (walk_loop_spec mem desc_addr q_size Hm Hb Hq (S (Z.to_nat kMaxQueueSize)) ∅ [] head)
    as [Hnf Hok]; [done|done|done|unfold kMaxQueueSize in *; lia|].
  split; [done|]. intros ds. rewrite Hok. split.
  - intros (ixs & ds' & -> & Hl & Hnd & _). exists ixs. split_and!; [done..| |].
    + inversion Hl; subst; cbn [app length]; lia.
    + cbn [app]. rewrite <- (linked_length _ _ _ _ _ _ Hl).
      pose proof (seen_size q_size (list_to_set ixs)) as Hs.
      rewrite size_list_to_set in Hs by done. apply linked_range in Hl.
      rewrite Forall_forall in Hl. specialize (Hs (fun i Hi => Hl i (proj1 (list_elem_of_In _ _) (proj1 (elem_of_list_to_set i ixs) Hi)))).
      lia.
  - intros (ixs & Hl & Hnd & _). exists ixs, ds. split_and!; [done..|]. intros i _. apply not_elem_of_empty.
Qed.

(** Two descriptors: 0 -> 1. *)
Definition demo_ring : list Z :=
  WriteU64 0x1000 ++ WriteU32 16 ++ WriteU16 1 ++ WriteU16 1 ++
  WriteU64 0x2000 ++ WriteU32 1 ++ WriteU16 2 ++ WriteU16 0.
Definition demo_mem : GuestMemory := mkGuestMemory (store (fun _ => 0) 0x100 demo_ring) 0x10000.

Lemma demo_mem_ok : ram_ok (data demo_mem).
Proof. apply store_ok; [done|by apply bytes_okb_ok]. Qed.

Lemma walk_chain_spec_witness :
  exists ixs, linked demo_mem 0x100 8 0 ixs [mkDesc 0x1000 16 1 1; mkDesc 0x2000 1 2 0].
Proof.
  destruct (walk_chain_spec demo_mem 0x100 8 0) as [_ H].
  - done.
  - apply demo_mem_ok.
  - done.
  - done.
  - destruct (proj1 (H _) (eq_refl : walk_chain_inline demo_mem 0x100 8 0 =
      Ok [mkDesc 0x1000 16 1 1; mkDesc 0x2000 1 2 0])) as (ixs & Hl & _). by exists ixs.
Defined.

(** ** The used ring *)

Lemma push_used_step device_addr q_size id written g o g' :
  0 <= len g < 2 ^ 64 -> ram_ok (data g) -> 1 <= q_size ->
  push_used_inline device_addr q_size id written g = (o, g') -> mem_step g g' /\ o <> OutOfFuel.
Proof.
  intros Hl Hg Hq. unfold push_used_inline, checked_ptr. rewrite bind_run.
  destruct (ptr g (u64 (device_addr + 2)) 2) as [idxp|e|] eqn:E1;
    [|intros [= <- <-]; split; [by apply mem_step_refl|done]|by apply ptr_no_fuel in E1].
  unfold load_at at 1. rewrite gets_bind. set (used := ReadU16 _). cbv zeta. rewrite bind_run.
  set (entry := u64 _). destruct (ptr g entry 8) as [p|e|] eqn:E2;
    [|intros [= <- <-]; split; [by apply mem_step_refl|done]|by apply ptr_no_fuel in E2].
  unfold store_at. rewrite modify_bind, bind_run. cbn beta iota.
  assert (H1 : mem_step g (mem_store g p (WriteU32 id)))
    by (apply (mem_step_store g entry 8); auto with bytes; apply u64_range || done).
  set (g1 := mem_store g p (WriteU32 id)) in *.
  assert (Hl1 : 0 <= len g1 < 2 ^ 64) by (by rewrite (step_len _ _ H1)).
  destruct (ptr g1 (u64 (entry + 4)) 4) as [p'|e|] eqn:E3;
    [|intros [= <- <-]; split; [done|done]|by apply ptr_no_fuel in E3].
  rewrite modify_bind.
  assert (H2 : mem_step g1 (mem_store g1 p' (WriteU32 written)))
    by (apply (mem_step_store g1 (u64 (entry + 4)) 4); auto with bytes;
        apply H1 || apply u64_range || done).
  intros [= <- <-]. split; [|done]. eapply mem_step_trans; [exact H1|].
  eapply mem_step_trans; [exact H2|].
  assert (ptr (mem_store g1 p' (WriteU32 written)) (u64 (device_addr + 2)) 2 = Ok idxp)
    by (unfold ptr in *; cbn [len mem_store upd_field]; exact E1).
  apply (mem_step_store _ (u64 (device_addr + 2)) 2); auto with bytes;
    apply H2 || apply u64_range || done.
Qed.

(** The used ring at [device_addr] lies in guest memory. *)
Definition used_ring_in (g : GuestMemory) (device_addr q_size : Z) : Prop :=
  0 <= device_addr /\ device_addr + 4 + 8 * q_size <= len g.
Definition used_idx (g : GuestMemory) (device_addr : Z) : Z := ReadU16 (load (data g) (device_addr + 2) 2).
Definition used_slot (g : GuestMemory) (device_addr i : Z) : Z * Z :=
  (ReadU32 (load (data g) (device_addr + 4 + 8 * i) 4), ReadU32 (load (data g) (device_addr + 8 + 8 * i) 4)).

(** Publishing a used element fills slot [used_idx mod q_size] with the head and
    the byte count, advances the 16-bit index by one, and touches nothing else. *)
Theorem push_used_spec device_addr q_size id written g :
  0 <= len g < 2 ^ 64 -> ram_ok (data g) -> 1 <= q_size <= kMaxQueueSize ->
  used_ring_in g device_addr q_size -> 0 <= id < 2 ^ 32 -> 0 <= written < 2 ^ 32 ->
  let i := used_idx g device_addr mod q_size in
  exists g', push_used_inline device_addr q_size id written g = (Ok tt, g') /\
    used_idx g' device_addr = u16 (used_idx g device_addr + 1) /\
    used_slot g' device_addr i = (id, written) /\
    (forall j, 0 <= j < q_size -> j <> i -> used_slot g' device_addr j = used_slot g device_addr j) /\
    only_writes (fun a => in_range (device_addr + 2) 2 a \/ in_range (device_addr + 4 + 8 * i) 8 a)
      (data g) (data g') /\ len g' = len g.
Proof.
  intros Hl Hg Hq [Hd Hr] Hid Hw i. unfold kMaxQueueSize in Hq.
  unfold push_used_inline, checked_ptr, load_at, store_at.
  rewrite bind_run. rewrite (u64_small (device_addr + 2)) by lia.
  rewrite (proj2 (ptr_ok g (device_addr + 2) 2 (device_addr + 2) Hl ltac:(lia) ltac:(lia))) by lia.
  rewrite gets_bind. change (ReadU16 (load (data g) (device_addr + 2) 2)) with (used_idx g device_addr).
  fold i. pose proof (Z.mod_pos_bound (used_idx g device_addr) q_size ltac:(lia)) as Hi. fold i in Hi.
  cbv zeta. rewrite (u64_small (device_addr + 4 + i * 8)) by lia. rewrite bind_run.
  rewrite (proj2 (ptr_ok g (device_addr + 4 + i * 8) 8 (device_addr + 4 + i * 8) Hl ltac:(lia) ltac:(lia))) by lia.
  rewrite modify_bind, bind_run. rewrite (u64_small (_ + 4)) by lia.
  rewrite (proj2 (ptr_ok (mem_store g (device_addr + 4 + i * 8) (WriteU32 id)) (device_addr + 4 + i * 8 + 4) 4 (device_addr + 4 + i * 8 + 4) Hl ltac:(lia) ltac:(lia)))
    by (cbn [len mem_store upd_field]; lia).
  rewrite modify_bind. unfold modify. eexists. split; [done|].
  assert (Hu : 0 <= used_idx g device_addr < 65536)
    by (apply ReadU16_range; [by apply load_ok|by rewrite length_load]).
  assert (Hi' : i = used_idx g device_addr mod q_size) by done. clearbody i.
  set (u := used_idx g device_addr) in *. clearbody u.
  unfold used_idx, used_slot. cbn [data mem_store upd_field].
  split_and!.
  - rewrite load_store_eq by done. apply ReadU16_WriteU16.
  - f_equal.
    + rewrite load_store_disjoint, load_store_disjoint by (autorewrite with bytes_len; lia).
      replace (8 * i) with (i * 8) by lia. rewrite load_store_eq by done.
      rewrite ReadU32_WriteU32. by apply u32_small.
    + rewrite load_store_disjoint by (autorewrite with bytes_len; lia).
      replace (device_addr + 8 + 8 * i) with (device_addr + 4 + i * 8 + 4) by lia.
      rewrite load_store_eq by done. rewrite ReadU32_WriteU32. by apply u32_small.
  - intros j Hj Hne. by rewrite !load_store_disjoint by (autorewrite with bytes_len; lia).
  - intros a Ha. unfold in_range in Ha. by rewrite !store_out by (unfold in_range; autorewrite with bytes_len; lia).
  - done.
Qed.

Lemma push_used_spec_witness : used_ring_in demo_mem 0x400 8 /\
  exists g', push_used_inline 0x400 8 0 513 demo_mem = (Ok tt, g') /\ used_idx g' 0x400 = 1.
Proof.
  assert (Hr : used_ring_in demo_mem 0x400 8) by done. split; [exact Hr|].
  destruct (push_used_spec 0x400 8 0 513 demo_mem) as (g' & Hg & Hu & _);
    [done|apply demo_mem_ok|done|exact Hr|done|done|]. exists g'. split; [exact Hg|]. exact Hu.
Defined.
