(* ===== verification/Blk.v ===== *)
(** * native/whp/virtio/blk.cc: the virtio-blk device

    The whole device: its registers, queue processing, request handling with its
    two nested exception handlers, and the disk with the copy-on-write overlay.
    The host files are those of [DiskIo],
    the construction is that of the Windows backend over [HostFile].  The disk is specified by [disk_view]:
    reads return it, writes update it, and with an overlay or a read-only disk the
    base image is never modified.  The device writes nothing outside guest RAM
    whatever the driver puts in the rings. *)

From S2P Require Import Prelude Words Bytes GuestMemory HostFile DiskIo VirtQueue.

(** ** State *)

Record VirtioBlk (F H : Type) := mkBlk {
  mmio_base : Z; mem : GuestMemory; has_raise_irq : bool; base : H; overlay : option H;
  dirty_sectors : list Z; disk_bytes : Z; sectors : Z; read_only : bool;
  status : Z; drv_features : Z; dev_features_sel : Z; drv_features_sel : Z;
  queue_sel : Z; interrupt_status : Z; queues : list Queue;
  (** the calls of [raise_irq_] made so far, and the host's file system *)
  irqs : Z; host : F }.
Arguments mkBlk {F H}.
Arguments mmio_base {F H}. Arguments mem {F H}. Arguments has_raise_irq {F H}.
Arguments base {F H}. Arguments overlay {F H}. Arguments dirty_sectors {F H}.
Arguments disk_bytes {F H}. Arguments sectors {F H}. Arguments read_only {F H}.
Arguments status {F H}. Arguments drv_features {F H}. Arguments dev_features_sel {F H}.
Arguments drv_features_sel {F H}. Arguments queue_sel {F H}.
Arguments interrupt_status {F H}. Arguments queues {F H}. Arguments irqs {F H}.
Arguments host {F H}.
#[export] Instance eta_VirtioBlk F H : Eta (VirtioBlk F H) := fun s =>
  mkBlk (mmio_base s) (mem s) (has_raise_irq s) (base s) (overlay s) (dirty_sectors s)
    (disk_bytes s) (sectors s) (read_only s) (status s) (drv_features s) (dev_features_sel s)
    (drv_features_sel s) (queue_sel s) (interrupt_status s) (queues s) (irqs s) (host s).

Definition new_queue : Queue := mkQueue 256 false 0 0 0 0.

Section Blk.
Context {F H : Type} `{DiskIo F H}.
Local Notation blk := (VirtioBlk F H).
Local Notation MB := (M blk).

Definition set_host (f : F) (s : blk) : blk := s <| host := f |>.
Definition set_mem (g : GuestMemory) (s : blk) : blk := s <| mem := g |>.
Definition on_host {A} (m : M F A) : MB A := zoom host set_host m.
Definition on_mem {A} (m : M GuestMemory A) : MB A := zoom mem set_mem m.
Definition guest_ptr (a n : Z) : MB Z := on_mem (checked_ptr a n).
Definition guest_store (p : Z) (bs : list Z) : MB unit := on_mem (store_at p bs).
Definition guest_load (p n : Z) : MB (list Z) := on_mem (load_at p n).

(** ** The disk and its overlay *)

Definition has_overlay (s : blk) : bool := match overlay s with Some _ => true | None => false end.
Definition write_handle (s : blk) : H := match overlay s with Some h => h | None => base s end.

Definition sector_dirty (s : blk) (sector : Z) : bool :=
  if negb (has_overlay s) || (sectors s <=? sector) then false
  else has (byte_at (dirty_sectors s) (sector / 8)) (u8 (Z.shiftl 1 (sector mod 8))).

Definition mark_dirty (sector : Z) (s : blk) : blk :=
  if negb (has_overlay s) || (sectors s <=? sector) then s
  else
    let i := sector / 8 in
    let b := u8 (Z.lor (byte_at (dirty_sectors s) i) (u8 (Z.shiftl 1 (sector mod 8)))) in
    s <| dirty_sectors := <[ Z.to_nat i := b ]> (dirty_sectors s) |>.

(** [for (sector = first; sector <= last; sector++)] *)
Definition sector_range (first last : Z) : list Z := seqZ first (last - first + 1).

Definition mark_dirty_range (byte_off n : Z) : MB unit := fun s =>
  when (has_overlay s && negb (n =? 0))
    (for_each (fun sector => modify (mark_dirty sector))
       (sector_range (byte_off / 512) (u64 (u64 (byte_off + n) - 1) / 512))) s.

(** [PreadAll(file, dst, len, off)] into guest memory at [dst]. *)
Definition pread_guest (file : H) (dst n off : Z) : MB unit := fun s =>
  let '(o, bs, f) := PreadAll file n off (host s) in
  (o, set_mem (mem_store (mem s) dst bs) (set_host f s)).

Definition copy_sector (ov : H) (sector_start : Z) : MB unit := fun s =>
  let '(o, sector_buf, f) := PreadAll (base s) 512 sector_start (host s) in
  (lift o ≫= fun _ => on_host (PwriteAll ov sector_buf sector_start)) (set_host f s).

Definition prepare_partial_overlay_sectors (byte_off n : Z) : MB unit := fun s =>
  match overlay s with
  | None => (Ok tt, s)
  | Some ov =>
      when (negb (n =? 0))
        (lift (CheckRange (disk_bytes s) byte_off n "virtio-blk overlay prepare") ≫= fun _ =>
         lift (CheckedAdd byte_off n "virtio-blk overlay range") ≫= fun fin =>
         for_each (fun sector =>
             let sector_start := u64 (sector * 512) in
             gets (fun s => sector_dirty s sector) ≫= fun dirty =>
             if ((byte_off <=? sector_start) && (u64 (sector_start + 512) <=? fin)) || dirty
             then mret tt
             else copy_sector ov sector_start)
           (sector_range (byte_off / 512) ((fin - 1) / 512))) s
  end.

(** The loop of [ReadDisk] over the chunks that stay within one sector. *)
Fixpoint read_chunks (fuel : nat) (byte_off dst n done : Z) : MB unit :=
  if done <? n then
    match fuel with
    | O => fail_fuel
    | S fuel =>
        let current_byte := u64 (byte_off + done) in
        let chunk := Z.min (n - done) (512 - current_byte mod 512) in
        gets (fun s => if sector_dirty s (current_byte / 512) then write_handle s else base s)
          ≫= fun file =>
        pread_guest file (dst + done) chunk current_byte ≫= fun _ =>
        read_chunks fuel byte_off dst n (done + chunk)
    end
  else mret tt.

Definition ReadDisk (sector dst n : Z) : MB unit :=
  lift (CheckedMul sector 512 "virtio-blk read offset") ≫= fun byte_off =>
  gets disk_bytes ≫= fun total =>
  lift (CheckRange total byte_off n "virtio-blk read") ≫= fun _ =>
  gets has_overlay ≫= fun ov =>
  if negb ov then gets base ≫= fun file => pread_guest file dst n byte_off
  else read_chunks (Z.to_nat n) byte_off dst n 0.

Definition WriteDisk (sector src n : Z) : MB unit :=
  gets read_only ≫= fun ro =>
  lift (Check (negb ro) "virtio-blk write to read-only disk") ≫= fun _ =>
  lift (CheckedMul sector 512 "virtio-blk write offset") ≫= fun byte_off =>
  gets disk_bytes ≫= fun total =>
  lift (CheckRange total byte_off n "virtio-blk write") ≫= fun _ =>
  prepare_partial_overlay_sectors byte_off n ≫= fun _ =>
  guest_load src n ≫= fun bytes =>
  gets write_handle ≫= fun file =>
  on_host (PwriteAll file bytes byte_off) ≫= fun _ =>
  mark_dirty_range byte_off n.

(** ** Requests

    [written] is a local of [process_request] that its handler reads, so the body
    runs on the device paired with it. *)
Definition on_dev {A} (m : MB A) : M (blk * Z) A := on_fst m.
Definition add_written (n : Z) : M (blk * Z) unit := modify (fun '(s, w) => (s, u32 (w + n))).

Fixpoint read_descs (ds : list Desc) (sector : Z) : M (blk * Z) unit :=
  match ds with
  | [] => mret tt
  | d :: ds =>
      lift (Check (has (flags d) kRingDescFWrite)
              "virtio-blk read data descriptor must be writable") ≫= fun _ =>
      lift (Check (dlen d mod 512 =? 0) "virtio-blk read length must be sector-aligned") ≫= fun _ =>
      on_dev (guest_ptr (addr d) (dlen d) ≫= fun p => ReadDisk sector p (dlen d)) ≫= fun _ =>
      add_written (dlen d) ≫= fun _ =>
      read_descs ds (u64 (sector + dlen d / 512))
  end.

Fixpoint write_descs (ds : list Desc) (sector : Z) : M (blk * Z) unit :=
  match ds with
  | [] => mret tt
  | d :: ds =>
      lift (Check (negb (has (flags d) kRingDescFWrite))
              "virtio-blk write data descriptor must be read-only") ≫= fun _ =>
      lift (Check (dlen d mod 512 =? 0) "virtio-blk write length must be sector-aligned") ≫= fun _ =>
      on_dev (guest_ptr (addr d) (dlen d) ≫= fun p => WriteDisk sector p (dlen d)) ≫= fun _ =>
      write_descs ds (u64 (sector + dlen d / 512))
  end.

(** ["node-vmm"] with its terminating NUL. *)
Definition device_id : list Z := [110; 111; 100; 101; 45; 118; 109; 109; 0].

(** The loop over the data descriptors breaks after the first. *)
Definition get_id (ds : list Desc) : M (blk * Z) unit :=
  match ds with
  | [] => mret tt
  | d :: _ =>
      let n := Z.min (dlen d) 9 in
      on_dev (guest_ptr (addr d) n ≫= fun p => guest_store p (take (Z.to_nat n) device_id)) ≫= fun _ =>
      add_written n
  end.

Definition flush : MB unit :=
  gets read_only ≫= fun ro =>
  when (negb ro)
    (gets write_handle ≫= fun file =>
     on_host (FlushFile file)).

Definition no_desc : Desc := mkDesc 0 0 0 0.

(** The part of the [try] block after the header checks: the status to report. *)
Definition dispatch (type sector : Z) (data_descs : list Desc) : M (blk * Z) Z :=
  if type =? 0 then read_descs data_descs sector ≫= fun _ => mret 0
  else if type =? 1 then write_descs data_descs sector ≫= fun _ => mret 0
  else if type =? 4 then on_dev flush ≫= fun _ => mret 0
  else if type =? 8 then get_id data_descs ≫= fun _ => mret 0
  else mret 2.

Definition walk (q : Queue) (head : Z) : MB (list Desc) := fun s =>
  (walk_chain_inline (mem s) (desc_addr q) (qsize q) head, s).

Definition push_used (q : Queue) (id written : Z) : MB unit :=
  on_mem (push_used_inline (device_addr q) (qsize q) id written).

Definition complete (q : Queue) (head : Z) : M (blk * Z) unit :=
  gets snd ≫= fun written => on_dev (push_used q head (u32 (written + 1))).

Definition process_body (q : Queue) (head : Z) : M (blk * Z) unit :=
  on_dev (walk q head) ≫= fun chain =>
  lift (Check (2 <=? Z.of_nat (length chain)) "virtio-blk descriptor chain too short") ≫= fun _ =>
  let header := nth 0 chain no_desc in
  let status_desc := nth (length chain - 1) chain no_desc in
  lift (Check (16 <=? dlen header) "virtio-blk header too short") ≫= fun _ =>
  lift (Check (has (flags status_desc) kRingDescFWrite && (1 <=? dlen status_desc))
          "virtio-blk status descriptor invalid") ≫= fun _ =>
  on_dev (guest_ptr (addr header) 16 ≫= fun p => guest_load p 16) ≫= fun hdr =>
  dispatch (ReadU32 hdr) (ReadU64 (drop 8 hdr)) (take (length chain - 2) (drop 1 chain)) ≫= fun st =>
  on_dev (guest_ptr (addr status_desc) 1 ≫= fun p => guest_store p [st]) ≫= fun _ =>
  complete q head.

(** The outer [catch]: report status 1, ignoring a second failure, and complete the
    request with the bytes written so far. *)
Definition recover (q : Queue) (head written : Z) : MB unit :=
  try_catch
    (walk q head ≫= fun chain =>
     when (negb (Z.of_nat (length chain) =? 0))
       (guest_ptr (addr (nth (length chain - 1) chain no_desc)) 1 ≫= fun p => guest_store p [1]))
    (mret tt) ≫= fun _ =>
  push_used q head written.

Definition process_request (q : Queue) (head : Z) : MB unit := fun s =>
  match process_body q head (s, 0) with
  | (Throw _, (s', written)) => recover q head written s'
  | (o, (s', _)) => (o, s')
  end.

Definition queue (s : blk) (i : Z) : Queue := nth (Z.to_nat i) (queues s) new_queue.
Definition set_queue (i : Z) (f : Queue -> Queue) (s : blk) : blk :=
  s <| queues := alter f (Z.to_nat i) (queues s) |>.

(** [while (q.last_avail != avail_idx)]: [last_avail] is a [uint16_t], so the loop runs
    [(avail_idx - last_avail) mod 2^16] times. *)
Fixpoint queue_loop (fuel : nat) (i avail_idx : Z) : MB unit :=
  gets (fun s => queue s i) ≫= fun q =>
  if last_avail q =? avail_idx then mret tt
  else
    match fuel with
    | O => fail_fuel
    | S fuel =>
        guest_ptr (u64 (driver_addr q + 4 + last_avail q mod qsize q * 2)) 2 ≫= fun p =>
        guest_load p 2 ≫= fun b =>
        let q' := q <| last_avail := u16 (last_avail q + 1) |> in
        modify (set_queue i (fun _ => q')) ≫= fun _ =>
        process_request q' (ReadU16 b) ≫= fun _ =>
        queue_loop fuel i avail_idx
    end.

Definition handle_queue (i : Z) : MB unit :=
  gets (fun s => queue s i) ≫= fun q =>
  guest_ptr (u64 (driver_addr q + 2)) 2 ≫= fun p =>
  guest_load p 2 ≫= fun b =>
  queue_loop (Z.to_nat (u16 (ReadU16 b - last_avail q))) i (ReadU16 b).

(** ** Registers *)

Definition device_features (s : blk) : Z :=
  let features := Z.lor kFVersion1 (2 ^ 9) in
  if read_only s then Z.lor features (2 ^ 5) else features.

Definition read_reg (s : blk) (off : Z) : Z :=
  if off =? kMmioMagicValue then kMagic
  else if off =? kMmioVersion then kVersion
  else if off =? kMmioDeviceId then 2
  else if off =? kMmioVendorId then kVendor
  else if off =? kMmioDeviceFeatures then
    (if dev_features_sel s =? 1 then u32 (Z.shiftr (device_features s) 32)
     else u32 (device_features s))
  else if off =? kMmioQueueNumMax then kMaxQueueSize
  else if off =? kMmioQueueReady then (if ready (queue s (queue_sel s)) then 1 else 0)
  else if off =? kMmioInterruptStatus then interrupt_status s
  else if off =? kMmioStatus then status s
  else 0.

Definition reset (s : blk) : blk :=
  let s := s <| status := 0 |> in
  let s := s <| drv_features := 0 |> in
  let s := s <| dev_features_sel := 0 |> in
  let s := s <| drv_features_sel := 0 |> in
  let s := s <| queue_sel := 0 |> in
  let s := s <| interrupt_status := 0 |> in
  s <| queues := map (fun _ => new_queue) (queues s) |>.

(** [if (raise_irq_) raise_irq_();] *)
Definition raise_irq (s : blk) : blk :=
  if has_raise_irq s then s <| irqs := irqs s + 1 |> else s.

Definition notify (value : Z) : MB unit :=
  gets (fun s => queue s value) ≫= fun q =>
  when ((value <? 8) && ready q)
    (handle_queue value ≫= fun _ =>
     modify (fun s => s <| interrupt_status := Z.lor (interrupt_status s) kInterruptVring |>) ≫= fun _ =>
     modify raise_irq).

Definition write_reg (off value : Z) : MB unit :=
  gets queue_sel ≫= fun sel =>
  let with_q (f : Queue -> Queue) := modify (set_queue sel f) in
  if off =? kMmioDeviceFeaturesSel then modify (fun s => s <| dev_features_sel := value |>)
  else if off =? kMmioDriverFeaturesSel then modify (fun s => s <| drv_features_sel := value |>)
  else if off =? kMmioDriverFeatures then
    modify (fun s => s <| drv_features :=
      if drv_features_sel s =? 0 then set_lo32 (drv_features s) value
      else set_hi32 (drv_features s) value |>)
  else if off =? kMmioQueueSel then
    when (value <? 8) (modify (fun s => s <| queue_sel := value |>))
  else if off =? kMmioQueueNum then
    when ((1 <=? value) && (value <=? kMaxQueueSize)) (with_q (fun q => q <| qsize := value |>))
  else if off =? kMmioQueueReady then with_q (fun q => q <| ready := negb (value =? 0) |>)
  else if off =? kMmioQueueNotify then notify value
  else if off =? kMmioInterruptAck then
    modify (fun s => s <| interrupt_status := Z.land (interrupt_status s) (bnot 32 value) |>)
  else if off =? kMmioStatus then
    (if value =? 0 then modify reset else modify (fun s => s <| status := value |>))
  else if off =? kMmioQueueDescLow then with_q (fun q => q <| desc_addr := set_lo32 (desc_addr q) value |>)
  else if off =? kMmioQueueDescHigh then with_q (fun q => q <| desc_addr := set_hi32 (desc_addr q) value |>)
  else if off =? kMmioQueueDriverLow then with_q (fun q => q <| driver_addr := set_lo32 (driver_addr q) value |>)
  else if off =? kMmioQueueDriverHigh then with_q (fun q => q <| driver_addr := set_hi32 (driver_addr q) value |>)
  else if off =? kMmioQueueDeviceLow then with_q (fun q => q <| device_addr := set_lo32 (device_addr q) value |>)
  else if off =? kMmioQueueDeviceHigh then with_q (fun q => q <| device_addr := set_hi32 (device_addr q) value |>)
  else mret tt.

(** The bytes [read_mmio] leaves in [data[0 .. len)]. *)
Definition read_mmio (s : blk) (a n : Z) : list Z :=
  let zeros := repeat 0 (Z.to_nat n) in
  let off := u32 (a - mmio_base s) in
  if off <? 0x100 then
    if negb (n =? 4) then zeros else WriteU32 (read_reg s off)
  else
    let cfg := WriteU64 (sectors s) ++ WriteU32 0 ++ WriteU32 128 in
    let cfg_off := off - 0x100 in
    if cfg_off <? 16 then put zeros 0 (take (Z.to_nat (Z.min n (16 - cfg_off))) (drop (Z.to_nat cfg_off) cfg))
    else zeros.

Definition write_mmio (a : Z) (bytes : list Z) : MB unit :=
  gets mmio_base ≫= fun mb =>
  let off := u32 (a - mb) in
  if (0x100 <=? off) || negb (Z.of_nat (length bytes) =? 4) then mret tt
  else write_reg off (ReadU32 bytes).

End Blk.

(** ** Construction *)

Section Open.
Context {F H : Type} `{HostFile F H}.
Local Notation blk := (VirtioBlk F H).

Definition open_file (path : string) (access : access_mode) (mode : open_mode) : M F (option H) := fun f =>
  let '(h, f') := CreateFile path access mode f in (Ok h, f').

Definition VirtioBlk_new (mb : Z) (g : GuestMemory) (path overlay_path : string)
    (ro raise : bool) : M F blk :=
  let use_overlay := negb (String.eqb overlay_path "") in
  lift (Check (negb (ro && use_overlay)) "read-only disk cannot use an overlay") ≫= fun _ =>
  let access := if use_overlay || ro then GenericRead else GenericReadWrite in
  open_file path access OpenExisting ≫= fun b =>
  match b with
  | None => lift (Throw ("open rootfs " ++ path ++ " failed"))
  | Some b =>
      gets (GetFileSizeEx b) ≫= fun sz =>
      match sz with
      | None => lift (Throw ("stat rootfs " ++ path ++ " failed"))
      | Some sz =>
          lift (Check (0 <=? sz) ("negative rootfs size: " ++ path)) ≫= fun _ =>
          let mk ov dirty f := mkBlk mb g raise b ov dirty sz (sz / 512) ro 0 0 0 0 0 0
                                 (repeat new_queue 8) 0 f in
          if use_overlay then
            lift (Check (negb (String.eqb overlay_path path))
                    "overlayPath must not equal rootfsPath") ≫= fun _ =>
            open_file overlay_path GenericReadWrite CreateAlways ≫= fun ov =>
            match ov with
            | None => lift (Throw ("open overlay " ++ overlay_path ++ " failed"))
            | Some ov =>
                MarkFileSparse ov ≫= fun _ =>
                TruncateFileTo ov sz ≫= fun _ =>
                gets (mk (Some ov) (repeat 0 (Z.to_nat ((sz / 512 + 7) / 8))))
            end
          else gets (mk None [])
      end
  end.
End Open.

(** ** Invariant and safety *)

Section Safety.
Context {F H : Type} `{DiskIoLaws F H}.
Local Notation blk := (VirtioBlk F H).
Local Notation MB := (M blk).

Record blk_ok (s : blk) : Prop := {
  ok_mem : 0 <= len (mem s) < 2 ^ 64;
  ok_ram : ram_ok (data (mem s));
  ok_sel : 0 <= queue_sel s < 8;
  ok_nqueues : length (queues s) = 8%nat;
  ok_queues : Forall (queue_ok kMaxQueueSize) (queues s);
  ok_disk : 0 <= disk_bytes s < 2 ^ 63;
  ok_sectors : sectors s = disk_bytes s / 512;
  ok_dirty : has_overlay s = true -> Z.of_nat (length (dirty_sectors s)) = (sectors s + 7) / 8;
  ok_dirty_bytes : bytes_ok (dirty_sectors s);
  ok_distinct : forall ov, overlay s = Some ov -> apart ov (base s);
  ok_status : 0 <= status s < 2 ^ 32;
  ok_features : 0 <= drv_features s < 2 ^ 64;
  ok_dev_sel : 0 <= dev_features_sel s < 2 ^ 32;
  ok_interrupt : 0 <= interrupt_status s < 2 ^ 32 }.

(** What a request leaves as it was. *)
Record blk_step (s0 s : blk) : Prop := {
  st_mem : mem_step (mem s0) (mem s);
  st_base : base s = base s0;
  st_overlay : overlay s = overlay s0;
  st_disk : disk_bytes s = disk_bytes s0;
  st_sectors : sectors s = sectors s0;
  st_ro : read_only s = read_only s0;
  st_mmio : mmio_base s = mmio_base s0;
  st_raise : has_raise_irq s = has_raise_irq s0;
  st_queues : queues s = queues s0;
  st_files h : apart h (write_handle s0) \/ read_only s0 = true ->
    contents h (host s) = contents h (host s0) }.

Lemma blk_step_refl s : ram_ok (data (mem s)) -> blk_step s s.
Proof. intros. by split; [apply mem_step_refl|..]. Qed.

Section From.
Context (s0 : blk).
Definition inv (s : blk) : Prop := blk_ok s /\ blk_step s0 s.

Lemma inv_len s : inv s -> len (mem s) = len (mem s0).
Proof. intros [_ Hs]. apply (st_mem _ _ Hs). Qed.

Lemma inv_overlay s : inv s -> has_overlay s = has_overlay s0 /\ write_handle s = write_handle s0.
Proof.
  intros [_ Hs]. unfold has_overlay, write_handle. by rewrite (st_overlay _ _ Hs), (st_base _ _ Hs).
Qed.

Lemma inv_set_mem s g : inv s -> mem_step (mem s) g -> inv (set_mem g s).
Proof.
  intros [Hok Hst] Hg. split.
  - destruct Hok; split; try done; cbn [mem set_mem upd_field].
    + by rewrite (step_len _ _ Hg).
    + apply Hg.
  - destruct Hst; split; try done. by eapply mem_step_trans.
Qed.

Lemma inv_set_host s f :
  inv s -> (forall h, apart h (write_handle s0) \/ read_only s0 = true -> contents h f = contents h (host s)) ->
  inv (set_host f s).
Proof.
  intros [Hok Hst] Hf. split; [by destruct Hok|].
  destruct Hst; split; try done. intros h Hh. cbn [host set_host upd_field]. by rewrite Hf, st_files0.
Qed.

Lemma safe_guest_ptr a n :
  0 <= a -> 0 <= n -> safe inv (fun p => 0 <= p /\ p + n <= len (mem s0)) (guest_ptr a n).
Proof.
  intros Ha Hn. apply safe_zoom. intros s o g Hs. unfold checked_ptr. intros [= <- <-].
  split; [apply ptr_no_fuel|]. split.
  - apply inv_set_mem; [done|]. apply mem_step_refl, Hs.
  - intros p Hp. apply ptr_ok in Hp as [-> Hp]; [|apply Hs|done|done].
    rewrite (inv_len s Hs) in Hp. done.
Qed.

Lemma inv_store s p bs n :
  inv s -> bytes_ok bs -> 0 <= p -> Z.of_nat (length bs) <= n -> p + n <= len (mem s0) ->
  inv (set_mem (mem_store (mem s) p bs) s).
Proof.
  intros Hs Hb Hp Hn Hl. apply inv_set_mem; [done|].
  apply (mem_step_store (mem s) p n); try apply Hs; try done.
  apply ptr_ok; [apply Hs|done|lia|]. rewrite (inv_len s Hs). lia.
Qed.

Lemma safe_guest_store p bs :
  bytes_ok bs -> 0 <= p -> p + Z.of_nat (length bs) <= len (mem s0) ->
  safe inv (fun _ => True) (guest_store p bs).
Proof.
  intros Hb Hp Hl. apply safe_zoom. intros s o g Hs [= <- <-]. split_and!; [done| |done].
  by apply (inv_store s p bs (Z.of_nat (length bs))).
Qed.

Lemma safe_guest_load p n :
  safe inv (fun bs => bytes_ok bs /\ length bs = Z.to_nat n) (guest_load p n).
Proof.
  apply safe_zoom. intros s o g Hs [= <- <-]. split_and!; [done| |].
  - apply inv_set_mem; [done|]. apply mem_step_refl, Hs.
  - intros bs [= <-]. split; [apply load_ok, Hs|apply length_load].
Qed.

Lemma safe_pread_guest file dst n off :
  0 <= n -> 0 <= off -> 0 <= dst -> dst + n <= len (mem s0) ->
  safe inv (fun _ => True) (pread_guest file dst n off).
Proof.
  intros Hn Hoff Hd Hl s Hs. unfold pread_guest.
  destruct (PreadAll file n off (host s)) as [[o bs] f] eqn:E.
  apply PreadAll_spec in E as (Hc & (k & Hk & -> & _) & Hnf); [|done..].
  assert (Hi : inv (set_mem (mem_store (mem s) dst (load (contents file (host s)) off k)) (set_host f s))).
  { apply (inv_store (set_host f s) dst _ n); [|apply load_ok, contents_byte|done|
      rewrite length_load; lia|done].
    apply inv_set_host; [done|]. intros h _. apply Hc. }
  by destruct o.
Qed.

(** A write to the overlay, or to the base image of a writable disk without overlay. *)
Lemma safe_pwrite file bytes off :
  bytes_ok bytes -> 0 <= off -> file = write_handle s0 -> read_only s0 = false ->
  safe inv (fun _ => True) (on_host (PwriteAll file bytes off)).
Proof.
  intros Hb Hoff -> Hro. apply safe_zoom. intros s o f Hs E.
  apply PwriteAll_spec in E as (Hc & _ & _ & Hnf); [|done..].
  split_and!; [done| |done]. apply inv_set_host; [done|]. rewrite Hro. intros h [Hh|]; [|done]. by apply Hc.
Qed.

Lemma mark_dirty_inv sector s : inv s -> 0 <= sector -> inv (mark_dirty sector s).
Proof.
  intros [Hok Hst] Hsec. unfold mark_dirty. destruct (_ || _); [done|].
  split; [|by destruct Hst]. destruct Hok; split; try done; cbn [dirty_sectors upd_field].
  - intros Ho. rewrite length_insert. by apply ok_dirty0.
  - apply Forall_insert; [done|apply u8_range].
Qed.

Lemma sector_range_nonneg first last sector :
  0 <= first -> sector ∈ sector_range first last -> 0 <= sector.
Proof. intros Hf Hs%elem_of_seqZ. lia. Qed.

Lemma safe_mark_dirty_range byte_off n :
  0 <= byte_off -> safe inv (fun _ => True) (mark_dirty_range byte_off n).
Proof.
  intros Hb s Hs. unfold mark_dirty_range.
  apply (safe_when inv _ (for_each _ _)); [|done].
  intros _. apply safe_for_each. intros sector Hsec.
  apply safe_modify. intros s' Hs'. apply mark_dirty_inv; [done|].
  eapply sector_range_nonneg; [|exact Hsec]. apply Z.div_pos; lia.
Qed.

Lemma safe_copy_sector ov sector_start :
  overlay s0 = Some ov -> read_only s0 = false -> 0 <= sector_start ->
  safe inv (fun _ => True) (copy_sector ov sector_start).
Proof.
  intros Hov Hro Hst s Hs. unfold copy_sector.
  destruct (PreadAll (base s) 512 sector_start (host s)) as [[o bs] f] eqn:E.
  apply PreadAll_spec in E as (Hc & (k & Hk & -> & _) & Hnf); [|done..].
  assert (Hi : inv (set_host f s)) by (apply inv_set_host; [done|]; intros h _; apply Hc).
  revert Hi. generalize (set_host f s). apply safe_bind with (fun _ => True).
  - by apply safe_lift.
  - intros _ _. apply safe_pwrite; [apply load_ok, contents_byte|done| |done].
    unfold write_handle. by rewrite Hov.
Qed.

Lemma safe_prepare byte_off n :
  0 <= byte_off -> read_only s0 = false ->
  safe inv (fun _ => True) (prepare_partial_overlay_sectors byte_off n).
Proof.
  intros Hb Hro s Hs. unfold prepare_partial_overlay_sectors.
  destruct (overlay s) as [ov|] eqn:Eo; [|done].
  assert (Hov : overlay s0 = Some ov) by (by rewrite <- (st_overlay _ _ (proj2 Hs))).
  apply (safe_when inv (negb (n =? 0))); [|done]. intros _.
  safe_step; [apply CheckRange_no_fuel|any_result|].
  safe_step; [apply CheckedAdd_no_fuel|any_result|].
  apply safe_for_each. intros sector _.
  safe_step; [any_result|].
  safe_step; [by apply safe_ret|]. apply safe_copy_sector; [done..|apply u64_range].
Qed.

Lemma safe_read_chunks byte_off dst n : forall fuel done,
  0 <= done -> (Z.to_nat (n - done) <= fuel)%nat -> 0 <= dst -> dst + n <= len (mem s0) ->
  safe inv (fun _ => True) (read_chunks fuel byte_off dst n done).
Proof.
  induction fuel as [|fuel IH]; intros done Hd Hf Hdst Hl; cbn [read_chunks];
    destruct (Z.ltb_spec done n); try (by apply safe_ret); try lia.
  assert (0 <= u64 (byte_off + done) mod 512 < 512) by (apply Z.mod_pos_bound; lia).
  safe_step; [any_result|].
  safe_step; [apply safe_pread_guest; try apply u64_range; lia|]. apply IH; lia.
Qed.

Lemma CheckedMul_range a b what s : CheckedMul a b what = Ok s -> 0 <= s.
Proof.
  unfold CheckedMul. destruct (_ || _); [by intros [= <-]|].
  destruct (Check _ _); cbn; try done. intros [= <-]. apply u64_range.
Qed.

Lemma safe_ReadDisk sector dst n :
  0 <= n -> 0 <= dst -> dst + n <= len (mem s0) -> safe inv (fun _ => True) (ReadDisk sector dst n).
Proof.
  intros Hn Hd Hl. unfold ReadDisk.
  safe_step; [apply CheckedMul_no_fuel|apply CheckedMul_range|].
  safe_step; [any_result|].
  safe_step; [apply CheckRange_no_fuel|any_result|].
  safe_step; [any_result|].
  safe_step; [|apply safe_read_chunks; lia].
  safe_step; [any_result|]. by apply safe_pread_guest.
Qed.

Lemma safe_WriteDisk sector src n :
  0 <= n -> safe inv (fun _ => True) (WriteDisk sector src n).
Proof.
  intros Hn. unfold WriteDisk.
  safe_with (fun ro => ro = read_only s0); [intros s Hs; exact (st_ro _ _ (proj2 Hs))|]. subst.
  safe_with (fun _ : unit => read_only s0 = false);
    [apply Check_no_fuel|by destruct (read_only s0)|].
  safe_step; [apply CheckedMul_no_fuel|apply CheckedMul_range|].
  safe_step; [any_result|].
  safe_step; [apply CheckRange_no_fuel|any_result|].
  safe_step; [by apply safe_prepare|]. safe_step; [apply safe_guest_load|].
  safe_with (fun h => h = write_handle s0); [intros s Hs; exact (proj2 (inv_overlay s Hs))|].
  safe_step; [by apply safe_pwrite; [apply H7|..]|]. by apply safe_mark_dirty_range.
Qed.

(** *** Requests *)

Definition inv_w (sw : blk * Z) : Prop := inv sw.1.

Lemma safe_on_dev {A} (Q : A -> Prop) (m : MB A) : safe inv Q m -> safe inv_w Q (on_dev m).
Proof.
  intros Hm [s w] Hs. unfold on_dev, on_fst. specialize (Hm s Hs).
  by destruct (m s) as [[a|e|] s'].
Qed.

Lemma safe_add_written n : safe inv_w (fun _ => True) (add_written n).
Proof. apply safe_modify. by intros [s w]. Qed.

Lemma safe_read_descs ds : forall sector, Forall desc_ok ds ->
  safe inv_w (fun _ => True) (read_descs ds sector).
Proof.
  induction ds as [|d ds IH]; intros sector Hds; cbn [read_descs]; [by apply safe_ret|].
  inversion Hds as [|? ? Hd Hds']; subst.
  safe_step; [apply Check_no_fuel|any_result|].
  safe_step; [apply Check_no_fuel|any_result|].
  safe_step; [|safe_step; [apply safe_add_written|by apply IH]].
  apply safe_on_dev. safe_step; [apply safe_guest_ptr; apply Hd|].
  cbn beta in *. apply safe_ReadDisk; [apply Hd|lia..].
Qed.

Lemma safe_write_descs ds : forall sector, Forall desc_ok ds ->
  safe inv_w (fun _ => True) (write_descs ds sector).
Proof.
  induction ds as [|d ds IH]; intros sector Hds; cbn [write_descs]; [by apply safe_ret|].
  inversion Hds as [|? ? Hd Hds']; subst.
  safe_step; [apply Check_no_fuel|any_result|].
  safe_step; [apply Check_no_fuel|any_result|].
  safe_step; [|by apply IH].
  apply safe_on_dev. safe_step; [apply safe_guest_ptr; apply Hd|]. apply safe_WriteDisk, Hd.
Qed.

Lemma safe_get_id ds : Forall desc_ok ds -> safe inv_w (fun _ => True) (get_id ds).
Proof.
  intros Hds. destruct Hds as [|d ds Hd _]; cbn [get_id]; [by apply safe_ret|].
  pose proof (ok_len d Hd).
  safe_step; [|apply safe_add_written]. apply safe_on_dev.
  safe_step; [apply safe_guest_ptr; [apply Hd|lia]|]. cbn beta in *.
  apply safe_guest_store; [apply Forall_take; by apply bytes_okb_ok|lia|].
  rewrite length_take. cbn [length device_id]. lia.
Qed.

Lemma safe_flush : safe inv (fun _ => True) flush.
Proof.
  unfold flush. safe_step; [any_result|].
  apply safe_when. intros _. safe_step; [any_result|].
  apply safe_zoom. intros s o f Hs [Hnf Hc]%FlushFile_spec.
  split_and!; [done| |done]. apply inv_set_host; [done|]. intros h _. apply Hc.
Qed.

Lemma safe_dispatch type sector ds :
  Forall desc_ok ds -> safe inv_w is_byte (dispatch type sector ds).
Proof.
  intros Hds. unfold dispatch.
  repeat (safe_step; [safe_step; [|by apply safe_ret]|]); [..|by apply safe_ret].
  - by apply safe_read_descs.
  - by apply safe_write_descs.
  - apply safe_on_dev, safe_flush.
  - by apply safe_get_id.
Qed.

Lemma linked_descs_ok g da qs i ixs ds :
  ram_ok (data g) -> linked g da qs i ixs ds -> Forall desc_ok ds.
Proof.
  intros Hg Hl. induction Hl as [i d (_ & _ & -> & _)|i d ixs ds (_ & _ & -> & _) _ _ IH];
    constructor; try done; by apply read_desc_ok.
Qed.

Lemma safe_walk q head :
  queue_ok kMaxQueueSize q -> 0 <= head ->
  safe inv (fun ds => Forall desc_ok ds) (walk q head).
Proof.
  intros Hq Hh s Hs. unfold walk.
  destruct (walk_loop_spec (mem s) (desc_addr q) (qsize q) (ok_mem s (proj1 Hs))
              (ok_ram s (proj1 Hs)) (qok_size _ _ Hq) (S (Z.to_nat kMaxQueueSize)) ∅ [] head)
    as [Hnf Hok]; [done|done|done|pose proof (qok_size _ _ Hq); unfold kMaxQueueSize in *; lia|].
  unfold walk_chain_inline.
  destruct (walk_loop _ _ _ _ _ _ _) as [ds|e|] eqn:E; [|done|done].
  split; [done|]. destruct (proj1 (Hok ds) eq_refl) as (ixs & ds' & -> & Hl & _).
  eapply linked_descs_ok; [apply Hs|exact Hl].
Qed.

Lemma safe_push_used q id written :
  queue_ok kMaxQueueSize q -> safe inv (fun _ => True) (push_used q id written).
Proof.
  intros Hq. apply safe_zoom. intros s o g Hs E.
  apply push_used_step in E as [Hg Ho]; [|apply Hs..|apply Hq].
  split_and!; [done|by apply inv_set_mem|done].
Qed.

Lemma Forall_nth_desc ds i : Forall desc_ok ds -> desc_ok (nth i ds no_desc).
Proof.
  intros Hds. assert (Hn : desc_ok no_desc) by by split.
  revert i. induction Hds as [|d ds Hd Hds IH]; intros [|i]; cbn [nth]; auto.
Qed.

Lemma safe_process_body q head :
  queue_ok kMaxQueueSize q -> 0 <= head -> safe inv_w (fun _ => True) (process_body q head).
Proof.
  intros Hq Hh. unfold process_body.
  safe_step; [apply safe_on_dev; by apply safe_walk|].
  safe_step; [apply Check_no_fuel|any_result|].
  cbv zeta. pose proof (Forall_nth_desc a 0 H2) as Hh0.
  pose proof (Forall_nth_desc a (length a - 1) H2) as Hst.
  safe_step; [apply Check_no_fuel|any_result|].
  safe_step; [apply Check_no_fuel|any_result|].
  safe_step; [apply safe_on_dev; safe_step; [apply safe_guest_ptr; [apply Hh0|lia]|apply safe_guest_load]|].
  safe_step; [apply safe_dispatch; apply Forall_take; by apply Forall_drop|].
  safe_step.
  - apply safe_on_dev. safe_step; [apply safe_guest_ptr; [apply Hst|lia]|]. cbn beta in *.
    apply safe_guest_store; [by apply Forall_singleton|lia|cbn; lia].
  - unfold complete. safe_step; [any_result|].
    apply safe_on_dev. by apply safe_push_used.
Qed.

Lemma safe_recover q head written :
  queue_ok kMaxQueueSize q -> 0 <= head -> safe inv (fun _ => True) (recover q head written).
Proof.
  intros Hq Hh. unfold recover. safe_with (fun _ : unit => True); [|by apply safe_push_used].
  apply safe_try; [|by apply safe_ret]. safe_step; [by apply safe_walk|].
  apply safe_when. intros _. pose proof (Forall_nth_desc a (length a - 1) H2) as Hst.
  safe_step; [apply safe_guest_ptr; [apply Hst|lia]|]. cbn beta in *.
  apply safe_guest_store; [by apply bytes_okb_ok|lia|cbn; lia].
Qed.

Lemma safe_process_request q head :
  queue_ok kMaxQueueSize q -> 0 <= head -> safe inv (fun _ => True) (process_request q head).
Proof.
  intros Hq Hh s Hs. unfold process_request.
  pose proof (safe_process_body q head Hq Hh (s, 0) Hs) as Hb.
  destruct (process_body q head (s, 0)) as [[a|e|] [s' written]]; [done| |done].
  by apply (safe_recover q head written).
Qed.

End From.

(** What stays the same whatever the driver does: the size of guest memory and all
    host memory around it, the files, and the base image under an overlay or of a
    read-only disk. *)
Record dev_step (s0 s : blk) : Prop := {
  dv_mem : mem_step (mem s0) (mem s);
  dv_base : base s = base s0;
  dv_overlay : overlay s = overlay s0;
  dv_ro : read_only s = read_only s0;
  dv_mmio : mmio_base s = mmio_base s0;
  dv_raise : has_raise_irq s = has_raise_irq s0;
  dv_files h : apart h (write_handle s0) \/ read_only s0 = true ->
    contents h (host s) = contents h (host s0) }.

Lemma blk_step_dev s0 s : blk_step s0 s -> dev_step s0 s.
Proof. by intros []. Qed.

Lemma dev_step_refl s : ram_ok (data (mem s)) -> dev_step s s.
Proof. intros. by apply blk_step_dev, blk_step_refl. Qed.

Lemma dev_step_trans s1 s2 s3 : dev_step s1 s2 -> dev_step s2 s3 -> dev_step s1 s3.
Proof.
  intros [Hm1 Hb1 Ho1 Hr1 Ha1 Hq1 Hi1] [Hm2 Hb2 Ho2 Hr2 Ha2 Hq2 Hi2].
  split; [by eapply mem_step_trans|congruence..|].
  intros h Hh. rewrite <- Hi1 by done. apply Hi2. unfold write_handle in *. by rewrite Ho1, Hb1, Hr1.
Qed.

(** A disk with an overlay, or a read-only one, keeps its image. *)
Lemma dev_step_image s0 s :
  blk_ok s0 -> dev_step s0 s -> has_overlay s0 || read_only s0 = true ->
  contents (base s0) (host s) = contents (base s0) (host s0).
Proof.
  intros Hok Hst Hro. apply (dv_files _ _ Hst). destruct (read_only s0); [by right|left].
  unfold has_overlay, write_handle in *. destruct (overlay s0) as [ov|] eqn:Eo; [|done].
  by apply apart_sym, (ok_distinct s0 Hok ov).
Qed.

Definition inv_dev (s0 s : blk) : Prop := blk_ok s /\ dev_step s0 s.

Lemma inv_start s : blk_ok s -> inv s s.
Proof. intros Hs. split; [done|apply blk_step_refl, Hs]. Qed.

(** A request from any point of a run of the device. *)
Lemma safe_dev {A} s0 (Q : A -> Prop) (m : MB A) :
  (forall s, safe (inv s) Q m) -> safe (inv_dev s0) Q m.
Proof.
  intros Hm s [Hok Hst]. specialize (Hm s s (inv_start s Hok)).
  destruct (m s) as [[a|e|] s']; [|split; [apply Hm|]|done].
  - destruct Hm as [[Hok' Hst'] Ha]. split; [split; [done|]|done].
    by eapply dev_step_trans; [|apply blk_step_dev].
  - eapply dev_step_trans; [exact Hst|]. by apply blk_step_dev, Hm.
Qed.

Lemma queue_at_ok s i : blk_ok s -> queue_ok kMaxQueueSize (queue s i).
Proof.
  intros Hs. assert (Hn : queue_ok kMaxQueueSize new_queue) by by split.
  unfold queue. pose proof (ok_queues s Hs) as Hq. revert Hq.
  generalize (queues s), (Z.to_nat i). intros qs. induction qs as [|q qs IH]; intros [|n] Hq;
    inversion Hq; subst; cbn [nth]; auto.
Qed.

Lemma set_queue_ok i f s :
  blk_ok s -> (queue_ok kMaxQueueSize (queue s i) -> queue_ok kMaxQueueSize (f (queue s i))) ->
  blk_ok (set_queue i f s).
Proof.
  intros Hs Hf. specialize (Hf (queue_at_ok s i Hs)). destruct Hs; split; try done.
  - cbn [queues set_queue upd_field]. by rewrite length_alter.
  - cbn [queues set_queue upd_field]. rewrite Forall_lookup in *. intros k q Hk.
    destruct (decide (k = Z.to_nat i)) as [->|Hne].
    + rewrite list_lookup_alter_eq in Hk. destruct (queues s !! Z.to_nat i) as [q0|] eqn:E; [|done].
      injection Hk as <-. unfold queue in Hf. by rewrite (nth_lookup_Some _ _ _ _ E) in Hf.
    + rewrite list_lookup_alter_ne in Hk by done. eauto.
Qed.

Lemma queue_set i f (s : blk) :
  length (queues s) = 8%nat -> 0 <= i < 8 -> queue (set_queue i f s) i = f (queue s i).
Proof.
  intros Hl Hi. unfold queue. cbn [queues set_queue upd_field].
  destruct (lookup_lt_is_Some_2 (queues s) (Z.to_nat i) ltac:(lia)) as [q Hq].
  rewrite (nth_lookup_Some _ _ _ _ Hq). apply nth_lookup_Some.
  by rewrite list_lookup_alter_eq, Hq.
Qed.

(** The loop ends: every round brings [last_avail] one step nearer to [avail_idx]. *)
Lemma queue_loop_spec i avail_idx : 0 <= i < 8 -> 0 <= avail_idx < 65536 ->
  forall fuel s, blk_ok s -> (Z.to_nat (u16 (avail_idx - last_avail (queue s i))) <= fuel)%nat ->
  match queue_loop fuel i avail_idx s with
  | (Ok _, s') => inv_dev s s' /\ last_avail (queue s' i) = avail_idx
  | (Throw _, s') => inv_dev s s'
  | (OutOfFuel, _) => False
  end.
Proof.
  intros Hi Ha. induction fuel as [|fuel IH]; intros s Hs Hf; cbn [queue_loop]; rewrite gets_bind;
    pose proof (queue_at_ok s i Hs) as Hq; set (q := queue s i) in *;
    destruct (Z.eqb_spec (last_avail q) avail_idx) as [Heq|Hne];
    try (by split; [split; [done|apply dev_step_refl, Hs]|]).
  1: pose proof (u16_dist_pos avail_idx (last_avail q) Ha (qok_last _ _ Hq) ltac:(congruence)); lia.
  rewrite bind_run.
  pose proof (safe_guest_ptr s (u64 (driver_addr q + 4 + last_avail q mod qsize q * 2)) 2
    (proj1 (u64_range _)) ltac:(lia) s (inv_start s Hs)) as H1'.
  destruct (guest_ptr _ 2 s) as [[p|e|] s1]; [|by destruct H1'; split; [|apply blk_step_dev]|done].
  destruct H1' as [[Hs1 Hst1] _]. rewrite bind_run.
  pose proof (safe_guest_load s1 p 2 s1 (inv_start s1 Hs1)) as H2'.
  destruct (guest_load p 2 s1) as [[b|e|] s2]; [|by destruct H2' as [? ?]; split;
    [|eapply dev_step_trans; apply blk_step_dev]|done].
  destruct H2' as [[Hs2 Hst2] [Hb Hbl]]. rewrite modify_bind.
  assert (Hq2 : queue s2 i = q)
    by (unfold q, queue; by rewrite (st_queues _ _ Hst2), (st_queues _ _ Hst1)).
  set (q' := q <| last_avail := u16 (last_avail q + 1) |>).
  assert (Hq' : queue_ok kMaxQueueSize q') by (destruct Hq; split; try done; apply u16_range).
  set (s3 := set_queue i (fun _ => q') s2).
  assert (Hs3 : blk_ok s3) by (by apply set_queue_ok).
  assert (Hst3 : dev_step s s3).
  { apply dev_step_trans with s1; [by apply blk_step_dev|].
    apply dev_step_trans with s2; [by apply blk_step_dev|].
    destruct (dev_step_refl s2 (ok_ram _ Hs2)). by split. }
  assert (Hq3 : queue s3 i = q') by (unfold s3; apply queue_set; [apply Hs2|done]).
  rewrite bind_run.
  pose proof (ReadU16_range b Hb ltac:(rewrite Hbl; lia)) as Hh.
  pose proof (safe_process_request s3 q' (ReadU16 b) Hq' ltac:(lia) s3 (inv_start s3 Hs3)) as H3'.
  destruct (process_request q' (ReadU16 b) s3) as [[u|e|] s4];
    [|by destruct H3' as [? ?]; split; [|eapply dev_step_trans; [|apply blk_step_dev]]|done].
  destruct H3' as [[Hs4 Hst4] _].
  assert (Hq4 : queue s4 i = q') by (rewrite <- Hq3; unfold queue; by rewrite (st_queues _ _ Hst4)).
  assert (Hst04 : dev_step s s4) by (by eapply dev_step_trans; [|apply blk_step_dev]).
  specialize (IH s4 Hs4). rewrite Hq4 in IH. unfold q' in IH at 1. cbn [last_avail upd_field] in IH.
  rewrite u16_dist in IH by (done || apply Hq || congruence).
  specialize (IH ltac:(lia)).
  destruct (queue_loop fuel i avail_idx s4) as [[u'|e|] s5]; [|by destruct IH; split;
    [|eapply dev_step_trans]|done].
  destruct IH as [[Hs5 Hst5] Hl]. by split; [split; [|eapply dev_step_trans]|].
Qed.

Lemma handle_queue_spec i s : 0 <= i < 8 -> blk_ok s ->
  match handle_queue i s with
  | (Ok _, s') => inv_dev s s' /\
      last_avail (queue s' i) = ReadU16 (load (data (mem s)) (u64 (driver_addr (queue s i) + 2)) 2)
  | (Throw _, s') => inv_dev s s'
  | (OutOfFuel, _) => False
  end.
Proof.
  intros Hi Hs. unfold handle_queue. rewrite gets_bind. set (q := queue s i).
  unfold guest_ptr, guest_load, on_mem, zoom, checked_ptr, load_at, gets. rewrite bind_run.
  pose proof (ptr_no_fuel (mem s) (u64 (driver_addr q + 2)) 2) as Hnf.
  assert (Hsame : inv_dev s (set_mem (mem s) s)).
  { destruct (dev_step_refl s (ok_ram _ Hs)). split; [by destruct Hs|by split]. }
  destruct (ptr (mem s) _ 2) as [p|e|] eqn:E; [|done|done].
  apply ptr_ok in E as [-> _]; [|apply Hs|apply u64_range|done].
  rewrite bind_run. cbn [mem set_mem upd_field]. set (b := load _ _ 2).
  change (set_mem (mem s) (set_mem (mem s) s)) with (set_mem (mem s) s).
  set (s1 := set_mem (mem s) s) in *.
  assert (Ha : 0 <= ReadU16 b < 65536)
    by (apply ReadU16_range; [apply load_ok, Hs|unfold b; by rewrite length_load]).
  pose proof (queue_loop_spec i (ReadU16 b) Hi Ha (Z.to_nat (u16 (ReadU16 b - last_avail q))) s1
    (proj1 Hsame) (Nat.le_refl _)) as HL.
  destruct (queue_loop _ i _ s1) as [[u|e|] s']; [|by destruct HL; split;
    [|eapply dev_step_trans; [apply Hsame|]]|done].
  destruct HL as [[Hs' Hst] Hl]. split; [split; [done|]|done].
  eapply dev_step_trans; [apply Hsame|done].
Qed.

Lemma inv_dev_modify s0 f s : inv_dev s0 s -> blk_ok (f s) -> mem (f s) = mem s -> base (f s) = base s ->
  overlay (f s) = overlay s -> read_only (f s) = read_only s -> mmio_base (f s) = mmio_base s ->
  has_raise_irq (f s) = has_raise_irq s -> host (f s) = host s -> inv_dev s0 (f s).
Proof.
  intros [Hok Hst] Hf Hm Hb Ho Hr Ha Hq Hh. split; [done|]. eapply dev_step_trans; [exact Hst|].
  split; try done; [rewrite Hm; apply mem_step_refl, Hok|]. by rewrite Hh.
Qed.

(** The driver's own stores. *)
Lemma inv_dev_store s0 s a bytes : inv_dev s0 s -> bytes_ok bytes -> 0 <= a ->
  a + Z.of_nat (length bytes) <= len (mem s) -> inv_dev s0 (set_mem (mem_store (mem s) a bytes) s).
Proof.
  intros [Hok Hst] Hb Ha Hn.
  destruct (inv_set_mem s s (mem_store (mem s) a bytes) (inv_start s Hok)) as [Hok' Hst'].
  { apply store_step; [apply Hok|apply Hok|done..]. }
  split; [done|]. eapply dev_step_trans; [exact Hst|by apply blk_step_dev].
Qed.

Lemma safe_handle_queue s0 i : 0 <= i < 8 -> safe (inv_dev s0) (fun _ => True) (handle_queue i).
Proof.
  intros Hi s [Hok Hst]. pose proof (handle_queue_spec i s Hi Hok) as Hh.
  assert (Hi' : forall s', inv_dev s s' -> inv_dev s0 s')
    by (intros s' [Hok' Hst']; split; [done|by eapply dev_step_trans]).
  destruct (handle_queue i s) as [[u|e|] s']; [split; [apply Hi', Hh|done]|by apply Hi'|done].
Qed.

(** A change of registers only. *)
Ltac regs := apply safe_modify; intros s Hs; apply inv_dev_modify; try done;
  destruct (proj1 Hs); split; try done; cbn.

Lemma safe_with_q s0 i f :
  (forall q, queue_ok kMaxQueueSize q -> queue_ok kMaxQueueSize (f q)) ->
  safe (inv_dev s0) (fun _ => True) (modify (set_queue i f)).
Proof.
  intros Hf. apply safe_modify. intros s Hs. apply inv_dev_modify; try done.
  apply set_queue_ok; [apply Hs|apply Hf].
Qed.

Ltac queue_field := intros q Hq; destruct Hq; split; try done; cbn;
  first [by apply set_lo32_range | by apply set_hi32_range | lia].

Lemma safe_notify s0 value : 0 <= value -> safe (inv_dev s0) (fun _ => True) (notify value).
Proof.
  intros Hv. unfold notify. safe_step; [any_result|]. apply safe_when. intros Hc.
  safe_step; [apply safe_handle_queue; lia|].
  safe_step.
  - intros s Hs. apply inv_dev_modify; try done. destruct (proj1 Hs); split; try done.
    cbn. by apply (lor_range _ _ 32).
  - apply safe_modify. intros s Hs. unfold raise_irq. destruct (has_raise_irq s); [|done].
    apply inv_dev_modify; try done. by destruct (proj1 Hs); split.
Qed.

Lemma reset_ok s : blk_ok s -> blk_ok (reset s).
Proof.
  intros []. split; try done; cbn.
  - by rewrite length_map.
  - apply Forall_map, Forall_true. by split.
Qed.

Lemma safe_write_reg s0 off value :
  0 <= value < 2 ^ 32 -> safe (inv_dev s0) (fun _ => True) (write_reg off value).
Proof.
  intros Hv. unfold write_reg.
  safe_with (fun sel => 0 <= sel < 8); [intros s Hs; apply (ok_sel s), Hs|]. cbv zeta.
  safe_cases; [..|by apply safe_ret].
  - regs.
  - regs.
  - regs. destruct (drv_features_sel s =? 0); [by apply set_lo32_range|by apply set_hi32_range].
  - apply safe_when. intros Hc. regs. lia.
  - apply safe_when. intros Hc. apply safe_with_q. queue_field.
  - apply safe_with_q. queue_field.
  - apply safe_notify; lia.
  - regs. rewrite Z.land_comm. apply (land_range _ _ 32); lia.
  - safe_step; [|by regs]. apply safe_modify. intros s Hs. apply inv_dev_modify; try done.
    apply reset_ok, Hs.
  - apply safe_with_q. queue_field.
  - apply safe_with_q. queue_field.
  - apply safe_with_q. queue_field.
  - apply safe_with_q. queue_field.
  - apply safe_with_q. queue_field.
  - apply safe_with_q. queue_field.
Qed.

Lemma safe_write_mmio s0 a bytes :
  bytes_ok bytes -> safe (inv_dev s0) (fun _ => True) (write_mmio a bytes).
Proof.
  intros Hb. unfold write_mmio. safe_step; [any_result|]. cbv zeta.
  safe_step; [by apply safe_ret|]. apply safe_write_reg. apply ReadU32_range; [done|lia].
Qed.

Lemma blk_write_safe a bytes s o s' :
  blk_ok s -> bytes_ok bytes -> write_mmio a bytes s = (o, s') -> o <> OutOfFuel /\ blk_ok s' /\ dev_step s s'.
Proof.
  intros Hs Hb E.
  exact (safe_inv _ _ _ _ _ _ (safe_write_mmio s a bytes Hb) (conj Hs (dev_step_refl s (ok_ram s Hs))) E).
Qed.
End Safety.

(** ** What a request leaves alone

    Serving a queue touches memory, files, dirty bits and the queue's cursor, no other
    register. *)

Section Frame.
Context {F H : Type} `{DiskIo F H}.
Local Notation blk := (VirtioBlk F H).

Definition registers (s : blk) := (mmio_base s, has_raise_irq s, status s, drv_features s,
  dev_features_sel s, drv_features_sel s, queue_sel s, interrupt_status s, irqs s).

Lemma frames_pread_guest file dst n off : frames registers (pread_guest file dst n off).
Proof. intros s. unfold pread_guest. by destruct (PreadAll _ _ _ _) as [[o bs] f]. Qed.

Lemma frames_copy_sector ov st : frames registers (copy_sector ov st).
Proof.
  intros s. unfold copy_sector. destruct (PreadAll _ _ _ _) as [[o bs] f].
  assert (Hk : frames registers (lift o ≫= fun _ => on_host (PwriteAll ov bs st)))
    by (unfold on_host; repeat frames_step).
  exact (Hk (set_host f s)).
Qed.

Lemma frames_mark_dirty x s : registers (mark_dirty x s) = registers s.
Proof. unfold mark_dirty. by destruct (_ || _). Qed.

Lemma frames_prepare off n : frames registers (prepare_partial_overlay_sectors off n).
Proof.
  intros s. unfold prepare_partial_overlay_sectors. destruct (overlay s); [|done].
  set (m := when _ _). enough (Hk : frames registers m) by apply Hk.
  unfold m. repeat frames_step. apply frames_copy_sector.
Qed.

Lemma frames_read_chunks fuel off dst n : forall done, frames registers (read_chunks fuel off dst n done).
Proof.
  induction fuel as [|fuel IH]; intros done; cbn [read_chunks]; repeat frames_step;
    first [apply frames_pread_guest|apply IH].
Qed.

Lemma frames_ReadDisk sector dst n : frames registers (ReadDisk sector dst n).
Proof. unfold ReadDisk. repeat frames_step; first [apply frames_pread_guest|apply frames_read_chunks]. Qed.

Lemma frames_WriteDisk sector src n : frames registers (WriteDisk sector src n).
Proof.
  unfold WriteDisk, guest_load, on_mem, on_host. repeat frames_step; [apply frames_prepare|]. intros s. unfold mark_dirty_range.
  set (m := when _ _). enough (Hk : frames registers m) by apply Hk.
  unfold m. repeat frames_step. apply frames_mark_dirty.
Qed.

Definition registers_w (sw : blk * Z) := registers sw.1.

Lemma frames_guest_ptr a n : frames registers (guest_ptr a n).
Proof. unfold guest_ptr, on_mem. frames_step. Qed.

Lemma frames_dispatch type sector ds : frames registers_w (dispatch type sector ds).
Proof.
  assert (Hd : forall A (m : M blk A), frames registers m -> frames registers_w (on_dev m))
    by (intros A m Hm; by apply frames_on_fst).
  assert (Hw : forall n, frames registers_w (add_written n)) by (intros n [s w]; done).
  assert (Hr : forall ds sector, frames registers_w (read_descs ds sector)).
  { induction ds0 as [|d ds0 IH]; intros sec; cbn [read_descs]; repeat frames_step; [|apply Hw|apply IH].
    apply Hd. repeat frames_step; [apply frames_guest_ptr|apply frames_ReadDisk]. }
  assert (Hwr : forall ds sector, frames registers_w (write_descs ds sector)).
  { induction ds0 as [|d ds0 IH]; intros sec; cbn [write_descs]; repeat frames_step; [|apply IH].
    apply Hd. repeat frames_step; [apply frames_guest_ptr|apply frames_WriteDisk]. }
  unfold dispatch. repeat frames_step; [apply Hr|apply Hwr| |].
  - apply Hd. unfold flush, on_host. repeat frames_step.
  - unfold get_id. destruct ds as [|d ds0]; repeat frames_step; [|apply Hw].
    apply Hd. unfold guest_ptr, guest_store, on_mem. repeat frames_step.
Qed.

Lemma frames_walk q head : frames registers (walk q head).
Proof. done. Qed.

Lemma frames_process_request q head : frames registers (process_request q head).
Proof.
  assert (Hd : forall A (m : M blk A), frames registers m -> frames registers_w (on_dev m))
    by (intros A m Hm; by apply frames_on_fst).
  assert (Hp : forall id w, frames registers (push_used q id w)) by (intros; unfold push_used, on_mem; frames_step).
  assert (Hb : frames registers_w (process_body q head)).
  { unfold process_body, complete, guest_ptr, guest_load, guest_store, on_mem.
    repeat frames_step; try (apply Hd; repeat frames_step); try apply frames_walk; try apply Hp. apply frames_dispatch. }
  intros s. unfold process_request. specialize (Hb (s, 0)).
  destruct (process_body q head (s, 0)) as [[u|e|] [s' w]]; cbn in Hb; try done.
  change (registers s' = registers s) in Hb. rewrite <- Hb. enough (Hr : frames registers (recover q head w)) by apply Hr.
  unfold recover, guest_ptr, guest_store, on_mem. repeat frames_step; [apply frames_walk|apply Hp].
Qed.

Lemma frames_handle_queue i : frames registers (handle_queue i).
Proof.
  assert (Hl : forall a fuel, frames registers (queue_loop fuel i a)).
  { intros a. induction fuel as [|fuel IH]; cbn [queue_loop]; unfold guest_ptr, guest_load, on_mem;
      repeat frames_step; [done|apply frames_process_request|apply IH]. }
  unfold handle_queue, guest_ptr, guest_load, on_mem. repeat frames_step. apply Hl.
Qed.
End Frame.

(** ** The disk as the guest sees it *)

Section Disk.
Context {F H : Type} `{DiskIoLaws F H}.
Local Notation blk := (VirtioBlk F H).
Local Notation MB := (M blk).

(** A dirty sector is read from the overlay, a clean one from the base image. *)
Definition disk_view (s : blk) (a : Z) : Z :=
  if sector_dirty s (a / 512) then contents (write_handle s) (host s) a
  else contents (base s) (host s) a.

Lemma set_mem_id (s : blk) : set_mem (mem s) s = s.
Proof. by destruct s. Qed.
Lemma set_host_id (s : blk) : set_host (host s) s = s.
Proof. by destruct s. Qed.

(** *** Dirty bits *)

Lemma bit_mask k : 0 <= k < 8 -> u8 (Z.shiftl 1 k) = 2 ^ k.
Proof.
  intros Hk. rewrite Z.shiftl_1_l. apply u8_small.
  pose proof (Z.pow_lt_mono_r 2 k 8). pose proof (Z.pow_pos_nonneg 2 k). lia.
Qed.

Lemma byte_at_insert l i j v :
  0 <= i < Z.of_nat (length l) -> 0 <= j ->
  byte_at (<[ Z.to_nat i := v ]> l) j = if j =? i then v else byte_at l j.
Proof.
  intros Hi Hj. unfold byte_at. destruct (Z.eqb_spec j i) as [->|Hne].
  - apply nth_lookup_Some. apply list_lookup_insert_eq. lia.
  - destruct (decide (Z.to_nat j < length l)%nat) as [Hl|Hl].
    + destruct (lookup_lt_is_Some_2 l (Z.to_nat j) Hl) as [b Hb].
      rewrite (nth_lookup_Some l _ _ _ Hb). apply nth_lookup_Some.
      rewrite list_lookup_insert_ne by lia. done.
    + rewrite !nth_overflow; [done|lia|rewrite length_insert; lia].
Qed.

Lemma mark_dirty_spec (s : blk) x y :
  blk_ok s -> 0 <= x -> 0 <= y ->
  sector_dirty (mark_dirty x s) y =
  sector_dirty s y || (has_overlay s && (y =? x) && (y <? sectors s)).
Proof.
  intros Hs Hx Hy. unfold mark_dirty.
  destruct (has_overlay s) eqn:Ho; cbn [negb orb andb]; [|by rewrite orb_false_r].
  destruct (Z.leb_spec (sectors s) x).
  { destruct (Z.eqb_spec y x) as [->|]; cbn [andb]; [|by rewrite orb_false_r].
    destruct (Z.ltb_spec x (sectors s)); [lia|]. by rewrite orb_false_r. }
  assert (Hxi : 0 <= x / 8 < Z.of_nat (length (dirty_sectors s))).
  { rewrite (ok_dirty s Hs Ho). Z.to_euclidean_division_equations. lia. }
  assert (Hmx : 0 <= x mod 8 < 8) by (apply Z.mod_pos_bound; lia).
  assert (Hmy : 0 <= y mod 8 < 8) by (apply Z.mod_pos_bound; lia).
  unfold sector_dirty. cbn [has_overlay overlay sectors dirty_sectors upd_field].
  change (has_overlay (upd_field _ s)) with (has_overlay s). rewrite Ho. cbn [negb orb].
  destruct (Z.leb_spec (sectors s) y).
  { destruct (Z.ltb_spec y (sectors s)); [lia|]. by rewrite andb_false_r. }
  destruct (Z.ltb_spec y (sectors s)); [|lia]. rewrite andb_true_r.
  rewrite byte_at_insert by (try done; apply Z.div_pos; lia).
  rewrite !bit_mask by done.
  destruct (Z.eqb_spec (y / 8) (x / 8)) as [Hd|Hd].
  - rewrite Hd. rewrite !has_pow2 by lia. unfold u8.
    rewrite Z.mod_pow2_bits_low, Z.lor_spec by lia. f_equal. rewrite Z.pow2_bits_eqb by lia.
    destruct (Z.eqb_spec y x) as [->|]; [apply Z.eqb_refl|]. apply Z.eqb_neq.
    pose proof (Z.div_mod x 8). pose proof (Z.div_mod y 8). lia.
  - destruct (Z.eqb_spec y x) as [->|]; [done|]. by rewrite orb_false_r.
Qed.

(** What a change of dirty bits leaves as it was. *)
Definition same_but_dirty (s s' : blk) : Prop :=
  blk_ok s' /\ mem s' = mem s /\ host s' = host s /\ base s' = base s /\ overlay s' = overlay s /\
  sectors s' = sectors s.

Lemma mark_dirty_same x s : blk_ok s -> 0 <= x -> same_but_dirty s (mark_dirty x s).
Proof.
  intros Hs Hx. destruct (mark_dirty_inv s x s (inv_start s Hs) Hx) as [Hok _].
  unfold same_but_dirty. split; [done|]. unfold mark_dirty. by destruct (_ || _).
Qed.

Lemma mark_all_spec l : forall s,
  blk_ok s -> (forall x, x ∈ l -> 0 <= x) ->
  exists s', for_each (fun x => modify (mark_dirty x)) l s = (Ok tt, s') /\ same_but_dirty s s' /\
    forall y, 0 <= y -> sector_dirty s' y =
      sector_dirty s y || (has_overlay s && bool_decide (y ∈ l) && (y <? sectors s)).
Proof.
  induction l as [|x l IH]; intros s Hs Hl; cbn [for_each].
  - exists s. split_and!; [done|by split_and!|]. intros y _. case_bool_decide as Hy.
    + by apply elem_of_nil in Hy.
    + by rewrite andb_false_r, orb_false_r.
  - rewrite modify_bind. pose proof (Hl x ltac:(left)) as Hx.
    pose proof (mark_dirty_same x s Hs Hx) as (Hok & Hm & Hh & Hb & Ho & Hsec).
    destruct (IH (mark_dirty x s) Hok ltac:(intros; apply Hl; by right)) as (s' & E & Hsame & Hd).
    exists s'. destruct Hsame as (Hok' & Hm' & Hh' & Hb' & Ho' & Hsec').
    split_and!; [done|unfold same_but_dirty; split_and!; congruence|].
    intros y Hy. rewrite Hd, mark_dirty_spec, Hsec by done.
    replace (has_overlay (mark_dirty x s)) with (has_overlay s) by (unfold has_overlay; by rewrite Ho).
    rewrite <- orb_assoc, <- !andb_assoc, <- andb_orb_distrib_r, <- andb_orb_distrib_l. do 3 f_equal.
    destruct (Z.eqb_spec y x) as [->|Hne]; cbn [orb].
    + symmetry. apply bool_decide_eq_true. left.
    + apply bool_decide_ext. rewrite elem_of_cons. split; [by right|]. by intros [?|?].
Qed.

(** *** Reading *)

(** Same device up to the file positions and guest memory. *)
Definition same_disk (s s' : blk) : Prop :=
  (forall h, contents h (host s') = contents h (host s)) /\
  exists g f, s' = set_mem g (set_host f s).

Lemma same_disk_refl s : same_disk s s.
Proof. split; [done|]. exists (mem s), (host s). by destruct s. Qed.

Lemma same_disk_trans s1 s2 s3 : same_disk s1 s2 -> same_disk s2 s3 -> same_disk s1 s3.
Proof.
  intros [H1' (g1 & f1 & ->)] [H2' (g2 & f2 & ->)]. split; [intros; by rewrite H2', H1'|].
  exists g2, f2. done.
Qed.

Lemma same_disk_view s s' a : same_disk s s' -> disk_view s' a = disk_view s a.
Proof.
  intros [Hc (g & f & ->)]. unfold disk_view.
  change (sector_dirty (set_mem g (set_host f s))) with (sector_dirty s).
  change (write_handle (set_mem g (set_host f s))) with (write_handle s).
  change (base (set_mem g (set_host f s))) with (base s). by rewrite !Hc.
Qed.

Lemma pread_guest_ok file dst n off (s s' : blk) :
  0 <= n -> 0 <= off -> pread_guest file dst n off s = (Ok tt, s') ->
  same_disk s s' /\ data (mem s') = store (data (mem s)) dst (load (contents file (host s)) off n).
Proof.
  intros Hn Hoff. unfold pread_guest.
  destruct (PreadAll file n off (host s)) as [[o bs] f] eqn:E.
  apply PreadAll_spec in E as (Hc & (k & Hk & -> & Hok) & _); [|done..].
  intros [= -> <-]. rewrite (Hok eq_refl). split; [|done]. split; [apply Hc|]. by eexists _, _.
Qed.

(** One chunk, from the file its sector belongs to. *)
Lemma chunk_view s cur chunk :
  0 <= cur -> 0 < chunk -> cur mod 512 + chunk <= 512 ->
  load (contents (if sector_dirty s (cur / 512) then write_handle s else base s) (host s)) cur chunk =
  load (disk_view s) cur chunk.
Proof.
  intros Hc Hk Hm. apply load_ext. intros a Ha. unfold in_range in Ha. unfold disk_view.
  replace (a / 512) with (cur / 512)
    by (pose proof (Z.div_mod cur 512 ltac:(done)); pose proof (Z.mod_pos_bound cur 512 ltac:(done));
        apply Z.div_unique_pos with (a - 512 * (cur / 512)); lia).
  by destruct (sector_dirty s (cur / 512)).
Qed.

Lemma load_disk_ext s s' a n : same_disk s s' -> load (disk_view s') a n = load (disk_view s) a n.
Proof. intros Hs. apply load_ext. intros. by apply same_disk_view. Qed.

Lemma read_chunks_ok byte_off dst n : forall fuel done s s',
  0 <= byte_off -> byte_off + n < 2 ^ 64 -> 0 <= done <= n ->
  read_chunks fuel byte_off dst n done s = (Ok tt, s') ->
  same_disk s s' /\
  forall a, data (mem s') a =
    store (data (mem s)) (dst + done) (load (disk_view s) (byte_off + done) (n - done)) a.
Proof.
  induction fuel as [|fuel IH]; intros done s s' Hb Hn Hd; cbn [read_chunks];
    destruct (Z.ltb_spec done n) as [Hlt|Hge]; try done.
  1: by intros [=].
  1,3: intros [= <-]; split; [apply same_disk_refl|]; intros a;
    rewrite store_out; [done|]; unfold in_range; rewrite length_load; lia.
  rewrite u64_small by lia. set (cur := byte_off + done).
  assert (Hm : 0 <= cur mod 512 < 512) by (apply Z.mod_pos_bound; lia).
  set (chunk := Z.min (n - done) (512 - cur mod 512)). rewrite gets_bind.
  rewrite bind_run. set (file := if sector_dirty s (cur / 512) then _ else _).
  destruct (pread_guest file (dst + done) chunk cur s) as [[[]|e|] s1] eqn:E; [|done|done].
  apply pread_guest_ok in E as [Hs1 Hd1]; [|clear -Hd Hlt Hm; unfold chunk; lia|unfold cur; lia].
  unfold file in Hd1. rewrite chunk_view in Hd1 by (unfold chunk; lia).
  intros E2. apply IH in E2 as [Hs2 Hd2]; [|lia|lia|unfold chunk; lia].
  split; [by eapply same_disk_trans|]. intros a. rewrite Hd2, (load_disk_ext s s1), Hd1 by done.
  replace (load (disk_view s) cur (n - done))
    with (load (disk_view s) cur (chunk + (n - (done + chunk)))) by (f_equal; lia).
  rewrite (load_app _ cur chunk) by (unfold chunk; lia).
  replace (byte_off + (done + chunk)) with (cur + chunk) by (unfold cur; lia).
  assert (Hlc : Z.of_nat (length (load (disk_view s) cur chunk)) = chunk)
    by (rewrite length_load; unfold chunk; lia).
  replace (dst + (done + chunk)) with (dst + done + Z.of_nat (length (load (disk_view s) cur chunk)))
    by (rewrite Hlc; lia).
  symmetry. apply store_app.
Qed.

Lemma ReadDisk_ok sector dst n s s' :
  blk_ok s -> 0 <= sector < 2 ^ 64 -> 0 <= n -> ReadDisk sector dst n s = (Ok tt, s') ->
  sector * 512 + n <= disk_bytes s /\ same_disk s s' /\
  forall a, data (mem s') a = store (data (mem s)) dst (load (disk_view s) (sector * 512) n) a.
Proof.
  intros Hs Hsec Hn. unfold ReadDisk. autorewrite with mrun.
  destruct (CheckedMul sector 512 _) as [off|e|] eqn:E1; [|done|done].
  apply CheckedMul_ok in E1 as [-> Hof]; [|done|done].
  autorewrite with mrun. pose proof (ok_disk s Hs).
  destruct (CheckRange (disk_bytes s) _ n _) as [[]|e|] eqn:E2; [|done|done].
  apply CheckRange_ok in E2; [|lia..]. autorewrite with mrun. intros E. split; [done|].
  destruct (has_overlay s) eqn:Ho; cbn [negb] in E.
  - apply read_chunks_ok in E as [Hsd Hd]; [|lia..].
    split; [done|]. intros a. by rewrite Hd, !Z.add_0_r, Z.sub_0_r.
  - rewrite gets_bind in E. apply pread_guest_ok in E as [Hsd Hd]; [|lia..].
    split; [done|]. intros a. rewrite Hd. f_equal.
    apply load_ext. intros x _. unfold disk_view, sector_dirty. by rewrite Ho.
Qed.

(** *** Writing *)

(** [f'] differs from [f] only in the overlay, in clean sectors. *)
Definition only_clean (s : blk) (ov : H) (f' : F) : Prop :=
  contents (base s) f' = contents (base s) (host s) /\
  forall a, sector_dirty s (a / 512) = true -> contents ov f' a = contents ov (host s) a.

Lemma only_clean_view s ov f' a :
  overlay s = Some ov -> only_clean s ov f' -> disk_view (set_host f' s) a = disk_view s a.
Proof.
  intros Ho [Hb Hd]. unfold disk_view.
  change (sector_dirty (set_host f' s)) with (sector_dirty s).
  change (write_handle (set_host f' s)) with (write_handle s).
  change (base (set_host f' s)) with (base s). change (host (set_host f' s)) with f'.
  rewrite Hb. destruct (sector_dirty s (a / 512)) eqn:E; [|done].
  unfold write_handle. rewrite Ho. by apply Hd.
Qed.

Lemma copy_sector_spec ov x s o s' :
  overlay s = Some ov -> apart ov (base s) -> 0 <= x -> sector_dirty s x = false ->
  copy_sector ov (x * 512) s = (o, s') ->
  exists f, s' = set_host f s /\ only_clean s ov f /\ o <> OutOfFuel /\
    (forall a, a / 512 <> x -> contents ov f a = contents ov (host s) a) /\
    (o = Ok tt -> forall a, a / 512 = x -> contents ov f a = contents (base s) (host s) a).
Proof.
  intros Ho Hne Hx Hclean. unfold copy_sector.
  destruct (PreadAll (base s) 512 (x * 512) (host s)) as [[o1 bs] f1] eqn:E.
  apply PreadAll_spec in E as (Hc & (k & Hk & -> & Hok1) & Hnf); [|lia..].
  destruct o1 as [[]|e|]; autorewrite with mrun; [|intros [= <- <-]|done].
  2:{ exists f1. unfold only_clean. by rewrite !Hc. }
  rewrite (Hok1 eq_refl). set (bs := load _ _ 512).
  unfold on_host, zoom. cbn [host set_host upd_field].
  destruct (PwriteAll ov bs (x * 512) f1) as [o2 f2] eqn:E2.
  apply PwriteAll_spec in E2 as (Hoth & Hw & Hok2 & Hnf2); [|apply load_ok, contents_byte|lia].
  assert (Hlen : Z.of_nat (length bs) = 512) by (unfold bs; rewrite length_load; lia).
  rewrite Hlen in Hw. intros [= <- <-]. exists f2.
  assert (Hsame : forall a, a / 512 <> x -> contents ov f2 a = contents ov (host s) a).
  { intros a Ha. rewrite Hw, Hc; [done|]. unfold in_range. intros Hr. apply Ha.
    symmetry. apply Z.div_unique_pos with (a - 512 * x); lia. }
  split_and!; [done| |done|done|].
  - split; [by rewrite Hoth, Hc by (by apply apart_sym)|]. intros a Ha. apply Hsame. congruence.
  - intros -> a Ha. rewrite (Hok2 eq_refl). pose proof (Z.div_mod a 512 ltac:(done)) as Hdm.
    pose proof (Z.mod_pos_bound a 512 ltac:(done)).
    replace a with (x * 512 + (a - x * 512)) by lia. rewrite store_in by lia.
    unfold bs. rewrite (nth_lookup_Some _ _ _ (contents (base s) (host s) a)).
    + f_equal. lia.
    + rewrite lookup_load. case_decide; [|lia]. do 2 f_equal. lia.
Qed.

(** The loop of [prepare_partial_overlay_sectors] over a list of sectors. *)
Lemma prepare_loop_spec ov (full : Z -> bool) l : forall s o s',
  overlay s = Some ov -> apart ov (base s) -> (forall x, x ∈ l -> 0 <= x < 2 ^ 54) ->
  for_each (fun x => gets (fun s => sector_dirty s x) ≫= fun dirty =>
      if full (u64 (x * 512)) || dirty then mret tt else copy_sector ov (u64 (x * 512))) l s = (o, s') ->
  exists f, s' = set_host f s /\ only_clean s ov f /\ o <> OutOfFuel /\
    (forall a, contents ov (host s) a = contents (base s) (host s) a ->
       o = Ok tt -> contents ov f a = contents (base s) (host s) a) /\
    (o = Ok tt -> forall a, a / 512 ∈ l -> full (a / 512 * 512) = false ->
       sector_dirty s (a / 512) = false -> contents ov f a = contents (base s) (host s) a).
Proof.
  induction l as [|x l IH]; intros s o s' Ho Hne Hl; cbn [for_each].
  - intros [= <- <-]. exists (host s). rewrite set_host_id. split_and!; try done.
    intros _ a Ha. by apply elem_of_nil in Ha.
  - autorewrite with mrun. pose proof (Hl x ltac:(left)) as Hx.
    assert (Hl' : forall y, y ∈ l -> 0 <= y < 2 ^ 54) by (intros; apply Hl; by right).
    rewrite u64_small by lia.
    destruct (full (x * 512) || sector_dirty s x) eqn:Eskip.
    + autorewrite with mrun. intros E.
      apply IH in E as (f & -> & Hcl & Hnf & Hkeep & Hok); [|done..].
      exists f. split_and!; try done. intros Hoo a [->|Ha]%elem_of_cons Hfull Hd; [|by apply Hok].
      rewrite Hfull, Hd in Eskip. done.
    + apply orb_false_iff in Eskip as [Hfx Hdx].
      rewrite bind_run. destruct (copy_sector ov (x * 512) s) as [o1 s1] eqn:E1.
      apply copy_sector_spec in E1 as (f1 & -> & [Hb1 Hd1] & Hnf1 & Hother & Hcopied); [|done|done|lia|done].
      destruct o1 as [[]|e|]; [|intros [= <- <-]; by exists f1|done].
      intros E. apply IH in E as (f & -> & [Hb2 Hd2] & Hnf2 & Hkeep & Hok); [|done..].
      cbn [host set_host upd_field base] in *.
      change (base (set_host f1 s)) with (base s) in *.
      change (sector_dirty (set_host f1 s)) with (sector_dirty s) in *.
      exists f. unfold only_clean. rewrite Hb2, Hb1 in *.
      assert (Hkeep' : forall a, contents ov f1 a = contents (base s) (host s) a -> o = Ok tt ->
                contents ov f a = contents (base s) (host s) a).
      { intros a Ha Hoo. by rewrite Hkeep. }
      split_and!; [done|done|by intros a Ha; rewrite Hd2, Hd1|done| |].
      * intros a Ha Hoo. apply Hkeep'; [|done]. destruct (decide (a / 512 = x)); [by apply Hcopied|].
        by rewrite Hother.
      * intros Hoo a Hal Hfull Hd. destruct (decide (a / 512 = x)) as [Hax|Hax].
        { apply Hkeep'; [|done]. by apply Hcopied. }
        apply elem_of_cons in Hal as [?|Hal]; [done|]. rewrite Hok by done. done.
Qed.

Lemma prepare_spec byte_off n s o s' :
  blk_ok s -> 0 <= byte_off -> 0 <= n -> byte_off + n <= disk_bytes s ->
  prepare_partial_overlay_sectors byte_off n s = (o, s') ->
  exists f, s' = set_host f s /\ o <> OutOfFuel /\
    (overlay s = None -> f = host s) /\
    (forall ov, overlay s = Some ov -> only_clean s ov f) /\
    (forall ov, overlay s = Some ov -> o = Ok tt -> forall a,
       byte_off / 512 <= a / 512 <= (byte_off + n - 1) / 512 -> 0 < n ->
       ~ in_range byte_off n a -> sector_dirty s (a / 512) = false ->
       contents ov f a = contents (base s) (host s) a).
Proof.
  intros Hs Hb Hn Hr. pose proof (ok_disk s Hs) as Hdk. unfold prepare_partial_overlay_sectors.
  destruct (overlay s) as [ov|] eqn:Ho.
  2:{ intros [= <- <-]. exists (host s). rewrite set_host_id. by split_and!. }
  pose proof (ok_distinct s Hs ov Ho) as Hne.
  destruct (Z.eqb_spec n 0) as [->|Hn0]; cbn [negb when].
  { intros [= <- <-]. exists (host s). rewrite set_host_id. by split_and!. }
  autorewrite with mrun.
  rewrite (proj2 (CheckRange_ok (disk_bytes s) byte_off n "virtio-blk overlay prepare" tt
             ltac:(lia) Hb Hn) Hr).
  autorewrite with mrun.
  rewrite (proj2 (CheckedAdd_ok byte_off n "virtio-blk overlay range" (byte_off + n)
             ltac:(lia) ltac:(lia)) ltac:(lia)).
  intros E.
  apply (prepare_loop_spec ov (fun st => (byte_off <=? st) && (u64 (st + 512) <=? byte_off + n)))
    in E as (f & -> & Hcl & Hnf & _ & Hok); [|done..|].
  - exists f. split_and!; try done.
    + by intros ov' [= <-].
    + intros ov' [= <-] Hoo a Ha _ Hout Hd. apply Hok; [done| | |done].
      * unfold sector_range. apply elem_of_seqZ. lia.
      * pose proof (Z.div_mod a 512 ltac:(done)). pose proof (Z.mod_pos_bound a 512 ltac:(done)).
        unfold in_range in Hout.
        assert (a / 512 <= (byte_off + n - 1) / 512) by lia.
        pose proof (Z.mul_div_le (byte_off + n - 1) 512 ltac:(done)).
        pose proof (Z.mul_div_le byte_off 512 ltac:(done)).
        assert (0 <= a / 512) by (pose proof (Z.div_pos byte_off 512); lia).
        rewrite u64_small by lia.
        destruct (Z.leb_spec byte_off (a / 512 * 512)); cbn [andb]; [|done].
        apply Z.leb_gt. lia.
  - intros x Hx%elem_of_seqZ.
    pose proof (Z.mul_div_le (byte_off + n - 1) 512 ltac:(done)).
    pose proof (Z.div_pos byte_off 512 ltac:(lia) ltac:(done)). lia.
Qed.

(** The write itself, after the preparation: the view is that of [s] outside the range
    whatever happens, and is updated in the range once the sectors are marked. *)
Lemma mark_dirty_range_spec byte_off n s :
  blk_ok s -> 0 <= byte_off -> 0 <= n -> byte_off + n <= disk_bytes s ->
  exists s', mark_dirty_range byte_off n s = (Ok tt, s') /\ same_but_dirty s s' /\
    forall y, 0 <= y -> sector_dirty s' y = sector_dirty s y ||
      (has_overlay s && negb (n =? 0) &&
       bool_decide (byte_off / 512 <= y <= (byte_off + n - 1) / 512) && (y <? sectors s)).
Proof.
  intros Hs Hb Hn Hr. unfold mark_dirty_range. pose proof (ok_disk s Hs).
  destruct (has_overlay s && negb (n =? 0)) eqn:Ec; cbn [when andb].
  - destruct (mark_all_spec (sector_range (byte_off / 512) (u64 (u64 (byte_off + n) - 1) / 512)) s)
      as (s' & E & Hsame & Hd); [done| |].
    { intros x. apply sector_range_nonneg. apply Z.div_pos; lia. }
    exists s'. split_and!; [done|done|]. intros y Hy. rewrite Hd by done. do 2 f_equal.
    apply andb_true_iff in Ec as [-> Hn0%negb_true_iff%Z.eqb_neq]. cbn [andb].
    apply bool_decide_ext. unfold sector_range. rewrite elem_of_seqZ.
    rewrite !u64_small by (rewrite ?u64_small; lia). lia.
  - exists s. split_and!; [done|by split_and!|]. intros y _.
    by rewrite orb_false_r.
Qed.

(** A byte of the overlay that can be marked: not in an incomplete last sector, which only
    a write of no whole number of sectors reaches. *)
Definition writable_at (s : blk) (n a : Z) : Prop :=
  n mod 512 = 0 \/ overlay s = None \/ a / 512 < sectors s.

(** The view after the marking, from what the preparation and the write established. *)
Lemma marked_view (s s3 : blk) f1 off n bs :
  blk_ok s -> 0 <= off -> off mod 512 = 0 -> off + n <= disk_bytes s ->
  Z.of_nat (length bs) = n ->
  (forall ov, overlay s = Some ov -> forall a,
     off / 512 <= a / 512 <= (off + n - 1) / 512 -> 0 < n -> ~ in_range off n a ->
     sector_dirty s (a / 512) = false -> contents ov f1 a = contents (base s) (host s) a) ->
  (forall a, contents (write_handle s) (host s3) a = store (contents (write_handle s) f1) off bs a) ->
  (forall a, ~ in_range off n a -> disk_view (set_host (host s3) s) a = disk_view s a) ->
  base s3 = base s -> overlay s3 = overlay s ->
  (forall y, 0 <= y -> sector_dirty s3 y = sector_dirty s y ||
     (has_overlay s && negb (n =? 0) &&
      bool_decide (off / 512 <= y <= (off + n - 1) / 512) && (y <? sectors s))) ->
  forall a, 0 <= a -> ~ in_range off n a \/ writable_at s n a -> disk_view s3 a = store (disk_view s) off bs a.
Proof.
  intros Hs Hoff Hom Hr Hlen Hprep Hst Hv2 Hb3 Ho3 Hd3 a Ha Hwa.
  assert (Hw3 : write_handle s3 = write_handle s) by (unfold write_handle; by rewrite Hb3, Ho3).
  unfold disk_view at 1. rewrite Hw3, Hb3, Hd3 by (apply Z.div_pos; lia).
  destruct (decide (off <= a < off + n)) as [Hin|Hout].
  - replace a with (off + (a - off)) by lia. rewrite store_in by lia.
    replace (off + (a - off)) with a by lia.
    assert (Hsec : off / 512 <= a / 512 <= (off + n - 1) / 512) by (split; apply Z.div_le_mono; lia).
    assert (Hin' : overlay s = None \/ a / 512 < sectors s).
    { destruct Hwa as [Hwa|[Hnm|Hwa]]; [exfalso; apply Hwa; unfold in_range; lia|right|done]. rewrite (ok_sectors s Hs).
      pose proof (Z.div_mod off 512 ltac:(done)). pose proof (Z.div_mod n 512 ltac:(done)).
      pose proof (Z.div_mod (disk_bytes s) 512 ltac:(done)).
      pose proof (Z.mod_pos_bound (disk_bytes s) 512 ltac:(done)).
      apply Z.div_lt_upper_bound; lia. }
    rewrite bool_decide_eq_true_2 by apply Hsec. destruct (Z.eqb_spec n 0); [lia|].
    assert (Hb : contents (write_handle s) (host s3) a = nth (Z.to_nat (a - off)) bs 0).
    { rewrite Hst. replace a with (off + (a - off)) at 1 by lia. by rewrite store_in by lia. }
    cbn [negb andb]. rewrite !andb_true_r. unfold sector_dirty, has_overlay, write_handle in *.
    destruct (overlay s); cbn [negb orb] in *; [|done]. destruct Hin' as [|Hlt]; [done|].
    rewrite (proj2 (Z.ltb_lt _ _) Hlt). by rewrite orb_true_r.
  - rewrite store_out by (unfold in_range; lia).
    assert (Hv := Hv2 a Hout). unfold disk_view at 1 in Hv.
    change (sector_dirty (set_host (host s3) s)) with (sector_dirty s) in Hv.
    change (write_handle (set_host (host s3) s)) with (write_handle s) in Hv.
    change (base (set_host (host s3) s)) with (base s) in Hv.
    change (host (set_host (host s3) s)) with (host s3) in Hv.
    destruct (sector_dirty s (a / 512)) eqn:Hd; cbn [orb]; [done|].
    case_bool_decide as Hsec; [|by rewrite andb_false_r].
    unfold has_overlay. destruct (overlay s) as [ov|] eqn:Ho; [|done].
    destruct (Z.eqb_spec n 0); [done|]. destruct (_ <? _); [|done]. cbn [negb andb].
    rewrite Hst, store_out by (unfold in_range; lia). unfold write_handle. rewrite Ho.
    assert (0 < n) by lia. rewrite (Hprep ov) by done. unfold disk_view. by rewrite Hd.
Qed.

Lemma WriteDisk_ok sector src n s o s' :
  blk_ok s -> 0 <= sector < 2 ^ 64 -> 0 <= n ->
  WriteDisk sector src n s = (o, s') ->
  let off := sector * 512 in
  o <> OutOfFuel /\ mem s' = mem s /\
  (forall a, 0 <= a -> ~ in_range off n a -> disk_view s' a = disk_view s a) /\
  (o = Ok tt -> read_only s = false /\ off + n <= disk_bytes s /\
     (forall a, 0 <= a -> writable_at s n a ->
        disk_view s' a = store (disk_view s) off (load (data (mem s)) src n) a)).
Proof.
  intros Hs Hsec Hn. unfold WriteDisk. autorewrite with mrun. cbv zeta. set (off := sector * 512).
  assert (Hoff : 0 <= off) by (unfold off; lia).
  unfold Check. destruct (read_only s) eqn:Hro; cbn [negb]; [by intros [= <- <-]|].
  autorewrite with mrun.
  destruct (CheckedMul sector 512 _) as [off'|e|] eqn:E1; [|by intros [= <- <-]|by apply CheckedMul_no_fuel in E1].
  apply CheckedMul_ok in E1 as [-> Hof]; [|done|done]. fold off.
  autorewrite with mrun. pose proof (ok_disk s Hs) as Hdk.
  destruct (CheckRange (disk_bytes s) off n _) as [[]|e|] eqn:E2; [|by intros [= <- <-]|by apply CheckRange_no_fuel in E2].
  apply CheckRange_ok in E2; [|lia..]. autorewrite with mrun. rewrite bind_run.
  destruct (prepare_partial_overlay_sectors off n s) as [o1 s1] eqn:E3.
  apply prepare_spec in E3 as (f1 & -> & Hnf1 & Hnone & Hclean & Hprep); [|done|lia|lia|done].
  assert (Hv1 : forall a, disk_view (set_host f1 s) a = disk_view s a).
  { intros a. destruct (overlay s) as [ov|] eqn:Ho.
    - eapply only_clean_view; [exact Ho|by apply Hclean].
    - by rewrite (Hnone eq_refl), set_host_id. }
  destruct o1 as [[]|e|]; [|by intros [= <- <-]|done].
  unfold guest_load, on_mem, zoom, load_at, gets. rewrite bind_run.
  cbn [mem set_host upd_field]. change (mem (set_host f1 s)) with (mem s).
  set (bs := load (data (mem s)) src n).
  change (set_mem (mem s) (set_host f1 s)) with (set_mem (mem (set_host f1 s)) (set_host f1 s)).
  rewrite set_mem_id, bind_run. cbn beta iota.
  change (write_handle (set_host f1 s)) with (write_handle s).
  unfold on_host, zoom. rewrite bind_run. cbn beta.
  change (host (set_host f1 s)) with f1.
  destruct (PwriteAll (write_handle s) bs off f1) as [o2 f2] eqn:E4.
  apply PwriteAll_spec in E4 as (Hoth & Hw & Hok2 & Hnf2); [|apply load_ok, Hs|done].
  assert (Hlen : Z.of_nat (length bs) = n) by (unfold bs; rewrite length_load; lia).
  rewrite Hlen in Hw.
  change (set_host f2 (set_host f1 s)) with (set_host f2 s).
  (* the view once the bytes are on the host *)
  assert (Hv2 : forall a, ~ in_range off n a -> disk_view (set_host f2 s) a = disk_view s a).
  { intros a Ha. rewrite <- Hv1. unfold disk_view.
    change (sector_dirty (set_host f2 s)) with (sector_dirty s).
    change (sector_dirty (set_host f1 s)) with (sector_dirty s).
    change (write_handle (set_host f2 s)) with (write_handle s).
    change (write_handle (set_host f1 s)) with (write_handle s).
    change (base (set_host f2 s)) with (base s). change (base (set_host f1 s)) with (base s).
    change (host (set_host f2 s)) with f2. change (host (set_host f1 s)) with f1.
    rewrite Hw by done. destruct (sector_dirty s (a / 512)); [done|].
    unfold write_handle in *. destruct (overlay s) as [ov|] eqn:Ho; [|by apply Hw].
    by rewrite Hoth by (by apply apart_sym, (ok_distinct s Hs ov Ho)). }
  assert (Hs2 : blk_ok (set_host f2 s)) by by destruct Hs.
  destruct o2 as [[]|e|]; [|intros [= <- <-]; split_and!; try done; by auto|done].
  intros Em.
  destruct (mark_dirty_range_spec off n (set_host f2 s) Hs2 Hoff Hn E2)
    as (s3 & Em' & (_ & Hm3 & Hh3 & Hb3 & Ho3 & _) & Hd3).
  rewrite Em' in Em. injection Em as <- <-.
  change (has_overlay (set_host f2 s)) with (has_overlay s) in Hd3.
  change (sector_dirty (set_host f2 s)) with (sector_dirty s) in Hd3.
  change (sectors (set_host f2 s)) with (sectors s) in Hd3.
  assert (Hv3 : forall a, 0 <= a -> ~ in_range off n a \/ writable_at s n a -> disk_view s3 a = store (disk_view s) off bs a).
  { apply (marked_view s s3 f1 off n bs); try done.
    - unfold off. apply Z.mod_mul. done.
    - intros ov Ho. by apply Hprep.
    - rewrite Hh3. by apply Hok2.
    - by rewrite Hh3. }
  split_and!; [done|done| |].
  - intros a Ha Hout. rewrite Hv3, store_out by (by auto || by rewrite Hlen). done.
  - intros _. split_and!; [done|done|]. intros a Ha Hw'. apply Hv3; auto.
Qed.

(** C11.  Reading [n] bytes of the disk from a sector succeeds only inside the disk and
    then delivers to guest memory the disk as it stands, overlay included: the bytes
    at [dst] are those of [disk_view], nothing else in memory and no file changes. *)
Theorem ReadDisk_spec sector dst n s s' :
  blk_ok s -> 0 <= sector < 2 ^ 64 -> 0 <= n -> ReadDisk sector dst n s = (Ok tt, s') ->
  sector * 512 + n <= disk_bytes s /\
  (forall a, data (mem s') a = store (data (mem s)) dst (load (disk_view s) (sector * 512) n) a) /\
  (forall h, contents h (host s') = contents h (host s)) /\
  (forall a, disk_view s' a = disk_view s a).
Proof.
  intros Hs Hsec Hn E. apply ReadDisk_ok in E as (Hr & Hsd & Hd); [|done..].
  split_and!; [done|done|apply Hsd|]. intros a. by apply same_disk_view.
Qed.

(** C10.  A write of any length to the disk updates it exactly there: on success the view
    is the old one with the source bytes stored at the sector, the rest of a sector that
    is written in part coming from the base image the first time; on a failure, even
    half-way through the copy-on-write preparation, no byte of the disk outside the
    written range changes, and guest memory never does.  One place keeps its old view: an
    incomplete last sector under an overlay, which no write of whole sectors reaches. *)
Theorem WriteDisk_spec sector src n s o s' :
  blk_ok s -> 0 <= sector < 2 ^ 64 -> 0 <= n ->
  WriteDisk sector src n s = (o, s') ->
  o <> OutOfFuel /\ mem s' = mem s /\
  (forall a, 0 <= a -> ~ in_range (sector * 512) n a -> disk_view s' a = disk_view s a) /\
  (o = Ok tt -> read_only s = false /\ sector * 512 + n <= disk_bytes s /\
     (forall a, 0 <= a -> writable_at s n a ->
       disk_view s' a = store (disk_view s) (sector * 512) (load (data (mem s)) src n) a)).
Proof. apply WriteDisk_ok. Qed.
End Disk.

(** ** The device as a whole *)

Section Device.
Context {F H : Type} `{HostFileLaws F H}.
Local Notation blk := (VirtioBlk F H).

Lemma VirtioBlk_new_ok mb g path overlay_path ro raise f (s : blk) f' :
  0 <= len g < 2 ^ 64 -> ram_ok (data g) ->
  VirtioBlk_new mb g path overlay_path ro raise f = (Ok s, f') ->
  disk_bytes s < 2 ^ 63 -> (forall ov, overlay s = Some ov -> ov <> base s) ->
  blk_ok s /\ mem s = g /\ (read_only s = true -> overlay s = None).
Proof.
  intros Hl Hg E Hsz Hd. unfold VirtioBlk_new in E.
  assert (Hq : Forall (queue_ok kMaxQueueSize) (repeat new_queue 8))
    by (repeat (constructor; [by split|]); constructor).
  revert E. autorewrite with mrun.
  destruct ro, (overlay_path =? "")%string eqn:Eo; cbn [negb andb orb Check]; try (by intros [=]);
    autorewrite with mrun; unfold open_file; rewrite bind_run;
    destruct (CreateFile path _ OpenExisting f) as [[b|] f1]; try (by intros [=]);
    autorewrite with mrun; destruct (GetFileSizeEx b f1) as [sz|]; try (by intros [=]);
    autorewrite with mrun; unfold Check; destruct (Z.leb_spec 0 sz); try (by intros [=]);
    autorewrite with mrun.
  1,2: intros [= <- <-]; cbn in Hsz, Hd;
    (split_and!; [split; try done; by constructor|done|done]).
  destruct (negb _); [|by intros [=]]. autorewrite with mrun. rewrite bind_run.
  destruct (CreateFile overlay_path _ CreateAlways f1) as [[ov|] f2]; [|by intros [=]].
  rewrite bind_run. destruct (MarkFileSparse ov f2) as [[|e|] f3]; try (by intros [=]).
  rewrite bind_run. destruct (TruncateFileTo ov sz f3) as [[|e|] f4]; try (by intros [=]).
  intros [= <- <-]. cbn in Hsz, Hd. assert (0 <= sz / 512) by (apply Z.div_pos; lia).
  assert (0 <= (sz / 512 + 7) / 8) by (apply Z.div_pos; lia).
  split_and!; [split; try done|done|done].
  - cbn. intros _. rewrite repeat_length. lia.
  - cbn. apply Forall_forall. intros x Hx%repeat_spec. by subst.
Qed.

(** What a driver does: a write to the device's registers, with its outcome, or a store
    to its own memory, rings and buffers included. *)
Inductive driver_write : blk -> blk -> Prop :=
  | driver_write_at a bytes s o s' :
      bytes_ok bytes -> write_mmio a bytes s = (o, s') -> driver_write s s'
  | driver_store_at a bytes s :
      bytes_ok bytes -> 0 <= a -> a + Z.of_nat (length bytes) <= len (mem s) ->
      driver_write s (set_mem (mem_store (mem s) a bytes) s).

(** C9.  Whatever a driver writes to the registers and stores in guest memory for the
    device to find, in any order, from a freshly opened disk on: every access
    terminates, the device stays well-formed, host memory outside guest RAM is never
    touched, and the image under an overlay or of a read-only disk is never
    modified. *)
Theorem virtio_blk_safe mb g path overlay_path ro raise f (s0 : blk) f' s :
  0 <= len g < 2 ^ 64 -> ram_ok (data g) ->
  VirtioBlk_new mb g path overlay_path ro raise f = (Ok s0, f') ->
  disk_bytes s0 < 2 ^ 63 -> (forall ov, overlay s0 = Some ov -> ov <> base s0) ->
  rtc driver_write s0 s ->
  blk_ok s /\
  only_writes (in_range 0 (len g)) (data g) (data (mem s)) /\
  (has_overlay s0 || read_only s0 = true ->
     contents (base s0) (host s) = contents (base s0) (host s0)) /\
  forall a bytes, bytes_ok bytes -> (write_mmio a bytes s).1 <> OutOfFuel.
Proof.
  intros Hl Hg Hnew Hsz Hd Hrun.
  apply VirtioBlk_new_ok in Hnew as (Hok0 & <- & _); [|done..].
  assert (Hinv : inv_dev s0 s).
  { assert (Hi0 : inv_dev s0 s0) by (split; [done|by apply dev_step_refl]).
    clear Hl Hg Hsz Hd Hok0. revert Hi0. generalize s0 at 1 3 as sb. 
    induction Hrun as [s|s1 s2 s3 [a bytes s1' o s2' Hb E|a bytes s1' Hb Ha Hn] Hrun IH]; intros sb Hi; [done|..];
      apply IH; [by apply (safe_inv _ _ _ _ _ _ (safe_write_mmio sb a bytes Hb) Hi E)|].
    by apply inv_dev_store. }
  destruct Hinv as [Hok Hst]. split_and!; [done|apply (dv_mem _ _ Hst)|by apply dev_step_image|].
  intros a bytes Hb. destruct (write_mmio a bytes s) as [o s'] eqn:E.
  by apply blk_write_safe in E as [? _].
Qed.

(** C12.  A queue notification serves the ring to its end: if no request fails, the
    device has consumed every head the driver published (its 16-bit cursor equals the
    index read from the avail ring), and it never loops for ever. *)
Theorem handle_queue_drains i (s : blk) :
  blk_ok s -> 0 <= i < 8 ->
  match handle_queue i s with
  | (Ok _, s') => blk_ok s' /\
      last_avail (queue s' i) = ReadU16 (load (data (mem s)) (u64 (driver_addr (queue s i) + 2)) 2)
  | (Throw _, s') => blk_ok s'
  | (OutOfFuel, _) => False
  end.
Proof.
  intros Hs Hi. pose proof (handle_queue_spec i s Hi Hs) as Hq.
  destruct (handle_queue i s) as [[u|e|] s']; [|apply Hq|done]. by destruct Hq as [[? _] ?].
Qed.
End Device.

(** ** A disk of eight sectors with an overlay, on the in-memory files *)
Module Demo.
#[local] Existing Instances MemFiles.mem_files MemFiles.mem_files_laws.

Definition host0 : MemFiles.files :=
  MemFiles.mkFiles (MemFiles.of_bytes (repeat 7 512 ++ repeat 8 512)) (MemFiles.of_bytes []) 4096 0 100.
Definition disk : VirtioBlk MemFiles.files bool :=
  mkBlk 0xD0000000 demo_mem true false (Some true) [0] 4096 8 false 0 0 0 0 0 0
    (repeat new_queue 8) 0 (MemFiles.set_pos host0 4096).

Lemma disk_opens :
  VirtioBlk_new 0xD0000000 demo_mem "rootfs" "overlay" false true host0 =
  (Ok disk, MemFiles.set_pos host0 4096).
Proof. reflexivity. Qed.

Lemma disk_ok : blk_ok disk.
Proof.
  eapply (VirtioBlk_new_ok 0xD0000000 demo_mem "rootfs" "overlay" false true host0).
  - done.
  - apply demo_mem_ok.
  - apply disk_opens.
  - done.
  - by intros ov [= <-].
Qed.

(** The driver fills an avail ring, then notifies queue 0. *)
Definition stored : VirtioBlk MemFiles.files bool := set_mem (mem_store (mem disk) 0x200 [0; 0; 1; 0; 0; 0]) disk.
Lemma virtio_blk_safe_witness :
  contents false (host (write_mmio 0xD0000050 [0; 0; 0; 0] stored).2) =
  contents false (MemFiles.set_pos host0 4096).
Proof.
  refine (proj1 (proj2 (proj2 (virtio_blk_safe 0xD0000000 demo_mem "rootfs" "overlay" false true host0
    disk (MemFiles.set_pos host0 4096) (write_mmio 0xD0000050 [0; 0; 0; 0] stored).2 _ _ _ _ _ _))) _).
  - done.
  - apply demo_mem_ok.
  - apply disk_opens.
  - done.
  - by intros ov [= <-].
  - apply rtc_l with stored.
    + apply driver_store_at; [by apply bytes_okb_ok|lia|by vm_compute].
    + eapply rtc_once, driver_write_at; [by apply (bytes_okb_ok [0; 0; 0; 0])|apply surjective_pairing].
  - done.
Defined.

Lemma ReadDisk_spec_witness :
  exists s', ReadDisk 1 0x3000 512 disk = (Ok tt, s') /\ data (mem s') 0x3000 = 8.
Proof.
  destruct (ReadDisk 1 0x3000 512 disk) as [o s'] eqn:E. exists s'.
  assert (o = Ok tt) as ->.
  { change o with (o, s').1. rewrite <- E. by vm_compute. }
  split; [reflexivity|].
  destruct (ReadDisk_spec 1 0x3000 512 disk s' disk_ok ltac:(lia) ltac:(lia) E) as (_ & Hd & _).
  rewrite Hd. vm_compute. reflexivity.
Defined.

(** A hundred bytes of sector 1: the rest of the sector is copied from the base. *)
Lemma WriteDisk_spec_witness :
  exists s', WriteDisk 1 0x100 100 disk = (Ok tt, s') /\ disk_view s' 513 = 16 /\ disk_view s' 700 = 8.
Proof.
  destruct (WriteDisk 1 0x100 100 disk) as [o s'] eqn:E. exists s'.
  assert (o = Ok tt) as ->.
  { change o with (o, s').1. rewrite <- E. by vm_compute. }
  split; [reflexivity|].
  destruct (WriteDisk_spec 1 0x100 100 disk (Ok tt) s' disk_ok ltac:(lia) ltac:(lia) E) as (_ & _ & _ & Hok).
  destruct (Hok eq_refl) as (_ & _ & Hv).
  split; (rewrite Hv; [by vm_compute|lia|right; right; by vm_compute]).
Defined.

Lemma handle_queue_drains_witness : blk_ok disk /\ (handle_queue 0 disk).1 <> OutOfFuel.
Proof.
  split; [exact disk_ok|]. pose proof (handle_queue_drains 0 disk disk_ok ltac:(done)) as Hq.
  destruct (handle_queue 0 disk) as [[u|e|] s']; [discriminate..|contradiction].
Defined.
End Demo.
