(* ===== verification/Rng.v ===== *)
(** * native/whp/virtio/rng.cc: the virtio-rng device

    The entropy device: one queue of up to 64 descriptors, null-returning pointer
    checks instead of exceptions, and the host's random generator (the system call
    BCryptGenRandom, a class parameter) writing straight into guest memory.  The
    theorems: the device is safe for any driver, and it raises an interrupt exactly
    when it consumed a buffer and the driver did not ask it not to. *)

From S2P Require Import Prelude Words Bytes GuestMemory VirtQueue.

(** [BCryptGenRandom(dst, n)]: [n] bytes, or a failure status. *)
Class Entropy (E : Type) := {
  gen_random : Z -> E -> option (list Z) * E;
  gen_random_spec n e bs e' :
    0 <= n -> gen_random n e = (Some bs, e') -> length bs = Z.to_nat n /\ bytes_ok bs
}.

Record VirtioRng (E : Type) := mkRng {
  mmio_base : Z; mem : GuestMemory; has_raise_irq : bool; queue : Queue;
  status : Z; drv_features : Z; dev_features_sel : Z; drv_features_sel : Z;
  queue_sel : Z; interrupt_status : Z;
  (** the calls of [raise_irq_] made so far, and the host's generator *)
  irqs : Z; entropy : E }.
Arguments mkRng {E}. Arguments mmio_base {E}. Arguments mem {E}. Arguments has_raise_irq {E}.
Arguments queue {E}. Arguments status {E}. Arguments drv_features {E}.
Arguments dev_features_sel {E}. Arguments drv_features_sel {E}. Arguments queue_sel {E}.
Arguments interrupt_status {E}. Arguments irqs {E}. Arguments entropy {E}.
#[export] Instance eta_VirtioRng E : Eta (VirtioRng E) := fun s =>
  mkRng (mmio_base s) (mem s) (has_raise_irq s) (queue s) (status s) (drv_features s)
    (dev_features_sel s) (drv_features_sel s) (queue_sel s) (interrupt_status s) (irqs s) (entropy s).

Definition kRngQueueSize : Z := 64.
Definition new_queue : Queue := mkQueue 64 false 0 0 0 0.

Section Rng.
Context {E : Type} `{Entropy E}.
Local Notation rng := (VirtioRng E).
Local Notation MR := (M rng).

Definition VirtioRng_new (mb : Z) (g : GuestMemory) (raise : bool) (e : E) : rng :=
  mkRng mb g raise new_queue 0 0 0 0 0 0 0 e.

Definition set_mem (g : GuestMemory) (s : rng) : rng := s <| mem := g |>.

(** The null pointer is [None]. *)
Definition ptr_or_null (s : rng) (gpa n : Z) : option Z :=
  if (len (mem s) <? gpa) || (u64 (len (mem s) - gpa) <? n) then None else Some gpa.

Definition guest_bytes (s : rng) (p n : Z) : list Z := load (data (mem s)) p n.

Fixpoint fill_random (fuel : nat) (dst n : Z) : MR unit :=
  if 0 <? n then
    match fuel with
    | O => fail_fuel
    | S fuel => fun s =>
        let chunk := Z.min n (2 ^ 20) in
        match gen_random chunk (entropy s) with
        | (None, e) => (Throw "BCryptGenRandom failed", s <| entropy := e |>)
        | (Some bs, e) =>
            fill_random fuel (dst + chunk) (n - chunk)
              (set_mem (mem_store (mem s) dst bs) (s <| entropy := e |>))
        end
    end
  else mret tt.

(** The loop of [service_chain] with [hops] rounds left; the result is [written]. *)
Fixpoint service_loop (hops : nat) (seen : gset Z) (idx written : Z) : MR Z :=
  match hops with
  | O => mret written
  | S hops => fun s =>
      let q := queue s in
      if (qsize q <=? idx) || bool_decide (idx ∈ seen) then (Ok written, s)
      else
        match ptr_or_null s (u64 (desc_addr q + idx * 16)) 16 with
        | None => (Ok written, s)
        | Some p =>
            let desc := read_desc (data (mem s)) p in
            ((if has (flags desc) kRingDescFWrite && (0 <? dlen desc) then
                match ptr_or_null s (addr desc) (dlen desc) with
                | Some dst =>
                    fill_random (Z.to_nat (dlen desc / 2 ^ 20 + 1)) dst (dlen desc) ≫= fun _ =>
                    mret (u32 (written + dlen desc))
                | None => mret written
                end
              else mret written) ≫= fun written =>
             if negb (has (flags desc) kRingDescFNext) then mret written
             else service_loop hops ({[ idx ]} ∪ seen) (next desc) written) s
        end
  end.

Definition service_chain (head : Z) : MR Z := fun s =>
  service_loop (Z.to_nat (qsize (queue s))) ∅ head 0 s.

Definition push_used (id written : Z) : MR unit := fun s =>
  let q := queue s in
  match ptr_or_null s (u64 (device_addr q + 2)) 2 with
  | None => (Ok tt, s)
  | Some idxp =>
      if qsize q =? 0 then (Ok tt, s)
      else
        let used := ReadU16 (guest_bytes s idxp 2) in
        let entry := u64 (device_addr q + 4 + used mod qsize q * 8) in
        match ptr_or_null s entry 8 with
        | None => (Ok tt, s)
        | Some elem =>
            let g := mem_store (mem s) elem (WriteU32 id) in
            let g := mem_store g (elem + 4) (WriteU32 written) in
            (Ok tt, set_mem (mem_store g idxp (WriteU16 (used + 1))) s)
        end
  end.

(** The loop of [handle_queue]; the result is [processed]. *)
Fixpoint queue_loop (fuel : nat) (avail_idx : Z) (processed : bool) : MR bool := fun s =>
  let q := queue s in
  if last_avail q =? avail_idx then (Ok processed, s)
  else
    match fuel with
    | O => (OutOfFuel, s)
    | S fuel =>
        match ptr_or_null s (u64 (driver_addr q + 4 + last_avail q mod qsize q * 2)) 2 with
        | None => (Ok processed, s)
        | Some headp =>
            let head := ReadU16 (guest_bytes s headp 2) in
            (service_chain head ≫= fun written =>
             push_used head written ≫= fun _ =>
             queue_loop fuel avail_idx true)
              (s <| queue := q <| last_avail := u16 (last_avail q + 1) |> |>)
        end
    end.

Definition handle_queue : MR unit := fun s =>
  let q := queue s in
  if negb (ready q) || (qsize q =? 0) || (desc_addr q =? 0) || (driver_addr q =? 0)
     || (device_addr q =? 0) then (Ok tt, s)
  else
    match ptr_or_null s (u64 (driver_addr q + 2)) 2 with
    | None => (Ok tt, s)
    | Some p =>
        let avail_idx := ReadU16 (guest_bytes s p 2) in
        (queue_loop (Z.to_nat (u16 (avail_idx - last_avail q))) avail_idx false ≫= fun processed =>
         when processed
           (gets (fun s => match ptr_or_null s (driver_addr (queue s)) 2 with
                           | Some flagsp => ReadU16 (guest_bytes s flagsp 2)
                           | None => 0
                           end) ≫= fun flags =>
            when (negb (has flags kRingAvailFNoInterrupt))
              (modify (fun s => s <| interrupt_status := Z.lor (interrupt_status s) kInterruptVring |>) ≫= fun _ =>
               modify (fun s => if has_raise_irq s then s <| irqs := irqs s + 1 |> else s)))) s
    end.

(** ** Registers *)

Definition read_reg (s : rng) (off : Z) : Z :=
  if off =? kMmioMagicValue then kMagic
  else if off =? kMmioVersion then kVersion
  else if off =? kMmioDeviceId then 4
  else if off =? kMmioVendorId then kVendor
  else if off =? kMmioDeviceFeatures then
    (if dev_features_sel s =? 1 then u32 (Z.shiftr kFVersion1 32) else 0)
  else if off =? kMmioQueueNumMax then 64
  else if off =? kMmioQueueReady then (if ready (queue s) then 1 else 0)
  else if off =? kMmioInterruptStatus then interrupt_status s
  else if off =? kMmioStatus then status s
  else 0.

Definition reset (s : rng) : rng :=
  let s := s <| status := 0 |> in
  let s := s <| drv_features := 0 |> in
  let s := s <| dev_features_sel := 0 |> in
  let s := s <| drv_features_sel := 0 |> in
  let s := s <| queue_sel := 0 |> in
  let s := s <| interrupt_status := 0 |> in
  s <| queue := new_queue |>.

Definition with_q (f : Queue -> Queue) : MR unit := modify (fun s => s <| queue := f (queue s) |>).

Definition write_reg (off value : Z) : MR unit :=
  gets queue_sel ≫= fun sel =>
  if off =? kMmioDeviceFeaturesSel then modify (fun s => s <| dev_features_sel := value |>)
  else if off =? kMmioDriverFeaturesSel then modify (fun s => s <| drv_features_sel := value |>)
  else if off =? kMmioDriverFeatures then
    modify (fun s => s <| drv_features :=
      if drv_features_sel s =? 0 then set_lo32 (drv_features s) value
      else set_hi32 (drv_features s) value |>)
  else if off =? kMmioQueueSel then modify (fun s => s <| queue_sel := value |>)
  else if off =? kMmioQueueNum then
    when ((sel =? 0) && (1 <=? value) && (value <=? 64)) (with_q (fun q => q <| qsize := value |>))
  else if off =? kMmioQueueReady then
    when (sel =? 0) (with_q (fun q => q <| ready := negb (value =? 0) |>))
  else if off =? kMmioQueueNotify then when (value =? 0) handle_queue
  else if off =? kMmioInterruptAck then
    modify (fun s => s <| interrupt_status := Z.land (interrupt_status s) (bnot 32 value) |>)
  else if off =? kMmioStatus then
    (if value =? 0 then modify reset else modify (fun s => s <| status := value |>))
  else if off =? kMmioQueueDescLow then with_q (fun q => q <| desc_addr := set_lo32 (desc_addr q) value |>)
  else if off =? kMmioQueueDescHigh then with_q (fun q => q <| desc_addr := set_hi32 (desc_addr q) value |>)
  else if off =? kMmioQueueDriverLow then with_q (fun q => q <| driver_addr := set_lo32 (driver_addr q) value |>)
  else if off =? kMmioQueueDriverHigh then with_q (fun q => q <| driver_addr := set_hi32 (driver_addr q) value |>)
  else if off =? kMmioQueueDeviceLow then with_q (fun q => q <| device_addr := set_lo32 (device_addr q) value |>)
  else if off =? kMmioQueueDeviceHigh then with_q (fun q => q <| device_addr := set_hi32 (device_addr q) value |>)
  else mret tt.

Definition read_mmio (s : rng) (a n : Z) : list Z :=
  if negb (n =? 4) then repeat 0 (Z.to_nat n)
  else WriteU32 (read_reg s (u32 (a - mmio_base s))).

Definition write_mmio (a : Z) (bytes : list Z) : MR unit :=
  gets mmio_base ≫= fun mb =>
  if negb (Z.of_nat (length bytes) =? 4) then mret tt
  else write_reg (u32 (a - mb)) (ReadU32 bytes).
End Rng.

(** ** Invariant and safety *)

Section Safety.
Context {E : Type} `{Entropy E}.
Local Notation rng := (VirtioRng E).
Local Notation MR := (M rng).

Record rng_ok (s : rng) : Prop := {
  ok_mem : 0 <= len (mem s) < 2 ^ 64;
  ok_ram : ram_ok (data (mem s));
  ok_queue : queue_ok kRngQueueSize (queue s);
  ok_status : 0 <= status s < 2 ^ 32;
  ok_features : 0 <= drv_features s < 2 ^ 64;
  ok_dev_sel : 0 <= dev_features_sel s < 2 ^ 32;
  ok_interrupt : 0 <= interrupt_status s < 2 ^ 32 }.

Lemma VirtioRng_new_ok mb g raise e : 0 <= len g < 2 ^ 64 -> ram_ok (data g) -> rng_ok (VirtioRng_new mb g raise e).
Proof. by split. Qed.

(** What serving one buffer leaves as it was. *)
Record rng_step (s0 s : rng) : Prop := {
  st_mem : mem_step (mem s0) (mem s);
  st_queue : queue s = queue s0;
  st_irqs : irqs s = irqs s0;
  st_interrupt : interrupt_status s = interrupt_status s0;
  st_raise : has_raise_irq s = has_raise_irq s0 }.

Lemma rng_step_refl (s : rng) : ram_ok (data (mem s)) -> rng_step s s.
Proof. intros. by split; [apply mem_step_refl|..]. Qed.

Lemma ptr_or_null_ok (s : rng) gpa n p :
  0 <= len (mem s) < 2 ^ 64 -> 0 <= gpa -> 0 <= n ->
  ptr_or_null s gpa n = Some p <-> p = gpa /\ gpa + n <= len (mem s).
Proof.
  intros Hl Hg Hn. unfold ptr_or_null. destruct (Z.ltb_spec (len (mem s)) gpa); cbn [orb].
  - split; [done|lia].
  - rewrite u64_small by lia. destruct (Z.ltb_spec (len (mem s) - gpa) n).
    + split; [done|lia].
    + split; [intros [= <-]; split; [done|lia]|by intros [-> _]].
Qed.

Definition inv (s0 s : rng) : Prop := rng_ok s /\ rng_step s0 s.

Lemma rng_inv_start (s : rng) : rng_ok s -> inv s s.
Proof. intros Hs. split; [done|apply rng_step_refl, Hs]. Qed.

Lemma rng_inv_set_mem (s0 s : rng) g : inv s0 s -> mem_step (mem s) g -> inv s0 (set_mem g s).
Proof.
  intros [Hok Hst] Hg. split.
  - destruct Hok; split; try done; cbn [mem set_mem upd_field].
    + by rewrite (step_len _ _ Hg).
    + apply Hg.
  - destruct Hst; split; try done. by eapply mem_step_trans.
Qed.

Lemma safe_fill_random (s0 : rng) : forall fuel dst n,
  n <= Z.of_nat fuel * 2 ^ 20 -> 0 <= n -> 0 <= dst -> dst + n <= len (mem s0) ->
  safe (inv s0) (fun _ => True) (fill_random fuel dst n).
Proof.
  induction fuel as [|fuel IH]; intros dst n Hf Hn Hd Hl s Hs; cbn [fill_random];
    destruct (Z.ltb_spec 0 n) as [Hpos|]; try done.
  { lia. }
  set (chunk := Z.min n (2 ^ 20)).
  destruct (gen_random chunk (entropy s)) as [[bs|] e] eqn:Eg;
    [|destruct Hs as [Hok Hst]; split; [by destruct Hok|by destruct Hst]].
  apply gen_random_spec in Eg as [Hbl Hb]; [|unfold chunk; lia].
  assert (He : inv s0 (s <| entropy := e |>))
    by (destruct Hs as [Hok Hst]; split; [by destruct Hok|by destruct Hst]).
  assert (Hlen : len (mem s) = len (mem s0)) by apply (st_mem _ _ (proj2 Hs)).
  apply IH.
  - unfold chunk. lia.
  - unfold chunk. lia.
  - unfold chunk. lia.
  - unfold chunk. lia.
  - change (mem s) with (mem (s <| entropy := e |>)). apply rng_inv_set_mem; [done|].
    apply store_step; [apply Hs..|done|done|]. rewrite Hbl. cbn [mem upd_field]. lia.
Qed.

Lemma safe_service_loop (s0 : rng) : forall hops seen idx written,
  0 <= idx -> safe (inv s0) (fun _ => True) (service_loop hops seen idx written).
Proof.
  induction hops as [|hops IH]; intros seen idx written Hidx; cbn [service_loop];
    [by apply safe_ret|].
  intros s Hs. destruct (_ || _); [done|].
  destruct (ptr_or_null s _ 16) as [p|] eqn:Ep; [|done].
  set (desc := read_desc (data (mem s)) p).
  assert (Hd : desc_ok desc) by (apply read_desc_ok, Hs). clearbody desc.
  revert s Hs Ep. intros s Hs _.
  assert (Hptr : forall dst, ptr_or_null s (addr desc) (dlen desc) = Some dst ->
            0 <= dst /\ dst + dlen desc <= len (mem s0)).
  { intros dst Hp. apply ptr_or_null_ok in Hp as [-> Hp]; [|apply Hs|apply Hd|apply Hd].
    rewrite (step_len _ _ (st_mem _ _ (proj2 Hs))) in Hp. split; [apply Hd|done]. }
  set (o := ptr_or_null s (addr desc) (dlen desc)) in *. clearbody o.
  revert s Hs Hptr. intros s Hs Hptr. revert s Hs.
  apply (safe_bind (inv s0) (fun _ => True)).
  - safe_step; [|by apply safe_ret]. destruct o as [dst|]; [|by apply safe_ret].
    destruct (Hptr dst eq_refl) as [Hp0 Hp1]. pose proof (ok_len _ Hd).
    eapply safe_bind; [apply safe_fill_random|intros _ _; by apply safe_ret]; try lia.
    pose proof (Z.div_mod (dlen desc) (2 ^ 20) ltac:(done)).
    pose proof (Z.mod_pos_bound (dlen desc) (2 ^ 20) ltac:(done)).
    rewrite Z2Nat.id by (pose proof (Z.div_pos (dlen desc) (2 ^ 20)); lia). lia.
  - intros w _. safe_step; [by apply safe_ret|]. apply IH, Hd.
Qed.

Lemma safe_service_chain (s0 : rng) head : 0 <= head ->
  safe (inv s0) (fun _ => True) (service_chain head).
Proof. intros Hh s Hs. unfold service_chain. by apply safe_service_loop. Qed.

Lemma rng_safe_push_used (s0 : rng) id written : safe (inv s0) (fun _ => True) (push_used id written).
Proof.
  intros s Hs. unfold push_used.
  destruct (ptr_or_null s _ 2) as [idxp|] eqn:E1; [|done].
  apply ptr_or_null_ok in E1 as [-> E1]; [|apply Hs|apply u64_range|done].
  destruct (qsize (queue s) =? 0); [done|]. set (used := ReadU16 _). cbv zeta.
  destruct (ptr_or_null s _ 8) as [elem|] eqn:E2; [|done].
  apply ptr_or_null_ok in E2 as [-> E2]; [|apply Hs|apply u64_range|done].
  set (idxp := u64 (device_addr _ + 2)) in *. set (elem := u64 (device_addr (queue s) + 4 + used mod qsize (queue s) * 8)) in *.
  assert (Hx : 0 <= idxp) by apply u64_range. assert (Hy : 0 <= elem) by apply u64_range.
  split; [|done]. apply rng_inv_set_mem; [done|]. destruct Hs as [Hok _].
  assert (H1 : mem_step (mem s) (mem_store (mem s) elem (WriteU32 id)))
    by (apply store_step; [apply Hok..|auto with bytes|done| autorewrite with bytes_len; lia]).
  set (g1 := mem_store (mem s) elem (WriteU32 id)) in *.
  assert (H2 : mem_step g1 (mem_store g1 (elem + 4) (WriteU32 written)))
    by (apply store_step; [apply Hok|apply H1|auto with bytes|lia|unfold g1; cbn [len mem_store upd_field]; autorewrite with bytes_len; lia]).
  eapply mem_step_trans; [exact H1|]. eapply mem_step_trans; [exact H2|].
  apply store_step; [apply Hok|apply H2|auto with bytes|done|cbn [len mem_store upd_field g1]; autorewrite with bytes_len; lia].
Qed.

(** A change of the queue cursor, then a safe computation, seen from the start. *)
Lemma rng_queue_loop_spec avail_idx : 0 <= avail_idx < 65536 -> forall fuel processed s,
  rng_ok s -> (Z.to_nat (u16 (avail_idx - last_avail (queue s))) <= fuel)%nat ->
  match queue_loop fuel avail_idx processed s with
  | (Ok p, s') => rng_ok s' /\ mem_step (mem s) (mem s') /\ irqs s' = irqs s /\
      interrupt_status s' = interrupt_status s /\ has_raise_irq s' = has_raise_irq s /\
      u16 (avail_idx - last_avail (queue s')) <= u16 (avail_idx - last_avail (queue s)) /\
      p = processed || negb (last_avail (queue s') =? last_avail (queue s))
  | (Throw _, s') => rng_ok s' /\ mem_step (mem s) (mem s') /\ irqs s' = irqs s
  | (OutOfFuel, _) => False
  end.
Proof.
  intros Ha. induction fuel as [|fuel IH]; intros processed s Hs Hf; cbn [queue_loop]; cbv zeta;
    pose proof (ok_queue s Hs) as Hq; pose proof (mem_step_refl (mem s) (ok_ram s Hs)) as Hm0.
  { destruct (Z.eqb_spec (last_avail (queue s)) avail_idx) as [|Hne].
    - rewrite Z.eqb_refl, orb_false_r. split_and!; done || lia.
    - pose proof (u16_dist_pos avail_idx (last_avail (queue s)) Ha (qok_last _ _ Hq) ltac:(congruence)). lia. }
  destruct (Z.eqb_spec (last_avail (queue s)) avail_idx) as [|Hne].
  { rewrite Z.eqb_refl, orb_false_r. split_and!; done || lia. }
  destruct (ptr_or_null s _ 2) as [headp|] eqn:Ep.
  2:{ rewrite Z.eqb_refl, orb_false_r. split_and!; done || lia. }
  set (head := ReadU16 _). set (q' := (queue s) <| last_avail := u16 (last_avail (queue s) + 1) |>). set (s1 := s <| queue := q' |>).
  assert (Hh : 0 <= head).
  { unfold head, guest_bytes. apply ReadU16_range; [apply load_ok, Hs|by rewrite length_load]. }
  assert (Hs1 : rng_ok s1).
  { destruct Hs; split; try done. destruct ok_queue0; split; try done; apply u16_range. }
  pose proof (safe_service_chain s1 head Hh s1 (rng_inv_start s1 Hs1)) as H1.
  rewrite bind_run. destruct (service_chain head s1) as [[w|e|] s2];
    [destruct H1 as [[Hs2 Hst2] _]|by destruct H1 as [? []]|done].
  pose proof (rng_safe_push_used s1 head w s2 (conj Hs2 Hst2)) as H2.
  rewrite bind_run. destruct (push_used head w s2) as [[u|e|] s3];
    [destruct H2 as [[Hs3 Hst3] _]|by destruct H2 as [? []]|done].
  assert (Hq3 : last_avail (queue s3) = u16 (last_avail (queue s) + 1))
    by (by rewrite (st_queue _ _ Hst3)).
  assert (Hdist : u16 (avail_idx - last_avail (queue s3)) = u16 (avail_idx - last_avail (queue s)) - 1)
    by (rewrite Hq3; apply u16_dist; [done|apply Hq|congruence]).
  specialize (IH true s3 Hs3 ltac:(lia)).
  destruct Hst3 as [Hm3 _ Hi3 Hint3 Hr3].
  change (irqs s1) with (irqs s) in Hi3. change (has_raise_irq s1) with (has_raise_irq s) in Hr3.
  change (interrupt_status s1) with (interrupt_status s) in Hint3.
  destruct (queue_loop fuel avail_idx true s3) as [[p|e|] s4].
  - destruct IH as (Hs4 & Hm4 & Hi4 & Hint4 & Hr4 & Hd4 & ->).
    split_and!; [done|by eapply mem_step_trans|congruence..|lia|].
    destruct (Z.eqb_spec (last_avail (queue s4)) (last_avail (queue s))) as [Heq|].
    + rewrite Heq in Hd4. lia.
    + by rewrite orb_true_r.
  - destruct IH as (Hs4 & Hm4 & Hi4). split_and!; [done|by eapply mem_step_trans|congruence].
  - done.
Qed.

(** The interrupt-suppression flag the driver left in the avail ring. *)
Definition no_interrupt (s : rng) : bool :=
  match ptr_or_null s (driver_addr (queue s)) 2 with
  | Some p => has (ReadU16 (guest_bytes s p 2)) kRingAvailFNoInterrupt
  | None => false
  end.

Lemma handle_queue_run (s : rng) :
  rng_ok s ->
  match handle_queue s with
  | (Ok _, s') => rng_ok s' /\ mem_step (mem s) (mem s') /\
      let consumed := negb (last_avail (queue s') =? last_avail (queue s)) in
      let raise := consumed && negb (no_interrupt s') in
      irqs s' = irqs s + (if raise && has_raise_irq s then 1 else 0) /\
      interrupt_status s' = if raise then Z.lor (interrupt_status s) kInterruptVring
                            else interrupt_status s
  | (Throw _, s') => rng_ok s' /\ mem_step (mem s) (mem s') /\ irqs s' = irqs s
  | (OutOfFuel, _) => False
  end.
Proof.
  intros Hs. unfold handle_queue. cbv zeta. pose proof (mem_step_refl (mem s) (ok_ram s Hs)) as Hm0.
  destruct (_ || _ || _ || _ || _).
  { rewrite Z.eqb_refl. cbn [negb andb]. split_and!; done || lia. }
  destruct (ptr_or_null s _ 2) as [p|] eqn:Ep.
  2:{ rewrite Z.eqb_refl. cbn [negb andb]. split_and!; done || lia. }
  set (avail_idx := ReadU16 _).
  assert (Ha : 0 <= avail_idx < 65536)
    by (apply ReadU16_range; [apply load_ok, Hs|unfold guest_bytes; by rewrite length_load]).
  rewrite bind_run.
  pose proof (rng_queue_loop_spec avail_idx Ha (Z.to_nat (u16 (avail_idx - last_avail (queue s)))) false s Hs
    ltac:(lia)) as HL.
  destruct (queue_loop _ avail_idx false s) as [[pr|e|] s1]; [|done|done].
  destruct HL as (Hs1 & Hm1 & Hi1 & Hint1 & Hr1 & _ & Hpr). cbn [orb] in Hpr.
  destruct pr; cbn [when];
    [|unfold mret, M_ret; cbv beta iota zeta; rewrite <- Hpr; cbn [andb]; split_and!; done || lia].
  rewrite gets_bind.
  set (fl := match ptr_or_null s1 _ 2 with Some flagsp => _ | None => _ end).
  assert (Hfl : has fl kRingAvailFNoInterrupt = no_interrupt s1)
    by (unfold fl, no_interrupt; by destruct (ptr_or_null s1 _ 2)).
  rewrite Hfl. destruct (no_interrupt s1) eqn:En; cbn [negb when].
  - unfold mret, M_ret; cbv beta iota zeta. rewrite <- Hpr. cbn [andb]. rewrite En. cbn [negb andb]. split_and!; done || lia.
  - rewrite modify_bind. unfold modify. set (s2 := s1 <| interrupt_status := _ |>).
    assert (Hs2 : rng_ok s2).
    { destruct Hs1; split; try done. by apply (lor_range _ _ 32). }
    change (has_raise_irq s2) with (has_raise_irq s1). rewrite <- Hr1.
    destruct (has_raise_irq s1);
      change (no_interrupt (s2 <| irqs := irqs s2 + 1 |>)) with (no_interrupt s1);
      change (no_interrupt s2) with (no_interrupt s1); rewrite En; cbn [queue upd_field];
      change (queue s2) with (queue s1); rewrite <- Hpr; cbn [andb negb];
      (split_and!; [by destruct Hs2|done|cbn; lia|cbn; by rewrite Hint1]).
Qed.

Definition inv_dev (s0 s : rng) : Prop := rng_ok s /\ mem_step (mem s0) (mem s).

Lemma rng_safe_handle_queue s0 : safe (inv_dev s0) (fun _ => True) handle_queue.
Proof.
  intros s [Hok Hst]. pose proof (handle_queue_run s Hok) as Hh.
  assert (Hi : forall s', rng_ok s' -> mem_step (mem s) (mem s') -> inv_dev s0 s')
    by (intros s' Hok' Hst'; split; [done|by eapply mem_step_trans]).
  destruct (handle_queue s) as [[u|e|] s'];
    [destruct Hh as (Hok' & Hm' & _)|destruct Hh as (Hok' & Hm' & _)|done];
    [split; [by apply Hi|done]|by apply Hi].
Qed.

Ltac regs := apply safe_modify; intros s [Hok Hst]; split; [|exact Hst];
  destruct Hok; split; try done; cbn.
Ltac queue_field := apply safe_modify; intros s [Hok Hst]; split; [|exact Hst];
  destruct Hok as [? ? Hq]; split; try done; destruct Hq; split; try done; cbn;
  first [by apply set_lo32_range | by apply set_hi32_range | unfold kRngQueueSize; lia].

Lemma rng_safe_write_reg s0 off value :
  0 <= value < 2 ^ 32 -> safe (inv_dev s0) (fun _ => True) (write_reg off value).
Proof.
  intros Hv. unfold write_reg, with_q. safe_step; [any_result|].
  safe_cases; [..|by apply safe_ret].
  - regs.
  - regs.
  - regs. destruct (drv_features_sel s =? 0); [by apply set_lo32_range|by apply set_hi32_range].
  - regs.
  - apply safe_when. intros Hc. queue_field.
  - apply safe_when. intros Hc. queue_field.
  - apply safe_when. intros _. apply rng_safe_handle_queue.
  - regs. rewrite Z.land_comm. apply (land_range _ _ 32); lia.
  - safe_step; [|by regs]. regs.
  - queue_field.
  - queue_field.
  - queue_field.
  - queue_field.
  - queue_field.
  - queue_field.
Qed.

Lemma rng_write_safe a bytes (s s' : rng) o :
  rng_ok s -> bytes_ok bytes -> write_mmio a bytes s = (o, s') ->
  o <> OutOfFuel /\ rng_ok s' /\ mem_step (mem s) (mem s').
Proof.
  intros Hs Hb E'. 
  assert (Hw : safe (inv_dev s) (fun _ => True) (write_mmio a bytes)).
  { unfold write_mmio. safe_step; [any_result|]. safe_step; [by apply safe_ret|].
    apply rng_safe_write_reg, ReadU32_range; [done|]. destruct (Z.eqb_spec (Z.of_nat (length bytes)) 4); [lia|done]. }
  apply (safe_inv _ _ _ _ _ _ Hw (conj Hs (mem_step_refl _ (ok_ram s Hs))) E').
Qed.

(** For any driver: from a well-formed device, a register write terminates,
    keeps the device well-formed and writes no host memory outside guest RAM, also
    when the host's generator fails half-way through a buffer. *)
Theorem virtio_rng_safe a bytes (s s' : rng) o :
  rng_ok s -> bytes_ok bytes -> write_mmio a bytes s = (o, s') ->
  o <> OutOfFuel /\ rng_ok s' /\ mem_step (mem s) (mem s').
Proof. apply rng_write_safe. Qed.

(** Serving the queue raises the used-buffer interrupt exactly when at least one
    head was consumed and, at the end, the driver's avail flags do not suppress it. *)
Theorem virtio_rng_interrupt (s s' : rng) :
  rng_ok s -> handle_queue s = (Ok tt, s') ->
  let consumed := negb (last_avail (queue s') =? last_avail (queue s)) in
  let raise := consumed && negb (no_interrupt s') in
  irqs s' = irqs s + (if raise && has_raise_irq s then 1 else 0) /\
  interrupt_status s' = if raise then Z.lor (interrupt_status s) kInterruptVring
                        else interrupt_status s.
Proof.
  intros Hs E'. pose proof (handle_queue_run s Hs) as Hr. rewrite E' in Hr. apply Hr.
Qed.
End Safety.

(** A generator that returns zeros, and a device with one published buffer. *)
Module Demo.
#[local] Instance zeros : Entropy unit.
Proof.
  refine {| gen_random n e := (Some (repeat 0 (Z.to_nat n)), e) |}.
  intros n e bs e' _ [= <- <-]. split; [apply repeat_length|].
  apply Forall_forall. intros x Hx%repeat_spec. by subst.
Defined.

Definition ring : ram :=
  store (store (fun _ => 0) 0x100 (WriteU64 0x1000 ++ WriteU32 32 ++ WriteU16 2 ++ WriteU16 0))
    0x200 (WriteU16 0 ++ WriteU16 1 ++ WriteU16 0).
Definition dev : VirtioRng unit :=
  mkRng 0xD0001000 (mkGuestMemory ring 0x10000) true (mkQueue 64 true 0 0x100 0x200 0x300) 15 0 0 0 0 0 0 tt.

Lemma dev_ok : rng_ok dev.
Proof.
  split; try done.
  cbn. apply store_ok; [apply store_ok; [done|by apply bytes_okb_ok]|by apply bytes_okb_ok].
Qed.

Lemma virtio_rng_safe_witness :
  (write_mmio 0xD0001050 [0; 0; 0; 0] dev).1 <> OutOfFuel.
Proof.
  apply (virtio_rng_safe 0xD0001050 [0; 0; 0; 0] dev (write_mmio 0xD0001050 [0; 0; 0; 0] dev).2).
  - apply dev_ok.
  - by apply bytes_okb_ok.
  - apply surjective_pairing.
Defined.

Lemma virtio_rng_interrupt_witness : irqs (handle_queue dev).2 = 1.
Proof.
  destruct (virtio_rng_interrupt dev (handle_queue dev).2 dev_ok) as [Hi _].
  - rewrite (surjective_pairing (handle_queue dev)) at 1. f_equal.
  - rewrite Hi. vm_compute. reflexivity.
Defined.
End Demo.
