(* ===== verification/Irq.v ===== *)
(** * native/whp/irq.cc: delivering external interrupts to a virtual processor

    The Windows Hypervisor Platform is the class [WhpApi]: calls on the state of a
    partition, which may fail.  [WhpApiLaws] states its documented behaviour through
    the registers a call can be observed by.  The theorems give the outcome of
    [TryDeliverPendingExtInt] on every branch: an event is injected only when the
    guest can take it, an injection leaves no stale window behind, and a deferred
    interrupt keeps a window armed. *)

From S2P Require Import Prelude Words.
From S2P Require PageTables.

(** ** The hypervisor interface *)

(** The registers the monitor names in its calls. *)
Inductive reg_name :=
  | Rax | Rbx | Rcx | Rdx | Rsi | Rdi | Rbp | Rsp | Rip | Rflags
  | Cs | Ds | Es | Ss | Fs | Gs | Gdtr | Idtr | Ldtr | Tr
  | Cr0 | Cr3 | Cr4 | Efer | Pat | MsrMtrrDefType | ApicBase
  | InterruptState | PendingEvent | DeliverabilityNotifications | InternalActivityState.
#[export] Instance reg_name_eq_dec : EqDecision reg_name.
Proof. solve_decision. Defined.

(** WHV_REGISTER_VALUE: the members of the union the code uses. *)
Record reg_value := mkReg {
  Reg64 : Z; InterruptShadow : bool; EventPending : bool; EventType : Z; Vector : Z;
  InterruptNotification : bool; HaltSuspend : bool;
  SegmentReg : PageTables.Segment_t; TableReg : PageTables.Table_t }.
#[export] Instance eta_reg_value : Eta reg_value := fun v =>
  mkReg (Reg64 v) (InterruptShadow v) (EventPending v) (EventType v) (Vector v)
    (InterruptNotification v) (HaltSuspend v) (SegmentReg v) (TableReg v).
(** [WHV_REGISTER_VALUE value{};] *)
Definition zero_value : reg_value :=
  mkReg 0 false false 0 0 false false (PageTables.mkSegment 0 0 0 0) (PageTables.mkTable 0 0).
Definition WHvX64PendingEventExtInt : Z := 5.

Record interrupt_control := mkControl {
  Destination : Z; ControlVector : Z; LevelTriggered : bool; LogicalDestination : bool; ControlType : Z }.

Class WhpApi (W : Type) := {
  (** [false] when the HRESULT is a failure. *)
  request_interrupt : interrupt_control -> W -> bool * W;
  get_vp_registers : Z -> list reg_name -> W -> option (list reg_value) * W;
  set_vp_registers : Z -> list (reg_name * reg_value) -> W -> bool * W
}.

(** The value a list of assignments leaves in register [n]. *)
Definition assigned (nvs : list (reg_name * reg_value)) (n : reg_name) (v : reg_value) : reg_value :=
  fold_left (fun v '(m, x) => if decide (n = m) then x else v) nvs v.

(** [reg vp n w] is the register as a read would return it. *)
Class WhpApiLaws (W : Type) `{WhpApi W} := {
  reg : Z -> reg_name -> W -> reg_value;
  get_regs vp ns w r w' vp' n :
    get_vp_registers vp ns w = (r, w') -> reg vp' n w' = reg vp' n w;
  get_values vp ns w vs w' :
    get_vp_registers vp ns w = (Some vs, w') -> vs = map (fun n => reg vp n w) ns;
  set_ok vp nvs w w' vp' n :
    set_vp_registers vp nvs w = (true, w') ->
    reg vp' n w' = if decide (vp' = vp) then assigned nvs n (reg vp' n w) else reg vp' n w;
  set_fail vp nvs w w' vp' n :
    set_vp_registers vp nvs w = (false, w') -> reg vp' n w' = reg vp' n w
}.

(** ** irq.h *)

Record WhpVcpuIrqState := mkVcpu {
  index : Z; interruptable : bool; interrupt_flag : bool; interruption_pending : bool;
  ready_for_pic_interrupt : bool; window_registered : bool;
  ext_int_pending : bool; ext_int_vector : Z }.
#[export] Instance eta_Vcpu : Eta WhpVcpuIrqState := fun s =>
  mkVcpu (index s) (interruptable s) (interrupt_flag s) (interruption_pending s)
    (ready_for_pic_interrupt s) (window_registered s) (ext_int_pending s) (ext_int_vector s).

Definition new_vcpu (i : Z) : WhpVcpuIrqState := mkVcpu i true true false false false false 0.

Record InterruptibilitySnapshot := mkSnapshot { if_set : bool; shadow : bool; event_pending : bool }.

Inductive InjectDecision := kNoPending | kInject | kArmWindow.

(** The fields of WHV_RUN_VP_EXIT_CONTEXT that [UpdateVcpuFromExit] reads. *)
Record exit_state := mkExit { ExitInterruptionPending : bool; ExitInterruptShadow : bool; ExitRflags : Z }.

Section Irq.
Context {W : Type} `{WhpApi W}.

Definition RequestFixedInterrupt (vector : Z) (w : W) : bool * W :=
  request_interrupt (mkControl 0 vector false false 0) w.

Definition ReadInterruptibility (vp : Z) (w : W) : option InterruptibilitySnapshot * W :=
  match get_vp_registers vp [Rflags; InterruptState; PendingEvent] w with
  | (Some [rf; st; pe], w') => (Some (mkSnapshot (has (Reg64 rf) 0x200) (InterruptShadow st) (EventPending pe)), w')
  | (_, w') => (None, w')
  end.

Definition SetPendingExtInt (vp vector : Z) (w : W) : bool * W :=
  let value := zero_value <| EventPending := true |> in
  let value := value <| EventType := WHvX64PendingEventExtInt |> in
  let value := value <| Vector := Z.land vector 0xFF |> in
  set_vp_registers vp [(PendingEvent, value)] w.

Definition vstate : Type := WhpVcpuIrqState * W.

Definition ArmInterruptWindow (s : vstate) : vstate :=
  let '(vcpu, w) := s in
  if window_registered vcpu then s
  else
    let value := zero_value <| InterruptNotification := true |> in
    let '(ok, w) := set_vp_registers (index vcpu) [(DeliverabilityNotifications, value)] w in
    (if ok then vcpu <| window_registered := true |> else vcpu, w).

Definition DisarmInterruptWindow (s : vstate) : vstate :=
  let '(vcpu, w) := s in
  if negb (window_registered vcpu) then s
  else
    let value := zero_value <| InterruptNotification := false |> in
    let '(_, w) := set_vp_registers (index vcpu) [(DeliverabilityNotifications, value)] w in
    (vcpu <| window_registered := false |>, w).

Definition UpdateVcpuFromExit (x : exit_state) (vcpu : WhpVcpuIrqState) : WhpVcpuIrqState :=
  let vcpu := vcpu <| interruption_pending := ExitInterruptionPending x |> in
  let vcpu := vcpu <| interruptable := negb (ExitInterruptShadow x) |> in
  vcpu <| interrupt_flag := has (ExitRflags x) 0x200 |>.

Definition KickVcpuOutOfHlt (vp : Z) (w : W) : W :=
  match get_vp_registers vp [InternalActivityState] w with
  | (Some [value], w) =>
      if HaltSuspend value then
        (set_vp_registers vp [(InternalActivityState, value <| HaltSuspend := false |>)] w).2
      else w
  | (_, w) => w
  end.

Definition EvaluateInjectDecision (vcpu : WhpVcpuIrqState) : InjectDecision :=
  if negb (ext_int_pending vcpu) then kNoPending
  else if ready_for_pic_interrupt vcpu && interruptable vcpu && interrupt_flag vcpu &&
          negb (interruption_pending vcpu)
  then kInject else kArmWindow.

Definition TryDeliverPendingExtInt (s : vstate) : bool * vstate :=
  let '(vcpu, w) := s in
  let defer := fun s => (false, ArmInterruptWindow s) in
  match EvaluateInjectDecision vcpu with
  | kNoPending => (true, s)
  | kArmWindow => defer s
  | kInject =>
      let '(ok, w) := SetPendingExtInt (index vcpu) (ext_int_vector vcpu) w in
      if ok then
        let vcpu := vcpu <| ext_int_pending := false |> in
        let vcpu := vcpu <| ready_for_pic_interrupt := false |> in
        let w := KickVcpuOutOfHlt (index vcpu) w in
        (true, DisarmInterruptWindow (vcpu, w))
      else defer (vcpu, w)
  end.

(** ** backend.cc: the events around a delivery

    The producers of legacy interrupts and the two exits that make the guest ready. *)
Definition PostExtInt (vector : Z) (vcpu : WhpVcpuIrqState) : WhpVcpuIrqState :=
  let vcpu := vcpu <| ext_int_vector := vector |> in vcpu <| ext_int_pending := true |>.

Definition OnHalt (s : vstate) : vstate :=
  let '(vcpu, w) := s in
  let vcpu := vcpu <| ready_for_pic_interrupt := interruptable vcpu && interrupt_flag vcpu |> in
  if ext_int_pending vcpu then (TryDeliverPendingExtInt (vcpu, w)).2 else (vcpu, w).

Definition OnInterruptWindow (s : vstate) : vstate :=
  let '(vcpu, w) := s in
  let vcpu := vcpu <| ready_for_pic_interrupt := interruptable vcpu && interrupt_flag vcpu |> in
  let vcpu := vcpu <| window_registered := false |> in
  if ext_int_pending vcpu then (TryDeliverPendingExtInt (vcpu, w)).2 else (vcpu, w).
End Irq.

(** ** Properties *)

Section Facts.
Context {W : Type} `{WhpApiLaws W}.

Definition deliverable (vcpu : WhpVcpuIrqState) : bool :=
  ready_for_pic_interrupt vcpu && interruptable vcpu && interrupt_flag vcpu &&
  negb (interruption_pending vcpu).

(** The event a successful injection leaves pending. *)
Definition ext_int_event (vector : Z) : reg_value :=
  let v := zero_value <| EventPending := true |> in
  let v := v <| EventType := WHvX64PendingEventExtInt |> in
  v <| Vector := Z.land vector 0xFF |>.

Lemma set_regs vp n v w ok w' vp' n' :
  set_vp_registers vp [(n, v)] w = (ok, w') ->
  reg vp' n' w' = if ok && bool_decide (vp' = vp /\ n' = n) then v else reg vp' n' w.
Proof.
  intros E. destruct ok; cbn [andb]; [|by eapply set_fail].
  rewrite (set_ok _ _ _ _ _ _ E). unfold assigned. cbn [fold_left].
  case_decide; [case_decide|];
    [rewrite bool_decide_eq_true_2 by tauto | rewrite bool_decide_eq_false_2 by tauto..]; done.
Qed.

(** The values the monitor writes to open and close an interrupt window, and the states
    in which it makes the calls of a delivery. *)
Definition window_value (b : bool) : reg_value := zero_value <| InterruptNotification := b |>.
Definition after_event (vcpu : WhpVcpuIrqState) (w : W) : bool * W :=
  set_vp_registers (index vcpu) [(PendingEvent, ext_int_event (ext_int_vector vcpu))] w.

Lemma Arm_spec vcpu (w : W) vcpu' w' :
  ArmInterruptWindow (vcpu, w) = (vcpu', w') ->
  (exists b, vcpu' = vcpu <| window_registered := b |>) /\
  window_registered vcpu' = window_registered vcpu ||
    (set_vp_registers (index vcpu) [(DeliverabilityNotifications, window_value true)] w).1 /\
  (window_registered vcpu' = true -> window_registered vcpu = false ->
     InterruptNotification (reg (index vcpu) DeliverabilityNotifications w') = true) /\
  (forall vp n, ~ (vp = index vcpu /\ n = DeliverabilityNotifications) -> reg vp n w' = reg vp n w).
Proof.
  unfold ArmInterruptWindow. fold (window_value true). destruct (window_registered vcpu) eqn:Ew.
  - intros [= <- <-]. rewrite Ew. split_and!; try done. exists true. by destruct vcpu; cbn in *; subst.
  - destruct (set_vp_registers _ _ w) as [ok w1] eqn:E. intros [= <- <-].
    assert (HR : forall vp n, _) by (intros vp n; exact (set_regs _ _ _ _ _ _ vp n E)).
    split_and!.
    + destruct ok; [by exists true|]. exists false. by destruct vcpu; cbn in *; subst.
    + by destruct ok.
    + intros Hw _. destruct ok; [|cbn in Hw; congruence]. rewrite HR. cbn [andb].
      by rewrite bool_decide_eq_true_2.
    + intros vp n Hn. rewrite HR, bool_decide_eq_false_2 by done. by rewrite andb_false_r.
Qed.

Lemma Kick_regs vp w vp' n :
  ~ (vp' = vp /\ n = InternalActivityState) -> reg vp' n (KickVcpuOutOfHlt vp w) = reg vp' n w.
Proof.
  intros Hn. unfold KickVcpuOutOfHlt.
  destruct (get_vp_registers vp [InternalActivityState] w) as [o w1] eqn:E.
  pose proof (get_regs _ _ _ _ _ vp' n E) as Hg.
  destruct o as [[|v [|]]|]; try done. destruct (HaltSuspend v); [|done].
  destruct (set_vp_registers vp _ w1) as [ok w2] eqn:E2. cbn [snd].
  rewrite (set_regs _ _ _ _ _ _ vp' n E2), bool_decide_eq_false_2, andb_false_r by done. done.
Qed.

(** The hypervisor refuses to read or to write the activity state of [vp]. *)
Definition kick_refused (vp : Z) (w : W) : Prop :=
  let v := reg vp InternalActivityState w in
  (get_vp_registers vp [InternalActivityState] w).1 = None \/
  (set_vp_registers vp [(InternalActivityState, v <| HaltSuspend := false |>)]
     (get_vp_registers vp [InternalActivityState] w).2).1 = false.

(** The kick ends a halt. *)
Lemma Kick_wakes vp w :
  HaltSuspend (reg vp InternalActivityState (KickVcpuOutOfHlt vp w)) = true -> kick_refused vp w.
Proof.
  unfold KickVcpuOutOfHlt, kick_refused.
  destruct (get_vp_registers vp [InternalActivityState] w) as [o w1] eqn:E.
  pose proof (get_regs _ _ _ _ _ vp InternalActivityState E) as Hg.
  destruct o as [vs|]; [|by left]. apply get_values in E as ->. cbn [map fst snd].
  destruct (HaltSuspend (reg vp InternalActivityState w)) eqn:Hh; [|intros Ht; congruence].
  destruct (set_vp_registers vp _ w1) as [ok w2] eqn:E2. cbn [snd].
  rewrite (set_regs _ _ _ _ _ _ vp InternalActivityState E2), bool_decide_eq_true_2 by done.
  destruct ok; cbn [andb]; [done|]. by right.
Qed.

Lemma Disarm_spec vcpu (w : W) vcpu' w' :
  DisarmInterruptWindow (vcpu, w) = (vcpu', w') ->
  vcpu' = vcpu <| window_registered := false |> /\
  (window_registered vcpu = true ->
   InterruptNotification (reg (index vcpu) DeliverabilityNotifications w') = true ->
   (set_vp_registers (index vcpu) [(DeliverabilityNotifications, window_value false)] w).1 = false) /\
  (forall vp n, ~ (vp = index vcpu /\ n = DeliverabilityNotifications) -> reg vp n w' = reg vp n w).
Proof.
  unfold DisarmInterruptWindow. fold (window_value false). destruct (window_registered vcpu) eqn:Ew; cbn [negb].
  - destruct (set_vp_registers _ _ w) as [ok w1] eqn:E. intros [= <- <-].
    assert (HR : forall vp n, _) by (intros vp n; exact (set_regs _ _ _ _ _ _ vp n E)).
    split; [done|]. split.
    + intros _. rewrite HR, bool_decide_eq_true_2 by done. by destruct ok.
    + intros vp n Hn. rewrite HR, bool_decide_eq_false_2 by done. by rewrite andb_false_r.
  - intros [= <- <-]. split; [|done]. by destruct vcpu; cbn in *; subst.
Qed.

(** C31.  Every branch of [TryDeliverPendingExtInt].  With nothing pending it does
    nothing.  Otherwise it returns true exactly when it injected: the guest was
    ready, outside an interrupt shadow, with IF set and no event pending; the
    processor now has an ExtInt with the low 8 bits of the latest vector pending, the
    request is consumed, the window is closed (in the monitor, and in the hypervisor
    unless it refuses that call) and the processor is out of HLT unless the hypervisor
    refuses the kick.  It returns false only when the guest was not ready or the
    hypervisor refused the event; the request then stays pending, no processor received
    an event, and a window is armed - one was, or the hypervisor is asked for one and
    grants it - so that the delivery will be tried again.  No other register of any
    processor changes. *)
Theorem TryDeliver_spec vcpu (w : W) b vcpu' w' :
  TryDeliverPendingExtInt (vcpu, w) = (b, (vcpu', w')) ->
  if negb (ext_int_pending vcpu) then b = true /\ vcpu' = vcpu /\ w' = w
  else if b then
    let w1 := (after_event vcpu w).2 in
    deliverable vcpu = true /\
    reg (index vcpu) PendingEvent w' = ext_int_event (ext_int_vector vcpu) /\
    ext_int_pending vcpu' = false /\ ready_for_pic_interrupt vcpu' = false /\
    window_registered vcpu' = false /\ deliverable vcpu' = false /\
    (HaltSuspend (reg (index vcpu) InternalActivityState w') = true -> kick_refused (index vcpu) w1) /\
    (window_registered vcpu = true ->
     InterruptNotification (reg (index vcpu) DeliverabilityNotifications w') = true ->
     (set_vp_registers (index vcpu) [(DeliverabilityNotifications, window_value false)]
        (KickVcpuOutOfHlt (index vcpu) w1)).1 = false) /\
    (forall vp n, vp <> index vcpu \/ n ∉ [PendingEvent; InternalActivityState; DeliverabilityNotifications] ->
       reg vp n w' = reg vp n w)
  else
    let w1 := if deliverable vcpu then (after_event vcpu w).2 else w in
    (deliverable vcpu = true -> (after_event vcpu w).1 = false) /\
    ext_int_pending vcpu' = true /\ ext_int_vector vcpu' = ext_int_vector vcpu /\
    window_registered vcpu' = window_registered vcpu ||
      (set_vp_registers (index vcpu) [(DeliverabilityNotifications, window_value true)] w1).1 /\
    (window_registered vcpu' = true -> window_registered vcpu = false ->
       InterruptNotification (reg (index vcpu) DeliverabilityNotifications w') = true) /\
    (forall vp n, ~ (vp = index vcpu /\ n = DeliverabilityNotifications) -> reg vp n w' = reg vp n w).
Proof.
  unfold TryDeliverPendingExtInt, EvaluateInjectDecision. fold (deliverable vcpu).
  destruct (ext_int_pending vcpu) eqn:Ep; cbn [negb]; [|by intros [= <- <- <-]].
  destruct (deliverable vcpu) eqn:Ed.
  - unfold SetPendingExtInt. fold (ext_int_event (ext_int_vector vcpu)) (after_event vcpu w).
    destruct (after_event vcpu w) as [ok w1] eqn:E.
    pose proof (fun vp n => set_regs _ _ _ _ _ _ vp n E) as HR. cbn [fst snd]. destruct ok.
    + destruct (DisarmInterruptWindow _) as [v2 w2] eqn:E2. intros [= <- <- <-].
      apply Disarm_spec in E2 as (-> & Hclose & Hoth). cbn [index window_registered upd_field] in *.
      split_and!; try done.
      * rewrite Hoth, Kick_regs, HR, bool_decide_eq_true_2 by (by intros [_ ?] || done). done.
      * rewrite Hoth by (by intros [_ ?]). apply Kick_wakes.
      * intros vp n Hn. rewrite Hoth, Kick_regs, HR, bool_decide_eq_false_2;
          [by rewrite andb_false_r|intros [-> ->]; set_solver..].
    + destruct (ArmInterruptWindow (vcpu, w1)) as [v2 w2] eqn:E2. intros [= <- <- <-].
      apply Arm_spec in E2 as ([b0 ->] & Hkeep & Hnew & Hoth). split_and!; try done.
      intros vp n Hn. rewrite Hoth by done. by rewrite HR.
  - destruct (ArmInterruptWindow (vcpu, w)) as [v2 w2] eqn:E2. intros [= <- <- <-].
    apply Arm_spec in E2 as ([b0 ->] & Hkeep & Hnew & Hoth). by split_and!.
Qed.

(** There is one pending slot: a legacy interrupt posted while another waits
    replaces it, and the delivery that follows injects only the newer vector. *)
Theorem PostExtInt_overwrites v1 v2 vcpu (w : W) vcpu' w' :
  TryDeliverPendingExtInt (PostExtInt v2 (PostExtInt v1 vcpu), w) = (true, (vcpu', w')) ->
  reg (index vcpu) PendingEvent w' = ext_int_event v2 /\ ext_int_pending vcpu' = false.
Proof.
  unfold TryDeliverPendingExtInt, EvaluateInjectDecision, PostExtInt.
  cbn [ext_int_pending negb upd_field]. destruct (_ && _ && _ && _); [|by intros [=]].
  unfold SetPendingExtInt. cbn [index ext_int_vector upd_field].
  destruct (set_vp_registers _ _ w) as [ok w1] eqn:E. destruct ok; [|by intros [=]].
  destruct (DisarmInterruptWindow _) as [v w2] eqn:E2. intros [= <- <-].
  apply Disarm_spec in E2 as (-> & _ & Hoth). split; [|done].
  rewrite Hoth, Kick_regs by (by intros [_ ?]). cbn [index upd_field].
  by rewrite (set_regs _ _ _ _ _ _ _ _ E), bool_decide_eq_true_2.
Qed.
End Facts.

(** ** A partition whose calls always succeed *)
Module Demo.
Definition regs : Type := Z -> reg_name -> reg_value.
#[export] Instance api : WhpApi regs := {|
  request_interrupt c w := (true, w);
  get_vp_registers vp ns w := (Some (map (w vp) ns), w);
  set_vp_registers vp nvs w :=
    (true, fun vp' n => if decide (vp' = vp) then assigned nvs n (w vp' n) else w vp' n) |}.
#[export] Instance api_laws : WhpApiLaws regs.
Proof.
  apply (Build_WhpApiLaws _ _ (fun vp n w => w vp n)); cbn.
  - by intros vp ns w r w' vp' n [= _ <-].
  - by intros vp ns w vs w' [= <- _].
  - by intros vp nvs w w' vp' n [= <-].
  - by intros vp nvs w w' vp' n [=].
Defined.

Definition w0 : regs := fun _ n =>
  if decide (n = InternalActivityState) then zero_value <| HaltSuspend := true |> else zero_value.
Definition waiting : WhpVcpuIrqState := mkVcpu 0 true true false true true true 0x130.
Definition masked_cpu : WhpVcpuIrqState := waiting <| interrupt_flag := false |> <| window_registered := false |>.

(** A halted processor gets its interrupt and wakes; one with IF clear gets a window. *)
Lemma TryDeliver_spec_witness :
  let r := TryDeliverPendingExtInt (waiting, w0) in
  let d := TryDeliverPendingExtInt (masked_cpu, w0) in
  (reg 0 PendingEvent r.2.2 = ext_int_event 0x130 /\ HaltSuspend (reg 0 InternalActivityState r.2.2) = false) /\
  window_registered d.2.1 = true.
Proof.
  intros r d. split.
  - pose proof (TryDeliver_spec waiting w0 true r.2.1 r.2.2 eq_refl) as Hd.
    cbn [ext_int_pending waiting negb] in Hd. destruct Hd as (_ & Hev & _ & _ & _ & _ & Hk & _). split; [exact Hev|].
    destruct (HaltSuspend _) eqn:Hh; [|reflexivity]. exfalso.
    destruct (Hk eq_refl) as [Hc|Hc]; vm_compute in Hc; discriminate.
  - pose proof (TryDeliver_spec masked_cpu w0 false d.2.1 d.2.2 eq_refl) as Hd.
    destruct Hd as (_ & _ & _ & Hw & _). rewrite Hw. reflexivity.
Defined.

Lemma PostExtInt_overwrites_witness :
  let r := TryDeliverPendingExtInt (PostExtInt 0x34 (PostExtInt 0x30 waiting), w0) in
  reg 0 PendingEvent r.2.2 = ext_int_event 0x34.
Proof.
  intros r. apply (PostExtInt_overwrites 0x30 0x34 waiting w0 r.2.1 r.2.2). reflexivity.
Defined.
End Demo.
