(* ===== verification/Clock.v ===== *)
(** * std::chrono::steady_clock

    The host clock is a stream of readings in nanoseconds: each [Clock::now()] of the
    source consumes one, so that two calls in the same function may differ. *)

From S2P Require Import Prelude.

Record Clock := mkClock { readings : nat -> Z; cursor : nat }.
#[export] Instance eta_Clock : Eta Clock := fun c => mkClock (readings c) (cursor c).
Definition clock_now (c : Clock) : Z := readings c (cursor c).
Definition clock_tick (c : Clock) : Clock := c <| cursor := S (cursor c) |>.

(** A steady clock never goes back. *)
Definition steady (c : Clock) : Prop := forall i j, (i <= j)%nat -> readings c i <= readings c j.
