(* ===== verification/Pit.v ===== *)
(** * native/whp/devices/pit.cc: the 8254 interval timer

    The theorems: programming a counter and
    reading it back, the coalescing of missed ticks by [poll_irq0], and the exact
    range in which the counter follows the elapsed time. *)

From S2P Require Import Prelude Words Clock.

(** ** State *)

Definition kPitHz : Z := 1193182.

Record Channel := mkChannel {
  reload : Z; latch : Z; latch_valid : bool; access : Z; mode : Z;
  write_phase : Z; read_phase : Z; start : Z; next_irq : Z; irq_enabled : bool }.
#[export] Instance eta_Channel : Eta Channel := fun c =>
  mkChannel (reload c) (latch c) (latch_valid c) (access c) (mode c) (write_phase c)
    (read_phase c) (start c) (next_irq c) (irq_enabled c).
Definition new_channel : Channel := mkChannel 0 0 false 3 3 0 0 0 0 true.

Record Pit := mkPit { channels : list Channel; channel2_gated : bool; clock : Clock }.
#[export] Instance eta_Pit : Eta Pit := fun s => mkPit (channels s) (channel2_gated s) (clock s).

Definition chan (s : Pit) (i : Z) : Channel := nth (Z.to_nat i) (channels s) new_channel.
Definition set_chan (i : Z) (f : Channel -> Channel) (s : Pit) : Pit :=
  s <| channels := alter f (Z.to_nat i) (channels s) |>.

(** One call of [Clock::now()]. *)
Definition now : M Pit Z := fun s => (Ok (clock_now (clock s)), s <| clock := clock_tick (clock s) |>).

(** ** Operations *)

Definition divisor (c : Channel) : Z := if reload c =? 0 then 65536 else reload c.

Definition irq_interval (c : Channel) : Z :=
  Z.max (u64 (divisor c * 1000000000) / kPitHz) 1000000.

(** [(elapsed as uint64_t) * kPitHz / 1e9], the product wrapping at 64 bits. *)
Definition pit_ticks (elapsed : Z) : Z := u64 (elapsed * kPitHz) / 1000000000.

Definition current_count (c : Channel) (t : Z) : Z :=
  let elapsed := t - start c in
  let ticks := if elapsed <=? 0 then 0 else pit_ticks elapsed in
  let count := divisor c in
  let counter :=
    if (mode c =? 2) || (mode c =? 3) then u32 (count - u32 (ticks mod count))
    else Z.land (u32 (count - u32 ticks)) 0xffff in
  u16 (Z.land counter 0xFFFF).

Definition schedule_next_irq (t : Z) (s : Pit) : Pit :=
  set_chan 0 (fun c => c <| next_irq := t + irq_interval (chan s 0) |>) s.

Definition Pit_new : M Pit unit :=
  now ≫= fun t =>
  modify (fun s => s <| channels := map (fun c => c <| start := t |>) (channels s) |>) ≫= fun _ =>
  modify (schedule_next_irq t).

(** [do { next_irq += interval; } while (now >= next_irq);] *)
Definition advance (t interval : Z) (next : Z) : Z + Z :=
  let next := next + interval in if next <=? t then inl next else inr next.

Definition poll_irq0 : M Pit bool :=
  now ≫= fun t =>
  gets (fun s => chan s 0) ≫= fun c =>
  if negb (irq_enabled c) || (t <? next_irq c) then mret false
  else
    match repeat_until (advance t (irq_interval c)) 64 (next_irq c) with
    | inl _ => fail_fuel
    | inr next => modify (set_chan 0 (fun c => c <| next_irq := next |>)) ≫= fun _ => mret true
    end.

Definition channel2_out_high : M Pit bool :=
  gets channel2_gated ≫= fun gated =>
  if negb gated then mret false
  else
    now ≫= fun t =>
    gets (fun s => chan s 2) ≫= fun c =>
    let elapsed := t - start c in
    if elapsed <=? 0 then mret false
    else mret (divisor c <=? pit_ticks elapsed).

Definition set_channel2_gate (gated : bool) : M Pit unit :=
  gets channel2_gated ≫= fun old =>
  when (gated && negb old)
    (now ≫= fun t => modify (set_chan 2 (fun c => c <| start := t |>))) ≫= fun _ =>
  modify (fun s => s <| channel2_gated := gated |>).

Definition reset_channel_timer (i : Z) : M Pit unit :=
  now ≫= fun t =>
  modify (set_chan i (fun c => c <| start := t |>)) ≫= fun _ =>
  when (i =? 0)
    (modify (set_chan i (fun c => c <| irq_enabled := true |>)) ≫= fun _ =>
     modify (schedule_next_irq t)).

Definition write_command (value : Z) : M Pit unit :=
  if Z.land value 0xC0 =? 0xC0 then mret tt
  else
    let i := Z.land (Z.shiftr value 6) 0x03 in
    if 3 <=? i then mret tt
    else
      let acc := Z.land (Z.shiftr value 4) 0x03 in
      if acc =? 0 then
        now ≫= fun t =>
        modify (set_chan i (fun c =>
          let c := c <| latch := current_count c t |> in
          let c := c <| latch_valid := true |> in
          c <| read_phase := 0 |>))
      else
        modify (set_chan i (fun c =>
          let c := c <| access := acc |> in
          let m := Z.land (Z.shiftr value 1) 0x07 in
          let c := c <| mode := if 5 <? m then m - 4 else m |> in
          let c := c <| write_phase := 0 |> in
          let c := c <| read_phase := 0 |> in
          c <| latch_valid := false |>)).

Definition set_low (value : Z) (c : Channel) : Channel :=
  c <| reload := u16 (Z.lor (Z.land (reload c) 0xFF00) value) |>.
Definition set_high (value : Z) (c : Channel) : Channel :=
  c <| reload := u16 (Z.lor (Z.land (reload c) 0x00FF) (Z.shiftl value 8)) |>.

Definition write_channel (i value : Z) : M Pit unit :=
  gets (fun s => chan s i) ≫= fun c =>
  if access c =? 1 then modify (set_chan i (set_low value)) ≫= fun _ => reset_channel_timer i
  else if access c =? 2 then modify (set_chan i (set_high value)) ≫= fun _ => reset_channel_timer i
  else if write_phase c =? 0 then
    modify (set_chan i (set_low value)) ≫= fun _ =>
    modify (set_chan i (fun c => c <| write_phase := 1 |>))
  else
    modify (set_chan i (set_high value)) ≫= fun _ =>
    modify (set_chan i (fun c => c <| write_phase := 0 |>)) ≫= fun _ =>
    reset_channel_timer i.

Definition read_channel (i : Z) : M Pit Z :=
  gets (fun s => chan s i) ≫= fun c =>
  (if latch_valid c then mret (latch c)
   else now ≫= fun t => mret (current_count c t)) ≫= fun value =>
  if access c =? 1 then
    modify (set_chan i (fun c => c <| latch_valid := false |>)) ≫= fun _ => mret (u8 (Z.land value 0xFF))
  else if access c =? 2 then
    modify (set_chan i (fun c => c <| latch_valid := false |>)) ≫= fun _ =>
    mret (u8 (Z.land (Z.shiftr value 8) 0xFF))
  else if read_phase c =? 0 then
    modify (set_chan i (fun c => c <| read_phase := 1 |>)) ≫= fun _ => mret (u8 (Z.land value 0xFF))
  else
    modify (set_chan i (fun c => c <| read_phase := 0 |>)) ≫= fun _ =>
    modify (set_chan i (fun c => c <| latch_valid := false |>)) ≫= fun _ =>
    mret (u8 (Z.land (Z.shiftr value 8) 0xFF)).

Definition read_port (port : Z) : M Pit Z :=
  if (port <? 0x40) || (0x43 <? port) then mret 0
  else if port =? 0x43 then mret 0
  else read_channel (port - 0x40).

Definition write_port (port value : Z) : M Pit unit :=
  if port =? 0x43 then write_command value
  else when ((0x40 <=? port) && (port <=? 0x42)) (write_channel (port - 0x40) value).

(** ** Properties *)

Record chan_ok (c : Channel) : Prop := {
  ok_reload : 0 <= reload c < 65536; ok_latch : 0 <= latch c < 65536;
  ok_access : 1 <= access c <= 3; ok_mode : 0 <= mode c <= 5;
  ok_wphase : write_phase c = 0 \/ write_phase c = 1;
  ok_rphase : read_phase c = 0 \/ read_phase c = 1 }.

Definition pit_ok (s : Pit) : Prop := length (channels s) = 3%nat /\ Forall chan_ok (channels s).

Lemma chan_at_ok s i : pit_ok s -> chan_ok (chan s i).
Proof.
  intros [_ Hc]. assert (Hn : chan_ok new_channel) by (split; cbn; lia || auto).
  unfold chan. revert Hc. generalize (channels s), (Z.to_nat i). intros cs.
  induction cs as [|c cs IH]; intros [|n] Hc; inversion Hc; subst; cbn [nth]; auto.
Qed.

Lemma set_chan_ok i f s :
  pit_ok s -> (forall c, chan_ok c -> chan_ok (f c)) -> pit_ok (set_chan i f s).
Proof.
  intros [Hl Hc] Hf. split; cbn [channels set_chan upd_field]; [by rewrite length_alter|].
  rewrite Forall_lookup in *. intros k c Hk.
  destruct (decide (k = Z.to_nat i)) as [->|Hne].
  - rewrite list_lookup_alter_eq in Hk. destruct (channels s !! Z.to_nat i) eqn:E; [|done].
    injection Hk as <-. eauto.
  - rewrite list_lookup_alter_ne in Hk by done. eauto.
Qed.

(** Every port access keeps the channels well-formed and returns. *)
Lemma safe_now {B} (k : Z -> M Pit B) :
  (forall t, safe pit_ok (fun _ => True) (k t)) -> safe pit_ok (fun _ => True) (now ≫= k).
Proof. intros Hk s Hs. rewrite bind_run. by apply Hk. Qed.

Lemma safe_set_chan i f :
  (forall c, chan_ok c -> chan_ok (f c)) -> safe pit_ok (fun _ => True) (modify (set_chan i f)).
Proof. intros Hf. apply safe_modify. intros s Hs. by apply set_chan_ok. Qed.

Ltac pit_field := apply safe_set_chan; intros c []; split; cbn; auto; lia.
Ltac pit_then := apply safe_bind with (fun _ => True); [|intros _ _].

Lemma current_count_bounds c t : 0 <= current_count c t < 65536.
Proof. apply u16_range. Qed.

Lemma safe_write_command value : safe pit_ok (fun _ => True) (write_command value).
Proof.
  unfold write_command. cbv zeta.
  assert (Hl : forall v k, 0 <= k -> 0 <= Z.land v (2 ^ k - 1) < 2 ^ k).
  { intros v k Hk. apply land_range; [done|]. pose proof (Z.pow_pos_nonneg 2 k). lia. }
  pose proof (Hl (Z.shiftr value 4) 2 ltac:(lia)) as Ha. pose proof (Hl (Z.shiftr value 1) 3 ltac:(lia)) as Hm.
  change (2 ^ 2 - 1) with 3 in Ha. change (2 ^ 3 - 1) with 7 in Hm.
  apply safe_if; intros _; [by apply safe_ret|]. apply safe_if; intros _; [by apply safe_ret|].
  apply safe_if; intros Hacc.
  - apply safe_now. intros t. apply safe_set_chan. intros c []. split; cbn; auto. apply current_count_bounds.
  - apply Z.eqb_neq in Hacc. apply safe_set_chan. intros c []. split; cbn; auto; [lia|].
    destruct (Z.ltb_spec 5 (Z.land (Z.shiftr value 1) 7)); lia.
Qed.

Lemma safe_reset_timer i : safe pit_ok (fun _ => True) (reset_channel_timer i).
Proof.
  unfold reset_channel_timer. apply safe_now. intros t. pit_then; [pit_field|].
  apply safe_when. intros _. pit_then; [pit_field|]. apply safe_modify. intros s Hs.
  apply set_chan_ok; [done|]. intros c []. by split.
Qed.

Lemma safe_write_channel i value : safe pit_ok (fun _ => True) (write_channel i value).
Proof.
  assert (Hlo : safe pit_ok (fun _ => True) (modify (set_chan i (set_low value))))
    by (apply safe_set_chan; intros c []; split; cbn; auto; apply u16_range).
  assert (Hhi : safe pit_ok (fun _ => True) (modify (set_chan i (set_high value))))
    by (apply safe_set_chan; intros c []; split; cbn; auto; apply u16_range).
  unfold write_channel. safe_with (fun _ : Channel => True); [done|].
  apply safe_if; intros _; [pit_then; [done|apply safe_reset_timer]|].
  apply safe_if; intros _; [pit_then; [done|apply safe_reset_timer]|].
  apply safe_if; intros _; (pit_then; [done|]); [pit_field|].
  pit_then; [pit_field|apply safe_reset_timer].
Qed.

Lemma safe_read_channel i : safe pit_ok (fun _ => True) (read_channel i).
Proof.
  unfold read_channel. safe_with (fun _ : Channel => True); [done|].
  apply safe_bind with (fun _ => True).
  { destruct (latch_valid _); [by apply safe_ret|]. apply safe_now. intros t. by apply safe_ret. }
  intros v _. repeat (apply safe_if; intros _);
    repeat (pit_then; [pit_field|]); by apply safe_ret.
Qed.

Lemma safe_read_port port : safe pit_ok (fun _ => True) (read_port port).
Proof.
  unfold read_port. apply safe_if; intros _; [by apply safe_ret|].
  apply safe_if; intros _; [by apply safe_ret|apply safe_read_channel].
Qed.

Lemma safe_write_port port value : safe pit_ok (fun _ => True) (write_port port value).
Proof.
  unfold write_port. apply safe_if; intros _; [apply safe_write_command|].
  apply safe_when. intros _. apply safe_write_channel.
Qed.

Lemma safe_set_gate b : safe pit_ok (fun _ => True) (set_channel2_gate b).
Proof.
  unfold set_channel2_gate. safe_with (fun _ : bool => True); [done|].
  pit_then; [|apply safe_modify; by intros s []].
  apply safe_when. intros _. apply safe_now. intros t. pit_field.
Qed.

Lemma safe_out_high : safe pit_ok (fun _ => True) channel2_out_high.
Proof.
  unfold channel2_out_high. safe_with (fun _ : bool => True); [done|].
  apply safe_if; intros _; [by apply safe_ret|]. apply safe_now. intros t.
  safe_with (fun _ : Channel => True); [done|]. cbv zeta. apply safe_if; intros _; by apply safe_ret.
Qed.

Lemma chan_set i f s : length (channels s) = 3%nat -> 0 <= i < 3 -> chan (set_chan i f s) i = f (chan s i).
Proof.
  intros Hl Hi. unfold chan. cbn [channels set_chan upd_field].
  destruct (lookup_lt_is_Some_2 (channels s) (Z.to_nat i) ltac:(lia)) as [c Hc].
  rewrite (nth_lookup_Some _ _ _ _ Hc). apply nth_lookup_Some. by rewrite list_lookup_alter_eq, Hc.
Qed.

Lemma divisor_range c : chan_ok c -> 1 <= divisor c <= 65536.
Proof. intros Hc. unfold divisor. pose proof (ok_reload c Hc). destruct (Z.eqb_spec (reload c) 0); lia. Qed.

Lemma irq_interval_range c : chan_ok c -> 1000000 <= irq_interval c < 2 ^ 40.
Proof.
  intros Hc. pose proof (divisor_range c Hc). unfold irq_interval, kPitHz.
  rewrite u64_small by lia.
  assert (divisor c * 1000000000 / 1193182 < 2 ^ 40) by (apply Z.div_lt_upper_bound; lia). lia.
Qed.

Lemma now_bind {B} (f : Z -> M Pit B) s :
  (now ≫= f) s = f (clock_now (clock s)) (s <| clock := clock_tick (clock s) |>).
Proof. reflexivity. Qed.

Lemma advance_ends t interval next :
  0 < interval -> t - next + interval < 2 ^ 64 ->
  exists next', repeat_until (advance t interval) 64 next = inr next' /\
    t < next' /\ (next <= t -> next' <= t + interval) /\ exists k, 1 <= k /\ next' = next + k * interval.
Proof.
  intros Hi Hd. destruct (Z.le_gt_cases next t) as [Hle|Hgt].
  - destruct (repeat_until_ends (advance t interval)
      (fun x => x <= t /\ exists k, 0 <= k /\ x = next + k * interval)
      (fun x => t < x /\ x <= t + interval /\ exists k, 1 <= k /\ x = next + k * interval)
      (fun x => t - x) ) with (n := 64%nat) (x := next) as (y & E & Hy1 & Hy2 & Hy3).
    + intros x [Hx (k & Hk & ->)]. unfold advance.
      destruct (Z.leb_spec (next + k * interval + interval) t).
      * split; [split; [done|exists (k + 1); lia]|lia].
      * split_and!; [lia|lia|exists (k + 1); lia].
    + split; [done|exists 0; lia].
    + change (2 ^ Z.of_nat 64) with (2 ^ 64). lia.
    + exists y. split_and!; [done|done|done|done].
  - exists (next + interval). split_and!; [|lia|lia|exists 1; lia].
    assert (E : forall n, repeat_until (advance t interval) n next = inr (next + interval)).
    { induction n as [|n IH]; cbn [repeat_until]; [|by rewrite IH].
      unfold advance. destruct (Z.leb_spec (next + interval) t); [lia|done]. }
    apply E.
Qed.

(** [poll_irq0] fires exactly when the deadline has passed, and then moves the
    deadline by whole intervals to the first one in the future: missed ticks are
    coalesced, the phase is kept, and the loop ends. *)
Theorem poll_irq0_spec s :
  pit_ok s ->
  let t := clock_now (clock s) in
  let c := chan s 0 in
  t - next_irq c < 2 ^ 63 ->
  exists b s', poll_irq0 s = (Ok b, s') /\
    b = irq_enabled c && (next_irq c <=? t) /\
    (b = false -> channels s' = channels s) /\
    (b = true -> t < next_irq (chan s' 0) <= t + irq_interval c /\
       exists k, 1 <= k /\ chan s' 0 = c <| next_irq := next_irq c + k * irq_interval c |>).
Proof.
  intros Hs t c Ht. unfold poll_irq0. rewrite now_bind, gets_bind. fold t.
  change (chan (s <| clock := clock_tick (clock s) |>) 0) with c.
  replace (negb (irq_enabled c) || (t <? next_irq c)) with (negb (irq_enabled c && (next_irq c <=? t)))
    by (by rewrite negb_andb, <- Z.ltb_antisym).
  destruct (irq_enabled c && (next_irq c <=? t)) eqn:Ec; cbn [negb].
  2:{ eexists _, _. by split_and!. }
  apply andb_true_iff in Ec as [Hen Hle%Z.leb_le].
  pose proof (irq_interval_range c (chan_at_ok s 0 Hs)).
  destruct (advance_ends t (irq_interval c) (next_irq c)) as (next' & E & Hgt & Hb & k & Hk & Hnext); [lia|lia|].
  rewrite E, modify_bind. eexists true, _. split; [reflexivity|]. split_and!; [done|done|].
  intros _. set (s1 := s <| clock := _ |>). specialize (Hb Hle).
  rewrite chan_set by (apply Hs || lia). change (chan s1 0) with c. cbn [next_irq upd_field].
  split; [lia|]. exists k. split; [done|]. by rewrite Hnext.
Qed.

Lemma poll_irq0_ok s :
  pit_ok s -> clock_now (clock s) - next_irq (chan s 0) < 2 ^ 63 ->
  exists b s', poll_irq0 s = (Ok b, s') /\ pit_ok s'.
Proof.
  intros Hs Ht. unfold poll_irq0. rewrite now_bind, gets_bind. set (s1 := s <| clock := _ |>).
  change (chan s1 0) with (chan s 0). set (c := chan s 0) in *. set (t := clock_now (clock s)) in *.
  destruct (_ || _); [by exists false, s1|].
  pose proof (irq_interval_range c (chan_at_ok s 0 Hs)).
  destruct (advance_ends t (irq_interval c) (next_irq c)) as (next' & E & _); [lia|lia|].
  rewrite E, modify_bind. eexists true, _. split; [reflexivity|]. apply set_chan_ok; [done|]. intros c' []. by split.
Qed.

(** The same for any distance from the deadline: when the loop is not over after 2^64
    rounds, the deadline is more than 292 years behind. *)
Definition irq0_overdue (s : Pit) : Prop := 2 ^ 63 <= clock_now (clock s) - next_irq (chan s 0).

Lemma poll_irq0_any s : pit_ok s ->
  match poll_irq0 s with
  | (Ok _, s') => pit_ok s'
  | (OutOfFuel, _) => irq0_overdue s
  | (Throw _, _) => False
  end.
Proof.
  intros Hs. destruct (Z.lt_ge_cases (clock_now (clock s) - next_irq (chan s 0)) (2 ^ 63)) as [Hlt|Hge].
  - by destruct (poll_irq0_ok s Hs Hlt) as (b & s' & -> & ?).
  - unfold poll_irq0. rewrite now_bind, gets_bind. destruct (_ || _); [done|].
    destruct (repeat_until _ _ _); [done|]. rewrite modify_bind. apply set_chan_ok; [done|]. intros c' []. by split.
Qed.

(** The control word selecting channel [i], low then high byte, mode [m]. *)
Definition control_word (i m : Z) : Z := i * 64 + 48 + m * 2.

Definition has3 (s : Pit) : Prop := length (channels s) = 3%nat.

Lemma has3_set i f s : has3 s -> has3 (set_chan i f s).
Proof. unfold has3. cbn [channels set_chan upd_field]. by rewrite length_alter. Qed.

(** What the control word does to the channel it selects. *)
Definition programmed (m : Z) (c : Channel) : Channel :=
  mkChannel (reload c) (latch c) false 3 m 0 0 (start c) (next_irq c) (irq_enabled c).

Lemma write_control i m s :
  has3 s -> 0 <= i < 3 -> 0 <= m <= 5 ->
  write_port 0x43 (control_word i m) s = (Ok tt, set_chan i (programmed m) s).
Proof.
  intros Hl Hi Hm. unfold write_port. cbn [Z.eqb Pos.eqb].
  assert (Hcase : i = 0 \/ i = 1 \/ i = 2) by lia.
  assert (Hmode : m = 0 \/ m = 1 \/ m = 2 \/ m = 3 \/ m = 4 \/ m = 5) by lia.
  destruct Hcase as [->|[->| ->]]; destruct Hmode as [->|[->|[->|[->|[->| ->]]]]]; reflexivity.
Qed.

Lemma write_latch i s :
  has3 s -> 0 <= i < 3 ->
  write_port 0x43 (i * 64) s =
  (Ok tt, set_chan i (fun c => c <| latch := current_count c (clock_now (clock s)) |>
      <| latch_valid := true |> <| read_phase := 0 |>) (s <| clock := clock_tick (clock s) |>)).
Proof.
  intros Hl Hi. assert (Hcase : i = 0 \/ i = 1 \/ i = 2) by lia.
  destruct Hcase as [->|[->| ->]]; reflexivity.
Qed.

Lemma write_data_port i v s :
  0 <= i < 3 -> write_port (0x40 + i) v s = write_channel i v s.
Proof.
  intros Hi. unfold write_port. destruct (Z.eqb_spec (64 + i) 67); [lia|].
  destruct (Z.leb_spec 64 (64 + i)), (Z.leb_spec (64 + i) 66); try lia. cbn [andb when].
  by replace (64 + i - 64) with i by lia.
Qed.

Lemma read_data_port i s : 0 <= i < 3 -> read_port (0x40 + i) s = read_channel i s.
Proof.
  intros Hi. unfold read_port. destruct (Z.ltb_spec (64 + i) 64), (Z.ltb_spec 67 (64 + i)); try lia.
  cbn [orb]. destruct (Z.eqb_spec (64 + i) 67); [lia|]. by replace (64 + i - 64) with i by lia.
Qed.

(** The low byte waits in the reload register for the high byte. *)
Lemma write_low_byte i v s :
  has3 s -> 0 <= i < 3 -> access (chan s i) = 3 -> write_phase (chan s i) = 0 ->
  exists s', write_channel i v s = (Ok tt, s') /\ has3 s' /\ clock s' = clock s /\
    chan s' i = (set_low v (chan s i)) <| write_phase := 1 |>.
Proof.
  intros Hl Hi Ha Hw. unfold write_channel. rewrite gets_bind, Ha, Hw. cbn [Z.eqb Pos.eqb].
  rewrite modify_bind. eexists. split; [reflexivity|]. split_and!; [by do 2 apply has3_set|done|].
  by rewrite !chan_set by (try apply has3_set; done).
Qed.

(** The fields of a channel a read looks at. *)
Definition same_count (c c' : Channel) : Prop :=
  reload c' = reload c /\ mode c' = mode c /\ access c' = access c /\ read_phase c' = read_phase c /\
  latch_valid c' = latch_valid c.

Lemma reset_timer i s :
  has3 s -> 0 <= i < 3 ->
  exists s', reset_channel_timer i s = (Ok tt, s') /\ has3 s' /\ clock s' = clock_tick (clock s) /\
    same_count (chan s i) (chan s' i) /\ start (chan s' i) = clock_now (clock s).
Proof.
  intros Hl Hi. unfold reset_channel_timer. rewrite now_bind, modify_bind.
  set (s1 := set_chan i _ _).
  assert (Hl1 : has3 s1) by by apply has3_set.
  assert (Hc1 : chan s1 i = (chan s i) <| start := clock_now (clock s) |>)
    by (unfold s1; by rewrite chan_set by done).
  destruct (Z.eqb_spec i 0) as [->|]; cbn [when].
  - rewrite modify_bind. eexists. split; [reflexivity|].
    split_and!; [by do 2 apply has3_set|done| |]; unfold schedule_next_irq, same_count;
      rewrite !chan_set by (try apply has3_set; done); by rewrite Hc1.
  - exists s1. unfold same_count. rewrite Hc1. by split_and!.
Qed.

Lemma write_high_byte i v s :
  has3 s -> 0 <= i < 3 -> access (chan s i) = 3 -> write_phase (chan s i) = 1 ->
  exists s', write_channel i v s = (Ok tt, s') /\ has3 s' /\ clock s' = clock_tick (clock s) /\
    same_count (set_high v (chan s i)) (chan s' i) /\ start (chan s' i) = clock_now (clock s).
Proof.
  intros Hl Hi Ha Hw. unfold write_channel. rewrite gets_bind, Ha, Hw. cbn [Z.eqb Pos.eqb].
  rewrite !modify_bind. set (s2 := set_chan i _ (set_chan i _ s)).
  assert (Hl2 : has3 s2) by by do 2 apply has3_set.
  destruct (reset_timer i s2 Hl2 Hi) as (s3 & E & Hl3 & Hk & Hsc & Hst).
  exists s3. split_and!; [done|done|done| |done]. revert Hsc. unfold s2, same_count.
  by rewrite !chan_set by (try apply has3_set; done).
Qed.

(** The two reads of a latched count. *)
Lemma read_first i s :
  access (chan s i) = 3 -> read_phase (chan s i) = 0 -> latch_valid (chan s i) = true ->
  read_channel i s = (Ok (u8 (Z.land (latch (chan s i)) 0xFF)),
                      set_chan i (fun c => c <| read_phase := 1 |>) s).
Proof.
  intros Ha Hr Hv. unfold read_channel. rewrite gets_bind, Hv, ret_bind, Ha, Hr. reflexivity.
Qed.

Lemma read_second i s :
  access (chan s i) = 3 -> read_phase (chan s i) = 1 -> latch_valid (chan s i) = true ->
  read_channel i s = (Ok (u8 (Z.land (Z.shiftr (latch (chan s i)) 8) 0xFF)),
     set_chan i (fun c => c <| latch_valid := false |>) (set_chan i (fun c => c <| read_phase := 0 |>) s)).
Proof.
  intros Ha Hr Hv. unfold read_channel. rewrite gets_bind, Hv, ret_bind, Ha, Hr. reflexivity.
Qed.

Lemma read_latched i s :
  has3 s -> 0 <= i < 3 -> access (chan s i) = 3 -> read_phase (chan s i) = 0 ->
  latch_valid (chan s i) = true ->
  exists s', (read_channel i ≫= fun l => read_channel i ≫= fun h => mret (l, h)) s =
    (Ok (u8 (Z.land (latch (chan s i)) 0xFF), u8 (Z.land (Z.shiftr (latch (chan s i)) 8) 0xFF)), s') /\
    latch_valid (chan s' i) = false.
Proof.
  intros Hl Hi Ha Hr Hv. rewrite bind_run, read_first by done. set (s1 := set_chan i _ s).
  assert (Hl1 : has3 s1) by by apply has3_set.
  assert (Hc1 : chan s1 i = (chan s i) <| read_phase := 1 |>)
    by (unfold s1; by rewrite chan_set by done).
  rewrite bind_run, read_second by (by rewrite Hc1). rewrite Hc1.
  eexists. split; [reflexivity|]. by rewrite !chan_set by (try apply has3_set; done).
Qed.

Lemma reload_bytes lo hi r :
  0 <= lo < 256 -> 0 <= hi < 256 -> 0 <= r < 65536 ->
  reload (set_high hi (set_low lo (mkChannel r 0 false 0 0 0 0 0 0 true))) = lo + 256 * hi.
Proof.
  intros Hlo Hhi Hr. cbn [reload set_high set_low upd_field].
  change 0xFF00 with (Z.shiftl (Z.ones 8) 8). rewrite land_field by lia.
  change (2 ^ 8) with 256.
  assert (0 <= r / 256 mod 256 < 256) by (apply Z.mod_pos_bound; lia).
  rewrite (lor_aligned_add (_ * 256) lo 8) by (lia || (exists (r / 256 mod 256); lia)).
  change 0x00FF with (Z.ones 8). rewrite (u16_small (_ + lo)), Z.land_ones by lia.
  change (2 ^ 8) with 256. rewrite Z.add_comm, Z.mod_add, (Z.mod_small lo) by lia.
  rewrite (lor_shiftl_add lo hi 8), u16_small by lia. change (2 ^ 8) with 256. lia.
Qed.

Lemma current_count_range c t : 0 <= current_count c t < 65536.
Proof. apply u16_range. Qed.

(** The count depends on the reload value, the mode and the start time only. *)
Lemma current_count_ext c c' t :
  reload c' = reload c -> mode c' = mode c -> start c' = start c ->
  current_count c' t = current_count c t.
Proof. intros Hr Hm Hs. unfold current_count, divisor. by rewrite Hr, Hm, Hs. Qed.

(** Programming a counter and reading it back: after the control word and the low
    and high bytes, the channel counts from their 16-bit value starting at the clock
    reading of the last write; and the two reads after a latch command give the low
    and high bytes of the count at the moment of the latch, whatever time passes
    between the reads. *)
Theorem pit_program_latch_read i m lo hi s :
  pit_ok s -> 0 <= i < 3 -> 0 <= m <= 5 -> 0 <= lo < 256 -> 0 <= hi < 256 ->
  exists s1 s2,
    (write_port 0x43 (control_word i m) ≫= fun _ =>
     write_port (0x40 + i) lo ≫= fun _ => write_port (0x40 + i) hi) s = (Ok tt, s1) /\
    let c := chan s1 i in
    reload c = lo + 256 * hi /\ mode c = m /\ start c = clock_now (clock s) /\
    let count := current_count c (clock_now (clock s1)) in
    (write_port 0x43 (i * 64) ≫= fun _ =>
     read_port (0x40 + i) ≫= fun l => read_port (0x40 + i) ≫= fun h => mret (l, h)) s1 =
      (Ok (count mod 256, count / 256), s2) /\ latch_valid (chan s2 i) = false.
Proof.
  intros Hs Hi Hm Hlo Hhi. assert (Hl : has3 s) by apply Hs.
  rewrite bind_run, write_control by done. set (sa := set_chan i (programmed m) s).
  assert (Hca : chan sa i = programmed m (chan s i)) by (unfold sa; by rewrite chan_set by done).
  rewrite bind_run, write_data_port by done.
  destruct (write_low_byte i lo sa) as (sb & E & Hlb & Hkb & Hcb);
    [by apply has3_set|done|by rewrite Hca|by rewrite Hca|]. rewrite E, write_data_port by done.
  destruct (write_high_byte i hi sb) as (s1 & E1 & Hl1 & Hk1 & (Hr & Hmo & Ha & Hrp & Hlv) & Hst);
    [done|done|by rewrite Hcb, Hca|by rewrite Hcb|].
  rewrite E1. rewrite Hcb, Hca in *. cbn [access read_phase latch_valid mode set_high set_low programmed upd_field] in *.
  pose proof (write_latch i s1 Hl1 Hi) as Elat. set (sl := set_chan i _ _) in Elat.
  assert (Hcl : chan sl i = (chan s1 i) <| latch := current_count (chan s1 i) (clock_now (clock s1)) |>
      <| latch_valid := true |> <| read_phase := 0 |>) by (unfold sl; by rewrite chan_set by done).
  destruct (read_latched i sl) as (s2 & E2 & Hv2);
    [by apply has3_set|done|rewrite Hcl; exact Ha|by rewrite Hcl|by rewrite Hcl|].
  exists s1, s2. split; [done|]. cbv zeta. split_and!; [|done|by rewrite Hst, Hkb| |done].
  - rewrite Hr. apply (reload_bytes lo hi (reload (chan s i)) Hlo Hhi). apply (ok_reload _ (chan_at_ok s i Hs)).
  - rewrite bind_run, Elat, bind_run, read_data_port by done.
    rewrite bind_run in E2. destruct (read_channel i sl) as [[l|e|] sm]; [|done|done].
    rewrite bind_run in E2 |- *. rewrite read_data_port by done. rewrite E2, Hcl.
    cbn [latch upd_field]. set (n := current_count _ _).
    assert (Hn : 0 <= n < 65536) by apply current_count_range.
    change 0xFF with (Z.ones 8). rewrite !Z.land_ones, Z.shiftr_div_pow2 by lia.
    change (2 ^ 8) with 256. assert (0 <= n / 256 < 256)
      by (split; [apply Z.div_pos|apply Z.div_lt_upper_bound]; lia).
    rewrite (Z.mod_small (n / 256)), !u8_small by (try apply Z.mod_pos_bound; lia). done.
Qed.

(** Up to 2^64 / 1193182 ns (about 4.3 hours) after it was programmed, a counter
    in modes 2 and 3 runs down from its reload value once per period, as the elapsed
    time says; one nanosecond later the 64-bit product wraps and the tick count,
    hence the counter, jumps back to the start. *)
Theorem pit_count_range c t :
  chan_ok c -> start c <= t -> mode c = 2 \/ mode c = 3 ->
  (t - start c <= 15460126010708 ->
     current_count c t = (divisor c - (t - start c) * kPitHz / 1000000000 mod divisor c) mod 65536) /\
  (t - start c = 15460126010708 -> pit_ticks (t - start c) = 18446744073) /\
  (t - start c = 15460126010709 -> pit_ticks (t - start c) = 0).
Proof.
  intros Hc Ht Hm. split_and!; [|by intros ->..].
  intros Hr. unfold current_count. pose proof (divisor_range c Hc) as Hd.
  replace ((mode c =? 2) || (mode c =? 3)) with true by (destruct Hm as [-> | ->]; done).
  set (e := t - start c) in *.
  assert (Htk : (if e <=? 0 then 0 else pit_ticks e) = e * kPitHz / 1000000000).
  { destruct (Z.leb_spec e 0).
    - replace e with 0 by lia. done.
    - unfold pit_ticks, kPitHz in *. by rewrite u64_small by lia. }
  rewrite Htk. set (ticks := e * kPitHz / 1000000000).
  pose proof (Z.mod_pos_bound ticks (divisor c) ltac:(lia)).
  change 0xFFFF with (Z.ones 16). rewrite Z.land_ones, !u32_small by (rewrite ?u32_small; lia).
  unfold u16. change (2 ^ 16) with 65536. by rewrite Z.mod_mod.
Qed.

(** ** A timer whose clock advances 0.6 ms per reading *)
Module Demo.
Definition pit : Pit :=
  mkPit [new_channel; new_channel; new_channel] false (mkClock (fun n => 600000 * Z.of_nat n) 0).
Definition pit1 : Pit := (Pit_new pit).2.

Lemma pit_is_ok : pit_ok pit1.
Proof. split; [done|]. repeat (constructor; [split; cbn; lia || auto|]). constructor. Qed.

Lemma poll_irq0_spec_witness :
  exists b s', poll_irq0 pit1 = (Ok b, s') /\ b = irq_enabled (chan pit1 0) && (next_irq (chan pit1 0) <=? 600000).
Proof.
  destruct (poll_irq0_spec pit1 pit_is_ok) as (b & s' & E & Hb & _).
  - vm_compute. reflexivity.
  - exists b, s'. split; [exact E|exact Hb].
Defined.

Lemma pit_program_latch_read_witness :
  exists s1 s2,
    (write_port 0x43 0x34 ≫= fun _ => write_port 0x40 0x9B ≫= fun _ => write_port 0x40 0x2E) pit1 = (Ok tt, s1) /\
    (write_port 0x43 0 ≫= fun _ => read_port 0x40 ≫= fun l => read_port 0x40 ≫= fun h => mret (l, h)) s1 =
      (Ok (0xD0, 0x2B), s2).
Proof.
  destruct (pit_program_latch_read 0 2 0x9B 0x2E pit1 pit_is_ok) as (s1 & s2 & E1 & H); [lia..|].
  exists s1, s2. split; [exact E1|]. destruct H as (_ & _ & _ & E2 & _).
  assert (Hs1 : s1 = ((write_port 0x43 0x34 ≫= fun _ => write_port 0x40 0x9B ≫= fun _ =>
    write_port 0x40 0x2E) pit1).2) by (change s1 with (Ok tt, s1).2; by rewrite <- E1).
  rewrite Hs1 in E2 |- *. refine (eq_trans E2 _). f_equal.
Defined.

Lemma pit_count_range_witness :
  current_count (new_channel <| reload := 0x2E9B |>) 1000000 = 0x2E9B - 1193.
Proof.
  destruct (pit_count_range (new_channel <| reload := 0x2E9B |>) 1000000) as (H & _ & _).
  - split; cbn; lia || auto.
  - cbn. lia.
  - by right.
  - rewrite H by (cbn; lia). reflexivity.
Defined.
End Demo.
