(* ===== verification/Pic.v ===== *)
(** * native/whp/devices/pic.cc: the pair of 8259 interrupt controllers

    Masks, vector bases and the initialisation sequence.  The theorems: the sequence
    a kernel performs leaves the programmed vector base and mask whatever the state
    before it, and an interrupt request reaches the hypervisor exactly when its line
    is unmasked. *)

From S2P Require Import Prelude Words Irq.

Record Controller := mkController { vector : Z; mask : Z; init_step : Z }.
#[export] Instance eta_Controller : Eta Controller := fun c =>
  mkController (vector c) (mask c) (init_step c).

Record Pic := mkPic { master : Controller; slave : Controller }.
#[export] Instance eta_Pic : Eta Pic := fun s => mkPic (master s) (slave s).

Definition Pic_new : Pic := mkPic (mkController 0x20 0xFE 0) (mkController 0x28 0xFF 0).

Definition read_port (s : Pic) (port : Z) : Z :=
  if port =? 0x21 then mask (master s) else if port =? 0xA1 then mask (slave s) else 0.

Definition write_command (c : Controller) (value : Z) : Controller :=
  if has value 0x10 then
    let c := c <| init_step := 2 |> in c <| mask := 0xFF |>
  else c.

Definition write_data (c : Controller) (value : Z) : Controller :=
  if init_step c =? 2 then
    let c := c <| vector := value |> in c <| init_step := 3 |>
  else if init_step c =? 3 then c <| init_step := 4 |>
  else if init_step c =? 4 then c <| init_step := 0 |>
  else c <| mask := value |>.

Definition write_port (port value : Z) (s : Pic) : Pic :=
  if port =? 0x20 then s <| master := write_command (master s) value |>
  else if port =? 0x21 then s <| master := write_data (master s) value |>
  else if port =? 0xA0 then s <| slave := write_command (slave s) value |>
  else if port =? 0xA1 then s <| slave := write_data (slave s) value |>
  else s.

Definition request_irq {W} `{WhpApi W} (s : Pic) (irq : Z) (w : W) : bool * W :=
  if irq <? 8 then
    if has (mask (master s)) (u8 (Z.shiftl 1 irq)) then (false, w)
    else RequestFixedInterrupt (vector (master s) + irq) w
  else (false, w).

Definition is_initialized (s : Pic) : bool := negb (vector (master s) =? 0x20).

Definition irq_unmasked (s : Pic) (irq : Z) : bool :=
  (irq <? 8) && (Z.land (mask (master s)) (u8 (Z.shiftl 1 irq)) =? 0).

Definition vector_for_irq (s : Pic) (irq : Z) : Z :=
  if irq <? 8 then vector (master s) + irq else 0x20 + irq.

(** ** Properties *)

(** A list of port writes, in order. *)
Definition writes (l : list (Z * Z)) (s : Pic) : Pic :=
  fold_left (fun s '(port, value) => write_port port value s) l s.

(** ICW1 to ICW4 and the mask, on the ports of the master or of the slave. *)
Definition init_sequence (command data icw1 base icw3 icw4 m : Z) : list (Z * Z) :=
  [(command, icw1); (data, base); (data, icw3); (data, icw4); (data, m)].

Lemma init_controller c icw1 base icw3 icw4 m :
  has icw1 0x10 = true ->
  write_data (write_data (write_data (write_data (write_command c icw1) base) icw3) icw4) m =
  mkController base m 0.
Proof. intros H. unfold write_command. by rewrite H. Qed.

Lemma init_master s icw1 base icw3 icw4 m :
  has icw1 0x10 = true ->
  writes (init_sequence 0x20 0x21 icw1 base icw3 icw4 m) s = mkPic (mkController base m 0) (slave s).
Proof. intros H. by rewrite <- (init_controller (master s) icw1 base icw3 icw4 m H). Qed.

Lemma init_slave s icw1 base icw3 icw4 m :
  has icw1 0x10 = true ->
  writes (init_sequence 0xA0 0xA1 icw1 base icw3 icw4 m) s = mkPic (master s) (mkController base m 0).
Proof. intros H. by rewrite <- (init_controller (slave s) icw1 base icw3 icw4 m H). Qed.

Lemma line_bit irq : 0 <= irq < 8 -> u8 (Z.shiftl 1 irq) = 2 ^ irq.
Proof.
  intros H. assert (irq = 0 \/ irq = 1 \/ irq = 2 \/ irq = 3 \/ irq = 4 \/ irq = 5 \/ irq = 6 \/ irq = 7)
    as Hc by lia.
  by destruct Hc as [->|[->|[->|[->|[->|[->|[->| ->]]]]]]].
Qed.

(** The 8259 initialisation a kernel performs on both controllers works from any
    state, even in the middle of another initialisation: afterwards the vector bases
    and masks are the programmed ones, the mask ports read back, and interrupt line
    [irq] of the master maps to vector base + irq, unmasked exactly when its mask bit
    is clear. *)
Theorem pic_initialisation s icw1 base base' icw3 icw4 m m' :
  has icw1 0x10 = true ->
  let s' := writes (init_sequence 0x20 0x21 icw1 base icw3 icw4 m ++
                    init_sequence 0xA0 0xA1 icw1 base' icw3 icw4 m') s in
  master s' = mkController base m 0 /\ slave s' = mkController base' m' 0 /\
  read_port s' 0x21 = m /\ read_port s' 0xA1 = m' /\
  (is_initialized s' = true <-> base <> 0x20) /\
  forall irq, 0 <= irq < 8 ->
    vector_for_irq s' irq = base + irq /\ irq_unmasked s' irq = negb (Z.testbit m irq).
Proof.
  intros H1 s'.
  assert (Hs : s' = mkPic (mkController base m 0) (mkController base' m' 0)).
  { unfold s', writes. rewrite fold_left_app. fold (writes (init_sequence 0x20 0x21 icw1 base icw3 icw4 m) s).
    rewrite init_master by done. fold (writes (init_sequence 0xA0 0xA1 icw1 base' icw3 icw4 m')
      (mkPic (mkController base m 0) (slave s))). by rewrite init_slave. }
  rewrite Hs. clear s' Hs. split_and!; try done.
  - unfold is_initialized. cbn [master vector]. rewrite negb_true_iff. apply Z.eqb_neq.
  - intros irq Hi. unfold vector_for_irq, irq_unmasked. cbn [master vector mask].
    destruct (Z.ltb_spec irq 8); [|lia]. split; [done|]. cbn [andb].
    rewrite line_bit by lia. rewrite <- (has_pow2 m irq) by lia. unfold has.
    symmetry. apply negb_involutive.
Qed.

Lemma pic_initialisation_witness :
  let s' := writes (init_sequence 0x20 0x21 0x11 0x30 4 1 0xFE ++
                    init_sequence 0xA0 0xA1 0x11 0x38 4 1 0xFF) Pic_new in
  vector_for_irq s' 0 = 0x30 /\ irq_unmasked s' 0 = true.
Proof.
  destruct (pic_initialisation Pic_new 0x11 0x30 0x38 4 1 0xFE 0xFF eq_refl) as (_ & _ & _ & _ & _ & Hi).
  apply (Hi 0). split; [discriminate|reflexivity].
Defined.
