(* ===== verification/Cmos.v ===== *)
(** * native/whp/devices/cmos.cc: the CMOS real-time clock

    [GetSystemTime] of the host is a stream of readings.  The theorem: whatever the
    guest wrote before, the date registers read as the host's UTC time, in BCD or
    binary as register B selects. *)

From S2P Require Import Prelude Words.

(** SYSTEMTIME *)
Record SystemTime := mkTime {
  wYear : Z; wMonth : Z; wDayOfWeek : Z; wDay : Z; wHour : Z; wMinute : Z; wSecond : Z }.

Record Cmos := mkCmos { selected : Z; regs : list Z; times : nat -> SystemTime; cursor : nat }.
#[export] Instance eta_Cmos : Eta Cmos := fun s => mkCmos (selected s) (regs s) (times s) (cursor s).

Definition get_reg (s : Cmos) (r : Z) : Z := nth (Z.to_nat r) (regs s) 0.
Definition set_reg (r v : Z) (s : Cmos) : Cmos := s <| regs := <[ Z.to_nat r := v ]> (regs s) |>.

Definition to_bcd (value : Z) : Z := u8 (Z.lor (Z.shiftl (value / 10) 4) (value mod 10)).

Definition encode_time_value (s : Cmos) (value : Z) : Z :=
  if has (get_reg s 0x0B) 0x04 then u8 value else to_bcd value.

Definition refresh_time (s : Cmos) : Cmos :=
  let now := times s (cursor s) in
  let s := s <| cursor := S (cursor s) |> in
  let s := set_reg 0x00 (encode_time_value s (wSecond now)) s in
  let s := set_reg 0x02 (encode_time_value s (wMinute now)) s in
  let s := set_reg 0x04 (encode_time_value s (wHour now)) s in
  let s := set_reg 0x06 (encode_time_value s (u16 (wDayOfWeek now + 1))) s in
  let s := set_reg 0x07 (encode_time_value s (wDay now)) s in
  let s := set_reg 0x08 (encode_time_value s (wMonth now)) s in
  let s := set_reg 0x09 (encode_time_value s (wYear now mod 100)) s in
  set_reg 0x32 (encode_time_value s (wYear now / 100)) s.

Definition Cmos_new (t : nat -> SystemTime) : Cmos :=
  let s := mkCmos 0 (repeat 0 0x80) t 0 in
  let s := set_reg 0x0A 0x26 s in
  let s := set_reg 0x0B 0x02 s in
  let s := set_reg 0x0D 0x80 s in
  let s := set_reg 0x0F 0x00 s in
  refresh_time s.

Definition read_port (port : Z) (s : Cmos) : Z * Cmos :=
  if port =? 0x71 then
    let s := refresh_time s in (get_reg s (Z.land (selected s) 0x7F), s)
  else (0xFF, s).

Definition write_port (port value : Z) (s : Cmos) : Cmos :=
  if port =? 0x70 then s <| selected := value |>
  else if port =? 0x71 then
    let reg := Z.land (selected s) 0x7F in
    if (reg =? 0x0A) || (reg =? 0x0B) || (reg =? 0x0C) || (reg =? 0x0F)
    then set_reg reg value s else s
  else s.

(** ** Properties *)

(** The time fields of the map and the value each should show. *)
Definition time_field (t : SystemTime) (r : Z) : option Z :=
  match r with
  | 0x00 => Some (wSecond t) | 0x02 => Some (wMinute t) | 0x04 => Some (wHour t)
  | 0x06 => Some (wDayOfWeek t + 1) | 0x07 => Some (wDay t) | 0x08 => Some (wMonth t)
  | 0x09 => Some (wYear t mod 100) | 0x32 => Some (wYear t / 100)
  | _ => None
  end.

(** What the driver of the clock makes of a register. *)
Definition decode_time (binary : bool) (b : Z) : Z :=
  if binary then b else 10 * (b / 16) + b mod 16.

Record time_ok (t : SystemTime) : Prop := {
  t_year : 1601 <= wYear t < 10000; t_month : 1 <= wMonth t <= 12; t_dow : 0 <= wDayOfWeek t <= 6;
  t_day : 1 <= wDay t <= 31; t_hour : 0 <= wHour t <= 23; t_min : 0 <= wMinute t <= 59;
  t_sec : 0 <= wSecond t <= 59 }.

Lemma time_field_range t r v : time_ok t -> time_field t r = Some v -> 0 <= v < 100.
Proof.
  intros [] H. unfold time_field in H.
  assert (0 <= wYear t mod 100 < 100) by (apply Z.mod_pos_bound; lia).
  assert (0 <= wYear t / 100 < 100)
    by (split; [apply Z.div_pos; lia|apply Z.div_lt_upper_bound; lia]).
  repeat match type of H with
  | Some _ = Some _ => injection H as <-; lia
  | None = _ => discriminate
  | context [match ?x with _ => _ end] => destruct x
  end.
Qed.

Lemma decode_encode binary v : 0 <= v < 100 ->
  decode_time binary (if binary then u8 v else to_bcd v) = v.
Proof.
  intros Hv. destruct binary; cbn [decode_time]; [apply u8_small; lia|].
  unfold to_bcd. pose proof (Z.mod_pos_bound v 10 ltac:(lia)). pose proof (Z.div_mod v 10 ltac:(lia)).
  assert (0 <= v / 10 < 10) by (split; [apply Z.div_pos; lia|apply Z.div_lt_upper_bound; lia]).
  rewrite Z.lor_comm, (lor_shiftl_add _ _ 4), u8_small by lia. change (2 ^ 4) with 16.
  rewrite Z.div_add, Z.div_small, Z.mod_add, Z.mod_small by lia. lia.
Qed.

Lemma get_set_reg r r' v s :
  0 <= r -> 0 <= r' < Z.of_nat (length (regs s)) ->
  get_reg (set_reg r' v s) r = if r =? r' then v else get_reg s r.
Proof.
  intros Hr Hr'. unfold get_reg, set_reg. cbn [regs upd_field].
  destruct (Z.eqb_spec r r') as [->|Hne].
  - apply nth_lookup_Some. apply list_lookup_insert_eq. lia.
  - destruct (decide (Z.to_nat r < length (regs s))%nat) as [Hl|Hl].
    + destruct (lookup_lt_is_Some_2 (regs s) (Z.to_nat r) Hl) as [b Hb].
      rewrite (nth_lookup_Some (regs s) _ _ _ Hb). apply nth_lookup_Some.
      by rewrite list_lookup_insert_ne by lia.
    + rewrite !nth_overflow; [done|lia|rewrite length_insert; lia].
Qed.

Definition regs_ok (s : Cmos) : Prop := length (regs s) = 128%nat.

Lemma set_reg_ok r v s : regs_ok s -> regs_ok (set_reg r v s).
Proof. unfold regs_ok, set_reg. cbn [regs upd_field]. by rewrite length_insert. Qed.

(** The refresh writes each field from one host reading, and nothing else. *)
Lemma refresh_reg s r :
  regs_ok s -> 0 <= r < 128 ->
  get_reg (refresh_time s) r =
  match time_field (times s (cursor s)) r with
  | Some _ =>
      let t := times s (cursor s) in
      encode_time_value s (if r =? 0x06 then u16 (wDayOfWeek t + 1) else
        default 0 (time_field t r))
  | None => get_reg s r
  end /\ regs_ok (refresh_time s) /\ selected (refresh_time s) = selected s /\
  times (refresh_time s) = times s.
Proof.
  intros Hs Hr. unfold refresh_time. cbv zeta. set (t := times s (cursor s)).
  set (s0 := s <| cursor := S (cursor s) |>).
  assert (Hs0 : regs_ok s0) by done.
  assert (Hset : forall r' v s, regs_ok s -> 0 <= r' < 128 ->
            get_reg (set_reg r' v s) r = if r =? r' then v else get_reg s r)
    by (intros r' v s' Hs' Hr'; apply get_set_reg; [lia|]; unfold regs_ok in Hs'; lia).
  assert (HB : forall r' v v' s, regs_ok s -> 0 <= r' < 128 -> r' <> 0x0B ->
            encode_time_value (set_reg r' v s) v' = encode_time_value s v').
  { intros r' v v' s' Hs' Hr' Hne. unfold encode_time_value.
    rewrite get_set_reg by (unfold regs_ok in Hs'; lia).
    destruct (Z.eqb_spec 11 r'); [congruence|done]. }
  repeat match goal with |- _ /\ _ => split end; try done; [|by repeat apply set_reg_ok].
  rewrite !Hset by (try (repeat apply set_reg_ok; done); lia).
  rewrite !HB by (try (repeat apply set_reg_ok; done); lia).
  change (encode_time_value s0) with (encode_time_value s).
  change (get_reg s0 r) with (get_reg s r).
  repeat match goal with
  | |- context [r =? ?k] => destruct (Z.eqb_spec r k) as [->|]; [reflexivity|]
  end.
  replace (time_field t r) with (@None Z); [done|].
  unfold time_field. destruct r as [|p|]; try done.
  do 6 (destruct p as [p|p|]; try done).
Qed.

Lemma Cmos_new_ok t : regs_ok (Cmos_new t).
Proof. by apply (refresh_reg _ 0); [repeat apply set_reg_ok|]. Qed.
Lemma write_port_ok port value s : regs_ok s -> regs_ok (write_port port value s).
Proof.
  intros Hs. unfold write_port. destruct (port =? 0x70); [done|]. destruct (port =? 0x71); [|done].
  destruct (_ || _); [by apply set_reg_ok|done].
Qed.
Lemma read_port_ok port s : regs_ok s -> regs_ok (read_port port s).2.
Proof.
  intros Hs. unfold read_port. destruct (port =? 0x71); [|done]. cbn [snd].
  by destruct (refresh_reg s 0 Hs ltac:(lia)) as (_ & ? & _).
Qed.

(** Port accesses of the guest. *)
Inductive guest_history (t : nat -> SystemTime) : Cmos -> Prop :=
  | at_start : guest_history t (Cmos_new t)
  | then_write s port value : guest_history t s -> guest_history t (write_port port value s)
  | then_read s port : guest_history t s -> guest_history t (read_port port s).2.

Lemma history_ok t s : guest_history t s -> regs_ok s /\ times s = t.
Proof.
  induction 1 as [|s port value _ [IH IHt]|s port _ [IH IHt]].
  - split; [apply Cmos_new_ok|done].
  - split; [by apply write_port_ok|]. rewrite <- IHt. unfold write_port.
    destruct (port =? 0x70); [done|]. destruct (port =? 0x71); [|done]. by destruct (_ || _).
  - unfold read_port. destruct (port =? 0x71); [|done]. cbn [snd].
    destruct (refresh_reg s 0 IH ltac:(lia)) as (_ & Hr & _ & Ht). by rewrite Ht.
Qed.

(** Whatever the guest wrote to and read from the CMOS before, reading a date or
    time register shows the host's time at that moment: the register decodes, in the
    format register B selects, to the field of the current host reading. *)
Theorem cmos_shows_host_time t s r v :
  guest_history t s -> time_ok (t (cursor s)) ->
  Z.land (selected s) 0x7F = r -> time_field (t (cursor s)) r = Some v ->
  decode_time (has (get_reg s 0x0B) 0x04) (read_port 0x71 s).1 = v.
Proof.
  intros Hh Ht Hsel Hf. destruct (history_ok t s Hh) as [Hs Htimes].
  assert (Hr : 0 <= r < 128) by (subst r; apply (land_range _ _ 7); lia).
  destruct (refresh_reg s r Hs Hr) as (Hg & _ & Hse & _).
  unfold read_port. cbn [Z.eqb Pos.eqb]. cbn [fst]. rewrite Hse, Hsel, Hg, Htimes, Hf.
  pose proof (time_field_range _ _ _ Ht Hf) as Hv. cbv zeta.
  replace (if r =? 6 then _ else _) with v; [by apply decode_encode|].
  destruct (Z.eqb_spec r 6) as [->|]; [|by rewrite Hf].
  cbn in Hf. injection Hf as <-. rewrite u16_small by lia. done.
Qed.

Lemma cmos_shows_host_time_witness :
  let t := fun _ : nat => mkTime 2024 12 2 31 23 59 58 in
  let s := write_port 0x70 0x08 (write_port 0x71 0x55 (write_port 0x70 0x08 (Cmos_new t))) in
  decode_time (has (get_reg s 0x0B) 0x04) (read_port 0x71 s).1 = 12.
Proof.
  intros t s. apply (cmos_shows_host_time t s 8 12).
  - repeat apply then_write. apply at_start.
  - split; cbn; lia.
  - reflexivity.
  - reflexivity.
Defined.
