(* ===== verification/PmTimer.v ===== *)
(** * native/whp/devices/acpi_pm_timer.cc: the ACPI power-management timer

    A free-running counter at 3.579545 MHz read through four I/O ports.  The theorems
    give the window in which it counts as ACPI asks, and what happens after it. *)

From S2P Require Import Prelude Words Clock.

Definition kPort : Z := 0x408.
Definition kPmTimerHz : Z := 3579545.

Record AcpiPmTimer := mkPmTimer { started_at : Z; clock : Clock }.
#[export] Instance eta_PmTimer : Eta AcpiPmTimer := fun s => mkPmTimer (started_at s) (clock s).

Definition AcpiPmTimer_new (c : Clock) : AcpiPmTimer := mkPmTimer (clock_now c) (clock_tick c).

(** [counter()] at a clock reading [t]. *)
Definition counter_at (s : AcpiPmTimer) (t : Z) : Z :=
  let elapsed := t - started_at s in
  if elapsed <=? 0 then 0
  else u32 (u64 (u64 elapsed * kPmTimerHz) / 1000000000).

Definition counter (s : AcpiPmTimer) : Z * AcpiPmTimer :=
  (counter_at s (clock_now (clock s)), s <| clock := clock_tick (clock s) |>).

Definition read (port size : Z) (s : AcpiPmTimer) : Z * AcpiPmTimer :=
  if (port <? kPort) || (kPort + 4 <=? port) || (size =? 0) || (4 <? size) then (0, s)
  else
    let shift := u8 ((port - kPort) * 8) in
    let '(c, s) := counter s in (u32 (Z.shiftr c shift), s).

(** For the first 2^64 / 3579545 ns after power-on (about 86 minutes) a 32-bit
    read gives the elapsed time in timer ticks modulo 2^32, as ACPI asks, and reads of
    the four ports are the bytes of that value shifted down; one nanosecond later the
    64-bit product wraps and the counter falls back to zero, 18446744073 ticks short. *)
Theorem pm_timer_counts s :
  let e := clock_now (clock s) - started_at s in
  (0 <= e <= 5153376776576 ->
     (forall i size, 0 <= i < 4 -> 1 <= size <= 4 ->
        (read (kPort + i) size s).1 = (e * kPmTimerHz / 1000000000) mod 2 ^ 32 / 2 ^ (8 * i))) /\
  (e = 5153376776577 -> (read kPort 4 s).1 = 0 /\ e * kPmTimerHz / 1000000000 = 18446744073).
Proof.
  intros e. split.
  - intros He i size Hi Hsz. unfold read.
    replace ((kPort + i <? kPort) || (kPort + 4 <=? kPort + i) || (size =? 0) || (4 <? size)) with false by lia.
    cbn [counter fst]. replace (kPort + i - kPort) with i by lia. rewrite u8_small by lia.
    unfold counter_at. fold e.
    assert (Hc : (if e <=? 0 then 0 else u32 (u64 (u64 e * kPmTimerHz) / 1000000000)) =
                 (e * kPmTimerHz / 1000000000) mod 2 ^ 32).
    { unfold kPmTimerHz. destruct (Z.leb_spec e 0).
      - by replace e with 0 by lia.
      - by rewrite !u64_small by (rewrite ?u64_small; lia). }
    rewrite Hc. assert (0 <= (e * kPmTimerHz / 1000000000) mod 2 ^ 32 < 2 ^ 32) by (apply Z.mod_pos_bound; lia).
    rewrite Z.shiftr_div_pow2 by lia. replace (i * 8) with (8 * i) by lia.
    pose proof (Z.pow_pos_nonneg 2 (8 * i)). apply u32_small. split; [apply Z.div_pos; lia|].
    apply Z.div_lt_upper_bound; nia.
  - intros He. unfold read, counter, counter_at. cbn [fst]. fold e. rewrite He. by vm_compute.
Qed.

Lemma pm_timer_counts_witness :
  let s := AcpiPmTimer_new (mkClock (fun n => 1000000000 * Z.of_nat n) 0) in
  (read kPort 4 s).1 = 3579545.
Proof.
  intros s. destruct (pm_timer_counts s) as [H _].
  rewrite <- (Z.add_0_r kPort), H; [reflexivity|cbn; lia|lia|lia].
Defined.
