(* ===== verification/Hpet.v ===== *)
(** * native/whp/devices/hpet.cc: the high-precision event timers

    The 100 MHz main counter, three comparators with their routing, the level-interrupt
    status register, and the expiry poll of the timer thread.  The interrupt-line
    callback the machine attaches is the list of its calls.  The theorems: what a poll
    fires and where it leaves each comparator, when its catch-up loop ends, and the
    invariant that ties the status register to the lines it holds. *)

From S2P Require Import Prelude Words Bytes Clock.

Record Irq := mkIrq { ioapic_pin : Z; pic_irq : Z; level : bool }.

Definition kBase : Z := 0xFED00000.
Definition kSize : Z := 0x400.
Definition kClockPeriodNs : Z := 10.
Definition kClockPeriodFs : Z := kClockPeriodNs * 1000000.
Definition kNumTimers : Z := 3.
Definition kTimer0IoApicPin : Z := 2.
Definition kIntCap : Z := Z.shiftl 1 kTimer0IoApicPin.
Definition kCapabilities : Z :=
  Z.lor (Z.lor 0x8086A001 (Z.shiftl (kNumTimers - 1) 8)) (Z.shiftl kClockPeriodFs 32).
Definition kCfgEnable : Z := 0x001.
Definition kCfgLegacy : Z := 0x002.
Definition kCfgWriteMask : Z := 0x003.
Definition kTimerTypeLevel : Z := 0x002.
Definition kTimerEnable : Z := 0x004.
Definition kTimerPeriodic : Z := 0x008.
Definition kTimerPeriodicCap : Z := 0x010.
Definition kTimerSizeCap : Z := 0x020.
Definition kTimerSetVal : Z := 0x040.
Definition kTimer32Bit : Z := 0x100.
Definition kTimerIntRouteMask : Z := 0x3E00.
Definition kTimerCfgWriteMask : Z := 0x7F4E.
Definition kTimerIntRouteShift : Z := 9.
Definition kTimerIntRouteCapShift : Z := 32.

(** [tconfig] is the source's [Timer::config]. *)
Record Timer := mkTimer { tconfig : Z; cmp : Z; cmp64 : Z; period : Z; armed : bool }.
#[export] Instance eta_Timer : Eta Timer := fun t =>
  mkTimer (tconfig t) (cmp t) (cmp64 t) (period t) (armed t).

Definition initial_timer : Timer := mkTimer 0 UINT64_MAX UINT64_MAX 0 false.

Record Hpet := mkHpet {
  timers : list Timer; asserted_irqs : list (option Irq);
  config : Z; isr : Z; counter_base : Z; counter_started_at : Z;
  has_irq_line : bool;
  irq_line : list (Z * bool);   (** the calls of the callback, latest last *)
  clock : Clock }.
#[export] Instance eta_Hpet : Eta Hpet := fun s =>
  mkHpet (timers s) (asserted_irqs s) (config s) (isr s) (counter_base s)
         (counter_started_at s) (has_irq_line s) (irq_line s) (clock s).

Definition timer (s : Hpet) (i : Z) : Timer := nth (Z.to_nat i) (timers s) initial_timer.
Definition asserted (s : Hpet) (i : Z) : option Irq := nth (Z.to_nat i) (asserted_irqs s) None.
Definition update_timer (i : Z) (f : Timer -> Timer) (s : Hpet) : Hpet :=
  s <| timers := alter f (Z.to_nat i) (timers s) |>.
Definition set_asserted (i : Z) (x : option Irq) (s : Hpet) : Hpet :=
  s <| asserted_irqs := <[ Z.to_nat i := x ]> (asserted_irqs s) |>.
Definition timer_ids : list Z := seqZ 0 kNumTimers.

Definition Hpet_new (c : Clock) : Hpet :=
  let cfg := Z.lor (Z.lor kTimerPeriodicCap kTimerSizeCap) (Z.shiftl kIntCap kTimerIntRouteCapShift) in
  mkHpet (repeat (mkTimer cfg UINT64_MAX UINT64_MAX 0 false) 3) (repeat None 3)
         0 0 0 (clock_now c) false [] (clock_tick c).

Definition attach_irq_line (s : Hpet) : Hpet := s <| has_irq_line := true |>.
Definition legacy_mode (s : Hpet) : bool := has (config s) kCfgLegacy.

Definition valid_access (addr len : Z) : bool :=
  negb (len =? 0) && (len <=? 8) && (kBase <=? addr) && (addr <? kBase + kSize) &&
  (len <=? kBase + kSize - addr).

Definition counter_reached (now target : Z) : bool := i64 (u64 (target - now)) <=? 0.

Definition now : M Hpet Z := fun s => (Ok (clock_now (clock s)), s <| clock := clock_tick (clock s) |>).

Definition counter : M Hpet Z :=
  gets config ≫= fun cfg =>
  if negb (has cfg kCfgEnable) then gets counter_base
  else
    now ≫= fun t =>
    gets counter_started_at ≫= fun t0 =>
    let elapsed := t - t0 in
    let ticks := if elapsed <=? 0 then 0 else u64 elapsed / kClockPeriodNs in
    gets counter_base ≫= fun b => mret (u64 (b + ticks)).

(** ** Routing and lines *)

Definition route_for_timer (i : Z) (s : Hpet) : Irq :=
  let lvl := has (tconfig (timer s i)) kTimerTypeLevel in
  if (i <=? 1) && has (config s) kCfgLegacy then
    if i =? 0 then mkIrq kTimer0IoApicPin 0 lvl else mkIrq 8 8 lvl
  else
    mkIrq (u32 (Z.shiftr (Z.land (tconfig (timer s i)) kTimerIntRouteMask) kTimerIntRouteShift)) 0xFF lvl.

Definition lower_line (irq : Irq) (s : Hpet) : Hpet :=
  if has_irq_line s && level irq && (ioapic_pin irq <? 24)
  then s <| irq_line := irq_line s ++ [(ioapic_pin irq, false)] |> else s.

Definition deassert_irq (cleared i : Z) (s : Hpet) : Hpet :=
  if negb (has cleared (Z.shiftl 1 i)) then s
  else
    let irq := default (route_for_timer i s) (asserted s i) in
    lower_line irq (set_asserted i None s).

Definition deassert_cleared_irqs (cleared : Z) (s : Hpet) : Hpet :=
  fold_left (fun s i => deassert_irq cleared i s) timer_ids s.

(** The three places that clear status bits. *)
Definition clear_isr (clear : Z) (s : Hpet) : Hpet :=
  let cleared := Z.land (isr s) clear in
  deassert_cleared_irqs cleared (s <| isr := Z.land (isr s) (bnot 64 clear) |>).

(** ** Comparators *)

Definition set_timer (i : Z) : M Hpet unit :=
  modify (update_timer i (fun t => t <| armed := false |>)) ≫= fun _ =>
  gets config ≫= fun cfg => gets (fun s => timer s i) ≫= fun t =>
  if negb (has cfg kCfgEnable) || negb (has (tconfig t) kTimerEnable) then mret tt
  else
    counter ≫= fun now =>
    (if has (tconfig t) kTimer32Bit then
       let c := Z.lor (Z.land now (bnot 64 0xFFFFFFFF)) (u32 (cmp t)) in
       let c := if i64 (u64 (c - now)) <? 0 then u64 (c + 0x100000000) else c in
       modify (update_timer i (fun t => t <| cmp64 := c |>))
     else modify (update_timer i (fun t => t <| cmp64 := cmp t |>))) ≫= fun _ =>
    modify (update_timer i (fun t => t <| armed := true |>)).

Definition reprogram_timers : M Hpet unit := for_each set_timer timer_ids.

Definition disarm_all (s : Hpet) : Hpet :=
  s <| timers := map (fun t => t <| armed := false |>) (timers s) |>.

Definition write_config (shift bits value : Z) : M Hpet unit :=
  gets config ≫= fun old =>
  let next := DepositBits old shift bits value in
  let next := Z.lor (Z.land next kCfgWriteMask) (Z.land old (bnot 64 kCfgWriteMask)) in
  let was_enabled := has old kCfgEnable in
  let will_enable := has next kCfgEnable in
  when (was_enabled && negb will_enable)
    (counter ≫= fun c => modify (fun s => s <| counter_base := c |>)) ≫= fun _ =>
  modify (fun s => s <| config := next |>) ≫= fun _ =>
  when (negb was_enabled && will_enable)
    (now ≫= fun t => modify (fun s => s <| counter_started_at := t |>)) ≫= fun _ =>
  if will_enable then reprogram_timers
  else
    modify disarm_all ≫= fun _ =>
    modify (fun s =>
      let cleared := isr s in deassert_cleared_irqs cleared (s <| isr := 0 |>)).

Definition write_timer_config (i shift bits value : Z) : M Hpet unit :=
  gets (fun s => tconfig (timer s i)) ≫= fun old =>
  let next := DepositBits old shift bits value in
  let next := Z.lor (Z.land next kTimerCfgWriteMask) (Z.land old (bnot 64 kTimerCfgWriteMask)) in
  let clear_level_irq :=
    has old kTimerTypeLevel && (negb (has next kTimerTypeLevel) || negb (has next kTimerEnable)) in
  when clear_level_irq (modify (clear_isr (Z.shiftl 1 i))) ≫= fun _ =>
  modify (update_timer i (fun t => t <| tconfig := next |>)) ≫= fun _ =>
  when (has next kTimer32Bit)
    (modify (update_timer i (fun t =>
       let t := t <| cmp := u32 (cmp t) |> in t <| period := u32 (period t) |>))) ≫= fun _ =>
  set_timer i.

Definition write_timer_cmp (i shift bits value : Z) : M Hpet unit :=
  gets (fun s => timer s i) ≫= fun t =>
  if has (tconfig t) kTimer32Bit && negb (shift =? 0) then mret tt
  else
    let wide := has (tconfig t) kTimer32Bit in
    let bits := if wide then 64 else bits in
    let value := if wide then u32 value else value in
    when (negb (has (tconfig t) kTimerPeriodic) || has (tconfig t) kTimerSetVal)
      (modify (update_timer i (fun t => t <| cmp := DepositBits (cmp t) shift bits value |>))) ≫= fun _ =>
    when (has (tconfig t) kTimerPeriodic)
      (modify (update_timer i (fun t => t <| period := DepositBits (period t) shift bits value |>))) ≫= fun _ =>
    modify (update_timer i (fun t => t <| tconfig := Z.land (tconfig t) (bnot 64 kTimerSetVal) |>)) ≫= fun _ =>
    set_timer i.

(** ** Registers *)

Definition read_reg (off : Z) : M Hpet Z :=
  if off <=? 0xFF then
    if off =? 0x000 then mret kCapabilities
    else if off =? 0x010 then gets config
    else if off =? 0x020 then gets isr
    else if off =? 0x0F0 then counter
    else mret 0
  else
    let timer_id := (off - 0x100) / 0x20 in
    if kNumTimers <=? timer_id then mret 0
    else
      gets (fun s => timer s timer_id) ≫= fun t =>
      let r := Z.land off 0x18 in
      if r =? 0x00 then mret (tconfig t) else if r =? 0x08 then mret (cmp t) else mret 0.

Definition write_reg (off shift bits value : Z) : M Hpet unit :=
  if off <=? 0xFF then
    if off =? 0x010 then write_config shift bits value
    else if off =? 0x020 then modify (clear_isr (DepositBits 0 shift bits value))
    else if off =? 0x0F0 then
      gets config ≫= fun cfg =>
      when (negb (has cfg kCfgEnable))
        (modify (fun s => s <| counter_base := DepositBits (counter_base s) shift bits value |>))
    else mret tt
  else
    let timer_id := (off - 0x100) / 0x20 in
    if kNumTimers <=? timer_id then mret tt
    else
      let r := Z.land off 0x18 in
      if r =? 0x00 then write_timer_config timer_id shift bits value
      else if r =? 0x08 then write_timer_cmp timer_id shift bits value
      else mret tt.

Definition read_mmio (addr len : Z) : M Hpet (list Z) :=
  if negb (valid_access addr len) then mret (repeat 0 (Z.to_nat len))
  else
    let off := addr - kBase in
    let shift := Z.land off 4 * 8 in
    read_reg (Z.land off (bnot 64 4)) ≫= fun value => mret (WriteLe len (Z.shiftr value shift)).

Definition write_mmio (addr : Z) (data : list Z) : M Hpet unit :=
  let len := Z.of_nat (length data) in
  if negb (valid_access addr len) then mret tt
  else
    let off := addr - kBase in
    let shift := Z.land off 4 * 8 in
    let bits := Z.min (len * 8) (64 - shift) in
    write_reg (Z.land off (bnot 64 4)) shift bits (ReadLe data len).

(** ** The poll of the timer thread *)

(** [do { cmp64 += period; } while (counter_reached(now, cmp64));] *)
Definition catch_up (now period c : Z) : Z + Z :=
  let c := u64 (c + period) in if counter_reached now c then inl c else inr c.

Definition poll_timer (now i : Z) : M Hpet (list Irq) :=
  gets (fun s => timer s i) ≫= fun t =>
  if negb (armed t) || negb (has (tconfig t) kTimerEnable) then mret []
  else if negb (counter_reached now (cmp64 t)) then mret []
  else
    gets (route_for_timer i) ≫= fun irq =>
    when (has (tconfig t) kTimerTypeLevel)
      (modify (fun s => set_asserted i (Some irq) (s <| isr := Z.lor (isr s) (Z.shiftl 1 i) |>))) ≫= fun _ =>
    (if has (tconfig t) kTimerPeriodic && negb (period t =? 0) then
       match repeat_until (catch_up now (period t)) 64 (cmp64 t) with
       | inl _ => fail_fuel
       | inr c =>
           modify (update_timer i (fun t =>
             let t := t <| cmp64 := c |> in
             t <| cmp := if has (tconfig t) kTimer32Bit then u32 c else c |>))
       end
     else modify (update_timer i (fun t => t <| armed := false |>))) ≫= fun _ =>
    mret [irq].

Fixpoint poll_timers (now : Z) (ids : list Z) : M Hpet (list Irq) :=
  match ids with
  | [] => mret []
  | i :: ids =>
      poll_timer now i ≫= fun irqs => poll_timers now ids ≫= fun rest => mret (irqs ++ rest)
  end.

Definition poll_expired : M Hpet (list Irq) :=
  gets config ≫= fun cfg =>
  if negb (has cfg kCfgEnable) then mret []
  else counter ≫= fun now => poll_timers now timer_ids.

(** ** Well-formed states *)

Lemma timer_update i j f s :
  0 <= i < Z.of_nat (length (timers s)) -> 0 <= j ->
  timer (update_timer i f s) j = if j =? i then f (timer s j) else timer s j.
Proof.
  intros Hi Hj. unfold timer, update_timer. cbn [timers upd_field].
  destruct (Z.eqb_spec j i) as [->|Hne].
  - destruct (lookup_lt_is_Some_2 (timers s) (Z.to_nat i) ltac:(lia)) as [t Ht].
    rewrite (nth_lookup_Some _ _ _ _ Ht). apply nth_lookup_Some.
    by rewrite list_lookup_alter_eq, Ht.
  - rewrite !nth_lookup. by rewrite list_lookup_alter_ne by lia.
Qed.

Lemma asserted_set i j x s :
  0 <= i < Z.of_nat (length (asserted_irqs s)) -> 0 <= j ->
  asserted (set_asserted i x s) j = if j =? i then x else asserted s j.
Proof.
  intros Hi Hj. unfold asserted, set_asserted. cbn [asserted_irqs upd_field].
  destruct (Z.eqb_spec j i) as [->|Hne].
  - apply nth_lookup_Some. apply list_lookup_insert_eq. lia.
  - rewrite !nth_lookup. by rewrite list_lookup_insert_ne by lia.
Qed.

(** The read-only bits of a timer configuration, and its other fields. *)
Definition timer_caps : Z :=
  Z.lor (Z.lor kTimerPeriodicCap kTimerSizeCap) (Z.shiftl kIntCap kTimerIntRouteCapShift).

Record timer_ok (t : Timer) : Prop := {
  tk_caps : Z.land (tconfig t) (bnot 64 kTimerCfgWriteMask) = timer_caps;
  tk_config : 0 <= tconfig t < 2 ^ 64;
  tk_cmp : 0 <= cmp t < 2 ^ 64;
  tk_cmp64 : 0 <= cmp64 t < 2 ^ 64;
  tk_period : 0 <= period t < 2 ^ 64;
  tk_32 : has (tconfig t) kTimer32Bit = true -> cmp t < 2 ^ 32 /\ period t < 2 ^ 32 }.

(** The status bit of timer [i] is set exactly while the device remembers which line
    it asserted for it, and that was a level interrupt. *)
Definition line_tied (s : Hpet) (i : Z) : Prop :=
  match asserted s i with
  | Some irq => Z.testbit (isr s) i = true /\ level irq = true
  | None => Z.testbit (isr s) i = false
  end.

(** A timer counts down only while it and the device are enabled. *)
Definition armed_enabled (s : Hpet) (i : Z) : Prop :=
  armed (timer s i) = true ->
  has (config s) kCfgEnable = true /\ has (tconfig (timer s i)) kTimerEnable = true.

Record hpet_ok (s : Hpet) : Prop := {
  h_timers : length (timers s) = 3%nat;
  h_asserted : length (asserted_irqs s) = 3%nat;
  h_timer : forall i, 0 <= i < 3 -> timer_ok (timer s i);
  h_config : 0 <= config s < 4;
  h_isr : 0 <= isr s < 8;
  h_base : 0 <= counter_base s < 2 ^ 64;
  h_tied : forall i, 0 <= i < 3 -> line_tied s i;
  h_armed : forall i, 0 <= i < 3 -> armed_enabled s i }.

(** ** The poll *)

Definition counter_at (s : Hpet) (t : Z) : Z :=
  if negb (has (config s) kCfgEnable) then counter_base s
  else
    let elapsed := t - counter_started_at s in
    u64 (counter_base s + (if elapsed <=? 0 then 0 else u64 elapsed / kClockPeriodNs)).

Lemma counter_run s :
  exists c, counter s = (Ok (counter_at s (clock_now (clock s))), s <| clock := c |>).
Proof.
  unfold counter, counter_at. rewrite gets_bind. destruct (negb _).
  - exists (clock s). by destruct s.
  - by exists (clock_tick (clock s)).
Qed.

Definition fires (now : Z) (t : Timer) : bool :=
  armed t && has (tconfig t) kTimerEnable && counter_reached now (cmp64 t).
Definition periodic (t : Timer) : bool := has (tconfig t) kTimerPeriodic && negb (period t =? 0).

(** [c] is the first comparator value after the current one, in steps of the period,
    that the counter has not reached. *)
Definition next_deadline (now : Z) (t : Timer) (c : Z) : Prop :=
  exists k, 1 <= k /\ c = u64 (cmp64 t + k * period t) /\ counter_reached now c = false /\
    forall j, 1 <= j < k -> counter_reached now (u64 (cmp64 t + j * period t)) = true.

Definition polled (now : Z) (t t' : Timer) : Prop :=
  if fires now t then
    if periodic t then
      exists c, next_deadline now t c /\
        t' = mkTimer (tconfig t) (if has (tconfig t) kTimer32Bit then u32 c else c) c (period t) true
    else t' = t <| armed := false |>
  else t' = t.

(** The one case in which the catch-up loop has no end: half of the counter's range as
    the period, and the counter exactly at the comparator or opposite to it. *)
Definition stuck (now : Z) (t : Timer) : Prop :=
  fires now t = true /\ periodic t = true /\ period t = 2 ^ 63 /\
  (u64 (now - cmp64 t) = 0 \/ u64 (now - cmp64 t) = 2 ^ 63).

Lemma reached_dist now c : counter_reached now c = (u64 (now - c) <=? 2 ^ 63).
Proof.
  unfold counter_reached, i64, u64. apply eq_bool_prop_intro.
  rewrite !Is_true_true, !Z.leb_le. Z.to_euclidean_division_equations. lia.
Qed.

Lemma dist_step now c p : 0 <= p < 2 ^ 64 ->
  u64 (now - u64 (c + p)) =
  if p <=? u64 (now - c) then u64 (now - c) - p else u64 (now - c) - p + 2 ^ 64.
Proof.
  intros Hp. unfold u64. destruct (Z.leb_spec p ((now - c) mod 2 ^ 64)) as [H|H];
    revert H; Z.to_euclidean_division_equations; lia.
Qed.

Section CatchUp.
Context (now p c0 : Z) (Hp : 0 < p < 2 ^ 64) (Hc0 : 0 <= c0 < 2 ^ 64).
Context (Hr0 : u64 (now - c0) <= 2 ^ 63).
Context (Hns : ~ (p = 2 ^ 63 /\ (u64 (now - c0) = 0 \/ u64 (now - c0) = 2 ^ 63))).

Definition catch_inv (c : Z) : Prop :=
  0 <= u64 (now - c) <= 2 ^ 63 /\ (p = 2 ^ 63 -> c = c0) /\
  exists k, 0 <= k /\ c = u64 (c0 + k * p) /\
    forall j, 1 <= j <= k -> counter_reached now (u64 (c0 + j * p)) = true.

Definition catch_end (c : Z) : Prop :=
  exists k, 1 <= k /\ c = u64 (c0 + k * p) /\ counter_reached now c = false /\
    forall j, 1 <= j < k -> counter_reached now (u64 (c0 + j * p)) = true.

Definition catch_measure (c : Z) : Z :=
  if p <? 2 ^ 63 then u64 (now - c) else 2 ^ 63 - u64 (now - c).

Lemma catch_up_step c : catch_inv c ->
  match catch_up now p c with
  | inl y => catch_inv y /\ 0 <= catch_measure y < catch_measure c
  | inr y => catch_end y
  end.
Proof.
  intros (Hd & Heq & k & Hk & Hc & Hj). unfold catch_up.
  assert (Hnext : u64 (c + p) = u64 (c0 + (k + 1) * p)).
  { rewrite Hc. unfold u64. rewrite Zplus_mod_idemp_l. f_equal. lia. }
  destruct (counter_reached now (u64 (c + p))) eqn:Hr.
  - pose proof Hr as Hr'. rewrite reached_dist in Hr'. apply Z.leb_le in Hr'.
    pose proof (dist_step now c p ltac:(lia)) as Hs. unfold catch_measure.
    assert (p <> 2 ^ 63) as Hne.
    { intros E. specialize (Heq E). subst c. apply Hns. split; [done|].
      rewrite Hs in Hr'. destruct (Z.leb_spec p (u64 (now - c0))); lia. }
    split; [split; [pose proof (u64_range (now - u64 (c + p))); lia|split; [done|]]|].
    + exists (k + 1). split; [lia|]. split; [done|]. intros j Hjk.
      destruct (decide (j = k + 1)) as [->|]; [by rewrite <- Hnext|apply Hj; lia].
    + destruct (Z.leb_spec p (u64 (now - c))), (Z.ltb_spec p (2 ^ 63)); lia.
  - exists (k + 1). split; [lia|]. split; [done|]. split; [done|]. intros j Hjk. apply Hj. lia.
Qed.

Lemma catch_up_ends : exists c, repeat_until (catch_up now p) 64 c0 = inr c /\ catch_end c.
Proof.
  apply (repeat_until_ends _ catch_inv catch_end catch_measure catch_up_step).
  - split; [pose proof (u64_range (now - c0)); lia|]. split; [done|]. exists 0. split; [lia|].
    split; [by rewrite Z.mul_0_l, Z.add_0_r, u64_small|]. intros; lia.
  - unfold catch_measure. pose proof (u64_range (now - c0)). change (2 ^ Z.of_nat 64) with (2 ^ 64).
    destruct (_ <? _); lia.
Qed.
End CatchUp.

(** What a poll of timer [i] leaves alone. *)
Record same_device (s s' : Hpet) : Prop := {
  sd_timers : length (timers s') = length (timers s);
  sd_asserted : length (asserted_irqs s') = length (asserted_irqs s);
  sd_config : config s' = config s;
  sd_base : counter_base s' = counter_base s;
  sd_start : counter_started_at s' = counter_started_at s;
  sd_line : irq_line s' = irq_line s;
  sd_isr : 0 <= isr s < 8 -> 0 <= isr s' < 8 }.

Lemma same_device_refl s : same_device s s.
Proof. done. Qed.
Lemma same_device_trans s1 s2 s3 : same_device s1 s2 -> same_device s2 s3 -> same_device s1 s3.
Proof. intros [] []. constructor; try congruence. auto. Qed.

(** Timer [i] fired with routing [irq]: the level interrupts latch. *)
Definition latched (now i : Z) (s s' : Hpet) : Prop :=
  if fires now (timer s i) && has (tconfig (timer s i)) kTimerTypeLevel
  then isr s' = Z.lor (isr s) (Z.shiftl 1 i) /\
       forall j, 0 <= j -> asserted s' j = if j =? i then Some (route_for_timer i s) else asserted s j
  else isr s' = isr s /\ forall j, 0 <= j -> asserted s' j = asserted s j.

Definition fired_irqs (now : Z) (s : Hpet) (i : Z) : list Irq :=
  if fires now (timer s i) then [route_for_timer i s] else [].

Definition latch (i : Z) (s : Hpet) : Hpet :=
  set_asserted i (Some (route_for_timer i s)) (s <| isr := Z.lor (isr s) (Z.shiftl 1 i) |>).

Lemma poll_timer_run now i s :
  0 <= i < 3 -> length (timers s) = 3%nat -> 0 <= cmp64 (timer s i) < 2 ^ 64 ->
  0 <= period (timer s i) < 2 ^ 64 -> ~ stuck now (timer s i) ->
  exists t', polled now (timer s i) t' /\
  poll_timer now i s =
    (Ok (fired_irqs now s i),
     if fires now (timer s i)
     then update_timer i (fun _ => t')
            (if has (tconfig (timer s i)) kTimerTypeLevel then latch i s else s)
     else s).
Proof.
  intros Hi Hlen Hc Hp Hns. unfold poll_timer, polled, fired_irqs.
  rewrite gets_bind. set (t := timer s i) in *. unfold fires.
  assert (Hns' : fires now t = true -> periodic t = true -> period t = 2 ^ 63 ->
    u64 (now - cmp64 t) = 0 \/ u64 (now - cmp64 t) = 2 ^ 63 -> False) by (intros; by apply Hns).
  unfold fires, periodic in Hns'. destruct (armed t) eqn:Ha; cbn [negb orb andb]; [|by exists t].
  destruct (has (tconfig t) kTimerEnable); cbn [negb andb]; [|by exists t].
  destruct (counter_reached now (cmp64 t)) eqn:Hr; cbn [negb]; [|by exists t].
  rewrite gets_bind. pose proof Hr as Hr'. rewrite reached_dist in Hr. apply Z.leb_le in Hr.
  set (s1 := if has (tconfig t) kTimerTypeLevel then latch i s else s).
  assert (Hw : forall (f : unit -> M Hpet (list Irq)),
    (when (has (tconfig t) kTimerTypeLevel)
      (modify (fun s0 => set_asserted i (Some (route_for_timer i s))
         (s0 <| isr := Z.lor (isr s0) (Z.shiftl 1 i) |>))) ≫= f) s = f tt s1).
  { intros f. unfold s1. by destruct (has (tconfig t) kTimerTypeLevel). }
  rewrite Hw. assert (Ht : timer s1 i = t) by (unfold s1; by destruct (has (tconfig t) kTimerTypeLevel)).
  assert (Halter : forall f, update_timer i f s1 = update_timer i (fun _ => f t) s1).
  { intros f. unfold update_timer.
    enough (alter f (Z.to_nat i) (timers s1) = alter (fun _ => f t) (Z.to_nat i) (timers s1)) as -> by done.
    apply list_alter_ext; [|done].
    intros x Hx. rewrite <- Ht. unfold timer. by rewrite (nth_lookup_Some _ _ _ _ Hx). }
  unfold periodic. destruct (has (tconfig t) kTimerPeriodic && negb (period t =? 0)) eqn:Hper.
  - specialize (Hns' eq_refl eq_refl).
    apply andb_prop in Hper as [_ Hp0]. apply negb_true_iff, Z.eqb_neq in Hp0.
    destruct (catch_up_ends now (period t) (cmp64 t) ltac:(lia) Hc Hr ltac:(tauto)) as (c & -> & Hend).
    exists (mkTimer (tconfig t) (if has (tconfig t) kTimer32Bit then u32 c else c) c (period t) true).
    split; [by exists c|]. rewrite modify_bind, Halter. by rewrite <- Ha.
  - exists (t <| armed := false |>). split; [done|]. rewrite modify_bind. by rewrite Halter.
Qed.

Lemma poll_timer_spec now i s :
  0 <= i < 3 -> length (timers s) = 3%nat -> length (asserted_irqs s) = 3%nat ->
  0 <= cmp64 (timer s i) < 2 ^ 64 ->
  0 <= period (timer s i) < 2 ^ 64 -> ~ stuck now (timer s i) ->
  exists s', poll_timer now i s = (Ok (fired_irqs now s i), s') /\ same_device s s' /\
    polled now (timer s i) (timer s' i) /\ latched now i s s' /\
    (forall j, 0 <= j -> j <> i -> timer s' j = timer s j).
Proof.
  intros Hi Hlen Hlen' Hc Hp Hns.
  destruct (poll_timer_run now i s Hi Hlen Hc Hp Hns) as (t' & Ht' & ->). eexists. split; [done|].
  unfold latched. unfold polled in *. destruct (fires now (timer s i)); cbn [andb]; [|subst; done].
  set (s1 := if has (tconfig (timer s i)) kTimerTypeLevel then latch i s else s).
  assert (Hs1 : same_device s s1 /\ forall j, timer s1 j = timer s j).
  { unfold s1, latch. destruct (has _ kTimerTypeLevel); [|done]. split; [|done].
    constructor; try done.
    - unfold set_asserted. cbn [asserted_irqs upd_field]. apply length_insert.
    - intros Hisr. cbn [isr set_asserted upd_field]. unfold set_asserted. cbn [isr upd_field].
      change 8 with (2 ^ 3) in *. apply lor_range; [lia|done|]. rewrite Z.shiftl_1_l.
      split; [apply Z.pow_nonneg; lia|apply Z.pow_lt_mono_r; lia]. }
  destruct Hs1 as [Hsd Hst]. split_and!.
  - destruct Hsd. constructor; try done. unfold update_timer. cbn [timers upd_field].
    by rewrite length_alter.
  - rewrite timer_update by (rewrite ?(sd_timers _ _ Hsd); lia). by rewrite Z.eqb_refl.
  - unfold s1. destruct (has _ kTimerTypeLevel); [|done]. split; [done|]. intros j Hj.
    change (asserted (latch i s) j = if j =? i then Some (route_for_timer i s) else asserted s j).
    unfold latch. by rewrite asserted_set by (cbn [asserted_irqs upd_field]; lia).
  - intros j Hj Hne. rewrite timer_update by (rewrite ?(sd_timers _ _ Hsd); lia).
    rewrite Hst. by destruct (Z.eqb_spec j i).
Qed.

Lemma route_same i s s' :
  timer s' i = timer s i -> config s' = config s -> route_for_timer i s' = route_for_timer i s.
Proof. intros Ht Hc. unfold route_for_timer. by rewrite Ht, Hc. Qed.

(** The whole poll, seen from timer [i]. *)
Definition poll_effect (now i : Z) (s s' : Hpet) : Prop :=
  polled now (timer s i) (timer s' i) /\
  (let lvl := fires now (timer s i) && has (tconfig (timer s i)) kTimerTypeLevel in
   asserted s' i = (if lvl then Some (route_for_timer i s) else asserted s i) /\
   Z.testbit (isr s') i = Z.testbit (isr s) i || lvl).

Lemma testbit_latch now i j s s' : 0 <= i -> 0 <= j -> latched now i s s' ->
  let lvl := fires now (timer s i) && has (tconfig (timer s i)) kTimerTypeLevel in
  asserted s' j = (if lvl && (j =? i) then Some (route_for_timer i s) else asserted s j) /\
  Z.testbit (isr s') j = Z.testbit (isr s) j || (lvl && (j =? i)).
Proof.
  intros Hi Hj. unfold latched. cbv zeta. destruct (_ && _); intros [-> Ha]; cbn [andb].
  - split; [by apply Ha|]. rewrite Z.lor_spec, Z.shiftl_1_l, Z.pow2_bits_eqb by done.
    by rewrite Z.eqb_sym.
  - rewrite orb_false_r. split; [by apply Ha|done].
Qed.

Lemma poll_timers_spec now ids : NoDup ids -> forall s,
  Forall (fun i => 0 <= i < 3) ids -> length (timers s) = 3%nat -> length (asserted_irqs s) = 3%nat ->
  (forall i, i ∈ ids -> 0 <= cmp64 (timer s i) < 2 ^ 64 /\ 0 <= period (timer s i) < 2 ^ 64 /\
     ~ stuck now (timer s i)) ->
  exists s', poll_timers now ids s = (Ok (flat_map (fired_irqs now s) ids), s') /\ same_device s s' /\
    (forall i, i ∈ ids -> poll_effect now i s s') /\
    (forall j, 0 <= j -> j ∉ ids -> timer s' j = timer s j /\ asserted s' j = asserted s j /\
       Z.testbit (isr s') j = Z.testbit (isr s) j).
Proof.
  induction 1 as [|i ids Hni _ IH]; intros s Hids Hlen Hlen' Hok.
  { exists s. split; [done|]. split; [done|]. split; [|done]. by intros i Hi%not_elem_of_nil. }
  apply Forall_cons_1 in Hids as [Hi Hids]. destruct (Hok i ltac:(left)) as (Hc & Hp & Hns).
  destruct (poll_timer_spec now i s Hi Hlen Hlen' Hc Hp Hns) as (s1 & Hrun & Hsd & Hpo & Hla & Hoth).
  assert (Hrange : forall j, j ∈ ids -> 0 <= j < 3 /\ j <> i).
  { intros j Hj. split; [|congruence].
    rewrite List.Forall_forall in Hids. by apply Hids, list_elem_of_In. }
  destruct (IH s1) as (s2 & Hrun2 & Hsd2 & Heff & Hrest); try done.
  { rewrite (sd_timers _ _ Hsd). done. } { rewrite (sd_asserted _ _ Hsd). done. }
  { intros j Hj. destruct (Hrange j Hj). rewrite Hoth by lia. apply Hok. by right. }
  exists s2. cbn [poll_timers flat_map]. rewrite bind_run, Hrun, bind_run, Hrun2.
  split; [|split; [by eapply same_device_trans|split]].
  - enough (flat_map (fired_irqs now s1) ids = flat_map (fired_irqs now s) ids) as -> by done.
    apply flat_map_ext_in'. intros j Hj. destruct (Hrange j Hj).
    unfold fired_irqs. rewrite Hoth by lia.
    rewrite (route_same j s s1) by (try apply Hoth; try apply Hsd; lia). done.
  - intros j Hj. apply elem_of_cons in Hj as [->|Hj].
    + destruct (Hrest i ltac:(lia) Hni) as (Ht & Ha & Hb).
      destruct (testbit_latch now i i s s1 ltac:(lia) ltac:(lia) Hla) as [Ha1 Hb1].
      rewrite Z.eqb_refl, andb_true_r in Ha1, Hb1. unfold poll_effect. by rewrite Ht, Ha, Hb, Ha1, Hb1.
    + destruct (Hrange j Hj). destruct (Heff j Hj) as (Hp1 & Ha & Hb).
      destruct (testbit_latch now i j s s1 ltac:(lia) ltac:(lia) Hla) as [Ha1 Hb1].
      destruct (Z.eqb_spec j i); [lia|]. rewrite andb_false_r in Ha1, Hb1. rewrite orb_false_r in Hb1.
      rewrite (route_same j s s1) in Ha by (try apply Hoth; try apply Hsd; lia).
      unfold poll_effect. by rewrite <- (Hoth j), Ha, Hb, Ha1, Hb1 by lia.
  - intros j Hj Hn. apply not_elem_of_cons in Hn as [Hn1 Hn2].
    destruct (Hrest j Hj Hn2) as (Ht & Ha & Hb).
    destruct (testbit_latch now i j s s1 ltac:(lia) ltac:(lia) Hla) as [Ha1 Hb1].
    destruct (Z.eqb_spec j i); [lia|]. rewrite andb_false_r in Ha1, Hb1. rewrite orb_false_r in Hb1.
    rewrite Ht, Ha, Hb, Hoth by lia. done.
Qed.

Lemma poll_enabled_spec s :
  hpet_ok s -> has (config s) kCfgEnable = true ->
  let now := counter_at s (clock_now (clock s)) in
  (forall i, 0 <= i < 3 -> ~ stuck now (timer s i)) ->
  exists s', poll_expired s = (Ok (flat_map (fired_irqs now s) timer_ids), s') /\
    same_device s s' /\ forall i, 0 <= i < 3 -> poll_effect now i s s'.
Proof.
  intros Hs Hen now Hns. unfold poll_expired. rewrite gets_bind, Hen. cbn [negb].
  rewrite bind_run. destruct (counter_run s) as (c & ->). fold now.
  destruct (poll_timers_spec now timer_ids ltac:(by apply NoDup_seqZ) (s <| clock := c |>))
    as (s' & Hrun & Hsd & Heff & _).
  - by repeat constructor.
  - apply Hs.
  - apply Hs.
  - intros i Hi%elem_of_seqZ. unfold kNumTimers in Hi. destruct (h_timer s Hs i ltac:(lia)).
    split; [done|]. split; [done|]. apply Hns. lia.
  - exists s'. rewrite Hrun. split; [done|]. split; [by destruct Hsd|].
    intros i Hi. apply Heff. apply elem_of_seqZ. unfold kNumTimers. lia.
Qed.

Lemma poll_run s :
  hpet_ok s -> (forall i, 0 <= i < 3 -> ~ stuck (counter_at s (clock_now (clock s))) (timer s i)) ->
  exists irqs s', poll_expired s = (Ok irqs, s').
Proof.
  intros Hs Hns. destruct (has (config s) kCfgEnable) eqn:Hen.
  - destruct (poll_enabled_spec s Hs Hen Hns) as (s' & E & _). by eauto.
  - unfold poll_expired. rewrite gets_bind, Hen. by eauto.
Qed.

(** C32.  A poll of an enabled device, at counter value [now]: it returns the routes of
    exactly the timers that are armed, enabled and due, in order, and latches the level
    ones; a due one-shot timer is disarmed and a due periodic one moves to its first
    deadline that is not due, so a period is neither reported twice nor skipped in
    phase; a timer that is not due is left alone.  The catch-up loop ends for every
    timer that is not [stuck]. *)
Theorem hpet_poll_spec s :
  hpet_ok s -> has (config s) kCfgEnable = true ->
  let now := counter_at s (clock_now (clock s)) in
  (forall i, 0 <= i < 3 -> ~ stuck now (timer s i)) ->
  exists s', poll_expired s = (Ok (flat_map (fired_irqs now s) timer_ids), s') /\
    same_device s s' /\ forall i, 0 <= i < 3 -> poll_effect now i s s'.
Proof. apply poll_enabled_spec. Qed.

(** ** How long a poll can take *)

Lemma stuck_diverges now t n :
  stuck now t -> exists c, repeat_until (catch_up now (period t)) n (cmp64 t) = inl c.
Proof.
  intros (_ & _ & Hp & Hd).
  destruct (repeat_until_diverges (catch_up now (period t))
    (fun c => u64 (now - c) = 0 \/ u64 (now - c) = 2 ^ 63) n (cmp64 t)) as (c & Hc & _); [|done|by exists c].
  intros c Hc. unfold catch_up. rewrite Hp, reached_dist, dist_step by done.
  exists (u64 (c + 2 ^ 63)). rewrite dist_step by done. by destruct Hc as [-> | ->]; cbn; auto.
Qed.

Lemma catch_up_long now c n :
  2 ^ Z.of_nat n <= u64 (now - c) <= 2 ^ 63 ->
  exists y, repeat_until (catch_up now 1) n c = inl y.
Proof.
  intros Hd. destruct (repeat_until_stays (catch_up now 1)
    (fun c => u64 (now - c) <= 2 ^ 63) (fun c => u64 (now - c)) n c) as (y & Hy & _);
    [|lia|lia|by exists y].
  intros x Hx Hpos. unfold catch_up. rewrite reached_dist, dist_step by done.
  exists (u64 (x + 1)). rewrite dist_step by done. destruct (Z.leb_spec 1 (u64 (now - x))); [|lia].
  destruct (Z.leb_spec (u64 (now - x) - 1) (2 ^ 63)); [|lia]. repeat split; lia.
Qed.

Definition guest_writes (l : list (Z * list Z)) : M Hpet unit :=
  for_each (fun '(addr, data) => write_mmio addr data) l.

(** Main counter to 2^62; timer 0 periodic and enabled, comparator 0, period 1; start. *)
Definition stall_program : list (Z * list Z) :=
  [(kBase + 0x0F0, WriteU64 (2 ^ 62)); (kBase + 0x100, WriteU64 0x4C);
   (kBase + 0x108, WriteU64 0); (kBase + 0x108, WriteU64 1); (kBase + 0x010, WriteU64 1)].

(** Five register writes make the next poll go round its catch-up loop more than
    2^61 times, whatever the host clock shows within 292 years: the period is one tick
    and the comparator 2^62 ticks behind.  With a period of 2^63 the loop may not end
    at all: it does not exactly for a [stuck] timer. *)
Theorem hpet_guest_stalls_poll (c : Clock) :
  (exists s, guest_writes stall_program (Hpet_new c) = (Ok tt, s) /\
    forall t, counter_started_at s <= t < counter_started_at s + 2 ^ 63 ->
      let now := counter_at s t in
      fires now (timer s 0) = true /\ periodic (timer s 0) = true /\
      exists y, repeat_until (catch_up now (period (timer s 0))) 61 (cmp64 (timer s 0)) = inl y) /\
  (forall now t, 0 <= cmp64 t < 2 ^ 64 -> 0 <= period t < 2 ^ 64 ->
    fires now t = true -> periodic t = true ->
    (stuck now t <-> forall n, exists y, repeat_until (catch_up now (period t)) n (cmp64 t) = inl y)).
Proof.
  split.
  - eexists. split; [vm_compute; reflexivity|]. cbn [counter_started_at]. intros t Ht.
    unfold counter_at. cbn [config counter_started_at counter_base negb has].
    set (e := t - _) in *. change (negb (has 1 kCfgEnable)) with false. cbv iota.
    assert (Hn : exists k, u64 (4611686018427387904 + (if e <=? 0 then 0 else u64 e / kClockPeriodNs)) =
                   2 ^ 62 + k /\ 0 <= k < 2 ^ 61).
    { assert (0 <= e < 2 ^ 63) as He by (unfold e; lia).
      exists (if e <=? 0 then 0 else e / 10). unfold kClockPeriodNs.
      pose proof (Z.div_lt_upper_bound e 10 (2 ^ 61) ltac:(lia) ltac:(lia)).
      pose proof (Z.div_pos e 10 ltac:(lia) ltac:(lia)).
      destruct (Z.leb_spec e 0); rewrite ?(u64_small e) by lia; split; try lia; apply u64_small; lia. }
    destruct Hn as (k & -> & Hk). split_and!.
    + unfold fires, timer. cbn [nth timers Z.to_nat armed tconfig cmp64].
      rewrite reached_dist, Z.sub_0_r, u64_small by lia. cbn [andb].
      apply andb_true_intro. split; [reflexivity|]. apply Z.leb_le. lia.
    + reflexivity.
    + apply catch_up_long. unfold timer. cbn [nth timers Z.to_nat cmp64].
      rewrite Z.sub_0_r, u64_small by lia. change (2 ^ Z.of_nat 61) with (2 ^ 61). lia.
  - intros now t Hc Hp Hf Hper. split; [intros Hs n; by apply stuck_diverges|]. intros Hd.
    destruct (decide (period t = 2 ^ 63 /\ (u64 (now - cmp64 t) = 0 \/ u64 (now - cmp64 t) = 2 ^ 63)))
      as [Hst|Hst]; [done|].
    destruct (Hd 64%nat) as (y & Hy). unfold fires in Hf. apply andb_prop in Hf as [_ Hr].
    rewrite reached_dist in Hr. apply Z.leb_le in Hr.
    unfold periodic in Hper. apply andb_prop in Hper as [_ Hp0]. apply negb_true_iff, Z.eqb_neq in Hp0.
    destruct (catch_up_ends now (period t) (cmp64 t) ltac:(lia) Hc Hr Hst) as (z & Hz & _). congruence.
Qed.

(** ** The register invariant *)

(** [hpet_ok] without the armed timers, which a write of a configuration re-evaluates
    last. *)
Record hpet_core (s : Hpet) : Prop := {
  c_timers : length (timers s) = 3%nat;
  c_asserted : length (asserted_irqs s) = 3%nat;
  c_timer : forall i, 0 <= i < 3 -> timer_ok (timer s i);
  c_config : 0 <= config s < 4;
  c_isr : 0 <= isr s < 8;
  c_base : 0 <= counter_base s < 2 ^ 64;
  c_tied : forall i, 0 <= i < 3 -> line_tied s i }.

Lemma core_of_ok s : hpet_ok s -> hpet_core s.
Proof. by intros []. Qed.
Lemma ok_of_core s : hpet_core s -> (forall i, 0 <= i < 3 -> armed_enabled s i) -> hpet_ok s.
Proof. intros [] ?. by constructor. Qed.

Lemma core_clock s c : hpet_core s -> hpet_core (s <| clock := c |>).
Proof. intros []. by constructor. Qed.
Lemma ok_clock s c : hpet_ok s -> hpet_ok (s <| clock := c |>).
Proof. intros []. by constructor. Qed.

Lemma core_update i f s :
  hpet_core s -> 0 <= i < 3 -> timer_ok (f (timer s i)) -> hpet_core (update_timer i f s).
Proof.
  intros Hs Hi Hf. pose proof (c_timers s Hs) as Hlen. destruct Hs. constructor; try done.
  - unfold update_timer. cbn [timers upd_field]. by rewrite length_alter.
  - intros j Hj. rewrite timer_update by lia. destruct (Z.eqb_spec j i) as [->|]; [done|]. auto.
Qed.

Lemma counter_at_range s t : 0 <= counter_base s < 2 ^ 64 -> 0 <= counter_at s t < 2 ^ 64.
Proof. intros H. unfold counter_at. destruct (negb _); [done|]. apply u64_range. Qed.

Lemma update_const i f s : update_timer i f s = update_timer i (fun _ => f (timer s i)) s.
Proof.
  unfold update_timer.
  enough (alter f (Z.to_nat i) (timers s) = alter (fun _ => f (timer s i)) (Z.to_nat i) (timers s)) as -> by done.
  apply list_alter_ext; [|done]. intros x Hx. unfold timer. by rewrite (nth_lookup_Some _ _ _ _ Hx).
Qed.

Lemma update_update i f g s :
  update_timer i f (update_timer i g s) = update_timer i (fun t => f (g t)) s.
Proof.
  unfold update_timer. cbn [timers upd_field].
  enough (alter f (Z.to_nat i) (alter g (Z.to_nat i) (timers s)) = alter (fun t => f (g t)) (Z.to_nat i) (timers s)) as -> by done.
  generalize (Z.to_nat i). induction (timers s) as [|x l IH]; intros [|n]; try done. cbn. f_equal. apply IH.
Qed.

Lemma update_clock i f c s : (update_timer i f s) <| clock := c |> = update_timer i f (s <| clock := c |>).
Proof. done. Qed.

Lemma set_timer_run i s :
  0 <= i < 3 -> length (timers s) = 3%nat -> 0 <= counter_base s < 2 ^ 64 -> timer_ok (timer s i) ->
  exists t' c, set_timer i s = (Ok tt, update_timer i (fun _ => t') (s <| clock := c |>)) /\
    timer_ok t' /\ (armed t' = true ->
      has (config s) kCfgEnable = true /\ has (tconfig t') kTimerEnable = true).
Proof.
  intros Hi Hlen Hbase Ht. unfold set_timer. rewrite modify_bind, gets_bind, gets_bind.
  rewrite timer_update, Z.eqb_refl by lia. set (t := timer s i) in *. set (s1 := update_timer i _ s).
  change (config s1) with (config s).
  change (tconfig (t <| armed := false |>)) with (tconfig t).
  change (cmp (t <| armed := false |>)) with (cmp t).
  destruct (has (config s) kCfgEnable && has (tconfig t) kTimerEnable) eqn:Hc.
  2:{ rewrite <- negb_andb, Hc. exists (t <| armed := false |>), (clock s).
      split; [|split; [by destruct Ht|done]]. unfold s1. rewrite update_const. by destruct s. }
  rewrite <- negb_andb, Hc. apply andb_prop in Hc as [Hc1 Hc2]. cbn [negb].
  rewrite bind_run. destruct (counter_run s1) as (c & ->).
  set (now := counter_at s1 _).
  assert (Hnow : 0 <= now < 2 ^ 64) by (by apply counter_at_range). clearbody now.
  destruct (has (tconfig t) kTimer32Bit) eqn:H32; rewrite modify_bind; unfold modify, s1;
    rewrite update_clock, !update_update, update_const;
    eexists _, c; (split; [reflexivity|]); change (timer (s <| clock := c |>) i) with t;
    (split; [|done]); destruct Ht; constructor; try done; cbn [cmp64 upd_field].
  destruct (_ <? 0); [apply u64_range|].
  apply lor_range; [lia|apply land_range; [lia|by apply bnot_range]|]. pose proof (u32_range (cmp t)). lia.
Qed.

(** Programming the comparator of a well-formed timer re-evaluates its [armed] flag and
    leaves the rest. *)
Lemma set_timer_spec i s :
  0 <= i < 3 -> hpet_core s ->
  exists s', set_timer i s = (Ok tt, s') /\ hpet_core s' /\ config s' = config s /\
    armed_enabled s' i /\ (forall j, 0 <= j < 3 -> j <> i -> armed_enabled s j -> armed_enabled s' j).
Proof.
  intros Hi Hs. destruct (set_timer_run i s Hi (c_timers s Hs) (c_base s Hs) (c_timer s Hs i Hi))
    as (t' & c & -> & Ht' & Ha). eexists. split; [done|].
  pose proof (c_timers s Hs) as Hlen. split_and!.
  - by apply core_update; [apply core_clock|..].
  - done.
  - unfold armed_enabled. by rewrite timer_update, Z.eqb_refl by (cbn [timers upd_field]; lia).
  - intros j Hj Hne. unfold armed_enabled. rewrite timer_update by (cbn [timers upd_field]; lia).
    by destruct (Z.eqb_spec j i).
Qed.

Lemma reprogram_spec s : hpet_core s ->
  exists s', reprogram_timers s = (Ok tt, s') /\ hpet_ok s'.
Proof.
  intros Hs. unfold reprogram_timers. change timer_ids with [0; 1; 2]. cbn [for_each].
  destruct (set_timer_spec 0 s ltac:(lia) Hs) as (s0 & E0 & H0 & _ & A0 & _).
  destruct (set_timer_spec 1 s0 ltac:(lia) H0) as (s1 & E1 & H1 & _ & A1 & B1).
  destruct (set_timer_spec 2 s1 ltac:(lia) H1) as (s2 & E2 & H2 & _ & A2 & B2).
  exists s2. rewrite bind_run, E0, bind_run, E1, bind_run, E2. split; [done|].
  apply ok_of_core; [done|]. intros i Hi.
  assert (i = 0 \/ i = 1 \/ i = 2) as [->|[->| ->]] by lia; auto with lia.
Qed.

(** *** Clearing status bits *)

Lemma seq3 i : 0 <= i < 3 -> i = 0 \/ i = 1 \/ i = 2.
Proof. lia. Qed.

(** The calls of the line callback when the bits of [cleared] go. *)
Definition lowered (s : Hpet) (cleared i : Z) : list (Z * bool) :=
  if has cleared (Z.shiftl 1 i) then
    let irq := default (route_for_timer i s) (asserted s i) in
    if has_irq_line s && level irq && (ioapic_pin irq <? 24) then [(ioapic_pin irq, false)] else []
  else [].

(** Only the asserted lines and the callback's calls differ. *)
Definition lines_step (s s' : Hpet) (a : list (option Irq)) (l : list (Z * bool)) : Prop :=
  s' = (s <| asserted_irqs := a |>) <| irq_line := irq_line s ++ l |>.

Lemma deassert_irq_step cleared i s :
  exists a, lines_step s (deassert_irq cleared i s) a (lowered s cleared i) /\
    a = if has cleared (Z.shiftl 1 i) then <[ Z.to_nat i := None ]> (asserted_irqs s) else asserted_irqs s.
Proof.
  unfold deassert_irq, lowered, lines_step. eexists. split; [|reflexivity].
  destruct (has cleared _); cbn [negb].
  2:{ rewrite app_nil_r. by destruct s. }
  unfold lower_line, set_asserted. cbn [has_irq_line upd_field].
  destruct (_ && _); [done|]. rewrite app_nil_r. by destruct s.
Qed.

Lemma asserted_lines s a l i :
  asserted ((s <| asserted_irqs := a |>) <| irq_line := l |>) i = nth (Z.to_nat i) a None.
Proof. done. Qed.

Lemma deassert_spec cleared s :
  length (asserted_irqs s) = 3%nat ->
  exists a, lines_step s (deassert_cleared_irqs cleared s) a (flat_map (lowered s cleared) timer_ids) /\
    length a = 3%nat /\
    forall i, 0 <= i < 3 ->
      nth (Z.to_nat i) a None = if has cleared (Z.shiftl 1 i) then None else asserted s i.
Proof.
  intros Hlen. unfold deassert_cleared_irqs. change timer_ids with [0; 1; 2].
  cbn [fold_left flat_map].
  destruct (deassert_irq_step cleared 0 s) as (a0 & E0 & H0).
  set (s0 := deassert_irq cleared 0 s) in *.
  destruct (deassert_irq_step cleared 1 s0) as (a1 & E1 & H1).
  set (s1 := deassert_irq cleared 1 s0) in *.
  destruct (deassert_irq_step cleared 2 s1) as (a2 & E2 & H2).
  set (s2 := deassert_irq cleared 2 s1) in *. clearbody s0 s1 s2.
  destruct (asserted_irqs s) as [|x0 [|x1 [|x2 [|]]]] eqn:Hx; try done. clear Hlen.
  unfold lines_step in *. subst s0 s1 s2.
  assert (L1 : lowered ((s <| asserted_irqs := a0 |>) <| irq_line := irq_line s ++ lowered s cleared 0 |>) cleared 1 =
               lowered s cleared 1).
  { unfold lowered. rewrite asserted_lines. subst a0. unfold asserted. rewrite Hx.
    by destruct (has cleared (Z.shiftl 1 0)). }
  rewrite L1 in *.
  exists a2. split_and!.
  - cbn [irq_line upd_field]. rewrite app_nil_r, !app_assoc.
    match goal with |- context [lowered ?s' cleared 2] => assert (lowered s' cleared 2 = lowered s cleared 2) as -> end.
    { unfold lowered. rewrite asserted_lines. subst a1 a0. unfold asserted. rewrite Hx.
      cbn [asserted_irqs upd_field].
      by destruct (has cleared (Z.shiftl 1 0)), (has cleared (Z.shiftl 1 1)). }
    done.
  - subst a2 a1 a0. cbn [asserted_irqs upd_field]. by repeat destruct (has cleared _).
  - intros i Hi. subst a2 a1 a0. cbn [asserted_irqs upd_field]. unfold asserted. rewrite Hx.
    destruct (seq3 i Hi) as [->|[->| ->]]; by repeat destruct (has cleared _).
Qed.

Definition with_lines (v : Z) (a : list (option Irq)) (l : list (Z * bool)) (s : Hpet) : Hpet :=
  ((s <| isr := v |>) <| asserted_irqs := a |>) <| irq_line := l |>.

Lemma with_lines_ok s v a l :
  hpet_ok s -> 0 <= v < 8 -> length a = 3%nat ->
  (forall i, 0 <= i < 3 -> line_tied (with_lines v a l s) i) -> hpet_ok (with_lines v a l s).
Proof. intros [] Hv Ha Ht. by constructor. Qed.

Lemma cleared_bit v clear i : 0 <= i ->
  has (Z.land v clear) (Z.shiftl 1 i) = Z.testbit v i && Z.testbit clear i.
Proof. intros Hi. by rewrite Z.shiftl_1_l, has_pow2, Z.land_spec by done. Qed.

(** Clearing bits lowers the lines the device remembers for them and forgets those. *)
Lemma clear_isr_spec clear s :
  hpet_ok s -> exists a, clear_isr clear s =
      with_lines (Z.land (isr s) (bnot 64 clear)) a
        (irq_line s ++ flat_map (lowered s (Z.land (isr s) clear)) timer_ids) s /\
    hpet_ok (clear_isr clear s) /\
    forall i, 0 <= i < 3 -> asserted (clear_isr clear s) i = if Z.testbit clear i then None else asserted s i.
Proof.
  intros Hs. unfold clear_isr. set (s0 := s <| isr := _ |>). cbv zeta.
  destruct (deassert_spec (Z.land (isr s) clear) s0 (h_asserted s Hs)) as (a & E & Hlen & Ha).
  unfold lines_step in E. exists a.
  assert (Hn : forall i, 0 <= i < 3 ->
            nth (Z.to_nat i) a None = if Z.testbit clear i then None else asserted s i).
  { intros i Hi. rewrite Ha, cleared_bit by lia. change (asserted s0 i) with (asserted s i).
    pose proof (h_tied s Hs i Hi) as Ht. unfold line_tied in Ht.
    destruct (asserted s i) as [irq|]; [destruct Ht as [-> _]|rewrite Ht]; by destruct (Z.testbit clear i). }
  assert (E' : deassert_cleared_irqs (Z.land (isr s) clear) s0 =
    with_lines (Z.land (isr s) (bnot 64 clear)) a
        (irq_line s ++ flat_map (lowered s (Z.land (isr s) clear)) timer_ids) s) by (by rewrite E).
  rewrite E'. split; [done|]. split; [|by intros i Hi; apply (Hn i Hi)].
  pose proof (h_isr s Hs). apply with_lines_ok; try done.
  - rewrite Z.land_comm. apply (land_range _ _ 3); lia.
  - intros i Hi. unfold line_tied. change (asserted (with_lines _ _ _ s) i) with (nth (Z.to_nat i) a None).
    rewrite Hn by done. cbn [isr with_lines upd_field]. unfold with_lines. cbn [isr upd_field].
    rewrite Z.land_spec, bnot_spec by lia. pose proof (h_tied s Hs i Hi) as Ht. unfold line_tied in Ht.
    destruct (Z.testbit clear i); [by rewrite andb_false_r|]. cbn [negb]. by rewrite andb_true_r.
Qed.

(** *** Every register write keeps the invariant *)

Lemma config_write_range d old m :
  0 <= old < 4 -> m = 3 -> 0 <= Z.lor (Z.land d m) (Z.land old (bnot 64 m)) < 4.
Proof.
  intros Ho ->. change 4 with (2 ^ 2). apply lor_range; [lia|apply land_range; lia|].
  rewrite Z.land_comm. apply land_range; lia.
Qed.

Lemma safe_counter_value s : hpet_ok s ->
  exists v c, counter s = (Ok v, s <| clock := c |>) /\ 0 <= v < 2 ^ 64.
Proof.
  intros Hs. destruct (counter_run s) as (c & E). exists (counter_at s (clock_now (clock s))), c.
  split; [done|]. apply counter_at_range, Hs.
Qed.

Lemma disarm_all_core s : hpet_core s -> hpet_ok (disarm_all s).
Proof.
  intros Hs. assert (Ht : forall i, 0 <= i < 3 -> timer (disarm_all s) i = (timer s i) <| armed := false |>).
  { intros i Hi. unfold timer, disarm_all. cbn [timers upd_field].
    rewrite (nth_indep _ _ ((fun t => t <| armed := false |>) initial_timer)), map_nth; [done|].
    rewrite length_map, (c_timers s Hs). lia. }
  apply ok_of_core; [destruct Hs; constructor; try done|].
  - unfold disarm_all. cbn [timers upd_field]. by rewrite length_map.
  - intros i Hi. rewrite Ht by done. destruct (c_timer0 i Hi). by constructor.
  - intros i Hi. unfold armed_enabled. rewrite Ht by done. cbn [armed upd_field]. intros [=].
Qed.

Lemma clear_all_spec s : hpet_ok s ->
  deassert_cleared_irqs (isr s) (s <| isr := 0 |>) = clear_isr 7 s.
Proof.
  intros Hs. pose proof (h_isr s Hs). unfold clear_isr.
  assert (Hc : isr s = 0 \/ isr s = 1 \/ isr s = 2 \/ isr s = 3 \/ isr s = 4 \/ isr s = 5 \/ isr s = 6 \/ isr s = 7) by lia.
  by destruct Hc as [->|[->|[->|[->|[->|[->|[->| ->]]]]]]].
Qed.

Lemma set_config_core s v : hpet_core s -> 0 <= v < 4 -> hpet_core (s <| config := v |>).
Proof. intros [] ?. by constructor. Qed.
Lemma set_base_core s v : hpet_core s -> 0 <= v < 2 ^ 64 -> hpet_core (s <| counter_base := v |>).
Proof. intros [] ?. by constructor. Qed.
Lemma set_start_core s v : hpet_core s -> hpet_core (s <| counter_started_at := v |>).
Proof. intros []. by constructor. Qed.

Lemma write_config_ok shift bits value s :
  hpet_ok s -> exists s', write_config shift bits value s = (Ok tt, s') /\ hpet_ok s'.
Proof.
  intros Hs. unfold write_config. rewrite gets_bind. set (next := Z.lor _ _).
  assert (Hn : 0 <= next < 4) by (apply config_write_range; [apply Hs|done]). clearbody next.
  pose proof (core_of_ok s Hs) as Hc.
  assert (H1 : exists s1, hpet_core s1 /\
    when (has (config s) kCfgEnable && negb (has next kCfgEnable))
      (counter ≫= fun c => modify (fun s => s <| counter_base := c |>)) s = (Ok tt, s1)).
  { destruct (_ && _); [|by exists s]. cbn [when]. rewrite bind_run.
    destruct (safe_counter_value s Hs) as (v & c & -> & Hv).
    eexists. split; [|reflexivity]. apply set_base_core; [by apply core_clock|done]. }
  destruct H1 as (s1 & Hs1 & E1). rewrite bind_run, E1, modify_bind.
  assert (H2 : exists s2, hpet_core s2 /\
    when (negb (has (config s) kCfgEnable) && has next kCfgEnable)
      (now ≫= fun t => modify (fun s => s <| counter_started_at := t |>))
      (s1 <| config := next |>) = (Ok tt, s2)).
  { assert (Hs1' : hpet_core (s1 <| config := next |>)) by (by apply set_config_core).
    destruct (negb (has (config s) kCfgEnable) && has next kCfgEnable); [|by exists (s1 <| config := next |>)]. eexists. split; [|reflexivity].
    by apply set_start_core, core_clock. }
  destruct H2 as (s2 & Hs2 & E2). rewrite bind_run, E2.
  destruct (has next kCfgEnable); [by apply reprogram_spec|].
  rewrite modify_bind. pose proof (disarm_all_core s2 Hs2) as Hd. eexists. split; [reflexivity|].
  rewrite clear_all_spec by done. by destruct (clear_isr_spec 7 _ Hd) as (_ & _ & H & _).
Qed.

Lemma finish_timer_write i s0 s :
  0 <= i < 3 -> hpet_ok s0 -> hpet_core s -> config s = config s0 ->
  (forall j, 0 <= j < 3 -> j <> i -> timer s j = timer s0 j) ->
  exists s', set_timer i s = (Ok tt, s') /\ hpet_ok s'.
Proof.
  intros Hi H0 Hs Hcfg Ht. destruct (set_timer_spec i s Hi Hs) as (s' & E & Hc & _ & Ha & Hoth).
  exists s'. split; [done|]. apply ok_of_core; [done|]. intros j Hj.
  destruct (decide (j = i)) as [->|]; [done|]. apply Hoth; [done|done|].
  unfold armed_enabled. rewrite Ht, Hcfg by done. by apply H0.
Qed.

Definition to_32bit (next : Z) (t : Timer) : Timer :=
  if has next kTimer32Bit then
    let t := t <| cmp := u32 (cmp t) |> in t <| period := u32 (period t) |>
  else t.

Lemma new_config_ok t d :
  timer_ok t -> 0 <= d < 2 ^ 64 ->
  let next := Z.lor (Z.land d kTimerCfgWriteMask) (Z.land (tconfig t) (bnot 64 kTimerCfgWriteMask)) in
  timer_ok (to_32bit next (t <| tconfig := next |>)).
Proof.
  intros [Hcaps Hcfg Hcmp Hc64 Hper _] Hd next.
  assert (Hn : 0 <= next < 2 ^ 64).
  { apply lor_range; [lia| |]; [rewrite Z.land_comm|]; apply land_range; try done; try lia. }
  assert (Hnc : Z.land next (bnot 64 kTimerCfgWriteMask) = timer_caps)
    by (unfold next; by rewrite merge_fixed_bits).
  clearbody next. unfold to_32bit. destruct (has next kTimer32Bit) eqn:H32; constructor; try done; cbn.
  - pose proof (u32_range (cmp t)). lia.
  - pose proof (u32_range (period t)). lia.
  - intros _. by split; apply u32_range.
  - intros H. change (has next kTimer32Bit = true) in H. congruence.
Qed.

Lemma when_update b i f s :
  when b (modify (update_timer i f)) s = (Ok tt, update_timer i (fun t => if b then f t else t) s).
Proof.
  destruct b; [done|]. cbn [when]. unfold update_timer.
  enough (alter (fun t : Timer => t) (Z.to_nat i) (timers s) = timers s) as -> by (by destruct s).
  generalize (Z.to_nat i). induction (timers s) as [|x l IH]; intros [|n]; try done.
  cbn. f_equal. apply IH.
Qed.

Lemma write_timer_config_ok i shift bits value s :
  0 <= i < 3 -> hpet_ok s ->
  exists s', write_timer_config i shift bits value s = (Ok tt, s') /\ hpet_ok s'.
Proof.
  intros Hi Hs. unfold write_timer_config. rewrite gets_bind. cbv zeta.
  set (t := timer s i). set (next := Z.lor _ _).
  assert (Hok : timer_ok (to_32bit next (t <| tconfig := next |>))).
  { destruct (h_timer s Hs i Hi). apply new_config_ok; [by apply Hs|]. by apply DepositBits_range. }
  clearbody next. match goal with |- context [when ?b (modify (clear_isr ?c))] => set (cl := b) end.
  assert (H1 : exists s1, when cl (modify (clear_isr (Z.shiftl 1 i))) s = (Ok tt, s1) /\ hpet_ok s1 /\
    config s1 = config s /\ forall j, timer s1 j = timer s j).
  { destruct cl; [|by exists s]. eexists. split; [reflexivity|].
    by destruct (clear_isr_spec (Z.shiftl 1 i) s Hs) as (a & -> & H & _). }
  destruct H1 as (s1 & E1 & Hs1 & Hc1 & Ht1). rewrite bind_run, E1, modify_bind, bind_run, when_update, update_update.
  eapply (finish_timer_write i s1); [done|done| |done|].
  - apply core_update; [by apply core_of_ok|done|]. rewrite Ht1. exact Hok.
  - intros j Hj Hne. pose proof (h_timers s1 Hs1). rewrite timer_update by lia.
    by destruct (Z.eqb_spec j i).
Qed.

Lemma write_timer_cmp_ok i shift bits value s :
  0 <= i < 3 -> hpet_ok s -> 0 <= value < 2 ^ 64 ->
  exists s', write_timer_cmp i shift bits value s = (Ok tt, s') /\ hpet_ok s'.
Proof.
  intros Hi Hs Hv. unfold write_timer_cmp. rewrite gets_bind. set (t := timer s i).
  destruct (has (tconfig t) kTimer32Bit && negb (shift =? 0)) eqn:Hskip; [by exists s|]. cbv zeta.
  set (bits' := if has (tconfig t) kTimer32Bit then 64 else bits).
  set (value' := if has (tconfig t) kTimer32Bit then u32 value else value).
  set (nc := negb (has (tconfig t) kTimerPeriodic) || has (tconfig t) kTimerSetVal).
  set (np := has (tconfig t) kTimerPeriodic).
  assert (Hdep : forall v, 0 <= v < 2 ^ 64 -> 0 <= DepositBits v shift bits' value' < 2 ^ 64)
    by (intros; by apply DepositBits_range).
  assert (Hdep32 : forall v, has (tconfig t) kTimer32Bit = true -> DepositBits v shift bits' value' < 2 ^ 32).
  { intros v H32. unfold bits', value'. rewrite H32 in *. cbn [andb] in Hskip.
    apply negb_false_iff, Z.eqb_eq in Hskip as ->. pose proof (u32_range value).
    rewrite DepositBits_full; lia. }
  clearbody bits' value'.
  rewrite bind_run, when_update, bind_run, when_update, modify_bind, !update_update.
  eapply (finish_timer_write i s); [done|done| |done|].
  - apply core_update; [by apply core_of_ok|done|]. fold t. destruct (h_timer s Hs i Hi) as [Hc Hn H1 H2 H3 H4].
    fold t in Hc, Hn, H1, H2, H3, H4. unfold nc, np. constructor;
      destruct (negb _ || _), (has (tconfig t) kTimerPeriodic); cbn; try done; auto;
      rewrite ?has_land by done; try (intros H32; split; auto; by apply H4);
      try (by rewrite <- Z.land_assoc); by apply land_range, bnot_range.
  - intros j Hj Hne. pose proof (h_timers s Hs). rewrite timer_update by lia.
    by destruct (Z.eqb_spec j i).
Qed.

Lemma ReadLe_range p len :
  0 <= len -> bytes_ok p -> Z.min len 8 <= Z.of_nat (length p) -> 0 <= ReadLe p len < 2 ^ 64.
Proof.
  intros Hl Hp Hn. rewrite ReadLe_le by done.
  pose proof (le_num_range (take (Z.to_nat (Z.min len 8)) p) ltac:(by apply Forall_take)) as [H1 H2].
  split; [done|]. eapply Z.lt_le_trans; [exact H2|]. rewrite length_take.
  apply Z.pow_le_mono_r; lia.
Qed.

Lemma write_reg_ok off shift bits value s :
  0 <= off -> hpet_ok s -> 0 <= value < 2 ^ 64 ->
  exists s', write_reg off shift bits value s = (Ok tt, s') /\ hpet_ok s'.
Proof.
  intros Hoff Hs Hv. unfold write_reg. destruct (Z.leb_spec off 0xFF).
  - destruct (off =? 0x010); [by apply write_config_ok|].
    destruct (off =? 0x020).
    { eexists. split; [reflexivity|].
      by destruct (clear_isr_spec (DepositBits 0 shift bits value) s Hs) as (_ & _ & H' & _). }
    destruct (off =? 0x0F0); [|by exists s]. rewrite gets_bind.
    destruct (has (config s) kCfgEnable); [by exists s|]. eexists. split; [reflexivity|].
    pose proof (DepositBits_range (counter_base s) shift bits value (h_base s Hs)).
    apply ok_of_core; [by apply set_base_core; [apply core_of_ok|]|]. intros i Hi. by apply (h_armed s Hs i Hi).
  - set (i := (off - 0x100) / 0x20). destruct (Z.leb_spec kNumTimers i) as [|Hi]; [by exists s|].
    unfold kNumTimers in Hi. assert (0 <= i) by (apply Z.div_pos; lia).
    destruct (_ =? 0x00); [by apply write_timer_config_ok|].
    destruct (_ =? 0x08); [by apply write_timer_cmp_ok|by exists s].
Qed.

Lemma write_mmio_ok addr data s :
  bytes_ok data -> hpet_ok s -> exists s', write_mmio addr data s = (Ok tt, s') /\ hpet_ok s'.
Proof.
  intros Hd Hs. unfold write_mmio. destruct (negb _); [by exists s|]. cbv zeta.
  apply write_reg_ok; [by apply Z.land_nonneg; right|done|]. apply ReadLe_range; [lia|done|lia].
Qed.

Lemma read_reg_ok off s : hpet_ok s -> exists v s', read_reg off s = (Ok v, s') /\ hpet_ok s'.
Proof.
  intros Hs. unfold read_reg. destruct (off <=? 0xFF).
  - destruct (off =? 0x000); [by eexists _, s|]. destruct (off =? 0x010); [by eexists _, s|].
    destruct (off =? 0x020); [by eexists _, s|]. destruct (off =? 0x0F0); [|by eexists _, s].
    destruct (safe_counter_value s Hs) as (v & c & E & _). exists v. eexists. split; [done|].
    by apply ok_clock.
  - cbv zeta. destruct (_ <=? _); [by eexists _, s|]. rewrite gets_bind.
    destruct (_ =? 0); [by eexists _, s|]. by destruct (_ =? 8); eexists _, s.
Qed.

Lemma read_mmio_ok addr len s : hpet_ok s -> exists v s', read_mmio addr len s = (Ok v, s') /\ hpet_ok s'.
Proof.
  intros Hs. unfold read_mmio. destruct (negb _); [by eexists _, s|]. cbv zeta. rewrite bind_run.
  destruct (read_reg_ok (Z.land (addr - kBase) (bnot 64 4)) s Hs) as (v & s' & -> & Hs').
  by eexists _, s'.
Qed.

Lemma polled_ok now t t' : timer_ok t -> polled now t t' ->
  timer_ok t' /\ (armed t' = true -> armed t = true) /\ tconfig t' = tconfig t.
Proof.
  intros Ht. unfold polled. destruct (fires now t) eqn:Hf; [|by intros ->].
  destruct (periodic t).
  - intros (c & (k & _ & Hc & _) & ->). pose proof (u64_range (cmp64 t + k * period t)) as Hr.
    rewrite <- Hc in Hr. destruct Ht. split; [constructor; try done|split; [|done]].
    + cbn. destruct (has _ _); [|done]. pose proof (u32_range c). lia.
    + cbn. intros H. rewrite H. split; [by apply u32_range|by apply tk_33].
    + intros _. unfold fires in Hf. by destruct (armed t).
  - intros ->. split; [|done]. by destruct Ht.
Qed.

Lemma poll_expired_ok irqs s s' :
  hpet_ok s ->
  (forall i, 0 <= i < 3 -> ~ stuck (counter_at s (clock_now (clock s))) (timer s i)) ->
  poll_expired s = (Ok irqs, s') -> hpet_ok s'.
Proof.
  intros Hs Hns E. unfold poll_expired in E. rewrite gets_bind in E.
  destruct (has (config s) kCfgEnable) eqn:Hen; cbn [negb] in E; [|by injection E as <- <-].
  rewrite bind_run in E. destruct (counter_run s) as (c & Ec). rewrite Ec in E.
  set (now := counter_at s (clock_now (clock s))) in *.
  destruct (poll_timers_spec now timer_ids ltac:(by apply NoDup_seqZ) (s <| clock := c |>))
    as (s1 & Hrun & Hsd & Heff & _).
  - by repeat constructor.
  - apply Hs.
  - apply Hs.
  - intros i Hi%elem_of_seqZ. unfold kNumTimers in Hi. destruct (h_timer s Hs i ltac:(lia)).
    split; [done|]. split; [done|]. apply Hns. lia.
  - rewrite Hrun in E. injection E as _ <-. destruct Hsd as [H1 H2 H3 H4 _ _ H5].
    assert (He : forall i, 0 <= i < 3 -> poll_effect now i s s1).
    { intros i Hi. apply Heff. apply elem_of_seqZ. unfold kNumTimers. lia. }
    destruct Hs. constructor; try congruence; auto.
    + rewrite H1. done.
    + rewrite H2. done.
    + intros i Hi. destruct (He i Hi) as [Hp _]. by eapply polled_ok; [|exact Hp]; auto.
    + rewrite H3. done.
    + rewrite H4. done.
    + intros i Hi. destruct (He i Hi) as [_ [Ha Hb]]. specialize (h_tied0 i Hi).
      unfold line_tied in *. rewrite Ha, Hb.
      destruct (fires now (timer s i) && has (tconfig (timer s i)) kTimerTypeLevel) eqn:Hl.
      * rewrite orb_true_r. split; [done|]. apply andb_prop in Hl as [_ Hl]. unfold route_for_timer.
        rewrite Hl. by repeat destruct (_ && _) || destruct (_ =? _).
      * by rewrite orb_false_r.
    + intros i Hi. unfold armed_enabled. destruct (He i Hi) as [Hp _].
      destruct (polled_ok _ _ _ (h_timer0 i Hi) Hp) as (_ & Harm & ->). rewrite H3.
      intros Ha. by apply (h_armed0 i Hi), Harm.
Qed.

(** ** Polls of any device, the stuck ones included *)

#[export] Instance stuck_dec now t : Decision (stuck now t).
Proof. unfold stuck. apply _. Defined.

Lemma poll_timer_other now i j s : 0 <= j -> j <> i -> 0 <= i ->
  match poll_timer now i s with
  | (Ok _, s') => timer s' j = timer s j /\ length (timers s') = length (timers s)
  | (OutOfFuel, _) => True
  | (Throw _, _) => False
  end.
Proof.
  intros Hj Hne Hi. unfold poll_timer. rewrite gets_bind.
  destruct (_ || _); [done|]. destruct (negb (counter_reached _ _)); [done|]. rewrite gets_bind, bind_run.
  set (t := timer s i). set (irq := route_for_timer i s).
  assert (Hoth : forall (s1 : Hpet) f, timers s1 = timers s ->
    timer (update_timer i f s1) j = timer s j /\ length (timers (update_timer i f s1)) = length (timers s)).
  { intros s1 f E. unfold timer, update_timer. cbn [timers upd_field]. rewrite length_alter, E. split; [|done].
    rewrite !nth_lookup. by rewrite list_lookup_alter_ne by lia. }
  set (s1 := if has (tconfig t) kTimerTypeLevel then latch i s else s).
  assert (Hw : when (has (tconfig t) kTimerTypeLevel)
      (modify (fun s0 => set_asserted i (Some irq) (s0 <| isr := Z.lor (isr s0) (Z.shiftl 1 i) |>))) s = (Ok tt, s1))
    by (unfold s1; by destruct (has (tconfig t) kTimerTypeLevel)).
  assert (E1 : timers s1 = timers s) by (unfold s1; by destruct (has (tconfig t) kTimerTypeLevel)).
  rewrite Hw, bind_run. destruct (has (tconfig t) kTimerPeriodic && negb (period t =? 0)).
  - destruct (repeat_until _ 64 _); [done|]. by apply Hoth.
  - by apply Hoth.
Qed.

Lemma poll_timer_stuck now i s : stuck now (timer s i) -> (poll_timer now i s).1 = OutOfFuel.
Proof.
  intros Hs. pose proof Hs as (Hf & Hp & _). unfold poll_timer. rewrite gets_bind. unfold fires in Hf.
  apply andb_prop in Hf as [[-> ->]%andb_prop ->]. cbn [negb orb]. rewrite gets_bind, bind_run.
  destruct (when _ _ s) as [[[]|e|] s1] eqn:Ew.
  - rewrite bind_run. unfold periodic in Hp. rewrite Hp. by destruct (stuck_diverges now (timer s i) 64 Hs) as [c ->].
  - by destruct (has (tconfig (timer s i)) kTimerTypeLevel).
  - done.
Qed.

Lemma poll_timers_stuck now i ids : i ∈ ids -> Forall (fun i => 0 <= i < 3) ids -> forall s,
  stuck now (timer s i) -> (poll_timers now ids s).1 = OutOfFuel.
Proof.
  intros Hin Hids. assert (Hi : 0 <= i) by (rewrite List.Forall_forall in Hids; by apply Hids, list_elem_of_In).
  induction ids as [|k ids IH]; intros s Hs; [by apply not_elem_of_nil in Hin|].
  apply Forall_cons_1 in Hids as [Hk Hids]. cbn [poll_timers]. rewrite bind_run.
  destruct (decide (k = i)) as [->|Hne].
  - pose proof (poll_timer_stuck now i s Hs) as Hp. destruct (poll_timer now i s) as [o s1]. cbn in Hp. by subst o.
  - apply elem_of_cons in Hin as [?|Hin]; [congruence|].
    pose proof (poll_timer_other now k i s Hi ltac:(lia) ltac:(lia)) as Ho.
    destruct (poll_timer now k s) as [[irqs|e|] s1]; [|done..]. destruct Ho as [Ht _].
    rewrite bind_run. specialize (IH Hin Hids s1). rewrite Ht in IH. specialize (IH Hs).
    destruct (poll_timers now ids s1) as [o s2]. cbn in IH. by subst o.
Qed.

(** A poll of any well-formed device: it ends well-formed, or it is caught in the loop of
    a stuck timer. *)
Definition poll_stuck (s : Hpet) : Prop :=
  has (config s) kCfgEnable = true /\
  exists i, 0 <= i < 3 /\ stuck (counter_at s (clock_now (clock s))) (timer s i).

Lemma poll_expired_any s : hpet_ok s ->
  match poll_expired s with
  | (Ok _, s') => hpet_ok s'
  | (OutOfFuel, _) => poll_stuck s
  | (Throw _, _) => False
  end.
Proof.
  intros Hs. set (now := counter_at s (clock_now (clock s))).
  destruct (decide (Exists (fun i => stuck now (timer s i)) timer_ids)) as [He|Hn].
  - apply Exists_exists in He as (i & Hin%list_elem_of_In & Hst). unfold poll_expired. rewrite gets_bind.
    destruct (has (config s) kCfgEnable) eqn:Hen; cbn [negb]; [|done]. rewrite bind_run.
    destruct (counter_run s) as (c & ->). fold now.
    assert (Hids : Forall (fun i => 0 <= i < 3) timer_ids) by (by repeat constructor).
    lazymatch goal with |- let (_, _) := ?x in _ =>
      assert (Hp : x.1 = OutOfFuel) by (by apply (poll_timers_stuck now i)); destruct x as [o s'] end.
    cbn in Hp. subst o. split; [exact Hen|]. exists i. split; [|exact Hst].
    apply elem_of_seqZ in Hin. unfold kNumTimers in Hin. lia.
  - assert (Hns : forall i, 0 <= i < 3 -> ~ stuck now (timer s i)).
    { intros i Hi Hst. apply Hn, Exists_exists. exists i. split; [|done]. apply list_elem_of_In, elem_of_seqZ. unfold kNumTimers. lia. }
    destruct (poll_run s Hs Hns) as (irqs & s' & E). rewrite E. by eapply poll_expired_ok.
Qed.

Lemma Hpet_new_ok c : hpet_ok (Hpet_new c).
Proof.
  constructor; try done.
  - intros i Hi. by destruct (seq3 i Hi) as [->|[->| ->]]; constructor.
  - intros i Hi. by destruct (seq3 i Hi) as [->|[->| ->]].
  - intros i Hi. by destruct (seq3 i Hi) as [->|[->| ->]].
Qed.

(** What happens to the device: any access of the guest, the attachment of the line,
    and the polls that end. *)
Inductive hpet_history (c : Clock) : Hpet -> Prop :=
  | hpet_start : hpet_history c (Hpet_new c)
  | hpet_attach s : hpet_history c s -> hpet_history c (attach_irq_line s)
  | hpet_write s o s' addr data :
      hpet_history c s -> bytes_ok data -> write_mmio addr data s = (o, s') -> hpet_history c s'
  | hpet_read s o s' addr len :
      hpet_history c s -> read_mmio addr len s = (o, s') -> hpet_history c s'
  | hpet_poll s irqs s' :
      hpet_history c s ->
      (forall i, 0 <= i < 3 -> ~ stuck (counter_at s (clock_now (clock s))) (timer s i)) ->
      poll_expired s = (Ok irqs, s') -> hpet_history c s'.

Lemma hpet_history_ok c s : hpet_history c s -> hpet_ok s.
Proof.
  induction 1 as [|s _ IH|s o s' addr data _ IH Hd E|s o s' addr len _ IH E|s irqs s' _ IH Hns E].
  - apply Hpet_new_ok.
  - by destruct IH.
  - destruct (write_mmio_ok addr data s Hd IH) as (s1 & E1 & H1). congruence.
  - destruct (read_mmio_ok addr len s IH) as (v & s1 & E1 & H1). congruence.
  - by eapply poll_expired_ok.
Qed.

Lemma guest_writes_history c l s :
  hpet_history c s -> Forall (fun p => bytes_ok p.2) l -> hpet_history c (guest_writes l s).2.
Proof.
  revert s. induction l as [|[a d] l IH]; intros s Hs Hl; [done|].
  inversion Hl as [|p ps Hd Hl' E]; subst. unfold guest_writes. cbn [for_each].
  rewrite bind_run. destruct (write_mmio_ok a d s Hd (hpet_history_ok c s Hs)) as (s' & E & _).
  rewrite E. apply IH; [|done]. by eapply hpet_write.
Qed.

(** In every state the guest and the timer thread can bring the device to: an
    access neither throws nor loops; the read-only bits of the timer configurations are
    the initial ones and a timer in 32-bit mode has 32-bit comparator and period; only
    enabled timers are armed; and the level-interrupt status is exactly the set of
    timers whose asserted line the device remembers, so that writing the status
    register forgets and lowers the lines of the bits it clears, and no others. *)
Theorem hpet_registers_ok c s :
  hpet_history c s ->
  (forall addr data, bytes_ok data -> exists s', write_mmio addr data s = (Ok tt, s')) /\
  (forall i, 0 <= i < 3 ->
     Z.land (tconfig (timer s i)) (bnot 64 kTimerCfgWriteMask) = timer_caps /\
     (has (tconfig (timer s i)) kTimer32Bit = true ->
        cmp (timer s i) < 2 ^ 32 /\ period (timer s i) < 2 ^ 32) /\
     armed_enabled s i /\ line_tied s i) /\
  (forall clear,
     irq_line (clear_isr clear s) =
       irq_line s ++ flat_map (lowered s (Z.land (isr s) clear)) timer_ids /\
     forall i, 0 <= i < 3 ->
       asserted (clear_isr clear s) i = (if Z.testbit clear i then None else asserted s i) /\
       line_tied (clear_isr clear s) i).
Proof.
  intros Hh. pose proof (hpet_history_ok c s Hh) as Hs. split; [|split].
  - intros addr data Hd. destruct (write_mmio_ok addr data s Hd Hs) as (s' & E & _). by exists s'.
  - intros i Hi. destruct (h_timer s Hs i Hi). split; [done|]. split; [done|]. split; by apply Hs.
  - intros clear. destruct (clear_isr_spec clear s Hs) as (a & E & Hok & Ha).
    split; [by rewrite E|]. intros i Hi. split; [by apply Ha|]. by apply Hok.
Qed.

(** ** A machine whose clock advances 1 us per reading *)
Module Demo.
Definition c : Clock := mkClock (fun n => 1000 * Z.of_nat n) 0.
(** Timer 0 periodic every 50 ticks, level-triggered on pin 2, then two polls. *)
Definition program : list (Z * list Z) :=
  [(kBase + 0x100, WriteU64 0x44E); (kBase + 0x108, WriteU64 50); (kBase + 0x108, WriteU64 50);
   (kBase + 0x010, WriteU64 1)].
Definition s1 : Hpet := (guest_writes program (Hpet_new c)).2.
Definition s2 : Hpet := (poll_expired s1).2.

Lemma s1_history : hpet_history c s1.
Proof. apply guest_writes_history; [constructor|].
  repeat first [apply List.Forall_nil | apply List.Forall_cons; [apply WriteU64_ok|]].
Qed.
Lemma s1_not_stuck i : 0 <= i < 3 -> ~ stuck (counter_at s1 (clock_now (clock s1))) (timer s1 i).
Proof.
  intros Hi (_ & _ & Hp & _). by destruct (seq3 i Hi) as [->|[->| ->]]; vm_compute in Hp.
Qed.

Lemma hpet_poll_spec_witness :
  fired_irqs (counter_at s1 (clock_now (clock s1))) s1 0 = [mkIrq 2 0xFF true] /\
  exists s', poll_expired s1 = (Ok [mkIrq 2 0xFF true], s').
Proof.
  split; [vm_compute; reflexivity|].
  destruct (hpet_poll_spec s1) as (s' & E & _).
  - exact (hpet_history_ok c s1 s1_history).
  - vm_compute; reflexivity.
  - exact s1_not_stuck.
  - exists s'. exact E.
Defined.

Lemma hpet_registers_ok_witness :
  line_tied (clear_isr 1 s2) 0 /\ asserted s2 0 = Some (mkIrq 2 0xFF true).
Proof.
  split; [|vm_compute; reflexivity].
  destruct (hpet_registers_ok c s2) as (_ & _ & H).
  - eapply (hpet_poll c s1 (flat_map (fired_irqs (counter_at s1 (clock_now (clock s1))) s1) timer_ids)).
    + exact s1_history.
    + exact s1_not_stuck.
    + vm_compute; reflexivity.
  - destruct (H 1) as [_ H1]. destruct (H1 0) as [_ H2]; [split; [discriminate|reflexivity]|exact H2].
Defined.
End Demo.
