(* ===== verification/IoApic.v ===== *)
(** * native/whp/backend.cc, class IoApic: the I/O interrupt controller

    Redirection entries, the level of the lines, and the queue of interrupts that the
    hypervisor has not accepted yet.  The mutex serialises the operations, so each is
    one step.  The theorems: the interrupts an operation raises go to the back of the
    queue, and those at its front to the hypervisor, in order and once; the state stays
    well-formed, and a level interrupt whose line is high has its Remote IRR set, which
    goes up only with an interrupt raised. *)

From S2P Require Import Prelude Words Bytes Irq.

Definition kIoApicBase : Z := 0xFEC00000.
Definition kRteVectorMask : Z := 0xFF.
Definition kRteDestinationMode : Z := Z.shiftl 1 11.
Definition kRteRemoteIrr : Z := Z.shiftl 1 14.
Definition kRteTriggerMode : Z := Z.shiftl 1 15.
Definition kRteMask : Z := Z.shiftl 1 16.
(** [redir_.size()] *)
Definition redir_size : Z := 24.

Section IoApic.
Context {W : Type} `{WhpApi W}.

Record IoApic := mkIoApic {
  selected : Z; redir : list Z; line_level : list bool; pending : list interrupt_control;
  has_waker : bool; wakes : Z;   (** calls of the waker *)
  api : W }.
#[export] Instance eta_IoApic : Eta IoApic := fun s =>
  mkIoApic (selected s) (redir s) (line_level s) (pending s) (has_waker s) (wakes s) (api s).

Definition IoApic_new (w : W) : IoApic :=
  mkIoApic 0 (repeat kRteMask 24) (repeat false 24) [] false 0 w.

Definition attach_waker (s : IoApic) : IoApic := s <| has_waker := true |>.

Definition entry (s : IoApic) (irq : Z) : Z := nth (Z.to_nat irq) (redir s) 0.
Definition line (s : IoApic) (irq : Z) : bool := nth (Z.to_nat irq) (line_level s) false.
Definition set_entry (irq v : Z) (s : IoApic) : IoApic := s <| redir := <[ Z.to_nat irq := v ]> (redir s) |>.
Definition set_line (irq : Z) (b : bool) (s : IoApic) : IoApic :=
  s <| line_level := <[ Z.to_nat irq := b ]> (line_level s) |>.

Definition vector_for_irq_locked (s : IoApic) (irq : Z) : Z :=
  let vector := Z.land (entry s irq) kRteVectorMask in
  if vector =? 0 then 0x20 + irq else vector.

(** The [while] of [drain_pending_locked]: what stays queued, whether anything was
    delivered. *)
Fixpoint drain_loop (q : list interrupt_control) (delivered : bool) (w : W)
    : list interrupt_control * bool * bool * W :=
  match q with
  | [] => ([], delivered, true, w)
  | control :: q' =>
      match request_interrupt control w with
      | (false, w) => (q, delivered, false, w)
      | (true, w) => drain_loop q' true w
      end
  end.

Definition drain_pending_locked (s : IoApic) : IoApic :=
  let '(q, delivered, completed, w) := drain_loop (pending s) false (api s) in
  let s := s <| pending := q |> in
  let s := s <| api := w |> in
  if completed && delivered && has_waker s then s <| wakes := wakes s + 1 |> else s.

Definition control_for (s : IoApic) (irq : Z) : interrupt_control :=
  let e := entry s irq in
  mkControl (Z.land (Z.shiftr e 56) 0xFF) (vector_for_irq_locked s irq)
    (has e kRteTriggerMode) (has e kRteDestinationMode) 0.

Definition request_irq_locked (irq : Z) (s : IoApic) : IoApic :=
  if redir_size <=? irq then s
  else
    let e := entry s irq in
    if has e kRteMask then s
    else
      let level_triggered := has e kRteTriggerMode in
      if level_triggered && has e kRteRemoteIrr then s
      else if 64 <? Z.of_nat (length (pending s)) then s
      else
        let control := control_for s irq in
        let s := if level_triggered then set_entry irq (Z.lor e kRteRemoteIrr) s else s in
        drain_pending_locked (s <| pending := pending s ++ [control] |>).

Definition read_reg (s : IoApic) (reg : Z) : Z :=
  if reg =? 0x00 then Z.shiftl 12 24
  else if reg =? 0x01 then Z.lor 0x11 (Z.shiftl (redir_size - 1) 16)
  else if (0x10 <=? reg) && (reg <? 0x10 + redir_size * 2) then
    let irq := (reg - 0x10) / 2 in
    let high := has (reg - 0x10) 1 in
    if high then u32 (Z.shiftr (entry s irq) 32) else u32 (entry s irq)
  else 0.

(** The entry a write of the low half stores. *)
Definition low_entry (old value : Z) : Z :=
  let e := Z.lor (Z.land old 0xFFFFFFFF00000000) value in
  let e := Z.lor (Z.land e (bnot 64 kRteRemoteIrr)) (Z.land old kRteRemoteIrr) in
  if negb (has e kRteTriggerMode) then Z.land e (bnot 64 kRteRemoteIrr) else e.

Definition write_reg (reg value : Z) (s : IoApic) : IoApic :=
  if (0x10 <=? reg) && (reg <? 0x10 + redir_size * 2) then
    let irq := (reg - 0x10) / 2 in
    let high := has (reg - 0x10) 1 in
    let old := entry s irq in
    if high then set_entry irq (Z.lor (Z.land old 0xFFFFFFFF) (Z.shiftl value 32)) s
    else
      let s := set_entry irq (low_entry old value) s in
      if has old kRteMask && negb (has (entry s irq) kRteMask) && line s irq
      then request_irq_locked irq s else s
  else s.

Definition read_mmio (s : IoApic) (addr len : Z) : list Z :=
  if negb (len =? 4) then repeat 0 (Z.to_nat len)
  else
    let off := u32 (addr - kIoApicBase) in
    if off =? 0x00 then WriteU32 (selected s)
    else if off =? 0x10 then WriteU32 (read_reg s (selected s))
    else repeat 0 (Z.to_nat len).

Definition write_mmio (addr : Z) (data : list Z) (s : IoApic) : IoApic :=
  if negb (Z.of_nat (length data) =? 4) then s
  else
    let off := u32 (addr - kIoApicBase) in
    let value := ReadU32 data in
    if off =? 0x00 then s <| selected := Z.land value 0xFF |>
    else if off =? 0x10 then write_reg (selected s) value s
    else s.

Definition request_irq (irq : Z) (s : IoApic) : IoApic := request_irq_locked irq s.

Definition set_irq (irq : Z) (level : bool) (s : IoApic) : IoApic :=
  if redir_size <=? irq then s
  else
    let s := set_line irq level s in
    if level then request_irq_locked irq s else s.

Definition vector_for_irq (s : IoApic) (irq : Z) : Z :=
  if redir_size <=? irq then 0x20 + irq else vector_for_irq_locked s irq.
Definition irq_unmasked (s : IoApic) (irq : Z) : bool :=
  (irq <? redir_size) && (Z.land (entry s irq) kRteMask =? 0).

Definition drain_pending (s : IoApic) : IoApic := drain_pending_locked s.

Definition eoi_irq (vector irq : Z) (s : IoApic) : IoApic :=
  let e := entry s irq in
  if negb (has e kRteTriggerMode) || negb (has e kRteRemoteIrr) then s
  else if negb (vector_for_irq_locked s irq =? Z.land vector 0xFF) then s
  else
    let s := set_entry irq (Z.land e (bnot 64 kRteRemoteIrr)) s in
    if line s irq && negb (has (entry s irq) kRteMask) then request_irq_locked irq s else s.

Definition eoi (vector : Z) (s : IoApic) : IoApic :=
  drain_pending_locked (fold_left (fun s irq => eoi_irq vector irq s) (seqZ 0 redir_size) s).
End IoApic.
Arguments IoApic W : clear implicits.

(** ** The queue *)

Section Facts.
Context {W : Type} `{WhpApi W}.
Implicit Types s : IoApic W.

(** The hypervisor accepts the interrupts of a list one after the other. *)
Inductive accepted : list interrupt_control -> W -> W -> Prop :=
  | accepted_nil w : accepted [] w w
  | accepted_cons c cs w w1 w2 :
      request_interrupt c w = (true, w1) -> accepted cs w1 w2 -> accepted (c :: cs) w w2.

Definition is_nil {A} (l : list A) : bool := match l with [] => true | _ => false end.

Lemma drain_loop_spec q b w :
  let '(rest, delivered, completed, w') := drain_loop q b w in
  exists sent w1, q = sent ++ rest /\ accepted sent w w1 /\
    delivered = b || negb (is_nil sent) /\
    (if completed then rest = [] /\ w' = w1
     else exists c cs, rest = c :: cs /\ request_interrupt c w1 = (false, w')).
Proof.
  revert b w. induction q as [|c q IH]; intros b w; cbn [drain_loop].
  { exists [], w. cbn. rewrite orb_false_r. split; [done|]. split; [constructor|done]. }
  destruct (request_interrupt c w) as [[|] w1] eqn:E.
  - specialize (IH true w1). destruct (drain_loop q true w1) as [[[rest delivered] completed] w'].
    destruct IH as (sent & w2 & -> & Ha & -> & Hc). exists (c :: sent), w2.
    split; [done|]. split; [by econstructor|]. split; [by rewrite orb_true_r|done].
  - exists [], w. cbn. rewrite orb_false_r. split; [done|]. split; [constructor|]. split; [done|].
    by exists c, q.
Qed.

(** Draining sends the queued interrupts to the hypervisor in order, each once,
    until one is refused; exactly the refused one and those behind it stay queued, and
    the registers and lines are left alone.  The waker is called when the queue was
    emptied by sending at least one, not when a refusal stopped the drain. *)
Theorem ioapic_drain_spec s :
  let s' := drain_pending s in
  exists sent w1, pending s = sent ++ pending s' /\ accepted sent (api s) w1 /\
    (pending s' = [] /\ api s' = w1 \/
     exists c cs, pending s' = c :: cs /\ request_interrupt c w1 = (false, api s')) /\
    wakes s' = wakes s + (if is_nil (pending s') && negb (is_nil sent) && has_waker s then 1 else 0) /\
    selected s' = selected s /\ redir s' = redir s /\ line_level s' = line_level s.
Proof.
  unfold drain_pending, drain_pending_locked. pose proof (drain_loop_spec (pending s) false (api s)) as Hd.
  destruct (drain_loop _ _ _) as [[[rest delivered] completed] w'].
  destruct Hd as (sent & w1 & Hq & Ha & -> & Hc). exists sent, w1. cbn [orb].
  destruct completed.
  - destruct Hc as [-> ->]. cbn [has_waker wakes pending upd_field is_nil api selected redir line_level andb orb].
    destruct (negb (is_nil sent) && has_waker s) eqn:Hw; cbn [has_waker wakes pending upd_field is_nil api selected redir line_level andb orb]; rewrite ?Hw; split_and!; try done; try lia; auto.
  - destruct Hc as (c & cs & -> & Hr). cbn [has_waker wakes pending upd_field is_nil api selected redir line_level andb orb]. split_and!; try done; [|lia].
    right. by exists c, cs.
Qed.

(** What every operation except a register write keeps. *)
Record drained (s s' : IoApic W) : Prop := {
  dr_selected : selected s' = selected s;
  dr_redir : redir s' = redir s;
  dr_line : line_level s' = line_level s;
  dr_pending : (length (pending s') <= length (pending s))%nat }.

Lemma drain_drained s : drained s (drain_pending_locked s).
Proof.
  unfold drain_pending_locked. pose proof (drain_loop_spec (pending s) false (api s)) as Hd.
  destruct (drain_loop _ _ _) as [[[rest delivered] completed] w'].
  destruct Hd as (sent & w1 & Hq & _). apply (f_equal length) in Hq. rewrite length_app in Hq.
  assert (Hle : (length rest <= length (pending s))%nat) by lia.
  by destruct (completed && delivered && _); constructor.
Qed.

(** ** Entries *)

Lemma has_bit x k : 0 <= k -> has x (Z.shiftl 1 k) = Z.testbit x k.
Proof. intros. by rewrite Z.shiftl_1_l, has_pow2. Qed.

Definition irr (e : Z) : bool := has e kRteRemoteIrr.
Definition level_mode (e : Z) : bool := has e kRteTriggerMode.
Definition masked (e : Z) : bool := has e kRteMask.

Lemma irr_bit e : irr e = Z.testbit e 14.
Proof. by apply (has_bit e 14). Qed.
Lemma level_bit e : level_mode e = Z.testbit e 15.
Proof. by apply (has_bit e 15). Qed.
Lemma masked_bit e : masked e = Z.testbit e 16.
Proof. by apply (has_bit e 16). Qed.

(** Bit [i < 32] of an entry stored through the low window. *)
Lemma low_entry_bit old v i : 0 <= i < 32 ->
  Z.testbit (low_entry old v) i =
  if i =? 14 then Z.testbit v 15 && Z.testbit old 14 else Z.testbit v i.
Proof.
  intros Hi. unfold low_entry. set (e := Z.lor (Z.land (Z.lor _ _) _) _).
  assert (Hhi : forall j, 0 <= j < 32 -> Z.testbit 0xFFFFFFFF00000000 j = false).
  { intros j Hj. change 0xFFFFFFFF00000000 with (Z.shiftl 0xFFFFFFFF 32). apply Z.shiftl_spec_low. lia. }
  assert (He : forall j, 0 <= j < 32 -> Z.testbit e j = if j =? 14 then Z.testbit old 14 else Z.testbit v j).
  { intros j Hj. unfold e, kRteRemoteIrr. rewrite !Z.lor_spec, !Z.land_spec, !Z.lor_spec, Z.land_spec.
    rewrite bnot_spec, Hhi, Z.shiftl_1_l, Z.pow2_bits_eqb, (Z.eqb_sym 14) by lia. rewrite andb_false_r. cbn [orb].
    destruct (Z.eqb_spec j 14) as [->|]; cbn [negb]; by rewrite ?andb_false_r, ?andb_true_r, ?orb_false_r. }
  clearbody e. fold (level_mode e). rewrite level_bit, He by lia. change (15 =? 14) with false. cbv iota.
  destruct (Z.testbit v 15); cbn [negb andb].
  - rewrite He by done. by destruct (i =? 14).
  - rewrite Z.land_spec, bnot_spec, He by lia. unfold kRteRemoteIrr.
    rewrite Z.shiftl_1_l, Z.pow2_bits_eqb, (Z.eqb_sym 14) by lia. by destruct (i =? 14); rewrite ?andb_false_r, ?andb_true_r.
Qed.

Lemma low_entry_range old v : 0 <= old < 2 ^ 64 -> 0 <= v < 2 ^ 32 -> 0 <= low_entry old v < 2 ^ 64.
Proof.
  intros Ho Hv. unfold low_entry. set (e := Z.lor (Z.land (Z.lor _ _) _) _).
  assert (He : 0 <= e < 2 ^ 64).
  { apply lor_range; [lia|apply land_range; [lia|by apply bnot_range]|].
    apply land_range; [lia|]. by vm_compute. }
  destruct (negb _); [|done]. apply land_range; [lia|by apply bnot_range].
Qed.

Lemma high_entry_bit old v i : 0 <= i < 32 ->
  Z.testbit (Z.lor (Z.land old 0xFFFFFFFF) (Z.shiftl v 32)) i = Z.testbit old i.
Proof.
  intros Hi. rewrite Z.lor_spec, (Z.shiftl_spec_low v) by lia. rewrite orb_false_r.
  change 0xFFFFFFFF with (Z.ones 32). rewrite Z.land_spec, Z.ones_spec_low by lia. apply andb_true_r.
Qed.

Lemma entry_set i j v s :
  0 <= i < Z.of_nat (length (redir s)) -> 0 <= j ->
  entry (set_entry i v s) j = if j =? i then v else entry s j.
Proof.
  intros Hi Hj. unfold entry, set_entry. cbn [redir upd_field].
  destruct (Z.eqb_spec j i) as [->|Hne].
  - apply nth_lookup_Some. apply list_lookup_insert_eq. lia.
  - rewrite !nth_lookup. by rewrite list_lookup_insert_ne by lia.
Qed.

Lemma line_set i j b s :
  0 <= i < Z.of_nat (length (line_level s)) -> 0 <= j ->
  line (set_line i b s) j = if j =? i then b else line s j.
Proof.
  intros Hi Hj. unfold line, set_line. cbn [line_level upd_field].
  destruct (Z.eqb_spec j i) as [->|Hne].
  - apply nth_lookup_Some. apply list_lookup_insert_eq. lia.
  - rewrite !nth_lookup. by rewrite list_lookup_insert_ne by lia.
Qed.

(** ** The invariant *)

Definition entry_ok (e : Z) : Prop := 0 <= e < 2 ^ 64 /\ (irr e = true -> level_mode e = true).

Record ioapic_ok s : Prop := {
  io_redir : length (redir s) = 24%nat;
  io_line : length (line_level s) = 24%nat;
  io_entries : forall irq, 0 <= irq < 24 -> entry_ok (entry s irq);
  io_selected : 0 <= selected s < 256;
  io_pending : (length (pending s) <= 65)%nat }.

(** A level interrupt that is due has its Remote IRR set.  That the bit stands for an
    interrupt that was queued is [run_op_irr] below. *)
Definition in_flight s (irq : Z) : Prop :=
  line s irq = true -> masked (entry s irq) = false -> level_mode (entry s irq) = true ->
  irr (entry s irq) = true.

Lemma drain_ok s : ioapic_ok s -> ioapic_ok (drain_pending_locked s).
Proof.
  intros Hs. destruct (drain_drained s) as [H1 H2 H3 H4]. destruct Hs.
  constructor; rewrite ?H1, ?H2, ?H3; try done; [|lia].
  intros irq Hi. unfold entry. rewrite H2. by apply io_entries0.
Qed.

Lemma drain_same s irq :
  entry (drain_pending_locked s) irq = entry s irq /\ line (drain_pending_locked s) irq = line s irq.
Proof. destruct (drain_drained s) as [_ H2 H3 _]. unfold entry, line. by rewrite H2, H3. Qed.

Lemma set_entry_ok irq v s :
  ioapic_ok s -> 0 <= irq < 24 -> entry_ok v -> ioapic_ok (set_entry irq v s).
Proof.
  intros Hs Hi Hv. pose proof (io_redir s Hs) as Hlen. destruct Hs. constructor; try done.
  - unfold set_entry. cbn [redir upd_field]. by rewrite length_insert.
  - intros j Hj. rewrite entry_set by lia. destruct (j =? irq); auto.
Qed.

(** One request: modes and lines are kept, Remote IRR only ever rises. *)
Record requested (irq : Z) s s' : Prop := {
  rq_ok : ioapic_ok s';
  rq_line : line_level s' = line_level s;
  rq_masked : forall j, 0 <= j < 24 -> masked (entry s' j) = masked (entry s j);
  rq_level : forall j, 0 <= j < 24 -> level_mode (entry s' j) = level_mode (entry s j);
  rq_irr : forall j, 0 <= j < 24 -> irr (entry s j) = true -> irr (entry s' j) = true;
  rq_pending : (length (pending s') <= S (length (pending s)))%nat;
  rq_flight : (length (pending s) <= 64)%nat -> 0 <= irq < 24 -> in_flight s' irq }.

Lemma with_irr_bits e : entry_ok e -> level_mode e = true ->
  let e' := Z.lor e kRteRemoteIrr in
  entry_ok e' /\ masked e' = masked e /\ level_mode e' = true /\ irr e' = true.
Proof.
  intros [Hr Hl] Hm e'. unfold entry_ok. rewrite !masked_bit, !level_bit, !irr_bit in *.
  assert (He : 0 <= e' < 2 ^ 64) by (apply lor_range; [lia|lia|by vm_compute]).
  split; [split; [done|]|]; unfold e'; rewrite !Z.lor_spec, Hm; [done|].
  by rewrite orb_false_r, orb_true_r.
Qed.

Lemma request_spec irq s : 0 <= irq -> ioapic_ok s -> requested irq s (request_irq_locked irq s).
Proof.
  intros Hi Hs. unfold request_irq_locked.
  assert (Hnone : (in_flight s irq \/ 24 <= irq \/ (64 < length (pending s))%nat) -> requested irq s s).
  { intros Hf. constructor; try done; auto. intros Hp Hr. destruct Hf as [Hf|[?|?]]; [done|lia|lia]. }
  destruct (Z.leb_spec redir_size irq) as [Hge|Hlt]; unfold redir_size in *; [apply Hnone; lia|].
  fold (masked (entry s irq)) (level_mode (entry s irq)) (irr (entry s irq)). cbv zeta.
  destruct (masked (entry s irq)) eqn:Hm; [apply Hnone; left; intros ? ?; congruence|].
  destruct (level_mode (entry s irq) && irr (entry s irq)) eqn:Hli.
  { apply Hnone. left. apply andb_prop in Hli as [_ Hr]. by intros _ _ _. }
  destruct (Z.ltb_spec 64 (Z.of_nat (length (pending s)))) as [|Hlen]; [apply Hnone; lia|].
  set (c := control_for s irq). pose proof (io_entries s Hs irq ltac:(lia)) as He.
  set (s1 := if level_mode (entry s irq) then _ else s).
  set (s2 := s1 <| pending := _ |>).
  assert (H1 : ioapic_ok s1 /\ pending s1 = pending s /\ line_level s1 = line_level s /\
    forall j, 0 <= j < 24 -> entry s1 j =
      if (j =? irq) && level_mode (entry s irq) then Z.lor (entry s irq) kRteRemoteIrr else entry s j).
  { unfold s1. destruct (level_mode (entry s irq)) eqn:Hl.
    - split_and!; [|done|done|].
      + apply set_entry_ok; [done|lia|]. by apply with_irr_bits.
      + intros j Hj. rewrite andb_true_r. apply entry_set; [rewrite (io_redir s Hs)|]; lia.
    - split_and!; try done. intros j Hj. by rewrite andb_false_r. }
  clearbody s1. destruct H1 as (Hok & Hp1 & Hl1 & He1).
  assert (Hlen2 : length (pending s2) = S (length (pending s))).
  { unfold s2. cbn [pending upd_field]. rewrite length_app, Hp1. cbn. lia. }
  assert (Hok2 : ioapic_ok s2).
  { destruct Hok. constructor; try done. rewrite Hlen2. lia. }
  destruct (drain_drained s2) as [_ _ Dl Dp].
  assert (HE : forall j, 0 <= j < 24 -> entry (drain_pending_locked s2) j =
      if (j =? irq) && level_mode (entry s irq) then Z.lor (entry s irq) kRteRemoteIrr else entry s j).
  { intros j Hj. rewrite (proj1 (drain_same s2 j)). by apply He1. }
  assert (HB : forall j, 0 <= j < 24 ->
     masked (entry (drain_pending_locked s2) j) = masked (entry s j) /\
     level_mode (entry (drain_pending_locked s2) j) = level_mode (entry s j) /\
     (irr (entry s j) = true -> irr (entry (drain_pending_locked s2) j) = true) /\
     (j = irq -> level_mode (entry s j) = true -> irr (entry (drain_pending_locked s2) j) = true)).
  { intros j Hj. rewrite HE by done. destruct (Z.eqb_spec j irq) as [->|]; cbn [andb]; [|done].
    destruct (level_mode (entry s irq)) eqn:Hl; [|done].
    destruct (with_irr_bits (entry s irq) He Hl) as (_ & -> & -> & ->). done. }
  constructor.
  - by apply drain_ok.
  - by rewrite Dl.
  - intros j Hj. by apply HB.
  - intros j Hj. by apply HB.
  - intros j Hj. by apply HB.
  - lia.
  - intros _ Hr _ _ Hl. apply (HB irq Hr); [done|]. by rewrite <- (proj1 (proj2 (HB irq Hr))).
Qed.

(** Well-formedness needs nothing of the line: [Z.to_nat] maps what is no line to line 0. *)
Lemma request_ok irq s : ioapic_ok s -> ioapic_ok (request_irq_locked irq s).
Proof.
  intros Hs. destruct (Z.leb_spec 0 irq) as [Hi|Hi]; [by apply request_spec|]. unfold request_irq_locked.
  destruct (redir_size <=? irq); [done|]. cbv zeta.
  change (entry s irq) with (nth (Z.to_nat irq) (redir s) 0). unfold set_entry.
  replace (Z.to_nat irq) with (Z.to_nat 0) by lia. fold (entry s 0).
  destruct (has (entry s 0) kRteMask); [done|]. destruct (_ && _); [done|].
  destruct (Z.ltb_spec 64 (Z.of_nat (length (pending s)))); [done|]. apply drain_ok.
  assert (Hok : ioapic_ok (if has (entry s 0) kRteTriggerMode
    then set_entry 0 (Z.lor (entry s 0) kRteRemoteIrr) s else s)).
  { pose proof (io_entries s Hs 0 ltac:(lia)) as He. destruct (has _ _) eqn:Hl; [|done].
    apply set_entry_ok; [done|lia|]. by apply with_irr_bits. }
  unfold set_entry in Hok. set (s1 := if has (entry s 0) kRteTriggerMode
    then s <| redir := <[ Z.to_nat 0 := Z.lor (entry s 0) kRteRemoteIrr ]> (redir s) |> else s) in *.
  assert (Hp : pending s1 = pending s) by (unfold s1; by destruct (has _ _)).
  clearbody s1. destruct Hok. constructor; try done. cbn [pending upd_field]. rewrite length_app, Hp. cbn. lia.
Qed.

Lemma set_irq_ok irq level s : ioapic_ok s -> ioapic_ok (set_irq irq level s).
Proof.
  intros Hs. unfold set_irq. destruct (redir_size <=? irq); [done|].
  assert (Hs1 : ioapic_ok (set_line irq level s)).
  { destruct Hs. constructor; try done. unfold set_line. cbn [line_level upd_field]. by rewrite length_insert. }
  cbv zeta. destruct level; [by apply request_ok|done].
Qed.

Definition all_in_flight s : Prop := forall irq, 0 <= irq < 24 -> in_flight s irq.

Lemma in_flight_same s s' irq :
  line s' irq = line s irq -> entry s' irq = entry s irq -> in_flight s irq -> in_flight s' irq.
Proof. unfold in_flight. by intros -> ->. Qed.

Lemma line_eq s s' irq : line_level s' = line_level s -> line s' irq = line s irq.
Proof. unfold line. by intros ->. Qed.

(** A request completes the invariant at its own line and keeps it elsewhere. *)
Lemma requested_flight irq s s' :
  requested irq s s' -> (length (pending s) <= 64)%nat -> 0 <= irq < 24 ->
  (forall j, 0 <= j < 24 -> j <> irq -> in_flight s j) -> all_in_flight s'.
Proof.
  intros Hr Hp Hi Hf j Hj. destruct (decide (j = irq)) as [->|Hne]; [by apply Hr|].
  unfold in_flight. rewrite (line_eq s s') by apply Hr. rewrite (rq_masked _ _ _ Hr), (rq_level _ _ _ Hr) by done.
  intros. apply (rq_irr _ _ _ Hr); [done|]. by apply Hf.
Qed.

Lemma requested_flight_any irq s s' :
  requested irq s s' -> all_in_flight s -> all_in_flight s'.
Proof.
  intros Hr Hf j Hj. unfold in_flight.
  rewrite (line_eq s s') by apply Hr. rewrite (rq_masked _ _ _ Hr), (rq_level _ _ _ Hr) by done.
  intros. apply (rq_irr _ _ _ Hr); [done|]. by apply Hf.
Qed.

Lemma set_entry_flight irq v s j :
  ioapic_ok s -> 0 <= irq < 24 -> 0 <= j -> j <> irq -> in_flight s j -> in_flight (set_entry irq v s) j.
Proof.
  intros Hs Hi Hj Hne. apply in_flight_same; [done|].
  rewrite entry_set by (rewrite ?(io_redir s Hs); lia). by destruct (Z.eqb_spec j irq).
Qed.

Lemma clear_irr_bits e : entry_ok e ->
  let e' := Z.land e (bnot 64 kRteRemoteIrr) in
  entry_ok e' /\ masked e' = masked e /\ level_mode e' = level_mode e.
Proof.
  intros [Hr Hl] e'. unfold entry_ok. rewrite !masked_bit, !level_bit, !irr_bit in *.
  assert (He : 0 <= e' < 2 ^ 64) by (apply land_range; [lia|by apply bnot_range]).
  unfold e' in *. rewrite !Z.land_spec, !bnot_spec, !andb_false_r, !andb_true_r by lia. done.
Qed.

Lemma eoi_irq_spec vector irq s :
  0 <= irq < 24 -> ioapic_ok s ->
  let s' := eoi_irq vector irq s in
  ioapic_ok s' /\ (length (pending s') <= S (length (pending s)))%nat /\
  ((length (pending s) <= 64)%nat -> all_in_flight s -> all_in_flight s').
Proof.
  intros Hi Hs s'. subst s'. unfold eoi_irq. destruct (_ || _); [by auto|]. destruct (negb (_ =? _)); [by auto|].
  set (e := entry s irq). pose proof (io_entries s Hs irq Hi) as He. fold e in He.
  destruct (clear_irr_bits e He) as (He' & Hm & Hl). set (e' := Z.land e _) in *.
  set (s1 := set_entry irq e' s). assert (Hs1 : ioapic_ok s1) by (by apply set_entry_ok).
  assert (Hoth : all_in_flight s -> forall j, 0 <= j < 24 -> j <> irq -> in_flight s1 j)
    by (intros Hf j Hj Hne; apply set_entry_flight; auto; lia).
  fold (masked (entry s1 irq)). destruct (line s1 irq && negb (masked (entry s1 irq))) eqn:Hc.
  - destruct (request_spec irq s1 ltac:(lia) Hs1) as [] eqn:E; clear E.
    pose proof (request_spec irq s1 ltac:(lia) Hs1) as Hr. split; [done|]. split; [done|].
    intros Hp Hf. by apply (requested_flight irq s1); auto.
  - split; [done|]. split; [by auto|]. intros Hp Hf j Hj. destruct (decide (j = irq)) as [->|]; [|by auto].
    intros H1 H2 _. rewrite H1, H2 in Hc. done.
Qed.

Lemma eoi_fold vector l : forall s,
  Forall (fun irq => 0 <= irq < 24) l -> ioapic_ok s ->
  let s' := fold_left (fun s irq => eoi_irq vector irq s) l s in
  ioapic_ok s' /\ ((length l + length (pending s) <= 64)%nat -> all_in_flight s -> all_in_flight s').
Proof.
  induction l as [|irq l IH]; intros s Hl Hs; [by auto|]. inversion Hl as [|? ? Hi Hl']; subst.
  destruct (eoi_irq_spec vector irq s Hi Hs) as (Hok & Hp & Hf). cbn [fold_left length].
  destruct (IH (eoi_irq vector irq s) Hl' Hok) as [H1 H2]. split; [done|].
  intros Hlen Hfl. apply H2; [lia|]. apply Hf; [lia|done].
Qed.

Lemma IoApic_new_entry (w : W) irq : entry (IoApic_new w) irq = kRteMask \/ entry (IoApic_new w) irq = 0.
Proof.
  unfold entry. cbn [redir IoApic_new].
  destruct (nth_in_or_default (Z.to_nat irq) (repeat kRteMask 24) 0) as [Hin| ->]; [left|by right].
  by apply repeat_spec in Hin.
Qed.

Lemma IoApic_new_ok (w : W) : ioapic_ok (IoApic_new w) /\ all_in_flight (IoApic_new w).
Proof.
  split.
  - constructor; try done; [|cbn; lia]. intros irq Hi.
    by destruct (IoApic_new_entry w irq) as [->| ->].
  - intros irq Hi _ _. by destruct (IoApic_new_entry w irq) as [->| ->].
Qed.

(** ** Operations *)

Inductive io_op :=
  | OpWrite (addr : Z) (data : list Z)
  | OpSetIrq (irq : Z) (level : bool)
  | OpRequest (irq : Z)
  | OpEoi (vector : Z)
  | OpDrain.

Definition run_op (op : io_op) : IoApic W -> IoApic W :=
  match op with
  | OpWrite addr data => write_mmio addr data
  | OpSetIrq irq level => set_irq irq level
  | OpRequest irq => request_irq irq
  | OpEoi vector => eoi vector
  | OpDrain => drain_pending
  end.

Definition op_ok (op : io_op) : Prop :=
  match op with
  | OpWrite _ data => bytes_ok data
  | OpSetIrq irq _ | OpRequest irq => 0 <= irq
  | _ => True
  end.

(** The guest turns an unmasked edge entry whose line is high into a level one. *)
Definition retriggers s (op : io_op) : Prop :=
  match op with
  | OpWrite addr data =>
      let irq := (selected s - 0x10) / 2 in
      u32 (addr - kIoApicBase) = 0x10 /\
      0 <= irq < 24 /\ masked (entry s irq) = false /\ level_mode (entry s irq) = false /\
      level_mode (low_entry (entry s irq) (ReadU32 data)) = true
  | _ => False
  end.

Lemma low_entry_ok old v : entry_ok old -> 0 <= v < 2 ^ 32 -> entry_ok (low_entry old v).
Proof.
  intros [Hr Hl] Hv. split; [by apply low_entry_range|]. rewrite irr_bit, level_bit, !low_entry_bit by lia.
  cbn [Z.eqb Pos.eqb]. intros [H1 _]%andb_prop. done.
Qed.

Lemma high_entry_ok old v : entry_ok old -> 0 <= v < 2 ^ 32 ->
  let e := Z.lor (Z.land old 0xFFFFFFFF) (Z.shiftl v 32) in
  entry_ok e /\ masked e = masked old /\ level_mode e = level_mode old /\ irr e = irr old.
Proof.
  intros [Hr Hl] Hv e.
  assert (He : 0 <= e < 2 ^ 64) by (by apply set_hi32_range).
  unfold entry_ok. rewrite !masked_bit, !level_bit, !irr_bit in *. unfold e in *.
  by rewrite !high_entry_bit by lia.
Qed.

Lemma write_reg_spec reg v s :
  ioapic_ok s -> 0 <= v < 2 ^ 32 ->
  ioapic_ok (write_reg reg v s) /\
  ((length (pending s) <= 64)%nat ->
   (let irq := (reg - 0x10) / 2 in
    ~ (0 <= irq < 24 /\ masked (entry s irq) = false /\ level_mode (entry s irq) = false /\
       level_mode (low_entry (entry s irq) v) = true)) ->
   all_in_flight s -> all_in_flight (write_reg reg v s)).
Proof.
  intros Hs Hv. unfold write_reg. destruct ((0x10 <=? reg) && (reg <? 0x10 + redir_size * 2)) eqn:Hr; [|by auto].
  cbv zeta. set (irq := (reg - 0x10) / 2). unfold redir_size in Hr.
  apply andb_prop in Hr as [Hr1%Z.leb_le Hr2%Z.ltb_lt].
  assert (Hi : 0 <= irq < 24) by (split; [apply Z.div_pos|apply Z.div_lt_upper_bound]; lia). clearbody irq.
  pose proof (io_entries s Hs irq Hi) as He. set (old := entry s irq) in *.
  destruct (has (reg - 0x10) 1).
  - destruct (high_entry_ok old v He Hv) as (Hok & Hm & Hl & Hir). set (e := Z.lor _ _) in *.
    split; [by apply set_entry_ok|]. intros _ _ Hf j Hj. destruct (decide (j = irq)) as [->|].
    + unfold in_flight. rewrite entry_set, Z.eqb_refl, Hm, Hl, Hir by (rewrite ?(io_redir s Hs); lia).
      by apply Hf.
    + apply set_entry_flight; auto; lia.
  - pose proof (low_entry_ok old v He Hv) as Hok. set (e := low_entry old v) in *.
    set (s1 := set_entry irq e s). assert (Hs1 : ioapic_ok s1) by (by apply set_entry_ok).
    assert (Hent : entry s1 irq = e)
      by (unfold s1; by rewrite entry_set, Z.eqb_refl by (rewrite ?(io_redir s Hs); lia)).
    assert (Hoth : all_in_flight s -> forall j, 0 <= j < 24 -> j <> irq -> in_flight s1 j)
      by (intros Hf j Hj Hne; apply set_entry_flight; auto; lia).
    fold (masked old) (masked (entry s1 irq)). rewrite Hent.
    destruct (masked old && negb (masked e) && line s1 irq) eqn:Hc.
    + pose proof (request_spec irq s1 ltac:(lia) Hs1) as Hreq. split; [by apply Hreq|].
      intros Hp _ Hf. by apply (requested_flight irq s1); auto.
    + split; [done|]. intros _ Hnr Hf j Hj. destruct (decide (j = irq)) as [->|]; [|by auto].
      unfold in_flight. rewrite Hent. intros H1 H2 H3. rewrite H1, H2 in Hc. cbn in Hc.
      rewrite andb_true_r in Hc. fold old in Hc. destruct (masked old) eqn:Hmo; [done|].
      destruct (level_mode old) eqn:Hlo; [|destruct Hnr; done].
      pose proof (Hf irq Hi H1 Hmo Hlo) as Hir. fold old in Hir.
      unfold e in *. rewrite level_bit, low_entry_bit in H3 by lia.
      rewrite irr_bit, low_entry_bit by lia. rewrite irr_bit in Hir. cbn [Z.eqb Pos.eqb] in *.
      by rewrite H3, Hir.
Qed.

Lemma run_op_spec s op :
  ioapic_ok s -> op_ok op ->
  ioapic_ok (run_op op s) /\
  ((length (pending s) <= 40)%nat -> ~ retriggers s op -> all_in_flight s ->
   all_in_flight (run_op op s)).
Proof.
  intros Hs Hop. destruct op as [addr data|irq b|irq|vector|]; cbn [run_op op_ok retriggers] in *.
  - unfold write_mmio. destruct (Z.eqb_spec (Z.of_nat (length data)) 4) as [Hl|]; [|by auto]. cbn [negb]. cbv zeta.
    pose proof (ReadU32_range data Hop ltac:(lia)) as Hv.
    destruct (_ =? 0).
    { split; [|by auto]. destruct Hs. constructor; try done. by apply (land_range _ _ 8). }
    destruct (Z.eqb_spec (u32 (addr - kIoApicBase)) 16) as [Hoff|]; [|by auto].
    destruct (write_reg_spec (selected s) (ReadU32 data) s Hs Hv) as [H1 H2].
    split; [done|]. intros Hp Hnr Hf. apply H2; [lia| |done]. cbv zeta in *. tauto.
  - unfold set_irq. destruct (Z.leb_spec redir_size irq) as [|Hlt]; [by auto|]. unfold redir_size in Hlt.
    assert (Hs1 : ioapic_ok (set_line irq b s)).
    { destruct Hs. constructor; try done. unfold set_line. cbn [line_level upd_field]. by rewrite length_insert. }
    assert (Hoth : all_in_flight s -> forall j, 0 <= j < 24 -> j <> irq -> in_flight (set_line irq b s) j).
    { intros Hf j Hj Hne. apply (in_flight_same s); [|done|by apply Hf].
      rewrite line_set by (rewrite ?(io_line s Hs); lia). by destruct (Z.eqb_spec j irq). }
    destruct b.
    + pose proof (request_spec irq _ Hop Hs1) as Hr. split; [by apply Hr|]. intros Hp _ Hf.
      apply (requested_flight irq (set_line irq true s)); auto. cbn. lia.
    + split; [done|]. intros _ _ Hf j Hj. destruct (decide (j = irq)) as [->|]; [|by auto].
      unfold in_flight. by rewrite line_set, Z.eqb_refl by (rewrite ?(io_line s Hs); lia).
  - pose proof (request_spec irq s Hop Hs) as Hr. split; [by apply Hr|]. intros _ _ Hf.
    by eapply requested_flight_any.
  - unfold eoi. destruct (eoi_fold vector (seqZ 0 redir_size) s) as [H1 H2]; [|done|].
    { by repeat constructor. }
    split; [by apply drain_ok|]. intros Hp _ Hf j Hj.
    apply (in_flight_same (fold_left (fun s irq => eoi_irq vector irq s) (seqZ 0 redir_size) s));
      try apply drain_same. apply H2; [|done|done]. change (length (seqZ 0 redir_size)) with 24%nat. lia.
  - split; [by apply drain_ok|]. intros _ _ Hf j Hj.
    apply (in_flight_same s); try apply drain_same. by apply Hf.
Qed.

Lemma eoi_ok vector s : ioapic_ok s -> ioapic_ok (eoi vector s).
Proof.
  intros Hs. unfold eoi. destruct (eoi_fold vector (seqZ 0 redir_size) s) as [H1 _]; [|done|by apply drain_ok].
  by repeat constructor.
Qed.

Lemma ioapic_write_ok addr bytes s : bytes_ok bytes -> ioapic_ok s -> ioapic_ok (write_mmio addr bytes s).
Proof.
  intros Hb Hs. unfold write_mmio. destruct (Z.eqb_spec (Z.of_nat (length bytes)) 4) as [Hl|]; [|done].
  cbn [negb]. cbv zeta. destruct (_ =? 0).
  { destruct Hs. constructor; try done. by apply (land_range _ _ 8). }
  destruct (_ =? 0x10); [|done]. apply write_reg_spec; [done|]. apply ReadU32_range; [done|lia].
Qed.

(** ** Where the interrupts go

    The hypervisor is offered interrupts one after the other: [sent] are the ones it
    accepted, a refused one is offered again later. *)
Inductive offered : list interrupt_control -> W -> W -> Prop :=
  | offered_nil w : offered [] w w
  | offered_accepted c cs w w1 w2 :
      request_interrupt c w = (true, w1) -> offered cs w1 w2 -> offered (c :: cs) w w2
  | offered_refused c cs w w1 w2 :
      request_interrupt c w = (false, w1) -> offered cs w1 w2 -> offered cs w w2.

Lemma offered_app cs1 cs2 w w1 w2 : offered cs1 w w1 -> offered cs2 w1 w2 -> offered (cs1 ++ cs2) w w2.
Proof. induction 1; intros; cbn [app]; eauto using offered. Qed.

Lemma accepted_offered cs w w1 : accepted cs w w1 -> offered cs w w1.
Proof. induction 1; eauto using offered. Qed.

(** The operation adds [new] at the back of the queue; what leaves it at the front
    has been accepted by the hypervisor, in order and once. *)
Definition flow s (new : list interrupt_control) s' : Prop :=
  exists sent, pending s ++ new = sent ++ pending s' /\ offered sent (api s) (api s').

Lemma flow_refl s s' : pending s' = pending s -> api s' = api s -> flow s [] s'.
Proof. intros H1 H2. exists []. rewrite H1, H2, app_nil_r. split; [done|constructor]. Qed.

Lemma flow_trans s n1 s1 n2 s2 : flow s n1 s1 -> flow s1 n2 s2 -> flow s (n1 ++ n2) s2.
Proof.
  intros (a & H1 & Ha) (b & H2 & Hb). exists (a ++ b). split; [|by eapply offered_app].
  by rewrite app_assoc, H1, <- app_assoc, H2, app_assoc.
Qed.

Lemma flow_from s1 s n s' : pending s1 = pending s -> api s1 = api s -> flow s1 n s' -> flow s n s'.
Proof. unfold flow. by intros -> ->. Qed.

Lemma drain_flow s : flow s [] (drain_pending_locked s).
Proof.
  destruct (ioapic_drain_spec s) as (sent & w1 & Hq & Ha & Hr & _). fold (drain_pending s).
  exists sent. rewrite app_nil_r. split; [done|]. destruct Hr as [[_ ->]|(c & cs & _ & Hc)].
  - by apply accepted_offered.
  - rewrite <- (app_nil_r sent). eapply offered_app; [by apply accepted_offered|].
    by eapply offered_refused; [|constructor].
Qed.

(** The interrupt a redirection entry describes, and when a request for its line
    raises it: unmasked, and no level interrupt of it awaiting its end. *)
Definition interrupt_of (irq e : Z) : interrupt_control :=
  mkControl (Z.land (Z.shiftr e 56) 0xFF)
    (if Z.land e 0xFF =? 0 then 0x20 + irq else Z.land e 0xFF)
    (Z.testbit e 15) (Z.testbit e 11) 0.
Definition raise (irq e : Z) : list interrupt_control :=
  if masked e || (level_mode e && irr e) then [] else [interrupt_of irq e].

Lemma control_for_of s irq : control_for s irq = interrupt_of irq (entry s irq).
Proof.
  unfold control_for, interrupt_of, vector_for_irq_locked. cbv zeta. f_equal.
  - apply (has_bit _ 15). done.
  - apply (has_bit _ 11). done.
Qed.

Lemma request_flow irq s :
  0 <= irq < 24 -> (length (pending s) <= 64)%nat -> flow s (raise irq (entry s irq)) (request_irq_locked irq s).
Proof.
  intros Hi Hp. unfold request_irq_locked, raise. destruct (Z.leb_spec redir_size irq); [unfold redir_size in *; lia|].
  fold (masked (entry s irq)) (level_mode (entry s irq)) (irr (entry s irq)). cbv zeta.
  destruct (masked (entry s irq)); [by apply flow_refl|]. cbn [orb].
  destruct (level_mode (entry s irq) && irr (entry s irq)); [by apply flow_refl|].
  destruct (Z.ltb_spec 64 (Z.of_nat (length (pending s)))) as [|_]; [lia|]. rewrite control_for_of.
  set (s1 := if level_mode (entry s irq) then _ else s).
  assert (H1 : pending s1 = pending s /\ api s1 = api s) by (unfold s1; by destruct (level_mode _)).
  destruct H1 as [-> Ha]. clearbody s1. set (s2 := s1 <| pending := _ |>).
  destruct (drain_flow s2) as (sent & Hq & Ho). exists sent. rewrite app_nil_r in Hq.
  unfold s2 in Hq at 1. cbn [pending upd_field] in Hq. split; [done|].
  unfold s2 in Ho at 1. cbn [api upd_field] in Ho. by rewrite Ha in Ho.
Qed.

(** The entries and lines of the other inputs are untouched by a request. *)
Lemma request_other irq s j :
  ioapic_ok s -> 0 <= irq < 24 -> 0 <= j -> j <> irq ->
  entry (request_irq_locked irq s) j = entry s j /\ line (request_irq_locked irq s) j = line s j.
Proof.
  intros Hs Hi Hj Hne. unfold request_irq_locked. destruct (redir_size <=? irq); [done|]. cbv zeta.
  destruct (has (entry s irq) kRteMask); [done|]. destruct (_ && has (entry s irq) kRteRemoteIrr); [done|].
  destruct (64 <? _); [done|].
  match goal with |- entry (drain_pending_locked ?x) _ = _ /\ _ => destruct (drain_same x j) as [-> ->] end.
  destruct (has (entry s irq) kRteTriggerMode); [|done]. split; [|done].
  change (entry (set_entry irq (Z.lor (entry s irq) kRteRemoteIrr) s) j = entry s j).
  rewrite entry_set by (rewrite ?(io_redir s Hs); lia). by destruct (Z.eqb_spec j irq).
Qed.

(** What an end-of-interrupt raises at one input: a level entry with this vector that
    was in service and whose line is still high. *)
Definition eoi_raise (vector irq e : Z) (high : bool) : list interrupt_control :=
  if level_mode e && irr e && (ControlVector (interrupt_of irq e) =? Z.land vector 0xFF) && high && negb (masked e)
  then [interrupt_of irq e] else [].

Lemma interrupt_of_clear irq e : 0 <= e < 2 ^ 64 ->
  interrupt_of irq (Z.land e (bnot 64 kRteRemoteIrr)) = interrupt_of irq e.
Proof.
  intros He. unfold interrupt_of. set (e' := Z.land e _).
  assert (Hb : forall i, 0 <= i -> i <> 14 -> Z.testbit e' i = Z.testbit e i).
  { intros i Hi Hn. unfold e'. rewrite Z.land_spec. destruct (Z.ltb_spec i 64).
    - rewrite bnot_spec by lia. unfold kRteRemoteIrr. rewrite Z.shiftl_1_l, Z.pow2_bits_eqb by lia.
      destruct (Z.eqb_spec 14 i); [lia|]. apply andb_true_r.
    - assert (Z.testbit e i = false) as ->; [|done].
      rewrite <- (Z.mod_small e (2 ^ 64)) by done. by apply Z.mod_pow2_bits_high; lia. }
  rewrite (Hb 15), (Hb 11) by lia.
  assert (H8 : Z.land e' 255 = Z.land e 255).
  { apply Z.bits_inj'. intros i Hi. rewrite !Z.land_spec. destruct (Z.ltb_spec i 8); [by rewrite Hb by lia|].
    change 255 with (Z.ones 8). rewrite Z.ones_spec_high by lia. by rewrite !andb_false_r. }
  rewrite H8. f_equal. f_equal. apply Z.bits_inj'. intros i Hi. rewrite !Z.shiftr_spec by lia. apply Hb; lia.
Qed.

Lemma eoi_irq_flow vector irq s :
  0 <= irq < 24 -> ioapic_ok s -> (length (pending s) <= 64)%nat ->
  let s' := eoi_irq vector irq s in
  flow s (eoi_raise vector irq (entry s irq) (line s irq)) s' /\
  (forall j, 0 <= j -> j <> irq -> entry s' j = entry s j /\ line s' j = line s j).
Proof.
  intros Hi Hs Hp s'. subst s'. unfold eoi_irq, eoi_raise. cbv zeta. set (e := entry s irq).
  pose proof (io_entries s Hs irq Hi) as He. fold e in He.
  fold (level_mode e) (irr e). change (vector_for_irq_locked s irq) with (ControlVector (control_for s irq)).
  rewrite control_for_of. fold e.
  destruct (level_mode e); [|by split; [apply flow_refl|]].
  destruct (irr e) eqn:Hirr; [|by split; [apply flow_refl|]]. cbn [negb orb andb].
  destruct (_ =? Z.land vector 255); [|by split; [apply flow_refl|]]. cbn [negb andb].
  destruct (clear_irr_bits e He) as (He' & Hm & Hl). set (e' := Z.land e _) in *.
  set (s1 := set_entry irq e' s). assert (Hs1 : ioapic_ok s1) by (by apply set_entry_ok).
  assert (Hent : entry s1 irq = e')
    by (unfold s1; by rewrite entry_set, Z.eqb_refl by (rewrite ?(io_redir s Hs); lia)).
  assert (Hoth : forall j, 0 <= j -> j <> irq -> entry s1 j = entry s j /\ line s1 j = line s j).
  { intros j Hj Hne. split; [|done]. unfold s1. rewrite entry_set by (rewrite ?(io_redir s Hs); lia).
    by destruct (Z.eqb_spec j irq). }
  change (line s1 irq) with (line s irq). fold (masked (entry s1 irq)). rewrite Hent, Hm.
  destruct (line s irq); cbn [andb]; [|by split; [apply flow_refl|]].
  destruct (masked e) eqn:Hme; cbn [negb]; [by split; [apply flow_refl|]|]. split.
  - apply (flow_from s1); [done..|]. pose proof (request_flow irq s1 Hi Hp) as Hf. rewrite Hent in Hf.
    unfold raise in Hf. rewrite Hm in Hf. cbn [orb] in Hf.
    assert (Hc : irr e' = false).
    { rewrite irr_bit. unfold e'. rewrite Z.land_spec, bnot_spec by lia. unfold kRteRemoteIrr.
      rewrite Z.shiftl_1_l, Z.pow2_bits_true by lia. apply andb_false_r. }
    rewrite Hc, andb_false_r in Hf. unfold e' in Hf. by rewrite interrupt_of_clear in Hf by apply He.
  - intros j Hj Hne. destruct (request_other irq s1 j Hs1 Hi Hj Hne) as [-> ->]. by apply Hoth.
Qed.

Lemma fold_flow vector l : forall s,
  NoDup l -> Forall (fun irq => 0 <= irq < 24) l -> ioapic_ok s -> (length l + length (pending s) <= 64)%nat ->
  flow s (flat_map (fun irq => eoi_raise vector irq (entry s irq) (line s irq)) l)
    (fold_left (fun s irq => eoi_irq vector irq s) l s).
Proof.
  induction l as [|irq l IH]; intros s Hnd Hl Hs Hp; [by apply flow_refl|].
  inversion Hnd as [|? ? Hnin Hnd']; subst. inversion Hl as [|? ? Hi Hl']; subst. cbn [fold_left flat_map length] in *.
  destruct (eoi_irq_flow vector irq s Hi Hs ltac:(lia)) as [Hf Hoth].
  destruct (eoi_irq_spec vector irq s Hi Hs) as (Hok & Hlen & _). set (s1 := eoi_irq vector irq s) in *.
  eapply flow_trans; [exact Hf|].
  assert (flat_map (fun irq => eoi_raise vector irq (entry s irq) (line s irq)) l =
    flat_map (fun irq => eoi_raise vector irq (entry s1 irq) (line s1 irq)) l) as ->; [|apply IH; auto; lia].
  rewrite !flat_map_concat_map. f_equal. apply map_ext_in. intros j Hj. apply list_elem_of_In in Hj.
  destruct (Hoth j) as [-> ->]; [|by intros ->|done].
  rewrite Forall_forall in Hl'. apply list_elem_of_In in Hj. specialize (Hl' j Hj). lia.
Qed.

(** The interrupts an operation raises: by a line going high or being asked for, by an
    end-of-interrupt, by unmasking an entry whose line is high. *)
Definition raised s (op : io_op) : list interrupt_control :=
  match op with
  | OpSetIrq irq true | OpRequest irq => if irq <? 24 then raise irq (entry s irq) else []
  | OpEoi vector => flat_map (fun irq => eoi_raise vector irq (entry s irq) (line s irq)) (seqZ 0 24)
  | OpWrite addr data =>
      let irq := (selected s - 0x10) / 2 in let e := low_entry (entry s irq) (ReadU32 data) in
      if (Z.of_nat (length data) =? 4) && (u32 (addr - kIoApicBase) =? 0x10) && (0 <=? irq) && (irq <? 24) &&
         Z.even (selected s) && masked (entry s irq) && line s irq
      then raise irq e else []
  | _ => []
  end.

Lemma select_range reg :
  (0x10 <=? reg) && (reg <? 0x10 + redir_size * 2) = (0 <=? (reg - 0x10) / 2) && ((reg - 0x10) / 2 <? 24).
Proof.
  unfold redir_size. pose proof (Z.div_mod (reg - 16) 2 ltac:(lia)). pose proof (Z.mod_pos_bound (reg - 16) 2 ltac:(lia)).
  destruct (Z.leb_spec 16 reg), (Z.ltb_spec reg (16 + 24 * 2)), (Z.leb_spec 0 ((reg - 16) / 2)),
    (Z.ltb_spec ((reg - 16) / 2) 24); cbn; try done; lia.
Qed.

Lemma select_half reg : has (reg - 0x10) 1 = negb (Z.even reg).
Proof.
  change 1 with (2 ^ 0). rewrite has_pow2 by lia. rewrite Z.bit0_odd, Z.negb_even, Z.odd_sub.
  by destruct (Z.odd reg).
Qed.

Lemma write_reg_flow v s :
  ioapic_ok s -> 0 <= v < 2 ^ 32 -> (length (pending s) <= 64)%nat ->
  let irq := (selected s - 0x10) / 2 in
  flow s (if (0 <=? irq) && (irq <? 24) && Z.even (selected s) && masked (entry s irq) && line s irq
          then raise irq (low_entry (entry s irq) v) else []) (write_reg (selected s) v s).
Proof.
  intros Hs Hv Hp. unfold write_reg. cbv zeta. set (reg := selected s). set (irq := (reg - 16) / 2).
  rewrite select_range. fold irq. destruct ((0 <=? irq) && (irq <? 24)) eqn:Hr; cbn [andb]; [|by apply flow_refl].
  apply andb_prop in Hr as [Hr1%Z.leb_le Hr2%Z.ltb_lt].
  rewrite select_half. destruct (Z.even reg); cbn [negb andb]; [|by apply flow_refl].
  set (e := low_entry (entry s irq) v). set (s1 := set_entry irq e s).
  pose proof (low_entry_ok _ v (io_entries s Hs irq ltac:(lia)) Hv) as He.
  assert (Hs1 : ioapic_ok s1) by (by apply set_entry_ok).
  assert (Hent : entry s1 irq = e)
    by (unfold s1; by rewrite entry_set, Z.eqb_refl by (rewrite ?(io_redir s Hs); lia)).
  fold (masked (entry s irq)) (masked (entry s1 irq)). rewrite Hent. change (line s1 irq) with (line s irq).
  destruct (masked (entry s irq)); cbn [andb]; [|by apply flow_refl].
  destruct (line s irq); rewrite ?andb_true_r, ?andb_false_r; [|by apply flow_refl].
  destruct (masked e) eqn:Hm; cbn [negb]; [unfold raise; rewrite Hm; by apply flow_refl|].
  apply (flow_from s1); [done..|]. rewrite <- Hent. apply request_flow; [lia|done].
Qed.

Lemma run_op_flow s op :
  ioapic_ok s -> op_ok op -> (length (pending s) <= 40)%nat -> flow s (raised s op) (run_op op s).
Proof.
  intros Hs Hop Hp. destruct op as [addr data|irq b|irq|vector|]; cbn [run_op op_ok raised] in *.
  - unfold write_mmio. destruct (Z.eqb_spec (Z.of_nat (length data)) 4) as [Hl|]; cbn [negb andb]; [|by apply flow_refl].
    cbv zeta. pose proof (ReadU32_range data Hop ltac:(lia)) as Hv.
    destruct (Z.eqb_spec (u32 (addr - kIoApicBase)) 0) as [->|]; [by apply flow_refl|].
    destruct (Z.eqb_spec (u32 (addr - kIoApicBase)) 16) as [Hoff|]; cbn [andb]; [|by apply flow_refl].
    apply write_reg_flow; [done..|lia].
  - unfold set_irq. change redir_size with 24. rewrite Z.leb_antisym.
    destruct (Z.ltb_spec irq 24); cbn [negb]; [|by destruct b; apply flow_refl].
    destruct b; [|by apply flow_refl]. apply (flow_from (set_line irq true s)); [done..|].
    apply (request_flow irq (set_line irq true s)); [lia|]. cbn. lia.
  - unfold request_irq. destruct (Z.ltb_spec irq 24); [apply request_flow; lia|].
    unfold request_irq_locked. destruct (Z.leb_spec redir_size irq); [by apply flow_refl|unfold redir_size in *; lia].
  - unfold eoi. change redir_size with 24.
    rewrite <- (app_nil_r (flat_map _ _)). eapply flow_trans; [|apply drain_flow].
    apply fold_flow; [|by repeat constructor|done|change (length (seqZ 0 24)) with 24%nat; lia].
    apply NoDup_seqZ.
  - apply drain_flow.
Qed.

(** ** Remote IRR rises with a request only *)

Lemma raise_bits irq e : raise irq e <> [] -> raise irq e = [interrupt_of irq e].
Proof. unfold raise. by destruct (_ || _). Qed.

Lemma interrupt_of_set irq e : 0 <= e < 2 ^ 64 -> interrupt_of irq (Z.lor e kRteRemoteIrr) = interrupt_of irq e.
Proof.
  intros He. assert (Hr : 0 <= Z.lor e kRteRemoteIrr < 2 ^ 64) by (apply lor_range; [lia|lia|by vm_compute]).
  rewrite <- (interrupt_of_clear irq e He), <- (interrupt_of_clear irq _ Hr). f_equal.
  apply Z.bits_inj'. intros i Hi. rewrite !Z.land_spec, Z.lor_spec. destruct (Z.eqb_spec i 14) as [->|].
  - rewrite bnot_spec by lia. unfold kRteRemoteIrr. rewrite Z.shiftl_1_l, Z.pow2_bits_true by lia.
    by rewrite !andb_false_r.
  - unfold kRteRemoteIrr at 1. rewrite Z.shiftl_1_l, Z.pow2_bits_false, orb_false_r by lia. done.
Qed.

Lemma request_irr irq s j :
  ioapic_ok s -> 0 <= irq < 24 -> 0 <= j < 24 -> irr (entry s j) = false ->
  irr (entry (request_irq_locked irq s) j) = true ->
  j = irq /\ interrupt_of irq (entry (request_irq_locked irq s) irq) ∈ raise irq (entry s irq).
Proof.
  intros Hs Hi Hj Hlow Hup. destruct (decide (j = irq)) as [->|Hne].
  2: { destruct (request_other irq s j Hs Hi ltac:(lia) Hne) as [He _]. rewrite He in Hup. congruence. }
  split; [done|]. unfold request_irq_locked, raise in *.
  destruct (redir_size <=? irq); [congruence|]. cbv zeta in *. fold (masked (entry s irq)) in *.
  fold (level_mode (entry s irq)) (irr (entry s irq)) in *.
  destruct (masked (entry s irq)); [congruence|]. cbn [orb]. rewrite Hlow, andb_false_r in *.
  destruct (64 <? _); [congruence|].
  match goal with |- interrupt_of _ (entry (drain_pending_locked ?x) _) ∈ _ => destruct (drain_same x irq) as [-> _] end.
  destruct (level_mode (entry s irq)); [|by apply list_elem_of_here].
  change (interrupt_of irq (entry (set_entry irq (Z.lor (entry s irq) kRteRemoteIrr) s) irq) ∈ [interrupt_of irq (entry s irq)]).
  rewrite entry_set, Z.eqb_refl by (rewrite ?(io_redir s Hs); lia).
  rewrite interrupt_of_set by apply (io_entries s Hs irq Hi). apply list_elem_of_here.
Qed.

Lemma eoi_irq_low vector irq s j :
  ioapic_ok s -> 0 <= irq < 24 -> (length (pending s) <= 64)%nat -> 0 <= j ->
  irr (entry s j) = false -> irr (entry (eoi_irq vector irq s) j) = false.
Proof.
  intros Hs Hi Hp Hj Hlow. destruct (decide (j = irq)) as [->|Hne].
  - unfold eoi_irq. cbv zeta. fold (irr (entry s irq)). by rewrite Hlow, orb_true_r.
  - destruct (eoi_irq_flow vector irq s Hi Hs Hp) as [_ Hoth]. by destruct (Hoth j Hj Hne) as [-> _].
Qed.

Lemma fold_low vector l j : forall s,
  Forall (fun irq => 0 <= irq < 24) l -> ioapic_ok s -> (length l + length (pending s) <= 64)%nat -> 0 <= j ->
  irr (entry s j) = false -> irr (entry (fold_left (fun s irq => eoi_irq vector irq s) l s) j) = false.
Proof.
  induction l as [|irq l IH]; intros s Hl Hs Hp Hj Hlow; [done|].
  inversion Hl as [|? ? Hi Hl']; subst. cbn [fold_left length] in *.
  destruct (eoi_irq_spec vector irq s Hi Hs) as (Hok & Hlen & _).
  apply IH; auto; [lia|]. apply eoi_irq_low; auto; lia.
Qed.

Lemma write_reg_irr v s j :
  ioapic_ok s -> 0 <= v < 2 ^ 32 -> 0 <= j < 24 -> irr (entry s j) = false ->
  let s' := write_reg (selected s) v s in
  irr (entry s' j) = true ->
  let irq := (selected s - 0x10) / 2 in
  j = irq /\ interrupt_of j (entry s' j) ∈
    (if (0 <=? irq) && (irq <? 24) && Z.even (selected s) && masked (entry s irq) && line s irq
     then raise irq (low_entry (entry s irq) v) else []).
Proof.
  intros Hs Hv Hj Hlow s' Hup irq. subst s'. unfold write_reg in *. cbv zeta in *. set (reg := selected s) in *.
  fold irq in Hup |- *. rewrite select_range in *. fold irq in Hup |- *.
  destruct ((0 <=? irq) && (irq <? 24)) eqn:Hr; cbn [andb] in *; [|congruence].
  apply andb_prop in Hr as [Hr1%Z.leb_le Hr2%Z.ltb_lt]. rewrite select_half in *.
  assert (Hset : forall e, irr (entry (set_entry irq e s) j) = if j =? irq then irr e else false).
  { intros e. rewrite entry_set by (rewrite ?(io_redir s Hs); lia). by destruct (j =? irq). }
  destruct (Z.even reg); cbn [negb andb] in *.
  2: { rewrite Hset in Hup. destruct (Z.eqb_spec j irq) as [->|]; [|done].
       destruct (high_entry_ok _ v (io_entries s Hs irq Hj) Hv) as (_ & _ & _ & Hh). congruence. }
  set (e := low_entry (entry s irq) v) in *. set (s1 := set_entry irq e s) in *.
  assert (Hs1 : ioapic_ok s1)
    by (apply set_entry_ok; [done|lia|]; apply low_entry_ok; [by apply io_entries|done]).
  assert (Hent : entry s1 irq = e)
    by (unfold s1; by rewrite entry_set, Z.eqb_refl by (rewrite ?(io_redir s Hs); lia)).
  assert (Hlow1 : irr (entry s1 j) = false).
  { unfold s1. rewrite Hset. destruct (Z.eqb_spec j irq) as [->|]; [|done]. unfold e.
    rewrite irr_bit, low_entry_bit by lia. rewrite irr_bit in Hlow. cbn [Z.eqb Pos.eqb]. by rewrite Hlow, andb_false_r. }
  fold (masked (entry s irq)) (masked (entry s1 irq)) in *. rewrite Hent in *. change (line s1 irq) with (line s irq) in *.
  destruct (masked (entry s irq)); cbn [andb] in *; [|congruence].
  destruct (line s irq); rewrite ?andb_true_r, ?andb_false_r in *; [|congruence].
  destruct (masked e) eqn:Hm; cbn [negb] in *; [congruence|].
  destruct (request_irr irq s1 j Hs1 ltac:(lia) Hj Hlow1 Hup) as [-> Hin]. by rewrite Hent in Hin.
Qed.

Lemma run_op_irr s op irq :
  ioapic_ok s -> op_ok op -> (length (pending s) <= 40)%nat -> 0 <= irq < 24 ->
  irr (entry s irq) = false -> irr (entry (run_op op s) irq) = true ->
  interrupt_of irq (entry (run_op op s) irq) ∈ raised s op.
Proof.
  intros Hs Hop Hp Hj Hlow. destruct op as [addr data|i b|i|vector|]; cbn [run_op op_ok raised] in *.
  - unfold write_mmio. destruct (Z.eqb_spec (Z.of_nat (length data)) 4) as [Hl|]; cbn [negb andb]; [|congruence].
    cbv zeta. pose proof (ReadU32_range data Hop ltac:(lia)) as Hv.
    destruct (u32 (addr - kIoApicBase) =? 0); [unfold entry in *; cbn [redir upd_field] in *; congruence|].
    destruct (_ =? 16); cbn [andb]; [|congruence]. intros Hup. by apply write_reg_irr.
  - unfold set_irq. change redir_size with 24. rewrite Z.leb_antisym.
    destruct (Z.ltb_spec i 24); cbn [negb]; [|congruence]. destruct b; [|unfold entry in *; cbn [redir upd_field set_line] in *; congruence].
    intros Hup. assert (Hs1 : ioapic_ok (set_line i true s)).
    { destruct Hs. constructor; try done. unfold set_line. cbn [line_level upd_field]. by rewrite length_insert. }
    by destruct (request_irr i _ irq Hs1 ltac:(lia) Hj Hlow Hup) as [-> Hin].
  - intros Hup. unfold request_irq in *. destruct (Z.ltb_spec i 24).
    + by destruct (request_irr i s irq Hs ltac:(lia) Hj Hlow Hup) as [-> Hin].
    + unfold request_irq_locked in Hup. destruct (Z.leb_spec redir_size i); [congruence|unfold redir_size in *; lia].
  - unfold eoi. change redir_size with 24. intros Hup.
    destruct (drain_same (fold_left (fun s irq => eoi_irq vector irq s) (seqZ 0 24) s) irq) as [He _].
    rewrite He, fold_low in Hup; [done|by repeat constructor|done| |lia|done].
    change (length (seqZ 0 24)) with 24%nat. lia.
  - unfold drain_pending. rewrite (proj1 (drain_same s irq)). congruence.
Qed.

(** C30.  Every operation keeps the controller well-formed: Remote IRR only on level
    entries, and at most 65 undelivered interrupts.  And while the hypervisor has not
    refused more than 40: the operation puts exactly the interrupts it raises at the
    back of the queue - destination, vector, trigger and mode read from the redirection
    entry - and what leaves the queue at the front has been accepted by the hypervisor,
    in order and once; Remote IRR goes up at an input only with an interrupt raised
    there; and a level interrupt whose line is high and unmasked has its Remote IRR set,
    through end-of-interrupts (which raise it again), masking and delivery, unless the
    operation is the guest turning an unmasked edge entry into a level one. *)
Theorem ioapic_level_in_flight s op :
  ioapic_ok s -> op_ok op ->
  ioapic_ok (run_op op s) /\
  ((length (pending s) <= 40)%nat ->
   (exists sent, pending s ++ raised s op = sent ++ pending (run_op op s) /\
      offered sent (api s) (api (run_op op s))) /\
   (forall irq, 0 <= irq < 24 -> irr (entry s irq) = false -> irr (entry (run_op op s) irq) = true ->
      interrupt_of irq (entry (run_op op s) irq) ∈ raised s op) /\
   (~ retriggers s op -> all_in_flight s -> all_in_flight (run_op op s))).
Proof.
  intros Hs Hop. destruct (run_op_spec s op Hs Hop) as [Hok Hf]. split; [done|]. intros Hp.
  split; [by apply run_op_flow|]. split; [|by auto]. intros irq Hi. by apply run_op_irr.
Qed.
End Facts.

(** ** A hypervisor that takes one interrupt and refuses the rest *)
Module Demo.
#[local] Instance one_slot : WhpApi (option interrupt_control) := {|
  request_interrupt c w := match w with None => (true, Some c) | Some _ => (false, w) end;
  get_vp_registers vp ns w := (None, w);
  set_vp_registers vp nvs w := (false, w) |}.

(** Line 4 unmasked, level-triggered, vector 0x34, then raised: delivered, awaiting its
    end with the line still high. *)
Definition s0 : IoApic (option interrupt_control) := write_reg 0x18 0x8034 (IoApic_new None).
Definition s : IoApic (option interrupt_control) := run_op (OpSetIrq 4 true) s0.

(** The end-of-interrupt raises it once more; the hypervisor has no room, so it waits. *)
Lemma ioapic_level_in_flight_witness :
  let s1 := run_op (OpEoi 0x34) s in
  irr (entry s1 4) = true /\
  exists sent, [mkControl 0 0x34 true false 0] = sent ++ pending s1 /\ offered sent (api s) (api s1).
Proof.
  intros s1. destruct (IoApic_new_ok (None : option interrupt_control)) as [H0 Hf0].
  destruct (write_reg_spec 0x18 0x8034 (IoApic_new None) H0) as [Hs0 Hf]; [split; [discriminate|reflexivity]|].
  assert (Hfs0 : all_in_flight s0).
  { apply Hf; [vm_compute; lia| |exact Hf0]. cbv zeta. intros (_ & H1 & _). vm_compute in H1. discriminate. }
  destruct (run_op_spec s0 (OpSetIrq 4 true) Hs0) as [Hs Hfs]; [discriminate|].
  assert (Hp : (length (pending s) <= 40)%nat) by (vm_compute; lia).
  assert (Hp0 : (length (pending s0) <= 40)%nat) by (vm_compute; lia).
  destruct (ioapic_level_in_flight s (OpEoi 0x34) Hs I) as [_ H]. destruct (H Hp) as (Hq & _ & Hfl). split.
  - apply (Hfl (fun x => x) (Hfs Hp0 (fun x => x) Hfs0) 4); [split; [discriminate|reflexivity]|reflexivity..].
  - exact Hq.
Defined.
End Demo.
