(* ===== verification/ConsoleWriter.v ===== *)
(** * native/whp/console_writer.h: the writer thread between the guest and stdout

    The scanners that decide where the output may be cut, the translation of redraw
    frames, and the producer and writer threads as a step relation over the queue they
    share.  The theorems: where a cut falls, that the translation ends and leaves text
    without escapes alone, and what the two threads keep of the order of the bytes. *)

From S2P Require Import Prelude Words Bytes.

Definition kFlushThreshold : Z := 16 * 1024.
Definition kMaxPendingBytes : Z := 256 * 1024.

(** Characters *)
Definition ESC : Z := 0x1B.
Definition BEL : Z := 7.
Definition LF : Z := 10.
Definition CR : Z := 13.

Definition size (bs : list Z) : Z := Z.of_nat (length bs).
Definition at_ (bs : list Z) (i : Z) : Z := nth (Z.to_nat i) bs 0.
(** [std::string(data + i, n)] *)
Definition substr (bs : list Z) (i n : Z) : list Z := take (Z.to_nat n) (drop (Z.to_nat i) bs).

Definition is_csi_final (byte : Z) : bool := (0x40 <=? byte) && (byte <=? 0x7E).

(** ** terminal_safe_prefix *)

Inductive ParseState := Normal | Esc | Csi | Osc.

Record Scan := mkScan { state : ParseState; osc_esc : bool; safe : Z; pos : Z }.

Definition scan_byte (s : Scan) (byte : Z) : Scan :=
  let next := pos s + 1 in
  match state s with
  | Normal =>
      if byte =? ESC then mkScan Esc (osc_esc s) (safe s) next
      else if (byte =? LF) || (byte =? BEL) then mkScan Normal (osc_esc s) next next
      else mkScan Normal (osc_esc s) (safe s) next
  | Esc =>
      if byte =? 91 then mkScan Csi (osc_esc s) (safe s) next
      else if byte =? 93 then mkScan Osc false (safe s) next
      else mkScan Normal (osc_esc s) next next
  | Csi =>
      if is_csi_final byte then mkScan Normal (osc_esc s) next next
      else mkScan Csi (osc_esc s) (safe s) next
  | Osc =>
      if byte =? BEL then mkScan Normal false next next
      else if osc_esc s && (byte =? 92) then mkScan Normal false next next
      else mkScan Osc (byte =? ESC) (safe s) next
  end.

Definition scan (bs : list Z) : Scan := fold_left scan_byte bs (mkScan Normal false 0 0).
Definition terminal_safe_prefix (bs : list Z) : Z := safe (scan bs).

(** ** has_open_dec_redraw_frame *)

(** [while (restore + 1 < size) { if (ESC 8) break; restore++; }] *)
Fixpoint find_restore (fuel : nat) (bs : list Z) (restore : Z) : Z :=
  match fuel with
  | O => restore
  | S fuel =>
      if restore + 1 <? size bs then
        if (at_ bs restore =? ESC) && (at_ bs (restore + 1) =? 56) then restore
        else find_restore fuel bs (restore + 1)
      else restore
  end.

(** [while (p < size && !is_csi_final(bytes[p])) p++;] *)
Fixpoint find_final (fuel : nat) (bs : list Z) (p : Z) : Z :=
  match fuel with
  | O => p
  | S fuel =>
      if (p <? size bs) && negb (is_csi_final (at_ bs p)) then find_final fuel bs (p + 1) else p
  end.

(** The loops above move forward, at most to the end. *)
Definition restore_from (bs : list Z) (i : Z) : Z := find_restore (S (length bs)) bs i.
Definition final_from (bs : list Z) (p : Z) : Z := find_final (S (length bs)) bs p.

Definition clear_params (params : list Z) : bool :=
  match params with [] => true | [p] => p =? 48 | _ => false end.

Fixpoint open_frame_loop (fuel : nat) (bs : list Z) (i : Z) : option bool :=
  match fuel with
  | O => None
  | S fuel =>
      if negb (i + 1 <? size bs) then Some false
      else if negb (at_ bs i =? ESC) then open_frame_loop fuel bs (i + 1)
      else if negb (at_ bs (i + 1) =? 55) then open_frame_loop fuel bs (i + 1)
      else
        let restore := restore_from bs (i + 2) in
        if size bs <=? restore + 1 then Some true
        else
          let after_restore := restore + 2 in
          if size bs <=? after_restore then Some true
          else if negb (at_ bs after_restore =? ESC) then open_frame_loop fuel bs (restore + 1 + 1)
          else if size bs <=? after_restore + 1 then Some true
          else if negb (at_ bs (after_restore + 1) =? 91) then open_frame_loop fuel bs (restore + 1 + 1)
          else
            let csi_end := final_from bs (after_restore + 2) in
            if size bs <=? csi_end then Some true
            else
              let params := substr bs (after_restore + 2) (csi_end - after_restore - 2) in
              if (at_ bs csi_end =? 75) && clear_params params then Some false
              else open_frame_loop fuel bs (restore + 1 + 1)
  end.

Definition has_open_dec_redraw_frame (bs : list Z) : bool :=
  default false (open_frame_loop (S (length bs)) bs 0).

(** ** The translation of redraw frames *)

Definition has_control_byte (bs : list Z) (start stop : Z) : bool :=
  existsb (fun byte => (byte <? 0x20) || (byte =? 0x7F)) (substr bs start (stop - start)).

Fixpoint trim_right_spaces (fuel : nat) (bs : list Z) (start stop : Z) : Z :=
  match fuel with
  | O => stop
  | S fuel =>
      if (start <? stop) && ((at_ bs (stop - 1) =? 32) || (at_ bs (stop - 1) =? 9))
      then trim_right_spaces fuel bs start (stop - 1) else stop
  end.

Fixpoint skip_spaces (fuel : nat) (bs : list Z) (start stop : Z) : Z :=
  match fuel with
  | O => start
  | S fuel => if (start <? stop) && (at_ bs start =? 32) then skip_spaces fuel bs (start + 1) stop else start
  end.

(** At most three digits: the position after them and their number. *)
Fixpoint skip_digits (n : nat) (bs : list Z) (start stop digits : Z) : Z * Z :=
  match n with
  | O => (start, digits)
  | S n =>
      if (start <? stop) && (48 <=? at_ bs start) && (at_ bs start <=? 57)
      then skip_digits n bs (start + 1) stop (digits + 1) else (start, digits)
  end.

Definition looks_like_progress_payload (bs : list Z) (start stop : Z) : bool :=
  let start := skip_spaces (length bs) bs start stop in
  let '(start, digits) := skip_digits 3 bs start stop 0 in
  (0 <? digits) && (start <? stop) && (at_ bs start =? 37).

(** The end of the sequence, its parameters and its final byte. *)
Definition parse_csi_final (bs : list Z) (start : Z) : option (Z * list Z * Z) :=
  if (size bs <? start + 2) || negb (at_ bs start =? ESC) || negb (at_ bs (start + 1) =? 91) then None
  else
    let p := final_from bs (start + 2) in
    if size bs <=? p then None
    else Some (p + 1, substr bs (start + 2) (p - start - 2), at_ bs p).

Record Flags := mkFlags {
  dec_restore_pending_clear : bool; swallow_dec_clear : bool; swallow_dec_clear_cr : bool }.
#[export] Instance eta_Flags : Eta Flags := fun f =>
  mkFlags (dec_restore_pending_clear f) (swallow_dec_clear f) (swallow_dec_clear_cr f).

Definition frame_start : list Z := [27; 91; 63; 50; 53; 108; 13; 27; 91; 50; 75].   (* ESC [?25l CR ESC [2K *)
Definition frame_end : list Z := [13; 27; 91; 63; 50; 53; 104].                     (* CR ESC [?25h *)

(** A frame ESC 7 ... ESC 8 at [i] that is redrawn in place: the text for it, where the
    scan goes on, and the flags. *)
Definition redraw_frame (bs : list Z) (i : Z) (f : Flags) : option (list Z * Z * Flags) :=
  let restore := restore_from bs (i + 2) in
  if restore + 1 <? size bs then
    let csi := parse_csi_final bs (restore + 2) in
    let clear_end :=
      match csi with
      | Some (e, params, final) => if (final =? 75) && clear_params params then Some e else None
      | None => None
      end in
    let simple_payload := negb (has_control_byte bs (i + 2) restore) in
    let progress_payload := looks_like_progress_payload bs (i + 2) restore in
    if (bool_decide (is_Some clear_end) || progress_payload) && simple_payload then
      let payload_end := trim_right_spaces (length bs) bs (i + 2) restore in
      let text := frame_start ++ substr bs (i + 2) (payload_end - (i + 2)) ++ frame_end in
      match clear_end with
      | Some e =>
          let next := if (e <? size bs) && (at_ bs e =? CR) then e + 1 else e in
          Some (text, next, f <| dec_restore_pending_clear := false |>)
      | None =>
          let f := f <| swallow_dec_clear := true |> in
          let f := f <| swallow_dec_clear_cr := false |> in
          Some (text, restore + 2, f <| dec_restore_pending_clear := false |>)
      end
    else None
  else None.

(** One round of the [for]: the text appended, the next index, the flags. *)
Definition normalize_step (bs : list Z) (i : Z) (f : Flags) : list Z * Z * Flags :=
  let skip := swallow_dec_clear_cr f && (at_ bs i =? CR) in
  let f := f <| swallow_dec_clear_cr := false |> in
  if skip then ([], i + 1, f)
  else if (at_ bs i =? ESC) && (i + 1 <? size bs) then
    match (if at_ bs (i + 1) =? 55 then redraw_frame bs i f else None) with
    | Some r => r
    | None =>
        if at_ bs (i + 1) =? 56 then
          ([at_ bs i; at_ bs (i + 1)], i + 2, f <| dec_restore_pending_clear := true |>)
        else if at_ bs (i + 1) =? 91 then
          match parse_csi_final bs i with
          | Some (e, params, final) =>
              let clear := (final =? 75) && clear_params params in
              if swallow_dec_clear f && clear then
                let f := f <| swallow_dec_clear := false |> in
                ([], e, f <| swallow_dec_clear_cr := true |>)
              else
                let f := f <| swallow_dec_clear := false |> in
                let seq := substr bs i (e - i) in
                if dec_restore_pending_clear f && clear
                then (seq ++ [CR], e, f <| dec_restore_pending_clear := false |>)
                else if negb (final =? 75)
                then (seq, e, f <| dec_restore_pending_clear := false |>)
                else (seq, e, f)
          | None => ([at_ bs i], i + 1, f)
          end
        else ([at_ bs i], i + 1, f)
    end
  else if negb (at_ bs i =? 32) && negb (at_ bs i =? 9) then
    let f := f <| dec_restore_pending_clear := false |> in
    ([at_ bs i], i + 1, f <| swallow_dec_clear := false |>)
  else ([at_ bs i], i + 1, f).

Fixpoint normalize_loop (fuel : nat) (bs : list Z) (i : Z) (f : Flags) (out : list Z) : outcome (list Z * Flags) :=
  if negb (i <? size bs) then Ok (out, f)
  else
    match fuel with
    | O => OutOfFuel
    | S fuel =>
        let '(text, next, f) := normalize_step bs i f in
        normalize_loop fuel bs next f (out ++ text)
    end.

Definition normalize_host_terminal_bytes (bs : list Z) (f : Flags) : outcome (list Z * Flags) :=
  normalize_loop (length bs) bs 0 f [].

(** ** cursor_position_report *)

(** ["%d"] for a positive number. *)
Fixpoint decimal_digits (fuel : nat) (n : Z) (acc : list Z) : list Z :=
  match fuel with
  | O => acc
  | S fuel =>
      let acc := 48 + n mod 10 :: acc in
      if n <? 10 then acc else decimal_digits fuel (n / 10) acc
  end.
Definition decimal (n : Z) : list Z := decimal_digits 12 n [].

(** The answer to a cursor query, from the position in the window ([None] when the
    console does not tell), rows and columns counted from one. *)
Definition cursor_report (cursor : option (Z * Z)) : list Z :=
  match cursor with
  | Some (row, col) =>
      let row := if row <? 1 then 1 else row in
      let col := if col <? 1 then 1 else col in
      [ESC; 91] ++ decimal row ++ [59] ++ decimal col ++ [82]
  | None => [ESC; 91; 49; 59; 49; 82]
  end.

(** ** The queue and its two threads

    [mu_] protects the queue, [file_mu_] a write to the file.  A thread that takes bytes
    from the queue releases [mu_] before it writes them, so each side has at most one
    chunk in its hands; a wait on the condition variable is a step that is not enabled. *)

Inductive producer_state :=
  | Idle
  | FlushTaken (bytes : list Z) (then_append : list Z)   (** after the swap in flush_locked *)
  | FlushDone (then_append : list Z).                    (** before it re-locks *)

(** What the host answers inside [write_file]: GetStdHandle has no handle, WriteFile
    fails, or it succeeds with so many bytes, zero included. *)
Inductive answer := NoHandle | Refused | Wrote (n : Z).

Record Writer := mkWriter {
  stopping : bool; pending : list Z; flags : Flags;
  producer : producer_state; taken : option (list Z);
  file : list Z;          (** what reached stdout *)
  accepted : list Z;      (** the bytes of every completed [write], in order *)
  calls : list answer }.  (** what the host answered so far *)
#[export] Instance eta_Writer : Eta Writer := fun s =>
  mkWriter (stopping s) (pending s) (flags s) (producer s) (taken s) (file s) (accepted s) (calls s).

Definition ConsoleWriter_new : Writer :=
  mkWriter false [] (mkFlags false false false) Idle None [] [] [].

(** The [WriteFile] loop on the bytes that remain, with the answers of its calls, each for
    at most 64 KiB: a failure ends it, zero bytes are tried again.  [None] while the answers
    do not end the loop. *)
Fixpoint write_loop (answers : list answer) (rest : list Z) : option (list Z) :=
  match rest, answers with
  | [], [] => Some []
  | [], _ => None
  | _, [] => None
  | _, Refused :: answers => if bool_decide (answers = []) then Some [] else None
  | _, Wrote n :: answers =>
      if (0 <=? n) && (n <=? Z.min (size rest) 65536) then
        if n =? 0 then write_loop answers rest
        else (fun out => take (Z.to_nat n) rest ++ out) <$> write_loop answers (drop (Z.to_nat n) rest)
      else None
  | _, NoHandle :: _ => None
  end.

#[export] Instance answer_eq_dec : EqDecision answer.
Proof. solve_decision. Defined.

(** [write_file]: under [file_mu_]. *)
Definition write_file (bytes : list Z) (answers : list answer) (s : Writer) : option Writer :=
  if bool_decide (answers = [NoHandle]) then Some (s <| calls := calls s ++ answers |>)
  else
    match normalize_host_terminal_bytes bytes (flags s) with
    | Ok (text, f) =>
        match write_loop answers text with
        | Some out => Some (((s <| flags := f |>) <| file := file s ++ out |>) <| calls := calls s ++ answers |>)
        | None => None
        end
    | _ => None
    end.

(** What the writer thread takes, when it stops waiting: everything, or up to the last
    safe cut. *)
Definition take_size (s : Writer) : Z :=
  let cut := terminal_safe_prefix (pending s) in
  if (cut =? 0) || has_open_dec_redraw_frame (pending s) || (kFlushThreshold <=? size (pending s)) || stopping s
  then size (pending s) else cut.

Definition append (bytes : list Z) (s : Writer) : Writer :=
  (s <| pending := pending s ++ bytes |>) <| accepted := accepted s ++ bytes |>.

Inductive cw_step : Writer -> Writer -> Prop :=
  (** write() of bytes that fit *)
  | step_write s bytes :
      producer s = Idle -> stopping s = false -> bytes <> [] ->
      size (pending s) < kMaxPendingBytes -> size (pending s) + size bytes <= kMaxPendingBytes ->
      cw_step s (append bytes s)
  (** write() of bytes that do not: flush_locked first *)
  | step_write_flush s bytes :
      producer s = Idle -> stopping s = false -> bytes <> [] ->
      size (pending s) < kMaxPendingBytes -> kMaxPendingBytes < size (pending s) + size bytes ->
      cw_step s ((s <| producer := FlushTaken (pending s) bytes |>) <| pending := [] |>)
  (** flush_pending(), by cursor_position_report() *)
  | step_flush s :
      producer s = Idle ->
      cw_step s ((s <| producer := FlushTaken (pending s) [] |>) <| pending := [] |>)
  | step_flush_write s bytes more answers s' :
      producer s = FlushTaken bytes more -> write_file bytes answers s = Some s' ->
      cw_step s (s' <| producer := FlushDone more |>)
  | step_flush_end s more :
      producer s = FlushDone more ->
      cw_step s ((if stopping s then s else append more s) <| producer := Idle |>)
  (** the writer thread *)
  | step_take s :
      taken s = None -> pending s <> [] ->
      cw_step s ((s <| taken := Some (take (Z.to_nat (take_size s)) (pending s)) |>)
                   <| pending := drop (Z.to_nat (take_size s)) (pending s) |>)
  | step_taken_write s bytes answers s' :
      taken s = Some bytes -> write_file bytes answers s = Some s' ->
      cw_step s (s' <| taken := None |>)
  | step_stop s : cw_step s (s <| stopping := true |>).

(** ** Where the output is cut *)

Lemma scan_app bs b : scan (bs ++ [b]) = scan_byte (scan bs) b.
Proof. unfold scan. by rewrite fold_left_app. Qed.

Lemma scan_byte_pos s b : pos (scan_byte s b) = pos s + 1.
Proof.
  unfold scan_byte.
  destruct (state s); repeat (match goal with |- context [if ?b then _ else _] => destruct b end); done.
Qed.

Lemma scan_pos bs : pos (scan bs) = size bs.
Proof.
  induction bs as [|b bs IH] using rev_ind; [done|].
  rewrite scan_app, scan_byte_pos, IH. unfold size. rewrite length_app. cbn. lia.
Qed.

(** A byte either leaves the cut where it was or ends outside any sequence. *)
Lemma scan_byte_safe s b :
  safe (scan_byte s b) = safe s \/
  safe (scan_byte s b) = pos s + 1 /\ state (scan_byte s b) = Normal.
Proof.
  unfold scan_byte.
  destruct (state s); repeat (match goal with |- context [if ?b then _ else _] => destruct b end);
    cbn; auto.
Qed.

(** The cut [terminal_safe_prefix] chooses lies within the queue and never inside
    an escape sequence: a terminal that reads exactly the bytes before it is outside any
    CSI or OSC sequence, and reading on it is in the state it would have been in. *)
Theorem terminal_cut_safe bs :
  let n := terminal_safe_prefix bs in
  0 <= n <= size bs /\
  state (scan (take (Z.to_nat n) bs)) = Normal /\
  fold_left scan_byte (drop (Z.to_nat n) bs) (scan (take (Z.to_nat n) bs)) = scan bs.
Proof.
  intros n. assert (Hn : 0 <= n <= size bs /\ state (scan (take (Z.to_nat n) bs)) = Normal).
  { unfold n, terminal_safe_prefix. clear n. induction bs as [|b bs [IHr IHn]] using rev_ind; [done|].
    assert (Hsz : size (bs ++ [b]) = size bs + 1) by (unfold size; rewrite length_app; cbn; lia).
    rewrite Hsz, scan_app. destruct (scan_byte_safe (scan bs) b) as [->|[-> Hst]].
    - split; [lia|]. rewrite take_app_le; [done|]. unfold size in IHr. lia.
    - rewrite scan_pos. split; [lia|]. rewrite take_ge; [by rewrite scan_app|].
      rewrite length_app. unfold size. cbn. lia. }
  destruct Hn as [Hr Hst]. split; [done|]. split; [done|].
  unfold scan. by rewrite <- fold_left_app, take_drop.
Qed.

(** ** The translation *)

Lemma find_restore_ge fuel bs r : r <= find_restore fuel bs r.
Proof.
  revert r. induction fuel as [|fuel IH]; intros r; cbn; [lia|].
  destruct (_ <? _); [|lia]. destruct (_ && _); [lia|]. specialize (IH (r + 1)). lia.
Qed.

Lemma find_final_ge fuel bs p : p <= find_final fuel bs p.
Proof.
  revert p. induction fuel as [|fuel IH]; intros p; cbn; [lia|].
  destruct (_ && _); [|lia]. specialize (IH (p + 1)). lia.
Qed.

Lemma parse_csi_end bs i e params final : parse_csi_final bs i = Some (e, params, final) -> i + 3 <= e.
Proof.
  unfold parse_csi_final. destruct (_ || _); [done|]. destruct (_ <=? _); [done|].
  intros [= <- _ _]. pose proof (find_final_ge (S (length bs)) bs (i + 2)). unfold final_from. lia.
Qed.

Lemma redraw_frame_next bs i f text next f' :
  redraw_frame bs i f = Some (text, next, f') -> i < next.
Proof.
  unfold redraw_frame. pose proof (find_restore_ge (S (length bs)) bs (i + 2)) as Hr.
  fold (restore_from bs (i + 2)) in Hr. set (r := restore_from bs (i + 2)) in *. clearbody r.
  destruct (_ <? _); [|done]. destruct (parse_csi_final bs (r + 2)) as [[[e params] final]|] eqn:Hp; cbv zeta.
  - apply parse_csi_end in Hp. destruct (_ && clear_params params); destruct (_ && _); try done;
      [destruct (_ && _)|]; intros [= <- <- <-]; lia.
  - destruct (_ && _); [|done]. intros [= <- <- <-]. lia.
Qed.

(** Every round goes forward. *)
Lemma normalize_step_next bs i f : i < (normalize_step bs i f).1.2.
Proof.
  unfold normalize_step. destruct (swallow_dec_clear_cr f && _); [cbn; lia|]. cbv zeta.
  destruct (_ && (_ <? _)).
  - destruct (if at_ bs (i + 1) =? 55 then _ else None) as [[[text next] f']|] eqn:Hf.
    + destruct (_ =? 55); [|done]. apply redraw_frame_next in Hf. done.
    + destruct (_ =? 56); [cbn; lia|]. destruct (_ =? 91); [|cbn; lia].
      destruct (parse_csi_final bs i) as [[[e params] final]|] eqn:Hp; [|cbn; lia].
      apply parse_csi_end in Hp. destruct (_ && _); [cbn; lia|].
      destruct (_ && _); [cbn; lia|]. destruct (negb _); cbn; lia.
  - destruct (_ && _); cbn; lia.
Qed.

Lemma normalize_loop_ends fuel bs : forall i f out,
  size bs - i <= Z.of_nat fuel -> exists text f', normalize_loop fuel bs i f out = Ok (text, f').
Proof.
  induction fuel as [|fuel IH]; intros i f out Hi; cbn [normalize_loop];
    destruct (Z.ltb_spec i (size bs)); cbn [negb]; try (by eexists _, _); [lia|].
  pose proof (normalize_step_next bs i f) as Hn. destruct (normalize_step bs i f) as [[text next] f'].
  apply IH. cbn in Hn. lia.
Qed.

Definition plain (bs : list Z) : Prop := Forall (fun b => b <> ESC) bs.

Lemma plain_step bs i f :
  plain bs -> 0 <= i < size bs -> swallow_dec_clear_cr f = false ->
  exists f', normalize_step bs i f = ([at_ bs i], i + 1, f') /\ swallow_dec_clear_cr f' = false.
Proof.
  intros Hp Hi Hf. unfold normalize_step. rewrite Hf. cbn [andb]. cbv zeta.
  assert (Hne : at_ bs i <> ESC).
  { unfold plain in Hp. rewrite List.Forall_forall in Hp. apply Hp, nth_In. unfold size in Hi. lia. }
  destruct (Z.eqb_spec (at_ bs i) ESC); [done|]. cbn [andb].
  destruct (_ && _); eexists; split; try reflexivity; done.
Qed.

Lemma substr_snoc bs i : 0 <= i < size bs ->
  take (Z.to_nat (i + 1)) bs = take (Z.to_nat i) bs ++ [at_ bs i].
Proof.
  intros Hi. unfold size in Hi. replace (Z.to_nat (i + 1)) with (S (Z.to_nat i)) by lia.
  apply take_S_r. unfold at_. destruct (lookup_lt_is_Some_2 bs (Z.to_nat i)) as [b Hb]; [lia|].
  by rewrite (nth_lookup_Some _ _ _ _ Hb).
Qed.

Lemma normalize_plain fuel bs : plain bs -> forall i f,
  0 <= i <= size bs -> size bs - i <= Z.of_nat fuel -> swallow_dec_clear_cr f = false ->
  exists f', normalize_loop fuel bs i f (take (Z.to_nat i) bs) = Ok (bs, f').
Proof.
  intros Hp. induction fuel as [|fuel IH]; intros i f Hi Hfuel Hf; cbn [normalize_loop].
  - destruct (Z.ltb_spec i (size bs)); cbn [negb]; [lia|]. exists f. rewrite take_ge; [done|]. unfold size in *. lia.
  - destruct (Z.ltb_spec i (size bs)); cbn [negb].
    + destruct (plain_step bs i f Hp ltac:(lia) Hf) as (f' & -> & Hf'). rewrite <- substr_snoc by lia.
      apply IH; [lia|lia|done].
    + exists f. rewrite take_ge; [done|]. unfold size in *. lia.
Qed.

Lemma normalize_plain_flag fuel bs : plain bs -> forall i f acc f' text,
  0 <= i -> swallow_dec_clear_cr f = false ->
  normalize_loop fuel bs i f acc = Ok (text, f') -> swallow_dec_clear_cr f' = false.
Proof.
  intros Hp. induction fuel as [|fuel IH]; intros i f acc f' text Hi Hf; cbn [normalize_loop];
    destruct (Z.ltb_spec i (size bs)); cbn [negb]; try done; try (by intros [= _ <-]).
  destruct (plain_step bs i f Hp ltac:(lia) Hf) as (f1 & -> & Hf1). apply IH; [lia|done].
Qed.

(** The translation of any output ends, whatever unfinished frame the state
    remembers; output without escape sequences passes byte for byte unless the carriage
    return of a swallowed clear is due; and a complete redraw frame of BusyBox apk
    becomes one in-place line redraw with its padding trimmed. *)
Theorem normalize_terminal_spec bs f :
  (exists text f', normalize_host_terminal_bytes bs f = Ok (text, f')) /\
  (plain bs -> swallow_dec_clear_cr f = false ->
     exists f', normalize_host_terminal_bytes bs f = Ok (bs, f')) /\
  let frame := [27; 55; 52; 50; 37; 32; 32; 27; 56; 27; 91; 48; 75; 13] in   (* ESC 7 42%.. ESC 8 CSI 0K CR *)
  swallow_dec_clear_cr f = false ->
  normalize_host_terminal_bytes frame f =
    Ok (frame_start ++ [52; 50; 37] ++ frame_end, f <| dec_restore_pending_clear := false |>).
Proof.
  split; [|split].
  - apply normalize_loop_ends. unfold size. lia.
  - intros Hp Hf. apply (normalize_plain (length bs) bs Hp 0 f); unfold size; lia || done.
  - intros frame Hf. destruct f as [d s c]. cbn in Hf. subst c. destruct d, s; vm_compute; reflexivity.
Qed.

Lemma normalize_terminal_spec_witness :
  exists f', normalize_host_terminal_bytes [72; 105; 10] (mkFlags true true false) = Ok ([72; 105; 10], f').
Proof.
  destruct (normalize_terminal_spec [72; 105; 10] (mkFlags true true false)) as (_ & H & _).
  apply H; [|reflexivity]. repeat apply List.Forall_cons; discriminate || apply List.Forall_nil.
Defined.

(** ** The two threads *)

Definition flushing (s : Writer) : list Z :=
  match producer s with FlushTaken bytes _ => bytes | _ => [] end.
Definition writing (s : Writer) : list Z := default [] (taken s).

(** Only one of the threads has a chunk in its hands. *)
Definition calm (s : Writer) : Prop := flushing s = [] \/ writing s = [].

Definition calm_step (s s' : Writer) : Prop := cw_step s s' /\ calm s'.

(** The chunks [chunks] were given to [write_file] in this order, and the host answered
    [calls]: every chunk is translated in turn, and its whole text is in the file, unless the
    host failed during the chunk; then what is there is the front of its text. *)
Inductive printed : list (list Z) -> Flags -> list Z -> list answer -> Prop :=
  | printed_nil : printed [] (mkFlags false false false) [] []
  | printed_whole chunks f out calls bytes answers text f' :
      printed chunks f out calls -> normalize_host_terminal_bytes bytes f = Ok (text, f') ->
      printed (chunks ++ [bytes]) f' (out ++ text) (calls ++ answers)
  | printed_cut chunks f out calls bytes answers text f' front :
      printed chunks f out calls -> normalize_host_terminal_bytes bytes f = Ok (text, f') ->
      Refused ∈ answers -> front `prefix_of` text ->
      printed (chunks ++ [bytes]) f' (out ++ front) (calls ++ answers)
  | printed_none chunks f out calls bytes answers :
      printed chunks f out calls -> NoHandle ∈ answers ->
      printed (chunks ++ [bytes]) f out (calls ++ answers).

Lemma write_loop_out answers : forall rest out, write_loop answers rest = Some out ->
  out = rest \/ Refused ∈ answers /\ out `prefix_of` rest.
Proof.
  induction answers as [|a answers IH]; intros [|b rest] out; cbn [write_loop]; try done; [intros [= <-]; by left|].
  destruct a as [| |n]; [done|..].
  - case_bool_decide; [|done]. intros [= <-]. right. split; [left|]. apply prefix_nil.
  - destruct (_ && _) eqn:Hn; [|done]. destruct (n =? 0).
    { intros Hw. destruct (IH _ _ Hw) as [->|[? ?]]; [by left|right]. split; [by right|done]. }
    destruct (write_loop answers _) as [out1|] eqn:E; [|done]. intros [= <-].
    destruct (IH _ _ E) as [->|[Hr Hp]]; [left; by rewrite take_drop|right]. split; [by right|].
    rewrite <- (take_drop (Z.to_nat n) (b :: rest)) at 2. by apply prefix_app.
Qed.

Lemma write_file_spec bytes answers s s' : write_file bytes answers s = Some s' ->
  pending s' = pending s /\ accepted s' = accepted s /\ producer s' = producer s /\ taken s' = taken s /\
  forall chunks, printed chunks (flags s) (file s) (calls s) ->
    printed (chunks ++ [bytes]) (flags s') (file s') (calls s').
Proof.
  unfold write_file. case_bool_decide as Ha.
  { intros [= <-]. split_and!; try done. intros chunks Hp. apply printed_none; [done|]. subst. left. }
  destruct (normalize_host_terminal_bytes bytes (flags s)) as [[text f]|e|] eqn:En; try done.
  destruct (write_loop answers text) as [out|] eqn:Ew; [|done]. intros [= <-]. split_and!; try done.
  intros chunks Hp. destruct (write_loop_out _ _ _ Ew) as [->|[Hr Hf]]; [by eapply printed_whole|by eapply printed_cut].
Qed.

(** The bytes that are not in the file yet. *)
Definition in_hand (s : Writer) : list Z := writing s ++ flushing s ++ pending s.

Definition conserved (s : Writer) : Prop :=
  exists chunks, printed chunks (flags s) (file s) (calls s) /\ concat chunks ++ in_hand s ≡ₚ accepted s.

(** Steps that write nothing. *)
Lemma conserved_same s s' : conserved s ->
  flags s' = flags s -> file s' = file s -> calls s' = calls s ->
  (forall done, done ++ in_hand s ≡ₚ accepted s -> done ++ in_hand s' ≡ₚ accepted s') -> conserved s'.
Proof. intros (chunks & Hp & Hs) E1 E2 E3 Hi. exists chunks. rewrite E1, E2, E3. auto. Qed.

Lemma step_conserves s s' : cw_step s s' -> conserved s -> conserved s'.
Proof.
  intros Hstep Hs. inversion Hstep as
    [s0 bs Hp Hst Hne H1 H2|s0 bs Hp Hst Hne H1 H2|s0 Hp|s0 bs more a s1 Hp Hw|s0 more Hp|s0 Ht Hne|s0 bs a s1 Ht Hw|s0]; subst.
  - apply (conserved_same s); [done..|]. intros d Hd. unfold in_hand, writing, flushing in *. cbn. rewrite Hp in *.
    rewrite <- Hd. cbn [app]. by rewrite <- !app_assoc.
  - apply (conserved_same s); [done..|]. intros d Hd. unfold in_hand, writing, flushing in *. cbn. rewrite Hp in Hd.
    by rewrite app_nil_r.
  - apply (conserved_same s); [done..|]. intros d Hd. unfold in_hand, writing, flushing in *. cbn. rewrite Hp in Hd.
    by rewrite app_nil_r.
  - destruct (write_file_spec _ _ _ _ Hw) as (E1 & E2 & E3 & E4 & Hpr). destruct Hs as (chunks & Hc & Hs).
    exists (chunks ++ [bs]). split; [by apply Hpr|]. unfold in_hand, writing, flushing in *. cbn. rewrite E1, E2, E4.
    rewrite Hp in Hs. rewrite <- Hs, concat_app. cbn [concat]. rewrite app_nil_r, <- !app_assoc.
    apply Permutation_app_head. cbn [app]. rewrite !app_assoc. apply Permutation_app_tail, Permutation_app_comm.
  - destruct (stopping s); (apply (conserved_same s); [done..|]); intros d Hd; unfold in_hand, writing, flushing in *; cbn;
      rewrite Hp in Hd; cbn [app] in *.
    + exact Hd.
    + rewrite <- Hd. by rewrite !app_assoc.
  - apply (conserved_same s); [done..|]. intros d Hd. unfold in_hand, writing, flushing in *. cbn. rewrite Ht in Hd.
    rewrite <- Hd. apply Permutation_app_head. unfold id. cbn [default app].
    rewrite (Permutation_app_comm _ (drop _ _)), !app_assoc, (Permutation_app_comm _ (match producer s with FlushTaken bytes _ => bytes | _ => [] end)).
    apply Permutation_app_head. by rewrite take_drop.
  - destruct (write_file_spec _ _ _ _ Hw) as (E1 & E2 & E3 & E4 & Hpr). destruct Hs as (chunks & Hc & Hs).
    exists (chunks ++ [bs]). split; [by apply Hpr|]. unfold in_hand, writing, flushing in *. cbn. rewrite E1, E2, E3.
    rewrite Ht in Hs. rewrite <- Hs, concat_app. cbn [concat default app]. unfold id. by rewrite app_nil_r, <- !app_assoc.
  - by apply (conserved_same s).
Qed.

Definition in_order (s : Writer) : Prop :=
  exists chunks, printed chunks (flags s) (file s) (calls s) /\ concat chunks ++ in_hand s = accepted s.

Lemma in_order_same s s' : in_order s ->
  flags s' = flags s -> file s' = file s -> calls s' = calls s ->
  (forall done, done ++ in_hand s = accepted s -> done ++ in_hand s' = accepted s') -> in_order s'.
Proof. intros (chunks & Hp & Hs) E1 E2 E3 Hi. exists chunks. rewrite E1, E2, E3. auto. Qed.

Lemma calm_step_in_order s s' : calm s -> calm_step s s' -> in_order s -> in_order s'.
Proof.
  intros Hc [Hstep Hc'] Hs. inversion Hstep as
    [s0 bs Hp Hst Hne H1 H2|s0 bs Hp Hst Hne H1 H2|s0 Hp|s0 bs more a s1 Hp Hw|s0 more Hp|s0 Ht Hne|s0 bs a s1 Ht Hw|s0]; subst.
  - apply (in_order_same s); [done..|]. intros d Hd. unfold in_hand, writing, flushing in *. cbn. rewrite Hp in *.
    rewrite <- Hd. cbn [app]. by rewrite <- !app_assoc.
  - apply (in_order_same s); [done..|]. intros d Hd. unfold in_hand, writing, flushing in *. cbn. rewrite Hp in Hd.
    by rewrite app_nil_r.
  - apply (in_order_same s); [done..|]. intros d Hd. unfold in_hand, writing, flushing in *. cbn. rewrite Hp in Hd.
    by rewrite app_nil_r.
  - destruct (write_file_spec _ _ _ _ Hw) as (E1 & E2 & E3 & E4 & Hpr). destruct Hs as (chunks & Hch & Hs).
    exists (chunks ++ [bs]). split; [by apply Hpr|]. unfold calm, in_hand, writing, flushing in *. cbn. rewrite E1, E2, E4.
    rewrite Hp in *. rewrite <- Hs, concat_app. cbn [concat]. rewrite app_nil_r, <- !app_assoc.
    destruct Hc as [-> | ->]; cbn [app]; by rewrite ?app_nil_r.
  - destruct (stopping s); (apply (in_order_same s); [done..|]); intros d Hd; unfold in_hand, writing, flushing in *; cbn;
      rewrite Hp in Hd; cbn [app] in *.
    + exact Hd.
    + rewrite <- Hd. by rewrite !app_assoc.
  - apply (in_order_same s); [done..|]. intros d Hd. unfold calm, in_hand, writing, flushing in *. cbn in *. rewrite Ht in Hd.
    rewrite <- Hd. unfold id in *. f_equal. cbn [default app] in *. destruct Hc' as [-> | Htk]; cbn [app]; [by rewrite take_drop|].
    rewrite Htk. cbn [app]. by rewrite <- (take_drop (Z.to_nat (take_size s)) (pending s)) at 2; rewrite Htk.
  - destruct (write_file_spec _ _ _ _ Hw) as (E1 & E2 & E3 & E4 & Hpr). destruct Hs as (chunks & Hch & Hs).
    exists (chunks ++ [bs]). split; [by apply Hpr|]. unfold in_hand, writing, flushing in *. cbn. rewrite E1, E2, E3.
    rewrite Ht in Hs. rewrite <- Hs, concat_app. cbn [concat default app]. unfold id. by rewrite app_nil_r, <- !app_assoc.
  - by apply (in_order_same s).
Qed.

Lemma reachable_conserved s : rtc cw_step ConsoleWriter_new s -> conserved s.
Proof.
  assert (H0 : conserved ConsoleWriter_new) by (exists []; split; [constructor|done]). intros Hr. revert H0.
  induction Hr as [|s1 s2 s3 Hs _ IH]; [done|]. intros H. apply IH. by eapply step_conserves.
Qed.

Lemma calm_in_order s : rtc calm_step ConsoleWriter_new s -> in_order s.
Proof.
  assert (H0 : in_order ConsoleWriter_new /\ calm ConsoleWriter_new)
    by (split; [exists []; split; [constructor|done]|by left]). intros Hr. revert H0.
  induction Hr as [|s1 s2 s3 Hs _ IH]; [by intros []|]. intros [H Hc]. apply IH.
  split; [by eapply calm_step_in_order|apply Hs].
Qed.

(** Text without escapes, and a host that takes every byte. *)
Definition succeeded (a : answer) : Prop := match a with Wrote _ => True | _ => False end.

Lemma printed_plain chunks f out cs :
  printed chunks f out cs -> Forall succeeded cs -> plain (concat chunks) ->
  out = concat chunks /\ swallow_dec_clear_cr f = false.
Proof.
  induction 1 as [|chunks f out cs bs a text f' Hp IH Hn|chunks f out cs bs a text f' front Hp IH Hn Ha|chunks f out cs bs a Hp IH Ha];
    intros Hc Hpl; [done|apply Forall_app in Hc as [Hc Hca]..];
    rewrite ?concat_app in *; cbn [concat] in *; rewrite ?app_nil_r in *; apply Forall_app in Hpl as [Hpl Hbs];
    destruct (IH Hc Hpl) as [-> Hf].
  - destruct (normalize_plain (length bs) bs Hbs 0 f) as [f1 E]; [unfold size; lia..|done|].
    pose proof (normalize_plain_flag (length bs) bs Hbs 0 f [] f' text ltac:(lia) Hf Hn) as Hf'.
    change (take (Z.to_nat 0) bs) with ([] : list Z) in E. unfold normalize_host_terminal_bytes in Hn.
    rewrite E in Hn. by injection Hn as <- <-.
  - rewrite List.Forall_forall in Hca. destruct (Hca Refused). by apply list_elem_of_In.
  - rewrite List.Forall_forall in Hca. destruct (Hca NoHandle). by apply list_elem_of_In.
Qed.

(** C39.  Whatever the interleaving of the guest's writes, flushes and the writer thread:
    the bytes of every completed [write] are, up to order, those of the chunks given to
    [write_file] and those still in a thread's hands or queued, nothing lost and nothing
    twice; and the file holds the translation of every chunk, in the order of the calls, to
    its last byte, however few bytes a call took, unless the host failed during the chunk.
    While only one thread at a time holds a chunk, the order of the writes is kept.  So
    text without escapes reaches a host that fails no call byte for byte.  But when a flush
    overlaps the writer thread the order need not be kept: a run exists whose later byte
    reaches stdout first. *)
Theorem console_queue_spec :
  (forall s, rtc cw_step ConsoleWriter_new s ->
     (exists chunks, printed chunks (flags s) (file s) (calls s) /\ concat chunks ++ in_hand s ≡ₚ accepted s) /\
     (plain (accepted s) -> Forall succeeded (calls s) -> file s ++ in_hand s ≡ₚ accepted s)) /\
  (forall s, rtc calm_step ConsoleWriter_new s ->
     (exists chunks, printed chunks (flags s) (file s) (calls s) /\ concat chunks ++ in_hand s = accepted s) /\
     (plain (accepted s) -> Forall succeeded (calls s) -> file s ++ in_hand s = accepted s)) /\
  exists s, rtc cw_step ConsoleWriter_new s /\ accepted s = [65; 66] /\ file s = [66; 65].
Proof.
  split_and!.
  - intros s (chunks & Hp & Hs)%reachable_conserved. split; [by exists chunks|]. intros Hpl Hc.
    unfold plain in Hpl. rewrite <- Hs in Hpl. apply Forall_app in Hpl as [Hpl _].
    by destruct (printed_plain _ _ _ _ Hp Hc Hpl) as [-> _].
  - intros s (chunks & Hp & Hs)%calm_in_order. split; [by exists chunks|]. intros Hpl Hc.
    unfold plain in Hpl. rewrite <- Hs in Hpl. apply Forall_app in Hpl as [Hpl _].
    by destruct (printed_plain _ _ _ _ Hp Hc Hpl) as [-> _].
  - eexists. split; [|split].
    + eapply rtc_l; [apply (step_write _ [65]); by vm_compute|].
      eapply rtc_l; [apply step_take; by vm_compute|].
      eapply rtc_l; [apply (step_write _ [66]); by vm_compute|].
      eapply rtc_l; [apply step_flush; by vm_compute|].
      eapply rtc_l; [eapply (step_flush_write _ [66] [] [Wrote 0; Wrote 1]); by vm_compute|].
      eapply rtc_l; [eapply (step_taken_write _ [65] [Wrote 1]); by vm_compute|].
      apply rtc_refl.
    + by vm_compute.
    + by vm_compute.
Qed.

(** Three bytes, the first in the file after an attempt that took none, the others queued. *)
Lemma console_queue_spec_witness :
  exists s, rtc calm_step ConsoleWriter_new s /\ calls s = [Wrote 0; Wrote 1] /\
    file s = [65] /\ file s ++ in_hand s = [65; 66; 67].
Proof.
  set (s := mkWriter false [66; 67] (mkFlags false false false) Idle None [65] [65; 66; 67] [Wrote 0; Wrote 1]).
  exists s. assert (Hr : rtc calm_step ConsoleWriter_new s).
  { eapply rtc_l; [split; [apply (step_write _ [65]); by vm_compute|by left]|].
    eapply rtc_l; [split; [apply step_take; by vm_compute|by left]|].
    eapply rtc_l; [split; [apply (step_write _ [66; 67]); by vm_compute|by left]|].
    eapply rtc_l; [split; [eapply (step_taken_write _ [65] [Wrote 0; Wrote 1]); by vm_compute|by left]|].
    apply rtc_refl. }
  split; [exact Hr|]. split; [reflexivity|]. split; [reflexivity|].
  destruct console_queue_spec as (_ & H & _). destruct (H _ Hr) as [_ Hf]. apply Hf.
  - repeat apply List.Forall_cons; discriminate || apply List.Forall_nil.
  - repeat apply List.Forall_cons; exact I || apply List.Forall_nil.
Defined.
