(* ===== verification/Uart.v ===== *)
(** * native/whp/devices/uart.cc: the 16550 serial port

    Registers, the receive path from the host (FIFO and staging queue), the transmit
    path with loopback and the cursor-query interception, console capture with its
    shutdown markers, and interrupt identification.  The bytes handed to the console
    writer and the calls of the interrupt raiser are recorded.  The theorems: the
    receive path is a bounded queue, the interrupt identification register is never
    stale, and which outputs the shutdown markers recognise. *)

From S2P Require Import Prelude Words Bytes ConsoleWriter.

Definition kRxCapacity : Z := 4096.
Definition kFifoSize : Z := 16.
Definition kIerRdi : Z := 0x01.
Definition kIerThri : Z := 0x02.
Definition kIerRlsi : Z := 0x04.
Definition kIerMsi : Z := 0x08.
Definition kFcrEnable : Z := 0x01.
Definition kFcrClearRx : Z := 0x02.
Definition kFcrClearTx : Z := 0x04.
Definition kFcrTriggerMask : Z := 0xC0.
Definition kLsrDr : Z := 0x01.
Definition kLsrOe : Z := 0x02.
Definition kLsrPe : Z := 0x04.
Definition kLsrFe : Z := 0x08.
Definition kLsrBi : Z := 0x10.
Definition kLsrThre : Z := 0x20.
Definition kLsrTemt : Z := 0x40.
Definition lsr_errors : Z := Z.lor kLsrOe (Z.lor kLsrPe (Z.lor kLsrFe kLsrBi)).
Definition lsr_tx_idle : Z := Z.lor kLsrThre kLsrTemt.

Record Uart := mkUart {
  ier : Z; iir : Z; fcr : Z; lcr : Z; mcr : Z; msr : Z; lsr : Z; scr : Z; dll : Z; dlh : Z;
  rbr : Z; thr : Z; tsr : Z;
  rx_fifo : list Z; rx_staging : list Z; tx_fifo : list Z;
  thr_ipending : bool; timeout_ipending : bool;
  limit : Z; echo_stdout : bool;
  stdout : list Z;                  (** what the console writer was given *)
  output_is_console : bool;         (** stdout_writer_.can_passthrough_terminal_query() *)
  cursors : nat -> option (Z * Z);  (** the host's cursor at each query *)
  cursor_queries : nat;
  console : list Z; terminal_query : list Z; last_stdout_byte : Z; dsr_passthrough : bool;
  halted_seen : bool; restarting_seen : bool; halted_match : Z; restarting_match : Z;
  has_irq_raiser : bool;
  irqs : Z                          (** calls of irq_raiser_(4) *) }.
#[export] Instance eta_Uart : Eta Uart := fun s => mkUart
  (ier s) (iir s) (fcr s) (lcr s) (mcr s) (msr s) (lsr s) (scr s) (dll s) (dlh s) (rbr s) (thr s) (tsr s)
  (rx_fifo s) (rx_staging s) (tx_fifo s) (thr_ipending s) (timeout_ipending s) (limit s) (echo_stdout s)
  (stdout s) (output_is_console s) (cursors s) (cursor_queries s) (console s) (terminal_query s)
  (last_stdout_byte s) (dsr_passthrough s) (halted_seen s) (restarting_seen s) (halted_match s)
  (restarting_match s) (has_irq_raiser s) (irqs s).

Definition Uart_new (limit : Z) (echo is_console passthrough : bool) (cursors : nat -> option (Z * Z)) : Uart :=
  mkUart 0 1 0 0 8 0xB0 lsr_tx_idle 0 0x0C 0 0 0 0 [] [] [] false false limit echo [] is_console
    cursors 0 [] [] 0 passthrough false false 0 0 false 0.

Definition set_lsr (m : Z) (s : Uart) : Uart := s <| lsr := Z.lor (lsr s) m |>.
Definition clear_lsr (m : Z) (s : Uart) : Uart := s <| lsr := Z.land (lsr s) (bnot 8 m) |>.

(** ** The terminal-query mode *)

Definition tolower (c : Z) : Z := if (65 <=? c) && (c <=? 90) then c + 32 else c.

(** C strings without their terminator; [None] is a null pointer. *)
Fixpoint equals_no_case (l r : list Z) : bool :=
  match l, r with
  | [], [] => true
  | a :: l, b :: r => (tolower a =? tolower b) && equals_no_case l r
  | _, _ => false
  end.
Definition EqualsAsciiNoCase (l r : option (list Z)) : bool :=
  match l, r with Some l, Some r => equals_no_case l r | _, _ => false end.

(** "passthrough" *)
Definition kPassthrough : list Z := [112; 97; 115; 115; 116; 104; 114; 111; 117; 103; 104].
Definition set_terminal_query_mode_from_env (mode : option (list Z)) (s : Uart) : Uart :=
  s <| dsr_passthrough := EqualsAsciiNoCase mode (Some kPassthrough) |>.

Definition attach_irq_raiser (s : Uart) : Uart := s <| has_irq_raiser := true |>.

(** ** Interrupt identification *)

Definition fifo_enabled_locked (s : Uart) : bool := has (fcr s) kFcrEnable.

Definition rx_trigger_level_locked (s : Uart) : Z :=
  let t := Z.land (fcr s) kFcrTriggerMask in
  if t =? 0x00 then 1 else if t =? 0x40 then 4 else if t =? 0x80 then 8 else if t =? 0xC0 then 14 else 1.

Definition rx_ready_for_interrupt_locked (s : Uart) : bool :=
  if fifo_enabled_locked s then negb (bool_decide (rx_fifo s = [])) && (rx_trigger_level_locked s <=? size (rx_fifo s))
  else has (lsr s) kLsrDr.

Definition iir_fifo_bits_locked (s : Uart) : Z := if fifo_enabled_locked s then 0xC0 else 0x00.

Definition current_msr_locked (s : Uart) : Z :=
  if has (mcr s) 0x10 then
    let loop := Z.land (msr s) 0x0F in
    let loop := if has (mcr s) 0x02 then Z.lor loop 0x10 else loop in
    let loop := if has (mcr s) 0x01 then Z.lor loop 0x20 else loop in
    let loop := if has (mcr s) 0x04 then Z.lor loop 0x40 else loop in
    if has (mcr s) 0x08 then Z.lor loop 0x80 else loop
  else msr s.

Definition update_msr_delta_locked (old_msr new_msr : Z) (s : Uart) : Uart :=
  let old_status := Z.land old_msr 0xF0 in
  let new_status := Z.land new_msr 0xF0 in
  let delta := 0 in
  let delta := if has (Z.lxor old_status new_status) 0x10 then Z.lor delta 0x01 else delta in
  let delta := if has (Z.lxor old_status new_status) 0x20 then Z.lor delta 0x02 else delta in
  let delta := if has old_status 0x40 && negb (has new_status 0x40) then Z.lor delta 0x04 else delta in
  let delta := if has (Z.lxor old_status new_status) 0x80 then Z.lor delta 0x08 else delta in
  s <| msr := Z.lor (Z.land new_msr 0xF0) (Z.land (Z.lor (msr s) delta) 0x0F) |>.

(** The identification and whether it is an interrupt. *)
Definition identify (s : Uart) : Z * bool :=
  if has (ier s) kIerRlsi && has (lsr s) lsr_errors then (0x06, true)
  else if has (ier s) kIerRdi && timeout_ipending s then (0x0C, true)
  else if has (ier s) kIerRdi && rx_ready_for_interrupt_locked s then (0x04, true)
  else if has (ier s) kIerThri && thr_ipending s && has (lsr s) kLsrThre then (0x02, true)
  else if has (ier s) kIerMsi && has (current_msr_locked s) 0x0F then (0x00, true)
  else (0x01, false).

Definition update_interrupt_locked (s : Uart) : Uart :=
  let '(id, raise) := identify s in
  let s := s <| iir := id |> in
  if raise && has_irq_raiser s then s <| irqs := irqs s + 1 |> else s.

(** ** Receive path *)

(** [while (!rx_staging_.empty() && rx_fifo_.size() < kFifoSize)] *)
Fixpoint fill_fifo (staging fifo : list Z) : list Z * list Z :=
  match staging with
  | [] => ([], fifo)
  | b :: rest => if size fifo <? kFifoSize then fill_fifo rest (fifo ++ [b]) else (staging, fifo)
  end.

Definition drain_rx_staging_locked (s : Uart) : Uart :=
  if fifo_enabled_locked s then
    let '(staging, fifo) := fill_fifo (rx_staging s) (rx_fifo s) in
    let s := s <| rx_staging := staging |> in
    let s := s <| rx_fifo := fifo |> in
    if bool_decide (fifo = []) then (clear_lsr kLsrDr s) <| timeout_ipending := false |>
    else
      let s := set_lsr kLsrDr s in
      s <| timeout_ipending := size (rx_fifo s) <? rx_trigger_level_locked s |>
  else
    let s :=
      match rx_staging s with
      | b :: rest =>
          if negb (has (lsr s) kLsrDr) then
            let s := s <| rbr := b |> in
            let s := s <| rx_staging := rest |> in
            set_lsr kLsrDr s
          else s
      | [] => s
      end in
    s <| timeout_ipending := false |>.

Definition queued (s : Uart) : Z :=
  let n := size (rx_staging s) in
  if fifo_enabled_locked s then n + size (rx_fifo s)
  else if has (lsr s) kLsrDr then n + 1 else n.

Fixpoint push_rx (data : list Z) (s : Uart) : Z * Uart :=
  match data with
  | [] => (0, s)
  | b :: rest =>
      if queued s <? kRxCapacity then
        let '(n, s) := push_rx rest (s <| rx_staging := rx_staging s ++ [b] |>) in (n + 1, s)
      else (0, s)
  end.

(** The [front] variant has no caller. *)
Definition enqueue_rx_locked (data : list Z) (s : Uart) : Z * Uart :=
  if bool_decide (data = []) then (0, s)
  else
    let '(accepted, s) := push_rx data s in
    let s := if accepted <? size data then set_lsr kLsrOe s else s in
    let s := drain_rx_staging_locked s in
    (accepted, update_interrupt_locked s).

Definition enqueue_rx (data : list Z) (s : Uart) : Z * Uart := enqueue_rx_locked data s.

Definition clear_rx_locked (s : Uart) : Uart :=
  let s := s <| rx_fifo := [] |> in
  let s := s <| rx_staging := [] |> in
  let s := s <| rbr := 0 |> in
  let s := s <| timeout_ipending := false |> in
  clear_lsr (Z.lor kLsrDr lsr_errors) s.

(** ** Console output *)

Definition AdvanceMatch (pattern : list Z) (current byte : Z) : Z :=
  let fix back (n : nat) : nat :=
    match n with
    | O => O
    | S m => if byte =? at_ pattern (Z.of_nat n) then n else back m
    end in
  let current := back (Z.to_nat current) in
  if byte =? at_ pattern (Z.of_nat current) then Z.of_nat current + 1 else Z.of_nat current.

(** "reboot: System halted" and "Restarting system" *)
Definition kHalted : list Z :=
  [114; 101; 98; 111; 111; 116; 58; 32; 83; 121; 115; 116; 101; 109; 32; 104; 97; 108; 116; 101; 100].
Definition kRestarting : list Z :=
  [82; 101; 115; 116; 97; 114; 116; 105; 110; 103; 32; 115; 121; 115; 116; 101; 109].

Definition track_marker (pattern : list Z) (st : Z * bool) (byte : Z) : Z * bool :=
  let '(m, seen) := st in
  if seen then (m, seen)
  else let m := AdvanceMatch pattern m byte in (m, m =? size pattern).

Definition track_console_markers (bytes : list Z) (s : Uart) : Uart :=
  let '(hm, hs) := fold_left (track_marker kHalted) bytes (halted_match s, halted_seen s) in
  let '(rm, rs) := fold_left (track_marker kRestarting) bytes (restarting_match s, restarting_seen s) in
  let s := s <| halted_match := hm |> in
  let s := s <| halted_seen := hs |> in
  let s := s <| restarting_match := rm |> in
  s <| restarting_seen := rs |>.

Fixpoint NormalizeCrlf (bytes : list Z) (last_byte : Z) : list Z * Z :=
  match bytes with
  | [] => ([], last_byte)
  | byte :: rest =>
      let '(out, last) := NormalizeCrlf rest byte in
      ((if (byte =? LF) && negb (last_byte =? CR) then [CR] else []) ++ byte :: out, last)
  end.

Definition write_stdout (bytes : list Z) (s : Uart) : Uart :=
  let '(normalized, last) := NormalizeCrlf bytes (last_stdout_byte s) in
  let s := s <| last_stdout_byte := last |> in
  s <| stdout := stdout s ++ normalized |>.

Definition emit_tx_locked (bytes : list Z) (s : Uart) : Uart :=
  if bool_decide (bytes = []) then s
  else
    let s := track_console_markers bytes s in
    let available := if size (console s) <? limit s then limit s - size (console s) else 0 in
    let s := s <| console := console s ++ take (Z.to_nat (Z.min available (size bytes))) bytes |> in
    if echo_stdout s then write_stdout bytes s else s.

Definition emit_bytes (data : list Z) (s : Uart) : Uart := emit_tx_locked data s.

(** [console_.find(needle) != npos] *)
Fixpoint is_prefix (needle l : list Z) : bool :=
  match needle, l with
  | [], _ => true
  | a :: needle, b :: l => (a =? b) && is_prefix needle l
  | _ :: _, [] => false
  end.
Fixpoint find_in (needle l : list Z) : bool :=
  is_prefix needle l || match l with [] => false | _ :: l => find_in needle l end.

Definition contains (needle : list Z) (s : Uart) : bool :=
  if bool_decide (needle = kHalted) then halted_seen s
  else if bool_decide (needle = kRestarting) then restarting_seen s
  else find_in needle (console s).

(** ** Transmit path *)

Definition clear_tx_locked (s : Uart) : Uart :=
  let s := s <| tx_fifo := [] |> in
  let s := s <| thr := 0 |> in
  let s := s <| tsr := 0 |> in
  let s := s <| terminal_query := [] |> in
  let s := set_lsr lsr_tx_idle s in
  s <| thr_ipending := true |>.

(** The shift register leaves on the line, or comes back in loopback. *)
Definition shift_out (s : Uart) : Uart :=
  if has (mcr s) 0x10 then (enqueue_rx_locked [tsr s] s).2 else emit_tx_locked [tsr s] s.

Fixpoint drain_tx (fifo : list Z) (s : Uart) : Uart :=
  match fifo with
  | [] => s
  | b :: rest =>
      let s := s <| tsr := b |> in
      drain_tx rest (shift_out (s <| tx_fifo := rest |>))
  end.

Definition send_byte (value : Z) (s : Uart) : Uart :=
  if fifo_enabled_locked s then
    let s := if size (tx_fifo s) <? kFifoSize then s <| tx_fifo := tx_fifo s ++ [value] |> else s in
    drain_tx (tx_fifo s) s
  else shift_out (s <| tsr := value |>).

Definition transmit_byte_locked (value : Z) (s : Uart) : Uart :=
  let s := send_byte value s in
  let s := set_lsr lsr_tx_idle s in
  s <| thr_ipending := true |>.

(** ESC [ 6 n *)
Definition query : list Z := [27; 91; 54; 110].

Definition answer_query (s : Uart) : Uart :=
  if dsr_passthrough s && output_is_console s then emit_tx_locked (terminal_query s) s
  else
    let response := cursor_report (cursors s (cursor_queries s)) in
    let s := s <| cursor_queries := S (cursor_queries s) |> in
    (enqueue_rx_locked response s).2.

Definition transmitted (s : Uart) : Uart :=
  let s := set_lsr lsr_tx_idle s in
  update_interrupt_locked (s <| thr_ipending := true |>).

Definition handle_tx_byte (value : Z) (s : Uart) : Uart :=
  let s := s <| thr := value |> in
  let s := clear_lsr lsr_tx_idle s in
  if has (mcr s) 0x10 then update_interrupt_locked (transmit_byte_locked value s)
  else if negb (bool_decide (terminal_query s = [])) || (value =? 0x1B) then
    let s := s <| terminal_query := terminal_query s ++ [value] |> in
    if is_prefix (terminal_query s) query then
      let s :=
        if bool_decide (terminal_query s = query)
        then (answer_query s) <| terminal_query := [] |> else s in
      transmitted s
    else
      let s := emit_tx_locked (terminal_query s) s in
      transmitted (s <| terminal_query := [] |>)
  else update_interrupt_locked (transmit_byte_locked value s).

(** ** Registers *)

Definition read_rbr (s : Uart) : Z * Uart :=
  let '(value, s) :=
    if fifo_enabled_locked s then
      let '(value, s) :=
        match rx_fifo s with b :: rest => (b, s <| rx_fifo := rest |>) | [] => (0, s) end in
      let s := s <| timeout_ipending := false |> in
      let s := drain_rx_staging_locked s in
      (value, if bool_decide (rx_fifo s = []) then clear_lsr kLsrDr s else s)
    else
      let '(value, s) := if has (lsr s) kLsrDr then (rbr s, clear_lsr kLsrDr s) else (0, s) in
      let s := s <| timeout_ipending := false |> in
      (value, drain_rx_staging_locked s) in
  (value, update_interrupt_locked s).

Definition read (offset : Z) (s : Uart) : Z * Uart :=
  let dlab := has (lcr s) 0x80 in
  if offset =? 0 then (if dlab then (dll s, s) else read_rbr s)
  else if offset =? 1 then ((if dlab then dlh s else ier s), s)
  else if offset =? 2 then
    let value := Z.lor (iir_fifo_bits_locked s) (iir s) in
    if Z.land (iir s) 0x0F =? 0x02
    then (value, update_interrupt_locked (s <| thr_ipending := false |>)) else (value, s)
  else if offset =? 3 then (lcr s, s)
  else if offset =? 4 then (mcr s, s)
  else if offset =? 5 then
    (lsr s, if has (lsr s) lsr_errors then update_interrupt_locked (clear_lsr lsr_errors s) else s)
  else if offset =? 6 then
    (current_msr_locked s, update_interrupt_locked (s <| msr := Z.land (msr s) 0xF0 |>))
  else if offset =? 7 then (scr s, s)
  else (0, s).

Definition write_ier (value : Z) (s : Uart) : Uart :=
  let old_ier := ier s in
  let s := s <| ier := Z.land value 0x0F |> in
  let s :=
    if has (Z.lxor old_ier (ier s)) kIerThri
    then s <| thr_ipending := has (ier s) kIerThri && has (lsr s) kLsrThre |> else s in
  update_interrupt_locked s.

Definition write_fcr (value : Z) (s : Uart) : Uart :=
  let s := s <| fcr := Z.land value (Z.lor kFcrEnable kFcrTriggerMask) |> in
  let s := if has value kFcrClearRx then clear_rx_locked s else drain_rx_staging_locked s in
  let s := if has value kFcrClearTx then clear_tx_locked s else s in
  update_interrupt_locked s.

Definition write_lcr (value : Z) (s : Uart) : Uart :=
  let old_lcr := lcr s in
  let s := s <| lcr := value |> in
  let s :=
    if has value 0x40 && negb (has old_lcr 0x40)
    then (set_lsr (Z.lor kLsrBi kLsrDr) s) <| rbr := 0 |> else s in
  update_interrupt_locked s.

Definition write_mcr (value : Z) (s : Uart) : Uart :=
  let old_msr := current_msr_locked s in
  let s := s <| mcr := Z.land value 0x1F |> in
  update_interrupt_locked (update_msr_delta_locked old_msr (current_msr_locked s) s).

Definition write (offset value : Z) (s : Uart) : Uart :=
  if offset =? 0 then (if has (lcr s) 0x80 then s <| dll := value |> else handle_tx_byte value s)
  else if offset =? 1 then (if has (lcr s) 0x80 then s <| dlh := value |> else write_ier value s)
  else if offset =? 2 then write_fcr value s
  else if offset =? 3 then write_lcr value s
  else if offset =? 4 then write_mcr value s
  else if offset =? 7 then s <| scr := value |>
  else s.

(** ** The receive queue *)

(** The bytes the guest has still to read, in order. *)
Definition rxq (s : Uart) : list Z :=
  (if fifo_enabled_locked s then rx_fifo s else if has (lsr s) kLsrDr then [rbr s] else []) ++ rx_staging s.

(** Nothing waits in the staging queue while the guest-visible side has room. *)
Definition settled (s : Uart) : Prop :=
  rx_staging s = [] \/
  (if fifo_enabled_locked s then kFifoSize <= size (rx_fifo s) else has (lsr s) kLsrDr = true).

(** What the receive path consists of. *)
Definition rx_view (s : Uart) : Z * bool * Z * list Z * list Z :=
  (fcr s, has (lsr s) kLsrDr, rbr s, rx_fifo s, rx_staging s).

Lemma rx_view_eq s s' : rx_view s' = rx_view s ->
  rxq s' = rxq s /\ (settled s -> settled s') /\ rx_staging s' = rx_staging s /\ rx_fifo s' = rx_fifo s.
Proof.
  intros [= H1 H2 H3 H4 H5]. unfold rxq, settled, fifo_enabled_locked. by rewrite H1, H2, H3, H4, H5.
Qed.

Lemma set_lsr_dr m s : has m kLsrDr = false -> has (lsr (set_lsr m s)) kLsrDr = has (lsr s) kLsrDr.
Proof. intros Hm. unfold set_lsr. cbn [lsr upd_field]. by rewrite has_lor, Hm, orb_false_r. Qed.
Lemma clear_lsr_dr m s : Z.land (bnot 8 m) kLsrDr = kLsrDr ->
  has (lsr (clear_lsr m s)) kLsrDr = has (lsr s) kLsrDr.
Proof. intros Hm. unfold clear_lsr. cbn [lsr upd_field]. by apply has_land. Qed.
Lemma clear_dr s : has (lsr (clear_lsr kLsrDr s)) kLsrDr = false.
Proof. unfold clear_lsr, has. cbn [lsr upd_field]. by rewrite <- Z.land_assoc, Z.land_0_r. Qed.
Lemma set_dr s : has (lsr (set_lsr kLsrDr s)) kLsrDr = true.
Proof. unfold set_lsr. cbn [lsr upd_field]. by rewrite has_lor, orb_true_r. Qed.

Lemma view_update s : rx_view (update_interrupt_locked s) = rx_view s.
Proof. unfold update_interrupt_locked. destruct (identify s). by destruct (_ && _). Qed.

Lemma view_emit bytes s : rx_view (emit_tx_locked bytes s) = rx_view s.
Proof.
  unfold emit_tx_locked, track_console_markers, write_stdout. destruct (bool_decide _); [done|].
  destruct (fold_left (track_marker kHalted) _ _), (fold_left (track_marker kRestarting) _ _).
  cbv zeta. destruct (echo_stdout _); [|done]. by destruct (NormalizeCrlf bytes _).
Qed.

Lemma fill_fifo_spec staging fifo :
  let '(staging', fifo') := fill_fifo staging fifo in
  fifo' ++ staging' = fifo ++ staging /\ (staging' = [] \/ kFifoSize <= size fifo') /\
  size staging' <= size staging /\ (size fifo <= kFifoSize -> size fifo' <= kFifoSize).
Proof.
  revert fifo. induction staging as [|b rest IH]; intros fifo; cbn [fill_fifo].
  - split; [done|]. split; [by left|]. split; [lia|done].
  - destruct (Z.ltb_spec (size fifo) kFifoSize) as [Hlt|Hge].
    + specialize (IH (fifo ++ [b])). destruct (fill_fifo rest _) as [staging' fifo'].
      destruct IH as (H1 & H2 & H3 & H4). rewrite H1, <- app_assoc. split; [done|]. split; [done|].
      unfold size in *. rewrite length_app in H4. cbn [length] in *. split; [lia|]. intros _. apply H4. lia.
    + split; [done|]. split; [by right|]. split; [lia|done].
Qed.

Lemma drain_spec s :
  let s' := drain_rx_staging_locked s in
  rxq s' = rxq s /\ settled s' /\ fcr s' = fcr s /\ size (rx_staging s') <= size (rx_staging s) /\
  (size (rx_fifo s) <= kFifoSize -> size (rx_fifo s') <= kFifoSize).
Proof.
  unfold drain_rx_staging_locked. destruct (fifo_enabled_locked s) eqn:Hf.
  - pose proof (fill_fifo_spec (rx_staging s) (rx_fifo s)) as Hfill.
    destruct (fill_fifo _ _) as [staging fifo]. destruct Hfill as (H1 & H2 & H3 & H4). cbv zeta.
    unfold rxq, settled, fifo_enabled_locked in *.
    destruct (bool_decide (fifo = []));
      cbn [fcr rx_fifo rx_staging upd_field clear_lsr set_lsr timeout_ipending];
      unfold clear_lsr, set_lsr; cbn [fcr rx_fifo rx_staging upd_field]; rewrite Hf, H1; auto.
  - unfold rxq, settled, fifo_enabled_locked in *.
    destruct (rx_staging s) as [|b rest] eqn:Hst; cbv zeta.
    { cbn [fcr rx_fifo rx_staging lsr rbr upd_field]. rewrite Hf, Hst. split; [done|]. split; [by left|].
      split; [done|]. split; [done|done]. }
    destruct (has (lsr s) kLsrDr) eqn:Hdr; cbn [negb].
    + cbn [fcr rx_fifo rx_staging lsr rbr upd_field]. rewrite Hf, Hst, Hdr. split; [done|]. split; [by right|].
      split; [done|]. split; [lia|done].
    + unfold set_lsr. cbn [fcr rx_fifo rx_staging lsr rbr upd_field]. rewrite Hf, has_lor, orb_true_r.
      split; [done|]. split; [by right|]. split; [done|]. split; [unfold size; cbn; lia|done].
Qed.

Lemma queued_rxq s : queued s = size (rxq s).
Proof.
  unfold queued, rxq, size. rewrite length_app. destruct (fifo_enabled_locked s); [lia|].
  destruct (has (lsr s) kLsrDr); cbn; lia.
Qed.

Lemma push_rx_spec data : forall s,
  let '(n, s') := push_rx data s in
  n = Z.min (size data) (Z.max 0 (kRxCapacity - size (rxq s))) /\
  s' = s <| rx_staging := rx_staging s ++ take (Z.to_nat n) data |>.
Proof.
  induction data as [|b rest IH]; intros s; cbn [push_rx].
  - split; [unfold size; cbn [length]; lia|]. rewrite take_nil, app_nil_r. by destruct s.
  - rewrite queued_rxq. destruct (Z.ltb_spec (size (rxq s)) kRxCapacity) as [Hlt|Hge].
    + specialize (IH (s <| rx_staging := rx_staging s ++ [b] |>)).
      assert (Hq : rxq (s <| rx_staging := rx_staging s ++ [b] |>) = rxq s ++ [b])
        by (unfold rxq; cbn [rx_staging upd_field]; by rewrite app_assoc).
      destruct (push_rx rest _) as [n s']. destruct IH as [-> ->]. rewrite Hq.
      unfold size in *. rewrite length_app. cbn [length]. split; [lia|].
      replace (Z.to_nat (_ + 1)) with (S (Z.to_nat (Z.min (Z.of_nat (length rest))
        (Z.max 0 (kRxCapacity - Z.of_nat (length (rxq s) + 1)))))) by lia.
      cbn [take rx_staging upd_field]. by rewrite <- app_assoc.
    + split; [unfold size in *; lia|]. cbn [Z.to_nat take]. rewrite app_nil_r. by destruct s.
Qed.

Record rx_ok (s : Uart) : Prop := {
  ro_settled : settled s;
  ro_fifo : size (rx_fifo s) <= kFifoSize;
  ro_staging : size (rx_staging s) <= kRxCapacity }.

Lemma rx_ok_view s s' : rx_view s' = rx_view s -> rx_ok s -> rx_ok s'.
Proof. intros H []. destruct (rx_view_eq s s' H) as (_ & Hs & H1 & H2). constructor; rewrite ?H1, ?H2; auto. Qed.

Lemma drain_other_lsr s : has (lsr (drain_rx_staging_locked s)) kLsrOe = has (lsr s) kLsrOe.
Proof.
  unfold drain_rx_staging_locked, clear_lsr, set_lsr. destruct (fifo_enabled_locked s).
  - destruct (fill_fifo _ _) as [staging fifo]. cbv zeta.
    destruct (bool_decide _); cbn [lsr upd_field]; [by apply has_land|by rewrite has_lor, orb_false_r].
  - destruct (rx_staging s); [done|]. destruct (negb _); cbn [lsr upd_field]; [|done].
    by rewrite has_lor, orb_false_r.
Qed.

Lemma update_lsr s : lsr (update_interrupt_locked s) = lsr s.
Proof. unfold update_interrupt_locked. destruct (identify s). by destruct (_ && _). Qed.

(** The effect of [enqueue_rx]: the queue takes what fits. *)
Lemma enqueue_spec data s :
  rx_ok s ->
  let '(n, s') := enqueue_rx_locked data s in
  n = Z.min (size data) (Z.max 0 (kRxCapacity - size (rxq s))) /\
  rxq s' = rxq s ++ take (Z.to_nat n) data /\ rx_ok s' /\
  (n < size data -> has (lsr s') kLsrOe = true).
Proof.
  intros Hs. unfold enqueue_rx_locked. case_bool_decide as Hd.
  { subst data. unfold size. cbn [length]. rewrite take_nil, app_nil_r. split; [lia|]. split; [done|]. split; [done|lia]. }
  pose proof (push_rx_spec data s) as Hp. destruct (push_rx data s) as [n s1]. destruct Hp as [Hn ->].
  set (s1 := s <| rx_staging := _ |>).
  assert (Hq1 : rxq s1 = rxq s ++ take (Z.to_nat n) data)
    by (unfold s1, rxq; cbn [rx_staging upd_field]; by rewrite app_assoc).
  set (s2 := if n <? size data then set_lsr kLsrOe s1 else s1).
  assert (Hv2 : rx_view s2 = rx_view s1).
  { unfold s2. destruct (n <? size data); [|done]. unfold rx_view. rewrite set_lsr_dr by done. done. }
  destruct (rx_view_eq s1 s2 Hv2) as (Hq2 & _ & Hst2 & Hff2).
  destruct (drain_spec s2) as (Hq3 & Hset & _ & Hst3 & Hff3).
  destruct (rx_view_eq (drain_rx_staging_locked s2) _ (view_update _)) as (Hq4 & Hset4 & Hst4 & Hff4).
  split; [done|]. split; [by rewrite Hq4, Hq3, Hq2|]. split.
  - constructor; [by apply Hset4| |].
    + rewrite Hff4. apply Hff3. rewrite Hff2. apply Hs.
    + rewrite Hst4. etrans; [exact Hst3|]. rewrite Hst2. unfold s1. cbn [rx_staging upd_field].
      destruct Hs as [_ _ Hcap]. unfold rxq in Hn. unfold size in *. rewrite !length_app, length_take in *. lia.
  - intros Hlt. rewrite update_lsr, drain_other_lsr. unfold s2. destruct (Z.ltb_spec n (size data)); [|lia].
    unfold set_lsr. cbn [lsr upd_field]. by rewrite has_lor, orb_true_r.
Qed.

Lemma rx_ok_step s s' : rx_ok s -> rx_view s' = rx_view s -> rx_ok s'.
Proof. intros Hs Hv. by apply (rx_ok_view s). Qed.

Lemma rx_ok_drain s :
  size (rx_fifo s) <= kFifoSize -> size (rx_staging s) <= kRxCapacity -> rx_ok (drain_rx_staging_locked s).
Proof.
  intros H1 H2. destruct (drain_spec s) as (_ & Hset & _ & Hst & Hff). constructor; [done|auto|lia].
Qed.

Lemma rx_ok_update s : rx_ok s -> rx_ok (update_interrupt_locked s).
Proof. intros Hs. apply (rx_ok_view s); [apply view_update|done]. Qed.

Lemma fifo_clear_dr m s : fifo_enabled_locked s = true ->
  rxq (clear_lsr m s) = rxq s /\ (rx_ok s -> rx_ok (clear_lsr m s)).
Proof.
  intros Hf. unfold rxq. change (fifo_enabled_locked (clear_lsr m s)) with (fifo_enabled_locked s). rewrite Hf.
  split; [done|]. intros [Hset Hff Hst]. constructor; try done.
  unfold settled in *. change (fifo_enabled_locked (clear_lsr m s)) with (fifo_enabled_locked s). by rewrite Hf in *.
Qed.

Lemma drain_fifo_mode s : fifo_enabled_locked (drain_rx_staging_locked s) = fifo_enabled_locked s.
Proof. unfold fifo_enabled_locked. by destruct (drain_spec s) as (_ & _ & -> & _). Qed.

(** The byte handed over and the state before the staging queue refills. *)
Definition pop_rx (s : Uart) : Z * Uart :=
  if fifo_enabled_locked s then
    match rx_fifo s with b :: rest => (b, s <| rx_fifo := rest |>) | [] => (0, s) end
  else if has (lsr s) kLsrDr then (rbr s, clear_lsr kLsrDr s) else (0, s).

Lemma pop_rx_spec s : rx_ok s ->
  let '(v, s') := pop_rx s in
  v = hd 0 (rxq s) /\ rxq s' = tl (rxq s) /\ fifo_enabled_locked s' = fifo_enabled_locked s /\
  size (rx_fifo s') <= kFifoSize /\ rx_staging s' = rx_staging s.
Proof.
  intros [Hset Hff Hst]. unfold pop_rx, rxq, settled in *. destruct (fifo_enabled_locked s) eqn:Hf.
  - destruct (rx_fifo s) as [|b rest] eqn:Hfifo.
    + destruct Hset as [Hs|Hs]; [|done]. by rewrite Hf, Hfifo, Hs.
    + change (fifo_enabled_locked (s <| rx_fifo := rest |>)) with (fifo_enabled_locked s). rewrite Hf.
      cbn [rx_fifo rx_staging upd_field app hd tl]. split; [done|]. split; [done|]. split; [done|].
      split; [|done]. unfold size in *. cbn [length] in Hff. lia.
  - destruct (has (lsr s) kLsrDr) eqn:Hdr.
    + change (fifo_enabled_locked (clear_lsr kLsrDr s)) with (fifo_enabled_locked s). by rewrite Hf, clear_dr.
    + rewrite Hf, Hdr. destruct Hset as [Hs|Hs]; [|done]. by rewrite Hs.
Qed.

Lemma read_rbr_pop s : exists s1, rx_view s1 = rx_view (pop_rx s).2 /\
  let s2 := drain_rx_staging_locked s1 in
  read_rbr s = ((pop_rx s).1,
    update_interrupt_locked (if fifo_enabled_locked s && bool_decide (rx_fifo s2 = []) then clear_lsr kLsrDr s2 else s2)).
Proof.
  exists ((pop_rx s).2 <| timeout_ipending := false |>). split; [done|]. unfold read_rbr, pop_rx.
  destruct (fifo_enabled_locked s); [by destruct (rx_fifo s)|by destruct (has (lsr s) kLsrDr)].
Qed.

(** The effect of reading the receive buffer: the queue's head. *)
Lemma read_rbr_spec s : rx_ok s ->
  let '(v, s') := read_rbr s in v = hd 0 (rxq s) /\ rxq s' = tl (rxq s) /\ rx_ok s'.
Proof.
  intros Hs. destruct (read_rbr_pop s) as (s1 & Hv & ->). pose proof (pop_rx_spec s Hs) as Hp.
  destruct (pop_rx s) as [v s0]. cbn [fst snd] in *. destruct Hp as (-> & Hq & Hm & Hff & Hst).
  destruct (rx_view_eq s0 s1 Hv) as (Hq1 & _ & Hst1 & Hff1).
  assert (Hm1 : fifo_enabled_locked s1 = fifo_enabled_locked s).
  { rewrite <- Hm. unfold fifo_enabled_locked. by injection Hv as ->. }
  set (s2 := drain_rx_staging_locked s1). destruct (drain_spec s1) as (Hq2 & _). fold s2 in Hq2.
  assert (Hok2 : rx_ok s2) by (apply rx_ok_drain; [by rewrite Hff1|rewrite Hst1, Hst; apply Hs]).
  match goal with |- context [update_interrupt_locked ?x] => set (s3 := x) end.
  assert (H3 : rxq s3 = rxq s2 /\ rx_ok s3).
  { unfold s3. destruct (fifo_enabled_locked s) eqn:Hf; cbn [andb]; [|done]. case_bool_decide; [|done].
    destruct (fifo_clear_dr kLsrDr s2) as [H1 H2]; [unfold s2; by rewrite drain_fifo_mode, Hm1|]. auto. }
  destruct H3 as [Hq3 Hok3]. destruct (rx_view_eq s3 _ (view_update s3)) as (-> & _).
  split; [done|]. split; [by rewrite Hq3, Hq2, Hq1, Hq|by apply rx_ok_update].
Qed.

(** *** The other operations *)

Lemma rx_ok_enqueue data s : rx_ok s -> rx_ok (enqueue_rx_locked data s).2.
Proof.
  intros Hs. pose proof (enqueue_spec data s Hs) as H. destruct (enqueue_rx_locked data s) as [n s'].
  apply H.
Qed.

Lemma rx_ok_shift s : rx_ok s -> rx_ok (shift_out s).
Proof.
  intros Hs. unfold shift_out. destruct (has _ _); [by apply rx_ok_enqueue|].
  apply (rx_ok_view s); [apply view_emit|done].
Qed.

Lemma rx_ok_drain_tx fifo : forall s, rx_ok s -> rx_ok (drain_tx fifo s).
Proof.
  induction fifo as [|b rest IH]; intros s Hs; cbn [drain_tx]; [done|].
  apply IH, rx_ok_shift. by apply (rx_ok_view s).
Qed.

Lemma tx_idle_view s : rx_view (set_lsr lsr_tx_idle s) = rx_view s.
Proof. unfold rx_view. by rewrite set_lsr_dr. Qed.
Lemma tx_busy_view s : rx_view (clear_lsr lsr_tx_idle s) = rx_view s.
Proof. unfold rx_view. by rewrite clear_lsr_dr. Qed.
Lemma errors_view s : rx_view (clear_lsr lsr_errors s) = rx_view s.
Proof. unfold rx_view. by rewrite clear_lsr_dr. Qed.

Lemma tx_done_view s : rx_view ((set_lsr lsr_tx_idle s) <| thr_ipending := true |>) = rx_view s.
Proof. exact (tx_idle_view s). Qed.

Lemma clear_tx_view s : rx_view (clear_tx_locked s) = rx_view s.
Proof.
  unfold clear_tx_locked. cbv zeta. rewrite tx_done_view. reflexivity.
Qed.

Lemma rx_ok_transmit v s : rx_ok s -> rx_ok (transmit_byte_locked v s).
Proof.
  intros Hs. assert (H : rx_ok (send_byte v s)).
  { unfold send_byte. destruct (fifo_enabled_locked s).
    - apply rx_ok_drain_tx. by destruct (_ <? _); [apply (rx_ok_view s)|].
    - apply rx_ok_shift. by apply (rx_ok_view s). }
  unfold transmit_byte_locked. revert H. generalize (send_byte v s). cbv zeta.
  intros x Hx. by apply (rx_ok_view x); [apply tx_done_view|].
Qed.

Lemma rx_ok_transmitted s : rx_ok s -> rx_ok (transmitted s).
Proof.
  intros Hs. unfold transmitted. apply rx_ok_update. apply (rx_ok_view (set_lsr lsr_tx_idle s)); [done|].
  by apply (rx_ok_view s); [apply tx_idle_view|].
Qed.

Lemma rx_ok_answer s : rx_ok s -> rx_ok (answer_query s).
Proof.
  intros Hs. unfold answer_query. destruct (_ && _).
  - by apply (rx_ok_view s); [apply view_emit|].
  - apply rx_ok_enqueue. by apply (rx_ok_view s).
Qed.

Lemma rx_ok_tx v s : rx_ok s -> rx_ok (handle_tx_byte v s).
Proof.
  intros Hs. unfold handle_tx_byte. cbv zeta.
  set (s1 := clear_lsr lsr_tx_idle (s <| thr := v |>)).
  assert (H1 : rx_ok s1) by (apply (rx_ok_view s); [exact (tx_busy_view (s <| thr := v |>))|done]).
  destruct (has (mcr s1) 0x10); [by apply rx_ok_update, rx_ok_transmit|].
  destruct (_ || _); [|by apply rx_ok_update, rx_ok_transmit].
  set (s2 := s1 <| terminal_query := _ |>). assert (H2 : rx_ok s2) by (by apply (rx_ok_view s1)).
  destruct (is_prefix _ _); apply rx_ok_transmitted.
  - case_bool_decide; [|done]. apply (rx_ok_view (answer_query s2)); [done|by apply rx_ok_answer].
  - apply (rx_ok_view s2); [exact (view_emit (terminal_query s2) s2)|done].
Qed.

Lemma rx_ok_write off v s : rx_ok s -> rx_ok (write off v s).
Proof.
  intros Hs. unfold write.
  destruct (off =? 0); [destruct (has _ _); [by apply (rx_ok_view s)|by apply rx_ok_tx]|].
  destruct (off =? 1).
  { destruct (has _ 0x80); [by apply (rx_ok_view s)|]. unfold write_ier. apply rx_ok_update. cbv zeta.
    destruct (has _ kIerThri); by apply (rx_ok_view s). }
  destruct (off =? 2).
  { unfold write_fcr. apply rx_ok_update. cbv zeta. set (s1 := s <| fcr := _ |>).
    assert (H1 : rx_ok (if has v kFcrClearRx then clear_rx_locked s1 else drain_rx_staging_locked s1)).
    { destruct (has v kFcrClearRx).
      - constructor; [by left|done|done].
      - apply rx_ok_drain; apply Hs. }
    destruct (has v kFcrClearTx); [|done]. eapply rx_ok_view; [apply clear_tx_view|exact H1]. }
  destruct (off =? 3).
  { unfold write_lcr. apply rx_ok_update. cbv zeta. destruct (_ && _); [|by apply (rx_ok_view s)].
    destruct Hs as [Hset Hff Hst]. constructor; try done. unfold settled in *.
    destruct Hset as [?|Hset]; [by left|right]. unfold set_lsr. cbn [lsr fcr rx_fifo upd_field].
    change (fifo_enabled_locked _) with (fifo_enabled_locked s). destruct (fifo_enabled_locked s); [done|].
    by rewrite has_lor, orb_true_r. }
  destruct (off =? 4); [unfold write_mcr; apply rx_ok_update; by apply (rx_ok_view s)|].
  destruct (off =? 7); [by apply (rx_ok_view s)|done].
Qed.

Lemma rx_ok_read off s : rx_ok s -> rx_ok (read off s).2.
Proof.
  intros Hs. unfold read. cbv zeta. destruct (off =? 0).
  { destruct (has _ _); [done|]. pose proof (read_rbr_spec s Hs) as H. destruct (read_rbr s) as [v s1]; apply H. }
  destruct (off =? 1); [done|].
  destruct (off =? 2); [destruct (_ =? 2); [by apply rx_ok_update, (rx_ok_view s)|done]|].
  destruct (off =? 3); [done|]. destruct (off =? 4); [done|].
  destruct (off =? 5).
  { cbn [snd]. destruct (has _ _); [|done]. apply rx_ok_update. by apply (rx_ok_view s); [apply errors_view|]. }
  destruct (off =? 6); [by apply rx_ok_update, (rx_ok_view s)|]. by destruct (off =? 7).
Qed.

(** ** The identification register *)

Definition iir_current (s : Uart) : Prop := iir s = (identify s).1.

Lemma identify_update s : identify (update_interrupt_locked s) = identify s.
Proof.
  unfold update_interrupt_locked. destruct (identify s) as [id raise] eqn:E.
  destruct (raise && _); by rewrite <- E.
Qed.
Lemma current_update s : iir_current (update_interrupt_locked s).
Proof.
  unfold iir_current. rewrite identify_update. unfold update_interrupt_locked.
  destruct (identify s). by destruct (_ && _).
Qed.

Lemma current_emit bytes s : iir_current s -> iir_current (emit_tx_locked bytes s).
Proof.
  intros Hs. unfold emit_tx_locked, track_console_markers, write_stdout. destruct (bool_decide _); [done|].
  destruct (fold_left (track_marker kHalted) _ _), (fold_left (track_marker kRestarting) _ _).
  cbv zeta. destruct (echo_stdout _); [|done]. by destruct (NormalizeCrlf bytes _).
Qed.

Lemma current_enqueue data s : iir_current s -> iir_current (enqueue_rx_locked data s).2.
Proof.
  intros Hs. unfold enqueue_rx_locked. case_bool_decide; [done|]. destruct (push_rx data s).
  apply current_update.
Qed.

Lemma current_tx v s : iir_current (handle_tx_byte v s).
Proof.
  unfold handle_tx_byte, transmitted. cbv zeta. destruct (has _ 0x10); [apply current_update|].
  destruct (_ || _); [|apply current_update]. destruct (is_prefix _ _); apply current_update.
Qed.

Lemma current_write off v s : iir_current s -> iir_current (write off v s).
Proof.
  intros Hs. unfold write.
  destruct (off =? 0); [destruct (has _ _); [done|apply current_tx]|].
  destruct (off =? 1); [destruct (has _ _); [done|apply current_update]|].
  destruct (off =? 2); [apply current_update|]. destruct (off =? 3); [apply current_update|].
  destruct (off =? 4); [apply current_update|]. by destruct (off =? 7).
Qed.

Lemma current_read off s : iir_current s -> iir_current (read off s).2.
Proof.
  intros Hs. unfold read. cbv zeta. destruct (off =? 0).
  { destruct (has _ _); [done|]. destruct (read_rbr_pop s) as (s1 & _ & ->). apply current_update. }
  destruct (off =? 1); [done|].
  destruct (off =? 2); [destruct (_ =? 2); [apply current_update|done]|].
  destruct (off =? 3); [done|]. destruct (off =? 4); [done|].
  destruct (off =? 5); [cbn [snd]; destruct (has _ _); [apply current_update|done]|].
  destruct (off =? 6); [apply current_update|]. by destruct (off =? 7).
Qed.

(** ** Reachable states *)

Inductive uart_history (s0 : Uart) : Uart -> Prop :=
  | uart_start : uart_history s0 s0
  | uart_attach s : uart_history s0 s -> uart_history s0 (attach_irq_raiser s)
  | uart_write s off v : uart_history s0 s -> uart_history s0 (write off v s)
  | uart_read s off : uart_history s0 s -> uart_history s0 (read off s).2
  | uart_emit s data : uart_history s0 s -> uart_history s0 (emit_bytes data s)
  | uart_enqueue s data : uart_history s0 s -> uart_history s0 (enqueue_rx data s).2.

Lemma uart_new_ok l e c p cur : rx_ok (Uart_new l e c p cur) /\ iir_current (Uart_new l e c p cur).
Proof. split; [|done]. constructor; [by left|done|done]. Qed.

Lemma uart_history_ok s0 s :
  rx_ok s0 /\ iir_current s0 -> uart_history s0 s -> rx_ok s /\ iir_current s.
Proof.
  intros H0. induction 1 as [|s _ [H1 H2]|s off v _ [H1 H2]|s off _ [H1 H2]|s data _ [H1 H2]|s data _ [H1 H2]].
  - done.
  - split; [by apply (rx_ok_view s)|done].
  - split; [by apply rx_ok_write|by apply current_write].
  - split; [by apply rx_ok_read|by apply current_read].
  - split; [by apply (rx_ok_view s); [apply view_emit|]|by apply current_emit].
  - split; [by apply rx_ok_enqueue|by apply current_enqueue].
Qed.

(** The receive path is a bounded queue, in both FIFO modes and after any traffic:
    bytes from the host join its end, as many as fit in the capacity of 4096 with an
    overrun flagged for the others, and a read of the receive buffer takes its head. *)
Theorem uart_rx_queue l e c p cur s :
  uart_history (Uart_new l e c p cur) s ->
  (forall data, let '(n, s') := enqueue_rx data s in
     n = Z.min (size data) (Z.max 0 (kRxCapacity - size (rxq s))) /\
     rxq s' = rxq s ++ take (Z.to_nat n) data /\
     (n < size data -> has (lsr s') kLsrOe = true)) /\
  (has (lcr s) 0x80 = false ->
     let '(v, s') := read 0 s in v = hd 0 (rxq s) /\ rxq s' = tl (rxq s)).
Proof.
  intros Hh. destruct (uart_history_ok _ _ (uart_new_ok l e c p cur) Hh) as [Hs _]. split.
  - intros data. pose proof (enqueue_spec data s Hs) as H. unfold enqueue_rx.
    destruct (enqueue_rx_locked data s). tauto.
  - intros Hd. unfold read. rewrite Hd. pose proof (read_rbr_spec s Hs) as H. cbn.
    destruct (read_rbr s). tauto.
Qed.

(** The identification register is never stale: in every reachable state it names
    the highest-priority pending source, so a read of it tells the truth; and reading
    the identification of a transmit interrupt acknowledges it. *)
Theorem uart_iir_current l e c p cur s :
  uart_history (Uart_new l e c p cur) s ->
  (read 2 s).1 = Z.lor (iir_fifo_bits_locked s) (identify s).1 /\
  ((identify s).1 = 2 -> let s' := (read 2 s).2 in thr_ipending s' = false /\ (identify s').1 <> 2).
Proof.
  intros Hh. destruct (uart_history_ok _ _ (uart_new_ok l e c p cur) Hh) as [_ Hi]. split.
  - rewrite <- Hi. unfold read. cbn [Z.eqb Pos.eqb]. by destruct (_ =? 0x02).
  - intros E s'.
    assert (Hs' : s' = update_interrupt_locked (s <| thr_ipending := false |>))
      by (unfold s', read; cbn [Z.eqb Pos.eqb]; by rewrite Hi, E).
    rewrite Hs', identify_update. split.
    + unfold update_interrupt_locked. destruct (identify (s <| thr_ipending := false |>)) as [id [|]]; [|done].
      by destruct (has_irq_raiser _).
    + unfold identify. cbn [thr_ipending upd_field]. rewrite andb_false_r. cbn [andb].
      repeat (match goal with |- context [if ?b then _ else _] => destruct b end); done.
Qed.

(** ** The shutdown markers *)

(** [back n] of [AdvanceMatch], as the largest usable position. *)
Lemma advance_spec pattern m byte : 0 <= m ->
  0 <= AdvanceMatch pattern m byte <= m + 1 /\
  forall j, 0 <= j <= m -> at_ pattern j = byte -> j + 1 <= AdvanceMatch pattern m byte.
Proof.
  intros Hm. unfold AdvanceMatch. set (back := fix back (n : nat) : nat := _).
  assert (Hb : forall n, (back n <= n)%nat /\
            forall j, (j <= n)%nat -> at_ pattern (Z.of_nat j) = byte -> (j <= back n)%nat).
  { induction n as [|n [IH1 IH2]]; cbn [back].
    - split; [lia|]. intros j Hj _. lia.
    - destruct (Z.eqb_spec byte (at_ pattern (Z.of_nat (S n)))) as [|Hne]; [split; [lia|]; intros; lia|].
      split; [lia|]. intros j Hj Hat. destruct (decide (j = S n)) as [->|]; [congruence|]. apply IH2; [lia|done]. }
  destruct (Hb (Z.to_nat m)) as [H1 H2]. cbv zeta. set (k := back (Z.to_nat m)) in *. clearbody k.
  split.
  - destruct (_ =? _); lia.
  - intros j Hj Hat. pose proof (H2 (Z.to_nat j) ltac:(lia) ltac:(by rewrite Z2Nat.id by lia)) as Hjk.
    destruct (Z.eqb_spec byte (at_ pattern (Z.of_nat k))) as [|Hne]; [lia|].
    destruct (decide (Z.to_nat j = k)) as [<-|]; [rewrite Z2Nat.id in Hne by lia; congruence|lia].
Qed.

(** The position of the matcher is at least every prefix of the marker the text ends with. *)
Definition covers (pattern : list Z) (m : Z) (text : list Z) : Prop :=
  0 <= m < size pattern /\
  forall k pre, 0 <= k <= size pattern -> text = pre ++ take (Z.to_nat k) pattern -> k <= m.

Definition tracked (pattern : list Z) (text : list Z) (st : Z * bool) : Prop :=
  st.2 = true \/ covers pattern st.1 text.

Lemma track_step pattern text st byte :
  tracked pattern text st -> tracked pattern (text ++ [byte]) (track_marker pattern st byte).
Proof.
  destruct st as [m seen]. unfold tracked, track_marker. cbn [fst snd].
  destruct seen; [by left|]. intros [[=]|[Hm Hc]]. destruct (advance_spec pattern m byte ltac:(lia)) as [Hr Ha].
  set (m' := AdvanceMatch pattern m byte) in *. clearbody m'.
  destruct (Z.eqb_spec m' (size pattern)) as [|Hne]; [by left|right]. cbn [fst]. split; [lia|].
  intros k pre Hk Heq. destruct (decide (k = 0)) as [->|Hk0]; [lia|].
  rewrite <- (Z.succ_pred k), <- Z.add_1_r, substr_snoc, app_assoc in Heq by lia.
  apply app_inj_tail in Heq as [Heq Hbyte].
  assert (Hk' : Z.pred k <= m) by (apply (Hc _ pre); [lia|done]).
  pose proof (Ha (Z.pred k) ltac:(lia) ltac:(done)). lia.
Qed.

Lemma track_text pattern chunk text st :
  tracked pattern text st -> tracked pattern (text ++ chunk) (fold_left (track_marker pattern) chunk st).
Proof.
  revert text st. induction chunk as [|b chunk IH]; intros text st H; [by rewrite app_nil_r|].
  cbn [fold_left]. replace (text ++ b :: chunk) with ((text ++ [b]) ++ chunk) by (by rewrite <- app_assoc).
  by apply IH, track_step.
Qed.

Lemma track_seen pattern chunk m : fold_left (track_marker pattern) chunk (m, true) = (m, true).
Proof. by induction chunk. Qed.

(** A text that contains the marker sets the flag, wherever it is cut into chunks. *)
Lemma track_found pattern pre post st :
  0 < size pattern -> tracked pattern [] st ->
  (fold_left (track_marker pattern) (pre ++ pattern ++ post) st).2 = true.
Proof.
  intros Hp H. rewrite app_assoc, fold_left_app. pose proof (track_text pattern (pre ++ pattern) [] st H) as Ht.
  destruct (fold_left _ (pre ++ pattern) st) as [m seen]. destruct Ht as [Hs|[Hm Hc]]; cbn [fst snd] in *.
  - subst seen. by rewrite track_seen.
  - specialize (Hc (size pattern) pre ltac:(lia)). unfold size in Hc at 1. rewrite Nat2Z.id, take_ge in Hc by done.
    cbn [app] in Hc. specialize (Hc eq_refl). lia.
Qed.

Lemma emit_tracks bytes s :
  let s' := emit_bytes bytes s in
  (halted_match s', halted_seen s') = fold_left (track_marker kHalted) bytes (halted_match s, halted_seen s) /\
  (restarting_match s', restarting_seen s') =
    fold_left (track_marker kRestarting) bytes (restarting_match s, restarting_seen s).
Proof.
  unfold emit_bytes, emit_tx_locked, track_console_markers, write_stdout. case_bool_decide as Hb; [by subst|].
  destruct (fold_left (track_marker kHalted) _ _), (fold_left (track_marker kRestarting) _ _).
  cbv zeta. destruct (echo_stdout _); [|done]. by destruct (NormalizeCrlf bytes _).
Qed.

Lemma emit_all_tracks chunks : forall s,
  let s' := fold_left (fun s bytes => emit_bytes bytes s) chunks s in
  (halted_match s', halted_seen s') =
    fold_left (track_marker kHalted) (concat chunks) (halted_match s, halted_seen s) /\
  (restarting_match s', restarting_seen s') =
    fold_left (track_marker kRestarting) (concat chunks) (restarting_match s, restarting_seen s).
Proof.
  induction chunks as [|c chunks IH]; intros s; [done|]. cbn [concat fold_left].
  rewrite !fold_left_app. destruct (emit_tracks c s) as [<- <-]. apply IH.
Qed.

Lemma contains_halted s : contains kHalted s = halted_seen s.
Proof. unfold contains. by rewrite bool_decide_eq_true_2. Qed.
Lemma contains_restarting s : contains kRestarting s = restarting_seen s.
Proof. unfold contains. by rewrite bool_decide_eq_false_2, bool_decide_eq_true_2. Qed.

Definition emit_all (chunks : list (list Z)) (s : Uart) : Uart :=
  fold_left (fun s bytes => emit_bytes bytes s) chunks s.

Lemma emit_all_seen chunks s :
  halted_seen (emit_all chunks s) =
    (fold_left (track_marker kHalted) (concat chunks) (halted_match s, halted_seen s)).2 /\
  restarting_seen (emit_all chunks s) =
    (fold_left (track_marker kRestarting) (concat chunks) (restarting_match s, restarting_seen s)).2.
Proof. destruct (emit_all_tracks chunks s) as [<- <-]. done. Qed.

Lemma nothing_tracked pattern : 0 < size pattern -> tracked pattern [] (0, false).
Proof.
  intros Hp. right. split; [cbn; lia|]. intros k q Hk Heq. destruct q; [|done].
  apply (f_equal length) in Heq. rewrite length_app, length_take in Heq. unfold size in *. cbn in *. lia.
Qed.

(** The shutdown markers: however the guest's output is cut into writes, and also
    when the captured console is full, an output that contains "reboot: System halted"
    or "Restarting system" is recognised.  The converse fails: the matcher also accepts
    outputs that do not contain the marker, such as "rebooot: System halted". *)
Theorem uart_shutdown_markers lim e c p cur pre post chunks :
  let out := emit_all chunks (Uart_new lim e c p cur) in
  (concat chunks = pre ++ kHalted ++ post -> contains kHalted out = true) /\
  (concat chunks = pre ++ kRestarting ++ post -> contains kRestarting out = true) /\
  let text := take 4 kHalted ++ [111] ++ drop 4 kHalted in
  find_in kHalted text = false /\ contains kHalted (emit_all [text] (Uart_new lim e c p cur)) = true.
Proof.
  intros out. split; [|split].
  - intros Heq. unfold out. rewrite contains_halted, (proj1 (emit_all_seen _ _)), Heq.
    by apply track_found; [|apply nothing_tracked].
  - intros Heq. unfold out. rewrite contains_restarting, (proj2 (emit_all_seen _ _)), Heq.
    by apply track_found; [|apply nothing_tracked].
  - split; [by vm_compute|]. rewrite contains_halted, (proj1 (emit_all_seen _ _)). by vm_compute.
Qed.

(** ** A port with FIFOs on, fed three bytes *)
Module Demo.
Definition s0 : Uart := Uart_new 1048576 true false false (fun _ => None).
Definition s1 : Uart := write 2 0x01 s0.

Lemma uart_s1_history : uart_history s0 s1.
Proof. apply uart_write, uart_start. Qed.

Lemma uart_rx_queue_witness :
  let s := (enqueue_rx [104; 105; 10] s1).2 in (read 0 s).1 = 104 /\ rxq (read 0 s).2 = [105; 10].
Proof.
  intros s. assert (Hs : uart_history s0 s) by (apply uart_enqueue, uart_s1_history).
  destruct (uart_rx_queue _ _ _ _ _ s Hs) as [_ H]. specialize (H eq_refl).
  destruct (read 0 s) as [v s']. destruct H as [Hv Hq]. cbn [fst snd]. rewrite Hv, Hq. split; reflexivity.
Defined.

Lemma uart_iir_current_witness :
  (read 2 (write 1 0x02 s1)).1 = 0xC2 /\ thr_ipending (read 2 (write 1 0x02 s1)).2 = false.
Proof.
  assert (Hs : uart_history s0 (write 1 0x02 s1)) by (apply uart_write, uart_s1_history).
  destruct (uart_iir_current _ _ _ _ _ _ Hs) as [-> H]. split; [reflexivity|]. apply H. reflexivity.
Defined.

Lemma uart_shutdown_markers_witness :
  contains kRestarting (emit_all
    [take 7 kRestarting; drop 7 kRestarting ++ [10]] s0) = true.
Proof.
  destruct (uart_shutdown_markers 1048576 true false false (fun _ => None) [] [10]
    [take 7 kRestarting; drop 7 kRestarting ++ [10]]) as (_ & H & _).
  apply H. reflexivity.
Defined.
End Demo.
