(* ===== verification/Board.v ===== *)
(** * native/whp/backend.cc: the fixed addresses and lines of the board

    One definition for the code that describes the machine to the guest (Acpi) and the
    code that decodes the guest's accesses (Machine). *)

From S2P Require Import Prelude Words Bytes.

Definition kVirtioMmioBase : Z := 0xD0000000.
Definition kVirtioStride : Z := 0x200.
Definition kIoApicBase : Z := 0xFEC00000.
Definition kIoApicSize : Z := 0x1000.
Definition kHpetBase : Z := 0xFED00000.
Definition kHpetSize : Z := 0x400.
Definition kVirtioMmioIrqBase : Z := 5.
Definition kMaxIoApicPins : Z := 24.
Definition kPitIoApicPin : Z := 2.
Definition kCom1Base : Z := 0x3F8.
Definition kAcpiPmTimerPort : Z := 0x408.
Definition kCom1IRQ : Z := 4.
Definition kNodeVmmExitPort : Z := 0x501.
Definition kNodeVmmConsolePort : Z := 0x600.
Definition kKernelCmdlineMax : Z := 2048.
Definition kMaxVcpus : Z := 64.

(** No 32-bit index makes the 64-bit address overflow. *)
Definition VirtioMmioBase (index : Z) : Z := kVirtioMmioBase + index * kVirtioStride.
Definition VirtioMmioIrq (index : Z) : Z := u32 (kVirtioMmioIrqBase + index).

Definition CheckVirtioMmioDeviceCount (count : Z) : outcome unit :=
  Check (0 <? count) "at least one virtio-mmio device is required" ≫= fun _ =>
  Check (u64 (kVirtioMmioIrqBase + count - 1) <? kMaxIoApicPins) "too many virtio-mmio devices".
