(* ===== verification/Acpi.v ===== *)
(** * native/whp/backend.cc: the ACPI tables

    The AML encoders, the DSDT with one device per virtio-mmio window, the fixed tables
    and their placement between 640 KiB and the RSDP.  The specification side is a
    reader of the same bytes: an AML parser for the constructs in use, and the walk an
    operating system makes from the RSDP.  The theorems: package lengths round-trip,
    the DSDT parses to exactly the machine's devices, and the walk finds every table
    with a correct checksum. *)

From S2P Require Import Prelude Words Bytes GuestMemory Board BootParams.
From S2P Require Hpet IoApic PmTimer.

(** A decimal digit. *)
Definition digit (d : Z) : ascii := ascii_of_N (Z.to_N (48 + d)).

(** ["V%03u"] *)
Definition VirtioMmioDeviceName (index : Z) : outcome string :=
  Check (index <=? 999) "too many virtio-mmio devices" ≫= fun _ =>
  Ok (String "V" (String (digit (index / 100)) (String (digit (index / 10 mod 10))
     (String (digit (index mod 10)) EmptyString)))).

(** ** AML encoders *)

Definition AlignUp (value align : Z) : Z := Z.land (u64 (value + align - 1)) (bnot 64 (align - 1)).

Definition AppendPkgLength (payload_len : Z) (include_self : bool) : list Z :=
  let length_len :=
    if Z.shiftl 1 20 - 3 <=? payload_len then 4
    else if Z.shiftl 1 12 - 2 <=? payload_len then 3
    else if Z.shiftl 1 6 - 1 <=? payload_len then 2 else 1 in
  let length := payload_len + (if include_self then length_len else 0) in
  let lead c := u8 (Z.lor (Z.shiftl c 6) (Z.land length 0x0F)) in
  let next k := u8 (Z.land (Z.shiftr length k) 0xFF) in
  if length_len =? 1 then [u8 length]
  else if length_len =? 2 then [lead 1; next 4]
  else if length_len =? 3 then [lead 2; next 4; next 12]
  else [lead 3; next 4; next 12; next 20].

(** The parts between dots. *)
Fixpoint split_dots (part : string) (s : string) : list string :=
  match s with
  | EmptyString => [part]
  | String c s =>
      if Ascii.eqb c "." then part :: split_dots EmptyString s
      else split_dots (String.append part (String c EmptyString)) s
  end.

Definition EncodePath (name : string) : outcome (list Z) :=
  let root := match name with String "\" _ => true | _ => false end in
  let name := match name with String "\" rest => rest | _ => name end in
  let parts := split_dots EmptyString name in
  collect (fun part => Check (String.length part =? 4)%nat
    ("AML path part must be four characters: " ++ part) ≫= fun _ => Ok part) parts ≫= fun parts =>
  let n := Z.of_nat (length parts) in
  let prefix := if n =? 2 then [0x2E] else if 2 <? n then [0x2F; u8 n] else [] in
  Ok ((if root then [92] else []) ++ prefix ++ concat (map ascii_bytes parts)).

Definition EncodeString (value : string) : list Z := [0x0D] ++ ascii_bytes value ++ [0].
Definition EncodeByte (value : Z) : list Z := [0x0A; value].
Definition EncodeWord (value : Z) : list Z := put [0x0B; 0; 0] 1 (WriteU16 value).
Definition EncodeDword (value : Z) : list Z := put [0x0C; 0; 0; 0; 0] 1 (WriteU32 value).

Definition EncodeInteger (value : Z) : list Z :=
  if value =? 0 then [0x00]
  else if value =? 1 then [0x01]
  else if value <=? 0xFF then EncodeByte (u8 value)
  else if value <=? 0xFFFF then EncodeWord (u16 value)
  else if value <=? 0xFFFFFFFF then EncodeDword (u32 value)
  else put [0x0E; 0; 0; 0; 0; 0; 0; 0; 0] 1 (WriteU64 value).

Definition AppendName (path : string) (value : list Z) : outcome (list Z) :=
  EncodePath path ≫= fun path_bytes => Ok ([0x08] ++ path_bytes ++ value).

Definition ResMemory32Fixed (read_write : bool) (base length : Z) : list Z :=
  let out := repeat 0 12 in
  let out := put out 0 [0x86] in
  let out := put out 1 (WriteU16 9) in
  let out := put out 3 [if read_write then 1 else 0] in
  let out := put out 4 (WriteU32 base) in
  put out 8 (WriteU32 length).

Definition ResInterrupt (consumer edge_triggered active_low shared : bool) (number : Z) : list Z :=
  let out := repeat 0 9 in
  let out := put out 0 [0x89] in
  let out := put out 1 (WriteU16 6) in
  let flags := 0 in
  let flags := if shared then Z.lor flags (Z.shiftl 1 3) else flags in
  let flags := if active_low then Z.lor flags (Z.shiftl 1 2) else flags in
  let flags := if edge_triggered then Z.lor flags (Z.shiftl 1 1) else flags in
  let flags := if consumer then Z.lor flags 1 else flags in
  let out := put out 3 [flags] in
  let out := put out 4 [1] in
  put out 5 (WriteU32 number).

Definition ResIoPort (base length : Z) : list Z :=
  let out := repeat 0 8 in
  let out := put out 0 [0x47] in
  let out := put out 1 [0x01] in
  let out := put out 2 (WriteU16 base) in
  let out := put out 4 (WriteU16 base) in
  let out := put out 6 [0x01] in
  put out 7 [length].

Definition BuildResourceTemplate (resources : list (list Z)) : list Z :=
  let payload := concat resources ++ [0x79; 0x00] in
  let tmp := EncodeInteger (Z.of_nat (length payload)) ++ payload in
  [0x11] ++ AppendPkgLength (Z.of_nat (length tmp)) true ++ tmp.

Definition AppendDevice (name : string) (children : list (list Z)) : outcome (list Z) :=
  EncodePath name ≫= fun path =>
  let payload := path ++ concat children in
  Ok ([0x5B; 0x82] ++ AppendPkgLength (Z.of_nat (length payload)) true ++ payload).

Definition AppendScope (name : string) (children : list (list Z)) : outcome (list Z) :=
  EncodePath name ≫= fun path =>
  let payload := path ++ concat children in
  Ok ([0x10] ++ AppendPkgLength (Z.of_nat (length payload)) true ++ payload).

(** ** The DSDT *)

Definition BuildVirtioMmioDevice (name : string) (uid base irq : Z) : outcome (list Z) :=
  AppendName "_HID" (EncodeString "LNRO0005") ≫= fun hid =>
  AppendName "_UID" (EncodeInteger uid) ≫= fun uid =>
  AppendName "_CCA" [0x01] ≫= fun cca =>
  AppendName "_CRS" (BuildResourceTemplate
    [ResMemory32Fixed true (u32 base) (u32 kVirtioStride); ResInterrupt true true false false irq]) ≫= fun crs =>
  AppendDevice name [hid; uid; cca; crs].

Definition BuildHpetDevice : outcome (list Z) :=
  AppendName "_HID" (EncodeString "PNP0103") ≫= fun hid =>
  AppendName "_UID" (EncodeInteger 0) ≫= fun uid =>
  AppendName "_CRS" (BuildResourceTemplate
    [ResMemory32Fixed false (u32 kHpetBase) (u32 kHpetSize)]) ≫= fun crs =>
  AppendDevice "HPET" [hid; uid; crs].

Definition BuildCom1Device : outcome (list Z) :=
  AppendName "_HID" (EncodeString "PNP0501") ≫= fun hid =>
  AppendName "_UID" (EncodeInteger 0) ≫= fun uid =>
  AppendName "_CRS" (BuildResourceTemplate
    [ResIoPort kCom1Base 8; ResInterrupt true true false false kCom1IRQ]) ≫= fun crs =>
  AppendDevice "COM1" [hid; uid; crs].

Definition virtio_device (index : Z) : outcome (list Z) :=
  VirtioMmioDeviceName index ≫= fun name =>
  BuildVirtioMmioDevice name index (VirtioMmioBase index) (VirtioMmioIrq index).

Definition BuildDsdtBody (network_enabled : bool) (disk_count : Z) : outcome (list Z) :=
  let rng_index := u32 (disk_count + 1) in
  CheckVirtioMmioDeviceCount (u32 (rng_index + 1)) ≫= fun _ =>
  BuildHpetDevice ≫= fun hpet =>
  BuildCom1Device ≫= fun com1 =>
  collect virtio_device (seqZ 0 disk_count) ≫= fun disks =>
  virtio_device rng_index ≫= fun rng =>
  (if network_enabled then virtio_device disk_count ≫= fun net => Ok [net] else Ok []) ≫= fun net =>
  AppendScope "\_SB_" ([hpet; com1] ++ disks ++ [rng] ++ net).

(** ** The tables *)

Definition TableChecksum (table : list Z) : Z :=
  let sum := fold_left (fun sum b => u8 (sum + b)) table 0 in u8 (bnot 32 sum + 1).

Definition BuildSdtHeader (sig : string) (len rev : Z) (table_id : string) : list Z :=
  let out := repeat 0 36 in
  let out := put out 0 (ascii_bytes sig) in
  let out := put out 4 (WriteU32 len) in
  let out := put out 8 [rev] in
  let out := put out 10 (ascii_bytes "GOCRKR") in
  let out := put out 16 (ascii_bytes table_id) in
  let out := put out 28 (WriteU32 0x47434154) in
  put out 32 (WriteU32 0x20260402).

Definition FinalizeSdt (table : list Z) : list Z :=
  let table := put table 9 [0] in put table 9 [TableChecksum table].

Definition BuildDsdtTable (network_enabled : bool) (disk_count : Z) : outcome (list Z) :=
  BuildDsdtBody network_enabled disk_count ≫= fun body =>
  Ok (FinalizeSdt (BuildSdtHeader "DSDT" (u32 (36 + Z.of_nat (length body))) 2 "GCDSDT01" ++ body)).

Definition BuildHpetTable : list Z :=
  let out := BuildSdtHeader "HPET" 56 1 "GCHPET01" ++ repeat 0 20 in
  let out := put out 36 (WriteU32 0x8086A201) in
  let out := put out 40 [0; 0; 0; 0] in
  let out := put out 44 (WriteU64 kHpetBase) in
  let out := put out 52 [0] in
  let out := put out 53 (WriteU16 0) in
  let out := put out 55 [0] in
  FinalizeSdt out.

Definition BuildFadt (dsdt_addr : Z) : list Z :=
  let out := repeat 0 276 in
  let out := put out 0 (BuildSdtHeader "FACP" 276 6 "GCFADT01") in
  let out := put out 40 (WriteU32 (u32 dsdt_addr)) in
  let out := put out 76 (WriteU32 kAcpiPmTimerPort) in
  let out := put out 91 [4] in
  let out := put out 108 [0x32] in
  let out := put out 109 (WriteU16 (Z.shiftl 1 2)) in
  let out := put out 112 (WriteU32 (Z.lor (Z.lor (Z.lor (Z.shiftl 1 20) (Z.shiftl 1 8)) (Z.shiftl 1 4)) (Z.shiftl 1 5))) in
  let out := put out 131 [5] in
  let out := put out 140 (WriteU64 dsdt_addr) in
  let out := put out 208 [1] in
  let out := put out 209 [32] in
  let out := put out 210 [0] in
  let out := put out 211 [3] in
  let out := put out 212 (WriteU64 kAcpiPmTimerPort) in
  let out := put out 268 (ascii_bytes "GOCRKVM ") in
  FinalizeSdt out.

Definition lapic_entry (i : Z) : list Z := [0; 8; u8 i; u8 i] ++ WriteU32 1.

Definition BuildMadt (cpus : Z) : list Z :=
  let body := repeat 0 (Z.to_nat (8 + 12 + 10 + cpus * 8)) in
  let body := put body 0 (WriteU32 0xFEE00000) in
  let body := put body 4 (WriteU32 1) in
  let body := put body 8 [1] in
  let body := put body 9 [12] in
  let body := put body 12 (WriteU32 0xFEC00000) in
  let body := put body 20 [2; 10; 0; 0] in
  let body := put body 24 (WriteU32 kPitIoApicPin) in
  let body := put body 28 (WriteU16 0) in
  let body := fold_left (fun body i => put body (Z.to_nat (30 + i * 8)) (lapic_entry i)) (seqZ 0 cpus) body in
  FinalizeSdt (BuildSdtHeader "APIC" (u32 (36 + Z.of_nat (length body))) 6 "GCMADT01" ++ body).

Definition BuildRsdt (addrs : list Z) : list Z :=
  let body := concat (map (fun a => WriteU32 (u32 a)) addrs) in
  FinalizeSdt (BuildSdtHeader "RSDT" (u32 (36 + Z.of_nat (length body))) 1 "GCRSDT01" ++ body).

Definition BuildXsdt (addrs : list Z) : list Z :=
  let body := concat (map WriteU64 addrs) in
  FinalizeSdt (BuildSdtHeader "XSDT" (u32 (36 + Z.of_nat (length body))) 1 "GCXSDT01" ++ body).

Definition BuildRsdp (rsdt_addr xsdt_addr : Z) : list Z :=
  let out := repeat 0 36 in
  let out := put out 0 (ascii_bytes "RSD PTR ") in
  let out := put out 9 (ascii_bytes "GOCRKR") in
  let out := put out 15 [2] in
  let out := put out 16 (WriteU32 (u32 rsdt_addr)) in
  let out := put out 20 (WriteU32 36) in
  let out := put out 24 (WriteU64 xsdt_addr) in
  let out := put out 8 [TableChecksum (take 20 out)] in
  put out 32 [TableChecksum out].

(** ** Placement *)

Definition rsdp_addr : Z := 0x000E0000.

(** The lambda [write_table], on guest memory and the cursor it captures. *)
Definition write_table (mem_size : Z) (table : list Z) : M (ram * Z) Z :=
  modify (fun '(m, cursor) => (m, AlignUp cursor 8)) ≫= fun _ =>
  gets snd ≫= fun addr =>
  let n := Z.of_nat (length table) in
  lift (CheckRange mem_size addr n "ACPI table") ≫= fun _ =>
  modify (fun '(m, cursor) => (store m addr table, u64 (cursor + n))) ≫= fun _ =>
  gets snd ≫= fun cursor =>
  lift (Check (cursor <? rsdp_addr) "ACPI tables overflow low memory") ≫= fun _ =>
  mret addr.

Definition CreateAcpiTables (mem_size : Z) (network_enabled : bool) (cpus disk_count : Z) : M ram Z := fun m =>
  let '(o, (m, _)) :=
    (lift (BuildDsdtTable network_enabled disk_count) ≫= fun dsdt =>
     write_table mem_size dsdt ≫= fun dsdt_addr =>
     write_table mem_size (BuildFadt dsdt_addr) ≫= fun fadt_addr =>
     write_table mem_size (BuildMadt cpus) ≫= fun madt_addr =>
     write_table mem_size BuildHpetTable ≫= fun hpet_addr =>
     write_table mem_size (BuildRsdt [fadt_addr; madt_addr; hpet_addr]) ≫= fun rsdt_addr =>
     write_table mem_size (BuildXsdt [fadt_addr; madt_addr; hpet_addr]) ≫= fun xsdt_addr =>
     let rsdp := BuildRsdp rsdt_addr xsdt_addr in
     lift (CheckRange mem_size rsdp_addr (Z.of_nat (length rsdp)) "RSDP") ≫= fun _ =>
     modify (fun '(m, cursor) => (store m rsdp_addr rsdp, cursor)) ≫= fun _ =>
     mret rsdp_addr) (m, 0x000A0000) in
  (o, m).

(** ** Reading AML back *)

(** A package length: the lead byte's top two bits count the bytes that follow. *)
Definition pkg_length (bs : list Z) : option (Z * list Z) :=
  match bs with
  | [] => None
  | lead :: rest =>
      let k := Z.to_nat (lead / 64) in
      if (length rest <? k)%nat then None
      else Some (if lead <? 64 then lead else lead mod 16 + 16 * le_num (take k rest), drop k rest)
  end.

Inductive resource :=
  | Memory32 (writable : bool) (base size : Z)
  | ExtInterrupt (consumer edge low shared : bool) (lines : list Z)
  | IoPorts (min max align size : Z).

(** The constructs of the tables' AML: a path is a root flag and its segments. *)
Definition path : Type := bool * list (list Z).
#[warnings="-register-all"]
Inductive aml :=
  | AmlInt (v : Z)
  | AmlStr (s : list Z)
  | AmlResources (l : list resource)
  | AmlName (p : path) (value : aml)
  | AmlDevice (p : path) (children : list aml)
  | AmlScope (p : path) (children : list aml).

Fixpoint parse_segs (n : nat) (bs : list Z) : option (list (list Z) * list Z) :=
  match n, bs with
  | O, _ => Some ([], bs)
  | S n, a :: b :: c :: d :: rest =>
      '(segs, rest) ← parse_segs n rest; Some ([a; b; c; d] :: segs, rest)
  | _, _ => None
  end.

Definition parse_path (bs : list Z) : option (path * list Z) :=
  let '(root, bs) := match bs with 92 :: rest => (true, rest) | _ => (false, bs) end in
  let '(n, bs) := match bs with
    | 0x2E :: rest => (2%nat, rest)
    | 0x2F :: n :: rest => (Z.to_nat n, rest)
    | _ => (1%nat, bs) end in
  '(segs, rest) ← parse_segs n bs; Some ((root, segs), rest).

Fixpoint parse_resources (fuel : nat) (bs : list Z) : option (list resource) :=
  match fuel, bs with
  | _, [0x79; _] => Some []
  | S fuel, 0x86 :: 9 :: 0 :: rw :: b0 :: b1 :: b2 :: b3 :: s0 :: s1 :: s2 :: s3 :: rest =>
      l ← parse_resources fuel rest;
      Some (Memory32 (Z.odd rw) (le_num [b0; b1; b2; b3]) (le_num [s0; s1; s2; s3]) :: l)
  | S fuel, 0x89 :: l0 :: l1 :: flags :: n :: rest =>
      let n := Z.to_nat n in
      if negb (le_num [l0; l1] =? 2 + 4 * Z.of_nat n) || (length rest <? 4 * n)%nat then None
      else
        l ← parse_resources fuel (drop (4 * n) rest);
        Some (ExtInterrupt (Z.testbit flags 0) (Z.testbit flags 1) (Z.testbit flags 2) (Z.testbit flags 3)
                (map (fun i => le_num (take 4 (drop (4 * i) rest))) (seq 0 n)) :: l)
  | S fuel, 0x47 :: 1 :: a0 :: a1 :: b0 :: b1 :: align :: n :: rest =>
      l ← parse_resources fuel rest;
      Some (IoPorts (le_num [a0; a1]) (le_num [b0; b1]) align n :: l)
  | _, _ => None
  end.

Fixpoint parse_cstring (bs : list Z) : option (list Z * list Z) :=
  match bs with
  | [] => None
  | 0 :: rest => Some ([], rest)
  | b :: bs => '(s, rest) ← parse_cstring bs; Some (b :: s, rest)
  end.

Definition parse_int (bs : list Z) : option (Z * list Z) :=
  match bs with
  | 0x00 :: rest => Some (0, rest)
  | 0x01 :: rest => Some (1, rest)
  | 0x0A :: rest => if (length rest <? 1)%nat then None else Some (le_num (take 1 rest), drop 1 rest)
  | 0x0B :: rest => if (length rest <? 2)%nat then None else Some (le_num (take 2 rest), drop 2 rest)
  | 0x0C :: rest => if (length rest <? 4)%nat then None else Some (le_num (take 4 rest), drop 4 rest)
  | 0x0E :: rest => if (length rest <? 8)%nat then None else Some (le_num (take 8 rest), drop 8 rest)
  | _ => None
  end.

(** The bytes a package length (which counts itself) delimits, and what follows. *)
Definition parse_package (bs : list Z) : option (list Z * list Z) :=
  '(n, rest) ← pkg_length bs;
  let n := (Z.to_nat n - (length bs - length rest))%nat in
  if (length rest <? n)%nat then None else Some (take n rest, drop n rest).

Definition parse_data (bs : list Z) : option (aml * list Z) :=
  match bs with
  | 0x0D :: rest => '(s, rest) ← parse_cstring rest; Some (AmlStr s, rest)
  | 0x11 :: rest =>
      '(body, rest) ← parse_package rest;
      '(n, payload) ← parse_int body;
      if negb (n =? Z.of_nat (length payload)) then None
      else l ← parse_resources (length payload) payload; Some (AmlResources l, rest)
  | _ => '(v, rest) ← parse_int bs; Some (AmlInt v, rest)
  end.

Fixpoint parse_terms (fuel : nat) (bs : list Z) : option (list aml) :=
  match fuel, bs with
  | _, [] => Some []
  | S fuel, 0x08 :: rest =>
      '(p, rest) ← parse_path rest; '(v, rest) ← parse_data rest;
      l ← parse_terms fuel rest; Some (AmlName p v :: l)
  | S fuel, 0x5B :: 0x82 :: rest =>
      '(body, rest) ← parse_package rest; '(p, body) ← parse_path body;
      c ← parse_terms fuel body; l ← parse_terms fuel rest; Some (AmlDevice p c :: l)
  | S fuel, 0x10 :: rest =>
      '(body, rest) ← parse_package rest; '(p, body) ← parse_path body;
      c ← parse_terms fuel body; l ← parse_terms fuel rest; Some (AmlScope p c :: l)
  | _, _ => None
  end.

(** The device tree the machine has: the MMIO window and the interrupt line of each
    virtio device are those of [VirtioMmioBase] and [VirtioMmioIrq]. *)
Definition seg (s : string) : path := (false, [ascii_bytes s]).
Definition hid (id : string) (uid : Z) : list aml :=
  [AmlName (seg "_HID") (AmlStr (ascii_bytes id)); AmlName (seg "_UID") (AmlInt uid)].
Definition crs (l : list resource) : list aml := [AmlName (seg "_CRS") (AmlResources l)].
Definition edge_irq (n : Z) : resource := ExtInterrupt true true false false [n].
Definition virtio_node (i : Z) : aml :=
  AmlDevice (false, [[86; 48 + i / 100; 48 + i / 10 mod 10; 48 + i mod 10]])
    (hid "LNRO0005" i ++ [AmlName (seg "_CCA") (AmlInt 1)] ++
     crs [Memory32 true (0xD0000000 + 512 * i) 512; edge_irq (5 + i)]).
Definition machine_tree (network_enabled : bool) (disk_count : Z) : list aml :=
  [AmlScope (true, [ascii_bytes "_SB_"])
    ([AmlDevice (seg "HPET") (hid "PNP0103" 0 ++ crs [Memory32 false 0xFED00000 0x400]);
      AmlDevice (seg "COM1") (hid "PNP0501" 0 ++ crs [IoPorts 0x3F8 0x3F8 1 8; edge_irq 4])] ++
     map virtio_node (seqZ 0 disk_count) ++ [virtio_node (disk_count + 1)] ++
     (if network_enabled then [virtio_node disk_count] else []))].

Lemma pkg_lead c d : 1 <= c <= 3 -> 0 <= d < 16 -> u8 (Z.lor (Z.shiftl c 6) d) = 64 * c + d.
Proof.
  intros Hc Hd. rewrite Z.lor_comm, lor_shiftl_add by (cbn; lia). unfold u8.
  change (2 ^ 6) with 64. change (2 ^ 8) with 256.
  rewrite Z.mod_small; lia.
Qed.

Lemma pkg_length_long c d bs rest :
  1 <= c <= 3 -> 0 <= d < 16 -> Z.of_nat (length bs) = c ->
  pkg_length (64 * c + d :: bs ++ rest) = Some (d + 16 * le_num bs, rest).
Proof.
  intros Hc Hd Hl.
  cbn [pkg_length]. replace ((64 * c + d) / 64) with c by (apply Z.div_unique with d; lia). rewrite <- Hl, Nat2Z.id.
  destruct (Nat.ltb_spec (length (bs ++ rest)) (length bs)) as [H'|_]; [rewrite length_app in H'; lia|].
  rewrite Hl, take_app_length, drop_app_length.
  destruct (Z.ltb_spec (64 * c + d) 64); [lia|].
  replace ((64 * c + d) mod 16) with d; [done|]. apply Z.mod_unique with (4 * c); lia.
Qed.

(** The long forms, as the lead byte and the bytes of [length / 16]. *)
Lemma AppendPkgLength_cases n (b : bool) :
  0 <= n < 2 ^ 28 - 4 ->
  let k := if 2 ^ 20 - 3 <=? n then 3 else if 4094 <=? n then 2 else if 63 <=? n then 1 else 0 in
  let total := n + (if b then 1 + k else 0) in
  AppendPkgLength n b =
  if k =? 0 then [total] else 64 * k + total mod 16 :: le_bytes (Z.to_nat k) (total / 16).
Proof.
  intros Hn. cbv zeta. unfold AppendPkgLength. change (Z.shiftl 1 20 - 3) with (2 ^ 20 - 3).
  change (Z.shiftl 1 12 - 2) with 4094. change (Z.shiftl 1 6 - 1) with 63.
  assert (Hd : forall x, Z.land x 0x0F = x mod 16) by (intros; by apply (Z.land_ones x 4)).
  assert (Hm : forall x, 0 <= x mod 16 < 16) by (intros; by apply Z.mod_pos_bound).
  destruct (Z.leb_spec (2 ^ 20 - 3) n); [|destruct (Z.leb_spec 4094 n);
    [|destruct (Z.leb_spec 63 n)]]; cbn [Z.eqb Pos.eqb].
  4: { f_equal. destruct b; rewrite u8_small; lia. }
  all: rewrite Hd, pkg_lead, !byte_of_shift by (done || lia).
  all: match goal with |- context [Z.to_nat ?k] =>
         let m := eval vm_compute in (Z.to_nat k) in change (Z.to_nat k) with m end.
  all: cbn [le_bytes]; rewrite ?Z.div_div by lia; by destruct b.
Qed.

(** An AML package length decodes to the length that was encoded, the bytes of
    the encoding itself included when asked, for every length the four-byte form can
    carry; and it is the shortest encoding that can hold the length. *)
Theorem AppendPkgLength_decodes payload_len (include_self : bool) rest :
  0 <= payload_len < 2 ^ 28 - 4 ->
  let enc := AppendPkgLength payload_len include_self in
  let size := Z.of_nat (length enc) in
  let total := payload_len + (if include_self then size else 0) in
  pkg_length (enc ++ rest) = Some (total, rest) /\ bytes_ok enc /\ 1 <= size <= 4 /\
  forall shorter, 1 <= shorter < size ->
    (if shorter =? 1 then 2 ^ 6 else 2 ^ (8 * shorter - 4)) <= payload_len + shorter.
Proof.
  intros Hn. cbv zeta. rewrite AppendPkgLength_cases by done. cbv zeta.
  set (k := if 2 ^ 20 - 3 <=? payload_len then 3 else _).
  assert (Hk : k = 0 /\ payload_len < 63 \/ k = 1 /\ 63 <= payload_len < 4094 \/
               k = 2 /\ 4094 <= payload_len < 2 ^ 20 - 3 \/ k = 3 /\ 2 ^ 20 - 3 <= payload_len).
  { unfold k. destruct (Z.leb_spec (2 ^ 20 - 3) payload_len), (Z.leb_spec 4094 payload_len),
      (Z.leb_spec 63 payload_len); lia. }
  clearbody k. set (total := payload_len + (if include_self then 1 + k else 0)).
  assert (Hr : 0 <= total <= payload_len + 1 + k) by (unfold total; destruct include_self; lia).
  assert (Hsz : Z.of_nat (length (if k =? 0 then [total] else 64 * k + total mod 16 ::
            le_bytes (Z.to_nat k) (total / 16))) = 1 + k).
  { destruct (Z.eqb_spec k 0) as [->|]; [done|]. cbn [length]. rewrite length_le_bytes. lia. }
  rewrite Hsz. fold total. split_and!; [| |lia|lia|].
  - destruct (Z.eqb_spec k 0) as [->|Hk0].
    + cbn [app pkg_length]. rewrite Z.div_small by lia. cbn. destruct (Z.ltb_spec total 64); [done|lia].
    + cbn [app]. rewrite pkg_length_long;
        [|lia|by apply Z.mod_pos_bound|rewrite length_le_bytes; lia].
      rewrite le_num_bytes, Z2Nat.id by lia. rewrite (Z.mod_small (total / 16)).
      * do 2 f_equal. pose proof (Z.div_mod total 16). lia.
      * assert (total < 2 ^ (8 * k) * 16); [|split; [apply Z.div_pos; lia|apply Z.div_lt_upper_bound; lia]].
        destruct Hk as [[-> ?]|[[-> ?]|[[-> ?]|[-> ?]]]]; cbn; lia.
  - pose proof (Z.mod_pos_bound total 16 ltac:(lia)).
    destruct (Z.eqb_spec k 0); constructor; unfold is_byte; [lia|constructor|lia|apply le_bytes_ok].
  - intros s Hs. assert (Hc : s = 1 \/ s = 2 \/ s = 3) by lia.
    destruct Hc as [Hc|[Hc|Hc]]; rewrite Hc; cbn; lia.
Qed.

Lemma AppendPkgLength_decodes_witness :
  pkg_length (AppendPkgLength 1000 true ++ [7]) = Some (1002, [7]).
Proof. destruct (AppendPkgLength_decodes 1000 true [7]) as [H _]; [lia|exact H]. Defined.

(** ** The DSDT *)

Definition dsdt_reads (net : bool) (n : Z) : outcome (option (list aml)) :=
  BuildDsdtBody net n ≫= fun body => Ok (parse_terms (length body) body).

Lemma dsdt_reads_all :
  map (fun n => (dsdt_reads false n, dsdt_reads true n)) (seqZ 0 18) =
  map (fun n => (Ok (Some (machine_tree false n)), Ok (Some (machine_tree true n)))) (seqZ 0 18).
Proof. vm_compute. reflexivity. Qed.

Lemma dsdt_reads_tree net n : 0 <= n <= 17 -> dsdt_reads net n = Ok (Some (machine_tree net n)).
Proof.
  intros Hn. pose proof (map_seqZ_inv _ _ _ _ dsdt_reads_all n ltac:(lia)) as H.
  apply pair_equal_spec in H as [H1 H2]. by destruct net.
Qed.

(** Every step of the build either throws or is defined. *)
Lemma EncodePath_no_fuel name : EncodePath name <> OutOfFuel.
Proof.
  unfold EncodePath. apply outcome_bind_no_fuel; [|done]. apply collect_no_fuel.
  intros part. apply outcome_bind_no_fuel; [apply Check_no_fuel|done].
Qed.
Lemma AppendName_no_fuel p v : AppendName p v <> OutOfFuel.
Proof. apply outcome_bind_no_fuel; [apply EncodePath_no_fuel|done]. Qed.
Lemma AppendDevice_no_fuel p l : AppendDevice p l <> OutOfFuel.
Proof. apply outcome_bind_no_fuel; [apply EncodePath_no_fuel|done]. Qed.
#[export] Hint Resolve EncodePath_no_fuel AppendName_no_fuel AppendDevice_no_fuel : nofuel.

Lemma virtio_device_no_fuel i : virtio_device i <> OutOfFuel.
Proof.
  unfold virtio_device, VirtioMmioDeviceName, BuildVirtioMmioDevice.
  repeat (apply outcome_bind_no_fuel; [auto with nofuel|intros ?]); auto with nofuel.
Qed.
#[export] Hint Resolve virtio_device_no_fuel : nofuel.

Lemma virtio_device_throws i : 999 < i -> forall b, virtio_device i <> Ok b.
Proof.
  intros Hi b. unfold virtio_device, VirtioMmioDeviceName, Check.
  destruct (Z.leb_spec i 999); [lia|done].
Qed.

Lemma BuildDsdtBody_no_fuel net n : BuildDsdtBody net n <> OutOfFuel.
Proof.
  unfold BuildDsdtBody, CheckVirtioMmioDeviceCount, BuildHpetDevice, BuildCom1Device, AppendScope.
  repeat first [solve [auto with nofuel] | apply outcome_bind_no_fuel; [|intros ?]].
  - apply collect_no_fuel. auto with nofuel.
  - destruct net; [|done]. apply outcome_bind_no_fuel; [auto with nofuel|done].
Qed.

Lemma BuildDsdtBody_rejects net n : 17 < n < 2 ^ 32 -> exists e, BuildDsdtBody net n = Throw e.
Proof.
  intros Hn. assert (Hok : forall b, BuildDsdtBody net n <> Ok b).
  { intros b. unfold BuildDsdtBody, CheckVirtioMmioDeviceCount, Check, throw_unless, kVirtioMmioIrqBase, kMaxIoApicPins.
    destruct (decide (n = 2 ^ 32 - 1)) as [->|Hne].
    - destruct BuildHpetDevice; [|done..]. destruct BuildCom1Device; [|done..].
      destruct (collect virtio_device (seqZ 0 (2 ^ 32 - 1))) eqn:E; [|done..]. intros _.
      destruct (collect_ok _ _ _ E 1000) as [x Hx]; [apply elem_of_seqZ; lia|].
      by apply (virtio_device_throws 1000) in Hx.
    - rewrite (u32_small (n + 1)) by lia. intros Hb.
      destruct (decide (n = 2 ^ 32 - 2)) as [->|Hne']; [done|].
      rewrite (u32_small (n + 1 + 1)), u64_small in Hb by lia.
      destruct (Z.ltb_spec 0 (n + 1 + 1)); [|done]. cbn in Hb.
      destruct (Z.ltb_spec (5 + (n + 1 + 1) - 1) 24); [lia|done]. }
  destruct (BuildDsdtBody net n) as [body|e|] eqn:E; [by destruct (Hok body)|by exists e|].
  by apply BuildDsdtBody_no_fuel in E.
Qed.

(** C17. For up to 17 disks the DSDT body decodes to exactly the machine: the HPET, the
    serial port and one device per virtio window, the entropy device after the network
    slot, each with its own window and line.  Every other disk count is rejected, even
    the one whose device count wraps around to one. *)
Theorem BuildDsdtBody_describes_machine network_enabled disk_count :
  0 <= disk_count < 2 ^ 32 ->
  match BuildDsdtBody network_enabled disk_count with
  | Ok body => disk_count <= 17 /\
      parse_terms (length body) body = Some (machine_tree network_enabled disk_count)
  | Throw _ => 17 < disk_count
  | OutOfFuel => False
  end.
Proof.
  intros Hd. destruct (Z.leb_spec disk_count 17).
  - pose proof (dsdt_reads_tree network_enabled disk_count ltac:(lia)) as Ht. unfold dsdt_reads in Ht.
    destruct (BuildDsdtBody network_enabled disk_count) as [body| |]; [|done..].
    split; [done|]. by injection Ht.
  - by destruct (BuildDsdtBody_rejects network_enabled disk_count ltac:(lia)) as [e ->].
Qed.

Lemma BuildDsdtBody_describes_machine_witness :
  match BuildDsdtBody true 2 with
  | Ok body => 2 <= 17 /\ parse_terms (length body) body = Some (machine_tree true 2)
  | Throw _ => 17 < 2
  | OutOfFuel => False
  end.
Proof. apply (BuildDsdtBody_describes_machine true 2). lia. Defined.

(** ** What an operating system reads *)

(** A system description table: signature, length and checksum must be right. *)
Definition read_sdt (m : ram) (sig : string) (a : Z) : option (list Z) :=
  let t := load m a (ReadU32 (load m (a + 4) 4)) in
  if bool_decide (take 4 t = ascii_bytes sig) && (36 <=? length t)%nat && (byte_sum t mod 256 =? 0)
  then Some t else None.

Definition words (k : nat) (bs : list Z) : list Z :=
  map (fun i => le_num (take k (drop (i * k) bs))) (seq 0 (length bs / k)).

Record firmware := mkFirmware { fw_fadt : list Z; fw_dsdt : list Z; fw_madt : list Z; fw_hpet : list Z }.

(** From the RSDP, whose two checksums must hold, through both root tables, which must
    agree, to the tables they list; the FADT leads to the DSDT by both its fields. *)
Definition acpi_walk (m : ram) : option firmware :=
  let rsdp := load m 0xE0000 36 in
  if negb (bool_decide (take 8 rsdp = ascii_bytes "RSD PTR ") && (byte_sum (take 20 rsdp) mod 256 =? 0) &&
           (byte_sum rsdp mod 256 =? 0)) then None
  else
    rsdt ← read_sdt m "RSDT" (le_num (take 4 (drop 16 rsdp)));
    xsdt ← read_sdt m "XSDT" (le_num (take 8 (drop 24 rsdp)));
    if negb (bool_decide (words 4 (drop 36 rsdt) = words 8 (drop 36 xsdt))) then None
    else match words 8 (drop 36 xsdt) with
    | [f; a; h] =>
        fadt ← read_sdt m "FACP" f; madt ← read_sdt m "APIC" a; hpet ← read_sdt m "HPET" h;
        let x_dsdt := le_num (take 8 (drop 140 fadt)) in
        if negb (le_num (take 4 (drop 40 fadt)) =? x_dsdt) then None
        else dsdt ← read_sdt m "DSDT" x_dsdt; Some (mkFirmware fadt dsdt madt hpet)
    | _ => None
    end.

(** The entries of the MADT after its local APIC address and flags. *)
Inductive MadtEntry :=
  | MadtLapic (processor apic_id flags : Z)
  | MadtIoApic (id address gsi_base : Z)
  | MadtOverride (bus irq gsi flags : Z).

Fixpoint madt_decode (fuel : nat) (bs : list Z) : option (list MadtEntry) :=
  match fuel, bs with
  | _, [] => Some []
  | S fuel, 0 :: 8 :: p :: id :: f0 :: f1 :: f2 :: f3 :: rest =>
      l ← madt_decode fuel rest; Some (MadtLapic p id (le_num [f0; f1; f2; f3]) :: l)
  | S fuel, 1 :: 12 :: id :: _ :: a0 :: a1 :: a2 :: a3 :: g0 :: g1 :: g2 :: g3 :: rest =>
      l ← madt_decode fuel rest;
      Some (MadtIoApic id (le_num [a0; a1; a2; a3]) (le_num [g0; g1; g2; g3]) :: l)
  | S fuel, 2 :: 10 :: bus :: irq :: g0 :: g1 :: g2 :: g3 :: f0 :: f1 :: rest =>
      l ← madt_decode fuel rest; Some (MadtOverride bus irq (le_num [g0; g1; g2; g3]) (le_num [f0; f1]) :: l)
  | _, _ => None
  end.

Definition machine_madt (cpus : Z) : list MadtEntry :=
  [MadtIoApic 0 0xFEC00000 0; MadtOverride 0 0 2 0] ++ map (fun i => MadtLapic i i 1) (seqZ 0 cpus).

(** ** The tables are well formed *)

Record sdt (sig : string) (t : list Z) : Prop := {
  sdt_sig : take 4 t = ascii_bytes sig;
  sdt_len : ReadU32 (take 4 (drop 4 t)) = Z.of_nat (length t);
  sdt_min : (36 <= length t)%nat;
  sdt_sum : byte_sum t mod 256 = 0 }.

Lemma TableChecksum_sum t : TableChecksum t = - byte_sum t mod 256.
Proof.
  pose proof (Checksum_sum t 0 (length t)) as H. unfold Checksum in H.
  by rewrite drop_0, firstn_all in H.
Qed.

Lemma FinalizeSdt_spec t :
  (10 <= length t)%nat ->
  length (FinalizeSdt t) = length t /\ byte_sum (FinalizeSdt t) mod 256 = 0 /\
  take 9 (FinalizeSdt t) = take 9 t /\ drop 10 (FinalizeSdt t) = drop 10 t.
Proof.
  intros Hl. unfold FinalizeSdt. cbv zeta.
  assert (H0 : length (put t 9 [0]) = length t) by (apply length_put; cbn; lia).
  split_and!.
  - by rewrite length_put by (cbn [length]; lia).
  - rewrite TableChecksum_sum. apply checksum_zero. unfold put.
    rewrite lookup_app_r by (rewrite length_take; lia). rewrite length_take, Nat.min_l by lia. done.
  - rewrite !take_put_le by lia. done.
  - rewrite !drop_put_ge by (cbn [length]; lia). done.
Qed.

Lemma length_ascii_bytes s : length (ascii_bytes s) = String.length s.
Proof.
  unfold ascii_bytes. rewrite length_map. induction s; cbn; [done|]. by f_equal.
Qed.

Lemma BuildSdtHeader_fields sig len rev id :
  String.length sig = 4%nat -> String.length id = 8%nat ->
  BuildSdtHeader sig len rev id =
  ascii_bytes sig ++ WriteU32 len ++ [rev; 0] ++ ascii_bytes "GOCRKR" ++ ascii_bytes id ++
  [0; 0; 0; 0] ++ WriteU32 0x47434154 ++ WriteU32 0x20260402.
Proof.
  intros Hs Hi. rewrite <- length_ascii_bytes in Hs, Hi. unfold BuildSdtHeader. cbv zeta.
  destruct (length4 _ Hs) as (s0 & s1 & s2 & s3 & ->).
  destruct (length4 (WriteU32 len) eq_refl) as (l0 & l1 & l2 & l3 & ->).
  destruct (ascii_bytes id) as [|i0 [|i1 [|i2 [|i3 [|i4 [|i5 [|i6 [|i7 [|]]]]]]]]]; try done.
Qed.

(** A finalized header and body. *)
Definition table (sig : string) (rev : Z) (id : string) (body : list Z) : list Z :=
  FinalizeSdt (BuildSdtHeader sig (u32 (36 + Z.of_nat (length body))) rev id ++ body).

Lemma table_sdt sig rev id body :
  String.length sig = 4%nat -> String.length id = 8%nat -> Z.of_nat (length body) < 2 ^ 20 ->
  sdt sig (table sig rev id body) /\ drop 36 (table sig rev id body) = body /\
  length (table sig rev id body) = (36 + length body)%nat.
Proof.
  intros Hs Hi Hb. unfold table. rewrite BuildSdtHeader_fields by done.
  rewrite u32_small by lia. set (n := 36 + Z.of_nat (length body)).
  rewrite <- length_ascii_bytes in Hs, Hi.
  destruct (length4 _ Hs) as (s0 & s1 & s2 & s3 & Es). rewrite Es.
  destruct (ascii_bytes id) as [|i0 [|i1 [|i2 [|i3 [|i4 [|i5 [|i6 [|i7 [|]]]]]]]]]; try done.
  set (t := _ ++ body). assert (Ht : length t = (36 + length body)%nat) by done.
  destruct (FinalizeSdt_spec t) as (H1 & H2 & H3 & H4); [lia|].
  assert (Hd : drop 36 (FinalizeSdt t) = drop 36 t).
  { change 36%nat with (10 + 26)%nat. by rewrite <- !drop_drop, H4. }
  assert (Hk : forall k, (k <= 9)%nat -> take k (FinalizeSdt t) = take k t).
  { intros k Hk. pose proof (f_equal (take k) H3) as H. by rewrite !take_take, Nat.min_l in H by lia. }
  split_and!; [|done|lia]. split.
  - rewrite Es, (Hk 4%nat) by lia. done.
  - rewrite H1, Ht. rewrite firstn_skipn_comm, (Hk (4 + 4)%nat) by lia.
    change (drop 4 _) with (WriteU32 n). rewrite ReadU32_WriteU32. rewrite u32_small; lia.
  - lia.
  - done.
Qed.

Lemma read_sdt_stored m sig a t :
  sdt sig t -> Z.of_nat (length t) < 2 ^ 32 -> read_sdt (store m a t) sig a = Some t.
Proof.
  intros [Hs Hl Hm Hz] Hb. unfold read_sdt.
  rewrite load_store_sub by lia. rewrite (load_store_eq _ _ _ _ Hl).
  rewrite bool_decide_true by done. destruct (Nat.leb_spec 36 (length t)); [|lia].
  by rewrite (proj2 (Z.eqb_eq _ _) Hz).
Qed.

Lemma read_sdt_other m sig a t b bs :
  read_sdt m sig a = Some t ->
  a + Z.of_nat (length t) <= b \/ b + Z.of_nat (length bs) <= a ->
  read_sdt (store m b bs) sig a = Some t.
Proof.
  unfold read_sdt. intros H Hd. revert H.
  destruct (bool_decide _ && _ && _) eqn:E; [|done]. intros [= H].
  apply andb_true_iff in E as [[E1 E2]%andb_true_iff E3].
  rewrite H in E1, E2, E3. pose proof (f_equal length H) as Hl. rewrite length_load in Hl.
  apply Nat.leb_le in E2 as Hm. rewrite (load_store_disjoint _ _ _ (a + 4)), load_store_disjoint by lia.
  by rewrite H, E1, E2, E3.
Qed.

Lemma read_sdt_ext m m2 sig a t :
  read_sdt m sig a = Some t -> (forall z, in_range a (Z.of_nat (length t)) z -> m2 z = m z) -> read_sdt m2 sig a = Some t.
Proof.
  unfold read_sdt. intros H He. revert H.
  destruct (bool_decide _ && _ && _) eqn:E; [|done]. intros [= H].
  apply andb_true_iff in E as [[E1 E2]%andb_true_iff E3].
  rewrite H in E1, E2, E3. pose proof (f_equal length H) as Hl. rewrite length_load in Hl. apply Nat.leb_le in E2 as Hm.
  rewrite (load_ext m m2 (a + 4)) by (intros z Hz; apply He; unfold in_range in *; lia).
  rewrite (load_ext m m2) by (intros z Hz; apply He; unfold in_range in *; lia).
  by rewrite H, E1, E2, E3.
Qed.

(** The fields of the FADT that depend on its argument, in an otherwise fixed table. *)
Definition fadt_body (a : Z) : list Z :=
  repeat 0 4 ++ WriteU32 (u32 a) ++ repeat 0 32 ++ WriteU32 kAcpiPmTimerPort ++ repeat 0 11 ++ [4] ++
  repeat 0 16 ++ [0x32] ++ [4; 0; 0] ++ WriteU32 0x100130 ++ repeat 0 15 ++ [5] ++ repeat 0 8 ++
  WriteU64 a ++ repeat 0 60 ++ [1; 32; 0; 3] ++ WriteU64 kAcpiPmTimerPort ++ repeat 0 48 ++
  ascii_bytes "GOCRKVM ".

Lemma BuildFadt_table a : BuildFadt a = table "FACP" 6 "GCFADT01" (fadt_body a).
Proof.
  unfold BuildFadt, table, fadt_body. cbv zeta. change (u32 (36 + _)) with 276. by f_equal.
Qed.

Lemma BuildHpetTable_table :
  BuildHpetTable = table "HPET" 1 "GCHPET01" (WriteU32 0x8086A201 ++ repeat 0 4 ++ WriteU64 kHpetBase ++ repeat 0 4).
Proof. vm_compute. reflexivity. Qed.

(** The MADT, for every processor count the monitor accepts. *)
Definition madt_reads (cpus : Z) : nat * bool * option (list MadtEntry) :=
  let t := BuildMadt cpus in
  (length t, bool_decide (take 4 t = ascii_bytes "APIC") && (ReadU32 (take 4 (drop 4 t)) =? Z.of_nat (length t)) &&
             (byte_sum t mod 256 =? 0) && (ReadU32 (take 4 (drop 36 t)) =? 0xFEE00000),
   madt_decode (length t) (drop 44 t)).

Lemma madt_reads_all :
  map madt_reads (seqZ 0 65) =
  map (fun cpus => (Z.to_nat (66 + 8 * cpus), true, Some (machine_madt cpus))) (seqZ 0 65).
Proof. vm_compute. reflexivity. Qed.

Lemma BuildMadt_sdt cpus : 0 <= cpus <= 64 ->
  sdt "APIC" (BuildMadt cpus) /\ length (BuildMadt cpus) = Z.to_nat (66 + 8 * cpus) /\
  madt_decode (length (BuildMadt cpus)) (drop 44 (BuildMadt cpus)) = Some (machine_madt cpus).
Proof.
  intros Hc. pose proof (map_seqZ_inv _ _ _ _ madt_reads_all cpus ltac:(lia)) as H.
  unfold madt_reads in H. cbv zeta in H. apply pair_equal_spec in H as [H H3].
  apply pair_equal_spec in H as [H1 H2].
  apply andb_true_iff in H2 as [[[H4%bool_decide_eq_true H5%Z.eqb_eq]%andb_true_iff H6%Z.eqb_eq]%andb_true_iff _].
  split_and!; [|done|done]. split; [done..|lia|done].
Qed.

(** The DSDT is a header and the body of [BuildDsdtBody], at most 2000 bytes. *)
Definition dsdt_sizes (n : Z) : bool :=
  match BuildDsdtBody false n, BuildDsdtBody true n with
  | Ok b1, Ok b2 => (length b1 <=? 2000)%nat && (length b2 <=? 2000)%nat
  | _, _ => false
  end.

Lemma dsdt_sizes_all : forallb dsdt_sizes (seqZ 0 18) = true.
Proof. vm_compute. reflexivity. Qed.

Lemma BuildDsdtTable_sdt net n : 0 <= n <= 17 ->
  exists body, BuildDsdtTable net n = Ok (table "DSDT" 2 "GCDSDT01" body) /\ (length body <= 2000)%nat /\
    parse_terms (length body) body = Some (machine_tree net n).
Proof.
  intros Hn. pose proof (dsdt_reads_tree net n Hn) as Ht.
  pose proof (proj1 (forallb_forall _ _) dsdt_sizes_all n) as Hz.
  rewrite <- list_elem_of_In, elem_of_seqZ in Hz. specialize (Hz ltac:(lia)). revert Hz.
  unfold dsdt_sizes, BuildDsdtTable, dsdt_reads in *. destruct net.
  - destruct (BuildDsdtBody false n); [|done..]. destruct (BuildDsdtBody true n) as [body| |]; [|done..].
    injection Ht as Ht. intros [_ H%Nat.leb_le]%andb_true_iff. by exists body.
  - destruct (BuildDsdtBody false n) as [body| |]; [|done..]. destruct (BuildDsdtBody true n); [|done..].
    injection Ht as Ht. intros [H%Nat.leb_le _]%andb_true_iff. by exists body.
Qed.

(** ** Placement *)

Lemma AlignUp_8 c : 0 <= c < 2 ^ 32 -> c <= AlignUp c 8 < c + 8.
Proof.
  intros Hc. unfold AlignUp. change (bnot 64 (8 - 1)) with (Z.shiftl (Z.ones 61) 3).
  rewrite land_field, u64_small by lia. change (2 ^ 3) with 8.
  rewrite (Z.mod_small (_ / 8)).
  - pose proof (Z.div_mod (c + 8 - 1) 8). pose proof (Z.mod_pos_bound (c + 8 - 1) 8). lia.
  - split; [apply Z.div_pos; lia|apply Z.div_lt_upper_bound; lia].
Qed.

Lemma write_table_cases mem_size t m c :
  0 <= mem_size < 2 ^ 64 -> 0 <= c -> c + 8 + Z.of_nat (length t) <= rsdp_addr ->
  let a := AlignUp c 8 in
  let n := Z.of_nat (length t) in
  write_table mem_size t (m, c) =
  if a + n <=? mem_size then (Ok a, (store m a t, a + n))
  else (CheckRange mem_size a n "ACPI table" ≫= fun _ => Ok 0, (m, a)).
Proof.
  intros Hm Hc Hn. cbv zeta. unfold rsdp_addr in *.
  pose proof (AlignUp_8 c ltac:(lia)) as Ha. unfold write_table. cbv zeta.
  rewrite modify_bind, gets_bind, lift_bind. cbn [snd].
  destruct (Z.leb_spec (AlignUp c 8 + Z.of_nat (length t)) mem_size) as [Hle|Hgt].
  - replace (CheckRange _ _ _ _) with (Ok tt) by (symmetry; apply CheckRange_ok; lia).
    rewrite modify_bind, gets_bind, lift_bind. cbn [snd]. rewrite u64_small by lia.
    unfold Check, rsdp_addr. destruct (Z.ltb_spec (AlignUp c 8 + Z.of_nat (length t)) 0xE0000); [done|lia].
  - destruct (CheckRange _ _ _ _) as [u| |] eqn:E; [apply CheckRange_ok in E; lia|done..].
Qed.

Lemma CheckRange_short total offset len what :
  0 <= total < 2 ^ 64 -> 0 <= offset -> 0 <= len -> total < offset + len ->
  exists e, CheckRange total offset len what = Throw e.
Proof.
  intros Ht Ho Hl Hs. destruct (CheckRange total offset len what) as [u|e|] eqn:E; [|by exists e|].
  - apply CheckRange_ok in E; lia.
  - by apply CheckRange_no_fuel in E.
Qed.

(** The RSDP's three fields and two checksums. *)
Lemma BuildRsdp_fields r x :
  let t := BuildRsdp r x in
  length t = 36%nat /\ take 8 t = ascii_bytes "RSD PTR " /\ byte_sum (take 20 t) mod 256 = 0 /\
  byte_sum t mod 256 = 0 /\ take 4 (drop 16 t) = WriteU32 (u32 r) /\ take 8 (drop 24 t) = WriteU64 x.
Proof.
  cbv zeta. unfold BuildRsdp. cbv zeta.
  set (out := put _ 24 _).
  assert (Ho : length out = 36%nat) by done.
  assert (H8 : take 20 out !! 8%nat = Some 0) by done.
  rewrite !TableChecksum_sum. set (out' := put out 8 _).
  assert (Ho' : length out' = 36%nat) by done.
  assert (H32 : out' !! 32%nat = Some 0) by done.
  split_and!; [done|done| |by apply checksum_zero|done|done].
  rewrite take_put_le by (cbn [length]; lia). unfold out'.
  replace (take 20 (put out 8 _)) with (put (take 20 out) 8 [- byte_sum (take 20 out) mod 256]) by done.
  by apply checksum_zero.
Qed.

Lemma le_num_WriteU32 v : 0 <= v < 2 ^ 32 -> le_num (WriteU32 (u32 v)) = v.
Proof.
  intros. rewrite WriteU32_le, le_num_bytes. change (2 ^ (8 * Z.of_nat 4)) with (2 ^ 32).
  rewrite u32_small by lia. by apply Z.mod_small.
Qed.
Lemma le_num_WriteU64 v : 0 <= v < 2 ^ 64 -> le_num (WriteU64 v) = v.
Proof. intros. rewrite WriteU64_le, le_num_bytes. by apply Z.mod_small. Qed.

Lemma words_root f a h : 0 <= f < 2 ^ 32 -> 0 <= a < 2 ^ 32 -> 0 <= h < 2 ^ 32 ->
  words 4 (concat (map (fun a => WriteU32 (u32 a)) [f; a; h])) = [f; a; h] /\
  words 8 (concat (map WriteU64 [f; a; h])) = [f; a; h].
Proof.
  intros Hf Ha Hh. split.
  - change (words 4 _) with (map le_num [WriteU32 (u32 f); WriteU32 (u32 a); WriteU32 (u32 h)]).
    cbn [map]. by rewrite !le_num_WriteU32.
  - change (words 8 _) with (map le_num [WriteU64 f; WriteU64 a; WriteU64 h]).
    cbn [map]. rewrite !le_num_WriteU64; [done|lia..].
Qed.

Lemma some_bind {A B} (v : A) (k : A -> option B) : (Some v ≫= k) = k v.
Proof. done. Qed.

(** Six tables stored one after the other below the RSDP are all found. *)
Section walk.
Context (m : ram) (d f a h r x : Z) (dsdt madt : list Z).
Context (Hdsdt : sdt "DSDT" dsdt) (Hmadt : sdt "APIC" madt).
Context (Hd : 0xA0000 <= d) (Hf : d + Z.of_nat (length dsdt) <= f) (Ha : f + 276 <= a)
  (Hh : a + Z.of_nat (length madt) <= h) (Hr : h + 56 <= r) (Hx : r + 48 <= x) (He : x + 60 <= 0xE0000).

Definition stored : ram :=
  store (store (store (store (store (store (store m d dsdt) f (BuildFadt d)) a madt) h BuildHpetTable)
    r (BuildRsdt [f; a; h])) x (BuildXsdt [f; a; h])) 0xE0000 (BuildRsdp r x).

Lemma fadt_sdt : sdt "FACP" (BuildFadt d) /\ drop 36 (BuildFadt d) = fadt_body d /\
  length (BuildFadt d) = 276%nat.
Proof. rewrite BuildFadt_table. by apply table_sdt. Qed.
Lemma hpet_sdt : sdt "HPET" BuildHpetTable /\ length BuildHpetTable = 56%nat.
Proof. split; [|done]. rewrite BuildHpetTable_table. by apply table_sdt. Qed.
Lemma rsdt_sdt : sdt "RSDT" (BuildRsdt [f; a; h]) /\ length (BuildRsdt [f; a; h]) = 48%nat /\
  words 4 (drop 36 (BuildRsdt [f; a; h])) = [f; a; h].
Proof.
  destruct (table_sdt "RSDT" 1 "GCRSDT01" (concat (map (fun a => WriteU32 (u32 a)) [f; a; h])))
    as (H1 & H2 & H3); [done..|].
  split; [exact H1|]. split; [exact H3|]. change (BuildRsdt _) with (table "RSDT" 1 "GCRSDT01"
    (concat (map (fun a => WriteU32 (u32 a)) [f; a; h]))). rewrite H2.
  destruct (words_root f a h) as [Hw _]; [lia..|exact Hw].
Qed.
Lemma xsdt_sdt : sdt "XSDT" (BuildXsdt [f; a; h]) /\ length (BuildXsdt [f; a; h]) = 60%nat /\
  words 8 (drop 36 (BuildXsdt [f; a; h])) = [f; a; h].
Proof.
  destruct (table_sdt "XSDT" 1 "GCXSDT01" (concat (map WriteU64 [f; a; h])))
    as (H1 & H2 & H3); [done..|].
  split; [exact H1|]. split; [exact H3|]. change (BuildXsdt _) with (table "XSDT" 1 "GCXSDT01"
    (concat (map WriteU64 [f; a; h]))). rewrite H2.
  destruct (words_root f a h) as [_ Hw]; [lia..|exact Hw].
Qed.

(** In any memory that holds the same bytes between 640 KiB and the end of the RSDP. *)
Lemma acpi_walk_stored m2 :
  (forall z, in_range 0xA0000 0x40024 z -> m2 z = stored z) ->
  acpi_walk m2 = Some (mkFirmware (BuildFadt d) dsdt madt BuildHpetTable).
Proof.
  intros Hm2.
  destruct fadt_sdt as (Sf & Bf & Lf), hpet_sdt as (Sh & Lh), rsdt_sdt as (Sr & Lr & Wr),
    xsdt_sdt as (Sx & Lx & Wx), (BuildRsdp_fields r x) as (Lp & P1 & P2 & P3 & P4 & P5).
  unfold acpi_walk. unfold stored in Hm2. set (fadt := BuildFadt d) in *. set (hpet := BuildHpetTable) in *.
  set (rsdt := BuildRsdt _) in *. set (xsdt := BuildXsdt _) in *. set (rsdp := BuildRsdp r x) in *.
  clearbody hpet rsdt xsdt rsdp. set (m' := store _ 0xE0000 rsdp) in Hm2.
  assert (Hp : load m2 0xE0000 36 = rsdp).
  { rewrite (load_ext m' m2) by (intros z Hz; apply Hm2; unfold in_range in *; lia).
    unfold m'. by rewrite load_store_eq by lia. }
  rewrite Hp.
  rewrite P1, P2, P3, P4, P5, le_num_WriteU32, le_num_WriteU64 by lia.
  rewrite bool_decide_true by done. change (negb (true && (0 =? 0) && (0 =? 0))) with false. cbv iota beta.
  assert (Hfind : read_sdt m2 "DSDT" d = Some dsdt /\ read_sdt m2 "FACP" f = Some fadt /\
    read_sdt m2 "APIC" a = Some madt /\ read_sdt m2 "HPET" h = Some hpet /\
    read_sdt m2 "RSDT" r = Some rsdt /\ read_sdt m2 "XSDT" x = Some xsdt).
  { split_and!; (apply (read_sdt_ext m');
      [subst m'; repeat first [apply read_sdt_stored; [assumption|lia] | apply read_sdt_other; [|lia]]
      |intros z Hz; apply Hm2; unfold in_range in *; lia]). }
  clearbody m'. destruct Hfind as (F1 & F2 & F3 & F4 & F5 & F6).
  rewrite F5, some_bind, F6, some_bind, Wr, Wx, bool_decide_true by done.
  change (negb true) with false. cbv iota beta.
  rewrite F2, some_bind, F3, some_bind, F4, some_bind. cbv zeta.
  replace (drop 140 fadt) with (drop 104 (fadt_body d)) by (rewrite <- Bf, drop_drop; done).
  replace (drop 40 fadt) with (drop 4 (fadt_body d)) by (rewrite <- Bf, drop_drop; done).
  change (take 8 _) with (WriteU64 d). change (take 4 _) with (WriteU32 (u32 d)).
  rewrite le_num_WriteU32, le_num_WriteU64, Z.eqb_refl by lia. by rewrite F1.
Qed.
End walk.

(** The writes of [CreateAcpiTables] after the DSDT is built. *)
Definition write_tables (mem_size : Z) (dsdt madt : list Z) : M (ram * Z) Z :=
  write_table mem_size dsdt ≫= fun dsdt_addr =>
  write_table mem_size (BuildFadt dsdt_addr) ≫= fun fadt_addr =>
  write_table mem_size madt ≫= fun madt_addr =>
  write_table mem_size BuildHpetTable ≫= fun hpet_addr =>
  write_table mem_size (BuildRsdt [fadt_addr; madt_addr; hpet_addr]) ≫= fun rsdt_addr =>
  write_table mem_size (BuildXsdt [fadt_addr; madt_addr; hpet_addr]) ≫= fun xsdt_addr =>
  let rsdp := BuildRsdp rsdt_addr xsdt_addr in
  lift (CheckRange mem_size rsdp_addr (Z.of_nat (length rsdp)) "RSDP") ≫= fun _ =>
  modify (fun '(m, cursor) => (store m rsdp_addr rsdp, cursor)) ≫= fun _ =>
  mret rsdp_addr.

Lemma only_writes_stored P m m' a bs :
  only_writes P m m' -> (forall z, in_range a (Z.of_nat (length bs)) z -> P z) ->
  only_writes P m (store m' a bs).
Proof.
  intros H1 H2. eapply only_writes_trans; [exact H1|].
  eapply only_writes_weaken; [exact H2|apply only_writes_store].
Qed.

Lemma size_BuildFadt d : Z.of_nat (length (BuildFadt d)) = 276.
Proof. by rewrite (proj2 (proj2 (fadt_sdt d))). Qed.
Lemma size_BuildHpetTable : Z.of_nat (length BuildHpetTable) = 56.
Proof. done. Qed.
Lemma size_BuildRsdt f a h : Z.of_nat (length (BuildRsdt [f; a; h])) = 48.
Proof. done. Qed.
Lemma size_BuildXsdt f a h : Z.of_nat (length (BuildXsdt [f; a; h])) = 60.
Proof. done. Qed.
Lemma size_BuildRsdp r x : Z.of_nat (length (BuildRsdp r x)) = 36.
Proof. done. Qed.
Create Rewrite HintDb table_size.
#[export] Hint Rewrite size_BuildFadt size_BuildHpetTable size_BuildRsdt size_BuildXsdt size_BuildRsdp : table_size.

(** The stores so far stay between 640 KiB and the end of the RSDP. *)
Ltac stores_stay :=
  repeat (apply only_writes_stored; [|intros z; unfold in_range; autorewrite with table_size; lia]);
  apply only_writes_refl.

(** One table: it fits, or the whole build ends here with a throw. *)
Ltac table_step a Ha :=
  rewrite bind_run, write_table_cases by (unfold rsdp_addr; autorewrite with table_size; lia);
  autorewrite with table_size;
  match goal with |- context [AlignUp ?c 8] =>
    pose proof (AlignUp_8 c ltac:(lia)) as Ha; set (a := AlignUp c 8) in *; clearbody a end;
  match goal with |- context [?x <=? ?y] => destruct (Z.leb_spec x y) as [?|?];
    [cbv beta iota|
     match goal with |- context [CheckRange ?t ?o ?l ?w] =>
       destruct (CheckRange_short t o l w) as [? ->]; [lia..|] end;
     cbv beta iota; split; [stores_stay|lia]] end.

Lemma write_tables_run mem_size dsdt madt m :
  sdt "DSDT" dsdt -> sdt "APIC" madt -> 0 <= mem_size < 2 ^ 64 ->
  Z.of_nat (length dsdt) <= 2100 -> Z.of_nat (length madt) <= 1000 ->
  let '(o, (m', _)) := write_tables mem_size dsdt madt (m, 0xA0000) in
  only_writes (in_range 0xA0000 0x40024) m m' /\
  match o with
  | Ok rsdp => rsdp = 0xE0000 /\ 0xE0024 <= mem_size /\
      exists d, forall m2, (forall z, in_range 0xA0000 0x40024 z -> m2 z = m' z) ->
        acpi_walk m2 = Some (mkFirmware (BuildFadt d) dsdt madt BuildHpetTable)
  | Throw _ => mem_size < 0xE0024
  | OutOfFuel => False
  end.
Proof.
  intros Sd Sm Hm Hld Hlm. unfold write_tables.
  table_step d Hd. table_step f Hf. table_step a Ha. table_step h Hh. table_step r Hr. table_step x Hx.
  rewrite lift_bind, size_BuildRsdp. unfold rsdp_addr.
  destruct (CheckRange mem_size 0xE0000 36 "RSDP") as [u|e|] eqn:E.
  - apply CheckRange_ok in E; [|lia..]. rewrite modify_bind. cbn [mret M_ret].
    split; [stores_stay|]. split_and!; [done|lia|]. exists d.
    intros m2 Hm2. apply (acpi_walk_stored m d f a h r x dsdt madt); done || lia.
  - split; [stores_stay|]. destruct (Z.ltb_spec mem_size 0xE0024); [done|].
    assert (Ho : CheckRange mem_size 0xE0000 36 "RSDP" = Ok tt) by (apply CheckRange_ok; lia).
    by rewrite Ho in E.
  - by apply CheckRange_no_fuel in E.
Qed.

Lemma CreateAcpiTables_run mem_size net cpus n m dsdt :
  BuildDsdtTable net n = Ok dsdt ->
  CreateAcpiTables mem_size net cpus n m =
  let '(o, (m', _)) := write_tables mem_size dsdt (BuildMadt cpus) (m, 0xA0000) in (o, m').
Proof. intros E. unfold CreateAcpiTables. by rewrite lift_bind, E. Qed.

(** The firmware that the walk from the RSDP finds describes the machine. *)
Definition describes_machine (network_enabled : bool) (cpus disk_count : Z) (fw : firmware) : Prop :=
  let body := drop 36 (fw_dsdt fw) in
  parse_terms (length body) body = Some (machine_tree network_enabled disk_count) /\
  madt_decode (length (fw_madt fw)) (drop 44 (fw_madt fw)) = Some (machine_madt cpus) /\
  le_num (take 4 (drop 36 (fw_hpet fw))) = Hpet.kCapabilities mod 2 ^ 32 /\
  le_num (take 8 (drop 44 (fw_hpet fw))) = kHpetBase /\
  le_num (take 4 (drop 76 (fw_fadt fw))) = kAcpiPmTimerPort.

Lemma CreateAcpiTables_found mem_size network_enabled cpus disk_count m :
  0 <= mem_size < 2 ^ 64 -> 1 <= cpus <= 64 -> 0 <= disk_count < 2 ^ 32 ->
  let (o, m') := CreateAcpiTables mem_size network_enabled cpus disk_count m in
  only_writes (in_range 0xA0000 0x40024) m m' /\
  match o with
  | Ok rsdp => rsdp = 0xE0000 /\ disk_count <= 17 /\ 0xE0024 <= mem_size /\
      exists fw, describes_machine network_enabled cpus disk_count fw /\
        forall m2, (forall z, in_range 0xA0000 0x40024 z -> m2 z = m' z) -> acpi_walk m2 = Some fw
  | Throw _ => 17 < disk_count \/ mem_size < 0xE0024
  | OutOfFuel => False
  end.
Proof.
  intros Hm Hc Hn. destruct (Z.leb_spec disk_count 17) as [Hle|Hgt].
  2: { pose proof (BuildDsdtBody_rejects network_enabled disk_count ltac:(lia)) as [e He].
       unfold CreateAcpiTables, BuildDsdtTable. rewrite lift_bind, He. cbn. split; [apply only_writes_refl|lia]. }
  destruct (BuildDsdtTable_sdt network_enabled disk_count) as (body & HB & Lb & Hb); [lia|].
  rewrite (CreateAcpiTables_run _ _ _ _ _ _ HB). destruct (table_sdt "DSDT" 2 "GCDSDT01" body) as (S1 & D1 & L1); [done|done|lia|].
  destruct (BuildMadt_sdt cpus) as (S3 & L3 & D3); [lia|].
  set (dsdt := table "DSDT" 2 "GCDSDT01" body) in *. set (madt := BuildMadt cpus) in *.
  pose proof (write_tables_run mem_size dsdt madt m S1 S3 ltac:(lia) ltac:(lia) ltac:(lia)) as HW.
  destruct (write_tables mem_size dsdt madt (m, 0xA0000)) as [[v|e|] [m' c]];
    [|destruct HW; split; [done|by right]|by destruct HW].
  destruct HW as (Hw & -> & Hs & d & Hf). split; [done|]. split_and!; [done|done|done|].
  exists (mkFirmware (BuildFadt d) dsdt madt BuildHpetTable). split; [|exact Hf].
  unfold describes_machine. cbn [fw_fadt fw_dsdt fw_madt fw_hpet]. rewrite D1.
  split_and!; [done|done|done|done|].
  replace (drop 76 (BuildFadt d)) with (drop 40 (fadt_body d)); [done|].
  rewrite <- (proj1 (proj2 (fadt_sdt d))), drop_drop. done.
Qed.

(** C16.  For every processor and disk count the monitor accepts, [CreateAcpiTables] either
    throws, exactly when there are too many disks or RAM ends before the RSDP does, or
    leaves the tables an operating system finds from the RSDP, all with good checksums:
    the devices, the processors, the HPET with the block id of the HPET model and the PM
    timer port.  It writes only between 640 KiB and the end of the RSDP. *)
Theorem CreateAcpiTables_discoverable mem_size network_enabled cpus disk_count m :
  0 <= mem_size < 2 ^ 64 -> 1 <= cpus <= 64 -> 0 <= disk_count < 2 ^ 32 ->
  let (o, m') := CreateAcpiTables mem_size network_enabled cpus disk_count m in
  only_writes (in_range 0xA0000 0x40024) m m' /\
  match o with
  | Ok rsdp => rsdp = 0xE0000 /\ disk_count <= 17 /\ 0xE0024 <= mem_size /\
      exists fw, acpi_walk m' = Some fw /\ describes_machine network_enabled cpus disk_count fw
  | Throw _ => 17 < disk_count \/ mem_size < 0xE0024
  | OutOfFuel => False
  end.
Proof.
  intros Hm Hc Hn. pose proof (CreateAcpiTables_found mem_size network_enabled cpus disk_count m Hm Hc Hn) as H.
  destruct (CreateAcpiTables _ _ _ _ m) as [[rsdp|e|] m']; try exact H.
  destruct H as (Hw & -> & Hd & Hs & fw & Hf & Hwalk). split_and!; try done. exists fw. split; [by apply Hwalk|done].
Qed.

Lemma CreateAcpiTables_discoverable_witness :
  let (o, m') := CreateAcpiTables 0x8000000 true 2 1 (fun _ => 0) in
  only_writes (in_range 0xA0000 0x40024) (fun _ => 0) m' /\
  match o with
  | Ok rsdp => rsdp = 0xE0000 /\ 1 <= 17 /\ 0xE0024 <= 0x8000000 /\
      exists fw, acpi_walk m' = Some fw /\ describes_machine true 2 1 fw
  | Throw _ => 17 < 1 \/ 0x8000000 < 0xE0024
  | OutOfFuel => False
  end.
Proof. apply (CreateAcpiTables_discoverable 0x8000000 true 2 1 (fun _ => 0)); lia. Defined.
