(* ===== verification/Net.v ===== *)
(** * native/whp/backend.cc: the virtio-net device

    Class VirtioNet and the frame path of the libslirp adapter: two queues (0 receives,
    1 transmits), a backlog of frames waiting for receive buffers, and the I/O APIC line.
    The network stack behind the adapter is a class parameter that answers each transmitted
    frame with the frames it sends back at once.  Every call is one sequence of steps: the
    re-checks the code makes after re-taking its lock are kept.  The theorems: whatever the
    driver does the device stays within guest memory; frames reach the guest in order and
    wait only for buffers; what one frame writes; what a kick transmits when the driver
    keeps its rings apart, and that a kick may never end when they overlap. *)

From S2P Require Import Prelude Words Bytes GuestMemory VirtQueue.
From S2P Require IoApic.

(** The interrupt controller as its devices see it. *)
Class IrqController (C : Type) := request_irq : Z -> C -> C.

#[export] Instance ioapic_controller {W : Type} `{Irq.WhpApi W} : IrqController (IoApic.IoApic W) :=
  fun irq s => IoApic.request_irq irq s.

(** libslirp's [slirp_input]: the frames it hands to [send_packet] before it returns. *)
Class SlirpBackend (S : Type) := {
  slirp_input : list Z -> S -> list (list Z) * S;
  slirp_input_bytes p b : bytes_ok p -> Forall bytes_ok (slirp_input p b).1
}.

Definition kQueueSize : Z := 256.
Definition kRxBacklogLimit : Z := 256.
Definition kVirtioNetHdrLenBase : Z := 12.
Definition kVirtioNetFMrgRxbuf : Z := Z.shiftl 1 15.
Definition kVirtioNetSLinkUp : Z := 1.
Definition kVirtioStatusFeaturesOk : Z := 0x08.
Definition kVirtioStatusDriverOk : Z := 0x04.
Definition kVirtioStatusFailed : Z := 0x80.
Definition kVirtioMmioShmLenLow : Z := 0x0B0.
Definition kVirtioMmioShmLenHigh : Z := 0x0B4.
Definition kVirtioMmioShmBaseLow : Z := 0x0B8.
Definition kVirtioMmioShmBaseHigh : Z := 0x0BC.
Definition kVirtioMmioConfig : Z := 0x100.

Definition VirtioNetDeviceFeatures : Z := Z.lor (Z.lor kNetFMac kNetFStatus) kFVersion1.

Record NetQueue := mkNetQueue {
  ready : bool; num : Z; desc_addr : Z; driver_addr : Z; device_addr : Z;
  last_avail_idx : Z; last_used_idx : Z }.
#[export] Instance eta_NetQueue : Eta NetQueue := fun q =>
  mkNetQueue (ready q) (num q) (desc_addr q) (driver_addr q) (device_addr q)
    (last_avail_idx q) (last_used_idx q).
(** [Queue{}] *)
Definition Queue_init : NetQueue := mkNetQueue false kQueueSize 0 0 0 0 0.

(** [queues_] is the pair [rxq], [txq]. *)
Record VirtioNet (C S : Type) := mkNet {
  ioapic : C; mem : GuestMemory; mmio_base : Z; irq : Z; mac : list Z; slirp : option S;
  device_features_sel : Z; driver_features_sel : Z; driver_features : Z; status : Z;
  interrupt_status : Z; queue_sel : Z; config_generation : Z; link_up : bool;
  driver_ok_announced : bool; rx_flush_active : bool; rxq : NetQueue; txq : NetQueue;
  rx_backlog : list (list Z) }.
Arguments mkNet {C S}. Arguments ioapic {C S}. Arguments mem {C S}. Arguments mmio_base {C S}.
Arguments irq {C S}. Arguments mac {C S}. Arguments slirp {C S}. Arguments device_features_sel {C S}.
Arguments driver_features_sel {C S}. Arguments driver_features {C S}. Arguments status {C S}.
Arguments interrupt_status {C S}. Arguments queue_sel {C S}. Arguments config_generation {C S}.
Arguments link_up {C S}. Arguments driver_ok_announced {C S}. Arguments rx_flush_active {C S}.
Arguments rxq {C S}. Arguments txq {C S}. Arguments rx_backlog {C S}.
#[export] Instance eta_VirtioNet C S : Eta (VirtioNet C S) := fun s =>
  mkNet (ioapic s) (mem s) (mmio_base s) (irq s) (mac s) (slirp s) (device_features_sel s)
    (driver_features_sel s) (driver_features s) (status s) (interrupt_status s) (queue_sel s)
    (config_generation s) (link_up s) (driver_ok_announced s) (rx_flush_active s) (rxq s) (txq s)
    (rx_backlog s).

Section Net.
Context {C S : Type} `{IrqController C} `{SlirpBackend S}.
Local Notation net := (VirtioNet C S).
Local Notation MN := (M net).

Definition VirtioNet_new (c : C) (g : GuestMemory) (mb line : Z) (m : list Z) : net :=
  mkNet c g mb line m None 0 0 0 0 0 0 0 true false false Queue_init Queue_init [].
Definition attach_slirp (b : S) (s : net) : net := s <| slirp := Some b |>.

Definition virtio_net_hdr_len_locked (s : net) : Z :=
  if has (driver_features s) kVirtioNetFMrgRxbuf then 14 else kVirtioNetHdrLenBase.

(** ** Guest memory *)

Definition ptr_or_null (g : GuestMemory) (gpa n : Z) : option Z :=
  if (len g <? gpa) || (u64 (len g - gpa) <? n) then None else Some gpa.

Definition read_u16 (g : GuestMemory) (gpa : Z) : Z :=
  match ptr_or_null g gpa 2 with Some p => ReadU16 (load (data g) p 2) | None => 0 end.
Definition write_bytes (gpa : Z) (bs : list Z) (g : GuestMemory) : GuestMemory :=
  match ptr_or_null g gpa (Z.of_nat (length bs)) with Some p => mem_store g p bs | None => g end.
Definition write_u16 (gpa value : Z) : GuestMemory -> GuestMemory := write_bytes gpa (WriteU16 value).
Definition write_u32 (gpa value : Z) : GuestMemory -> GuestMemory := write_bytes gpa (WriteU32 value).

Definition set_mem (g : GuestMemory) (s : net) : net := s <| mem := g |>.

(** ** Registers *)

(** [queue_sel_ < 2 && queues_[queue_sel_]], and an assignment through it. *)
Definition queue_at (i : Z) (s : net) : NetQueue := if i =? 0 then rxq s else txq s.
Definition with_queue (i : Z) (f : NetQueue -> NetQueue) (s : net) : net :=
  if i =? 0 then s <| rxq := f (rxq s) |> else s <| txq := f (txq s) |>.

(** [VirtioNetConfig] as the packed bytes of its fields. *)
Definition build_net_config_locked (s : net) : list Z :=
  mac s ++ WriteU16 (if link_up s then kVirtioNetSLinkUp else 0) ++ WriteU16 1 ++ WriteU16 1500.

Definition read_config (bytes : list Z) (cfg_off : Z) : Z :=
  fold_left (fun value i =>
    if cfg_off + i <? 12 then Z.lor value (Z.shiftl (byte_at bytes (cfg_off + i)) (i * 8)) else value)
    [0; 1; 2; 3] 0.

Definition read_reg (s : net) (off : Z) : Z :=
  if off =? kMmioMagicValue then kMagic
  else if off =? kMmioVersion then 2
  else if off =? kMmioDeviceId then 1
  else if off =? kMmioVendorId then 0x554D4551
  else if off =? kMmioDeviceFeatures then
    (if device_features_sel s =? 1 then u32 (Z.shiftr VirtioNetDeviceFeatures 32)
     else u32 (Z.land VirtioNetDeviceFeatures 0xFFFFFFFF))
  else if off =? kMmioQueueNumMax then kQueueSize
  else if off =? kMmioQueueReady then
    (if (queue_sel s <? 2) && ready (queue_at (queue_sel s) s) then 1 else 0)
  else if off =? kMmioInterruptStatus then interrupt_status s
  else if off =? kMmioStatus then status s
  else if off =? kMmioConfigGeneration then config_generation s
  else if (off =? kVirtioMmioShmLenLow) || (off =? kVirtioMmioShmLenHigh) then 0xFFFFFFFF
  else if (off =? kVirtioMmioShmBaseLow) || (off =? kVirtioMmioShmBaseHigh) then 0xFFFFFFFF
  else if (kVirtioMmioConfig <=? off) && (off <? kVirtioMmioConfig + 12) then
    read_config (build_net_config_locked s) (off - kVirtioMmioConfig)
  else 0.

Definition read_mmio (s : net) (addr n : Z) : list Z :=
  if negb ((n =? 1) || (n =? 2) || (n =? 4)) then repeat 0 (Z.to_nat n)
  else
    let value := read_reg s (u32 (addr - mmio_base s)) in
    map (fun i => u8 (Z.land (Z.shiftr value (i * 8)) 0xFF)) (seqZ 0 n).

Definition update_status_locked (new_status : Z) (s : net) : net :=
  let prev := status s in
  let s := s <| status := new_status |> in
  if new_status =? 0 then
    let s := s <| rxq := Queue_init |> in
    let s := s <| txq := Queue_init |> in
    let s := s <| interrupt_status := 0 |> in
    s <| driver_ok_announced := false |>
  else if has new_status kVirtioStatusFailed then
    let s := s <| rxq := (rxq s) <| ready := false |> |> in
    s <| txq := (txq s) <| ready := false |> |>
  else
    let now_features_ok := has new_status kVirtioStatusFeaturesOk in
    let was_features_ok := has prev kVirtioStatusFeaturesOk in
    let s :=
      if now_features_ok && negb was_features_ok then
        let supported := VirtioNetDeviceFeatures in
        if negb (Z.land (driver_features s) (bnot 64 supported) =? 0)
        then s <| status := Z.land (status s) (bnot 32 kVirtioStatusFeaturesOk) |> else s
      else s in
    let now_driver_ok := has new_status kVirtioStatusDriverOk in
    let was_driver_ok := has prev kVirtioStatusDriverOk in
    if now_driver_ok && negb was_driver_ok && negb (driver_ok_announced s)
    then s <| driver_ok_announced := true |> else s.

(** No caller in the source. *)
Definition raise_config_change_irq_locked (s : net) : net :=
  let s := s <| interrupt_status := Z.lor (interrupt_status s) kInterruptConfig |> in
  s <| ioapic := request_irq (irq s) (ioapic s) |>.

Definition raise_used_buffer_irq (queue_index : Z) (s : net) : net :=
  if 2 <=? queue_index then s
  else
    let q := queue_at queue_index s in
    if negb (ready q) || (driver_addr q =? 0) then s
    else if has (read_u16 (mem s) (driver_addr q)) kRingAvailFNoInterrupt then s
    else
      let s := s <| interrupt_status := Z.lor (interrupt_status s) kInterruptVring |> in
      s <| ioapic := request_irq (irq s) (ioapic s) |>.

(** ** Rings *)

(** The guard under the first lock of both directions. *)
Definition usable (q : NetQueue) : bool :=
  negb (negb (ready q) || (num q =? 0) || (driver_addr q =? 0) || (desc_addr q =? 0) || (device_addr q =? 0)).

Definition avail_idx (g : GuestMemory) (q : NetQueue) : Z := read_u16 g (u64 (driver_addr q + 2)).
Definition avail_head (g : GuestMemory) (q : NetQueue) : Z :=
  read_u16 g (u64 (driver_addr q + 4 + last_avail_idx q mod num q * 2)).
Definition next_avail (q : NetQueue) : NetQueue := q <| last_avail_idx := u16 (last_avail_idx q + 1) |>.

(** The last locked section of both directions; [false] when the queue went away. *)
Definition push_used (i desc_idx written : Z) (s : net) : bool * net :=
  let q := queue_at i s in
  if negb (ready q) || (num q =? 0) || (device_addr q =? 0) then (false, s)
  else
    let used_off := last_used_idx q mod num q in
    let used_elem_addr := u64 (device_addr q + 4 + used_off * 8) in
    let g := write_u32 used_elem_addr desc_idx (mem s) in
    let g := write_u32 (u64 (used_elem_addr + 4)) written g in
    let s := with_queue i (fun q => q <| last_used_idx := u16 (last_used_idx q + 1) |>) s in
    (true, set_mem (write_u16 (u64 (device_addr q + 2)) (last_used_idx (queue_at i s)) g) s).

(** ** Receive *)

(** The chain walk of [deliver_rx_packet_now] with [hops] rounds left and [rest] still to
    copy; the result is [ok]. *)
Fixpoint rx_walk (hops : nat) (queue_num desc_addr current : Z) (rest : list Z) (g : GuestMemory)
    : bool * GuestMemory :=
  match rest with
  | [] => (true, g)
  | _ =>
      match hops with
      | O => (false, g)
      | Datatypes.S hops =>
          if queue_num <=? current then (false, g)
          else
            match ptr_or_null g (u64 (desc_addr + current * 16)) 16 with
            | None => (false, g)
            | Some p =>
                let d := read_desc (data g) p in
                if negb (has (flags d) kRingDescFWrite) then (false, g)
                else
                  let n := Z.min (dlen d) (Z.of_nat (length rest)) in
                  match ptr_or_null g (addr d) n with
                  | None => (false, g)
                  | Some segment =>
                      let g := mem_store g segment (take (Z.to_nat n) rest) in
                      let rest := drop (Z.to_nat n) rest in
                      if negb (has (flags d) kRingDescFNext) then (true, g)
                      else if queue_num <=? next d then (false, g)
                      else rx_walk hops queue_num desc_addr (next d) rest g
                  end
            end
      end
  end.

(** [framed]: the header, then the frame. *)
Definition frame_with_header (hdr_len : Z) (frame : list Z) : list Z :=
  let framed := repeat 0 (Z.to_nat hdr_len) in
  let framed := if 14 <=? hdr_len then put framed 12 [1; 0] else framed in
  framed ++ frame.

Definition deliver_rx_packet_now (frame : list Z) (s : net) : bool * net :=
  if 1500 + 14 + 4 <? Z.of_nat (length frame) then (true, s)
  else
    let q := rxq s in
    if negb (usable q) then (false, s)
    else if last_avail_idx q =? avail_idx (mem s) q then (false, s)
    else
      let desc_idx := avail_head (mem s) q in
      let s := s <| rxq := next_avail q |> in
      if num q <=? desc_idx then (true, s)
      else
        let framed := frame_with_header (virtio_net_hdr_len_locked s) frame in
        let '(ok, g) := rx_walk (Z.to_nat (num q)) (num q) (desc_addr q) desc_idx framed (mem s) in
        let s := set_mem g s in
        if negb ok then (true, s)
        else
          match push_used 0 desc_idx (u32 (Z.of_nat (length framed))) s with
          | (false, s) => (true, s)
          | (true, s) => (true, raise_used_buffer_irq 0 s)
          end.

Fixpoint flush_loop (fuel : nat) : MN unit := fun s =>
  match rx_backlog s with
  | [] => (Ok tt, s <| rx_flush_active := false |>)
  | packet :: _ =>
      match fuel with
      | O => (OutOfFuel, s)
      | Datatypes.S fuel =>
          match deliver_rx_packet_now packet s with
          | (false, s) => (Ok tt, s <| rx_flush_active := false |>)
          | (true, s) => flush_loop fuel (s <| rx_backlog := tail (rx_backlog s) |>)
          end
      end
  end.

Definition flush_rx_backlog : MN unit := fun s =>
  if rx_flush_active s then (Ok tt, s)
  else flush_loop (length (rx_backlog s)) (s <| rx_flush_active := true |>).

Definition deliver_rx_packet (frame : list Z) : MN unit := fun s =>
  let backlog_has_packets := match rx_backlog s with [] => false | _ => true end in
  let '(delivered, s) := if backlog_has_packets then (false, s) else deliver_rx_packet_now frame s in
  if delivered then flush_rx_backlog s
  else
    let s := if Z.of_nat (length (rx_backlog s)) <? kRxBacklogLimit
             then s <| rx_backlog := rx_backlog s ++ [frame] |> else s in
    flush_rx_backlog s.

(** ** Transmit *)

(** Slirp::on_send_packet: short frames are padded to 60 bytes. *)
Definition on_send_packet (frame : list Z) : MN unit :=
  if Z.of_nat (length frame) <? 60
  then deliver_rx_packet (frame ++ repeat 0 (60 - length frame)%nat)
  else deliver_rx_packet frame.

(** Slirp::input_packet, with the frames sent back while it runs. *)
Definition input_packet (frame : list Z) : MN unit := fun s =>
  match slirp s with
  | None => (Ok tt, s)
  | Some b =>
      let '(frames, b) := slirp_input frame b in
      for_each on_send_packet frames (s <| slirp := Some b |>)
  end.

(** The chain walk of [process_tx_queue]: the packet gathered. *)
Fixpoint tx_walk (hops : nat) (g : GuestMemory) (queue_num desc_addr current : Z) (packet : list Z)
    : list Z :=
  match hops with
  | O => packet
  | Datatypes.S hops =>
      if queue_num <=? current then packet
      else
        match ptr_or_null g (u64 (desc_addr + current * 16)) 16 with
        | None => packet
        | Some p =>
            let d := read_desc (data g) p in
            let packet :=
              if has (flags d) kRingDescFWrite then packet
              else match ptr_or_null g (addr d) (dlen d) with
                   | Some segment => packet ++ load (data g) segment (dlen d)
                   | None => packet
                   end in
            if negb (has (flags d) kRingDescFNext) then packet
            else if queue_num <=? next d then packet
            else tx_walk hops g queue_num desc_addr (next d) packet
        end
  end.

(** The loop of [process_tx_queue]; [None] is its [return], [Some] its [break] with
    [processed]. *)
Fixpoint tx_loop (fuel : nat) (processed : bool) : MN (option bool) := fun s =>
  match fuel with
  | O => (OutOfFuel, s)
  | Datatypes.S fuel =>
      let q := txq s in
      if negb (usable q) then (Ok None, s)
      else if last_avail_idx q =? avail_idx (mem s) q then (Ok (Some processed), s)
      else
        let desc_idx := avail_head (mem s) q in
        let s := s <| txq := next_avail q |> in
        if num q <=? desc_idx then tx_loop fuel processed s
        else
          let packet := tx_walk (Z.to_nat (num q)) (mem s) (num q) (desc_addr q) desc_idx [] in
          let hdr_len := virtio_net_hdr_len_locked s in
          let finish : MN (option bool) := fun s =>
            let '(pushed, s) := push_used 1 desc_idx 0 s in
            tx_loop fuel (if pushed then true else processed) s in
          (when (hdr_len <? Z.of_nat (length packet)) (input_packet (drop (Z.to_nat hdr_len) packet)) ≫= fun _ =>
           finish) s
  end.

Definition process_tx_queue (fuel : nat) : MN unit := fun s =>
  match slirp s with
  | None => (Ok tt, s)
  | Some _ =>
      (tx_loop fuel false ≫= fun r =>
       when (match r with Some processed => processed | None => false end)
         (modify (raise_used_buffer_irq 1))) s
  end.

(** [fuel] bounds the rounds of [process_tx_queue]. *)
Definition write_reg (fuel : nat) (off value : Z) : MN unit :=
  gets queue_sel ≫= fun sel =>
  let with_sel f := when (sel <? 2) (modify (with_queue sel f)) in
  if off =? kMmioDeviceFeaturesSel then modify (fun s => s <| device_features_sel := value |>)
  else if off =? kMmioDriverFeatures then
    modify (fun s => s <| driver_features :=
      if driver_features_sel s =? 0 then set_lo32 (driver_features s) value
      else set_hi32 (driver_features s) value |>)
  else if off =? kMmioDriverFeaturesSel then modify (fun s => s <| driver_features_sel := value |>)
  else if off =? kMmioQueueSel then modify (fun s => s <| queue_sel := value |>)
  else if off =? kMmioQueueNum then
    with_sel (fun q => q <| num := if value =? 0 then 0 else Z.min value kQueueSize |>)
  else if off =? kMmioQueueReady then with_sel (fun q => q <| ready := negb (value =? 0) |>)
  else if off =? kMmioQueueNotify then
    (if value =? 1 then process_tx_queue fuel else when (value =? 0) flush_rx_backlog)
  else if off =? kMmioInterruptAck then
    modify (fun s => s <| interrupt_status := Z.land (interrupt_status s) (bnot 32 value) |>)
  else if off =? kMmioStatus then modify (update_status_locked value)
  else if off =? kMmioQueueDescLow then with_sel (fun q => q <| desc_addr := set_lo32 (desc_addr q) value |>)
  else if off =? kMmioQueueDescHigh then with_sel (fun q => q <| desc_addr := set_hi32 (desc_addr q) value |>)
  else if off =? kMmioQueueDriverLow then with_sel (fun q => q <| driver_addr := set_lo32 (driver_addr q) value |>)
  else if off =? kMmioQueueDriverHigh then with_sel (fun q => q <| driver_addr := set_hi32 (driver_addr q) value |>)
  else if off =? kMmioQueueDeviceLow then with_sel (fun q => q <| device_addr := set_lo32 (device_addr q) value |>)
  else if off =? kMmioQueueDeviceHigh then with_sel (fun q => q <| device_addr := set_hi32 (device_addr q) value |>)
  else mret tt.

Definition write_mmio (fuel : nat) (addr : Z) (bytes : list Z) : MN unit :=
  gets mmio_base ≫= fun mb =>
  if negb (Z.of_nat (length bytes) =? 4) then mret tt
  else write_reg fuel (u32 (addr - mb)) (ReadU32 bytes).
End Net.

(** ** Invariant and safety *)

Record nq_ok (q : NetQueue) : Prop := {
  nq_num : 0 <= num q <= kQueueSize;
  nq_desc : 0 <= desc_addr q < 2 ^ 64; nq_driver : 0 <= driver_addr q < 2 ^ 64;
  nq_device : 0 <= device_addr q < 2 ^ 64;
  nq_avail : 0 <= last_avail_idx q < 65536; nq_used : 0 <= last_used_idx q < 65536 }.

Section Safety.
Context {C S : Type} `{IrqController C} `{SlirpBackend S}.
Local Notation net := (VirtioNet C S).
Local Notation MN := (M net).

Record net_ok (s : net) : Prop := {
  nok_mem : 0 <= len (mem s) < 2 ^ 64; nok_ram : ram_ok (data (mem s));
  nok_mac : length (mac s) = 6%nat /\ bytes_ok (mac s);
  nok_rx : nq_ok (rxq s); nok_tx : nq_ok (txq s);
  nok_features : 0 <= driver_features s < 2 ^ 64;
  nok_status : 0 <= status s < 2 ^ 32; nok_interrupt : 0 <= interrupt_status s < 2 ^ 32;
  nok_generation : 0 <= config_generation s < 2 ^ 32;
  nok_backlog : (length (rx_backlog s) <= 256)%nat; nok_frames : Forall bytes_ok (rx_backlog s) }.

(** Some number of requests of [line]. *)
Inductive raised (line : Z) : C -> C -> Prop :=
  | raised_none c : raised line c c
  | raised_more c c' : raised line c c' -> raised line c (request_irq line c').

Lemma raised_trans line c1 c2 c3 : raised line c1 c2 -> raised line c2 c3 -> raised line c1 c3.
Proof. intros H1 H2. induction H2; [done|]. constructor. auto. Qed.

(** What a step may touch outside the device: guest memory, and the controller through
    the device's own line. *)
Record touched (s s' : net) : Prop := {
  to_mem : mem_step (mem s) (mem s');
  to_line : raised (irq s) (ioapic s) (ioapic s');
  to_irq : irq s' = irq s; to_base : mmio_base s' = mmio_base s }.

Lemma touched_trans s1 s2 s3 : touched s1 s2 -> touched s2 s3 -> touched s1 s3.
Proof.
  intros [M1 L1 I1 B1] [M2 L2 I2 B2]. split; [by eapply mem_step_trans| |congruence..].
  eapply raised_trans; [exact L1|]. by rewrite <- I1.
Qed.

(** Nothing outside. *)
Lemma touched_none s s' :
  net_ok s -> mem s' = mem s -> ioapic s' = ioapic s -> irq s' = irq s -> mmio_base s' = mmio_base s -> touched s s'.
Proof.
  intros Hs Hm Hi Hq Hb. split; [rewrite Hm; apply mem_step_refl, Hs| |done|done].
  rewrite Hi. constructor.
Qed.

(** What any step may do: the invariant is kept and nothing else is touched. *)
Definition net_step (s s' : net) : Prop := net_ok s' /\ touched s s'.

Lemma net_step_refl s : net_ok s -> net_step s s.
Proof. intros Hs. split; [done|]. by apply touched_none. Qed.
Lemma net_step_trans s1 s2 s3 : net_step s1 s2 -> net_step s2 s3 -> net_step s1 s3.
Proof. intros [_ H1] [H2 H3]. split; [done|]. by eapply touched_trans. Qed.

Lemma net_ptr_ok g gpa n p :
  0 <= len g < 2 ^ 64 -> 0 <= gpa -> 0 <= n ->
  ptr_or_null g gpa n = Some p <-> p = gpa /\ gpa + n <= len g.
Proof.
  intros Hl Hg Hn. unfold ptr_or_null. destruct (Z.ltb_spec (len g) gpa); cbn [orb].
  - split; [done|lia].
  - rewrite u64_small by lia. destruct (Z.ltb_spec (len g - gpa) n).
    + split; [done|lia].
    + split; [intros [= <-]; split; [done|lia]|by intros [-> _]].
Qed.

Lemma read_u16_range g gpa : ram_ok (data g) -> 0 <= read_u16 g gpa < 65536.
Proof.
  intros Hg. unfold read_u16. destruct (ptr_or_null g gpa 2); [|lia].
  apply ReadU16_range; [by apply load_ok|by rewrite length_load].
Qed.

Lemma write_bytes_step g gpa bs :
  0 <= len g < 2 ^ 64 -> ram_ok (data g) -> 0 <= gpa -> bytes_ok bs -> mem_step g (write_bytes gpa bs g).
Proof.
  intros Hl Hg Ha Hb. unfold write_bytes.
  destruct (ptr_or_null g gpa _) as [p|] eqn:E; [|by apply mem_step_refl].
  apply net_ptr_ok in E as [-> E]; [|done|done|lia]. by apply store_step.
Qed.

(** Memory steps preserve what further steps need. *)
Lemma mem_step_len g g' : 0 <= len g < 2 ^ 64 -> mem_step g g' -> 0 <= len g' < 2 ^ 64.
Proof. intros Hl Hs. by rewrite (step_len _ _ Hs). Qed.

Lemma net_ok_set_mem s g : net_ok s -> mem_step (mem s) g -> net_ok (set_mem g s).
Proof.
  intros [] Hg. split; try done; cbn [mem set_mem upd_field]; [by rewrite (step_len _ _ Hg)|apply Hg].
Qed.

Lemma net_ok_queue i f (s : net) : net_ok s -> nq_ok (f (queue_at i s)) -> net_ok (with_queue i f s).
Proof. intros [] Hq. unfold with_queue, queue_at in *. by destruct (i =? 0); split. Qed.
Lemma net_queue_at_ok i (s : net) : net_ok s -> nq_ok (queue_at i s).
Proof. intros []. unfold queue_at. by destruct (i =? 0). Qed.
Lemma mem_with_queue i f (s : net) : mem (with_queue i f s) = mem s.
Proof. unfold with_queue. by destruct (i =? 0). Qed.

Lemma next_avail_ok q : nq_ok q -> nq_ok (next_avail q).
Proof. intros []. split; try done. apply u16_range. Qed.

Lemma raise_irq_step i (s : net) : net_ok s -> net_step s (raise_used_buffer_irq i s).
Proof.
  intros Hs. unfold raise_used_buffer_irq.
  destruct (2 <=? i); [by apply net_step_refl|]. destruct (_ || _); [by apply net_step_refl|].
  destruct (has _ _); [by apply net_step_refl|].
  split.
  - destruct Hs; split; try done. cbn [interrupt_status upd_field]. apply (lor_range _ _ 32); [done|done|].
    unfold kInterruptVring. lia.
  - split; [apply mem_step_refl, Hs| |done|done]. constructor. constructor.
Qed.

Lemma push_used_net_step i desc_idx written (s : net) : net_ok s -> net_step s (push_used i desc_idx written s).2.
Proof.
  intros Hs. unfold push_used. destruct (_ || _); [by apply net_step_refl|]. cbv zeta. cbn [snd].
  set (a := u64 (device_addr _ + 4 + _)). pose proof (u64_range (device_addr (queue_at i s) + 4 +
    last_used_idx (queue_at i s) mod num (queue_at i s) * 8)) as Ha. fold a in Ha.
  set (v := last_used_idx (queue_at i (with_queue i _ s))). clearbody v.
  assert (H1 : mem_step (mem s) (write_u32 a desc_idx (mem s)))
    by (apply write_bytes_step; [apply Hs|apply Hs|lia|auto with bytes]).
  set (g1 := write_u32 a desc_idx (mem s)) in *.
  assert (H2 : mem_step g1 (write_u32 (u64 (a + 4)) written g1))
    by (apply write_bytes_step; [apply (mem_step_len _ _ (nok_mem _ Hs) H1)|apply H1|apply u64_range|auto with bytes]).
  set (g2 := write_u32 _ written g1) in *. pose proof (mem_step_trans _ _ _ H1 H2) as H12.
  assert (H3 : mem_step g2 (write_u16 (u64 (device_addr (queue_at i s) + 2)) v g2))
    by (apply write_bytes_step; [apply (mem_step_len _ _ (nok_mem _ Hs) H12)|apply H2|apply u64_range|auto with bytes]).
  pose proof (mem_step_trans _ _ _ H12 H3) as H13.
  split.
  - apply net_ok_set_mem; [|by rewrite mem_with_queue].
    apply net_ok_queue; [done|]. destruct (net_queue_at_ok i s Hs). split; try done. apply u16_range.
  - unfold with_queue. destruct (i =? 0); (split; [exact H13|constructor|done|done]).
Qed.

Lemma rx_walk_step hops : forall n da current rest g,
  0 <= len g < 2 ^ 64 -> ram_ok (data g) -> bytes_ok rest -> 0 <= current ->
  mem_step g (rx_walk hops n da current rest g).2.
Proof.
  induction hops as [|hops IH]; intros n da current rest g Hl Hg Hr Hc; cbn [rx_walk];
    (destruct rest as [|b rest']; [by apply mem_step_refl|]); [by apply mem_step_refl|].
  set (rest := b :: rest') in *. clearbody rest.
  destruct (n <=? current); [by apply mem_step_refl|].
  destruct (ptr_or_null g _ 16) as [p|]; [|by apply mem_step_refl]. cbv zeta.
  pose proof (read_desc_ok (data g) p Hg) as Hd. set (d := read_desc _ _) in *. clearbody d.
  destruct (negb (has (flags d) kRingDescFWrite)); [by apply mem_step_refl|].
  set (k := Z.min (dlen d) (Z.of_nat (length rest))).
  assert (Hk : 0 <= k) by (pose proof (ok_len _ Hd); lia).
  destruct (ptr_or_null g (addr d) k) as [segm|] eqn:E; [|by apply mem_step_refl].
  apply net_ptr_ok in E as [-> E]; [|done|apply Hd|done].
  assert (H1 : mem_step g (mem_store g (addr d) (take (Z.to_nat k) rest))).
  { apply store_step; [done|done|by apply Forall_take|apply Hd|]. rewrite length_take. lia. }
  destruct (negb (has (flags d) kRingDescFNext)); [done|].
  destruct (n <=? next d); [done|]. eapply mem_step_trans; [exact H1|].
  apply IH; [apply (mem_step_len _ _ Hl H1)|apply H1|by apply Forall_drop|apply Hd].
Qed.

Lemma frame_with_header_ok n frame : bytes_ok frame -> bytes_ok (frame_with_header n frame).
Proof.
  intros Hf. unfold frame_with_header. apply Forall_app. split; [|done].
  assert (Hz : bytes_ok (repeat 0 (Z.to_nat n))) by (apply List.Forall_forall; by intros x ->%repeat_spec).
  destruct (14 <=? n); [|done]. by apply put_ok; [|apply bytes_okb_ok].
Qed.

(** What a receive attempt leaves alone. *)
Record rx_same (s s' : net) : Prop := {
  rs_backlog : rx_backlog s' = rx_backlog s; rs_active : rx_flush_active s' = rx_flush_active s;
  rs_txq : txq s' = txq s; rs_slirp : slirp s' = slirp s;
  rs_features : driver_features s' = driver_features s; rs_status : status s' = status s }.

Lemma rx_same_refl s : rx_same s s.
Proof. done. Qed.
Lemma rx_same_trans s1 s2 s3 : rx_same s1 s2 -> rx_same s2 s3 -> rx_same s1 s3.
Proof. intros [] []. split; congruence. Qed.

Lemma push_used_0_same d w (s : net) : rx_same s (push_used 0 d w s).2.
Proof. unfold push_used. by destruct (_ || _). Qed.
Lemma raise_irq_same i (s : net) : rx_same s (raise_used_buffer_irq i s).
Proof.
  unfold raise_used_buffer_irq. destruct (2 <=? i); [done|]. destruct (_ || _); [done|].
  by destruct (has _ _).
Qed.

Lemma deliver_now_step frame s : net_ok s -> bytes_ok frame ->
  net_step s (deliver_rx_packet_now frame s).2 /\ rx_same s (deliver_rx_packet_now frame s).2.
Proof.
  intros Hs Hf. unfold deliver_rx_packet_now.
  destruct (1500 + 14 + 4 <? _); [by split; [apply net_step_refl|]|]. cbv zeta.
  destruct (negb (usable (rxq s))); [by split; [apply net_step_refl|]|].
  destruct (last_avail_idx (rxq s) =? _); [by split; [apply net_step_refl|]|].
  set (desc_idx := avail_head _ _). set (s1 := s <| rxq := next_avail (rxq s) |>).
  assert (H1 : net_step s s1).
  { split; [|by apply touched_none]. apply (net_ok_queue 0 next_avail); [done|]. apply next_avail_ok, Hs. }
  destruct (num (rxq s) <=? desc_idx); [done|].
  pose proof (rx_walk_step (Z.to_nat (num (rxq s))) (num (rxq s)) (desc_addr (rxq s)) desc_idx
    (frame_with_header (virtio_net_hdr_len_locked s1) frame) (mem s1)) as Hw.
  destruct (rx_walk _ _ _ _ _ _) as [ok g].
  assert (Hd : 0 <= desc_idx) by (unfold desc_idx; apply read_u16_range, Hs).
  specialize (Hw (nok_mem _ Hs) (nok_ram _ Hs) (frame_with_header_ok _ _ Hf) Hd).
  assert (H2 : net_step s (set_mem g s1)).
  { eapply net_step_trans; [exact H1|]. split; [|by split; [exact Hw|constructor|..]].
    apply net_ok_set_mem; [apply H1|exact Hw]. }
  destruct ok; [|done]. cbn [negb].
  set (w := u32 _). clearbody w.
  pose proof (push_used_net_step 0 desc_idx w (set_mem g s1) (proj1 H2)) as H3.
  pose proof (push_used_0_same desc_idx w (set_mem g s1)) as H4.
  destruct (push_used 0 desc_idx w (set_mem g s1)) as [[|] s3]; cbn [snd] in *.
  - split; [|eapply rx_same_trans; [|apply raise_irq_same]; eapply rx_same_trans; [|exact H4]; done].
    eapply net_step_trans; [exact H2|]. eapply net_step_trans; [exact H3|]. apply raise_irq_step, H3.
  - split; [by eapply net_step_trans|]. eapply rx_same_trans; [|exact H4]; done.
Qed.

(** ** What one received frame writes *)

(** The bytes [bs] stored into the buffers in order, as far as they go. *)
Fixpoint scatter (ds : list Desc) (bs : list Z) (m : ram) : ram :=
  match ds, bs with
  | _, [] | [], _ => m
  | d :: ds, _ =>
      let n := Z.to_nat (Z.min (dlen d) (Z.of_nat (length bs))) in
      scatter ds (drop n bs) (store m (addr d) (take n bs))
  end.

(** The contents of the buffers. *)
Definition gather (m : ram) (ds : list Desc) : list Z := concat (map (fun d => load m (addr d) (dlen d)) ds).

Definition apart (a n b k : Z) : Prop := a + n <= b \/ b + k <= a.
Definition segs_apart (d1 d2 : Desc) : Prop := apart (addr d1) (dlen d1) (addr d2) (dlen d2).
Definition seg_ok (g : GuestMemory) (d : Desc) : Prop := desc_ok d /\ addr d + dlen d <= len g.

Lemma load_scatter ds : forall bs m a n,
  Forall (fun d => desc_ok d /\ apart (addr d) (dlen d) a n) ds -> load (scatter ds bs m) a n = load m a n.
Proof.
  induction ds as [|d ds IH]; intros bs m a n Hd; cbn [scatter]; [by destruct bs|].
  apply Forall_cons_1 in Hd as [[Hd Ha] Hds]. destruct bs as [|b bs']; [done|].
  set (bs := b :: bs'). cbv zeta. rewrite IH by done. apply load_store_disjoint.
  rewrite length_take. destruct Hd. unfold apart in Ha. lia.
Qed.

Lemma gather_store m a bs ds :
  Forall (fun d => apart a (Z.of_nat (length bs)) (addr d) (dlen d)) ds ->
  gather (store m a bs) ds = gather m ds.
Proof.
  intros Hd. unfold gather. f_equal. apply map_ext_in. intros d Hin.
  rewrite List.Forall_forall in Hd. apply load_store_disjoint.
  specialize (Hd d Hin). unfold apart in Hd. lia.
Qed.

Lemma gather_scatter ds : forall bs m,
  Forall desc_ok ds -> ForallOrdPairs segs_apart ds ->
  take (length bs) (gather (scatter ds bs m) ds) = take (Z.to_nat (fold_right Z.add 0 (map dlen ds))) bs.
Proof.
  induction ds as [|d ds IH]; intros bs m Hd Hp; [by destruct bs|].
  apply Forall_cons_1 in Hd as [Hd Hds]. inversion Hp as [|? ? Hap Hps]; subst.
  destruct bs as [|b bs']; [by rewrite take_0, take_nil|]. set (bs := b :: bs') in *.
  cbn [scatter]. fold bs. unfold gather. cbn [map concat fold_right].
  change (match bs with [] => m | _ :: _ => ?x end) with x.
  set (n := Z.to_nat (Z.min (dlen d) (Z.of_nat (length bs)))).
  assert (Hsum : 0 <= fold_right Z.add 0 (map dlen ds)).
  { clear -Hds. induction Hds as [|e l [] _ IH]; cbn; lia. }
  pose proof (ok_len _ Hd) as Hlen.
  rewrite load_scatter.
  2: { rewrite List.Forall_forall in *. intros e He. split; [by apply Hds|].
       specialize (Hap e He). unfold segs_apart, apart in *. lia. }
  fold (gather (scatter ds (drop n bs) (store m (addr d) (take n bs))) ds).
  destruct (Z.le_gt_cases (dlen d) (Z.of_nat (length bs))) as [Hle|Hgt].
  - assert (Hn : n = Z.to_nat (dlen d)) by (unfold n; lia).
    rewrite (load_store_eq _ _ (take n bs)) by (rewrite length_take; lia).
    rewrite take_app. rewrite length_take, (Nat.min_l n) by lia.
    rewrite (take_ge (take n bs)) by (rewrite length_take; lia).
    replace (length bs - n)%nat with (length (drop n bs)) by (rewrite length_drop; lia).
    rewrite IH by done. rewrite Z2Nat.inj_add by lia. rewrite <- Hn.
    by rewrite <- take_take_drop.
  - assert (Hn : n = length bs) by (unfold n; lia).
    rewrite drop_ge, (take_ge bs n) by lia.
    rewrite take_app_le by (rewrite length_load; lia).
    replace (dlen d) with (Z.of_nat (length bs) + (dlen d - Z.of_nat (length bs))) at 1 by lia.
    rewrite load_app, load_store_same by lia. rewrite take_app_length. rewrite take_ge; [done|lia].
Qed.

(** Descriptor [j] of the table reads the same in [g] and [g']. *)
Definition same_desc (da n : Z) (g g' : GuestMemory) : Prop :=
  forall j, 0 <= j < n -> read_desc (data g') (u64 (da + j * 16)) = read_desc (data g) (u64 (da + j * 16)).

Lemma read_desc_store m a bs p :
  apart a (Z.of_nat (length bs)) p 16 -> read_desc (store m a bs) p = read_desc m p.
Proof.
  intros Ha. unfold apart in Ha. unfold read_desc. rewrite !load_store_disjoint by lia. done.
Qed.

(** A buffer of the chain: the device may write it, it lies in RAM and the descriptor
    table does not overlap it. *)
Record rx_buffer (g : GuestMemory) (da n : Z) (d : Desc) : Prop := {
  rb_write : has (flags d) kRingDescFWrite = true; rb_seg : seg_ok g d;
  rb_table : forall j, 0 <= j < n -> apart (addr d) (dlen d) (u64 (da + j * 16)) 16 }.

Lemma rx_walk_linked g0 da n : 0 <= len g0 < 2 ^ 64 -> forall i ixs ds, linked g0 da n i ixs ds ->
  forall hops rest g, (length ds <= hops)%nat -> len g = len g0 -> same_desc da n g0 g ->
  Forall (rx_buffer g0 da n) ds ->
  rx_walk hops n da i rest g = (true, g <| data := scatter ds rest (data g) |>).
Proof.
  intros Hl i ixs ds Hlk.
  assert (Hstep : forall i d rest g hops, desc_at g0 da n i d -> rest <> [] -> len g = len g0 -> same_desc da n g0 g ->
    rx_buffer g0 da n d ->
    rx_walk (Datatypes.S hops) n da i rest g =
    let k := Z.to_nat (Z.min (dlen d) (Z.of_nat (length rest))) in
    let g := mem_store g (addr d) (take k rest) in
    if negb (has (flags d) kRingDescFNext) then (true, g)
    else if n <=? next d then (false, g) else rx_walk hops n da (next d) (drop k rest) g).
  { intros j d rest g hops (Hj & Hp & Hd & _) Hr Hlen Hsame [Hw [Hok Hseg] _].
    cbn [rx_walk]. destruct rest as [|b rest']; [done|]. set (rest := b :: rest') in *.
    destruct (Z.leb_spec n j); [lia|].
    pose proof (u64_range (da + j * 16)).
    assert (E1 : ptr_or_null g (u64 (da + j * 16)) 16 = Some (u64 (da + j * 16))) by (apply net_ptr_ok; lia).
    rewrite E1.
    cbv zeta. rewrite Hsame, <- Hd, Hw by done. cbn [negb].
    destruct Hok. set (k := Z.min (dlen d) (Z.of_nat (length rest))).
    assert (E2 : ptr_or_null g (addr d) k = Some (addr d)) by (apply net_ptr_ok; lia). by rewrite E2. }
  induction Hlk as [i d Hd Hn|i d ixs ds Hd Hn Hlk IH]; intros hops rest g Hh Hlen Hsame Hb;
    (destruct hops as [|hops]; [cbn in Hh; lia|]); cbn [length] in Hh;
    apply Forall_cons_1 in Hb as [Hb Hbs];
    (destruct rest as [|b rest']; [by destruct g|]); set (rest := b :: rest') in *;
    rewrite (Hstep i d rest g hops Hd) by done; rewrite Hn; cbv zeta; cbn [negb].
  - cbn [scatter]. by destruct (drop _ rest).
  - assert (Hnext : (n <=? next d) = false) by (apply Z.leb_gt; inversion Hlk as [? ? [? _]|? ? ? ? [? _]]; subst; lia).
    rewrite Hnext. rewrite IH; [done|lia|done| |done].
    intros j Hj. rewrite <- Hsame by done. apply read_desc_store. rewrite length_take.
    pose proof (rb_table _ _ _ _ Hb j Hj) as Ha. destruct (proj1 (rb_seg _ _ _ _ Hb)). unfold apart in *. lia.
Qed.

Lemma linked_short g da n i ixs ds : linked g da n i ixs ds -> NoDup ixs -> (length ds <= Z.to_nat n)%nat.
Proof.
  intros Hl Hnd. rewrite <- (linked_length _ _ _ _ _ _ Hl).
  pose proof (seen_size n (list_to_set ixs)) as Hs. rewrite size_list_to_set in Hs by done. apply Hs.
  intros j Hj%elem_of_list_to_set. apply linked_range in Hl. rewrite List.Forall_forall in Hl.
  by apply Hl, list_elem_of_In.
Qed.

(** The used ring lies in RAM: the three stores of [push_used]. *)
Definition used_elem (q : NetQueue) : Z := device_addr q + 4 + last_used_idx q mod num q * 8.
Definition push_stores (q : NetQueue) (desc_idx written : Z) (g : GuestMemory) : GuestMemory :=
  mem_store (mem_store (mem_store g (used_elem q) (WriteU32 desc_idx)) (used_elem q + 4) (WriteU32 written))
    (device_addr q + 2) (WriteU16 (u16 (last_used_idx q + 1))).
Definition next_used (q : NetQueue) : NetQueue := q <| last_used_idx := u16 (last_used_idx q + 1) |>.

Lemma used_elem_range q : nq_ok q -> num q <> 0 ->
  device_addr q + 4 <= used_elem q /\ used_elem q + 8 <= device_addr q + 4 + 8 * num q.
Proof.
  intros [] Hn. unfold used_elem. pose proof (Z.mod_pos_bound (last_used_idx q) (num q) ltac:(lia)). lia.
Qed.

Lemma write_bytes_in g a bs : 0 <= len g < 2 ^ 64 -> 0 <= a -> a + Z.of_nat (length bs) <= len g ->
  write_bytes a bs g = mem_store g a bs.
Proof.
  intros Hl Ha Hb. unfold write_bytes. by rewrite (proj2 (net_ptr_ok g a _ a Hl Ha (Zle_0_nat _)) (conj eq_refl Hb)).
Qed.

Lemma push_used_in_ram i d w (s : net) : net_ok s ->
  let q := queue_at i s in
  ready q = true -> num q <> 0 -> device_addr q <> 0 -> device_addr q + 4 + 8 * num q <= len (mem s) ->
  push_used i d w s = (true, set_mem (push_stores q d w (mem s)) (with_queue i next_used s)).
Proof.
  intros Hs q Hr Hn Hd Hm. pose proof (net_queue_at_ok i s Hs) as Hq. fold q in Hq.
  pose proof (used_elem_range q Hq Hn) as He. pose proof (nok_mem _ Hs) as Hl. pose proof (nq_device _ Hq).
  unfold push_used. fold q. rewrite Hr. cbn [negb orb].
  destruct (Z.eqb_spec (num q) 0); [done|]. destruct (Z.eqb_spec (device_addr q) 0); [done|]. cbn [orb].
  cbv zeta. fold (used_elem q). rewrite (u64_small (used_elem q)), u64_small, u64_small by lia.
  unfold write_u32, write_u16. unfold push_stores.
  rewrite (write_bytes_in (mem s)) by (rewrite ?length_WriteU32; lia).
  rewrite (write_bytes_in _ (used_elem q + 4)) by (rewrite ?length_WriteU32; cbn [len mem_store upd_field]; lia).
  rewrite write_bytes_in by (rewrite ?length_WriteU16; cbn [len mem_store upd_field]; lia).
  do 3 f_equal. unfold q, queue_at, with_queue. by destruct (i =? 0).
Qed.

Lemma push_stores_step i d w (s : net) : net_ok s ->
  let q := queue_at i s in
  ready q = true -> num q <> 0 -> device_addr q <> 0 -> device_addr q + 4 + 8 * num q <= len (mem s) ->
  net_step s (set_mem (push_stores q d w (mem s)) (with_queue i next_used s)).
Proof.
  intros Hs q Hr Hn Hd Hm. pose proof (push_used_net_step i d w s Hs) as Hp.
  by rewrite (push_used_in_ram i d w s Hs Hr Hn Hd Hm) in Hp.
Qed.

(** What the used ring says afterwards, and that nothing else changed. *)
Lemma push_stores_load q d w g : nq_ok q -> num q <> 0 ->
  let m := data (push_stores q d w g) in
  load m (used_elem q) 8 = WriteU32 d ++ WriteU32 w /\
  load m (device_addr q + 2) 2 = WriteU16 (u16 (last_used_idx q + 1)) /\
  only_writes (in_range (device_addr q) (4 + 8 * num q)) (data g) m.
Proof.
  intros Hq Hn. cbv zeta. pose proof (used_elem_range q Hq Hn) as He. unfold push_stores.
  cbn [data mem_store upd_field]. split_and!.
  - rewrite load_store_disjoint by (autorewrite with bytes_len; lia).
    change (load ?m ?a 8) with (load m a (4 + 4)). rewrite load_app by lia.
    rewrite load_store_disjoint by (autorewrite with bytes_len; lia). by rewrite !load_store_eq.
  - by apply load_store_eq.
  - repeat (eapply only_writes_trans; [|eapply only_writes_weaken; [|apply only_writes_store];
      intros z; autorewrite with bytes_len; unfold in_range; lia]). apply only_writes_refl.
Qed.

(** A receive buffer is posted: the chain [ds] from [head], in RAM, its buffers apart from
    each other, from the descriptor table and from the used ring. *)
Record rx_posted (s : net) (head : Z) (ixs : list Z) (ds : list Desc) : Prop := {
  rp_usable : usable (rxq s) = true;
  rp_new : last_avail_idx (rxq s) <> avail_idx (mem s) (rxq s);
  rp_head : avail_head (mem s) (rxq s) = head;
  rp_chain : linked (mem s) (desc_addr (rxq s)) (num (rxq s)) head ixs ds;
  rp_nodup : NoDup ixs;
  rp_buffers : Forall (rx_buffer (mem s) (desc_addr (rxq s)) (num (rxq s))) ds;
  rp_apart : ForallOrdPairs segs_apart ds;
  rp_used : device_addr (rxq s) + 4 + 8 * num (rxq s) <= len (mem s);
  rp_used_apart : Forall (fun d => apart (device_addr (rxq s)) (4 + 8 * num (rxq s)) (addr d) (dlen d)) ds }.

Definition capacity (ds : list Desc) : Z := fold_right Z.add 0 (map dlen ds).
Definition no_interrupt (s : net) (q : NetQueue) : bool :=
  has (read_u16 (mem s) (driver_addr q)) kRingAvailFNoInterrupt.

Lemma usable_true q : usable q = true ->
  ready q = true /\ num q <> 0 /\ driver_addr q <> 0 /\ desc_addr q <> 0 /\ device_addr q <> 0.
Proof.
  unfold usable. intros Hu. apply negb_true_iff in Hu. repeat apply orb_false_iff in Hu as [Hu ?].
  apply negb_false_iff in Hu. by repeat match goal with H : (_ =? _) = false |- _ => apply Z.eqb_neq in H end.
Qed.

Lemma raise_irq_run i (s : net) : i = 0 \/ i = 1 ->
  let q := queue_at i s in ready q = true -> driver_addr q <> 0 ->
  let s' := raise_used_buffer_irq i s in
  mem s' = mem s /\ queue_at i s' = q /\
  ioapic s' = (if no_interrupt s q then ioapic s else request_irq (irq s) (ioapic s)) /\
  interrupt_status s' = (if no_interrupt s q then interrupt_status s else Z.lor (interrupt_status s) kInterruptVring).
Proof.
  intros Hi q Hr Hd. cbv zeta. unfold raise_used_buffer_irq, no_interrupt. fold q.
  destruct (Z.leb_spec 2 i); [lia|]. rewrite Hr. cbn [negb orb]. destruct (Z.eqb_spec (driver_addr q) 0); [done|].
  by destruct (has _ _).
Qed.

Lemma only_writes_scatter ds : forall bs m, Forall desc_ok ds ->
  only_writes (fun a => exists d, d ∈ ds /\ in_range (addr d) (dlen d) a) m (scatter ds bs m).
Proof.
  induction ds as [|d ds IH]; intros bs m Hd; cbn [scatter]; [destruct bs; apply only_writes_refl|].
  apply Forall_cons_1 in Hd as [Hd Hds]. destruct bs as [|b bs']; [apply only_writes_refl|]. cbv zeta.
  set (x := take _ _). assert (Hx : Z.of_nat (length x) <= dlen d).
  { unfold x. rewrite length_take. destruct Hd. lia. }
  apply (only_writes_trans _ _ (store m (addr d) x)).
  - eapply only_writes_weaken; [|apply only_writes_store]. intros a Ha. exists d.
    split; [by left|]. unfold in_range in *. lia.
  - eapply only_writes_weaken; [|by apply IH]. intros a (e & He & Ha). exists e. split; [by right|done].
Qed.

Lemma gather_same m m' ds P :
  only_writes P m m' -> Forall (fun d => forall a, in_range (addr d) (dlen d) a -> ~ P a) ds ->
  gather m' ds = gather m ds.
Proof.
  intros Hw Hd. unfold gather. f_equal. apply map_ext_in. intros d Hin. rewrite List.Forall_forall in Hd.
  apply load_ext. intros x Hx. apply Hw. by apply (Hd d).
Qed.

Lemma rx_walk_fills g da n head ixs ds bs :
  0 <= len g < 2 ^ 64 -> ram_ok (data g) -> bytes_ok bs -> linked g da n head ixs ds -> NoDup ixs ->
  Forall (rx_buffer g da n) ds ->
  let g' := g <| data := scatter ds bs (data g) |> in
  rx_walk (Z.to_nat n) n da head bs g = (true, g') /\ mem_step g g'.
Proof.
  intros Hl Hr Hb Hc Hnd Hbuf g'.
  assert (Hw : rx_walk (Z.to_nat n) n da head bs g = (true, g')).
  { apply (rx_walk_linked g da n Hl _ _ _ Hc); [by eapply linked_short|done|by intros ? ?|done]. }
  split; [done|].
  assert (Hh : 0 <= head) by (inversion Hc as [? ? [? _]|? ? ? ? [? _]]; subst; lia).
  pose proof (rx_walk_step (Z.to_nat n) n da head bs g Hl Hr Hb Hh) as Hs. by rewrite Hw in Hs.
Qed.

Lemma size_frame_with_header (s : net) p :
  Z.of_nat (length (frame_with_header (virtio_net_hdr_len_locked s) p)) =
  virtio_net_hdr_len_locked s + Z.of_nat (length p).
Proof.
  unfold virtio_net_hdr_len_locked, frame_with_header. rewrite length_app, Nat2Z.inj_add.
  by destruct (has _ _).
Qed.

(** What the delivery of [p] into the chain [ds] from [head] leaves. *)
Definition rx_written (s : net) (p : list Z) (head : Z) (ds : list Desc) (s' : net) : Prop :=
  let q := rxq s in
  let framed := frame_with_header (virtio_net_hdr_len_locked s) p in
  let total := Z.of_nat (length framed) in
  rxq s' = next_used (next_avail q) /\
  take (length framed) (gather (data (mem s')) ds) = take (Z.to_nat (capacity ds)) framed /\
  load (data (mem s')) (used_elem q) 8 = WriteU32 head ++ WriteU32 total /\
  load (data (mem s')) (device_addr q + 2) 2 = WriteU16 (u16 (last_used_idx q + 1)) /\
  only_writes (fun a => in_range (device_addr q) (4 + 8 * num q) a \/
                        exists d, d ∈ ds /\ in_range (addr d) (dlen d) a) (data (mem s)) (data (mem s')) /\
  ioapic s' = (if no_interrupt s' q then ioapic s else request_irq (irq s) (ioapic s)).

Lemma rx_writes s p head ixs ds :
  net_ok s -> bytes_ok p -> Z.of_nat (length p) <= 1518 -> rx_posted s head ixs ds ->
  exists s', deliver_rx_packet_now p s = (true, s') /\ rx_written s p head ds s'.
Proof.
  intros Hs Hp Hlen [Hu Hnew Hhead Hchain Hnd Hbuf Hap Hused Huap]. unfold rx_written. cbv zeta.
  set (q := rxq s) in *. set (framed := frame_with_header _ p). set (total := Z.of_nat (length framed)).
  destruct (usable_true _ Hu) as (U1 & U2 & U3 & U4 & U5).
  pose proof (nok_rx _ Hs) as Hq. fold q in Hq.
  assert (Hh : 0 <= head < num q) by (inversion Hchain as [? ? [? _]|? ? ? ? [? _]]; subst; done).
  assert (Hdok : Forall desc_ok ds).
  { rewrite List.Forall_forall in *. intros d Hd. apply (rb_seg _ _ _ _ (Hbuf d Hd)). }
  unfold deliver_rx_packet_now. destruct (Z.ltb_spec (1500 + 14 + 4) (Z.of_nat (length p))); [lia|].
  cbv zeta. fold q. rewrite Hu. cbn [negb].
  destruct (Z.eqb_spec (last_avail_idx q) (avail_idx (mem s) q)); [done|]. rewrite Hhead.
  destruct (Z.leb_spec (num q) head); [lia|].
  set (s1 := s <| rxq := next_avail q |>). change (virtio_net_hdr_len_locked s1) with (virtio_net_hdr_len_locked s).
  fold framed. fold total. change (mem s1) with (mem s).
  destruct (rx_walk_fills (mem s) (desc_addr q) (num q) head ixs ds framed) as [Hw Hg];
    [apply Hs|apply Hs|by apply frame_with_header_ok|done..|]. rewrite Hw. cbn [negb].
  set (g := (mem s) <| data := scatter ds framed (data (mem s)) |>) in *.
  assert (Hs2 : net_ok (set_mem g s1)).
  { apply net_ok_set_mem; [|exact Hg]. apply (net_ok_queue 0 next_avail); [done|]. by apply next_avail_ok. }
  assert (Ht : u32 total = total).
  { apply u32_small. unfold total, framed. rewrite size_frame_with_header.
    unfold virtio_net_hdr_len_locked, kVirtioNetHdrLenBase. destruct (has _ _); lia. }
  rewrite Ht, (push_used_in_ram 0 head total (set_mem g s1) Hs2 U1 U2 U5 Hused).
  change (queue_at 0 (set_mem g s1)) with (next_avail q). set (s2 := set_mem (push_stores _ _ _ _) _).
  destruct (raise_irq_run 0 s2 (or_introl eq_refl) U1 U3) as (R1 & R2 & R3 & _).
  exists (raise_used_buffer_irq 0 s2). change (queue_at 0 (raise_used_buffer_irq 0 s2)) with (rxq (raise_used_buffer_irq 0 s2)) in R2.
  destruct (push_stores_load (next_avail q) head total g (next_avail_ok _ Hq) U2) as (L1 & L2 & L3).
  change (device_addr (next_avail q)) with (device_addr q) in *. change (num (next_avail q)) with (num q) in *.
  change (used_elem (next_avail q)) with (used_elem q) in *.
  change (mem s2) with (push_stores (next_avail q) head total g) in R1. rewrite R1.
  split_and!; [done|done| |done|done| |].
  - rewrite (gather_same (data g) _ ds _ L3).
    + by apply gather_scatter.
    + rewrite List.Forall_forall in *. intros d Hd a Ha Hb. specialize (Huap d Hd).
      unfold apart, in_range in *. lia.
  - apply (only_writes_trans _ _ (data g)); eapply only_writes_weaken;
      [|by apply only_writes_scatter| |exact L3]; intros a Ha; [by right|by left].
  - rewrite R3. unfold no_interrupt. by rewrite R1.
Qed.

(** C35.  A frame of at most 1518 bytes, with a buffer posted, is written header first into
    the buffers of the chain, in order and as far as they go; the used ring gets the chain
    and its cursor moves, nothing else is written, and the line is raised unless the driver
    asked for silence.  The length reported is that of header and frame, even when the
    buffers were too small to hold them. *)
Theorem net_rx_writes_frame s p head ixs ds :
  net_ok s -> bytes_ok p -> Z.of_nat (length p) <= 1518 -> rx_posted s head ixs ds ->
  let q := rxq s in
  let framed := frame_with_header (virtio_net_hdr_len_locked s) p in
  let total := Z.of_nat (length framed) in
  exists s', deliver_rx_packet_now p s = (true, s') /\
    rxq s' = next_used (next_avail q) /\
    take (length framed) (gather (data (mem s')) ds) = take (Z.to_nat (capacity ds)) framed /\
    load (data (mem s')) (used_elem q) 8 = WriteU32 head ++ WriteU32 total /\
    load (data (mem s')) (device_addr q + 2) 2 = WriteU16 (u16 (last_used_idx q + 1)) /\
    only_writes (fun a => in_range (device_addr q) (4 + 8 * num q) a \/
                          exists d, d ∈ ds /\ in_range (addr d) (dlen d) a) (data (mem s)) (data (mem s')) /\
    ioapic s' = (if no_interrupt s' q then ioapic s else request_irq (irq s) (ioapic s)).
Proof. intros Hs Hp Hlen Hpost. exact (rx_writes s p head ixs ds Hs Hp Hlen Hpost). Qed.

(** ** Receive order *)

(** [s] with an empty backlog: what the receive attempts themselves see. *)
Definition idle (s : net) : net := (s <| rx_backlog := [] |>) <| rx_flush_active := false |>.

(** A receive buffer is available: the queue is set up and the driver's index is ahead of
    the device's cursor. *)
Definition buffer_posted (s : net) : Prop :=
  usable (rxq s) = true /\ last_avail_idx (rxq s) <> avail_idx (mem s) (rxq s).

(** [taken p s s']: the frame [p] leaves the backlog.  One longer than 1518 bytes is dropped
    and changes nothing; any other takes one posted buffer, and when that is a chain in RAM
    the frame is written there and returned through the used ring. *)
Inductive taken (p : list Z) (s : net) : net -> Prop :=
  | taken_long : 1518 < Z.of_nat (length p) -> taken p s s
  | taken_buffer s' :
      Z.of_nat (length p) <= 1518 -> buffer_posted s ->
      last_avail_idx (rxq s') = u16 (last_avail_idx (rxq s) + 1) ->
      (forall head ixs ds, rx_posted s head ixs ds -> rx_written s p head ds s') -> taken p s s'.

(** [handed ps s s']: the frames [ps] are taken one after the other, and lead from [s] to
    [s']. *)
Inductive handed : list (list Z) -> net -> net -> Prop :=
  | handed_nil s : handed [] s s
  | handed_cons p ps s s1 s2 : taken p s s1 -> handed ps s1 s2 -> handed (p :: ps) s s2.

(** No buffer is available: every frame of acceptable size has to wait. *)
Definition rx_waits (s : net) : Prop := ~ buffer_posted s.

Lemma push_used_cursor i d w (s : net) :
  last_avail_idx (rxq (push_used i d w s).2) = last_avail_idx (rxq s).
Proof. unfold push_used, queue_at, with_queue. destruct (i =? 0); by destruct (_ || _). Qed.
Lemma raise_irq_rxq i (s : net) : rxq (raise_used_buffer_irq i s) = rxq s.
Proof. unfold raise_used_buffer_irq. destruct (2 <=? i); [done|]. destruct (_ || _); [done|]. by destruct (has _ _). Qed.

Lemma deliver_now_taken p s s' : net_ok s -> bytes_ok p ->
  deliver_rx_packet_now p s = (true, s') -> taken p s s'.
Proof.
  intros Hs Hp Hd. destruct (Z.ltb_spec 1518 (Z.of_nat (length p))) as [Hlong|Hshort].
  { unfold deliver_rx_packet_now in Hd. destruct (Z.ltb_spec (1500 + 14 + 4) (Z.of_nat (length p))); [|lia].
    injection Hd as <-. by apply taken_long. }
  assert (Hposted : buffer_posted s /\ last_avail_idx (rxq s') = u16 (last_avail_idx (rxq s) + 1)).
  { unfold deliver_rx_packet_now in Hd. destruct (Z.ltb_spec (1500 + 14 + 4) (Z.of_nat (length p))); [lia|].
    cbv zeta in Hd. unfold buffer_posted. destruct (usable (rxq s)); cbn [negb] in Hd; [|done].
    destruct (Z.eqb_spec (last_avail_idx (rxq s)) (avail_idx (mem s) (rxq s))); [done|]. split; [done|].
    destruct (_ <=? _); [by injection Hd as <-|]. destruct (rx_walk _ _ _ _ _ _) as [[|] g]; cbn [negb] in Hd;
      [|by injection Hd as <-].
    match type of Hd with context [push_used 0 ?d ?w ?x] => pose proof (push_used_cursor 0 d w x) as Hc;
      destruct (push_used 0 d w x) as [[|] s3] end; injection Hd as <-; cbn [snd] in Hc; [rewrite raise_irq_rxq|]; exact Hc. }
  destruct Hposted. apply taken_buffer; [lia|done..|]. intros head ixs ds Hr.
  destruct (rx_writes s p head ixs ds Hs Hp Hshort Hr) as (s1 & Hd1 & Hw). rewrite Hd1 in Hd. by injection Hd as <-.
Qed.

Lemma deliver_now_false p s s' :
  deliver_rx_packet_now p s = (false, s') -> s' = s /\ forall b a, rx_waits ((s <| rx_backlog := b |>) <| rx_flush_active := a |>).
Proof.
  unfold deliver_rx_packet_now. destruct (1500 + 14 + 4 <? _); [done|]. cbv zeta. intros H1.
  unfold rx_waits, buffer_posted. cbn [rxq mem upd_field].
  destruct (usable (rxq s)); cbn [negb] in H1; [|injection H1 as <-; split; [done|]; by intros b a [? _]].
  destruct (Z.eqb_spec (last_avail_idx (rxq s)) (avail_idx (mem s) (rxq s))) as [E|].
  { injection H1 as <-. split; [done|]. by intros b a [_ []]. }
  destruct (_ <=? _); [done|]. destruct (rx_walk _ _ _ _ _ _) as [[|] g]; [|done]. cbn [negb] in H1.
  by destruct (push_used _ _ _ _) as [[|] ?].
Qed.

(** Receive attempts neither see nor change the backlog. *)
Lemma push_used_backlog i d w b a (s : net) :
  push_used i d w ((s <| rx_backlog := b |>) <| rx_flush_active := a |>) =
  let (r, s') := push_used i d w s in (r, (s' <| rx_backlog := b |>) <| rx_flush_active := a |>).
Proof. unfold push_used, queue_at, with_queue. destruct (i =? 0); cbn [rxq txq upd_field]; by destruct (_ || _). Qed.
Lemma raise_irq_backlog i b a (s : net) :
  raise_used_buffer_irq i ((s <| rx_backlog := b |>) <| rx_flush_active := a |>) =
  ((raise_used_buffer_irq i s) <| rx_backlog := b |>) <| rx_flush_active := a |>.
Proof.
  unfold raise_used_buffer_irq, queue_at. destruct (2 <=? i); [done|].
  destruct (i =? 0); cbn [rxq txq mem upd_field]; (destruct (_ || _); [done|]); by destruct (has _ _).
Qed.
Lemma deliver_now_backlog p b a (s : net) :
  deliver_rx_packet_now p ((s <| rx_backlog := b |>) <| rx_flush_active := a |>) =
  let (r, s') := deliver_rx_packet_now p s in (r, (s' <| rx_backlog := b |>) <| rx_flush_active := a |>).
Proof.
  unfold deliver_rx_packet_now. destruct (1500 + 14 + 4 <? _); [done|]. cbv zeta. cbn [rxq mem upd_field].
  destruct (negb (usable _)); [done|]. destruct (_ =? _); [done|]. destruct (_ <=? _); [done|].
  change (virtio_net_hdr_len_locked _) with (virtio_net_hdr_len_locked s).
  destruct (rx_walk _ _ _ _ _ _) as [[|] g]; [|done]. cbn [negb].
  match goal with |- context [push_used 0 ?d ?w ?x] => lazymatch x with context [b] =>
    let E := constr:(push_used_backlog 0 d w b a (set_mem g (s <| rxq := next_avail (rxq s) |>))) in
    let T := type of E in
    lazymatch T with _ = ?r => replace (push_used 0 d w x) with r by exact (eq_sym E) end end end.
  destruct (push_used _ _ _ _) as [[|] s']; [|done]. by rewrite raise_irq_backlog.
Qed.

Lemma idle_ok s : net_ok s -> net_ok (idle s).
Proof. intros []. split; try done; cbn; lia. Qed.

Lemma deliver_now_idle p s s' : net_ok s -> bytes_ok p ->
  deliver_rx_packet_now p s = (true, s') -> taken p (idle s) (idle s').
Proof.
  intros Hs Hp Hd. apply deliver_now_taken; [by apply idle_ok|done|].
  pose proof (deliver_now_backlog p [] false s) as Hi. by rewrite Hd in Hi.
Qed.

Lemma handed_app ps qs s1 s2 s3 : handed ps s1 s2 -> handed qs s2 s3 -> handed (ps ++ qs) s1 s3.
Proof. induction 1; [done|]. intros. cbn. econstructor; eauto. Qed.

Lemma tail_backlog_ok (s : net) p l :
  net_ok s -> rx_backlog s = p :: l -> net_ok (s <| rx_backlog := l |>).
Proof.
  intros [] E. rewrite E in *. split; try done; cbn [rx_backlog upd_field length] in *; [lia|].
  by apply Forall_cons_1 in nok_frames0 as [_ ?].
Qed.

(** The outcome of a flush: the front of the backlog was handed over in order, and what
    is left waits for buffers. *)
Record flushed (s s' : net) : Prop := {
  fl_ok : net_step s s'; fl_active : rx_flush_active s' = false;
  fl_order : exists sent, rx_backlog s = sent ++ rx_backlog s' /\ handed sent (idle s) (idle s');
  fl_drained : rx_backlog s' = [] \/ rx_waits s';
  fl_txq : txq s' = txq s; fl_slirp : slirp s' = slirp s;
  fl_features : driver_features s' = driver_features s; fl_status : status s' = status s }.

Lemma flush_loop_spec fuel : forall s, net_ok s -> (length (rx_backlog s) <= fuel)%nat ->
  exists s', flush_loop fuel s = (Ok tt, s') /\ flushed s s'.
Proof.
  induction fuel as [|fuel IH]; intros s Hs Hl; cbn [flush_loop];
    destruct (rx_backlog s) as [|p l] eqn:E; cbn [length] in Hl; try lia.
  1,2: eexists; split; [done|]; split; try done; [split; [by destruct Hs|by apply touched_none]
    |exists []; rewrite E; split; [done|constructor]|by left].
  assert (Hp : bytes_ok p) by (pose proof (nok_frames _ Hs) as H1; rewrite E in H1; by apply Forall_cons_1 in H1 as [? _]).
  destruct (deliver_now_step p s Hs Hp) as [H1 H2].
  destruct (deliver_rx_packet_now p s) as [[|] s1] eqn:E1; cbn [snd] in H1, H2.
  - rewrite (rs_backlog _ _ H2), E. cbn [tail]. destruct H1 as [H1 Hm].
    assert (Hs1 : net_ok (s1 <| rx_backlog := l |>)).
    { apply (tail_backlog_ok s1 p); [done|]. by rewrite (rs_backlog _ _ H2). }
    destruct (IH (s1 <| rx_backlog := l |>) Hs1) as (s' & Hr & Hf); [cbn; lia|].
    exists s'. split; [exact Hr|]. destruct Hf as [Ho Ha (sent & Hb & Hh) Hd Ht Hsl Hft Hst].
    destruct H2 as [B1 B2 B3 B4 B5 B6]. cbn in Hb, Ht, Hsl, Hft, Hst.
    split; [|done| |done|congruence..].
    + eapply net_step_trans; [split; [exact Hs1|]|exact Ho]. by destruct Hm.
    + exists (p :: sent). cbn. rewrite E, <- Hb. split; [done|]. econstructor; [by apply (deliver_now_idle p s s1)|exact Hh].
  - apply deliver_now_false in E1 as [-> Hw]. eexists. split; [done|].
    split; try done; [split; [by destruct Hs|by apply touched_none]|exists []; split; [done|constructor]|].
    right. apply (Hw (rx_backlog s) false).
Qed.

Lemma flush_spec s : net_ok s -> rx_flush_active s = false ->
  exists s', flush_rx_backlog s = (Ok tt, s') /\ flushed s s'.
Proof.
  intros Hs Ha. unfold flush_rx_backlog. rewrite Ha.
  destruct (flush_loop_spec (length (rx_backlog s)) (s <| rx_flush_active := true |>)) as (s' & Hr & Hf);
    [by destruct Hs|done|]. exists s'. split; [exact Hr|].
  by destruct Hf as [[Hf1 []] ? ? ? ? ? ? ?].
Qed.

(** One frame from the network: accepted at the end of the queue unless 256 wait. *)
Lemma deliver_rx_spec p s : net_ok s -> bytes_ok p -> rx_flush_active s = false ->
  exists s' sent, deliver_rx_packet p s = (Ok tt, s') /\
    net_step s s' /\ rx_flush_active s' = false /\
    rx_backlog s ++ (if Z.of_nat (length (rx_backlog s)) <? kRxBacklogLimit then [p] else []) = sent ++ rx_backlog s' /\
    handed sent (idle s) (idle s') /\ (rx_backlog s' = [] \/ rx_waits s') /\
    txq s' = txq s /\ slirp s' = slirp s /\ driver_features s' = driver_features s /\ status s' = status s.
Proof.
  intros Hs Hp Ha. unfold deliver_rx_packet.
  assert (Hqueue : exists s' sent,
    flush_rx_backlog (if Z.of_nat (length (rx_backlog s)) <? kRxBacklogLimit
             then s <| rx_backlog := rx_backlog s ++ [p] |> else s) = (Ok tt, s') /\
    net_step s s' /\ rx_flush_active s' = false /\
    rx_backlog s ++ (if Z.of_nat (length (rx_backlog s)) <? kRxBacklogLimit then [p] else []) = sent ++ rx_backlog s' /\
    handed sent (idle s) (idle s') /\ (rx_backlog s' = [] \/ rx_waits s') /\
    txq s' = txq s /\ slirp s' = slirp s /\ driver_features s' = driver_features s /\ status s' = status s).
  { unfold kRxBacklogLimit. destruct (Z.ltb_spec (Z.of_nat (length (rx_backlog s))) 256).
    - destruct (flush_spec (s <| rx_backlog := rx_backlog s ++ [p] |>)) as (s' & Hr & []); [|done|].
      { destruct Hs; split; try done; cbn [rx_backlog upd_field]; [rewrite length_app; cbn; lia|].
        apply Forall_app. split; [done|]. by apply Forall_singleton. }
      destruct fl_order0 as (sent & Hb & Hh). exists s', sent. destruct fl_ok0 as [? []]. by split_and!.
    - destruct (flush_spec s Hs Ha) as (s' & Hr & []). destruct fl_order0 as (sent & Hb & Hh).
      exists s', sent. rewrite app_nil_r. by split_and!. }
  destruct (rx_backlog s) as [|p0 l] eqn:E; [|rewrite E in *; exact Hqueue].
  destruct (deliver_now_step p s Hs Hp) as [H1 H2].
  destruct (deliver_rx_packet_now p s) as [[|] s1] eqn:E1; cbn [snd] in H1, H2.
  - destruct H1 as [H1 Hm]. destruct (flush_spec s1 H1) as (s' & Hr & []); [by rewrite (rs_active _ _ H2)|].
    destruct fl_order0 as (sent & Hb & Hh). rewrite (rs_backlog _ _ H2), E in Hb.
    symmetry in Hb. apply app_eq_nil in Hb as [-> Hb]. exists s', [p]. destruct H2.
    split_and!; try done; try congruence.
    + by eapply net_step_trans.
    + by rewrite Hb.
    + econstructor; [by apply (deliver_now_idle p s s1)|exact Hh].
  - apply deliver_now_false in E1 as [-> _]. by rewrite E.
Qed.

(** ** Every operation, for any driver and any network *)

Definition net_idle (s : net) : Prop := net_ok s /\ rx_flush_active s = false.

(** Whatever the outcome, the step is allowed and no flush is left open; nothing throws,
    and only computations with [Q] of their fuel may run out of it. *)
Definition runs {A} (ends : Prop) (m : MN A) : Prop := forall s, net_idle s ->
  let (o, s') := m s in
  net_step s s' /\ rx_flush_active s' = false /\ (slirp s = None <-> slirp s' = None) /\
  match o with Ok _ => True | Throw _ => False | OutOfFuel => ~ ends end.

Lemma runs_ret {A} ends (a : A) : runs ends (mret a).
Proof. intros s [Hs Ha]. split; [by apply net_step_refl|]. done. Qed.
Lemma runs_modify ends f :
  (forall s, net_idle s -> net_step s (f s) /\ rx_flush_active (f s) = false /\ (slirp s = None <-> slirp (f s) = None)) ->
  runs ends (modify f).
Proof. intros Hf s Hs. cbn. destruct (Hf s Hs) as (? & ? & ?). by split_and!. Qed.
Lemma runs_bind {A B} ends (m : MN A) (k : A -> MN B) :
  runs ends m -> (forall a, runs ends (k a)) -> runs ends (m ≫= k).
Proof.
  intros Hm Hk s Hs. rewrite bind_run. specialize (Hm s Hs). destruct (m s) as [[a|e|] s1]; [|done|done].
  destruct Hm as (H1 & H2 & H3 & _). specialize (Hk a s1 (conj (proj1 H1) H2)).
  destruct (k a s1) as [o s2]. destruct Hk as (K1 & K2 & K3 & K4).
  split_and!; [by eapply net_step_trans|done|by rewrite H3|done..].
Qed.
Lemma runs_when ends b m : runs ends m -> runs ends (when b m).
Proof. intros Hm. destruct b; [done|apply runs_ret]. Qed.
Lemma runs_gets {A B} ends (f : net -> A) (k : A -> MN B) :
  (forall a, runs ends (k a)) -> runs ends (gets f ≫= k).
Proof. intros Hk s Hs. apply Hk, Hs. Qed.

Lemma runs_deliver ends p : bytes_ok p -> runs ends (deliver_rx_packet p).
Proof.
  intros Hp s [Hs Ha]. destruct (deliver_rx_spec p s Hs Hp Ha) as (s' & sent & -> & H1 & H2 & _ & _ & _ & _ & H3 & _).
  rewrite H3. by split_and!.
Qed.
Lemma runs_flush ends : runs ends flush_rx_backlog.
Proof.
  intros s [Hs Ha]. destruct (flush_spec s Hs Ha) as (s' & -> & []). rewrite fl_slirp0. by split_and!.
Qed.
Lemma runs_on_send ends p : bytes_ok p -> runs ends (on_send_packet p).
Proof.
  intros Hp. unfold on_send_packet. destruct (_ <? 60); apply runs_deliver; [|done].
  apply Forall_app. split; [done|]. apply List.Forall_forall. by intros x ->%repeat_spec.
Qed.
Lemma runs_input ends p : bytes_ok p -> runs ends (input_packet p).
Proof.
  intros Hp s Hs. unfold input_packet. pose proof (runs_ret ends tt s Hs) as Hret.
  destruct (slirp s) as [b|] eqn:Eb; [|destruct Hret as (? & ? & _); split_and!; [done|done|by rewrite Eb|done]].
  pose proof (slirp_input_bytes p b Hp) as Hf. destruct (slirp_input p b) as [frames b'].
  cbn [fst] in Hf. rewrite <- Eb.
  assert (Hl : runs ends (for_each on_send_packet frames)).
  { clear -Hf. induction Hf as [|q l Hq _ IH]; [apply runs_ret|]. cbn [for_each].
    apply runs_bind; [by apply runs_on_send|done]. }
  specialize (Hl (s <| slirp := Some b' |>)). destruct (for_each _ _ _) as [o s'].
  destruct Hl as (H1 & H2 & H3 & H4); [by destruct Hs as [[] ?]|]. split_and!; [by destruct H1 as [? []]|done| |done].
  rewrite <- H3, Eb. done.
Qed.

Lemma tx_walk_ok hops : forall g n da current packet,
  0 <= len g < 2 ^ 64 -> ram_ok (data g) -> bytes_ok packet -> bytes_ok (tx_walk hops g n da current packet).
Proof.
  induction hops as [|hops IH]; intros g n da current packet Hl Hg Hp; cbn [tx_walk]; [done|].
  destruct (n <=? current); [done|]. destruct (ptr_or_null g _ 16); [|done]. cbv zeta.
  set (d := read_desc _ _).
  assert (Hp' : bytes_ok (if has (flags d) kRingDescFWrite then packet else
    match ptr_or_null g (addr d) (dlen d) with Some segment => packet ++ load (data g) segment (dlen d) | None => packet end)).
  { destruct (has _ _); [done|]. destruct (ptr_or_null _ _ _); [|done]. apply Forall_app. split; [done|by apply load_ok]. }
  destruct (negb _); [done|]. destruct (n <=? next d); [done|]. by apply IH.
Qed.

Lemma runs_pure ends {A} (f : net -> A * net) :
  (forall s, net_idle s -> net_step s (f s).2 /\ rx_flush_active (f s).2 = false /\ slirp (f s).2 = slirp s) ->
  runs ends (fun s => let (a, s') := f s in (Ok a, s')).
Proof.
  intros Hf s Hs. destruct (Hf s Hs) as (H1 & H2 & H3). destruct (f s) as [a s']. cbn [snd] in *.
  split_and!; [done|done|by rewrite H3|done].
Qed.

Lemma push_used_1_same d w (s : net) :
  rx_flush_active (push_used 1 d w s).2 = rx_flush_active s /\ slirp (push_used 1 d w s).2 = slirp s.
Proof. unfold push_used. by destruct (_ || _). Qed.

Lemma runs_tx_loop fuel : forall processed, runs False (tx_loop fuel processed).
Proof.
  induction fuel as [|fuel IH]; intros processed s Hs; cbn [tx_loop].
  { split; [by apply net_step_refl, Hs|]. split; [apply Hs|]. tauto. }
  cbv zeta. pose proof (runs_ret False (@None bool) s Hs) as Hret.
  destruct (negb _); [exact Hret|]. destruct (_ =? _); [exact Hret|].
  set (s1 := s <| txq := next_avail (txq s) |>).
  assert (Hs1 : net_idle s1).
  { split; [|apply Hs]. apply (net_ok_queue 1 next_avail); [apply Hs|]. apply next_avail_ok, Hs. }
  assert (H1 : net_step s s1) by (split; [apply Hs1|by apply touched_none; [apply Hs|..]]).
  assert (Hgo : forall m : MN (option bool), runs False m -> let (o, s') := m s1 in
    net_step s s' /\ rx_flush_active s' = false /\ (slirp s = None <-> slirp s' = None) /\
    match o with Ok _ => True | Throw _ => False | OutOfFuel => ~ False end).
  { intros m Hm. specialize (Hm s1 Hs1). destruct (m s1) as [o s']. destruct Hm as (M1 & M2 & M3 & M4).
    split; [exact (net_step_trans _ _ _ H1 M1)|]. by split. }
  destruct (num _ <=? _); [by apply Hgo|]. apply Hgo. apply runs_bind.
  - apply runs_when, runs_input, Forall_drop, tx_walk_ok; [apply Hs1..|by constructor].
  - intros _ s2 Hs2. set (desc_idx := avail_head _ _).
    pose proof (push_used_net_step 1 desc_idx 0 s2 (proj1 Hs2)) as Hp.
    destruct (push_used_1_same desc_idx 0 s2) as [E1 E2].
    destruct (push_used 1 desc_idx 0 s2) as [pushed s3]. cbn [snd] in *.
    specialize (IH (if pushed then true else processed) s3). destruct (tx_loop _ _ _) as [o s4].
    destruct IH as (I1 & I2 & I3 & I4); [split; [apply Hp|rewrite E1; apply Hs2]|].
    split; [exact (net_step_trans _ _ _ Hp I1)|]. split; [done|]. by rewrite <- E2.
Qed.

Lemma runs_raise ends i : runs ends (modify (raise_used_buffer_irq i)).
Proof.
  apply runs_modify. intros s [Hs Ha]. destruct (raise_irq_same i s).
  split_and!; [by apply raise_irq_step|congruence|by rewrite rs_slirp0].
Qed.

Lemma runs_process_tx fuel : runs False (process_tx_queue fuel).
Proof.
  intros s Hs. unfold process_tx_queue. pose proof (runs_ret False tt s Hs) as Hret.
  destruct (slirp s) eqn:E; [|destruct Hret as (? & ? & _); split_and!; [done|done|by rewrite E|done]]. clear Hret.
  rewrite <- E. revert s Hs E. intros s Hs _. revert s Hs.
  apply runs_bind; [apply runs_tx_loop|]. intros r. apply runs_when, runs_raise.
Qed.

Lemma runs_weaken {A} (e1 e2 : Prop) (m : MN A) : (e2 -> e1) -> runs e1 m -> runs e2 m.
Proof.
  intros He Hm s Hs. specialize (Hm s Hs). destruct (m s) as [o s']. destruct Hm as (? & ? & ? & Ho).
  split_and!; [done..|]. destruct o; [done|done|]. by intros ?%He.
Qed.

Lemma runs_field ends (f : net -> net) :
  (forall s, net_ok s -> net_ok (f s) /\ mem (f s) = mem s /\ ioapic (f s) = ioapic s /\ irq (f s) = irq s /\
     mmio_base (f s) = mmio_base s /\ rx_flush_active (f s) = rx_flush_active s /\ slirp (f s) = slirp s) ->
  runs ends (modify f).
Proof.
  intros Hf. apply runs_modify. intros s [Hs Ha]. destruct (Hf s Hs) as (H1 & H2 & H3 & H4 & H5 & H6 & H7).
  split_and!; [|congruence|by rewrite H7]. split; [done|]. by apply touched_none.
Qed.

Lemma runs_with_queue ends i f : (forall q, nq_ok q -> nq_ok (f q)) -> runs ends (modify (with_queue i f)).
Proof.
  intros Hf. apply runs_field. intros s Hs. split; [by apply net_ok_queue, Hf, net_queue_at_ok|].
  unfold with_queue. by destruct (i =? 0).
Qed.

Lemma update_status_ok v (s : net) : 0 <= v < 2 ^ 32 -> net_ok s ->
  let s' := update_status_locked v s in
  net_ok s' /\ mem s' = mem s /\ ioapic s' = ioapic s /\ irq s' = irq s /\ mmio_base s' = mmio_base s /\
  rx_flush_active s' = rx_flush_active s /\ slirp s' = slirp s.
Proof.
  intros Hv Hs. cbv zeta. unfold update_status_locked. cbv zeta.
  assert (Hi : nq_ok Queue_init) by done.
  assert (Hr : forall q, nq_ok q -> nq_ok (q <| ready := false |>)) by (intros q []; by split).
  destruct (v =? 0). { destruct Hs. by split_and!. }
  destruct (has v _). { destruct Hs; split_and!; try done. split; try done; by apply Hr. }
  assert (Hm : 0 <= Z.land v (bnot 32 kVirtioStatusFeaturesOk) < 2 ^ 32).
  { rewrite Z.land_comm. by apply land_range. }
  destruct (has v kVirtioStatusFeaturesOk && negb (has (status s) kVirtioStatusFeaturesOk));
    [destruct (negb (Z.land (driver_features (s <| status := v |>)) (bnot 64 VirtioNetDeviceFeatures) =? 0))|];
    (match goal with |- context [if ?b then _ else _] => destruct b end);
    (split_and!; [destruct Hs; by split|done..]).
Qed.

Definition is_tx_kick (off value : Z) : bool := (off =? kMmioQueueNotify) && (value =? 1).

Lemma runs_write_reg fuel off value : 0 <= value < 2 ^ 32 ->
  runs (is_tx_kick off value = false) (write_reg fuel off value).
Proof.
  intros Hv. unfold write_reg. apply runs_gets. intros sel. cbv zeta.
  repeat match goal with |- context [if off =? ?k then _ else _] => destruct (Z.eqb_spec off k) end;
    try apply runs_when; try (apply runs_ret).
  all: try (apply runs_with_queue; intros q []; split; try done; cbn;
    try (by apply set_lo32_range); try (by apply set_hi32_range)).
  all: try (apply runs_field; intros s Hs; split_and!; try done; destruct Hs; split; try done; cbn).
  all: try (by destruct (driver_features_sel s =? 0); [apply set_lo32_range|apply set_hi32_range]).
  all: try (by rewrite Z.land_comm; apply land_range).
  - unfold kQueueSize. destruct (Z.eqb_spec value 0); lia.
  - destruct (Z.eqb_spec value 1) as [->|].
    + eapply runs_weaken; [|apply runs_process_tx]. by rewrite e.
    + apply runs_when, runs_flush.
  - apply runs_field. intros s Hs. by apply update_status_ok.
Qed.

(** The entry points: a register write with its [fuel] bound, a frame from the network. *)
Inductive net_op :=
  | OpWrite (fuel : nat) (addr : Z) (bytes : list Z)
  | OpDeliver (frame : list Z).
Definition net_op_ok (op : net_op) : Prop :=
  match op with OpWrite _ _ bs => bytes_ok bs | OpDeliver frame => bytes_ok frame end.
Definition run (op : net_op) : MN unit :=
  match op with OpWrite fuel a bs => write_mmio fuel a bs | OpDeliver frame => deliver_rx_packet frame end.
(** A four-byte write of 1 to QueueNotify. *)
Definition tx_kick (s : net) (op : net_op) : Prop :=
  match op with
  | OpWrite _ a bs => length bs = 4%nat /\ is_tx_kick (u32 (a - mmio_base s)) (ReadU32 bs) = true
  | OpDeliver _ => False
  end.

Inductive reachable (s0 : net) : net -> Prop :=
  | reach_start : reachable s0 s0
  | reach_op s op : reachable s0 s -> net_op_ok op -> reachable s0 (run op s).2.

Lemma run_step op s : net_idle s -> net_op_ok op ->
  let (o, s') := run op s in
  net_step s s' /\ net_idle s' /\
  match o with Ok _ => True | Throw _ => False | OutOfFuel => tx_kick s op end.
Proof.
  intros Hs Hop.
  destruct op as [fuel a bs|frame]; cbn [run net_op_ok] in *.
  - unfold write_mmio. rewrite gets_bind. destruct (Z.eqb_spec (Z.of_nat (length bs)) 4) as [E|]; cbn [negb].
    + pose proof (ReadU32_range bs Hop ltac:(lia)) as Hv.
      pose proof (runs_write_reg fuel (u32 (a - mmio_base s)) (ReadU32 bs) Hv s Hs) as Hr.
      destruct (write_reg _ _ _ s) as [o s']. destruct Hr as (H1 & H2 & H3 & H4).
      split; [done|]. split; [by split; [apply H1|]|]. destruct o; [done|done|].
      split; [lia|]. by destruct (is_tx_kick _ _).
    + split; [apply net_step_refl, Hs|]. done.
  - pose proof (runs_deliver True frame Hop s Hs) as Hr. destruct (deliver_rx_packet frame s) as [o s'].
    destruct Hr as (H1 & H2 & H3 & H4). split; [done|]. split; [by split; [apply H1|]|].
    destruct o; [done|done|]. by apply H4.
Qed.

Lemma read_mmio_bytes (s : net) a n : 0 <= n ->
  length (read_mmio s a n) = Z.to_nat n /\ bytes_ok (read_mmio s a n).
Proof.
  intros Hn. unfold read_mmio. destruct (negb _).
  - rewrite repeat_length. split; [done|]. apply List.Forall_forall. by intros x ->%repeat_spec.
  - rewrite length_map, length_seqZ. split; [done|]. apply List.Forall_forall.
    intros x (i & <- & _)%in_map_iff. apply u8_range.
Qed.

(** C33.  Whatever registers the driver writes, whatever it puts in its rings and whatever
    frames arrive, in any order: nothing throws, only guest memory is written, the cursors,
    queue sizes and the backlog stay in range, no flush stays open, reads give the bytes
    asked for, and the only call that can fail to return is the transmit kick. *)
Theorem net_safe s0 s op a n :
  net_idle s0 -> reachable s0 s -> net_op_ok op -> 0 <= n ->
  net_idle s /\ mem_step (mem s0) (mem s) /\
  (length (read_mmio s a n) = Z.to_nat n /\ bytes_ok (read_mmio s a n)) /\
  match (run op s).1 with Ok _ => True | Throw _ => False | OutOfFuel => tx_kick s op end.
Proof.
  intros Hs0 Hr Hop Hn.
  assert (Hi : net_idle s /\ mem_step (mem s0) (mem s)).
  { clear Hop. induction Hr as [|s op' Hr [IH1 IH2] Hop].
    - split; [done|]. apply mem_step_refl, Hs0.
    - pose proof (run_step op' s IH1 Hop) as Hs. destruct (run op' s) as [o s']. cbn [snd].
      destruct Hs as ([_ [Hm _ _ _]] & Hi & _). split; [done|]. by eapply mem_step_trans. }
  destruct Hi as [Hi Hm]. split; [done|]. split; [done|]. split; [by apply read_mmio_bytes|].
  pose proof (run_step op s Hi Hop) as Hs. destruct (run op s) as [o s']. apply Hs.
Qed.

(** C34.  Frames from the network leave the backlog in the order they came.  A frame is
    refused only when 256 wait already.  A call takes a prefix of the waiting frames: a
    frame longer than 1518 bytes is dropped, any other takes exactly one buffer the driver
    has posted and is written into it when that is a chain in RAM; without a posted buffer
    nothing is taken, and frames are left waiting only then.  The same holds when the
    driver announces new buffers.  Both calls always return. *)
Theorem net_rx_fifo p s :
  net_idle s -> bytes_ok p ->
  let accepted := if Z.of_nat (length (rx_backlog s)) <? 256 then [p] else [] in
  (exists s' sent, deliver_rx_packet p s = (Ok tt, s') /\
     rx_backlog s ++ accepted = sent ++ rx_backlog s' /\ handed sent (idle s) (idle s') /\
     (rx_backlog s' = [] \/ rx_waits s')) /\
  (exists s' sent, flush_rx_backlog s = (Ok tt, s') /\
     rx_backlog s = sent ++ rx_backlog s' /\ handed sent (idle s) (idle s') /\
     (rx_backlog s' = [] \/ rx_waits s')).
Proof.
  intros [Hs Ha] Hp. cbv zeta. split.
  - destruct (deliver_rx_spec p s Hs Hp Ha) as (s' & sent & H1 & _ & _ & H2 & H3 & H4 & _). by exists s', sent.
  - destruct (flush_spec s Hs Ha) as (s' & H1 & []). destruct fl_order0 as (sent & H2 & H3). by exists s', sent.
Qed.

(** ** What a transmit kick sends *)

(** The used ring of [q]. *)
Definition used_ring (q : NetQueue) : Z -> Prop := in_range (device_addr q) (4 + 8 * num q).

(** A transmit queue in RAM whose used ring overlaps nothing the device reads. *)
Record tx_ring_ok (g : GuestMemory) (q : NetQueue) : Prop := {
  tr_usable : usable q = true;
  tr_used : device_addr q + 4 + 8 * num q <= len g;
  tr_avail : driver_addr q + 4 + 2 * num q <= len g;
  tr_table : desc_addr q + 16 * num q <= len g;
  tr_avail_apart : apart (device_addr q) (4 + 8 * num q) (driver_addr q) (4 + 2 * num q);
  tr_table_apart : apart (device_addr q) (4 + 8 * num q) (desc_addr q) (16 * num q);
  tr_segs_apart : forall i, 0 <= i < num q ->
    let d := read_desc (data g) (desc_addr q + i * 16) in
    has (flags d) kRingDescFWrite = false -> apart (device_addr q) (4 + 8 * num q) (addr d) (dlen d) }.

(** The chains between the device's cursor and [n] entries further. *)
Fixpoint tx_heads (g : GuestMemory) (q : NetQueue) (n : nat) : list Z :=
  match n with
  | O => []
  | Datatypes.S n => avail_head g q :: tx_heads g (next_avail q) n
  end.
(** The descriptors of the chain from [current], at most [hops]: each names the next one,
    and the chain stops at one without NEXT, outside the queue or outside RAM. *)
Fixpoint tx_chain (hops : nat) (g : GuestMemory) (q : NetQueue) (current : Z) : list Desc :=
  match hops with
  | O => []
  | Datatypes.S hops =>
      let p := u64 (desc_addr q + current * 16) in
      if (num q <=? current) || (len g <? p + 16) then []
      else
        let d := read_desc (data g) p in
        d :: (if has (flags d) kRingDescFNext then tx_chain hops g q (next d) else [])
  end.
(** The bytes a descriptor contributes: none when it is the device's to write or leaves
    RAM. *)
Definition tx_segment (g : GuestMemory) (d : Desc) : list Z :=
  if has (flags d) kRingDescFWrite || (len g <? addr d + dlen d) then [] else load (data g) (addr d) (dlen d).
Definition tx_packet (g : GuestMemory) (q : NetQueue) (head : Z) : list Z :=
  concat (map (tx_segment g) (tx_chain (Z.to_nat (num q)) g q head)).
(** The frames of the chains: what follows the header, when anything does. *)
Definition tx_frames (g : GuestMemory) (q : NetQueue) (hdr_len : Z) (heads : list Z) : list (list Z) :=
  flat_map (fun h => let p := tx_packet g q h in
    if hdr_len <? Z.of_nat (length p) then [drop (Z.to_nat hdr_len) p] else []) heads.
Fixpoint tx_complete (q : NetQueue) (heads : list Z) (g : GuestMemory) : GuestMemory :=
  match heads with
  | [] => g
  | h :: heads => tx_complete (next_used q) heads (push_stores q h 0 g)
  end.

Lemma tx_walk_packet hops g q : 0 <= len g < 2 ^ 64 -> ram_ok (data g) -> forall current packet,
  tx_walk hops g (num q) (desc_addr q) current packet =
  packet ++ concat (map (tx_segment g) (tx_chain hops g q current)).
Proof.
  intros Hl Hram. induction hops as [|hops IH]; intros c packet; cbn [tx_walk tx_chain]; [by rewrite app_nil_r|].
  destruct (num q <=? c); cbn [orb]; [by rewrite app_nil_r|]. cbv zeta. pose proof (u64_range (desc_addr q + c * 16)) as Hp.
  set (p := u64 _) in *. destruct (Z.ltb_spec (len g) (p + 16)) as [Ho|Ho].
  { destruct (ptr_or_null g p 16) eqn:E; [|by rewrite app_nil_r]. apply net_ptr_ok in E; lia. }
  assert (ptr_or_null g p 16 = Some p) as -> by (apply net_ptr_ok; lia).
  pose proof (read_desc_ok (data g) p Hram) as Hd. set (d := read_desc (data g) p) in *.
  assert (Hseg : (if has (flags d) kRingDescFWrite then packet
     else match ptr_or_null g (addr d) (dlen d) with
          | Some segment => packet ++ load (data g) segment (dlen d) | None => packet end) = packet ++ tx_segment g d).
  { unfold tx_segment. destruct Hd. destruct (has _ _); cbn [orb]; [by rewrite app_nil_r|].
    destruct (Z.ltb_spec (len g) (addr d + dlen d)).
    - destruct (ptr_or_null g (addr d) (dlen d)) eqn:E; [|by rewrite app_nil_r]. apply net_ptr_ok in E; lia.
    - by assert (ptr_or_null g (addr d) (dlen d) = Some (addr d)) as -> by (apply net_ptr_ok; lia). }
  rewrite Hseg. cbn [map concat]. rewrite app_assoc.
  destruct (has (flags d) kRingDescFNext); cbn [negb]; [|by rewrite app_nil_r].
  destruct (Z.leb_spec (num q) (next d)) as [Hn|]; [|apply IH].
  destruct hops; cbn [tx_chain]; [by rewrite app_nil_r|].
  destruct (Z.leb_spec (num q) (next d)); [|lia]. cbn [orb]. by rewrite app_nil_r.
Qed.

(** On a well-formed chain these are its descriptors. *)
Lemma tx_chain_linked g q head ixs ds hops :
  linked g (desc_addr q) (num q) head ixs ds -> (length ds <= hops)%nat -> tx_chain hops g q head = ds.
Proof.
  intros Hl. revert hops. induction Hl as [i d Hd Hn|i d ixs ds Hd Hn Hl IH]; intros hops Hh;
    (destruct hops as [|hops]; [cbn in Hh; lia|]); cbn [tx_chain length] in *;
    destruct Hd as (Hi & Hr & Hd & _); cbv zeta;
    (destruct (Z.leb_spec (num q) i); [lia|]); (destruct (Z.ltb_spec (len g) (u64 (desc_addr q + i * 16) + 16)); [lia|]);
    cbn [orb]; rewrite <- Hd, Hn; [done|]. f_equal. apply IH. lia.
Qed.

Lemma tx_packet_linked g q head ixs ds :
  linked g (desc_addr q) (num q) head ixs ds -> NoDup ixs ->
  Forall (fun d => seg_ok g d /\ has (flags d) kRingDescFWrite = false) ds ->
  tx_packet g q head = gather (data g) ds.
Proof.
  intros Hl Hnd Hd. unfold tx_packet. rewrite (tx_chain_linked _ _ _ _ _ _ Hl) by by eapply linked_short.
  unfold gather. f_equal. apply map_ext_in. intros d Hin. rewrite List.Forall_forall in Hd.
  destruct (Hd d Hin) as [[_ Hr] Hw]. unfold tx_segment. rewrite Hw. cbn [orb].
  destruct (Z.ltb_spec (len g) (addr d + dlen d)); [lia|done].
Qed.

Definition same_outside (q : NetQueue) (g g' : GuestMemory) : Prop :=
  len g' = len g /\ only_writes (used_ring q) (data g) (data g').

Section Tx.
Context (g0 : GuestMemory) (q0 : NetQueue) (Hring : tx_ring_ok g0 q0) (Hq0 : nq_ok q0).
Context (Hl0 : 0 <= len g0 < 2 ^ 64) (Hram0 : ram_ok (data g0)).

(** [q] differs from [q0] by its cursors only. *)
Record same_queue (q : NetQueue) : Prop := {
  sq_ok : nq_ok q; sq_ready : ready q = ready q0; sq_num : num q = num q0;
  sq_desc : desc_addr q = desc_addr q0; sq_driver : driver_addr q = driver_addr q0;
  sq_device : device_addr q = device_addr q0 }.

Lemma same_queue_avail q : same_queue q -> same_queue (next_avail q).
Proof. intros []. split; try done. by apply next_avail_ok. Qed.
Lemma same_queue_used q : same_queue q -> same_queue (next_used q).
Proof. intros [[]]. split; try done. split; try done. apply u16_range. Qed.

Lemma load_outside g a n : same_outside q0 g0 g ->
  apart (device_addr q0) (4 + 8 * num q0) a n -> load (data g) a n = load (data g0) a n.
Proof.
  intros [_ Hw] Ha. apply load_ext. intros x Hx. apply Hw. unfold used_ring, in_range, apart in *. lia.
Qed.

Lemma ptr_outside g a n : same_outside q0 g0 g -> ptr_or_null g a n = ptr_or_null g0 a n.
Proof. intros [Hl _]. unfold ptr_or_null. by rewrite Hl. Qed.

Lemma read_u16_outside g a : same_outside q0 g0 g ->
  apart (device_addr q0) (4 + 8 * num q0) a 2 -> read_u16 g a = read_u16 g0 a.
Proof.
  intros Hs Ha. unfold read_u16, ptr_or_null. rewrite (proj1 Hs). destruct (_ || _); [done|].
  by rewrite load_outside.
Qed.

Lemma avail_outside g q : same_outside q0 g0 g -> same_queue q ->
  avail_idx g q = avail_idx g0 q0 /\ avail_head g q = avail_head g0 q.
Proof.
  intros Hs [Hq _ Hn _ Hd _]. destruct Hring, (usable_true _ tr_usable0) as (_ & Hn0 & _). destruct Hq0, Hq.
  pose proof (Z.mod_pos_bound (last_avail_idx q) (num q0) ltac:(lia)).
  unfold avail_idx, avail_head. rewrite Hd, Hn. rewrite !u64_small by lia. unfold apart in *.
  split; apply read_u16_outside; try done; unfold apart; lia.
Qed.

Lemma read_desc_outside g i : same_outside q0 g0 g -> 0 <= i < num q0 ->
  read_desc (data g) (desc_addr q0 + i * 16) = read_desc (data g0) (desc_addr q0 + i * 16).
Proof.
  intros Hs Hi. destruct Hring. unfold read_desc, apart in *.
  rewrite !(load_outside g) by (done || unfold apart; lia). done.
Qed.

Lemma tx_walk_outside hops : forall g current packet, same_outside q0 g0 g -> 0 <= current ->
  tx_walk hops g (num q0) (desc_addr q0) current packet = tx_walk hops g0 (num q0) (desc_addr q0) current packet.
Proof.
  induction hops as [|hops IH]; intros g c packet Hs Hc; cbn [tx_walk]; [done|].
  destruct (Z.leb_spec (num q0) c); [done|]. pose proof (tr_table _ _ Hring) as Ht. destruct Hq0.
  rewrite u64_small by lia. rewrite !(ptr_outside g) by done.
  destruct (ptr_or_null g0 (desc_addr q0 + c * 16) 16) as [p|] eqn:Ep; [|done].
  apply net_ptr_ok in Ep as [-> _]; [|done|lia..]. cbv zeta.
  rewrite read_desc_outside by (done || lia).
  pose proof (tr_segs_apart _ _ Hring c ltac:(lia)) as Hseg. cbv zeta in Hseg.
  pose proof (ok_next _ (read_desc_ok (data g0) (desc_addr q0 + c * 16) Hram0)) as Hnext.
  pose proof (read_desc_ok (data g0) (desc_addr q0 + c * 16) Hram0) as Hd.
  set (d := read_desc (data g0) _) in *. rewrite !(ptr_outside g) by done.
  assert (Ea : has (flags d) kRingDescFWrite = false ->
    match ptr_or_null g0 (addr d) (dlen d) with
      Some segment => packet ++ load (data g) segment (dlen d) | None => packet end =
    match ptr_or_null g0 (addr d) (dlen d) with
      Some segment => packet ++ load (data g0) segment (dlen d) | None => packet end).
  { intros Ew. destruct (ptr_or_null g0 (addr d) (dlen d)) as [p|] eqn:Ep; [|done].
    apply net_ptr_ok in Ep as [-> _]; [|done|apply Hd..]. by rewrite load_outside by (done || by apply Hseg). }
  destruct (has (flags d) kRingDescFWrite); [|rewrite (Ea eq_refl)];
    (destruct (negb _); [done|]); (destruct (num q0 <=? next d); [done|]); (apply IH; [done|lia]).
Qed.

Lemma push_outside q h w g : same_outside q0 g0 g -> same_queue q -> same_outside q0 g0 (push_stores q h w g).
Proof.
  intros [Hl Hw] [Hq _ Hn _ _ Hd]. destruct (usable_true _ (tr_usable _ _ Hring)) as (_ & Hn0 & _).
  split; [done|]. eapply only_writes_trans; [exact Hw|].
  destruct (push_stores_load q h w g Hq ltac:(lia)) as (_ & _ & H3).
  unfold used_ring. by rewrite <- Hn, <- Hd.
Qed.

(** Each round of the loop with a backend that answers nothing at once. *)
Context (Hsilent : forall p b, (slirp_input p b).1 = []).

Definition tx_send (frames : list (list Z)) (b : S) : S :=
  fold_left (fun b p => (slirp_input p b).2) frames b.

Record tx_done (s s' : net) (heads : list Z) (b : S) : Prop := {
  td_slirp : slirp s' = Some (tx_send (tx_frames g0 q0 (virtio_net_hdr_len_locked s) heads) b);
  td_mem : mem s' = tx_complete (txq s) heads (mem s);
  td_outside : same_outside q0 g0 (mem s');
  td_queue : same_queue (txq s');
  td_used : last_used_idx (txq s') = u16 (last_used_idx (txq s) + Z.of_nat (length heads));
  td_ioapic : ioapic s' = ioapic s; td_irq : irq s' = irq s;
  td_interrupt : interrupt_status s' = interrupt_status s;
  td_features : driver_features s' = driver_features s; td_rxq : rxq s' = rxq s;
  td_ok : net_idle s' }.

Lemma tx_complete_cursor q hs g : forall k, tx_complete (q <| last_avail_idx := k |>) hs g = tx_complete q hs g.
Proof.
  intros k. revert q g. induction hs as [|h hs IH]; intros q g; cbn [tx_complete]; [done|].
  rewrite <- (IH (next_used q)). done.
Qed.

Lemma input_silent p (s : net) b : slirp s = Some b ->
  input_packet p s = (Ok tt, s <| slirp := Some (slirp_input p b).2 |>).
Proof.
  intros E. unfold input_packet. rewrite E. specialize (Hsilent p b).
  destruct (slirp_input p b) as [frames b']. cbn [fst] in Hsilent. by subst frames.
Qed.

Lemma same_queue_usable q : same_queue q -> usable q = true.
Proof. intros []. rewrite <- (tr_usable _ _ Hring). unfold usable. congruence. Qed.

Lemma tx_done_refl s b : net_idle s -> same_outside q0 g0 (mem s) -> same_queue (txq s) ->
  slirp s = Some b -> tx_done s s [] b.
Proof.
  intros Hs Ho Hq Hb. split; try done. cbn [length]. rewrite Z.add_0_r. destruct Hq as [[]].
  symmetry. by apply u16_small.
Qed.

(** Serving one chain: the frame goes to the backend, then the chain to the used ring. *)
Lemma tx_serve s b h : net_idle s -> same_outside q0 g0 (mem s) -> same_queue (txq s) -> slirp s = Some b ->
  0 <= h < num q0 ->
  let packet := tx_packet g0 q0 h in
  let hdr := virtio_net_hdr_len_locked s in
  exists s2, when (hdr <? Z.of_nat (length packet)) (input_packet (drop (Z.to_nat hdr) packet)) s = (Ok tt, s2) /\
    exists s3, push_used 1 h 0 s2 = (true, s3) /\ tx_done s s3 [h] b /\
      last_avail_idx (txq s3) = last_avail_idx (txq s).
Proof.
  intros Hs Ho Hq Hb Hh packet hdr.
  set (b2 := tx_send (tx_frames g0 q0 hdr [h]) b).
  assert (Hrun : exists s2, when (hdr <? Z.of_nat (length packet)) (input_packet (drop (Z.to_nat hdr) packet)) s = (Ok tt, s2) /\
    s2 = s <| slirp := Some b2 |>).
  { unfold b2, tx_frames. cbn [flat_map]. fold packet. destruct (hdr <? Z.of_nat (length packet)); cbn [when].
    - rewrite (input_silent _ _ _ Hb). eexists. split; [done|]. done.
    - eexists. split; [done|]. cbn. rewrite <- Hb. by destruct s. }
  destruct Hrun as (s2 & Hrun & ->). eexists. split; [exact Hrun|].
  assert (Hs2 : net_ok (s <| slirp := Some b2 |>)) by (destruct Hs as [[] _]; by split).
  destruct (usable_true _ (same_queue_usable _ Hq)) as (U1 & U2 & _ & _ & U5).
  assert (Hp : push_used 1 h 0 (s <| slirp := Some b2 |>) =
    (true, set_mem (push_stores (txq s) h 0 (mem s)) (with_queue 1 next_used (s <| slirp := Some b2 |>)))).
  { apply (push_used_in_ram 1 h 0 (s <| slirp := Some b2 |>) Hs2 U1 U2 U5). destruct Ho as [Hl _], Hq.
    change (queue_at 1 (s <| slirp := Some b2 |>)) with (txq s). change (mem (s <| slirp := Some b2 |>)) with (mem s).
    rewrite Hl, sq_num0, sq_device0. apply Hring. }
  eexists. split; [exact Hp|]. split; [|done].
  pose proof (eq_ind _ (fun r => net_step (s <| slirp := Some b2 |>) r.2) (push_used_net_step 1 h 0 _ Hs2) _ Hp) as Hnet.
  split; try done.
  - by apply push_outside.
  - by apply same_queue_used.
  - split; [apply Hnet|apply Hs].
Qed.

Lemma tx_done_trans s1 s2 s3 h1 h2 b :
  tx_done s1 s2 h1 b -> (forall b', slirp s2 = Some b' -> tx_done s2 s3 h2 b') ->
  tx_complete (txq s2) h2 (mem s2) = tx_complete (txq s1) (h1 ++ h2) (mem s1) ->
  tx_done s1 s3 (h1 ++ h2) b.
Proof.
  intros [A1 A2 A3 A4 A5 A6 A7 A8 A9 A10 A11] H2 Hc. specialize (H2 _ A1).
  destruct H2 as [B1 B2 B3 B4 B5 B6 B7 B8 B9 B10 B11].
  assert (Hh : virtio_net_hdr_len_locked s2 = virtio_net_hdr_len_locked s1)
    by (unfold virtio_net_hdr_len_locked; by rewrite A9).
  split; try done; try congruence.
  - rewrite B1, Hh. unfold tx_frames, tx_send. by rewrite flat_map_app, fold_left_app.
  - rewrite B5, A5, length_app, Nat2Z.inj_add. unfold u16. rewrite Zplus_mod_idemp_l. f_equal. lia.
Qed.

Lemma tx_heads_same q q' n : same_queue q -> same_queue q' -> last_avail_idx q = last_avail_idx q' ->
  tx_heads g0 q n = tx_heads g0 q' n.
Proof.
  revert q q'. induction n as [|n IH]; intros q q' Hq Hq' E; cbn [tx_heads]; [done|]. f_equal.
  - destruct Hq, Hq'. unfold avail_head. congruence.
  - apply IH; [by apply same_queue_avail..|]. cbn. by rewrite E.
Qed.

Lemma tx_complete_same q q' hs : forall g, same_queue q -> same_queue q' -> last_used_idx q = last_used_idx q' ->
  tx_complete q hs g = tx_complete q' hs g.
Proof.
  revert q q'. induction hs as [|h hs IH]; intros q q' g Hq Hq' E; cbn [tx_complete]; [done|].
  rewrite (IH (next_used q) (next_used q')); [|by apply same_queue_used|by apply same_queue_used|cbn; by rewrite E].
  f_equal. destruct Hq, Hq'. unfold push_stores, used_elem. congruence.
Qed.

Lemma tx_done_cursor s1 s s' hs b : s1 = s <| txq := next_avail (txq s) |> -> net_idle s1 ->
  tx_done s1 s' hs b -> tx_done s s' hs b.
Proof.
  intros -> _ []. split; try done. rewrite td_mem0.
  change (next_avail (txq s)) with ((txq s) <| last_avail_idx := u16 (last_avail_idx (txq s) + 1) |>).
  apply tx_complete_cursor.
Qed.

Lemma tx_loop_run n : forall fuel processed s b,
  (n < fuel)%nat -> net_idle s -> same_outside q0 g0 (mem s) -> same_queue (txq s) -> slirp s = Some b ->
  u16 (avail_idx g0 q0 - last_avail_idx (txq s)) = Z.of_nat n ->
  let hs := List.filter (fun h => h <? num q0) (tx_heads g0 (txq s) n) in
  exists s', tx_loop fuel processed s = (Ok (Some (processed || negb (length hs =? 0)%nat)), s') /\
    tx_done s s' hs b /\ last_avail_idx (txq s') = avail_idx g0 q0.
Proof.
  induction n as [|n IH]; intros fuel processed s b Hf Hs Ho Hq Hb Hn; (destruct fuel as [|fuel]; [lia|]);
    cbn [tx_loop]; cbv zeta; rewrite (same_queue_usable _ Hq); cbn [negb];
    destruct (avail_outside _ _ Ho Hq) as [-> Hhead]; pose proof (read_u16_range g0 (u64 (driver_addr q0 + 2)) Hram0) as Ha;
    change (read_u16 g0 _) with (avail_idx g0 q0) in Ha; pose proof (nq_avail _ (sq_ok _ Hq)) as Hla.
  - destruct (Z.eqb_spec (last_avail_idx (txq s)) (avail_idx g0 q0)) as [E|E].
    + exists s. rewrite orb_false_r. split_and!; [done|by apply tx_done_refl|done].
    + pose proof (u16_dist_pos _ _ Ha Hla ltac:(congruence)). lia.
  - destruct (Z.eqb_spec (last_avail_idx (txq s)) (avail_idx g0 q0)) as [E|E].
    { rewrite E, Z.sub_diag in Hn. change (u16 0) with 0 in Hn. lia. }
    rewrite Hhead. set (h := avail_head g0 (txq s)). set (s1 := s <| txq := next_avail (txq s) |>).
    assert (Hh0 : 0 <= h) by apply (read_u16_range _ _ Hram0).
    assert (Hs1 : net_idle s1).
    { split; [|apply Hs]. apply (net_ok_queue 1 next_avail); [apply Hs|]. apply next_avail_ok, Hs. }
    assert (Hq1 : same_queue (txq s1)) by by apply same_queue_avail.
    assert (Hn1 : u16 (avail_idx g0 q0 - last_avail_idx (txq s1)) = Z.of_nat n).
    { change (last_avail_idx (txq s1)) with (u16 (last_avail_idx (txq s) + 1)).
      rewrite u16_dist, Hn by (done || congruence). lia. }
    rewrite (sq_num _ Hq), (sq_desc _ Hq).
    cbn [tx_heads List.filter]. fold h.
    destruct (Z.leb_spec (num q0) h) as [Hbad|Hgood], (Z.ltb_spec h (num q0)); try lia.
    + destruct (IH fuel processed s1 b ltac:(lia) Hs1 Ho Hq1 Hb Hn1) as (s' & Hr & Hd & Hl).
      exists s'. split; [exact Hr|]. split; [|exact Hl]. by apply (tx_done_cursor s1 s).
    + change (mem s1) with (mem s). rewrite (tx_walk_outside _ _ _ _ Ho Hh0).
      destruct (tx_serve s1 b h Hs1 Ho Hq1 Hb ltac:(lia)) as (s2 & Hr2 & s3 & Hr3 & Hd & Hla3).
      rewrite (tx_walk_packet _ g0 q0 Hl0 Hram0), app_nil_l. fold (tx_packet g0 q0 h).
      rewrite bind_run, Hr2, Hr3.
      destruct (IH fuel true s3 _ ltac:(lia) (td_ok _ _ _ _ Hd) (td_outside _ _ _ _ Hd) (td_queue _ _ _ _ Hd)
        (td_slirp _ _ _ _ Hd)) as (s' & Hr & Hd' & Hl); [by rewrite Hla3|].
      pose proof (tx_heads_same (txq s3) (next_avail (txq s)) n (td_queue _ _ _ _ Hd) Hq1 Hla3) as Hheads.
      exists s'. cbn [length Nat.eqb negb]. rewrite orb_true_r. split; [exact Hr|].
      rewrite Hheads in Hd'. split; [|exact Hl].
      apply (tx_done_cursor s1 s); [done|done|]. apply (tx_done_trans s1 s3 s' [h]).
      * exact Hd.
      * intros b' Hb'. rewrite (td_slirp _ _ _ _ Hd) in Hb'. by injection Hb' as <-.
      * rewrite (td_mem _ _ _ _ Hd). cbn [app tx_complete]. apply tx_complete_same;
          [apply Hd|by apply same_queue_used|]. rewrite (td_used _ _ _ _ Hd). done.
Qed.
End Tx.

(** C36.  When the driver keeps its used ring apart from what the device reads, and the
    network answers nothing before the kick returns, a transmit kick ends after as many
    rounds as there are new entries.  It hands the network the frames of the chains, in
    order, header stripped: the packet of a chain is the contents of the device-readable
    descriptors found by following NEXT, and for a well-formed chain that is every buffer
    of it in order.  Invalid heads are skipped; every valid chain is returned through the
    used ring, and the line is raised when there was one and the driver did not ask for
    silence. *)
Theorem net_tx_sends_in_order fuel s b :
  net_idle s -> tx_ring_ok (mem s) (txq s) -> slirp s = Some b ->
  (forall p b, (slirp_input p b).1 = []) ->
  let q := txq s in
  let n := Z.to_nat (u16 (avail_idx (mem s) q - last_avail_idx q)) in
  (n < fuel)%nat ->
  let heads := List.filter (fun h => h <? num q) (tx_heads (mem s) q n) in
  let frames := tx_frames (mem s) q (virtio_net_hdr_len_locked s) heads in
  exists s', process_tx_queue fuel s = (Ok tt, s') /\
    slirp s' = Some (fold_left (fun b p => (slirp_input p b).2) frames b) /\
    mem s' = tx_complete q heads (mem s) /\
    last_avail_idx (txq s') = avail_idx (mem s) q /\
    last_used_idx (txq s') = u16 (last_used_idx q + Z.of_nat (length heads)) /\
    ioapic s' = (if (length heads =? 0)%nat || no_interrupt s' q then ioapic s else request_irq (irq s) (ioapic s)) /\
    (forall h ixs ds, linked (mem s) (desc_addr q) (num q) h ixs ds -> NoDup ixs ->
       Forall (fun d => seg_ok (mem s) d /\ has (flags d) kRingDescFWrite = false) ds ->
       tx_packet (mem s) q h = gather (data (mem s)) ds).
Proof.
  intros Hs Hring Hb Hsilent q n Hf heads frames.
  assert (Hq : same_queue q q) by (split; try done; apply Hs).
  assert (Ho : same_outside q (mem s) (mem s)) by (split; [done|apply only_writes_refl]).
  destruct (tx_loop_run (mem s) q Hring (nok_tx _ (proj1 Hs)) (nok_mem _ (proj1 Hs)) (nok_ram _ (proj1 Hs)) Hsilent
    n fuel false s b Hf Hs Ho Hq Hb) as (s' & Hr & Hd & Hl).
  { unfold n. rewrite Z2Nat.id; [done|]. apply u16_range. }
  fold q heads in Hr, Hd. unfold process_tx_queue. rewrite Hb, bind_run, Hr. cbn [orb].
  destruct (Nat.eqb_spec (length heads) 0) as [E0|E0]; cbn [negb when orb].
  - exists s'. destruct Hd. split_and!; try done. intros h ixs ds. apply tx_packet_linked.
  - destruct (usable_true _ (same_queue_usable _ _ Hring (txq s') (td_queue _ _ _ _ _ _ Hd))) as (U1 & _ & U3 & _).
    destruct (raise_irq_run 1 s' (or_intror eq_refl) U1 U3) as (R1 & R2 & R3 & _).
    exists (raise_used_buffer_irq 1 s'). destruct (raise_irq_same 1 s').
    change (queue_at 1 ?x) with (txq x) in *. rewrite R1, R2, R3, rs_slirp0.
    assert (Hn : no_interrupt (raise_used_buffer_irq 1 s') q = no_interrupt s' (txq s')).
    { unfold no_interrupt. by rewrite R1, (sq_driver _ _ (td_queue _ _ _ _ _ _ Hd)). }
    rewrite Hn. destruct Hd. rewrite td_ioapic0, td_irq0. split_and!; try done.
    intros h ixs ds. apply tx_packet_linked.
Qed.

(** ** A kick that never ends *)

(** One round of the loop that serves a chain without a frame. *)
Lemma tx_round_empty fuel processed s : net_ok s -> usable (txq s) = true ->
  last_avail_idx (txq s) <> avail_idx (mem s) (txq s) ->
  avail_head (mem s) (txq s) = 0 -> tx_packet (mem s) (txq s) 0 = [] ->
  device_addr (txq s) + 4 + 8 * num (txq s) <= len (mem s) ->
  tx_loop (Datatypes.S fuel) processed s =
  tx_loop fuel true (set_mem (push_stores (txq s) 0 0 (mem s)) (s <| txq := next_used (next_avail (txq s)) |>)).
Proof.
  intros Hs Hu Hne Hh Hp Hm. destruct (usable_true _ Hu) as (U1 & U2 & _ & _ & U5).
  pose proof (nq_num _ (nok_tx _ Hs)). cbn [tx_loop]. cbv zeta. rewrite Hu. cbn [negb].
  destruct (Z.eqb_spec (last_avail_idx (txq s)) (avail_idx (mem s) (txq s))); [done|]. rewrite Hh.
  destruct (Z.leb_spec (num (txq s)) 0); [lia|].
  change (mem (s <| txq := _ |>)) with (mem s).
  rewrite (tx_walk_packet _ (mem s) (txq s)), app_nil_l by apply Hs. fold (tx_packet (mem s) (txq s) 0). rewrite Hp.
  replace (virtio_net_hdr_len_locked _ <? Z.of_nat (length [])) with false
    by (unfold virtio_net_hdr_len_locked; by destruct (has _ _)).
  cbn [when]. rewrite ret_bind.
  assert (Hs1 : net_ok (s <| txq := next_avail (txq s) |>))
    by (apply (net_ok_queue 1 next_avail); [done|apply next_avail_ok, Hs]).
  pose proof (push_used_in_ram 1 0 0 (s <| txq := next_avail (txq s) |>) Hs1 U1 U2 U5 Hm) as E. by rewrite E.
Qed.

Lemma load_zero m a n : (forall x, in_range a n x -> m x = 0) -> load m a n = repeat 0 (Z.to_nat n).
Proof.
  intros Hz. unfold load. rewrite (map_ext_in _ (fun _ => 0)).
  - by rewrite List.map_const, length_seqZ.
  - intros x Hx. apply Hz. by apply list_elem_of_In, elem_of_seqZ in Hx.
Qed.

(** The avail and the used ring at the same address, every entry and descriptor 0 zero,
    and the device's used cursor, which it writes over the driver's index, one behind its
    avail cursor. *)
Record tx_trap (s : net) : Prop := {
  tt_ok : net_ok s; tt_usable : usable (txq s) = true;
  tt_num : num (txq s) = 256;
  tt_same : device_addr (txq s) = driver_addr (txq s);
  tt_ram : driver_addr (txq s) + 4 + 8 * 256 <= desc_addr (txq s);
  tt_table : desc_addr (txq s) + 16 <= len (mem s);
  tt_ring : forall x, in_range (driver_addr (txq s) + 4) 2048 x -> data (mem s) x = 0;
  tt_desc : forall x, in_range (desc_addr (txq s)) 16 x -> data (mem s) x = 0;
  tt_idx : load (data (mem s)) (driver_addr (txq s) + 2) 2 = WriteU16 (last_used_idx (txq s));
  tt_ahead : last_avail_idx (txq s) = u16 (last_used_idx (txq s) + 1) }.

Lemma tx_trap_step s fuel processed : tx_trap s ->
  exists s', tx_trap s' /\ tx_loop (Datatypes.S fuel) processed s = tx_loop fuel true s'.
Proof.
  intros [Hs Hu Hn Hsame Hram Htab Hring Hdesc Hidx Hahead].
  set (q := txq s) in *. set (R := driver_addr q) in *. set (D := desc_addr q) in *.
  destruct (nok_tx _ Hs) as [Q1 Q2 Q3 Q4 Q5 Q6]. fold q R D in Q1, Q2, Q3, Q4, Q5, Q6.
  pose proof (nok_mem _ Hs) as Hl. pose proof (nok_ram _ Hs) as Hb.
  assert (Hread : forall a, 0 <= a -> a + 2 <= len (mem s) -> read_u16 (mem s) a = ReadU16 (load (data (mem s)) a 2)).
  { intros a Ha Hal. unfold read_u16.
    assert (E : ptr_or_null (mem s) a 2 = Some a) by (apply net_ptr_ok; lia). by rewrite E. }
  pose proof (Z.mod_pos_bound (last_avail_idx q) 256 ltac:(lia)) as Hmod.
  assert (H1 : avail_idx (mem s) q = last_used_idx q).
  { unfold avail_idx. fold R. rewrite u64_small, Hread, Hidx, ReadU16_WriteU16 by lia. by apply u16_small. }
  assert (H2 : last_avail_idx q <> avail_idx (mem s) q).
  { rewrite H1, Hahead. unfold u16. Z.to_euclidean_division_equations. lia. }
  assert (H3 : avail_head (mem s) q = 0).
  { unfold avail_head. fold R. rewrite Hn, u64_small, Hread, load_zero by (lia || intros; apply Hring; unfold in_range in *; lia).
    done. }
  assert (H4 : tx_packet (mem s) q 0 = []).
  { unfold tx_packet. rewrite Hn.
    assert (Ek : exists k, Z.to_nat 256 = Datatypes.S k) by (by exists 255%nat). destruct Ek as [k ->].
    cbn [tx_chain]. fold D. rewrite Hn, Z.mul_0_l, Z.add_0_r, u64_small by lia. cbv zeta.
    destruct (_ || _); [done|].
    assert (Er : read_desc (data (mem s)) D = mkDesc 0 0 0 0).
    { unfold read_desc. rewrite !load_zero by (intros; apply Hdesc; unfold in_range in *; lia). done. }
    rewrite Er. cbn. unfold tx_segment. by destruct (_ || _). }
  assert (H5 : device_addr q + 4 + 8 * num q <= len (mem s)) by lia.
  eexists. split; [|by apply tx_round_empty].
  destruct (usable_true _ Hu) as (U1 & U2 & _).
  assert (Hq1 : nq_ok (next_avail q)) by apply next_avail_ok, (nok_tx _ Hs).
  destruct (push_stores_load q 0 0 (mem s) (nok_tx _ Hs) U2) as (L1 & L2 & L3).
  destruct (used_elem_range q (nok_tx _ Hs) U2) as [He1 He2]. rewrite Hn, Hsame in *. fold R in L2, L3, He1, He2, H5.
  assert (Hout : forall x, ~ in_range R (4 + 8 * 256) x -> data (push_stores q 0 0 (mem s)) x = data (mem s) x)
    by exact L3.
  split; cbn [txq mem set_mem upd_field next_used next_avail num device_addr driver_addr desc_addr last_used_idx last_avail_idx];
    fold q R D; try done.
  - assert (Hs1 : net_ok (s <| txq := next_avail q |>)) by by apply (net_ok_queue 1 next_avail).
    destruct (usable_true _ Hu) as (_ & U2' & _ & _ & U5).
    apply (push_stores_step 1 0 0 _ Hs1 U1 U2' U5).
    change (queue_at 1 _) with (next_avail q). cbn [next_avail device_addr num upd_field mem]. lia.
  - intros x Hx. unfold push_stores. cbn [data mem_store upd_field]. rewrite store_out
      by (rewrite ?Hsame; autorewrite with bytes_len; fold R; unfold in_range in *; lia).
    assert (Hz : forall m a, m x = 0 -> store m a (WriteU32 0) x = 0).
    { intros m a Hm. unfold store. destruct (_ && _); [|done]. change (WriteU32 0) with (repeat 0 4). apply nth_repeat. }
    apply Hz, Hz. by apply Hring.
  - intros x Hx. rewrite Hout; [by apply Hdesc|]. unfold in_range in *. lia.
  - by rewrite Hahead.
Qed.

Lemma tx_trap_endless fuel : forall s processed, tx_trap s -> (tx_loop fuel processed s).1 = OutOfFuel.
Proof.
  induction fuel as [|fuel IH]; intros s processed Hs; [done|].
  destruct (tx_trap_step s fuel processed Hs) as (s' & Hs' & ->). by apply IH.
Qed.

(** A driver that sets this up: both rings at 0x1000, an invalid head in the first entry. *)
Definition trap_ram : ram := store (fun _ => 0) 0x1000 [0; 0; 2; 0; 255; 255].
Definition new_net (g : GuestMemory) (c : C) (b : S) : net :=
  attach_slirp b (VirtioNet_new c g 0xD0000000 5 [2; 0; 0; 0; 0; 1]).
Definition trap_fresh (c : C) (b : S) : net := new_net (mkGuestMemory trap_ram 0x10000) c b.
Definition reg_write (fuel : nat) (off value : Z) : net_op := OpWrite fuel (0xD0000000 + off) (WriteU32 value).
Definition run_ops (ops : list net_op) (s : net) : net := fold_left (fun s op => (run op s).2) ops s.
Definition trap_setup : list net_op :=
  [reg_write 0 kMmioQueueSel 1; reg_write 0 kMmioQueueDescLow 0x3000;
   reg_write 0 kMmioQueueDriverLow 0x1000; reg_write 0 kMmioQueueDeviceLow 0x1000;
   reg_write 0 kMmioQueueReady 1].

Lemma new_net_idle g c b : 0 <= len g < 2 ^ 64 -> ram_ok (data g) -> net_idle (new_net g c b).
Proof.
  intros Hl Hr. split; [|done]. split; try done; cbn; [split; [done|by apply bytes_okb_ok]|lia].
Qed.

Lemma run_ops_reachable ops : Forall net_op_ok ops -> forall s0 s, reachable s0 s -> reachable s0 (run_ops ops s).
Proof.
  induction 1 as [|op ops Hop _ IH]; intros s0 s Hr; [done|]. apply IH. by apply reach_op.
Qed.

Lemma trap_ram_ok : ram_ok trap_ram.
Proof. apply store_ok; [done|by apply bytes_okb_ok]. Qed.

Lemma trap_setup_ok : Forall net_op_ok trap_setup.
Proof. by repeat apply List.Forall_cons; try apply WriteU32_ok. Qed.

Definition trap_queue (la lu : Z) : NetQueue := mkNetQueue true 256 0x3000 0x1000 0x1000 la lu.
Definition trap_state (c : C) (b : S) (g : GuestMemory) (la lu : Z) : net :=
  mkNet c g 0xD0000000 5 [2; 0; 0; 0; 0; 1] (Some b) 0 0 0 0 0 1 0 true false false Queue_init (trap_queue la lu) [].

Lemma trap_setup_run c b : run_ops trap_setup (trap_fresh c b) = trap_state c b (mkGuestMemory trap_ram 0x10000) 0 0.
Proof. reflexivity. Qed.

Lemma trap_state_ok c b g la lu : len g = 0x10000 -> ram_ok (data g) -> 0 <= la < 65536 -> 0 <= lu < 65536 ->
  net_ok (trap_state c b g la lu).
Proof.
  intros Hl Hr Hla Hlu. split; try done; cbn; [lia|split; [done|by apply bytes_okb_ok]|lia].
Qed.

Lemma trap_entered c b : let g := mkGuestMemory trap_ram 0x10000 in
  tx_trap (trap_state c b (push_stores (trap_queue 1 0) 0 0 g) 2 1).
Proof.
  intros g.
  assert (Hg : ram_ok (data (push_stores (trap_queue 1 0) 0 0 g)))
    by (repeat apply store_ok; first [apply trap_ram_ok|apply WriteU32_ok|apply WriteU16_ok|by apply bytes_okb_ok|done]).
  split; try done.
  - by apply trap_state_ok.
  - intros x Hx. cbn [trap_state txq trap_queue driver_addr mem] in *. unfold push_stores.
    change (used_elem (trap_queue 1 0)) with 0x1004. change (device_addr (trap_queue 1 0)) with 0x1000.
    cbn [data mem_store upd_field g]. rewrite store_out by (autorewrite with bytes_len; unfold in_range in *; lia).
    unfold in_range in Hx. change (WriteU32 0) with (repeat 0 4). unfold store at 1.
    destruct (_ && _); [apply nth_repeat|]. unfold store at 1.
    destruct ((4100 <=? x) && _) eqn:E; [apply nth_repeat|]. unfold trap_ram. rewrite store_out; [done|].
    apply andb_false_iff in E as [E%Z.leb_gt|E%Z.ltb_ge]; unfold in_range; cbn [length repeat] in *; lia.
  - intros x Hx. cbn [trap_state txq trap_queue desc_addr mem] in *.
    destruct (push_stores_load (trap_queue 1 0) 0 0 g) as (_ & _ & H3); [by split|done|].
    rewrite H3 by (cbn; unfold in_range in *; lia). cbn [data g]. unfold trap_ram. rewrite store_out; [done|].
    cbn [length]. unfold in_range in *. lia.
Qed.

(** A driver can make the transmit kick loop for ever: with the used ring laid over the
    avail ring, the index the device publishes is the index it waits for.  A fresh device
    reaches such a state by five register writes, and then no number of rounds is enough. *)
Theorem net_tx_kick_may_not_return c b :
  let s := run_ops trap_setup (trap_fresh c b) in
  reachable (trap_fresh c b) s /\ net_idle s /\
  forall fuel, (run (reg_write fuel kMmioQueueNotify 1) s).1 = OutOfFuel.
Proof.
  cbv zeta. split; [apply run_ops_reachable; [apply trap_setup_ok|constructor]|].
  rewrite trap_setup_run. set (g := mkGuestMemory trap_ram 0x10000).
  assert (Hok : forall la, 0 <= la < 65536 -> net_ok (trap_state c b g la 0))
    by (intros; apply trap_state_ok; [done|apply trap_ram_ok|done|done]).
  split; [by split; [apply Hok|]|]. intros fuel.
  assert (Hloop : (tx_loop fuel false (trap_state c b g 0 0)).1 = OutOfFuel).
  { destruct fuel as [|fuel]; [done|].
    change (tx_loop (Datatypes.S fuel) false (trap_state c b g 0 0)) with (tx_loop fuel false (trap_state c b g 1 0)).
    destruct fuel as [|fuel]; [done|].
    rewrite (tx_round_empty fuel false (trap_state c b g 1 0)); [|by apply Hok|done..].
    apply tx_trap_endless. exact (trap_entered c b). }
  change (run (reg_write fuel kMmioQueueNotify 1) (trap_state c b g 0 0)) with
    (process_tx_queue fuel (trap_state c b g 0 0)).
  unfold process_tx_queue. cbn [slirp trap_state]. rewrite bind_run.
  destruct (tx_loop fuel false (trap_state c b g 0 0)) as [o s']. cbn in Hloop. by subst o.
Qed.
End Safety.

(** ** A driver with one receive buffer and one frame to send *)
Module Demo.
#[local] Instance lines : IrqController (list Z) := fun i l => i :: l.
#[local] Program Instance sink : SlirpBackend (list (list Z)) := {| slirp_input p b := ([], p :: b) |}.
Next Obligation. constructor. Qed.

Definition posted : list Z := WriteU64 0x5000 ++ WriteU32 2048 ++ WriteU16 2 ++ WriteU16 0.
(** The frame's chain: header and first two bytes, then the other three. *)
Definition to_send : list Z :=
  WriteU64 0x6000 ++ WriteU32 14 ++ WriteU16 1 ++ WriteU16 1 ++
  WriteU64 0x6100 ++ WriteU32 3 ++ WriteU16 0 ++ WriteU16 0.
Definition rings : list Z := [0; 0; 1; 0; 0; 0].
Definition m : ram := store (store (store (store (store (fun _ => 7) 0x6100 [1; 2; 3]) 0x3000 posted) 0x1000 rings) 0x8000 to_send) 0x9000 rings.
Definition s : VirtioNet (list Z) (list (list Z)) :=
  mkNet [] (mkGuestMemory m 0x10000) 0xD0000000 5 [2; 0; 0; 0; 0; 1] (Some []) 0 0 0 0 0 0 0 true false false
    (mkNetQueue true 8 0x3000 0x1000 0x2000 0 0) (mkNetQueue true 8 0x8000 0x9000 0xA000 0 0) [].

Lemma m_ok : ram_ok m.
Proof. repeat apply store_ok; first [by apply bytes_okb_ok|done]. Qed.
Lemma s_idle : net_idle s.
Proof.
  split; [|done]. split; try done; cbn; [apply m_ok|split; [done|by apply bytes_okb_ok]|lia].
Qed.

Lemma net_safe_witness :
  match (run (OpWrite 5 0xD0000050 [1; 0; 0; 0]) s).1 with
  | Ok _ => True | Throw _ => False
  | OutOfFuel => tx_kick s (OpWrite 5 0xD0000050 [1; 0; 0; 0])
  end.
Proof.
  destruct (net_safe s s (OpWrite 5 0xD0000050 [1; 0; 0; 0]) 0xD0000100 4) as (_ & _ & _ & H);
    [apply s_idle|constructor|by apply bytes_okb_ok|lia|exact H].
Defined.

Lemma net_rx_fifo_witness :
  exists s' sent, deliver_rx_packet [1; 2; 3] s = (Ok tt, s') /\
     [] ++ [[1; 2; 3]] = sent ++ rx_backlog s' /\ handed sent (idle s) (idle s') /\
     (rx_backlog s' = [] \/ rx_waits s').
Proof.
  destruct (net_rx_fifo [1; 2; 3] s s_idle) as [(s' & sent & H1 & H2 & H3 & H4) _]; [by apply bytes_okb_ok|].
  exists s', sent. split; [exact H1|]. split; [exact H2|]. split; [exact H3|exact H4].
Defined.

Lemma s_posted : rx_posted s 0 [0] [mkDesc 0x5000 2048 2 0].
Proof.
  split; try done.
  - apply linked_last; [|done]. split; [done|]. split; [done|]. split; [|done]. vm_compute. reflexivity.
  - apply NoDup_singleton.
  - constructor; [|constructor]. split; [done| |].
    + split; [by split|done].
    + cbn [num rxq s desc_addr addr dlen]. intros j Hj. rewrite u64_small by lia. unfold apart. lia.
  - repeat constructor.
  - constructor; [|constructor]. unfold apart. cbn. lia.
Qed.

Lemma net_rx_writes_frame_witness :
  exists s', deliver_rx_packet_now [1; 2; 3] s = (true, s') /\
    load (data (mem s')) (used_elem (rxq s)) 8 = WriteU32 0 ++ WriteU32 15.
Proof.
  destruct (net_rx_writes_frame s [1; 2; 3] 0 [0] [mkDesc 0x5000 2048 2 0]) as (s' & H1 & _ & _ & H2 & _);
    [apply s_idle|by apply bytes_okb_ok|done|apply s_posted|]. exists s'. split; [exact H1|exact H2].
Defined.

Lemma s_tx_ring : tx_ring_ok (mem s) (txq s).
Proof.
  split; try done; cbn [txq s num device_addr driver_addr desc_addr]; try (unfold apart; lia).
  intros i Hi. assert (Hc : i = 0 \/ i = 1 \/ i = 2 \/ i = 3 \/ i = 4 \/ i = 5 \/ i = 6 \/ i = 7) by lia.
  destruct Hc as [->|[->|[->|[->|[->|[->|[->| ->]]]]]]]; vm_compute; intros H; first [discriminate H|left; discriminate|right; discriminate].
Qed.

Lemma net_tx_sends_in_order_witness :
  exists s', process_tx_queue 5 s = (Ok tt, s') /\ slirp s' = Some [[7; 7; 1; 2; 3]].
Proof.
  destruct (net_tx_sends_in_order 5 s []) as (s' & H1 & H2 & _);
    [apply s_idle|apply s_tx_ring|reflexivity|reflexivity|vm_compute; lia|].
  exists s'. split; [exact H1|]. rewrite H2. vm_compute. reflexivity.
Defined.
End Demo.
