(* ===== verification/Vcpu.v ===== *)
(** * native/whp/backend.cc: the virtual processors

    Register access, the bootstrap of a processor into 64-bit mode, and the exits that
    concern the processor alone: CPUID, model-specific registers and the decoding of an
    I/O instruction.  The theorems: a bootstrapped processor can enter 64-bit mode with
    segment registers equal to the descriptors in its GDT and an identity mapping; what
    a guest reads from CPUID and from the Hyper-V registers; the length found for an
    I/O instruction is the length it has. *)

From S2P Require Import Prelude Words Bytes GuestMemory Clock Irq.
From S2P Require PageTables BootParams.
#[local] Existing Instance PageTables.eta_Segment.

(** ** Registers *)

Section Registers.
Context {W : Type} `{WhpApi W}.

Definition Reg (v : Z) : reg_value := zero_value <| Reg64 := v |>.

(** [CheckHr(api.set_vp_registers(...), what)] *)
Definition set_checked (vp : Z) (nvs : list (reg_name * reg_value)) (what : string) : M W unit := fun w =>
  match set_vp_registers vp nvs w with
  | (true, w) => (Ok tt, w)
  | (false, w) => (Throw what, w)
  end.

Definition SetRip (vp rip : Z) : M W unit :=
  set_checked vp [(Rip, Reg rip)] "WHvSetVirtualProcessorRegisters(RIP)".

Definition SetRaxRip (vp rax rip : Z) : M W unit :=
  set_checked vp [(Rax, Reg rax); (Rip, Reg rip)] "WHvSetVirtualProcessorRegisters(RAX/RIP)".

Definition GetRegister64 (vp : Z) (name : reg_name) : M W Z := fun w =>
  match get_vp_registers vp [name] w with
  | (Some vs, w) => (Ok (Reg64 (hd zero_value vs)), w)
  | (None, w) => (Throw "WHvGetVirtualProcessorRegisters", w)
  end.

(** [set_optional_reg] of SetupWhpBootstrapVcpu *)
Definition set_optional_reg (vp : Z) (name : reg_name) (value : Z) (w : W) : W :=
  (set_vp_registers vp [(name, Reg value)] w).2.

(** ** Bootstrap *)

Definition kPageTableBase : Z := 0x9000.
Definition kBootParamsAddr : Z := 0x7000.
Definition kGdtAddr : Z := 0x500.
Definition kIdtAddr : Z := 0x520.

Definition gdt : list Z :=
  [0x0000000000000000; 0x00AF9B000000FFFF; 0x00CF93000000FFFF; 0x008F8B000000FFFF].

Definition SegReg (s : PageTables.Segment_t) : reg_value := zero_value <| SegmentReg := s |>.
Definition TblReg (t : PageTables.Table_t) : reg_value := zero_value <| TableReg := t |>.

(** What [SetupLongMode] writes to guest memory. *)
Definition long_mode_tables (m : ram) : ram :=
  let m := PageTables.BuildPageTables m kPageTableBase in
  let m := fold_left (fun m i => store m (kGdtAddr + i * 8) (WriteU64 (nth (Z.to_nat i) gdt 0)))
             (seqZ 0 4) m in
  store m kIdtAddr (WriteU64 0).

(** [values[16]] *)
Definition task_segment : PageTables.Segment_t :=
  let s := PageTables.Segment 0x18 0x8b in
  let s := s <| PageTables.Limit := 0xFFFFF |> in
  PageTables.Granularity 1 (PageTables.Present 1 s).

Definition long_mode_registers (vp entry : Z) : list (reg_name * reg_value) :=
  let ds := SegReg PageTables.LongDataSegment in
  [(Rip, Reg entry); (Rsi, Reg kBootParamsAddr); (Rdi, Reg vp); (Rflags, Reg 0x2);
   (Rsp, Reg 0x8FF0); (Rbp, Reg 0x8FF0);
   (Cr0, Reg 0x80000001); (Cr3, Reg kPageTableBase); (Cr4, Reg 0x20); (Efer, Reg 0x500);
   (Cs, SegReg PageTables.LongCodeSegment); (Ds, ds); (Es, ds); (Fs, ds); (Gs, ds); (Ss, ds);
   (Tr, SegReg task_segment);
   (Gdtr, TblReg (PageTables.Table kGdtAddr 31)); (Idtr, TblReg (PageTables.Table kIdtAddr 7))].

Definition SetupLongMode (vp entry : Z) : M (ram * W) unit :=
  modify (fun '(m, w) => (long_mode_tables m, w)) ≫= fun _ =>
  on_snd (set_checked vp (long_mode_registers vp entry) "WHvSetVirtualProcessorRegisters(long mode)").

Definition SetupWhpBootstrapVcpu (vp entry : Z) (enable_apic rootfs_smp_ap : bool) : M (ram * W) unit :=
  when (negb rootfs_smp_ap)
    (SetupLongMode vp entry ≫= fun _ =>
     modify (fun '(m, w) => (m, set_optional_reg vp Pat 0x0007040600070406 w)) ≫= fun _ =>
     modify (fun '(m, w) => (m, set_optional_reg vp MsrMtrrDefType (Z.lor (Z.shiftl 1 11) 0x6) w))) ≫= fun _ =>
  when enable_apic
    (modify (fun '(m, w) => (m, set_optional_reg vp ApicBase
       (Z.lor (Z.lor 0xFEE00000 (Z.shiftl 1 11)) (if vp =? 0 then Z.shiftl 1 8 else 0)) w))).
End Registers.

(** ** Exits *)

(** The fields of WHV_VP_EXIT_CONTEXT used here. *)
Record vp_context := mkVpContext { VpRip : Z; InstructionLength : Z }.

(** [exit_context.VpContext.Rip + exit_context.VpContext.InstructionLength] *)
Definition after_instruction (x : vp_context) : Z := u64 (VpRip x + InstructionLength x).

(** *** CPUID *)

Record cpuid_access := mkCpuid {
  CpuidRax : Z;
  DefaultResultRax : Z; DefaultResultRbx : Z; DefaultResultRcx : Z; DefaultResultRdx : Z }.

Definition kHvCpuidVendorAndMax : Z := 0x40000000.
Definition kHvCpuidInterface : Z := 0x40000001.
Definition kHvCpuidVersion : Z := 0x40000002.
Definition kHvCpuidFeatures : Z := 0x40000003.
Definition kHvCpuidEnlightenmentInfo : Z := 0x40000004.
Definition kHvCpuidImplementationLimits : Z := 0x40000005.

Record cpuid_result := mkResult { out_rax : Z; out_rbx : Z; out_rcx : Z; out_rdx : Z }.

(** The [switch] of HandleWhpCpuid. *)
Definition cpuid_switch (c : cpuid_access) (cpus : Z) : cpuid_result :=
  let leaf := u32 (CpuidRax c) in
  let rax := u32 (DefaultResultRax c) in
  let rbx := u32 (DefaultResultRbx c) in
  let rcx := u32 (DefaultResultRcx c) in
  let rdx := u32 (DefaultResultRdx c) in
  if leaf =? 0x00000001 then
    mkResult rax rbx (Z.land (Z.lor rcx (Z.shiftl 1 31)) (bnot 32 (Z.shiftl 1 24))) rdx
  else if leaf =? 0x00000006 then mkResult (Z.land rax (bnot 32 (Z.shiftl 1 2))) rbx rcx rdx
  else if leaf =? 0x80000007 then mkResult rax rbx rcx (Z.lor rdx (Z.shiftl 1 8))
  else if leaf =? kHvCpuidVendorAndMax then
    mkResult kHvCpuidImplementationLimits 0x7263694D 0x666F736F 0x76482074
  else if leaf =? kHvCpuidInterface then mkResult 0x31237648 0 0 0
  else if leaf =? kHvCpuidVersion then mkResult 0x00001DB1 0x000A0000 0 0
  else if leaf =? kHvCpuidFeatures then
    mkResult (Z.lor (Z.lor (Z.shiftl 1 5) (Z.shiftl 1 6)) (Z.shiftl 1 11)) 0 0 (Z.shiftl 1 8)
  else if leaf =? kHvCpuidEnlightenmentInfo then mkResult 0 0 0 0
  else if leaf =? kHvCpuidImplementationLimits then mkResult (Z.max 1 cpus) 0 0 0
  else mkResult rax rbx rcx rdx.

Definition HandleWhpCpuid {W} `{WhpApi W} (vp : Z) (x : vp_context) (c : cpuid_access) (cpus : Z) : M W unit :=
  let r := cpuid_switch c cpus in
  set_checked vp
    [(Rax, Reg (out_rax r)); (Rbx, Reg (out_rbx r)); (Rcx, Reg (out_rcx r)); (Rdx, Reg (out_rdx r));
     (Rip, Reg (after_instruction x))]
    "WHvSetVirtualProcessorRegisters(CPUID)".

(** *** Model-specific registers *)

Definition kHvMsrGuestOsId : Z := 0x40000000.
Definition kHvMsrHypercall : Z := 0x40000001.
Definition kHvMsrVpIndex : Z := 0x40000002.
Definition kHvMsrTimeRefCount : Z := 0x40000020.
Definition kHvMsrTscFrequency : Z := 0x40000022.
Definition kHvMsrApicFrequency : Z := 0x40000023.
Definition kFallbackTscFrequencyHz : Z := 2500000000.
Definition kFallbackApicFrequencyHz : Z := 200000000.

(** A capability query: [None] is a failure. *)
Definition QueryWhpFrequency (capability : option Z) (fallback : Z) : Z :=
  match capability with
  | Some v => if v =? 0 then fallback else v
  | None => fallback
  end.

Record HyperVState := mkHyperV {
  tsc_frequency_hz : Z; apic_frequency_hz : Z; guest_os_id : Z; hypercall : Z;
  started_at : Z; clock : Clock }.
#[export] Instance eta_HyperVState : Eta HyperVState := fun s =>
  mkHyperV (tsc_frequency_hz s) (apic_frequency_hz s) (guest_os_id s) (hypercall s) (started_at s) (clock s).

(** The state as RunVm makes it, from the two capability queries. *)
Definition HyperVState_new (tsc apic : option Z) (c : Clock) : HyperVState :=
  mkHyperV (QueryWhpFrequency tsc kFallbackTscFrequencyHz)
    (QueryWhpFrequency apic kFallbackApicFrequencyHz) 0 0 (clock_now c) (clock_tick c).

Definition time_ref_count (s : HyperVState) : Z * HyperVState :=
  let elapsed := clock_now (clock s) - started_at s in
  (if elapsed <=? 0 then 0 else u64 elapsed / 100, s <| clock := clock_tick (clock s) |>).

Record msr_access := mkMsr { MsrIsWrite : bool; MsrNumber : Z; MsrRax : Z; MsrRdx : Z }.

Definition write_msr (n value : Z) (s : HyperVState) : HyperVState :=
  if n =? kHvMsrGuestOsId then s <| guest_os_id := value |>
  else if n =? kHvMsrHypercall then s <| hypercall := value |>
  else s.

Definition read_msr (vp n : Z) (s : HyperVState) : Z * HyperVState :=
  if n =? kHvMsrGuestOsId then (guest_os_id s, s)
  else if n =? kHvMsrHypercall then (hypercall s, s)
  else if n =? kHvMsrVpIndex then (vp, s)
  else if n =? kHvMsrTimeRefCount then time_ref_count s
  else if n =? kHvMsrTscFrequency then (tsc_frequency_hz s, s)
  else if n =? kHvMsrApicFrequency then (apic_frequency_hz s, s)
  else (0, s).

Definition HandleWhpMsr {W} `{WhpApi W} (vp : Z) (x : vp_context) (a : msr_access) : M (HyperVState * W) unit :=
  let next_rip := after_instruction x in
  let write_value := Z.lor (Z.land (MsrRax a) 0xFFFFFFFF) (u64 (Z.shiftl (Z.land (MsrRdx a) 0xFFFFFFFF) 32)) in
  if MsrIsWrite a then
    modify (fun '(s, w) => (write_msr (MsrNumber a) write_value s, w)) ≫= fun _ =>
    on_snd (SetRip vp next_rip)
  else
    (fun '(s, w) => let '(v, s) := read_msr vp (MsrNumber a) s in (Ok v, (s, w))) ≫= fun value =>
    on_snd (SetRaxRip vp (Z.land value 0xFFFFFFFF) next_rip) ≫= fun _ =>
    on_snd (set_checked vp [(Rdx, Reg (Z.shiftr value 32))] "WHvSetVirtualProcessorRegisters(MSR RDX)").

(** *** I/O instructions *)

(** WHV_X64_IO_PORT_ACCESS_CONTEXT; [InstructionBytes] is an array of 16. *)
Record io_context := mkIo {
  InstructionByteCount : Z; InstructionBytes : list Z;
  IsWrite : bool; AccessSize : Z; StringOp : bool; RepPrefix : bool;
  PortNumber : Z; IoRax : Z }.
#[export] Instance eta_io_context : Eta io_context := fun s =>
  mkIo (InstructionByteCount s) (InstructionBytes s) (IsWrite s) (AccessSize s) (StringOp s) (RepPrefix s)
    (PortNumber s) (IoRax s).

Definition is_prefix_byte (byte : Z) : bool :=
  (byte =? 0x66) || (byte =? 0x67) || (byte =? 0xF2) || (byte =? 0xF3) ||
  (byte =? 0x2E) || (byte =? 0x36) || (byte =? 0x3E) || (byte =? 0x26) ||
  (byte =? 0x64) || (byte =? 0x65) || ((0x40 <=? byte) && (byte <=? 0x4F)).

(** The [while]: the position of the first byte that is not a prefix, and the bytes
    from there. *)
Fixpoint skip_prefixes (bytes : list Z) (pos : Z) : Z * list Z :=
  match bytes with
  | [] => (pos, [])
  | byte :: rest => if is_prefix_byte byte then skip_prefixes rest (pos + 1) else (pos, bytes)
  end.

Definition DecodeIoInstructionLength (io : io_context) : Z :=
  if negb (InstructionByteCount io =? 0) then InstructionByteCount io
  else
    match skip_prefixes (InstructionBytes io) 0 with
    | (_, []) => 0
    | (pos, op :: _) =>
        if (op =? 0xE4) || (op =? 0xE5) || (op =? 0xE6) || (op =? 0xE7) then pos + 2
        else if (op =? 0xEC) || (op =? 0xED) || (op =? 0xEE) || (op =? 0xEF) then pos + 1
        else 0
    end.

(** [translate_gva vp gva gpa0]: whether the call succeeded with a translation, and what
    the variable that held [gpa0] holds afterwards. *)
Class WhpTranslate (W : Type) := translate_gva : Z -> Z -> Z -> W -> bool * Z * W.

Section Fetch.
Context {W : Type} `{WhpApi W} `{WhpTranslate W}.

Definition TranslateGuestAddress (vp gva gpa : Z) (w : W) : bool * Z * W := translate_gva vp gva gpa w.

Definition FetchGuestInstructionByte (vp : Z) (guest : GuestMemory) (gva : Z) : M W Z := fun w =>
  let '(_, gpa, w) := TranslateGuestAddress vp gva gva w in
  match ptr guest gpa 1 with
  | Ok a => (Ok (data guest a), w)
  | Throw e => (Throw e, w)
  | OutOfFuel => (OutOfFuel, w)
  end.

(** The [for] over the 16 instruction bytes. *)
Fixpoint fetch_bytes (vp : Z) (guest : GuestMemory) (rip i : Z) (n : nat) : M W (list Z) :=
  match n with
  | O => mret []
  | S n =>
      FetchGuestInstructionByte vp guest (u64 (rip + i)) ≫= fun b =>
      fetch_bytes vp guest rip (i + 1) n ≫= fun bs => mret (b :: bs)
  end.

Definition PrepareWhpIoContext (vp : Z) (guest : GuestMemory) (x : vp_context) (io : io_context) : M W io_context :=
  GetRegister64 vp Rax ≫= fun rax =>
  let io := io <| IoRax := rax |> in
  if InstructionByteCount io =? 0 then
    fetch_bytes vp guest (VpRip x) 0 16 ≫= fun bs =>
    let io := io <| InstructionBytes := bs |> in
    mret (io <| InstructionByteCount := DecodeIoInstructionLength io |>)
  else mret io.
End Fetch.

(** ** Properties *)

Section Facts.
Context {W : Type} `{WhpApiLaws W}.

Lemma set_checked_ok vp nvs what (w w' : W) u :
  set_checked vp nvs what w = (Ok u, w') -> set_vp_registers vp nvs w = (true, w').
Proof. unfold set_checked. destruct (set_vp_registers vp nvs w) as [[] w1]; [by intros [= _ <-]|done]. Qed.

(** The registers after a successful assignment. *)
Lemma set_checked_reg vp nvs what (w w' : W) u vp' n :
  set_checked vp nvs what w = (Ok u, w') ->
  reg vp' n w' = if decide (vp' = vp) then assigned nvs n (reg vp' n w) else reg vp' n w.
Proof. intros E%set_checked_ok. by apply set_ok. Qed.

Lemma set_optional_other vp name v (w : W) vp' n :
  n <> name -> reg vp' n (set_optional_reg vp name v w) = reg vp' n w.
Proof.
  intros Hn. unfold set_optional_reg. destruct (set_vp_registers _ _ w) as [[] w'] eqn:E; cbn [snd].
  - rewrite (set_ok _ _ _ _ _ _ E). case_decide; [|done]. unfold assigned. cbn [fold_left].
    by rewrite decide_False.
  - by eapply set_fail.
Qed.

Lemma set_optional_elsewhere vp name v (w : W) vp' n :
  vp' <> vp -> reg vp' n (set_optional_reg vp name v w) = reg vp' n w.
Proof.
  intros Hn. unfold set_optional_reg. destruct (set_vp_registers _ _ w) as [[] w'] eqn:E; cbn [snd].
  - rewrite (set_ok _ _ _ _ _ _ E). by rewrite decide_False.
  - by eapply set_fail.
Qed.

(** *** 64-bit mode *)

(** A descriptor of the GDT, as the processor loads it. *)
Definition descriptor (d selector : Z) : PageTables.Segment_t :=
  let bits lo n := Z.land (Z.shiftr d lo) (Z.ones n) in
  PageTables.mkSegment (bits 16 24 + 2 ^ 24 * bits 56 8) (bits 0 16 + 2 ^ 16 * bits 48 4) selector
    (bits 40 8 + 2 ^ 12 * bits 52 4).

Definition table_descriptor (m : ram) (t : PageTables.Table_t) (selector : Z) : PageTables.Segment_t :=
  descriptor (ReadU64 (load m (PageTables.tBase t + 8 * (selector / 8)) 8)) selector.

Definition gdt_written (i : Z) : ram -> ram := fun m => store m (kGdtAddr + i * 8) (WriteU64 (nth (Z.to_nat i) gdt 0)).

Definition low_tables (a : Z) : Prop := in_range kGdtAddr 40 a.

Lemma long_mode_tables_spec m :
  let m' := long_mode_tables m in
  only_writes (fun a => low_tables a \/ in_range kPageTableBase 0x6000 a) m m' /\
  PageTables.identity_tables m' kPageTableBase /\
  forall i, 0 <= i < 4 -> ReadU64 (load m' (kGdtAddr + 8 * i) 8) = nth (Z.to_nat i) gdt 0.
Proof.
  intros m'. unfold m', long_mode_tables. set (m0 := PageTables.BuildPageTables m kPageTableBase).
  change (seqZ 0 4) with [0; 1; 2; 3]. cbn [fold_left].
  set (m1 := store m0 _ _). set (m2 := store m1 _ _). set (m3 := store m2 _ _). set (m4 := store m3 _ _).
  assert (Hstep : forall m a v, low_tables a -> low_tables (a + 7) -> only_writes low_tables m (store m a (WriteU64 v))).
  { intros ma a v Ha Hb. eapply only_writes_weaken; [|apply only_writes_store].
    unfold low_tables, in_range in *. rewrite length_WriteU64. lia. }
  assert (Hlow : only_writes low_tables m0 (store m4 kIdtAddr (WriteU64 0))).
  { unfold m4, m3, m2, m1.
    repeat (eapply only_writes_trans; [|apply Hstep; unfold low_tables, in_range, kIdtAddr, kGdtAddr; lia]).
    apply only_writes_refl. }
  split_and!.
  - eapply only_writes_trans; [|eapply only_writes_weaken; [|exact Hlow]]; [|by left].
    eapply only_writes_weaken; [|apply PageTables.BuildPageTables_writes; by vm_compute]. by right.
  - apply (PageTables.tables_kept m0 _ low_tables); [done| |].
    + unfold low_tables, in_range, kPageTableBase, kGdtAddr. lia.
    + apply PageTables.tables_built; [by vm_compute|]. by exists 9.
  - intros i Hi. assert (i = 0 \/ i = 1 \/ i = 2 \/ i = 3) as [->|[->|[->| ->]]] by lia;
      unfold m4, m3, m2, m1, kIdtAddr, kGdtAddr; cbn [Z.mul Z.add Pos.mul Pos.add];
      repeat first [ rewrite load_store_disjoint by (rewrite length_WriteU64; lia)
                   | rewrite (load_store_same _ _ (WriteU64 _)) ]; by vm_compute.
Qed.

(** A processor state in which 64-bit code runs: protected mode with paging and physical
    address extension, long mode enabled and active, a 64-bit code segment, every
    segment register equal to the descriptor it names in the GDT, and the low 4 GiB
    mapped to themselves. *)
Record long_mode_ready (m : ram) (r : reg_name -> reg_value) : Prop := {
  lm_modes : has (Reg64 (r Cr0)) 1 = true /\ has (Reg64 (r Cr0)) (2 ^ 31) = true /\
    has (Reg64 (r Cr4)) (2 ^ 5) = true /\ has (Reg64 (r Efer)) (2 ^ 8) = true /\
    has (Reg64 (r Efer)) (2 ^ 10) = true;
  lm_code : Z.testbit (PageTables.Attributes (SegmentReg (r Cs))) 13 = true /\
    Z.testbit (PageTables.Attributes (SegmentReg (r Cs))) 14 = false;
  lm_gdt n : In n [Cs; Ds; Es; Fs; Gs; Ss; Tr] ->
    let s := SegmentReg (r n) in
    let t := TableReg (r Gdtr) in
    0 < PageTables.Selector s /\ PageTables.Selector s + 7 <= PageTables.tLimit t /\
    s = table_descriptor m t (PageTables.Selector s);
  lm_identity va : 0 <= va < 2 ^ 32 -> PageTables.walk m (Reg64 (r Cr3)) va = Some va }.

Lemma SetupLongMode_spec vp entry m (w : W) u m' w' :
  SetupLongMode vp entry (m, w) = (Ok u, (m', w')) ->
  m' = long_mode_tables m /\
  forall vp' n, reg vp' n w' = if decide (vp' = vp) then assigned (long_mode_registers vp entry) n (reg vp n w) else reg vp' n w.
Proof.
  unfold SetupLongMode. rewrite modify_bind. unfold on_snd.
  destruct (set_checked _ _ _ w) as [o w1] eqn:E. intros [= -> <- <-]. split; [done|].
  intros vp' n. rewrite (set_checked_reg _ _ _ _ _ _ _ _ E). by case_decide; subst.
Qed.

(** The registers of a processor started in 64-bit mode, but for the three optional ones. *)
Definition started (vp entry : Z) (w : W) : Prop := exists r0 : reg_name -> reg_value,
  forall n, ~ In n [Pat; MsrMtrrDefType; ApicBase] -> reg vp n w = assigned (long_mode_registers vp entry) n (r0 n).

Lemma bootstrap_spec vp entry enable_apic ap m (w : W) u m' w' :
  SetupWhpBootstrapVcpu vp entry enable_apic ap (m, w) = (Ok u, (m', w')) ->
  (forall vp' n, vp' <> vp -> reg vp' n w' = reg vp' n w) /\
  if ap then m' = m /\ forall n, n <> ApicBase -> reg vp n w' = reg vp n w
  else m' = long_mode_tables m /\ started vp entry w'.
Proof.
  unfold SetupWhpBootstrapVcpu. destruct ap; cbn [negb when].
  - rewrite ret_bind. destruct enable_apic; cbn [when]; intros [= _ <- <-]; (split; [|split]); try done.
    + intros vp' n Hn. by rewrite set_optional_elsewhere.
    + intros n Hn. by rewrite set_optional_other.
  - rewrite bind_ok. intros (u1 & [m1 w1] & E & Hapic). rewrite bind_ok in E.
    destruct E as (u2 & [m2 w2] & E & Hopt). cbn in Hopt. injection Hopt as _ <- <-.
    apply SetupLongMode_spec in E as [-> Hr].
    assert (Hw : w' = (if enable_apic then fun w => set_optional_reg vp ApicBase
         (Z.lor (Z.lor 0xFEE00000 (Z.shiftl 1 11)) (if vp =? 0 then Z.shiftl 1 8 else 0)) w else id)
        (set_optional_reg vp MsrMtrrDefType (Z.lor (Z.shiftl 1 11) 0x6) (set_optional_reg vp Pat 0x0007040600070406 w2)) /\
        m' = long_mode_tables m)
      by (destruct enable_apic; cbn [when] in Hapic; injection Hapic as _ <- <-; done).
    destruct Hw as [-> ->]. split; [|split; [done|exists (fun n => reg vp n w)]].
    + intros vp' n Hn. destruct enable_apic; unfold id; rewrite !set_optional_elsewhere by done;
        by rewrite Hr, decide_False.
    + intros n Hn. destruct enable_apic; unfold id; rewrite !set_optional_other by (intros ->; cbn in Hn; tauto);
        by rewrite Hr, decide_True.
Qed.

Ltac not_in := cbn [In]; intros Hin; repeat (destruct Hin as [Hin|Hin]; [discriminate Hin|]); exact Hin.

Lemma long_mode_registers_ready vp entry m (r r0 : reg_name -> reg_value) :
  (forall n, ~ In n [Pat; MsrMtrrDefType; ApicBase] ->
     r n = assigned (long_mode_registers vp entry) n (r0 n)) ->
  long_mode_ready (long_mode_tables m) r.
Proof.
  intros Hr. destruct (long_mode_tables_spec m) as (_ & Ht & Hg).
  constructor.
  - rewrite !Hr by not_in. by vm_compute.
  - rewrite !Hr by not_in. by vm_compute.
  - intros n Hn. cbv zeta. rewrite (Hr Gdtr) by not_in.
    change (TableReg (assigned _ Gdtr _)) with (PageTables.Table kGdtAddr 31).
    unfold table_descriptor. cbn [PageTables.Table PageTables.tBase PageTables.tLimit].
    assert (Hs : exists i, 0 < i < 4 /\ SegmentReg (r n) = descriptor (nth (Z.to_nat i) gdt 0) (8 * i)).
    { cbn [In] in Hn. repeat (destruct Hn as [<-|Hn];
        [rewrite Hr by not_in; (exists 1 + exists 2 + exists 3); by vm_compute|]). done. }
    destruct Hs as (i & Hi & ->). unfold descriptor at 1 2 3 5. cbn [PageTables.Selector].
    rewrite (Z.mul_comm 8 i), Z.div_mul, (Z.mul_comm i 8), Hg by lia. split; [lia|]. split; [lia|done].
  - intros va Hva. rewrite Hr by not_in. change (Reg64 (assigned _ Cr3 _)) with kPageTableBase.
    apply PageTables.walk_identity; [done|by vm_compute|by exists 9|done].
Qed.

(** After a successful bootstrap the processor can run 64-bit code: the control
    registers enable long mode, every segment register equals the descriptor its
    selector names in the GDT that was written, addresses below 4 GiB are mapped to
    themselves, execution starts at the kernel's entry with the boot parameters in RSI,
    and memory outside the GDT, the IDT and the page tables is as it was.  Application
    processors of a guest that starts them itself keep memory and every register but
    the APIC base. *)
Theorem bootstrap_long_mode vp entry enable_apic ap m (w : W) u m' w' :
  SetupWhpBootstrapVcpu vp entry enable_apic ap (m, w) = (Ok u, (m', w')) ->
  if ap then m' = m /\ forall vp' n, n <> ApicBase -> reg vp' n w' = reg vp' n w
  else
    long_mode_ready m' (fun n => reg vp n w') /\
    Reg64 (reg vp Rip w') = entry /\ Reg64 (reg vp Rsi w') = kBootParamsAddr /\
    only_writes (fun a => low_tables a \/ in_range kPageTableBase 0x6000 a) m m'.
Proof.
  intros (Hother & Hb)%bootstrap_spec. destruct ap.
  - destruct Hb as [-> Hr]. split; [done|]. intros vp' n Hn. destruct (decide (vp' = vp)) as [->|]; [by apply Hr|by apply Hother].
  - destruct Hb as [-> [r0 Hw]]. split_and!.
    + exact (long_mode_registers_ready vp entry m (fun n => reg vp n w') r0 Hw).
    + rewrite Hw by not_in. done.
    + rewrite Hw by not_in. done.
    + apply long_mode_tables_spec.
Qed.

(** *** CPUID *)

Lemma with_bit_spec v k i :
  0 <= k -> 0 <= i -> Z.testbit (Z.lor v (Z.shiftl 1 k)) i = (i =? k) || Z.testbit v i.
Proof.
  intros Hk Hi. rewrite Z.lor_spec, Z.shiftl_1_l, Z.pow2_bits_eqb by lia.
  rewrite orb_comm. f_equal. apply Z.eqb_sym.
Qed.

Lemma without_bit_spec v k i :
  0 <= v < 2 ^ 32 -> 0 <= k < 32 -> 0 <= i ->
  Z.testbit (Z.land v (bnot 32 (Z.shiftl 1 k))) i = negb (i =? k) && Z.testbit v i.
Proof.
  intros Hv Hk Hi. rewrite Z.land_spec. destruct (Z.ltb_spec i 32).
  - rewrite bnot_spec, Z.shiftl_1_l, Z.pow2_bits_eqb, andb_comm by lia.
    do 2 f_equal. apply Z.eqb_sym.
  - by rewrite (testbit_small v 32), andb_false_r by lia.
Qed.

(** What the guest reads for the leaves the monitor answers itself, and the host's
    values for the others. *)
Definition hyperv_leaf (leaf cpus : Z) : option cpuid_result :=
  if (0x40000000 <=? leaf) && (leaf <=? 0x40000005) then
    nth (Z.to_nat (leaf - 0x40000000))
      [Some (mkResult 0x40000005 (ReadU32 (BootParams.ascii_bytes "Micr")) (ReadU32 (BootParams.ascii_bytes "osof"))
               (ReadU32 (BootParams.ascii_bytes "t Hv")));
       Some (mkResult (ReadU32 (BootParams.ascii_bytes "Hv#1")) 0 0 0);
       Some (mkResult 0x1DB1 0xA0000 0 0);
       Some (mkResult (2 ^ 5 + 2 ^ 6 + 2 ^ 11) 0 0 (2 ^ 8));
       Some (mkResult 0 0 0 0);
       Some (mkResult (Z.max 1 cpus) 0 0 0)] None
  else None.

Definition host_leaf (c : cpuid_access) : cpuid_result :=
  mkResult (u32 (DefaultResultRax c)) (u32 (DefaultResultRbx c)) (u32 (DefaultResultRcx c)) (u32 (DefaultResultRdx c)).

Lemma cpuid_range c cpus : 0 <= cpus < 2 ^ 32 ->
  let r := cpuid_switch c cpus in
  Forall (fun v => 0 <= v < 2 ^ 32) [out_rax r; out_rbx r; out_rcx r; out_rdx r].
Proof.
  intros Hc. unfold cpuid_switch. pose proof u32_range as Hu.
  assert (Hl : forall v y, 0 <= y < 2 ^ 32 -> 0 <= Z.land v y < 2 ^ 32) by (intros; by apply land_range).
  assert (Hb : forall v, 0 <= bnot 32 v < 2 ^ 32) by (intros; apply Z.mod_pos_bound; lia).
  assert (Hs : 0 <= Z.lor (u32 (DefaultResultRdx c)) (Z.shiftl 1 8) < 2 ^ 32)
    by (apply lor_range; [done|apply Hu|by vm_compute]).
  repeat match goal with |- context [if ?b then _ else _] => destruct b end; cbn [out_rax out_rbx out_rcx out_rdx];
    repeat first [apply List.Forall_nil | apply List.Forall_cons];
    first [apply Hu | exact Hs | apply Hl, Hb | lia | by vm_compute].
Qed.

Lemma cpuid_switch_spec c cpus :
  let leaf := u32 (CpuidRax c) in
  let r := cpuid_switch c cpus in
  match hyperv_leaf leaf cpus with
  | Some a => r = a
  | None =>
      out_rbx r = out_rbx (host_leaf c) /\
      forall i, 0 <= i ->
        Z.testbit (out_rax r) i = Z.testbit (out_rax (host_leaf c)) i && negb ((leaf =? 6) && (i =? 2)) /\
        Z.testbit (out_rcx r) i =
          (Z.testbit (out_rcx (host_leaf c)) i || ((leaf =? 1) && (i =? 31))) && negb ((leaf =? 1) && (i =? 24)) /\
        Z.testbit (out_rdx r) i = Z.testbit (out_rdx (host_leaf c)) i || ((leaf =? 0x80000007) && (i =? 8))
  end.
Proof.
  cbv zeta. unfold hyperv_leaf, cpuid_switch. pose proof (u32_range (CpuidRax c)) as Hl.
  set (leaf := u32 (CpuidRax c)) in *. clearbody leaf.
  destruct ((0x40000000 <=? leaf) && (leaf <=? 0x40000005)) eqn:Hhv.
  - apply andb_prop in Hhv as [H1%Z.leb_le H2%Z.leb_le].
    assert (exists k, leaf = 0x40000000 + Z.of_nat k /\ (k < 6)%nat) as (k & -> & Hk)
      by (exists (Z.to_nat (leaf - 0x40000000)); lia).
    do 6 (destruct k as [|k]; [reflexivity|]). lia.
  - assert (Hne : forall k, (0x40000000 <=? k) && (k <=? 0x40000005) = true -> (leaf =? k) = false)
      by (intros k Hk; destruct (Z.eqb_spec leaf k); congruence).
    rewrite (Hne kHvCpuidVendorAndMax), (Hne kHvCpuidInterface), (Hne kHvCpuidVersion), (Hne kHvCpuidFeatures),
      (Hne kHvCpuidEnlightenmentInfo), (Hne kHvCpuidImplementationLimits) by done. clear Hl Hhv Hne.
    destruct (Z.eqb_spec leaf 1) as [->|]; [|destruct (Z.eqb_spec leaf 6) as [->|];
      [|destruct (Z.eqb_spec leaf 0x80000007) as [->|]]]; cbn [Z.eqb Pos.eqb];
      cbn [host_leaf out_rax out_rbx out_rcx out_rdx andb negb]; (split; [done|]); intros i Hi;
      rewrite ?without_bit_spec, ?with_bit_spec by (apply u32_range || lia || by apply lor_range; [|apply u32_range|]);
      rewrite ?orb_false_r, ?andb_true_r; (split; [|split]); try done;
      destruct (i =? 31), (i =? 24), (i =? 2), (i =? 8); cbn; by rewrite ?orb_true_r, ?orb_false_r, ?andb_true_r, ?andb_false_r.
Qed.

(** What a guest reads after CPUID.  The monitor answers the Hyper-V leaves
    0x40000000 to 0x40000005 itself: the vendor is "Microsoft Hv", the interface "Hv#1",
    the highest leaf is the last one it answers, which gives the number of processors.
    Any other leaf is the host's answer, bit for bit, but for the hypervisor bit, which
    is set, and the TSC deadline timer, hidden, of leaf 1; the always-running APIC timer
    of leaf 6, hidden; and the invariant TSC of leaf 0x80000007, set.  Results have 32
    bits, the processor goes on after the instruction and no other register changes. *)
Theorem cpuid_view vp x c cpus (w : W) u w' :
  0 <= cpus < 2 ^ 32 -> HandleWhpCpuid vp x c cpus w = (Ok u, w') ->
  let out n := Reg64 (reg vp n w') in
  let r := mkResult (out Rax) (out Rbx) (out Rcx) (out Rdx) in
  Forall (fun v => 0 <= v < 2 ^ 32) [out_rax r; out_rbx r; out_rcx r; out_rdx r] /\
  out Rip = after_instruction x /\
  (forall vp' n, vp' <> vp \/ ~ In n [Rax; Rbx; Rcx; Rdx; Rip] -> reg vp' n w' = reg vp' n w) /\
  match hyperv_leaf (u32 (CpuidRax c)) cpus with
  | Some a => r = a
  | None =>
      let leaf := u32 (CpuidRax c) in
      out_rbx r = out_rbx (host_leaf c) /\
      forall i, 0 <= i ->
        Z.testbit (out_rax r) i = Z.testbit (out_rax (host_leaf c)) i && negb ((leaf =? 6) && (i =? 2)) /\
        Z.testbit (out_rcx r) i =
          (Z.testbit (out_rcx (host_leaf c)) i || ((leaf =? 1) && (i =? 31))) && negb ((leaf =? 1) && (i =? 24)) /\
        Z.testbit (out_rdx r) i = Z.testbit (out_rdx (host_leaf c)) i || ((leaf =? 0x80000007) && (i =? 8))
  end.
Proof.
  intros Hc E. unfold HandleWhpCpuid in E. cbv zeta in E.
  pose proof (fun vp' n => set_checked_reg _ _ _ _ _ _ vp' n E) as Hr. cbv beta zeta. rewrite !Hr, !decide_True by done.
  unfold assigned. cbn -[cpuid_switch u32 after_instruction Z.testbit hyperv_leaf Z.pow].
  set (r := cpuid_switch c cpus). replace (mkResult _ _ _ _) with r by (by destruct r).
  split; [by apply cpuid_range|]. split; [done|]. split; [|apply cpuid_switch_spec].
  intros vp' n Hn. rewrite Hr. case_decide as Hv; [|done]. destruct Hn as [|Hn]; [done|].
  unfold assigned. cbn [fold_left]. rewrite !decide_False; [done|..]; intros ->; apply Hn; cbn; tauto.
Qed.

(** *** Model-specific registers *)

Record msr_state_ok (s : HyperVState) : Prop := {
  ms_tsc : 0 <= tsc_frequency_hz s < 2 ^ 64; ms_apic : 0 <= apic_frequency_hz s < 2 ^ 64;
  ms_os : 0 <= guest_os_id s < 2 ^ 64; ms_hypercall : 0 <= hypercall s < 2 ^ 64 }.

(** The value of EDX:EAX. *)
Definition edx_eax (vp : Z) (w : W) : Z := Reg64 (reg vp Rax w) + 2 ^ 32 * Reg64 (reg vp Rdx w).

Definition written_value (lo hi : Z) : Z := u32 lo + 2 ^ 32 * u32 hi.

Lemma written_value_spec lo hi :
  Z.lor (Z.land lo 0xFFFFFFFF) (u64 (Z.shiftl (Z.land hi 0xFFFFFFFF) 32)) = written_value lo hi /\
  0 <= written_value lo hi < 2 ^ 64.
Proof.
  rewrite !land_lo32. fold (u32 lo) (u32 hi). unfold written_value.
  pose proof (u32_range lo). pose proof (u32_range hi).
  rewrite Z.shiftl_mul_pow2, u64_small by lia. split; [|lia].
  rewrite <- Z.shiftl_mul_pow2, lor_shiftl_add by lia. lia.
Qed.

Lemma read_msr_range vp n s : msr_state_ok s -> 0 <= vp < 2 ^ 32 -> 0 <= (read_msr vp n s).1 < 2 ^ 64.
Proof.
  intros [] Hv. unfold read_msr, time_ref_count.
  repeat match goal with |- context [if ?b then _ else _] => destruct b end; cbn [fst]; try lia.
  assert (0 <= u64 (clock_now (clock s) - started_at s) < 2 ^ 64) by (apply Z.mod_pos_bound; lia).
  split; [apply Z.div_pos|apply Z.div_lt_upper_bound]; lia.
Qed.

Lemma write_msr_ok n v s : msr_state_ok s -> 0 <= v < 2 ^ 64 -> msr_state_ok (write_msr n v s).
Proof.
  intros [] Hv. unfold write_msr. destruct (n =? _); [by constructor|]. by destruct (n =? _); constructor.
Qed.

(** Reading a register after writing one. *)
Definition msr_writable (n : Z) : bool := (n =? kHvMsrGuestOsId) || (n =? kHvMsrHypercall).

Lemma read_write_msr vp n m v s :
  (read_msr vp m (write_msr n v s)).1 = if (m =? n) && msr_writable n then v else (read_msr vp m s).1.
Proof.
  unfold write_msr, msr_writable, read_msr, time_ref_count.
  destruct (Z.eqb_spec n kHvMsrGuestOsId) as [->|]; [|destruct (Z.eqb_spec n kHvMsrHypercall) as [->|]]; cbn [orb];
    rewrite ?andb_true_r, ?andb_false_r; try done;
    repeat match goal with |- context [m =? ?k] => destruct (Z.eqb_spec m k) as [->|] end; try done.
Qed.

Lemma HandleWhpMsr_write vp x n lo hi s (w : W) u s' w' :
  HandleWhpMsr vp x (mkMsr true n lo hi) (s, w) = (Ok u, (s', w')) ->
  s' = write_msr n (written_value lo hi) s /\
  forall vp' m, reg vp' m w' = if decide (vp' = vp /\ m = Rip) then Reg (after_instruction x) else reg vp' m w.
Proof.
  unfold HandleWhpMsr. cbn [MsrIsWrite MsrNumber MsrRax MsrRdx]. rewrite modify_bind. unfold on_snd.
  rewrite (proj1 (written_value_spec lo hi)). unfold SetRip. destruct (set_checked _ _ _ w) as [o w1] eqn:E.
  intros [= -> <- <-]. split; [done|]. intros vp' m. rewrite (set_checked_reg _ _ _ _ _ _ _ _ E).
  unfold assigned. cbn [fold_left].
  destruct (decide (vp' = vp)), (decide (m = Rip)); [rewrite decide_True by done|rewrite decide_False by tauto..]; done.
Qed.

Lemma HandleWhpMsr_read vp x n a d s (w : W) u s' w' :
  HandleWhpMsr vp x (mkMsr false n a d) (s, w) = (Ok u, (s', w')) ->
  let v := (read_msr vp n s).1 in
  s' = (read_msr vp n s).2 /\
  Reg64 (reg vp Rax w') = u32 v /\ Reg64 (reg vp Rdx w') = v / 2 ^ 32 /\
  Reg64 (reg vp Rip w') = after_instruction x /\
  forall vp' m, vp' <> vp \/ ~ In m [Rax; Rdx; Rip] -> reg vp' m w' = reg vp' m w.
Proof.
  unfold HandleWhpMsr. cbn [MsrIsWrite MsrNumber]. destruct (read_msr vp n s) as [v s1] eqn:Er.
  rewrite bind_run, Er, bind_run. unfold on_snd, SetRaxRip. cbn [fst snd].
  destruct (set_checked vp [_; _] _ w) as [[u1|e|] w1] eqn:E1; [|done|done].
  destruct (set_checked vp [_] _ w1) as [o w2] eqn:E2. intros [= -> <- <-]. cbv zeta.
  rewrite land_lo32 in E1. rewrite Z.shiftr_div_pow2 in E2 by done. split; [done|].
  rewrite !(set_checked_reg _ _ _ _ _ _ _ _ E2), !(set_checked_reg _ _ _ _ _ _ _ _ E1), !decide_True by done.
  split_and!; try done. intros vp' m Hm.
  rewrite (set_checked_reg _ _ _ _ _ _ vp' m E2), (set_checked_reg _ _ _ _ _ _ vp' m E1).
  case_decide as Hv; [|done]. destruct Hm as [|Hm]; [done|]. unfold assigned. cbn [fold_left].
  rewrite !decide_False; [done|..]; intros ->; apply Hm; cbn; tauto.
Qed.

(** Reading a model-specific register on any processor, after one was written on
    any processor: the guest gets back the 64 bits it wrote if it was the guest OS
    identity or the hypercall page, and otherwise, or for another register, what it
    would have read without the write; the value arrives in EDX:EAX with the upper
    halves of both registers clear, and both processors go on after their instruction. *)
Theorem msr_write_read vp vp' x x' n m lo hi a d s (w : W) u1 s1 w1 u2 s2 w2 :
  msr_state_ok s -> 0 <= vp' < 2 ^ 32 ->
  HandleWhpMsr vp x (mkMsr true n lo hi) (s, w) = (Ok u1, (s1, w1)) ->
  HandleWhpMsr vp' x' (mkMsr false m a d) (s1, w1) = (Ok u2, (s2, w2)) ->
  edx_eax vp' w2 = (if (m =? n) && msr_writable n then written_value lo hi else (read_msr vp' m s).1) /\
  0 <= Reg64 (reg vp' Rax w2) < 2 ^ 32 /\ 0 <= Reg64 (reg vp' Rdx w2) < 2 ^ 32 /\
  Reg64 (reg vp Rip w1) = after_instruction x /\ Reg64 (reg vp' Rip w2) = after_instruction x'.
Proof.
  intros Hs Hv E1 E2. apply HandleWhpMsr_write in E1 as [-> Hr1].
  apply HandleWhpMsr_read in E2 as (_ & Ha & Hd & Hp & _). rewrite read_write_msr in Ha, Hd. unfold edx_eax.
  set (v := if _ && _ then _ else _) in *.
  assert (Hrange : 0 <= v < 2 ^ 64).
  { unfold v. destruct (_ && _); [apply written_value_spec|by apply read_msr_range]. }
  rewrite Ha, Hd, Hp, Hr1, decide_True by done. unfold u32.
  pose proof (Z.mod_pos_bound v (2 ^ 32) ltac:(lia)). pose proof (Z.div_mod v (2 ^ 32) ltac:(lia)).
  split_and!; try done; lia.
Qed.

(** The reference counter never runs backwards, and counts 100 ns units. *)
Lemma time_ref_monotone s1 s2 s3 t1 t2 :
  steady (clock s1) -> clock_now (clock s1) - started_at s1 < 2 ^ 64 ->
  clock_now (clock_tick (clock s1)) - started_at s1 < 2 ^ 64 ->
  time_ref_count s1 = (t1, s2) -> time_ref_count s2 = (t2, s3) -> t1 <= t2.
Proof.
  unfold time_ref_count. intros Hst Hb1 Hb2 [= <- <-] [= <- _]. cbn [clock started_at upd_field].
  pose proof (Hst (cursor (clock s1)) (S (cursor (clock s1))) ltac:(lia)) as Hle.
  unfold clock_now, clock_tick in *. cbn [readings cursor upd_field] in *.
  destruct (Z.leb_spec (readings (clock s1) (cursor (clock s1)) - started_at s1) 0),
    (Z.leb_spec (readings (clock s1) (S (cursor (clock s1))) - started_at s1) 0); rewrite ?u64_small by lia;
    try apply Z.div_pos; try apply Z.div_le_mono; lia.
Qed.
End Facts.

(** *** I/O instructions *)

(** IN and OUT with any number of prefixes. *)
Inductive io_instruction : list Z -> Prop :=
  | io_dx op : In op [0xEC; 0xED; 0xEE; 0xEF] -> io_instruction [op]
  | io_imm op i : In op [0xE4; 0xE5; 0xE6; 0xE7] -> io_instruction [op; i]
  | io_prefix p i : is_prefix_byte p = true -> io_instruction i -> io_instruction (p :: i).

(** [DecodeIoInstructionLength] of bytes it has to decode. *)
Definition decode (bytes : list Z) (pos : Z) : Z :=
  match skip_prefixes bytes pos with
  | (_, []) => 0
  | (pos, op :: _) =>
      if (op =? 0xE4) || (op =? 0xE5) || (op =? 0xE6) || (op =? 0xE7) then pos + 2
      else if (op =? 0xEC) || (op =? 0xED) || (op =? 0xEE) || (op =? 0xEF) then pos + 1
      else 0
  end.

Lemma decode_instruction i rest pos : io_instruction i -> decode (i ++ rest) pos = pos + Z.of_nat (length i).
Proof.
  intros Hi. revert pos. induction Hi as [op Hop|op i Hop|p i Hp Hi IH]; intros pos.
  - cbn [In] in Hop. repeat (destruct Hop as [<-|Hop]; [reflexivity|]). done.
  - cbn [In] in Hop. repeat (destruct Hop as [<-|Hop]; [reflexivity|]). done.
  - unfold decode in *. cbn [app skip_prefixes]. rewrite Hp, IH. cbn [length]. lia.
Qed.

Lemma decode_found bytes pos : 0 <= pos -> decode bytes pos <> 0 ->
  exists i, io_instruction i /\ decode bytes pos = pos + Z.of_nat (length i) /\
    (i `prefix_of` bytes \/ exists b, i = bytes ++ [b]).
Proof.
  revert pos. induction bytes as [|b bytes IH]; intros pos Hpos; [done|]. unfold decode. cbn [skip_prefixes].
  destruct (is_prefix_byte b) eqn:Hb.
  - intros Hd. destruct (IH (pos + 1) ltac:(lia) Hd) as (i & Hi & Hl & Hp). exists (b :: i).
    split; [by constructor|]. split; [unfold decode in Hl; rewrite Hl; cbn [length]; lia|].
    destruct Hp as [Hp|[c ->]]; [left; by apply prefix_cons|right; by exists c].
  - destruct ((b =? 0xE4) || (b =? 0xE5) || (b =? 0xE6) || (b =? 0xE7)) eqn:H1;
      [|destruct ((b =? 0xEC) || (b =? 0xED) || (b =? 0xEE) || (b =? 0xEF)) eqn:H2; [|done]]; intros _.
    + assert (Hi : forall c, io_instruction [b; c]).
      { intros c. apply io_imm. rewrite !orb_true_iff, !Z.eqb_eq in H1. cbn. intuition congruence. }
      exists [b; hd 0 bytes]. split; [done|]. split; [cbn [length]; lia|].
      destruct bytes as [|c bytes]; [by right; exists 0|left]. by exists bytes.
    + exists [b]. split; [|split; [cbn [length]; lia|left; by exists bytes]].
      apply io_dx. rewrite !orb_true_iff, !Z.eqb_eq in H2. cbn. intuition congruence.
Qed.

(** When the hypervisor gives no length, [DecodeIoInstructionLength] finds it: bytes
    that begin with an IN or OUT instruction, whatever its prefixes, give the length of
    that instruction, and a length other than zero is that of the instruction the bytes
    begin with (an immediate operand may lie just past them). *)
Theorem DecodeIoInstructionLength_spec io :
  InstructionByteCount io = 0 ->
  (forall i rest, io_instruction i -> InstructionBytes io = i ++ rest ->
     DecodeIoInstructionLength io = Z.of_nat (length i)) /\
  (DecodeIoInstructionLength io <> 0 ->
     exists i, io_instruction i /\ DecodeIoInstructionLength io = Z.of_nat (length i) /\
       (i `prefix_of` InstructionBytes io \/ exists b, i = InstructionBytes io ++ [b])).
Proof.
  intros Hc. assert (HD : DecodeIoInstructionLength io = decode (InstructionBytes io) 0)
    by (unfold DecodeIoInstructionLength; by rewrite Hc).
  rewrite HD.
  split; [intros i rest Hi ->; by apply decode_instruction|]. by apply decode_found.
Qed.

Lemma DecodeIoInstructionLength_spec_witness :
  DecodeIoInstructionLength (mkIo 0 ([0x66; 0xE7; 0x80] ++ repeat 0 13) true 2 false false 0x80 0) = 3.
Proof.
  pose (io := mkIo 0 ([0x66; 0xE7; 0x80] ++ repeat 0 13) true 2 false false 0x80 0).
  apply (proj1 (DecodeIoInstructionLength_spec io eq_refl) [0x66; 0xE7; 0x80] (repeat 0 13)); [|reflexivity].
  apply io_prefix; [reflexivity|]. apply io_imm. cbn. tauto.
Defined.

Section FetchFacts.
Context {W : Type} `{WhpApi W} `{WhpTranslate W}.

Lemma fetch_bytes_spec vp guest rip (w : W) (gpa : Z -> Z) n i :
  (forall g, exists b, translate_gva vp g g w = (b, gpa g, w)) ->
  let a j := gpa (u64 (rip + j)) in
  if forallb (fun j => is_ok (ptr guest (a j) 1)) (seqZ i (Z.of_nat n))
  then fetch_bytes vp guest rip i n w = (Ok (map (fun j => data guest (a j)) (seqZ i (Z.of_nat n))), w)
  else exists e, fetch_bytes vp guest rip i n w = (Throw e, w).
Proof.
  intros Htr a. revert i. induction n as [|n IH]; intros i; [done|].
  rewrite seqZ_cons by lia. replace (Z.pred (Z.of_nat (S n))) with (Z.of_nat n) by lia.
  cbn [forallb map fetch_bytes]. rewrite bind_run. unfold FetchGuestInstructionByte, TranslateGuestAddress.
  destruct (Htr (u64 (rip + i))) as [b ->]. fold (a i).
  destruct (ptr guest (a i) 1) as [p|e|] eqn:Ep; cbn [is_ok andb];
    [|by exists e|by destruct (ptr_no_fuel guest (a i) 1)].
  assert (p = a i) as -> by (unfold ptr in Ep; destruct (CheckRange _ _ _ _); by inversion Ep).
  rewrite bind_run. specialize (IH (Z.succ i)). replace (Z.succ i) with (i + 1) in * by lia.
  destruct (forallb _ _); [by rewrite IH|]. destruct IH as [e ->]. by exists e.
Qed.

(** When the hypervisor gives no instruction bytes, sixteen are read at the
    instruction pointer, each through its own translation: if all lie in guest memory
    the context is completed with them, and if one does not, even one behind the end of
    the instruction, the exit fails with an exception (which ends the machine). *)
Theorem PrepareWhpIoContext_spec vp guest x io (w : W) v (gpa : Z -> Z) :
  InstructionByteCount io = 0 ->
  get_vp_registers vp [Rax] w = (Some [v], w) ->
  (forall g, exists b, translate_gva vp g g w = (b, gpa g, w)) ->
  let a j := gpa (u64 (VpRip x + j)) in
  if forallb (fun j => is_ok (ptr guest (a j) 1)) (seqZ 0 16) then
    let bytes := map (fun j => data guest (a j)) (seqZ 0 16) in
    PrepareWhpIoContext vp guest x io w =
      (Ok (mkIo (DecodeIoInstructionLength (io <| InstructionBytes := bytes |>)) bytes (IsWrite io) (AccessSize io)
             (StringOp io) (RepPrefix io) (PortNumber io) (Reg64 v)), w)
  else exists e, PrepareWhpIoContext vp guest x io w = (Throw e, w).
Proof.
  intros Hc Hrax Htr. cbv zeta. pose proof (fetch_bytes_spec vp guest (VpRip x) w gpa 16 0 Htr) as Hf.
  unfold PrepareWhpIoContext, GetRegister64. rewrite bind_run, Hrax. cbv zeta.
  change (InstructionByteCount (io <| IoRax := _ |>)) with (InstructionByteCount io). rewrite Hc.
  cbn [Z.eqb]. rewrite bind_run. change (Z.of_nat 16) with 16 in Hf. cbv zeta in Hf.
  destruct (forallb _ _); [|by destruct Hf as [e ->]; exists e]. rewrite Hf. cbn. unfold DecodeIoInstructionLength.
  cbn [InstructionByteCount InstructionBytes upd_field]. by rewrite Hc.
Qed.
End FetchFacts.

(** ** A partition whose calls succeed and whose guest runs with an identity mapping *)
Module Demo.
Import Irq.Demo.
#[export] Instance translate : WhpTranslate regs := fun vp gva gpa w => (true, gva, w).

Definition ram0 : ram := fun _ => 0.
Definition booted : outcome unit * (ram * regs) := SetupWhpBootstrapVcpu 0 0x1000000 true false (ram0, w0).

Lemma bootstrap_long_mode_witness : Reg64 (booted.2.2 0 Rip) = 0x1000000.
Proof.
  assert (E : booted = (Ok tt, (booted.2.1, booted.2.2))) by (unfold booted, SetupWhpBootstrapVcpu, SetupLongMode, on_snd; generalize ram0; reflexivity).
  destruct (bootstrap_long_mode 0 0x1000000 true false ram0 w0 tt booted.2.1 booted.2.2 E) as (_ & H & _).
  exact H.
Defined.

Lemma cpuid_view_witness :
  let r := HandleWhpCpuid 0 (mkVpContext 0x100 2) (mkCpuid 0x40000005 0 0 0 0) 4 w0 in
  Reg64 (r.2 0 Rax) = 4.
Proof.
  intros r.
  assert (E : r = (Ok tt, r.2)) by reflexivity.
  destruct (cpuid_view 0 (mkVpContext 0x100 2) (mkCpuid 0x40000005 0 0 0 0) 4 w0 tt r.2) as (_ & _ & _ & H);
    [lia|exact E|].
  change (hyperv_leaf (u32 (CpuidRax (mkCpuid 0x40000005 0 0 0 0))) 4) with (Some (mkResult 4 0 0 0)) in H.
  exact (f_equal out_rax H).
Defined.

(** A processor writes the guest identity; another reads it. *)
Lemma msr_write_read_witness :
  let s := HyperVState_new None None (mkClock (fun n => 100 * Z.of_nat n) 0) in
  let r1 := HandleWhpMsr 0 (mkVpContext 0x100 2) (mkMsr true kHvMsrGuestOsId 0x11223344 0x81) (s, w0) in
  let r2 := HandleWhpMsr 1 (mkVpContext 0x200 2) (mkMsr false kHvMsrGuestOsId 0 0) r1.2 in
  edx_eax 1 r2.2.2 = 0x8111223344.
Proof.
  intros s r1 r2.
  apply (msr_write_read 0 1 (mkVpContext 0x100 2) (mkVpContext 0x200 2) kHvMsrGuestOsId kHvMsrGuestOsId
    0x11223344 0x81 0 0 s w0 tt r1.2.1 r1.2.2 tt r2.2.1 r2.2.2); [|lia|reflexivity|reflexivity].
  constructor; by vm_compute.
Defined.

(** An IN instruction of one byte, the last byte of guest memory: the exit fails. *)
Lemma PrepareWhpIoContext_spec_witness :
  let guest := mkGuestMemory (fun a => if a =? 0xFFFF then 0xEC else 0) 0x10000 in
  exists e, PrepareWhpIoContext 0 guest (mkVpContext 0xFFFF 1) (mkIo 0 [] false 1 false false 0x40 0) w0 = (Throw e, w0).
Proof.
  intros guest.
  exact (PrepareWhpIoContext_spec 0 guest (mkVpContext 0xFFFF 1) (mkIo 0 [] false 1 false false 0x40 0) w0
    zero_value (fun g => g) eq_refl eq_refl (fun g => ex_intro _ true eq_refl)).
Defined.
End Demo.
