(* ===== verification/Bus.v ===== *)
(** * native/whp/backend.cc: the buses of the machine

    Which device an access reaches and what it may change, the agreement of the two ways
    an I/O instruction is carried out, the road of a timer interrupt, and the part of the
    address space that guest memory takes from the devices. *)

From S2P Require Import Prelude Words Bytes GuestMemory Board Clock VirtQueue HostFile Vcpu.
From S2P Require Irq Pit Pic Cmos PmTimer Hpet IoApic Uart Blk Rng Net.
From S2P Require Import Machine.
Import Irq(WhpApi, Rax).
#[local] Existing Instances DiskIo.win_disk DiskIo.win_disk_laws Irq.eta_Vcpu Blk.eta_VirtioBlk Rng.eta_VirtioRng Net.eta_VirtioNet Net.ioapic_controller IoApic.eta_IoApic.

(** ** Routing of memory accesses *)

Section Bus.
Context {F H E S W : Type} `{HostFileLaws F H} `{Rng.Entropy E} `{Net.SlirpBackend S} `{WhpApi W}.
Local Notation machine := (Machine F H E S W).
Local Notation MM := (M machine).

(** Who answers at an address, by arithmetic alone. *)
Inductive target := ToDisk (i : nat) | ToRng | ToNet | ToIoApic | ToHpet | ToRam | ToNothing.
#[export] Instance target_eq_dec : EqDecision target.
Proof. solve_decision. Defined.

Definition in_window (base size gpa : Z) : bool := (base <=? gpa) && (gpa <? base + size).

Definition behind_devices (s : machine) (gpa size : Z) : target :=
  if (gpa <? len (mem s)) && (size <=? len (mem s) - gpa) then ToRam else ToNothing.

Definition owner (s : machine) (gpa size : Z) : target :=
  let disks := Z.of_nat (length (blks s)) in
  let slot := (gpa - kVirtioMmioBase) / kVirtioStride in
  if in_window kVirtioMmioBase ((disks + 2) * kVirtioStride) gpa then
    if slot <? disks then ToDisk (Z.to_nat slot)
    else if slot =? disks + 1 then ToRng
    else if bool_decide (is_Some (net s)) then ToNet else behind_devices s gpa size
  else if in_window kIoApicBase kIoApicSize gpa then ToIoApic
  else if in_window kHpetBase kHpetSize gpa then ToHpet
  else behind_devices s gpa size.

Lemma slot_window gpa k :
  in_window (VirtioMmioBase k) kVirtioStride gpa = ((gpa - kVirtioMmioBase) / kVirtioStride =? k).
Proof.
  unfold in_window, VirtioMmioBase, kVirtioStride. pose proof (Z.div_mod (gpa - kVirtioMmioBase) 0x200 ltac:(lia)).
  pose proof (Z.mod_pos_bound (gpa - kVirtioMmioBase) 0x200 ltac:(lia)).
  set (q := (gpa - kVirtioMmioBase) / 0x200) in *. clearbody q.
  destruct (Z.eqb_spec q k), (Z.leb_spec (kVirtioMmioBase + k * 0x200) gpa),
    (Z.ltb_spec gpa (kVirtioMmioBase + k * 0x200 + 0x200)); cbn [andb]; lia.
Qed.

Lemma blk_at_slot gpa (l : list (Blk.VirtioBlk F H)) i :
  (forall j b, l !! j = Some b -> Blk.mmio_base b = VirtioMmioBase (Z.of_nat (i + j))) ->
  blk_at gpa l i =
    let slot := (gpa - kVirtioMmioBase) / kVirtioStride in
    if (Z.of_nat i <=? slot) && (slot <? Z.of_nat (i + length l))
    then match l !! (Z.to_nat slot - i)%nat with Some b => Some (Z.to_nat slot, b) | None => None end
    else None.
Proof.
  cbv zeta. set (slot := _ / _). revert i. induction l as [|b l IH]; intros i Hl; cbn [blk_at length].
  - destruct (_ && _); [|done]. by rewrite lookup_nil.
  - rewrite (Hl 0%nat b) by done. rewrite Nat.add_0_r.
    change ((VirtioMmioBase (Z.of_nat i) <=? gpa) && (gpa <? VirtioMmioBase (Z.of_nat i) + kVirtioStride))
      with (in_window (VirtioMmioBase (Z.of_nat i)) kVirtioStride gpa).
    rewrite slot_window. fold slot. destruct (Z.eqb_spec slot (Z.of_nat i)) as [->|Hne].
    + rewrite (proj2 (Z.leb_le _ _)), (proj2 (Z.ltb_lt _ _)) by lia. cbn [andb].
      by rewrite Nat2Z.id, Nat.sub_diag.
    + rewrite IH.
      * destruct (Z.leb_spec (Z.of_nat i) slot), (Z.leb_spec (Z.of_nat (Datatypes.S i)) slot),
          (Z.ltb_spec slot (Z.of_nat (i + Datatypes.S (length l)))),
          (Z.ltb_spec slot (Z.of_nat (Datatypes.S i + length l))); cbn [andb]; try done; try lia.
        replace (Z.to_nat slot - i)%nat with (Datatypes.S (Z.to_nat slot - Datatypes.S i)) by lia. done.
      * intros j bj Hj. rewrite (Hl (Datatypes.S j) bj Hj). f_equal. lia.
Qed.

(** What an access to [t] may change: that device, guest memory if the device or the
    access itself writes there, the files for a disk, and the interrupt state. *)
Record only_reaches (t : target) (s s' : machine) : Prop := {
  re_blks j : t <> ToDisk j -> blks s' !! j = blks s !! j;
  re_rng : t <> ToRng -> rng s' = rng s;
  re_net : t <> ToNet -> net s' = net s;
  re_hpet : t <> ToHpet -> hpet s' = hpet s;
  re_host : (forall j, t <> ToDisk j) -> host s' = host s;
  re_mem : t = ToIoApic \/ t = ToHpet \/ t = ToNothing -> mem s' = mem s;
  re_ioapic : t = ToRam \/ t = ToNothing -> ioapic s' = ioapic s;
  re_ports : pic s' = pic s /\ pit s' = pit s /\ cmos s' = cmos s /\ pm_timer s' = pm_timer s /\ uart s' = uart s;
  re_rest : guest_exit s' = guest_exit s /\ vcpu_irq s' = vcpu_irq s /\ rng_index s' = rng_index s }.

(** The device's own answer to a read. *)
Definition device_read (t : target) (s : machine) (gpa size : Z) : option (list Z) :=
  match t with
  | ToDisk i => b ← blks s !! i; Some (Blk.read_mmio b gpa size)
  | ToRng => Some (Rng.read_mmio (rng s) gpa size)
  | ToNet => n ← net s; Some (Net.read_mmio n gpa size)
  | ToIoApic => Some (IoApic.read_mmio (ioapic s) gpa size)
  | ToHpet => match Hpet.read_mmio gpa size (hpet s) with (Ok bs, _) => Some bs | _ => None end
  | ToRam => Some (load (data (mem s)) gpa size)
  | ToNothing => Some (repeat 0 (Z.to_nat size))
  end.

(** What the device does with the access. *)
Definition device_access (fuel : nat) (write : bool) (t : target) (gpa : Z) (bytes : list Z) : MM (option (list Z)) := fun s =>
  let size := Z.of_nat (length bytes) in
  match t with
  | ToDisk i =>
      match blks s !! i with
      | Some b => if write then wrote bytes (with_blk i (Blk.write_mmio gpa bytes) b) s else got (Blk.read_mmio b gpa size) s
      | None => (Ok None, s)
      end
  | ToRng => if write then wrote bytes (with_rng (Rng.write_mmio gpa bytes)) s else got (Rng.read_mmio (rng s) gpa size) s
  | ToNet =>
      match net s with
      | Some n => if write then wrote bytes (with_net (Net.write_mmio fuel gpa bytes) n) s else got (Net.read_mmio n gpa size) s
      | None => (Ok None, s)
      end
  | ToIoApic =>
      if write then wrote bytes (modify (with_ioapic (IoApic.write_mmio gpa bytes))) s
      else got (IoApic.read_mmio (ioapic s) gpa size) s
  | ToHpet => if write then wrote bytes (with_hpet (Hpet.write_mmio gpa bytes)) s else read_hpet gpa size s
  | ToRam =>
      if write then wrote bytes (modify (fun s : machine => s <| mem := mem_store (mem s) gpa bytes |>)) s
      else got (load (data (mem s)) gpa size) s
  | ToNothing => got (if write then bytes else repeat 0 (length bytes)) s
  end.

Lemma window_slots gpa n :
  in_window kVirtioMmioBase (n * kVirtioStride) gpa =
    (0 <=? (gpa - kVirtioMmioBase) / kVirtioStride) && ((gpa - kVirtioMmioBase) / kVirtioStride <? n).
Proof.
  unfold in_window, kVirtioStride. pose proof (Z.div_mod (gpa - kVirtioMmioBase) 0x200 ltac:(lia)).
  pose proof (Z.mod_pos_bound (gpa - kVirtioMmioBase) 0x200 ltac:(lia)).
  set (q := (gpa - kVirtioMmioBase) / 0x200) in *. clearbody q.
  destruct (Z.leb_spec kVirtioMmioBase gpa), (Z.ltb_spec gpa (kVirtioMmioBase + n * 0x200)), (Z.leb_spec 0 q), (Z.ltb_spec q n);
    cbn [andb]; lia.
Qed.

(** The interrupt controllers' registers are above every virtio window. *)
Lemma windows_apart gpa k :
  0 <= k < 20 -> (gpa - kVirtioMmioBase) / kVirtioStride = k ->
  in_window kIoApicBase kIoApicSize gpa = false /\ in_window kHpetBase kHpetSize gpa = false.
Proof.
  intros Hk Hs. pose proof (Z.mod_pos_bound (gpa - kVirtioMmioBase) 0x200 ltac:(lia)).
  pose proof (Z.div_mod (gpa - kVirtioMmioBase) 0x200 ltac:(lia)) as Hd. unfold kVirtioStride in Hs. rewrite Hs in Hd.
  unfold in_window. unfold kVirtioMmioBase in *. unfold kIoApicBase, kIoApicSize, kHpetBase, kHpetSize.
  split; apply andb_false_iff; left; apply Z.leb_gt; lia.
Qed.

Lemma behind_devices_access (fuel : nat) (write : bool) (gpa : Z) (bytes : list Z) (s : machine) :
  (if (gpa <? len (mem s)) && (Z.of_nat (length bytes) <=? len (mem s) - gpa) then
     if write then wrote bytes (modify (fun s : machine => s <| mem := mem_store (mem s) gpa bytes |>)) s
     else got (load (data (mem s)) gpa (Z.of_nat (length bytes))) s
   else got (if write then bytes else repeat 0 (length bytes)) s) =
  device_access fuel write (behind_devices s gpa (Z.of_nat (length bytes))) gpa bytes s.
Proof. unfold behind_devices. by destruct (_ && _). Qed.

Lemma EmulatorMemory_owner fuel write gpa bytes (s : machine) :
  layout s -> (1 <= length bytes <= 8)%nat ->
  EmulatorMemory fuel write gpa bytes s = device_access fuel write (owner s gpa (Z.of_nat (length bytes))) gpa bytes s.
Proof.
  intros [Lb Ln Lr Lc] Hl. unfold EmulatorMemory, owner. cbv zeta.
  replace ((Z.of_nat (length bytes) =? 0) || (8 <? Z.of_nat (length bytes))) with false by lia.
  rewrite (blk_at_slot gpa (blks s) 0 Lb). cbv zeta. rewrite window_slots. unfold net_at, rng_base. rewrite Lr.
  change (_ && (gpa <? VirtioMmioBase (Z.of_nat (length (blks s)) + 1) + kVirtioStride))
    with (in_window (VirtioMmioBase (Z.of_nat (length (blks s)) + 1)) kVirtioStride gpa).
  rewrite slot_window. fold (in_window kIoApicBase kIoApicSize gpa). fold (in_window kHpetBase kHpetSize gpa).
  rewrite Nat.add_0_l, Nat.sub_0_r. change (Z.of_nat 0) with 0.
  assert (Hnet : (match net s with
      | Some n => if (Net.mmio_base n <=? gpa) && (gpa <? Net.mmio_base n + kVirtioStride) then Some n else None
      | None => None end) = if (gpa - kVirtioMmioBase) / kVirtioStride =? Z.of_nat (length (blks s)) then net s else None).
  { destruct (net s) as [n|] eqn:En; [|by destruct (_ =? _)]. destruct (Ln n eq_refl) as [-> _].
    rewrite <- slot_window. done. }
  rewrite Hnet. clear Hnet. pose proof (windows_apart gpa) as Hap.
  set (slot := _ / _) in *. set (disks := Z.of_nat (length (blks s))) in *. unfold kVirtioMmioIrqBase in Lc.
  destruct (Z.leb_spec 0 slot); [destruct (Z.ltb_spec slot disks)|]; cbn [andb].
  { destruct (lookup_lt_is_Some_2 (blks s) (Z.to_nat slot)) as [b Hb]; [lia|]. rewrite Hb.
    rewrite (proj2 (Z.ltb_lt slot (disks + 2))) by lia. cbn [device_access]. by rewrite Hb. }
  - destruct (Z.ltb_spec slot (disks + 2)).
    + destruct (Z.eqb_spec slot (disks + 1)) as [E1|E1]; [done|].
      destruct (Hap slot) as [-> ->]; [lia|done|]. rewrite (proj2 (Z.eqb_eq slot disks)) by lia.
      destruct (net s) as [n|] eqn:En; [|by apply behind_devices_access]. cbn [bool_decide device_access is_Some_dec]. by rewrite En.
    + rewrite (proj2 (Z.eqb_neq slot (disks + 1))), (proj2 (Z.eqb_neq slot disks)) by lia.
      destruct (in_window kIoApicBase _ _); [done|]. destruct (in_window kHpetBase _ _); [done|]. by apply behind_devices_access.
  - rewrite (proj2 (Z.eqb_neq slot (disks + 1))), (proj2 (Z.eqb_neq slot disks)) by lia.
    destruct (in_window kIoApicBase _ _); [done|]. destruct (in_window kHpetBase _ _); [done|]. by apply behind_devices_access.
Qed.

(** A device's interrupts reach the controller only. *)
Definition irq_only (s s' : machine) : Prop := exists c n, s' = (s <| ioapic := c |>) <| wakes := n |>.

Lemma irq_only_refl s : irq_only s s.
Proof. exists (ioapic s), (wakes s). by destruct s. Qed.
Lemma irq_only_trans s1 s2 s3 : irq_only s1 s2 -> irq_only s2 s3 -> irq_only s1 s3.
Proof. intros (c & n & ->) (c' & n' & ->). by exists c', n'. Qed.

Lemma irq_only_request irq s : irq_only s (request_irq irq s).
Proof. exists (IoApic.request_irq irq (ioapic s)), (wakes s). by destruct s. Qed.

Lemma irq_only_times irq n s : irq_only s (times n (request_irq irq) s).
Proof.
  unfold times. induction (Z.to_nat n) as [|k IH]; [apply irq_only_refl|]. cbn [Nat.iter].
  eapply irq_only_trans; [exact IH|]. apply irq_only_request.
Qed.

Lemma irq_only_lines calls : forall s, irq_only s (fold_left hpet_line calls s).
Proof.
  induction calls as [|[pin level] calls IH]; intros s; [apply irq_only_refl|]. cbn [fold_left].
  eapply irq_only_trans; [|apply IH]. unfold hpet_line. destruct (pin <? 24); [|apply irq_only_refl].
  exists (IoApic.set_irq pin level (ioapic s)), (wakes s + 1). by destruct s.
Qed.

Lemma reaches_refl t s : only_reaches t s s.
Proof. by split. Qed.

Lemma reaches_irq t s s1 s2 :
  t <> ToRam -> t <> ToNothing -> only_reaches t s s1 -> irq_only s1 s2 -> only_reaches t s s2.
Proof. intros Hr Hn [] (c & n & ->). split; try done. by intros [|]. Qed.

Lemma with_blk_reaches {A} i (m : M (Blk.VirtioBlk F H) A) b s : only_reaches (ToDisk i) s (with_blk i m b s).2.
Proof.
  unfold with_blk. destruct (m _) as [o b']. cbn [snd].
  apply (reaches_irq _ s (take_blk i b' s)); [done|done| |apply irq_only_times].
  split; try done; [|by intros Hd; destruct (Hd i)|by intros [|[|]]].
  intros j Hj. cbn. apply list_lookup_insert_ne. congruence.
Qed.

Lemma with_rng_reaches {A} (m : M (Rng.VirtioRng E) A) s : only_reaches ToRng s (with_rng m s).2.
Proof.
  unfold with_rng. destruct (m _) as [o r]. cbn [snd].
  apply (reaches_irq _ s ((s <| mem := Rng.mem r |>) <| rng := r |>)); [done|done| |apply irq_only_times].
  split; try done. by intros [|[|]].
Qed.

Lemma with_net_reaches {A} (m : M (Net.VirtioNet (IoApic.IoApic W) S) A) n s : only_reaches ToNet s (with_net m n s).2.
Proof. unfold with_net. destruct (m _) as [o n']. cbn [snd]. split; try done; [by intros [|[|]]|by intros [|]]. Qed.

Lemma with_hpet_reaches {A} (m : M Hpet.Hpet A) s : only_reaches ToHpet s (with_hpet m s).2.
Proof.
  unfold with_hpet. destruct (m _) as [o h]. cbn [snd].
  apply (reaches_irq _ s (s <| hpet := h |>)); [done|done| |apply irq_only_lines]. by split.
Qed.

Lemma wrote_reaches t bytes (m : MM unit) s : only_reaches t s (m s).2 -> only_reaches t s (wrote bytes m s).2.
Proof. intros Hm. unfold wrote. rewrite bind_run. by destruct (m s) as [[] s1]. Qed.

Lemma device_access_reaches fuel write t gpa bytes s : only_reaches t s (device_access fuel write t gpa bytes s).2.
Proof.
  pose proof (reaches_refl t s) as Hr.
  destruct t; cbn [device_access].
  - destruct (blks s !! i); [|done]. destruct write; [|done]. apply wrote_reaches, with_blk_reaches.
  - destruct write; [|done]. apply wrote_reaches, with_rng_reaches.
  - destruct (net s) as [n|]; [|done]. destruct write; [|done]. apply wrote_reaches, with_net_reaches.
  - destruct write; [|done]. apply wrote_reaches. split; try done. by intros [|].
  - destruct write; [apply wrote_reaches, with_hpet_reaches|]. unfold read_hpet. rewrite bind_run.
    pose proof (with_hpet_reaches (Hpet.read_mmio gpa (Z.of_nat (length bytes))) s) as Hh.
    by destruct (with_hpet _ s) as [[] s1].
  - destruct write; [|done]. apply wrote_reaches. split; try done. by intros [|[|]].
  - by destruct write.
Qed.

Lemma read_answers s t gpa (bytes : list Z) :
  Hpet.hpet_ok (hpet s) -> (forall i, t = ToDisk i -> is_Some (blks s !! i)) -> (t = ToNet -> is_Some (net s)) ->
  exists bs, device_read t s gpa (Z.of_nat (length bytes)) = Some bs /\
    forall fuel, (device_access fuel false t gpa bytes s).1 = Ok (Some bs).
Proof.
  intros Hh Hd Hn. destruct t; cbn [device_read device_access].
  - destruct (Hd i eq_refl) as [b ->]. by eexists.
  - by eexists.
  - destruct (Hn eq_refl) as [n ->]. by eexists.
  - by eexists.
  - unfold read_hpet, with_hpet. rewrite bind_run.
    destruct (Hpet.read_mmio_ok gpa (Z.of_nat (length bytes)) (hpet s) Hh) as (v & h' & -> & _). by eexists.
  - by eexists.
  - rewrite Nat2Z.id. by eexists.
Qed.

Lemma owner_exists (s : machine) gpa size :
  (forall i, owner s gpa size = ToDisk i -> is_Some (blks s !! i)) /\ (owner s gpa size = ToNet -> is_Some (net s)).
Proof.
  unfold owner, behind_devices. cbv zeta. rewrite window_slots. set (slot := _ / _).
  destruct (Z.leb_spec 0 slot), (Z.ltb_spec slot (Z.of_nat (length (blks s)) + 2)); cbn [andb];
    repeat match goal with
    | |- context [if bool_decide ?c then _ else _] => case_bool_decide
    | |- context [if slot <? ?n then _ else _] => destruct (Z.ltb_spec slot n)
    | |- context [if ?c then _ else _] => destruct c
    end; split; try done; intros i [= <-]; apply lookup_lt_is_Some_2; lia.
Qed.

(** C8.  The windows of the machine do not overlap, and an access of up to eight bytes
    reaches exactly the device that the address arithmetic names: the order in which the
    handler tries the devices does not matter.  The device carries out the access as if it
    were alone, nothing but that device, guest memory and the interrupt state changes, and
    a read returns what the device answers, zeros where nobody does. *)
Theorem mmio_routing fuel write gpa bytes (s : machine) :
  machine_ok s -> (1 <= length bytes <= 8)%nat ->
  let t := owner s gpa (Z.of_nat (length bytes)) in
  let (o, s') := EmulatorMemory fuel write gpa bytes s in
  (o, s') = device_access fuel write t gpa bytes s /\
  only_reaches t s s' /\
  (write = false -> exists bs, device_read t s gpa (Z.of_nat (length bytes)) = Some bs /\ o = Ok (Some bs)).
Proof.
  intros Hs Hl. cbv zeta. rewrite EmulatorMemory_owner by (done || apply Hs).
  set (t := owner _ _ _). pose proof (device_access_reaches fuel write t gpa bytes s) as Hr.
  destruct (owner_exists s gpa (Z.of_nat (length bytes))) as [Hd Hn]. fold t in Hd, Hn.
  destruct (read_answers s t gpa bytes) as (bs & Hbs & Ha); [apply Hs|done|done|]. specialize (Ha fuel).
  destruct (device_access _ write _ _ _ _) as [o s'] eqn:Ed. split_and!; [done|done|].
  intros ->. exists bs. split; [done|]. by rewrite Ed in Ha.
Qed.

(** ** The two ways to carry out an I/O instruction *)

(** Ports that only the emulator's callback serves: both PICs, the PIT and port 0x61. *)
Definition emulator_only (port size : Z) : bool :=
  ((port =? 0x20) || (port =? 0x21) || (port =? 0xA0) || (port =? 0xA1) ||
   ((0x40 <=? port) && (port <=? 0x43)) || (port =? 0x61)) && (size =? 1).

(** The access the emulator makes for the instruction at an exit. *)
Definition access_of (io : io_context) (rax : Z) : io_access :=
  mkAccess (IsWrite io) (PortNumber io) (AccessSize io) (Z.land (u32 rax) (access_mask (AccessSize io))).

(** What a read leaves in RAX: the value in the low part, the rest kept. *)
Definition merged (rax mask : Z) (o : outcome Z) (v : Z) : Prop :=
  exists v', o = Ok (merge_rax rax mask v') /\ Z.land v' mask = Z.land v mask.

Lemma bnot_land mask rax : Z.land (Z.land rax (bnot 64 mask)) mask = 0.
Proof.
  unfold bnot. rewrite <- (Z.land_ones _ 64) by lia. apply Z.bits_inj'. intros i Hi. rewrite !Z.land_spec, Z.lnot_spec, Z.bits_0 by lia.
  by destruct (Z.testbit rax i), (Z.testbit mask i), (Z.testbit (Z.ones 64) i).
Qed.

Lemma merged_low rax mask o v :
  merged rax mask o v -> exists rax', o = Ok rax' /\ Z.land rax' mask = Z.land v mask.
Proof.
  intros (v' & -> & Hv). eexists. split; [done|]. unfold merge_rax. by rewrite Z.land_lor_distr_l, bnot_land, Z.lor_0_l.
Qed.

Lemma uart_run {A} (f : Uart.Uart -> A * Uart.Uart) (s : machine) : exists v s', with_uart f s = (Ok v, s') .
Proof. unfold with_uart. destruct (f (uart s)) as [v u]. by repeat eexists. Qed.

Lemma merged_same rax mask v : merged rax mask (Ok (merge_rax rax mask v)) v.
Proof. by exists v. Qed.

Lemma io_agree io rax (s : machine) :
  emulator_only (PortNumber io) (AccessSize io) = false ->
  let mask := access_mask (AccessSize io) in
  let (o1, s1) := EmulatorIoPort (access_of io rax) s in
  let (o2, s2) := fallback_port io rax mask (Z.land (u32 rax) mask) s in
  s1 = s2 /\ if IsWrite io then o2 = Ok rax else exists v, o1 = Ok v /\ merged rax mask o2 v.
Proof.
  unfold emulator_only, EmulatorIoPort, fallback_port, access_of. cbn [acc_write Port acc_size Data]. cbv zeta.
  set (port := PortNumber io) in *. set (n := AccessSize io) in *. clearbody port n.
  set (mask := access_mask n). set (d := Z.land (u32 rax) mask). clearbody mask d. intros Hno.
  assert (Hret : forall s : machine, s = s /\ (if IsWrite io then Ok (if IsWrite io then rax else merge_rax rax mask 0) = Ok rax
      else exists v, (Ok 0 : outcome Z) = Ok v /\ merged rax mask (Ok (merge_rax rax mask 0)) v)).
  { intros s0. split; [done|]. destruct (IsWrite io); [done|]. exists 0. split; [done|apply merged_same]. }
  destruct ((port =? kNodeVmmExitPort) && (n =? 1)); [by destruct (IsWrite io); apply Hret|].
  destruct ((port =? kNodeVmmConsolePort) && (n =? 1)).
  { destruct (IsWrite io); [|by apply Hret]. rewrite !bind_run.
    by destruct (uart_run (fun u => (tt, Uart.emit_bytes [u8 (Z.land d 0xFF)] u)) s) as (v & s' & ->). }
  destruct ((kCom1Base <=? port) && (port <? kCom1Base + 8) && (n =? 1)).
  { destruct (IsWrite io); rewrite ?bind_run.
    - by destruct (uart_run (fun u => (tt, Uart.write (u16 (port - kCom1Base)) (u8 (Z.land d 0xFF)) u)) s) as (v & s' & ->).
    - destruct (uart_run (Uart.read (u16 (port - kCom1Base))) s) as (v & s' & ->). split; [done|].
      exists v. split; [done|apply merged_same]. }
  destruct (((port =? 0x20) || (port =? 0x21) || (port =? 0xA0) || (port =? 0xA1)) && (n =? 1)) eqn:Epic; [lia|].
  destruct ((0x40 <=? port) && (port <=? 0x43) && (n =? 1)) eqn:Epit; [lia|].
  destruct ((port =? 0x61) && (n =? 1)) eqn:E61; [lia|].
  destruct ((kAcpiPmTimerPort <=? port) && (port <? kAcpiPmTimerPort + 4) && (n <=? 4)) eqn:Epm.
  { assert (((port =? 0x70) || (port =? 0x71)) && (n =? 1) = false) as -> by (unfold kAcpiPmTimerPort in Epm; lia).
    destruct (IsWrite io); [done|]. destruct (PmTimer.read _ _ _) as [v t]. split; [done|].
    exists v. split; [done|]. exists (Z.land v mask). split; [done|]. by rewrite <- Z.land_assoc, Z.land_diag. }
  destruct (((port =? 0x70) || (port =? 0x71)) && (n =? 1)).
  { destruct (IsWrite io); [done|]. destruct (Cmos.read_port _ _) as [v c]. split; [done|].
    exists v. split; [done|apply merged_same]. }
  by destruct (IsWrite io); apply Hret.
Qed.

(** A 32-bit read: the upper half of RAX stays, where the processor's own IN clears it. *)
Lemma merge_high rax v : 0 <= rax < 2 ^ 64 -> 0 <= v < 2 ^ 32 -> Z.shiftr (merge_rax rax 0xFFFFFFFF v) 32 = Z.shiftr rax 32.
Proof.
  intros Hr Hv. unfold merge_rax. rewrite Z.shiftr_lor, (Z.shiftr_div_pow2 v), (Z.div_small v), Z.lor_0_r by lia.
  apply Z.bits_inj'. intros i Hi. rewrite !Z.shiftr_spec, Z.land_spec by lia.
  destruct (Z.ltb_spec (i + 32) 64).
  - rewrite bnot_spec by lia. change 0xFFFFFFFF with (Z.ones 32). rewrite Z.ones_spec_high by lia. by rewrite andb_true_r.
  - rewrite (Z.bits_above_log2 rax), andb_false_l; [done|lia|].
    destruct (decide (rax = 0)) as [->|]; [cbn; lia|]. apply Z.log2_lt_pow2; [lia|]. eapply Z.lt_le_trans; [apply Hr|].
    apply Z.pow_le_mono_r; lia.
Qed.

Lemma fallback_high io rax (s : machine) :
  0 <= rax < 2 ^ 64 -> AccessSize io = 4 -> IsWrite io = false ->
  exists rax', (fallback_port io rax 0xFFFFFFFF (Z.land (u32 rax) 0xFFFFFFFF) s).1 = Ok rax' /\ Z.shiftr rax' 32 = Z.shiftr rax 32.
Proof.
  intros Hr Hn4 Hw. unfold fallback_port. cbv zeta. rewrite Hn4, Hw.
  change (4 =? 1) with false. rewrite !andb_false_r.
  destruct (_ && (4 <=? 4)); [|eexists; split; [done|by apply merge_high]].
  destruct (PmTimer.read _ _ _) as [v t]. eexists. split; [done|]. apply merge_high; [done|].
  change 0xFFFFFFFF with (Z.ones 32). rewrite Z.land_ones by lia. apply Z.mod_pos_bound. lia.
Qed.

Lemma fallback_ignores io rax mask d (s : machine) :
  emulator_only (PortNumber io) (AccessSize io) = true ->
  fallback_port io rax mask d s = (Ok (if IsWrite io then rax else merge_rax rax mask 0), s).
Proof.
  unfold emulator_only, fallback_port. cbv zeta. intros He.
  assert (Hsmall : PortNumber io <= 0xA1 /\ AccessSize io = 1) by lia.
  assert (Hcmos : ((PortNumber io =? 0x70) || (PortNumber io =? 0x71)) = false) by lia.
  destruct Hsmall as [Hp ->]. rewrite Hcmos. unfold kNodeVmmExitPort, kNodeVmmConsolePort, kCom1Base, kAcpiPmTimerPort.
  replace (PortNumber io =? 0x501) with false by lia. replace (PortNumber io =? 0x600) with false by lia.
  replace (0x3F8 <=? PortNumber io) with false by lia. replace (0x408 <=? PortNumber io) with false by lia.
  cbn [andb]. destruct (_ && (1 =? 1)); by destruct (IsWrite io).
Qed.

(** An I/O instruction that the emulator could not carry out does the same to the
    machine in the fallback as the emulator's callback would have done, and leaves the same
    value in AL, AX or EAX, except at the ports of the PICs, the PIT and 0x61: there a write
    is lost without an error and a read gives zero.  A 32-bit read keeps the upper half of
    RAX, which the processor's own IN clears. *)
Theorem io_paths_agree io rax (s : machine) :
  0 <= rax < 2 ^ 64 ->
  let mask := access_mask (AccessSize io) in
  let (o1, s1) := EmulatorIoPort (access_of io rax) s in
  let (o2, s2) := fallback_port io rax mask (Z.land (u32 rax) mask) s in
  (if emulator_only (PortNumber io) (AccessSize io)
   then s2 = s /\ o2 = Ok (if IsWrite io then rax else merge_rax rax mask 0)
   else s1 = s2 /\ if IsWrite io then o2 = Ok rax
                   else exists v rax', o1 = Ok v /\ o2 = Ok rax' /\ Z.land rax' mask = Z.land v mask) /\
  (AccessSize io = 4 -> IsWrite io = false -> exists rax', o2 = Ok rax' /\ Z.shiftr rax' 32 = Z.shiftr rax 32).
Proof.
  intros Hr. cbv zeta. set (d := Z.land (u32 rax) (access_mask (AccessSize io))).
  assert (Hh : AccessSize io = 4 -> IsWrite io = false ->
    exists rax', (fallback_port io rax (access_mask (AccessSize io)) d s).1 = Ok rax' /\ Z.shiftr rax' 32 = Z.shiftr rax 32).
  { intros Hn4 Hw. unfold d. rewrite Hn4. by apply fallback_high. }
  pose proof (fallback_ignores io rax (access_mask (AccessSize io)) d s) as Hi.
  pose proof (io_agree io rax s) as Ha. cbv zeta in Ha. fold d in Ha.
  destruct (EmulatorIoPort _ s) as [o1 s1], (fallback_port io rax _ d s) as [o2 s2]. split; [|done].
  destruct (emulator_only _ _); [by injection (Hi eq_refl) as -> ->|].
  destruct (Ha eq_refl) as [-> Hv]. split; [done|]. destruct (IsWrite io); [done|].
  destruct Hv as (v & -> & (rax' & -> & ?)%merged_low). by eauto.
Qed.

(** ** The road of a timer interrupt *)

(** The PIC is set up and lets the line through. *)
Definition pic_takes (s : machine) (irq : Z) : bool := (irq <? 8) && Pic.is_initialized (pic s) && Pic.irq_unmasked (pic s) irq.

(** The guest clears the mask of a redirection entry. *)
Definition unmask (pin v : Z) (c : IoApic.IoApic W) : IoApic.IoApic W := IoApic.write_reg (0x10 + 2 * pin) v c.

Lemma unmask_spec pin v (c : IoApic.IoApic W) :
  0 <= pin < 24 -> IoApic.ioapic_ok c -> 0 <= v < 2 ^ 32 -> Z.testbit v 16 = false ->
  has (IoApic.entry c pin) IoApic.kRteMask = true ->
  let c' := IoApic.set_entry pin (IoApic.low_entry (IoApic.entry c pin) v) c in
  unmask pin v c = if IoApic.line c pin then IoApic.request_irq_locked pin c' else c'.
Proof.
  intros Hp Hc Hv Hb Hm. cbv zeta. unfold unmask, IoApic.write_reg, IoApic.redir_size.
  rewrite (proj2 (Z.leb_le _ _)), (proj2 (Z.ltb_lt _ _)) by lia. cbn [andb].
  replace ((0x10 + 2 * pin - 0x10) / 2) with pin by (apply (Z.div_unique _ _ _ 0); lia).
  replace (has (0x10 + 2 * pin - 0x10) 1) with false.
  2:{ change 1 with (Z.shiftl 1 0). rewrite IoApic.has_bit by lia. rewrite Z.bit0_odd.
      replace (0x10 + 2 * pin - 0x10) with (2 * pin) by lia. by rewrite Z.odd_mul. }
  rewrite Hm. cbn [andb]. rewrite IoApic.entry_set, Z.eqb_refl by (try lia; rewrite (IoApic.io_redir c Hc); lia).
  change (has (IoApic.low_entry ?o ?x) IoApic.kRteMask) with (IoApic.masked (IoApic.low_entry o x)).
  rewrite IoApic.masked_bit.
  assert (Z.testbit (IoApic.low_entry (IoApic.entry c pin) v) 16 = false) as ->
    by (rewrite IoApic.low_entry_bit by lia; by cbn).
  done.
Qed.

(** A timer interrupt goes to one controller at most: to the I/O APIC if the pin is
    unmasked there, else to processor 0 as an ExtInt with the vector of the PIC's line, else
    nowhere.  In that last case a level interrupt is gone for good, since the pin's line is
    not raised: when the guest later unmasks the pin nothing is delivered, where the same
    entry of a controller that had seen the line delivers at once. *)
Theorem timer_irq_routes pin irq level v (s : machine) :
  0 <= pin < 24 -> machine_ok s -> 0 <= v < 2 ^ 32 -> Z.testbit v 16 = false ->
  let s' := deliver_timer_irq pin irq level s in
  let masked := has (IoApic.entry (ioapic s) pin) IoApic.kRteMask in
  let unmasked_entry c := IoApic.set_entry pin (IoApic.low_entry (IoApic.entry c pin) v) c in
  if negb masked then
    s' = s <| ioapic := if level then IoApic.set_irq pin true (ioapic s) else IoApic.request_irq pin (ioapic s) |>
  else if pic_takes s irq then
    s' = (((s <| vcpu_irq := alter (Irq.PostExtInt (Pic.vector_for_irq (pic s) irq)) 0%nat (vcpu_irq s) |>)
             <| cancels := cancels s + 1 |>) <| wakes := wakes s + 1 |>)
  else
    s' = s /\
    (IoApic.line (ioapic s) pin = false -> unmask pin v (ioapic s') = unmasked_entry (ioapic s)) /\
    unmask pin v (IoApic.set_irq pin true (ioapic s)) =
      IoApic.request_irq_locked pin (unmasked_entry (IoApic.set_line pin true (ioapic s))).
Proof.
  intros Hp Hs Hv Hb. cbv zeta. unfold deliver_timer_irq, pic_takes, request_irq.
  unfold IoApic.irq_unmasked, IoApic.redir_size. rewrite (proj2 (Z.ltb_lt pin 24)) by lia. cbn [andb].
  replace (Z.land (IoApic.entry (ioapic s) pin) IoApic.kRteMask =? 0)
    with (negb (has (IoApic.entry (ioapic s) pin) IoApic.kRteMask)) by (unfold has; by rewrite negb_involutive).
  destruct (has (IoApic.entry (ioapic s) pin) IoApic.kRteMask) eqn:Em; cbn [negb]; [|by destruct level].
  destruct ((irq <? 8) && Pic.is_initialized (pic s) && Pic.irq_unmasked (pic s) irq); [done|].
  split; [done|]. pose proof (mo_ioapic _ Hs) as Hc. split.
  - intros Hl. rewrite unmask_spec by done. by rewrite Hl.
  - set (c := IoApic.set_line pin true (ioapic s)).
    assert (Hq : IoApic.set_irq pin true (ioapic s) = c).
    { unfold IoApic.set_irq, IoApic.redir_size. rewrite (proj2 (Z.leb_gt _ _)) by lia. fold c.
      unfold IoApic.request_irq_locked. change (IoApic.entry c pin) with (IoApic.entry (ioapic s) pin).
      rewrite Em. by destruct (_ <=? pin). }
    rewrite Hq. rewrite unmask_spec; try done.
    + unfold c at 1. rewrite IoApic.line_set by (try lia; rewrite (IoApic.io_line _ Hc); lia). by rewrite Z.eqb_refl.
    + rewrite <- Hq. by apply IoApic.set_irq_ok.
Qed.
End Bus.

Module Demo.
Import Irq.Demo Machine.Demo.
#[local] Existing Instances MemFiles.mem_files MemFiles.mem_files_laws.

(** The magic of the disk's window, through the bus. *)
Lemma mmio_routing_witness :
  owner machine 0xD0000000 4 = ToDisk 0 /\
  exists bs, device_read (ToDisk 0) machine 0xD0000000 4 = Some bs /\
    (EmulatorMemory 0 false 0xD0000000 [0; 0; 0; 0] machine).1 = Ok (Some bs).
Proof.
  assert (E : owner machine 0xD0000000 4 = ToDisk 0) by (vm_compute; reflexivity). split; [exact E|].
  pose proof (mmio_routing 0 false 0xD0000000 [0; 0; 0; 0] machine machine_is_ok) as H.
  cbv zeta in H. destruct (EmulatorMemory 0 false 0xD0000000 [0; 0; 0; 0] machine) as [o s'].
  destruct H as (_ & _ & H); [cbn; lia|]. change (Z.of_nat (length [0; 0; 0; 0])) with 4 in H. rewrite E in H.
  destruct (H eq_refl) as (bs & H1 & H2). exists bs. split; [exact H1|exact H2].
Defined.

(** A 32-bit IN from the PM timer keeps the upper half of RAX. *)
Lemma io_paths_agree_witness :
  let io := mkIo 1 [0xED] false 4 false false 0x408 0 in
  exists rax', (fallback_port io 0xAAAAAAAA00000000 0xFFFFFFFF 0 machine).1 = Ok rax' /\ Z.shiftr rax' 32 = 0xAAAAAAAA.
Proof.
  intros io. pose proof (io_paths_agree io 0xAAAAAAAA00000000 machine) as H. cbv zeta in H.
  change (Z.land (u32 0xAAAAAAAA00000000) (access_mask (AccessSize io))) with 0 in H.
  change (access_mask (AccessSize io)) with 0xFFFFFFFF in H.
  destruct (EmulatorIoPort (access_of io 0xAAAAAAAA00000000) machine) as [o1 s1].
  destruct (fallback_port io 0xAAAAAAAA00000000 0xFFFFFFFF 0 machine) as [o2 s2].
  destruct H as [_ H]; [lia|]. exact (H eq_refl eq_refl).
Defined.

(** A level interrupt of the HPET while pin 2 is masked; the guest unmasks the pin. *)
Lemma timer_irq_routes_witness :
  let s' := deliver_timer_irq 2 0xFF true machine in
  s' = machine /\
  unmask 2 0x8034 (ioapic s') =
    IoApic.set_entry 2 (IoApic.low_entry (IoApic.entry (ioapic machine) 2) 0x8034) (ioapic machine).
Proof.
  intros s'. pose proof (timer_irq_routes 2 0xFF true 0x8034 machine) as H. cbv zeta in H.
  destruct H as (H1 & H2 & _); [lia|exact machine_is_ok|lia|reflexivity|].
  split; [exact H1|]. apply H2. reflexivity.
Defined.
End Demo.
