(* ===== verification/RunVm.v ===== *)
(** * native/whp/backend.cc: RunVm up to the first instruction

    The checks of the configuration, the guest memory a kernel finds when it starts, the
    processors' registers and the devices in their windows.  The theorems compose those
    of the parts: every structure of the boot protocol is still intact when all have been
    written; the machine that results satisfies the invariant of [Machine]; and how much
    memory may be asked for before guest RAM covers the devices. *)

From S2P Require Import Prelude Words Bytes GuestMemory HostFile Board Clock.
From S2P Require Elf PageTables BootParams Acpi Vcpu.
From S2P Require Irq Pit Pic Cmos PmTimer Hpet IoApic Uart Blk Rng Net Machine.
Import Irq(WhpApi, WhpApiLaws, reg).
Import Machine(Machine, mkMachine, layout, machine_ok, event_step, machine_step, inv).
#[local] Existing Instances DiskIo.win_disk DiskIo.win_disk_laws Blk.eta_VirtioBlk Rng.eta_VirtioRng Net.eta_VirtioNet Net.ioapic_controller IoApic.eta_IoApic
  Machine.eta_Machine.

(** ** The configuration *)

Record AttachedDiskConfig := mkDisk { path : string; read_only : bool }.

(** The properties of the config object RunVm reads. *)
Record vm_config := mkConfig {
  kernel_path : string; rootfs_path : string; overlay_path : string; cmdline : list Z;
  mem_mib : Z; cpus : Z; console_limit : Z; interactive : bool; tap_name : string;
  slirp_enabled : bool; attached_disks : list AttachedDiskConfig }.

Definition disk_count (c : vm_config) : Z := u32 (Z.of_nat (length (attached_disks c)) + 1).
Definition net_index (c : vm_config) : Z := disk_count c.
Definition rng_index (c : vm_config) : Z := u32 (disk_count c + 1).
Definition is_empty (s : string) : bool := String.eqb s "".

(** [have_libslirp] is the build option NODE_VMM_HAVE_LIBSLIRP. *)
Definition check_config (have_libslirp : bool) (c : vm_config) : outcome unit :=
  Check (Z.of_nat (length (attached_disks c)) <? kMaxIoApicPins) "too many attached disks" ≫= fun _ =>
  CheckVirtioMmioDeviceCount (u32 (rng_index c + 1)) ≫= fun _ =>
  Check (negb (is_empty (kernel_path c))) "kernelPath is required" ≫= fun _ =>
  Check (negb (is_empty (rootfs_path c))) "rootfsPath is required" ≫= fun _ =>
  Check (negb (Z.of_nat (length (cmdline c)) =? 0)) "cmdline is required" ≫= fun _ =>
  Check (0 <? mem_mib c) "memMiB must be greater than zero" ≫= fun _ =>
  Check ((1 <=? cpus c) && (cpus c <=? kMaxVcpus)) "cpus must be between 1 and 64" ≫= fun _ =>
  Check (is_empty (tap_name c)) "Windows WHP backend currently supports --net none and --net slirp only" ≫= fun _ =>
  Check (have_libslirp || negb (slirp_enabled c)) "Windows WHP slirp networking requires libslirp" ≫= fun _ =>
  Check (Z.of_nat (length (cmdline c)) + 1 <=? kKernelCmdlineMax) "kernel cmdline is too long".

Definition ram_bytes (c : vm_config) : Z := u64 (u64 (mem_mib c * 1024) * 1024).

(** ** Guest memory *)

Section Boot.
Context {F H : Type} `{HostFile F H}.

Definition FileSizeBytes (p : string) : M F Z := fun f =>
  match CreateFile p GenericRead OpenExisting f with
  | (None, f) => (Throw ("open " ++ p ++ " failed")%string, f)
  | (Some file, f) =>
      match GetFileSizeEx file f with
      | None => (Throw ("stat " ++ p ++ " failed")%string, f)
      | Some size => (if 0 <=? size then Ok size else Throw ("negative file size: " ++ p)%string, f)
      end
  end.

(** From [LoadElfKernel] to [WriteMpTable]. *)
Definition load_guest (c : vm_config) : M (F * ram) Elf.KernelInfo :=
  let mem_size := ram_bytes c in
  Elf.LoadElfKernel mem_size (kernel_path c) ≫= fun kernel =>
  on_snd (Acpi.CreateAcpiTables mem_size (slirp_enabled c) (cpus c) (disk_count c)) ≫= fun rsdp_addr =>
  on_snd (BootParams.WriteBootParams mem_size (cmdline c)) ≫= fun _ =>
  on_snd (fun m => match ptr (mkGuestMemory m mem_size) (BootParams.kBootParamsAddr + 0x70) 8 with
                   | Ok p => (Ok tt, store m p (WriteU64 rsdp_addr))
                   | Throw e => (Throw e, m) | OutOfFuel => (OutOfFuel, m) end) ≫= fun _ =>
  on_snd (BootParams.WriteMpTable mem_size (cpus c) kPitIoApicPin) ≫= fun _ =>
  mret kernel.
End Boot.

(** The processors, one after the other. *)
Definition start_vcpus {W} `{WhpApi W} (c : vm_config) (entry : Z) (rootfs_backed : bool) : M (ram * W) unit :=
  for_each (fun i => Vcpu.SetupWhpBootstrapVcpu i entry rootfs_backed (rootfs_backed && negb (i =? 0))) (seqZ 0 (cpus c)).

(** ** What the kernel finds *)

(** The memory the monitor writes besides the kernel's segments. *)
Definition boot_area (c : vm_config) (a : Z) : Prop :=
  Vcpu.low_tables a \/ in_range Vcpu.kPageTableBase 0x6000 a \/ BootParams.boot_params_area (cmdline c) a \/
  in_range (BootParams.mp_start (cpus c)) (BootParams.mp_size (cpus c)) a \/ in_range 0xA0000 0x40024 a.

Record guest_ready (c : vm_config) (m : ram) : Prop := {
  gr_zero_page : BootParams.zero_page (ram_bytes c) (cmdline c) m;
  gr_firmware : exists fw, ReadU64 (load m (BootParams.kBootParamsAddr + 0x70) 8) = 0xE0000 /\
    Acpi.acpi_walk m = Some fw /\ Acpi.describes_machine (slirp_enabled c) (cpus c) (disk_count c) fw;
  gr_mp : BootParams.mp_table_at m (BootParams.mp_start (cpus c)) (cpus c) kPitIoApicPin }.

(** What the checks of the configuration leave. *)
Record config_ok (c : vm_config) : Prop := {
  co_cpus : 1 <= cpus c <= 64;
  co_cmdline : Z.of_nat (length (cmdline c)) < 2048;
  co_disks : Z.of_nat (length (attached_disks c)) <= 16;
  co_mem : 0 < mem_mib c }.

Lemma check_config_ok hs c u : check_config hs c = Ok u -> config_ok c.
Proof.
  unfold check_config. intros E. 
  apply obind_ok in E as (? & E1%Check_ok & E). apply obind_ok in E as (? & E2 & E).
  do 3 apply obind_ok in E as (? & _ & E). apply obind_ok in E as (? & E3%Check_ok & E).
  apply obind_ok in E as (? & E4%Check_ok & E). do 2 apply obind_ok in E as (? & _ & E). apply Check_ok in E.
  unfold CheckVirtioMmioDeviceCount in E2. apply obind_ok in E2 as (? & _ & E2%Check_ok).
  unfold rng_index, disk_count, kVirtioMmioIrqBase, kMaxIoApicPins, kMaxVcpus, kKernelCmdlineMax in *.
  apply Z.ltb_lt in E1. rewrite (u32_small (Z.of_nat _ + 1)) in E2 by lia.
  rewrite (u32_small (_ + 1 + 1)), (u32_small (_ + 1 + 1 + 1)) in E2 by (rewrite ?u32_small; lia). rewrite u64_small in E2 by lia.
  constructor; lia.
Qed.

Lemma ram_bytes_val c : 0 < mem_mib c < 2 ^ 32 -> ram_bytes c = mem_mib c * 0x100000.
Proof. intros Hm. unfold ram_bytes. rewrite !u64_small; rewrite ?u64_small; lia. Qed.

Lemma disk_count_val c : config_ok c -> disk_count c = Z.of_nat (length (attached_disks c)) + 1.
Proof. intros []. unfold disk_count. apply u32_small. lia. Qed.

Section Ready.
Context {F H : Type} `{HostFile F H}.

Definition tables_area (a : Z) : Prop := Vcpu.low_tables a \/ in_range Vcpu.kPageTableBase 0x6000 a.

Lemma mp_range c : config_ok c ->
  0x9F000 <= BootParams.mp_start (cpus c) /\ BootParams.mp_start (cpus c) + BootParams.mp_size (cpus c) <= 0xA0000.
Proof. intros [Hc _ _ _]. by apply BootParams.mp_low. Qed.

Lemma load_guest_steps c f m0 kernel f' m :
  load_guest c (f, m0) = (Ok kernel, (f', m)) ->
  exists file mE mA rsdp,
    ReadWholeFile (kernel_path c) f = (Ok file, f') /\
    Elf.LoadElfImage file (ram_bytes c) m0 = (Ok kernel, mE) /\
    Acpi.CreateAcpiTables (ram_bytes c) (slirp_enabled c) (cpus c) (disk_count c) mE = (Ok rsdp, mA) /\
    m = store (store (BootParams.boot_writes (ram_bytes c) (cmdline c) mA) 0x7070 (WriteU64 rsdp))
          (BootParams.mp_start (cpus c)) (BootParams.mp_buffer (cpus c) kPitIoApicPin).
Proof.
  unfold load_guest. rewrite bind_ok. intros (k & [f1 mE] & E1 & E2).
  unfold Elf.LoadElfKernel in E1. rewrite bind_ok in E1. destruct E1 as (file & [f2 m1] & E0 & E1).
  unfold on_fst, on_snd in E0, E1. destruct (ReadWholeFile (kernel_path c) f) as [o0 f3] eqn:Er.
  injection E0 as -> -> <-. destruct (Elf.LoadElfImage file (ram_bytes c) m0) as [o1 m2] eqn:El.
  injection E1 as -> <- <-. exists file, m2.
  rewrite bind_ok in E2. destruct E2 as (rsdp & [g1 mA] & E3 & E2). unfold on_snd in E3.
  destruct (Acpi.CreateAcpiTables _ _ _ _ m2) as [o2 m3] eqn:Ea. injection E3 as -> <- <-. exists m3, rsdp.
  rewrite bind_ok in E2. destruct E2 as (u1 & [g2 mB] & E3 & E2). unfold on_snd, BootParams.WriteBootParams in E3.
  destruct (UINT32_MAX <? _); [done|]. rewrite lift_bind in E3. cbv iota in E3. rewrite lift_bind in E3.
  destruct (BootParams.boot_checks _ _); [|done..]. unfold modify in E3. injection E3 as _ <- <-.
  rewrite bind_ok in E2. destruct E2 as (u2 & [g3 mC] & E3 & E2). unfold on_snd in E3.
  destruct (ptr _ _ 8) as [p|e|] eqn:Ep; [|done..]. injection E3 as _ <- <-.
  unfold ptr in Ep. apply obind_ok in Ep as (? & _ & [= <-]).
  rewrite bind_ok in E2. destruct E2 as (u3 & [g4 mD] & E3 & E2). unfold on_snd, BootParams.WriteMpTable in E3.
  rewrite lift_bind in E3. destruct (CheckRange _ _ _ _); [|done..]. unfold modify in E3. injection E3 as _ <- <-.
  injection E2 as -> <- <-. done.
Qed.

Lemma stored_at m a bs m2 P x :
  only_writes P (store m a bs) m2 -> ~ P x -> ~ in_range a (Z.of_nat (length bs)) x -> m2 x = m x.
Proof. intros Hw HP Ha. rewrite Hw by done. by apply store_out. Qed.

(** The structures stay intact when the page tables are written on top. *)
Lemma load_guest_ready c f m0 kernel f' m m2 :
  config_ok c -> 0x100000 < ram_bytes c < 2 ^ 64 ->
  load_guest c (f, m0) = (Ok kernel, (f', m)) -> only_writes tables_area m m2 ->
  guest_ready c m2 /\
  exists file mE, ReadWholeFile (kernel_path c) f = (Ok file, f') /\
    Elf.LoadElfImage file (ram_bytes c) m0 = (Ok kernel, mE) /\ only_writes (boot_area c) mE m2.
Proof.
  intros Hc Hm (file & mE & mA & rsdp & Er & El & Ea & ->)%load_guest_steps Hw.
  pose proof (mp_range c Hc) as Hmp. pose proof (BootParams.length_mp_buffer (cpus c) kPitIoApicPin (co_cpus c Hc)) as Hlb.
  pose proof (co_cmdline c Hc) as Hcmd.
  pose proof (Acpi.CreateAcpiTables_found (ram_bytes c) (slirp_enabled c) (cpus c) (disk_count c) mE ltac:(lia) (co_cpus c Hc)
    ltac:(pose proof (disk_count_val c Hc); pose proof (co_disks c Hc); lia)) as Ha.
  rewrite Ea in Ha. destruct Ha as (HwA & -> & _ & _ & fw & Hfw & Hwalk).
  set (mB := BootParams.boot_writes _ _ mA) in *. set (mC := store mB _ _) in *.
  set (s := BootParams.mp_start (cpus c)) in *. set (buf := BootParams.mp_buffer _ _) in *.
  assert (H2 : forall a, ~ tables_area a -> ~ in_range s (BootParams.mp_size (cpus c)) a -> m2 a = mC a)
    by (intros a Ht Ha; apply (stored_at _ s buf _ _ _ Hw); [done|by rewrite Hlb]).
  assert (HB : forall a, ~ tables_area a -> ~ in_range s (BootParams.mp_size (cpus c)) a -> ~ in_range 0x7070 8 a -> m2 a = mB a)
    by (intros a Ht Ha Hp; rewrite H2 by done; by apply store_out).
  pose proof (BootParams.boot_writes_only (ram_bytes c) (cmdline c) mA) as HwB. fold mB in HwB.
  unfold tables_area, boot_area, Vcpu.low_tables, Vcpu.kPageTableBase, Vcpu.kGdtAddr, BootParams.boot_params_area,
    BootParams.kBootParamsAddr, BootParams.kCmdlineAddr in *.
  split; [constructor|exists file, mE; split_and!; [done..|]].
  - apply (BootParams.zero_page_ext _ _ mB); [apply BootParams.boot_e820_count| |apply BootParams.boot_zero_page; unfold UINT32_MAX; lia].
    unfold BootParams.zero_page_fields, BootParams.kBootParamsAddr, BootParams.kCmdlineAddr.
    intros a Hf. apply HB; unfold in_range in *; lia.
  - exists fw. split_and!; [|apply Hwalk|done].
    + rewrite (load_ext mC m2) by (intros z Hz; apply H2; unfold in_range, BootParams.kBootParamsAddr in *; lia).
      unfold mC. change (BootParams.kBootParamsAddr + 0x70) with 0x7070. rewrite load_store_eq by done. by rewrite ReadU64_WriteU64.
    + intros z Hz. rewrite HB by (unfold in_range in *; lia). apply HwB. unfold in_range in *. lia.
  - apply BootParams.mp_buffer_table_at; [apply Hc|done|]. fold buf s.
    rewrite (load_ext (store mC s buf) m2); [apply load_store_same|]. intros z Hz. apply Hw. unfold in_range in *. lia.
  - intros a Ha. rewrite HB by (unfold in_range in *; lia). rewrite HwB by (unfold in_range in *; lia).
    apply HwA. unfold in_range in *. lia.
Qed.
End Ready.

(** ** Guest memory holds bytes *)

Lemma repeat_bytes n : bytes_ok (repeat 0 n).
Proof. apply List.Forall_forall. intros x Hx%repeat_spec. by subst. Qed.
Lemma ascii_bytes_ok s : bytes_ok (BootParams.ascii_bytes s).
Proof.
  apply List.Forall_forall. intros x Hx. apply in_map_iff in Hx as (a & <- & _).
  pose proof (nat_ascii_bounded a). unfold is_byte. lia.
Qed.
Lemma u8_byte x : bytes_ok [u8 x].
Proof. constructor; [apply u8_range|constructor]. Qed.
Lemma concat_bytes ls : Forall bytes_ok ls -> bytes_ok (concat ls).
Proof. induction 1; [constructor|by apply Forall_app]. Qed.

(** Buffers built with [put] from the byte encoders. *)
Ltac buffer :=
  lazymatch goal with
  | |- Forall is_byte ?l => change (bytes_ok l); buffer
  | |- bytes_ok (put _ _ _) => apply put_ok; buffer
  | |- bytes_ok (_ ++ _) => apply Forall_app; split; buffer
  | |- bytes_ok (repeat 0 _) => apply repeat_bytes
  | |- bytes_ok (BootParams.ascii_bytes _) => apply ascii_bytes_ok
  | |- bytes_ok (WriteU16 _) => apply WriteU16_ok
  | |- bytes_ok (WriteU32 _) => apply WriteU32_ok
  | |- bytes_ok (WriteU64 _) => apply WriteU64_ok
  | |- bytes_ok [u8 _] => apply u8_byte
  | |- bytes_ok (concat (map _ _)) =>
      apply concat_bytes, List.Forall_forall; intros ? (? & <- & _)%in_map_iff; buffer
  | |- bytes_ok (_ :: _) => try first [by apply bytes_okb_ok|by repeat constructor; try apply u8_range]
  | |- _ => try assumption
  end.

Lemma FinalizeSdt_bytes t : bytes_ok t -> bytes_ok (Acpi.FinalizeSdt t).
Proof. intros Ht. unfold Acpi.FinalizeSdt, Acpi.TableChecksum. cbv zeta. buffer. Qed.
Lemma header_bytes sig len rev id : is_byte rev -> bytes_ok (Acpi.BuildSdtHeader sig len rev id).
Proof. intros Hr. unfold Acpi.BuildSdtHeader. cbv zeta. buffer. by constructor. Qed.

Lemma BuildFadt_bytes a : bytes_ok (Acpi.BuildFadt a).
Proof. unfold Acpi.BuildFadt. cbv zeta. apply FinalizeSdt_bytes. buffer; by apply header_bytes. Qed.
Lemma BuildHpetTable_bytes : bytes_ok Acpi.BuildHpetTable.
Proof. by apply bytes_okb_ok. Qed.
Lemma BuildMadt_bytes n : bytes_ok (Acpi.BuildMadt n).
Proof.
  unfold Acpi.BuildMadt. cbv zeta. apply FinalizeSdt_bytes. buffer; [by apply header_bytes|].
  set (b := put _ 28 _). assert (Hb : bytes_ok b) by (unfold b; buffer). clearbody b. revert b Hb.
  generalize (seqZ 0 n). intros l. induction l as [|i l IH]; intros b Hb; [done|]. cbn [fold_left]. apply IH.
  unfold Acpi.lapic_entry. buffer.
Qed.
Lemma BuildRsdt_bytes l : bytes_ok (Acpi.BuildRsdt l).
Proof. unfold Acpi.BuildRsdt. cbv zeta. apply FinalizeSdt_bytes. buffer; by apply header_bytes. Qed.
Lemma BuildXsdt_bytes l : bytes_ok (Acpi.BuildXsdt l).
Proof.
  unfold Acpi.BuildXsdt. cbv zeta. apply FinalizeSdt_bytes. apply Forall_app; split; [by apply header_bytes|].
  apply concat_bytes, List.Forall_forall. intros ? (? & <- & _)%in_map_iff. buffer.
Qed.
Lemma BuildRsdp_bytes a b : bytes_ok (Acpi.BuildRsdp a b).
Proof. unfold Acpi.BuildRsdp, Acpi.TableChecksum. cbv zeta. buffer. Qed.

Lemma dsdt_bytes_all : forallb (fun n =>
  match Acpi.BuildDsdtTable false n, Acpi.BuildDsdtTable true n with Ok a, Ok b => bytes_okb a && bytes_okb b | _, _ => false end)
  (seqZ 0 18) = true.
Proof. vm_compute. reflexivity. Qed.
Lemma BuildDsdtTable_bytes net n t : 0 <= n <= 17 -> Acpi.BuildDsdtTable net n = Ok t -> bytes_ok t.
Proof.
  intros Hn E. pose proof (proj1 (forallb_forall _ _) dsdt_bytes_all n) as Hz.
  rewrite <- list_elem_of_In, elem_of_seqZ in Hz. specialize (Hz ltac:(lia)). revert Hz.
  destruct net; rewrite E; [destruct (Acpi.BuildDsdtTable false n)|destruct (Acpi.BuildDsdtTable true n)]; try done;
    intros [? ?]%andb_true_iff; by apply bytes_okb_ok.
Qed.

Lemma mp_entries_bytes n pin : bytes_ok (BootParams.mp_entries n pin).
Proof.
  unfold BootParams.mp_entries. cbv zeta.
  assert (Hc : forall i, bytes_ok (BootParams.mp_cpu i)) by (intros i; unfold BootParams.mp_cpu; cbv zeta; destruct (i =? 0); buffer).
  assert (Hi : forall id i, bytes_ok (BootParams.mp_irq (u8 id) pin i)) by (intros id i; unfold BootParams.mp_irq; cbv zeta; buffer).
  assert (Ha : bytes_ok (BootParams.mp_ioapic (u8 (n + 1)))) by (unfold BootParams.mp_ioapic; cbv zeta; buffer).
  assert (Hb : bytes_ok BootParams.mp_bus /\ bytes_ok BootParams.mp_extint /\ bytes_ok BootParams.mp_nmi)
    by (split_and!; by apply bytes_okb_ok).
  buffer; first [by apply Hc|by apply Hi|by apply Hb].
Qed.

Lemma mp_buffer_bytes n pin : bytes_ok (BootParams.mp_buffer n pin).
Proof.
  unfold BootParams.mp_buffer. cbv zeta. unfold BootParams.Checksum. pose proof (mp_entries_bytes n pin). buffer.
Qed.

(** *** Every step of the boot keeps it *)

Ltac stores := repeat (apply store_ok; [|buffer]); try done.

Lemma boot_writes_ram_ok size cmd m : bytes_ok cmd -> ram_ok m -> ram_ok (BootParams.boot_writes size cmd m).
Proof.
  intros Hc Hm. unfold BootParams.boot_writes, BootParams.PutE820. cbv zeta.
  assert (Hlor : forall x, is_byte x -> bytes_ok [Z.lor x 1]).
  { intros x Hx. constructor; [|constructor]. change (0 <= Z.lor x 1 < 2 ^ 8). apply lor_range; [lia|apply Hx|lia]. }
  do 2 (apply store_ok; [|buffer]). apply store_ok; [|].
  2:{ apply Hlor. destruct (_ <? size); revert Hm; generalize m; intros m1 Hm1;
      match goal with |- is_byte (?f ?x) => enough (ram_ok f) by auto end; stores. }
  destruct (_ <? size); stores.
Qed.

Lemma fold_stores_ok {X} (f : ram -> X -> ram) (l : list X) m :
  (forall m x, ram_ok m -> ram_ok (f m x)) -> ram_ok m -> ram_ok (fold_left f l m).
Proof. intros Hf. revert m. induction l as [|x l IH]; intros m Hm; [done|]. cbn. apply IH, Hf, Hm. Qed.

Lemma long_mode_tables_ram_ok m : ram_ok m -> ram_ok (Vcpu.long_mode_tables m).
Proof.
  intros Hm. unfold Vcpu.long_mode_tables, PageTables.BuildPageTables. cbv zeta. apply store_ok; [|buffer].
  apply fold_stores_ok; [intros; stores|]. apply fold_stores_ok; [|stores].
  intros m1 i Hm1. unfold PageTables.write_pd. apply fold_stores_ok; [intros; stores|stores].
Qed.

Lemma write_table_safe size t : bytes_ok t -> safe (fun '(m, _) => ram_ok m) (fun _ => True) (Acpi.write_table size t).
Proof.
  intros Ht. unfold Acpi.write_table. cbv zeta.
  eapply safe_bind; [apply safe_modify; intros [m c] Hm; exact Hm|intros ? _].
  eapply safe_bind; [apply (safe_gets _ (fun _ => True)); done|intros ? _]. eapply safe_bind; [apply (safe_lift _ (fun _ => True)); [apply CheckRange_no_fuel|done]|intros ? _].
  eapply safe_bind; [apply safe_modify; intros [m c] Hm; by apply store_ok|intros ? _].
  eapply safe_bind; [apply (safe_gets _ (fun _ => True)); done|intros ? _]. eapply safe_bind; [apply (safe_lift _ (fun _ => True)); [apply Check_no_fuel|done]|intros ? _]. by apply safe_ret.
Qed.

Lemma CreateAcpiTables_ram_ok size net n d m rsdp m' :
  0 <= d <= 17 -> ram_ok m -> Acpi.CreateAcpiTables size net n d m = (Ok rsdp, m') -> ram_ok m'.
Proof.
  intros Hd Hm E. destruct (Acpi.BuildDsdtTable_sdt net d Hd) as (body & HB & _).
  pose proof (BuildDsdtTable_bytes net d _ Hd HB) as Hdsdt.
  rewrite (Acpi.CreateAcpiTables_run _ _ _ _ _ _ HB) in E.
  set (dsdt := Acpi.table _ _ _ body) in *. clearbody dsdt.
  assert (Hs : safe (fun '(m, _) => ram_ok m) (fun _ => True)
    (Acpi.write_tables size dsdt (Acpi.BuildMadt n))).
  { unfold Acpi.write_tables.
    eapply safe_bind; [apply write_table_safe, Hdsdt|intros ? _].
    eapply safe_bind; [apply write_table_safe, BuildFadt_bytes|intros ? _].
    eapply safe_bind; [apply write_table_safe, BuildMadt_bytes|intros ? _].
    eapply safe_bind; [apply write_table_safe, BuildHpetTable_bytes|intros ? _].
    eapply safe_bind; [apply write_table_safe, BuildRsdt_bytes|intros ? _].
    eapply safe_bind; [apply write_table_safe, BuildXsdt_bytes|intros ? _]. cbv zeta.
    eapply safe_bind; [apply (safe_lift _ (fun _ => True)); [apply CheckRange_no_fuel|done]|intros ? _].
    eapply safe_bind; [apply safe_modify|intros ? _; by apply safe_ret]. intros [m1 c] Hm1. apply store_ok; [done|apply BuildRsdp_bytes]. }
  specialize (Hs (m, 0xA0000) Hm). destruct (Acpi.write_tables _ _ _ _) as [[o|e|] [m1 c]]; [|discriminate E|discriminate E].
  injection E as _ <-. apply Hs.
Qed.

Lemma LoadElfImage_ram_ok file size m k m' :
  bytes_ok file -> Z.of_nat (length file) < 2 ^ 63 -> 0 <= size < 2 ^ 64 -> ram_ok m ->
  Elf.LoadElfImage file size m = (Ok k, m') -> ram_ok m'.
Proof.
  intros Hb Hl Hs Hm E. destruct (Elf.LoadElfImage_spec file size Hb Hl Hs m _ _ E) as (_ & _ & Hok).
  destruct (Hok k eq_refl) as (_ & _ & phs & _ & Hbyte & _). intros a. rewrite Hbyte. specialize (Hm a). revert Hm.
  generalize (m a). clear Hbyte. induction phs as [|ph phs IH]; intros v Hv; [done|]. cbn [fold_left]. apply IH.
  unfold Elf.overlay_byte, Elf.seg_byte. destruct (Elf.covers ph a); [|done].
  destruct (_ <? _); [by apply byte_at_range|done].
Qed.

Section Files.
Context {F H : Type} `{HostFileLaws F H}.

Lemma read_whole_bytes fuel file p size : forall acc (f : F) bs f',
  read_whole_loop fuel file p size acc f = (Ok bs, f') -> bytes_ok acc -> Z.of_nat (length acc) <= Z.max 0 size ->
  bytes_ok bs /\ Z.of_nat (length bs) <= Z.max 0 size.
Proof.
  induction fuel as [|fuel IH]; intros acc f bs f'; cbn [read_whole_loop]; cbv zeta;
    (destruct (Z.ltb_spec (Z.of_nat (length acc)) size); [|by intros [= <- _]]); [done|].
  destruct (ReadFile file _ f) as [[got|] f1] eqn:E; [|done].
  apply read_spec in E as (Hl & Hg & _); [|lia]. destruct got as [|b got]; [done|].
  intros Hr Ha Hs. apply IH in Hr; [done| |].
  - apply Forall_app. split; [done|]. rewrite Hg. apply load_ok, contents_byte.
  - rewrite length_app. lia.
Qed.

Lemma ReadWholeFile_bytes p (f : F) bs f' :
  ReadWholeFile p f = (Ok bs, f') -> bytes_ok bs /\ Z.of_nat (length bs) < 2 ^ 63.
Proof.
  unfold ReadWholeFile. destruct (CreateFile _ _ _ f) as [[file|] f1]; [|done].
  destruct (GetFileSizeEx file f1) as [size|]; [|done].
  destruct (Z.leb_spec 0 size), (Z.leb_spec size (2 ^ 31 - 1)); cbn [andb]; try done.
  intros [Hb Hl]%read_whole_bytes; [|constructor|cbn; lia]. split; [done|lia].
Qed.

Lemma load_guest_ram_ok c (f : F) m0 kernel f' m :
  config_ok c -> bytes_ok (cmdline c) -> 0 <= ram_bytes c < 2 ^ 64 -> ram_ok m0 ->
  load_guest c (f, m0) = (Ok kernel, (f', m)) -> ram_ok m /\ disk_count c <= 17.
Proof.
  intros Hc Hcmd Hs Hm (file & mE & mA & rsdp & [Hb Hl]%ReadWholeFile_bytes & El & Ea & ->)%load_guest_steps.
  pose proof (disk_count_val c Hc). pose proof (co_disks c Hc).
  split; [|lia]. apply store_ok; [|apply mp_buffer_bytes]. apply store_ok; [|buffer].
  apply boot_writes_ram_ok; [done|]. eapply CreateAcpiTables_ram_ok; [|by eapply LoadElfImage_ram_ok|exact Ea]. lia.
Qed.
End Files.

Lemma start_vcpus_ram_ok {W} `{WhpApiLaws W} c entry rb m (w : W) u m' w' :
  ram_ok m -> start_vcpus c entry rb (m, w) = (Ok u, (m', w')) -> ram_ok m'.
Proof.
  unfold start_vcpus. generalize (seqZ 0 (cpus c)). intros l. revert m w.
  induction l as [|i l IH]; intros m w Hm; cbn [for_each]; [by intros [= _ <- _]|].
  rewrite bind_ok. intros (u1 & [m1 w1] & E1 & E2). apply IH in E2; [done|].
  apply Vcpu.bootstrap_spec in E1 as [_ Hb]. destruct (rb && _); destruct Hb as [-> _]; [done|].
  by apply long_mode_tables_ram_ok.
Qed.

(** ** The processors *)

Section Start.
Context {W : Type} `{WhpApiLaws W}.

Lemma start_list_spec entry rb (l : list Z) : NoDup l -> forall m (w : W) u m' w',
  for_each (fun i => Vcpu.SetupWhpBootstrapVcpu i entry rb (rb && negb (i =? 0))) l (m, w) = (Ok u, (m', w')) ->
  only_writes tables_area m m' /\
  (forall i n, i ∉ l -> reg i n w' = reg i n w) /\
  (m' = m \/ exists m1, m' = Vcpu.long_mode_tables m1) /\
  forall i, i ∈ l -> rb && negb (i =? 0) = false -> Vcpu.started i entry w' /\ exists m1, m' = Vcpu.long_mode_tables m1.
Proof.
  induction 1 as [|i l Hi Hl IH]; intros m w u m' w'; cbn [for_each].
  { intros [= _ <- <-]. split_and!; [apply only_writes_refl|done|by left|by intros i ?%not_elem_of_nil]. }
  rewrite bind_ok. intros (u1 & [m1 w1] & E1 & E2). apply IH in E2 as (Hw & Hr & Hm & Hs).
  apply Vcpu.bootstrap_spec in E1 as [Hother Hb].
  assert (Hm1 : only_writes tables_area m m1 /\ (m1 = m \/ exists m0, m1 = Vcpu.long_mode_tables m0)).
  { destruct (rb && negb (i =? 0)); [destruct Hb as [-> _]; split; [apply only_writes_refl|by left]|].
    destruct Hb as [-> _]. split; [apply Vcpu.long_mode_tables_spec|right; by eexists]. }
  destruct Hm1 as [Hw1 Hm1]. split_and!.
  - by eapply only_writes_trans.
  - intros j n [Hj Hjl]%not_elem_of_cons. rewrite Hr by done. by apply Hother.
  - destruct Hm as [->|Hm]; [done|by right].
  - intros j [->|Hj]%elem_of_cons Hrb; [|by apply Hs]. rewrite Hrb in Hb. destruct Hb as [-> [r0 Hst]]. split.
    + exists r0. intros n Hn. rewrite Hr by done. by apply Hst.
    + destruct Hm as [->|Hm]; [by eexists|done].
Qed.
End Start.

(** C3.  When RunVm has loaded the kernel and started the processors, memory holds
    everything the boot protocol promises, although six pieces of code wrote it one over
    the other: the zero page with its e820 map and command line, the pointer to ACPI
    tables that describe exactly this machine, an MP table with every processor, and page
    tables and descriptors that the bootstrap processor's registers lead to; outside those
    structures memory is as the kernel's file asks.  A guest that brings its own processors
    up finds only the bootstrap processor started, any other guest finds all of them. *)
Theorem boot_ready {F H W} `{HostFile F H} `{WhpApiLaws W} have_libslirp c (f : F) m0 (w : W) rootfs_backed kernel f' m u m' w' :
  check_config have_libslirp c = Ok tt -> 1 < mem_mib c < 2 ^ 32 ->
  load_guest c (f, m0) = (Ok kernel, (f', m)) ->
  start_vcpus c (Elf.k_entry kernel) rootfs_backed (m, w) = (Ok u, (m', w')) ->
  guest_ready c m' /\
  (exists file mE, ReadWholeFile (kernel_path c) f = (Ok file, f') /\
    Elf.LoadElfImage file (ram_bytes c) m0 = (Ok kernel, mE) /\ only_writes (boot_area c) mE m') /\
  forall i, 0 <= i < cpus c -> rootfs_backed = false \/ i = 0 ->
    Vcpu.long_mode_ready m' (fun n => reg i n w') /\
    Irq.Reg64 (reg i Irq.Rip w') = Elf.k_entry kernel /\ Irq.Reg64 (reg i Irq.Rsi w') = BootParams.kBootParamsAddr.
Proof.
  intros Hc%check_config_ok Hm Hl Hs. unfold start_vcpus in Hs.
  apply start_list_spec in Hs as (Hw & _ & _ & Hst); [|apply NoDup_seqZ].
  destruct (load_guest_ready c f m0 kernel f' m m' Hc) as [Hg Hk]; [rewrite ram_bytes_val; lia|done|done|].
  split; [done|]. split; [done|]. intros i Hi Hrb.
  destruct (Hst i) as [[r0 Hreg] [m1 ->]]; [apply elem_of_seqZ; lia|destruct Hrb as [->| ->]; [done|apply andb_false_r]|].
  split_and!.
  - exact (Vcpu.long_mode_registers_ready i (Elf.k_entry kernel) m1 (fun n => reg i n w') r0 Hreg).
  - rewrite Hreg by (cbn; tauto || (intros Hin; repeat (destruct Hin as [Hin|Hin]; [discriminate Hin|]); exact Hin)). done.
  - rewrite Hreg by (intros Hin; repeat (destruct Hin as [Hin|Hin]; [discriminate Hin|]); exact Hin). done.
Qed.

(** ** The devices *)

(** What the devices take from the host: the readings of its clocks, the console window,
    the random generator and the network. *)
Record host_env (E S : Type) := mkEnv {
  pit_clock : Clock; hpet_clock : Clock; pm_clock : Clock; cmos_times : nat -> Cmos.SystemTime;
  cursors : nat -> option (Z * Z); is_console : bool; passthrough : bool; entropy : E; slirp : S }.
Arguments pit_clock {E S}. Arguments hpet_clock {E S}. Arguments pm_clock {E S}. Arguments cmos_times {E S}.
Arguments cursors {E S}. Arguments is_console {E S}. Arguments passthrough {E S}. Arguments entropy {E S}. Arguments slirp {E S}.

Section Devices.
Context {F H E S W : Type} `{HostFileLaws F H} `{Rng.Entropy E} `{Net.SlirpBackend S} `{WhpApi W}.
Local Notation machine := (Machine F H E S W).

Fixpoint attach_disks (g : GuestMemory) (index : Z) (disks : list AttachedDiskConfig) : M F (list (Blk.VirtioBlk F H)) :=
  match disks with
  | [] => mret []
  | d :: disks =>
      Blk.VirtioBlk_new (VirtioMmioBase index) g (path d) "" (read_only d) true ≫= fun b =>
      attach_disks g (index + 1) disks ≫= fun blks => mret (b :: blks)
  end.

Definition create_disks (c : vm_config) (g : GuestMemory) : M F (list (Blk.VirtioBlk F H)) :=
  Blk.VirtioBlk_new (VirtioMmioBase 0) g (rootfs_path c) (overlay_path c) false true ≫= fun b =>
  attach_disks g 1 (attached_disks c) ≫= fun blks => mret (b :: blks).

Definition net_mac : list Z := [0x52; 0x54; 0x00; 0x12; 0x34; 0x56].

Definition create_net (c : vm_config) (rootfs_backed : bool) (io : IoApic.IoApic W) (g : GuestMemory) (b : S)
    : option (Net.VirtioNet (IoApic.IoApic W) S) :=
  if slirp_enabled c && rootfs_backed
  then Some (Net.attach_slirp b (Net.VirtioNet_new io g (VirtioMmioBase (net_index c)) (VirtioMmioIrq (net_index c)) net_mac))
  else None.

(** The constructor of Pit on a fresh object. *)
Definition create_pit (k : Clock) : Pit.Pit :=
  (Pit.Pit_new (Pit.mkPit [Pit.new_channel; Pit.new_channel; Pit.new_channel] false k)).2.

Definition create_devices (c : vm_config) (env : host_env E S) (rootfs_backed : bool) (g : GuestMemory) (w : W) : M F machine :=
  create_disks c g ≫= fun blks =>
  let io := IoApic.IoApic_new w in
  let hpet := Hpet.attach_irq_line (Hpet.Hpet_new (hpet_clock env)) in
  let rng := Rng.VirtioRng_new (VirtioMmioBase (rng_index c)) g true (entropy env) in
  let uart := Uart.attach_irq_raiser
    (Uart.Uart_new (console_limit c) (interactive c) (is_console env) (passthrough env) (cursors env)) in
  let net := create_net c rootfs_backed io g (slirp env) in
  let vcpu_irq := map Irq.new_vcpu (seqZ 0 (cpus c)) in
  gets (fun f : F => mkMachine g f blks rng (rng_index c) net (IoApic.attach_waker io) Pic.Pic_new (create_pit (pit_clock env)) hpet
         (Cmos.Cmos_new (cmos_times env)) (PmTimer.AcpiPmTimer_new (pm_clock env)) uart
         (Machine.mkGuestExit false 0) 0 vcpu_irq 0 0).

(** The part of RunVm before the first processor runs: the machine, and whether Linux is
    to bring up the processors itself. *)
Definition RunVm_setup (have_libslirp : bool) (c : vm_config) (env : host_env E S) : M (F * W) (machine * bool) := fun '(f, w) =>
  match check_config have_libslirp c with
  | Ok _ =>
      match FileSizeBytes (rootfs_path c) f with
      | (Ok rootfs_bytes, f) =>
          let rootfs_backed := 0 <? rootfs_bytes in
          if ram_bytes c <=? 2 ^ 32 then
            match load_guest c (f, fun _ => 0) with
            | (Ok kernel, (f, m)) =>
                match start_vcpus c (Elf.k_entry kernel) rootfs_backed (m, w) with
                | (Ok _, (m, w)) =>
                    match create_devices c env rootfs_backed (mkGuestMemory m (ram_bytes c)) w f with
                    | (Ok s, f) => (Ok (s, rootfs_backed), (f, w))
                    | (Throw e, f) => (Throw e, (f, w)) | (OutOfFuel, f) => (OutOfFuel, (f, w))
                    end
                | (Throw e, (_, w)) => (Throw e, (f, w)) | (OutOfFuel, (_, w)) => (OutOfFuel, (f, w))
                end
            | (Throw e, (f, _)) => (Throw e, (f, w)) | (OutOfFuel, (f, _)) => (OutOfFuel, (f, w))
            end
          else (Throw "invalid guest memory size", (f, w))
      | (Throw e, f) => (Throw e, (f, w)) | (OutOfFuel, f) => (OutOfFuel, (f, w))
      end
  | Throw e => (Throw e, (f, w)) | OutOfFuel => (OutOfFuel, (f, w))
  end.
End Devices.

(** ** The machine that results *)

Section Created.
Context {F H E S W : Type} `{HostFileLaws F H} `{Rng.Entropy E} `{Net.SlirpBackend S} `{WhpApiLaws W}.
Local Notation machine := (Machine F H E S W).

Lemma create_pit_ok k : Pit.pit_ok (create_pit k).
Proof. split; [done|]. repeat (constructor; [split; cbn; lia || auto|]). constructor. Qed.

(** What opening a disk establishes, apart from the host's side: a file shorter than 2^63
    bytes and a handle of its own for the overlay. *)
Definition host_disk (b : Blk.VirtioBlk F H) : Prop :=
  Blk.disk_bytes b < 2 ^ 63 /\ forall ov, Blk.overlay b = Some ov -> ov <> Blk.base b.

Lemma new_disk_base mb g p ov ro (f f' : F) (b : Blk.VirtioBlk F H) :
  Blk.VirtioBlk_new mb g p ov ro true f = (Ok b, f') -> Blk.mmio_base b = mb.
Proof.
  unfold Blk.VirtioBlk_new, Blk.open_file. rewrite lift_bind. destruct (Check _ _) as [u|e|]; [|done..].
  rewrite bind_run. destruct (CreateFile p _ OpenExisting f) as [[h|] f1]; [|done]. rewrite gets_bind.
  destruct (GetFileSizeEx h f1) as [sz|]; [|done]. rewrite lift_bind. destruct (Check _ _); [|done..].
  cbv zeta. destruct (negb _); [|by intros [= <- _]].
  rewrite lift_bind. destruct (Check _ _); [|done..]. rewrite bind_run.
  destruct (CreateFile ov _ CreateAlways f1) as [[h2|] f2]; [|done]. rewrite bind_run.
  destruct (MarkFileSparse h2 f2) as [[] f3]; try done. rewrite bind_run.
  destruct (TruncateFileTo h2 sz f3) as [[] f4]; try done. by intros [= <- _].
Qed.

Lemma attach_disks_ok g disks : 0 <= len g < 2 ^ 64 -> ram_ok (data g) -> forall index (f f' : F) blks,
  attach_disks g index disks f = (Ok blks, f') -> Forall host_disk blks ->
  Forall Blk.blk_ok blks /\ length blks = length disks /\
  forall j b, blks !! j = Some b -> Blk.mmio_base b = VirtioMmioBase (index + Z.of_nat j).
Proof.
  intros Hl Hg. induction disks as [|d disks IH]; intros index f f' blks; cbn [attach_disks].
  { intros [= <- <-] _. by split_and!. }
  rewrite bind_ok. intros (b & f1 & E1 & E2). rewrite bind_ok in E2. destruct E2 as (bs & f2 & E2 & [= <- <-]).
  intros [[Hb Ho] Hbs]%Forall_cons_1. apply IH in E2 as (Hok & Hlen & Hbase); [|done].
  split_and!; [|cbn; by rewrite Hlen|].
  - constructor; [|done]. by eapply Blk.VirtioBlk_new_ok.
  - intros [|j] b0; cbn [lookup list_lookup].
    + intros [= <-]. rewrite Z.add_0_r. by eapply new_disk_base.
    + intros Hj. rewrite (Hbase j b0 Hj). f_equal. lia.
Qed.

Lemma create_disks_ok c g (f f' : F) blks : 0 <= len g < 2 ^ 64 -> ram_ok (data g) ->
  create_disks c g f = (Ok blks, f') -> Forall host_disk blks ->
  Forall Blk.blk_ok blks /\ length blks = Datatypes.S (length (attached_disks c)) /\
  forall j b, blks !! j = Some b -> Blk.mmio_base b = VirtioMmioBase (Z.of_nat j).
Proof.
  intros Hl Hg. unfold create_disks. rewrite bind_ok. intros (b & f1 & E1 & E2).
  rewrite bind_ok in E2. destruct E2 as (bs & f2 & E2 & [= <- <-]). intros [[Hb Ho] Hbs]%Forall_cons_1.
  apply attach_disks_ok in E2 as (Hok & Hlen & Hbase); [|done..]. split_and!; [|cbn; by rewrite Hlen|].
  - constructor; [|done]. by eapply Blk.VirtioBlk_new_ok.
  - intros [|j] b0; cbn [lookup list_lookup]; [intros [= <-]; by eapply new_disk_base|].
    intros Hj. rewrite (Hbase j b0 Hj). f_equal. lia.
Qed.

Lemma create_devices_ok c env rb g (w : W) (f f' : F) (s : machine) :
  config_ok c -> 0 <= len g < 2 ^ 64 -> ram_ok (data g) ->
  create_devices c env rb g w f = (Ok s, f') -> Forall host_disk (Machine.blks s) ->
  machine_ok s /\ Machine.mem s = g.
Proof.
  intros Hc Hl Hg. unfold create_devices. rewrite bind_ok. intros (blks & f1 & E1 & [= <- <-]) Hd.
  cbn [Machine.blks] in Hd. apply create_disks_ok in E1 as (Hok & Hlen & Hbase); [|done..]. split; [|done].
  pose proof (disk_count_val c Hc) as Hn. pose proof (co_disks c Hc) as Hm.
  assert (Hr : rng_index c = Z.of_nat (length blks) + 1) by (unfold rng_index; rewrite Hn, u32_small; lia).
  constructor; cbn [Machine.mem Machine.blks Machine.rng Machine.net Machine.ioapic Machine.pit Machine.hpet Machine.cmos Machine.uart];
    try done.
  - intros n. unfold create_net. destruct (_ && rb); [|done]. intros [= <-]. split; [|done]. split; try done; cbn; [split; [done|by apply bytes_okb_ok]|lia].
  - destruct (IoApic.IoApic_new_ok w) as [[] _]. by constructor.
  - apply create_pit_ok.
  - apply (Hpet.hpet_history_ok (hpet_clock env)). apply Hpet.hpet_attach. constructor.
  - destruct (Uart.uart_new_ok (console_limit c) (interactive c) (is_console env) (passthrough env) (cursors env)) as [H1' H2'].
    split; [|exact H2']. by eapply Uart.rx_ok_view; [|exact H1'].
  - constructor; cbn [Machine.mem Machine.blks Machine.rng_index Machine.net]; try done.
    + intros n. unfold create_net. destruct (_ && rb); [|done]. intros [= <-]. unfold net_index.
      rewrite Hn. cbn. replace (Z.of_nat (length (attached_disks c)) + 1) with (Z.of_nat (length blks)) by lia. done.
    + rewrite Hr. unfold kVirtioMmioIrqBase. lia.
Qed.

Lemma setup_steps hs c env (f : F) (w : W) (s : machine) rb f' w' :
  RunVm_setup hs c env (f, w) = (Ok (s, rb), (f', w')) ->
  check_config hs c = Ok tt /\ ram_bytes c <= 2 ^ 32 /\ exists f1 kernel f2 m m1 w1,
    load_guest c (f1, fun _ => 0) = (Ok kernel, (f2, m)) /\
    start_vcpus c (Elf.k_entry kernel) rb (m, w) = (Ok tt, (m1, w1)) /\
    create_devices c env rb (mkGuestMemory m1 (ram_bytes c)) w1 f2 = (Ok s, f').
Proof.
  unfold RunVm_setup. destruct (check_config hs c) as [[]|e|]; [|done..].
  destruct (FileSizeBytes _ f) as [[n|e|] f1]; [|done..]. cbv zeta.
  destruct (Z.leb_spec (ram_bytes c) (2 ^ 32)); [|done].
  destruct (load_guest c _) as [[k|e|] [f2 m]] eqn:El; [|done..].
  destruct (start_vcpus c _ _ _) as [[[]|e|] [m1 w1]] eqn:Es; [|done..].
  destruct (create_devices c _ _ _ _ f2) as [[s0|e|] f3] eqn:Ed; [|done..]. intros [= <- <- <- <-].
  split; [done|]. split; [done|]. exists f1, k, f2, m, m1, w1. by rewrite El.
Qed.

Lemma setup_ok hs c env (f : F) (w : W) (s : machine) rb f' w' :
  RunVm_setup hs c env (f, w) = (Ok (s, rb), (f', w')) -> bytes_ok (cmdline c) -> Forall host_disk (Machine.blks s) ->
  machine_ok s /\ len (Machine.mem s) = ram_bytes c /\
  (1 < mem_mib c < 2 ^ 32 -> guest_ready c (data (Machine.mem s))).
Proof.
  intros (Hc0 & Hr & f1 & k & f2 & m & m1 & w1 & El & Es & Ed)%setup_steps Hcmd Hd.
  pose proof (check_config_ok _ _ _ Hc0) as Hc.
  assert (Hz : 0 <= ram_bytes c < 2 ^ 64) by (split; [apply Z.mod_pos_bound|]; lia).
  destruct (load_guest_ram_ok c f1 (fun _ => 0) k f2 m) as [Hm _]; try done.
  apply create_devices_ok in Ed as [Hok Hmem]; [|done|done|by eapply start_vcpus_ram_ok|done].
  rewrite Hmem. split_and!; try done.
  intros Hm2. unfold start_vcpus in Es. apply start_list_spec in Es as (Hw & _); [|apply NoDup_seqZ].
  apply (load_guest_ready c f1 (fun _ => 0) k f2 m m1); try done. rewrite ram_bytes_val; lia.
Qed.

(** C2.  A set-up that succeeds gives a machine that satisfies the invariant of
    [Machine]: memory holds bytes, every device is in its initial state and its own
    window.  With at least two mebibytes the kernel's structures are in memory.  So
    whatever happens afterwards, in any order, the invariant stays, only guest memory and
    the files of writable disks change, and no disk changes its file or its window. *)
Theorem RunVm_setup_safe hs c env (f : F) (w : W) (s s1 : machine) rb f' w' :
  RunVm_setup hs c env (f, w) = (Ok (s, rb), (f', w')) ->
  bytes_ok (cmdline c) -> Forall host_disk (Machine.blks s) -> rtc event_step s s1 ->
  machine_ok s /\ len (Machine.mem s) = ram_bytes c /\
  (1 < mem_mib c < 2 ^ 32 -> guest_ready c (data (Machine.mem s))) /\
  machine_ok s1 /\ machine_step s s1.
Proof.
  intros Hr Hcmd Hd Hh. destruct (setup_ok _ _ _ _ _ _ _ _ _ Hr Hcmd Hd) as (Hok & Hl & Hg).
  destruct (Machine.history_inv s s1 Hok Hh) as [Hok1 Hst]. by split_and!.
Qed.
End Created.

(** ** Guest RAM and the devices *)

(** The windows of the virtio devices, of the I/O APIC and of the HPET. *)
Definition device_window (c : vm_config) (gpa : Z) : Prop :=
  in_range (VirtioMmioBase 0) ((rng_index c + 1) * kVirtioStride) gpa \/
  in_range kIoApicBase kIoApicSize gpa \/ in_range kHpetBase kHpetSize gpa.

(** RunVm accepts up to 4096 MiB and maps all of it at address zero.  Accesses to the
    devices leave the guest only where no RAM is mapped: that is so for every window
    exactly up to 3328 MiB.  Above, the kernel is even told that the first window is
    usable memory. *)
Theorem device_windows_above_ram hs c m :
  check_config hs c = Ok tt -> 1 < mem_mib c -> ram_bytes c <= 2 ^ 32 -> mem_mib c < 2 ^ 32 -> guest_ready c m ->
  ((forall gpa, device_window c gpa -> ram_bytes c <= gpa) <-> mem_mib c <= 3328) /\
  (3328 < mem_mib c -> exists e, e ∈ BootParams.e820_map m /\ BootParams.e_kind e = 1 /\
     in_range (BootParams.e_addr e) (BootParams.e_size e) (VirtioMmioBase 0)).
Proof.
  intros Hc%check_config_ok Hm Hr Hm2 Hg. rewrite ram_bytes_val in * by lia.
  assert (Hi : 0 <= rng_index c) by apply u32_range.
  unfold device_window, in_range, VirtioMmioBase, kVirtioMmioBase, kVirtioStride, kIoApicBase, kIoApicSize, kHpetBase, kHpetSize.
  split; [split|].
  - intros Hall. specialize (Hall 0xD0000000). lia.
  - intros Hle gpa Hw. lia.
  - intros Hbig. apply (BootParams.zp_usable _ _ _ (gr_zero_page _ _ Hg)).
    right. rewrite ram_bytes_val by lia. lia.
Qed.

(** ** A small guest: one disk, two processors, the kernel of [Elf]'s example *)
Module Demo.
Import Irq.Demo.
#[local] Existing Instances MemFiles.mem_files MemFiles.mem_files_laws Machine.Demo.zeros Machine.Demo.no_reply.

Definition files0 : MemFiles.files := MemFiles.mkFiles (MemFiles.of_bytes Elf.demo_elf) (MemFiles.of_bytes []) 124 0 4096.
Definition config : vm_config :=
  mkConfig "vmlinux" "rootfs" "" (BootParams.ascii_bytes "console=ttyS0") 2 2 1048576 false "" false [].
Definition env : host_env unit unit :=
  mkEnv unit unit Machine.Demo.ticks Machine.Demo.ticks Machine.Demo.ticks (fun _ => Cmos.mkTime 2024 1 1 1 0 0 0)
    (fun _ => None) false false tt tt.

Definition loaded := load_guest config (files0, fun _ => 0).
Definition kernel : Elf.KernelInfo := Elf.mkKernelInfo 0x1000 0x1008.
Lemma loads : loaded = (Ok kernel, (loaded.2.1, loaded.2.2)).
Proof.
  rewrite <- surjective_pairing. rewrite (surjective_pairing loaded) at 1. f_equal.
Qed.

Definition running := start_vcpus config 0x1000 true (loaded.2.2, w0).
Lemma runs : running = (Ok tt, (running.2.1, running.2.2)).
Proof.
  rewrite <- surjective_pairing. rewrite (surjective_pairing running) at 1. f_equal.
Qed.

Lemma config_ready : guest_ready config running.2.1.
Proof.
  apply (load_guest_ready config files0 (fun _ => 0) kernel loaded.2.1 loaded.2.2 running.2.1).
  - apply (check_config_ok true config tt). reflexivity.
  - split; reflexivity.
  - exact loads.
  - pose proof runs as E. unfold running at 1, start_vcpus in E. apply start_list_spec in E as (Hw & _); [exact Hw|apply NoDup_seqZ].
Qed.

Lemma boot_ready_witness :
  guest_ready config running.2.1 /\ Irq.Reg64 (running.2.2 0 Irq.Rip) = 0x1000.
Proof.
  destruct (boot_ready true config files0 (fun _ => 0) w0 true kernel loaded.2.1 loaded.2.2 tt running.2.1 running.2.2)
    as (Hg & _ & Hp).
  - reflexivity.
  - split; reflexivity.
  - exact loads.
  - exact runs.
  - split; [exact Hg|]. destruct (Hp 0) as (_ & Hr & _); [split; [discriminate|reflexivity]|right; reflexivity|exact Hr].
Defined.

Lemma device_windows_above_ram_witness :
  ram_bytes config <= VirtioMmioBase 2 + 0x1FF.
Proof.
  destruct (device_windows_above_ram true config running.2.1) as [[_ H] _].
  - reflexivity.
  - reflexivity.
  - vm_compute. discriminate.
  - reflexivity.
  - exact config_ready.
  - apply H; [vm_compute; discriminate|]. left. unfold in_range. vm_compute. split; [discriminate|reflexivity].
Defined.

Definition booted := RunVm_setup true config env (files0, w0).
Definition host_diskb (b : Blk.VirtioBlk MemFiles.files bool) : bool :=
  (Blk.disk_bytes b <? 2 ^ 63) && match Blk.overlay b with None => true | Some _ => false end.
Definition boots : bool :=
  match booted with (Ok (s, rb), _) => rb && forallb host_diskb (Machine.blks s) | _ => false end.
Lemma boots_true : boots = true.
Proof. vm_compute. reflexivity. Qed.

Lemma RunVm_setup_safe_witness : exists s rb, booted.1 = Ok (s, rb) /\ machine_ok s.
Proof.
  pose proof boots_true as Hb. unfold boots in Hb.
  destruct booted as [[[s rb]|e|] [f' w']] eqn:Eb; [|discriminate Hb|discriminate Hb]. exists s, rb. split; [reflexivity|].
  apply (RunVm_setup_safe true config env files0 w0 s s rb f' w' Eb).
  - by apply bytes_okb_ok.
  - apply andb_true_iff in Hb as [_ Hb].
    apply List.Forall_forall. intros b Hin. apply forallb_forall with (x := b) in Hb; [|exact Hin].
    apply andb_true_iff in Hb as [Hs Ho]. split; [lia|]. intros ov E. by rewrite E in Ho.
  - apply rtc_refl.
Defined.
End Demo.
