(* ===== verification/Runner.v ===== *)
(** * native/whp/backend.cc: the threads of RunVm

    The processors, the watchdog, the timer thread and the host that writes the control
    words, as one program counter per thread over the atomics they share.  Each access
    to a shared variable is a step of its own, so the executions are all interleavings.
    The devices under [device_mu] are reached through the class [Devices]; the machine of
    Machine.v is an instance.  The guest's stores to its memory and the frames of the
    network's thread are steps of their own.  The theorems: the first [finish] decides the
    result; the pause and halt counters count; once the machine is done every thread can
    go on without the guest leaving by itself, the input threads apart, which RunVm waits
    for; and, as examples, two races on the control word. *)

From S2P Require Import Prelude Words Bytes GuestMemory Clock Board HostFile Vcpu Machine.
From stdpp Require Import pretty.
From S2P Require Irq Rng Net IoApic Uart.
Import Irq(WhpApi).
#[local] Existing Instances IoApic.eta_IoApic.
#[local] Open Scope string_scope.
#[local] Open Scope Z_scope.

(** ** Exits *)

Record memory_access := mkMemoryAccess { Gpa : Z; Gva : Z; AccessType : Z; MemoryByteCount : Z }.
Record vp_exception := mkException { ExceptionType : Z; ErrorCode : Z; ExceptionParameter : Z }.

(** WHV_RUN_VP_EXIT_CONTEXT: the member of its union by the reason of the exit. *)
Inductive vm_exit :=
  | X64Halt
  | X64IoPortAccess (io : io_context)
  | MemoryAccess (m : memory_access)
  | X64ApicEoi (vector : Z)
  | X64InterruptWindow
  | X64Cpuid (c : cpuid_access) (rcx : Z)
  | X64MsrAccess (a : msr_access)
  | Canceled
  | UnrecoverableException (e : vp_exception)
  | OtherExit (reason : Z).
Record exit_context := mkExitContext { ctx_state : Irq.exit_state; ctx_vp : vp_context; ctx_exit : vm_exit }.

(** WHV_RUN_VP_EXIT_REASON of the Windows SDK. *)
Definition ExitReason (x : vm_exit) : Z :=
  match x with
  | MemoryAccess _ => 1 | X64IoPortAccess _ => 2 | UnrecoverableException _ => 4
  | X64InterruptWindow => 7 | X64Halt => 8 | X64ApicEoi _ => 9
  | X64MsrAccess _ => 0x1000 | X64Cpuid _ _ => 0x1001 | Canceled => 0x2001
  | OtherExit reason => reason
  end.
Definition WHvRunVpExitReasonX64Halt : Z := 8.
Definition WHvRunVpExitReasonCanceled : Z := 0x2001.

Definition WhpExitReason (reason : Z) : string :=
  if reason =? 8 then "hlt" else if reason =? 1 then "memory-access" else if reason =? 2 then "io-port"
  else if reason =? 4 then "unrecoverable-exception" else if reason =? 5 then "invalid-vp-register"
  else if reason =? 6 then "unsupported-feature" else if reason =? 7 then "interrupt-window"
  else if reason =? 9 then "apic-eoi" else if reason =? 0x1000 then "msr-access"
  else if reason =? 0x1001 then "cpuid" else if reason =? 0x2001 then "canceled"
  else "whp-exit-" ++ pretty reason.

(** [snprintf] with "0x%llx", and with "0x%08lx". *)
Definition Hex (value : Z) : string := "0x" ++ hex_digits 16 1 value "".
Definition Hex08 (value : Z) : string := "0x" ++ hex_digits 8 8 value "".

Definition bit_string (b : bool) : string := if b then "1" else "0".
Definition DescribeWhpExit (ctx : exit_context) : string :=
  "exit=" ++ WhpExitReason (ExitReason (ctx_exit ctx)) ++ " rip=" ++ Hex (VpRip (ctx_vp ctx)) ++
  match ctx_exit ctx with
  | X64IoPortAccess io =>
      " port=" ++ Hex (PortNumber io) ++ " size=" ++ pretty (AccessSize io) ++
      " write=" ++ bit_string (IsWrite io) ++ " len=" ++ pretty (InstructionByteCount io) ++
      " rax=" ++ Hex (IoRax io)
  | MemoryAccess m =>
      " gpa=" ++ Hex (Gpa m) ++ " gva=" ++ Hex (Gva m) ++ " access=" ++ pretty (AccessType m) ++
      " len=" ++ pretty (MemoryByteCount m)
  | UnrecoverableException e =>
      " exception=" ++ pretty (ExceptionType e) ++ " error=" ++ Hex (ErrorCode e) ++
      " param=" ++ Hex (ExceptionParameter e)
  | X64ApicEoi vector => " vector=" ++ Hex vector
  | X64MsrAccess a => " msr=" ++ Hex (MsrNumber a) ++ " write=" ++ bit_string (MsrIsWrite a)
  | X64Cpuid c rcx =>
      " leaf=" ++ Hex (Z.land (CpuidRax c) 0xFFFFFFFF) ++ " subleaf=" ++ Hex (Z.land rcx 0xFFFFFFFF)
  | _ => ""
  end.

(** What WHvRunVirtualProcessor returns: a failure, or the exit. *)
Inductive run_result := RunFailed (hr : Z) | RunExit (x : exit_context).

(** ** The devices under the lock

    What the threads call; each member is one critical section. *)
Class Devices (D : Type) := {
  (** before a processor runs *)
  dev_pre_run : nat -> D -> D;
  (** UpdateVcpuFromExit *)
  dev_left : nat -> Irq.exit_state -> D -> D;
  (** the handler of an exit; the reason to finish, if there is one *)
  dev_exit : nat -> exit_context -> M D (option string);
  (** a round of the timer thread *)
  dev_tick : M D unit;
  (** enqueue_rx of console input *)
  dev_input : list Z -> D -> D;
  (** a store of the guest to its memory; [None] where there is none *)
  dev_store : Z -> list Z -> D -> option D;
  (** a frame of the network's poll thread *)
  dev_net : list Z -> M D unit;
  dev_console : D -> list Z
}.

(** ** Shared state *)

Definition kControlRun : Z := 0.
Definition kControlPause : Z := 1.
Definition kControlStop : Z := 2.
Definition kControlStateStarting : Z := 0.
Definition kControlStateRunning : Z := 1.
Definition kControlStatePaused : Z := 2.
Definition kControlStateStopping : Z := 3.
Definition kControlStateExited : Z := 4.

Record run_config := mkRunConfig {
  cpus : Z; timeout_ms : Z; rootfs_backed : bool;
  interactive : bool;                   (** there are input threads *)
  (** WHvCancelRunVirtualProcessor of a processor that is not running ends its next run *)
  cancel_sticks : bool;
  start : Z;                            (** steady clock, in nanoseconds *)
  windows_error : Z -> string           (** WindowsErrorMessage *) }.

Record shared (D : Type) := mkShared {
  control : option (Z * Z);             (** command and state words, [None] without control *)
  vm_done : bool; watchdog_done : bool; watchdog_timeout : bool; timer_done : bool; input_done : bool;
  input_returned : bool;                (** the input threads have returned *)
  runs : Z; paused_count : Z; halted_count : Z; timeout_extension_ms : Z;
  final_exit_reason : string; final_exit_code : Z; error_message : string;
  kicks : Z;                            (** calls of cancel_all with wake_halted_vcpus *)
  cancels : list bool;                  (** the processors with a cancellation pending *)
  now : Z;                              (** the steady clock *)
  devices : D }.
Arguments mkShared {D}. Arguments control {D}. Arguments vm_done {D}. Arguments watchdog_done {D}.
Arguments watchdog_timeout {D}. Arguments timer_done {D}. Arguments input_done {D}. Arguments runs {D}.
Arguments input_returned {D}. Arguments cancels {D}.
Arguments paused_count {D}. Arguments halted_count {D}. Arguments timeout_extension_ms {D}.
Arguments final_exit_reason {D}. Arguments final_exit_code {D}. Arguments error_message {D}.
Arguments kicks {D}. Arguments now {D}. Arguments devices {D}.
#[export] Instance eta_shared D : Eta (shared D) := fun s =>
  mkShared (control s) (vm_done s) (watchdog_done s) (watchdog_timeout s) (timer_done s) (input_done s)
    (input_returned s) (runs s)
    (paused_count s) (halted_count s) (timeout_extension_ms s) (final_exit_reason s) (final_exit_code s)
    (error_message s) (kicks s) (cancels s) (now s) (devices s).

(** ** Threads *)

Record run_vm_result := mkResult { exitReason : string; exitReasonCode : Z; result_runs : Z; result_console : list Z }.

(** What follows a call of [finish]. *)
Inductive after := Return | Loop | Join | Rethrow (msg : string).

(** Where a processor's thread is; the thread of processor 0 goes on with the end of RunVm. *)
Inductive pc :=
  | Top | ReadCommand | SetStopping
  | Finish (reason : string) (code : Z) (k : after)
  | Publish (reason : string) (code : Z) (k : after)
  | Kick (k : after)
  | PauseClock | EnterPause (paused_at : Z) | SetPaused (paused_at : Z)
  | PauseCmd (paused_at : Z) | PauseDone (paused_at : Z) | PauseTimeout (paused_at : Z)
  | LeavePause (paused_at : Z) | Extend (paused_at : Z) | AfterPause | AfterPauseDone | SetRunning
  | Dispatch | PreRun | Running | Failed (hr : Z) | CountRun (x : exit_context)
  | LeftGuest (x : exit_context) | CheckTimeout (x : exit_context) | Handle (x : exit_context)
  | CountHalt (x : exit_context) | CanceledTimeout | CanceledDone
  | Raise (msg : string) | Record_ (detail : string)
  | Returned
  | JoinCpus | SetExited | StopInput | JoinInput | StopWatchdog | JoinWatchdog | StopTimer | JoinTimer | MakeResult
  | Exited (msg : string) | Done (r : run_vm_result) | Threw (msg : string).

Record vcpu := mkThread { at_ : pc; locally_halted : bool; last_exit_context : option exit_context }.

Inductive watchdog_pc :=
  | WTop | WCommand | WStopping | WFinish | WPublish | WKick (returns : bool)
  | WDeadline | WCompare (deadline : Z) | WTimeout | WReturned.
Inductive timer_pc := TTop | TDone | TCommand | TTick | TReturned.

Record vm (D : Type) := mkVm { sh : shared D; vcpus : list vcpu; watchdog : watchdog_pc; timer : timer_pc }.
Arguments mkVm {D}. Arguments sh {D}. Arguments vcpus {D}. Arguments watchdog {D}. Arguments timer {D}.

Section Threads.
Context {D : Type} `{Devices D} (c : run_config).
Local Notation shared := (shared D).
Local Notation vm := (vm D).

Definition command (s : shared) : Z := match control s with Some (cmd, _) => cmd | None => kControlRun end.
Definition set_state (state : Z) (s : shared) : shared :=
  match control s with Some (cmd, _) => s <| control := Some (cmd, state) |> | None => s end.
(** [cancel_all] and [wake_halted_vcpus] *)
Definition kick (s : shared) : shared :=
  (s <| kicks := kicks s + 1 |>) <| cancels := map (fun _ => true) (cancels s) |>.
Definition is_canceled (r : run_result) : bool :=
  match r with RunExit x => match ctx_exit x with Canceled => true | _ => false end | RunFailed _ => false end.
(** WHvRunVirtualProcessor: whether an earlier cancellation counts, and a run that returns
    as canceled has taken it. *)
Definition run_begins (i : nat) (s : shared) : shared :=
  s <| cancels := if cancel_sticks c then cancels s else <[i := false]> (cancels s) |>.
Definition run_ends (i : nat) (r : run_result) (s : shared) : shared :=
  s <| cancels := if is_canceled r then <[i := false]> (cancels s) else cancels s |>.

Definition timed_out : string := "VM timed out after " ++ pretty (timeout_ms c) ++ "ms".
Definition resume (k : after) : pc :=
  match k with Return => Returned | Loop => Top | Join => JoinCpus | Rethrow msg => Exited msg end.

(** [finish]: the exchange, then the result under its lock, then the wake-up. *)
Definition finish_step (reason : string) (code : Z) (k : after) (s : shared) : pc * shared :=
  if vm_done s then (resume k, s) else (Publish reason code k, s <| vm_done := true |>).
Definition publish_step (reason : string) (code : Z) (s : shared) : shared :=
  (s <| final_exit_reason := reason |>) <| final_exit_code := code |>.

(** A reason a device gives to stop, with the code [finish] is given. *)
Definition exit_code (reason : string) (x : exit_context) : Z :=
  if String.eqb reason "halted-console" then WHvRunVpExitReasonX64Halt else ExitReason (ctx_exit x).

(** The handler of an exit; [None] when it does not return. *)
Definition handle_exit (i : nat) (x : exit_context) (s : shared) : option (pc * shared) :=
  let '(o, d) := dev_exit i x (devices s) in
  let s := s <| devices := d |> in
  match o with
  | Ok None => Some (Top, s)
  | Ok (Some reason) => Some (Finish reason (exit_code reason x) Return, s)
  | Throw msg => Some (Raise msg, s)
  | OutOfFuel => None
  end.

(** [record_error]: an empty message gets a description first. *)
Definition error_detail (msg : string) (s : shared) : string :=
  if String.eqb msg "" then (if watchdog_timeout s then timed_out else "unknown WHP vCPU runner error") else msg.

(** [make_result] after the joins. *)
Definition make_result (s : shared) : pc :=
  if watchdog_timeout s && String.eqb (error_message s) "" then Finish "host-error" WHvRunVpExitReasonCanceled (Rethrow timed_out)
  else if negb (String.eqb (error_message s) "") then
    Finish "host-error" WHvRunVpExitReasonCanceled (Rethrow (error_message s))
  else Done (mkResult (final_exit_reason s) (final_exit_code s)
               (if 0xFFFFFFFF <? runs s then 0xFFFFFFFF else runs s) (dev_console (devices s))).

(** One access of the thread of processor [i]; [r] is what a run of it returns. *)
Definition pc_step (i : nat) (r : run_result) (t : vcpu) (s : shared) : option (pc * shared) :=
  match at_ t with
  | Top => Some (if vm_done s then Returned else ReadCommand, s)
  | ReadCommand =>
      Some (if command s =? kControlStop then SetStopping
            else if command s =? kControlPause then PauseClock else Dispatch, s)
  | SetStopping => Some (Finish "host-stop" WHvRunVpExitReasonCanceled Return, set_state kControlStateStopping s)
  | Finish reason code k => Some (finish_step reason code k s)
  | Publish reason code k => Some (Kick k, publish_step reason code s)
  | Kick k => Some (resume k, kick s)
  | PauseClock => Some (EnterPause (now s), s)
  | EnterPause t0 =>
      let n := u32 (paused_count s + 1) in
      Some (if n =? cpus c then SetPaused t0 else PauseCmd t0, s <| paused_count := n |>)
  | SetPaused t0 => Some (PauseCmd t0, set_state kControlStatePaused s)
  | PauseCmd t0 => Some (if command s =? kControlPause then PauseDone t0 else LeavePause t0, s)
  | PauseDone t0 => Some (if vm_done s then LeavePause t0 else PauseTimeout t0, s)
  | PauseTimeout t0 => Some (if watchdog_timeout s then LeavePause t0 else PauseCmd t0, s)
  | LeavePause t0 => Some (Extend t0, s <| paused_count := u32 (paused_count s - 1) |>)
  | Extend t0 =>
      Some (AfterPause,
        if (0 <? timeout_ms c) && (i =? 0)%nat then
          s <| timeout_extension_ms := i64 (timeout_extension_ms s + Z.quot (now s - t0) 1000000) |>
        else s)
  | AfterPause => Some (if command s =? kControlStop then SetStopping else AfterPauseDone, s)
  | AfterPauseDone => Some (if vm_done s then Dispatch else SetRunning, s)
  | SetRunning => Some (Dispatch, set_state kControlStateRunning s)
  | Dispatch => Some (if locally_halted t then Top else PreRun, s)
  | PreRun => Some (Running, run_begins i (s <| devices := dev_pre_run i (devices s) |>))
  | Running => Some (match r with RunFailed hr => Failed hr | RunExit x => CountRun x end, run_ends i r s)
  | Failed hr =>
      Some (if watchdog_timeout s then
              Raise (timed_out ++ match last_exit_context t with Some x => " last " ++ DescribeWhpExit x | None => "" end)
            else Raise ("WHvRunVirtualProcessor failed with HRESULT " ++ Hex08 hr ++ ": " ++ windows_error c hr), s)
  | CountRun x => Some (LeftGuest x, s <| runs := u64 (runs s + 1) |>)
  | LeftGuest x => Some (CheckTimeout x, s <| devices := dev_left i (ctx_state x) (devices s) |>)
  | CheckTimeout x =>
      Some (if watchdog_timeout s then Raise (timed_out ++ " last " ++ DescribeWhpExit x) else Handle x, s)
  | Handle x =>
      match ctx_exit x with
      | X64Halt => if rootfs_backed c then handle_exit i x s else Some (CountHalt x, s)
      | Canceled => Some (CanceledTimeout, s)
      | UnrecoverableException _ | OtherExit _ =>
          Some (Finish (WhpExitReason (ExitReason (ctx_exit x))) (ExitReason (ctx_exit x)) Return, s)
      | _ => handle_exit i x s
      end
  | CountHalt x =>
      let n := u32 (halted_count s + 1) in
      Some (if n =? cpus c then Finish "hlt" (ExitReason (ctx_exit x)) Loop else Top, s <| halted_count := n |>)
  | CanceledTimeout => Some (if watchdog_timeout s then Raise timed_out else CanceledDone, s)
  | CanceledDone => Some (if vm_done s then Returned else Top, s)
  | Raise msg => Some (Record_ (error_detail msg s), s)
  | Record_ detail =>
      Some (Finish "host-error" WHvRunVpExitReasonCanceled Return,
        if String.eqb (error_message s) "" then s <| error_message := detail |> else s)
  | Returned => if (i =? 0)%nat then Some (Finish "host-stop" WHvRunVpExitReasonCanceled Join, s) else None
  | JoinCpus => Some (SetExited, s)
  | SetExited => Some (StopInput, set_state kControlStateExited s)
  | StopInput => Some (JoinInput, s <| input_done := true |>)
  | JoinInput => Some (StopWatchdog, s)
  | StopWatchdog => Some (JoinWatchdog, s <| watchdog_done := true |>)
  | JoinWatchdog => Some (StopTimer, s)
  | StopTimer => Some (JoinTimer, s <| timer_done := true |>)
  | JoinTimer => Some (MakeResult, s)
  | MakeResult => Some (make_result s, s)
  | Exited msg => Some (Threw msg, set_state kControlStateExited s)
  | Done _ | Threw _ => None
  end.

(** The thread's own variables. *)
Definition locals_step (t : vcpu) : bool * option exit_context :=
  match at_ t with
  | CountRun x => (locally_halted t, Some x)
  | Handle x =>
      match ctx_exit x with
      | X64Halt => (locally_halted t || negb (rootfs_backed c), last_exit_context t)
      | _ => (locally_halted t, last_exit_context t)
      end
  | _ => (locally_halted t, last_exit_context t)
  end.

Definition vcpu_step (i : nat) (r : run_result) (t : vcpu) (s : shared) : option (vcpu * shared) :=
  match pc_step i r t s with
  | Some (p, s) => let '(h, x) := locals_step t in Some (mkThread p h x, s)
  | None => None
  end.

(** [thread.join()]: the threads a processor's thread waits for. *)
Definition returned (t : vcpu) : bool := match at_ t with Returned => true | _ => false end.
Definition may_step (t : vcpu) (v : vm) : bool :=
  match at_ t with
  | JoinCpus => forallb returned (tl (vcpus v))
  | JoinInput => input_returned (sh v)
  | JoinWatchdog => match watchdog v with WReturned => true | _ => false end
  | JoinTimer => match timer v with TReturned => true | _ => false end
  | _ => true
  end.

Definition ms : Z := 1000000.
Definition watchdog_step (w : watchdog_pc) (s : shared) : option (watchdog_pc * shared) :=
  match w with
  | WTop => Some (if watchdog_done s then WReturned else WCommand, s)
  | WCommand =>
      Some (if command s =? kControlStop then WStopping
            else if command s =? kControlPause then WKick false else WDeadline, s)
  | WStopping => Some (WFinish, set_state kControlStateStopping s)
  | WFinish => Some (if vm_done s then (WReturned, s) else (WPublish, s <| vm_done := true |>))
  | WPublish => Some (WKick true, publish_step "host-stop" WHvRunVpExitReasonCanceled s)
  | WKick returns => Some (if returns then WReturned else WTop, kick s)
  | WDeadline => Some (WCompare (start c + timeout_ms c * ms + timeout_extension_ms s * ms), s)
  | WCompare deadline => Some (if (0 <? timeout_ms c) && (deadline <? now s) then WTimeout else WTop, s)
  | WTimeout => Some (WKick true, s <| watchdog_timeout := true |>)
  | WReturned => None
  end.

Definition timer_step (p : timer_pc) (s : shared) : option (timer_pc * shared) :=
  match p with
  | TTop => Some (if timer_done s then TReturned else TDone, s)
  | TDone => Some (if vm_done s then TTop else TCommand, s)
  | TCommand => Some (if command s =? kControlRun then TTick else TTop, s)
  | TTick =>
      match dev_tick (devices s) with
      | (Ok _, d) => Some (TTop, s <| devices := d |>)
      | _ => None
      end
  | TReturned => None
  end.

(** ** Executions *)

Inductive label :=
  | LCpu (i : nat) (r : run_result) | LWatchdog | LTimer
  | LCommand (cmd : Z)                  (** the host writes the command word *)
  | LClock (ns : Z)                     (** time passes *)
  | LInput (bytes : list Z)             (** console input is delivered *)
  | LInputEnd                           (** the input threads return *)
  | LStore (a : Z) (bytes : list Z)     (** the guest stores to its memory *)
  | LNet (frame : list Z)               (** the network's thread delivers a frame *).

Definition is_running (t : vcpu) : bool := match at_ t with Running => true | _ => false end.

Definition put_shared (s : shared) (v : vm) : vm := mkVm s (vcpus v) (watchdog v) (timer v).

Definition next (l : label) (v : vm) : option vm :=
  match l with
  | LCpu i r =>
      match vcpus v !! i with
      | Some t =>
          if may_step t v then
            match vcpu_step i r t (sh v) with
            | Some (t', s) => Some (mkVm s (<[i := t']> (vcpus v)) (watchdog v) (timer v))
            | None => None
            end
          else None
      | None => None
      end
  | LWatchdog =>
      match watchdog_step (watchdog v) (sh v) with
      | Some (w, s) => Some (mkVm s (vcpus v) w (timer v))
      | None => None
      end
  | LTimer =>
      match timer_step (timer v) (sh v) with
      | Some (p, s) => Some (mkVm s (vcpus v) (watchdog v) p)
      | None => None
      end
  | LCommand cmd =>
      match control (sh v) with
      | Some (_, state) => Some (put_shared ((sh v) <| control := Some (cmd, state) |>) v)
      | None => None
      end
  | LClock ns => if 0 <=? ns then Some (put_shared ((sh v) <| now := now (sh v) + ns |>) v) else None
  | LInput bytes =>
      if input_returned (sh v) then None
      else Some (put_shared (kick ((sh v) <| devices := dev_input bytes (devices (sh v)) |>)) v)
  | LInputEnd => if input_done (sh v) then Some (put_shared ((sh v) <| input_returned := true |>) v) else None
  | LStore a bytes =>
      if existsb is_running (vcpus v) && bytes_okb bytes then
        match dev_store a bytes (devices (sh v)) with
        | Some d => Some (put_shared ((sh v) <| devices := d |>) v)
        | None => None
        end
      else None
  | LNet frame =>
      if bytes_okb frame then
        match dev_net frame (devices (sh v)) with
        | (Ok _, d) => Some (put_shared ((sh v) <| devices := d |>) v)
        | _ => None
        end
      else None
  end.

Fixpoint exec (ls : list label) (v : vm) : option vm :=
  match ls with
  | [] => Some v
  | l :: ls => match next l v with Some v => exec ls v | None => None end
  end.

Definition step (v v' : vm) : Prop := exists l, next l v = Some v'.
Definition steps : vm -> vm -> Prop := rtc step.

(** RunVm when the threads start; the control words are as the host left them. *)
Definition launch (control : option (Z * Z)) (d : D) : vm :=
  mkVm (set_state kControlStateRunning
          (mkShared control false false false false false (negb (interactive c)) 0 0 0 0 "host-stop"
             WHvRunVpExitReasonCanceled "" 0 (repeat false (Z.to_nat (cpus c))) (start c) d))
    (repeat (mkThread Top false None) (Z.to_nat (cpus c)))
    WTop (if rootfs_backed c then TTop else TReturned).
End Threads.

(** ** The result is decided once *)

Section Facts.
#[local] Open Scope list_scope.
#[local] Open Scope Z_scope.
Context {D : Type} `{Devices D} (c : run_config).
Local Notation shared := (shared D).
Local Notation vm := (vm D).
Implicit Types (s : shared) (v : vm) (t : vcpu).

Lemma vcpu_step_inv i r t s t' s' :
  vcpu_step c i r t s = Some (t', s') ->
  pc_step c i r t s = Some (at_ t', s') /\ (locally_halted t', last_exit_context t') = locals_step c t.
Proof.
  unfold vcpu_step. destruct (pc_step c i r t s) as [[p s1]|]; [|done].
  destruct (locals_step c t) as [h x]. by intros [= <- <-].
Qed.

Lemma handle_exit_inv i x s p s' :
  handle_exit i x s = Some (p, s') ->
  (exists d, s' = s <| devices := d |>) /\
  ((p = Top \/ exists msg, p = Raise msg) \/ exists reason, p = Finish reason (exit_code reason x) Return).
Proof.
  unfold handle_exit. destruct (dev_exit i x (devices s)) as [[[reason|]|msg|] d]; intros [= <- <-].
  - split; [by exists d|]. right. by exists reason.
  - split; [by exists d|]. left. by left.
  - split; [by exists d|]. left. right. by exists msg.
Qed.

(** The next program counter and the effect, for every counter but that of an exit's handler. *)
Ltac pc_cases t :=
  let p := fresh "p" in
  destruct t as [p ? ?]; unfold pc_step, finish_step, make_result, resume; cbn [at_];
  destruct p; cbn;
  try match goal with x : exit_context |- context [ctx_exit ?x] => destruct (ctx_exit x) eqn:? end; intros Hpc;
  repeat match goal with
  | Hpc : handle_exit _ _ _ = Some _ |- _ => apply handle_exit_inv in Hpc as ([? ->] & [[->|[? ->]]|[? ->]])
  | k : after |- _ => destruct k
  | Hpc : context [match ?r with RunFailed _ => _ | RunExit _ => _ end] |- _ => destruct r
  | Hpc : context [if ?b then _ else _] |- _ => destruct b eqn:?
  end; try discriminate; try (injection Hpc as <- <-).

Definition pub (p : pc) : option (string * Z) := match p with Publish reason code _ => Some (reason, code) | _ => None end.
Definition pubw (w : watchdog_pc) : option (string * Z) :=
  match w with WPublish => Some ("host-stop", WHvRunVpExitReasonCanceled) | _ => None end.
Definition publishers v : list (string * Z) := omap (fun t => pub (at_ t)) (vcpus v) ++ option_list (pubw (watchdog v)).

(** The reason and code the first [finish] gave. *)
Definition verdict v : option (string * Z) :=
  match publishers v with
  | x :: _ => Some x
  | [] => if vm_done (sh v) then Some (final_exit_reason (sh v), final_exit_code (sh v)) else None
  end.
Definition one_winner v : Prop :=
  (length (publishers v) <= 1)%nat /\ (publishers v <> [] -> vm_done (sh v) = true).

(** How a thread's step moves between taking the exchange and publishing. *)
Definition finish_move (p p' : option (string * Z)) s s' : Prop :=
  (p = None /\ p' = None /\ vm_done s' = vm_done s /\
     (final_exit_reason s', final_exit_code s') = (final_exit_reason s, final_exit_code s)) \/
  (p = None /\ is_Some p' /\ vm_done s = false /\ vm_done s' = true) \/
  (p = Some (final_exit_reason s', final_exit_code s') /\ p' = None /\ vm_done s' = vm_done s).

Lemma set_state_done state s : vm_done (set_state state s) = vm_done s.
Proof. unfold set_state. by destruct (control s) as [[]|]. Qed.
Lemma set_state_final state s :
  (final_exit_reason (set_state state s), final_exit_code (set_state state s)) = (final_exit_reason s, final_exit_code s).
Proof. unfold set_state. by destruct (control s) as [[]|]. Qed.

Ltac same_final := left; split_and!; solve [done | apply set_state_done | apply set_state_final].

Lemma pc_finish i r t s p s' : pc_step c i r t s = Some (p, s') -> finish_move (pub (at_ t)) (pub p) s s'.
Proof.
  pc_cases t; try same_final; try (right; left; done).
  all: right; right; done.
Qed.

Lemma watchdog_finish w s w' s' : watchdog_step c w s = Some (w', s') -> finish_move (pubw w) (pubw w') s s'.
Proof.
  destruct w; cbn; intros [= Hw];
    repeat match goal with Hw : context [if ?b then _ else _] |- _ => destruct b eqn:? end;
    try (injection Hw as <- <-); subst; try same_final.
  - right; left; done.
  - right; right; done.
Qed.

Lemma timer_finish p s p' s' : timer_step p s = Some (p', s') -> finish_move None None s s'.
Proof.
  destruct p; cbn; try (intros [= <- <-]; same_final); try done.
  destruct (dev_tick _) as [[] d]; [|done..]. intros [= <- <-]. same_final.
Qed.

Lemma insert_split {A} i (l : list A) x y :
  l !! i = Some x -> exists l1 l2, l = l1 ++ x :: l2 /\ <[i := y]> l = l1 ++ y :: l2.
Proof.
  intros Hx. exists (take i l), (drop (S i) l). split; [by rewrite take_drop_middle|].
  apply insert_take_drop. by eapply lookup_lt_Some.
Qed.

(** A change of one publisher keeps the single winner and its verdict. *)
Lemma move_verdict l1 l2 p p' s s' v v' :
  sh v = s -> sh v' = s' -> publishers v = l1 ++ option_list p ++ l2 -> publishers v' = l1 ++ option_list p' ++ l2 ->
  finish_move p p' s s' -> one_winner v ->
  one_winner v' /\ (forall x, verdict v = Some x -> verdict v' = Some x).
Proof.
  intros <- <- Ep Ep' Hm [Hl Hd]. unfold one_winner, verdict. rewrite Ep in *. rewrite Ep' in *.
  destruct Hm as [(-> & -> & Ed & [= Er Ec])|[(-> & [x ->] & Ed & Ed')|(-> & -> & Ed)]]; unfold option_list in *; cbn [option_rect app] in *.
  - rewrite Ed, Er, Ec. done.
  - assert (El : l1 ++ l2 = []) by (destruct (l1 ++ l2); [done|]; by rewrite Hd in Ed).
    apply app_eq_nil in El as [-> ->]. cbn in *. rewrite Ed. split; [split; [lia|done]|done].
  - rewrite length_app in Hl. cbn in Hl. destruct l1, l2; cbn in Hl; try lia. cbn in *. rewrite Ed, Hd by done. split; [split; [lia|done]|done].
Qed.

(** The steps outside the three kinds of threads. *)
Definition outer (l : label) : bool := match l with LCpu _ _ | LWatchdog | LTimer => false | _ => true end.
Record outer_step (l : label) v v' : Prop := {
  o_vcpus : vcpus v' = vcpus v; o_watchdog : watchdog v' = watchdog v; o_timer : timer v' = timer v;
  o_done : vm_done (sh v') = vm_done (sh v); o_wdone : watchdog_done (sh v') = watchdog_done (sh v);
  o_timeout : watchdog_timeout (sh v') = watchdog_timeout (sh v); o_tdone : timer_done (sh v') = timer_done (sh v);
  o_idone : input_done (sh v') = input_done (sh v);
  o_returned : input_returned (sh v) = true -> input_returned (sh v') = true;
  o_runs : runs (sh v') = runs (sh v); o_paused : paused_count (sh v') = paused_count (sh v);
  o_halted : halted_count (sh v') = halted_count (sh v);
  o_reason : final_exit_reason (sh v') = final_exit_reason (sh v); o_code : final_exit_code (sh v') = final_exit_code (sh v);
  o_error : error_message (sh v') = error_message (sh v);
  o_command : match l with LCommand _ => False | _ => True end -> command (sh v') = command (sh v);
  o_cancels : cancels (sh v') = cancels (sh v) \/ cancels (sh v') = map (fun _ => true) (cancels (sh v)) }.

Lemma next_outer l v v' : outer l = true -> next c l v = Some v' -> outer_step l v v'.
Proof.
  destruct l as [i r| | |cmd|ns|bytes| |a bytes|frame]; cbn; try done; intros _ Hn.
  - destruct (control (sh v)) as [[cm st]|]; [|done]. injection Hn as <-. constructor; auto; done.
  - destruct (0 <=? ns); [|done]. injection Hn as <-. constructor; auto; done.
  - destruct (input_returned (sh v)) eqn:Ei; [done|]. injection Hn as <-. constructor; auto; done.
  - destruct (input_done (sh v)) eqn:Ei; [|done]. injection Hn as <-. constructor; auto; done.
  - destruct (_ && _); [|done]. destruct (dev_store a bytes _) as [d|]; [|done]. injection Hn as <-. constructor; auto; done.
  - destruct (bytes_okb frame); [|done]. destruct (dev_net frame _) as [[] d]; try done. injection Hn as <-. constructor; auto; done.
Qed.

Lemma next_verdict l v v' :
  next c l v = Some v' -> one_winner v ->
  one_winner v' /\ (forall x, verdict v = Some x -> verdict v' = Some x).
Proof.
  intros Hn. destruct (outer l) eqn:Eo.
  { intros Hw. destruct (next_outer l v v' Eo Hn). unfold one_winner, verdict, publishers in *.
    by rewrite o_vcpus0, o_watchdog0, o_done0, o_reason0, o_code0. }
  revert Hn. destruct l as [i r| | |cmd|ns|bytes| |a bytes|frame]; try discriminate Eo; cbn; clear Eo.
  - destruct (vcpus v !! i) as [t|] eqn:Et; [|done]. destruct (may_step t v); [|done].
    destruct (vcpu_step c i r t (sh v)) as [[t' s']|] eqn:Es; [|done]. intros [= <-].
    apply vcpu_step_inv in Es as [Es _]. destruct (insert_split i _ t t' Et) as (l1 & l2 & E1 & E2).
    apply (move_verdict (omap (fun t => pub (at_ t)) l1) (omap (fun t => pub (at_ t)) l2 ++ option_list (pubw (watchdog v)))
      (pub (at_ t)) (pub (at_ t')) (sh v) s'); try done; try by eapply pc_finish.
    + unfold publishers. rewrite E1, omap_app. cbn. destruct (pub (at_ t)); cbn; by rewrite <- app_assoc.
    + unfold publishers. cbn [vcpus watchdog]. rewrite E2, omap_app. cbn. destruct (pub (at_ t')); cbn; by rewrite <- app_assoc.
  - destruct (watchdog_step c (watchdog v) (sh v)) as [[w s']|] eqn:Es; [|done]. intros [= <-].
    apply (move_verdict (omap (fun t => pub (at_ t)) (vcpus v)) [] (pubw (watchdog v)) (pubw w) (sh v) s'); try done;
      [by unfold publishers; rewrite app_nil_r..|by apply watchdog_finish].
  - destruct (timer_step (timer v) (sh v)) as [[p s']|] eqn:Es; [|done]. intros [= <-].
    apply (move_verdict (publishers v) [] None None (sh v) s'); try done; [by rewrite app_nil_r..|by eapply timer_finish].
Qed.

Lemma steps_verdict v v' :
  steps c v v' -> one_winner v -> one_winner v' /\ (forall x, verdict v = Some x -> verdict v' = Some x).
Proof.
  induction 1 as [v|v1 v2 v3 [l Hl] Hr IH]; intros Hw; [done|].
  destruct (next_verdict l v1 v2 Hl Hw) as [Hw2 H2']. destruct (IH Hw2) as [? H3']. split; [done|]. auto.
Qed.

Lemma launch_publishers control d : publishers (launch c control d) = [].
Proof.
  unfold publishers, launch. cbn [vcpus watchdog pubw option_list]. rewrite app_nil_r.
  by induction (Z.to_nat (cpus c)).
Qed.
Lemma launch_one_winner control d : one_winner (launch c control d).
Proof. unfold one_winner. rewrite launch_publishers. cbn. split; [lia|done]. Qed.

(** ** The end of RunVm *)

(** How far the thread of processor 0 is beyond its loop. *)
Definition stage (p : pc) : nat :=
  match p with
  | Finish _ _ Join => 1 | Publish _ _ Join | Kick Join => 2 | JoinCpus => 3 | SetExited => 4 | StopInput => 5
  | JoinInput => 6 | StopWatchdog => 7 | JoinWatchdog => 8 | StopTimer => 9 | JoinTimer => 10 | MakeResult => 11
  | Finish _ _ (Rethrow _) | Publish _ _ (Rethrow _) | Kick (Rethrow _) | Exited _ | Done _ | Threw _ => 12
  | _ => 0
  end%nat.

Definition result_of s (console : list Z) : run_vm_result :=
  mkResult (final_exit_reason s) (final_exit_code s) (if 0xFFFFFFFF <? runs s then 0xFFFFFFFF else runs s) console.

(** The exception RunVm ends with. *)
Definition fault s (msg : string) : Prop :=
  (error_message s <> EmptyString /\ msg = error_message s) \/
  (error_message s = EmptyString /\ watchdog_timeout s = true /\ msg = timed_out c).

Definition ending_ok (p : pc) s : Prop :=
  match p with
  | Done r => (exists console, r = result_of s console) /\ error_message s = EmptyString /\ watchdog_timeout s = false
  | Finish _ _ (Rethrow msg) | Publish _ _ (Rethrow msg) | Kick (Rethrow msg) | Exited msg | Threw msg => fault s msg
  | _ => True
  end.

(** What has been stopped and joined when the main thread is at [p]. *)
Record main_ok (p : pc) s (rest : list vcpu) (w : watchdog_pc) (tm : timer_pc) : Prop := {
  m_done : (2 <= stage p)%nat -> vm_done s = true;
  m_cpus : (4 <= stage p)%nat -> forallb returned rest = true;
  m_input : (6 <= stage p)%nat -> input_done s = true;
  m_input_returned : (7 <= stage p)%nat -> input_returned s = true;
  m_watchdog_done : (8 <= stage p)%nat -> watchdog_done s = true;
  m_watchdog : (9 <= stage p)%nat -> w = WReturned;
  m_timer_done : (10 <= stage p)%nat -> timer_done s = true;
  m_timer : (11 <= stage p)%nat -> tm = TReturned;
  m_ending : ending_ok p s }.

Definition joins v : Prop := exists t0 rest,
  vcpus v = t0 :: rest /\ Forall (fun t => stage (at_ t) = 0%nat) rest /\ main_ok (at_ t0) (sh v) rest (watchdog v) (timer v).

(** Flags are only ever raised, and the result of an ended run no longer changes. *)
Record flags_kept s s' : Prop := {
  f_done : vm_done s = true -> vm_done s' = true;
  f_input : input_done s' = input_done s \/ input_done s' = true;
  f_watchdog : watchdog_done s = true -> watchdog_done s' = true;
  f_timer : timer_done s = true -> timer_done s' = true }.

Lemma set_state_eq {A} (f : shared -> A) state s :
  (forall x, f (s <| control := x |>) = f s) -> f (set_state state s) = f s.
Proof. intros Hf. unfold set_state. by destruct (control s) as [[]|]. Qed.

Lemma main_ok_ext p s s' rest w tm :
  main_ok p s rest w tm -> vm_done s' = vm_done s -> input_done s' = input_done s ->
  (input_returned s = true -> input_returned s' = true) -> watchdog_done s' = watchdog_done s ->
  timer_done s' = timer_done s -> ending_ok p s' -> main_ok p s' rest w tm.
Proof. intros [] E1 E2 E3 E4 E5 E6. constructor; rewrite ?E1, ?E2, ?E4, ?E5; auto. Qed.

Ltac main_cases :=
  constructor; cbn [stage ending_ok]; rewrite ?(set_state_eq vm_done), ?(set_state_eq input_done), ?(set_state_eq watchdog_done),
    ?(set_state_eq timer_done), ?(set_state_eq input_returned) by done; intros; try lia; try done; auto.

Lemma fault_set_state state s msg : fault s msg -> fault (set_state state s) msg.
Proof.
  unfold fault. by rewrite (set_state_eq error_message), (set_state_eq watchdog_timeout).
Qed.

Lemma main_step r t s p s' rest w tm :
  pc_step c 0 r t s = Some (p, s') -> main_ok (at_ t) s rest w tm ->
  (at_ t = JoinCpus -> forallb returned rest = true) -> (at_ t = JoinInput -> input_returned s = true) -> (at_ t = JoinWatchdog -> w = WReturned) ->
  (at_ t = JoinTimer -> tm = TReturned) -> main_ok p s' rest w tm.
Proof.
  pc_cases t; intros [M1 M2 M3 M4 M5 M6 M7 M8 M9] J1 J2 J3 J4; cbn [at_ stage ending_ok] in *; main_cases.
  all: try solve [apply M1; lia | apply M2; lia | apply M3; lia | apply M4; lia | apply M5; lia].
  all: repeat match goal with
    | E : (_ && _) = true |- _ => apply andb_true_iff in E as [? ?]
    | E : negb _ = true |- _ => apply negb_true_iff in E
    | E : negb _ = false |- _ => apply negb_false_iff in E
    | E : String.eqb _ _ = true |- _ => apply String.eqb_eq in E
    | E : String.eqb _ _ = false |- _ => apply String.eqb_neq in E
    end.
  - by right.
  - by left.
  - split; [by eexists; unfold result_of; case_match|]. by rewrite Heqb0, andb_true_r in Heqb.
  - split; [by eexists; unfold result_of; case_match|]. by rewrite Heqb0, andb_true_r in Heqb.
  - by apply fault_set_state.
Qed.

(** The other processors stay outside the main thread's part and stop at [Returned]. *)
Lemma other_step i r t s p s' :
  pc_step c (S i) r t s = Some (p, s') -> stage (at_ t) = 0%nat ->
  stage p = 0%nat /\ at_ t <> Returned /\ (vm_done s = true -> vm_done s' = true).
Proof.
  pc_cases t; cbn [stage at_]; intros Hs; try discriminate; split_and!; try done.
  all: by rewrite (set_state_eq vm_done).
Qed.

Lemma watchdog_flags w s w' s' :
  watchdog_step c w s = Some (w', s') ->
  w <> WReturned /\ (vm_done s = true -> vm_done s' = true) /\ input_done s' = input_done s /\ input_returned s' = input_returned s /\
  watchdog_done s' = watchdog_done s /\ timer_done s' = timer_done s.
Proof.
  destruct w; cbn; try done; intros [= Hw];
    repeat match goal with Hw : context [if ?b then _ else _] |- _ => destruct b eqn:? end;
    try (injection Hw as <- <-); subst; rewrite ?(set_state_eq vm_done), ?(set_state_eq input_done), ?(set_state_eq input_returned),
      ?(set_state_eq watchdog_done), ?(set_state_eq timer_done) by done; done.
Qed.

Lemma timer_effect p s p' s' :
  timer_step p s = Some (p', s') -> p <> TReturned /\ exists d, s' = s <| devices := d |>.
Proof.
  destruct p; cbn; try (intros [= <- <-]; split; [done|exists (devices s); by destruct s]); try done.
  destruct (dev_tick _) as [[] d]; [|done..]. intros [= <- <-]. split; [done|by exists d].
Qed.

Lemma main_ok_early p s s' rest rest' w w' tm tm' n :
  main_ok p s rest w tm -> (stage p <= n)%nat -> (n <= 11)%nat ->
  (vm_done s = true -> vm_done s' = true) ->
  ((4 <= n)%nat -> rest' = rest /\ input_done s' = input_done s /\ input_returned s' = input_returned s /\
     watchdog_done s' = watchdog_done s) ->
  ((9 <= n)%nat -> w' = w /\ timer_done s' = timer_done s) -> ((11 <= n)%nat -> tm' = tm) ->
  main_ok p s' rest' w' tm'.
Proof.
  intros [M1 M2 M3 M4 M5 M6 M7 M8 M9] Hn Hle Hd H4 H9 H11. constructor.
  - auto.
  - intros Hs. destruct H4 as (-> & _); [lia|]. auto.
  - intros Hs. destruct H4 as (_ & -> & _); [lia|]. auto.
  - intros Hs. destruct H4 as (_ & _ & -> & _); [lia|]. auto.
  - intros Hs. destruct H4 as (_ & _ & _ & ->); [lia|]. auto.
  - intros Hs. destruct H9 as (-> & _); [lia|]. auto.
  - intros Hs. destruct H9 as (_ & ->); [lia|]. auto.
  - intros Hs. rewrite H11 by lia. auto.
  - destruct p; try done; first [destruct k; cbn in *; try done; lia | cbn in *; lia].
Qed.

Lemma ending_same p s s' :
  error_message s' = error_message s -> watchdog_timeout s' = watchdog_timeout s ->
  final_exit_reason s' = final_exit_reason s -> final_exit_code s' = final_exit_code s -> runs s' = runs s ->
  ending_ok p s -> ending_ok p s'.
Proof.
  intros Ee Ew Er Ec En. destruct p; try done; try (destruct k; try done); cbn; unfold fault, result_of; rewrite ?Ee, ?Ew, ?Er, ?Ec, ?En;
    try done; intros Hf; exact Hf.
Qed.

Lemma next_joins l v v' : next c l v = Some v' -> joins v -> joins v'.
Proof.
  intros Hn (t0 & rest & Ev & Hr & Hm). destruct (outer l) eqn:Eo.
  { destruct (next_outer l v v' Eo Hn). exists t0, rest. rewrite o_vcpus0, o_watchdog0, o_timer0. do 2 (split; [done|]).
    apply (main_ok_ext _ _ _ _ _ _ Hm); try done. by apply (ending_same _ (sh v)), Hm. }
  destruct l as [i r| | |cmd|ns|bytes| |a bytes|frame]; try discriminate Eo; cbn in Hn.
  - rewrite Ev in Hn. destruct i as [|i]; cbn [lookup list_lookup] in Hn.
    + destruct (may_step t0 v) eqn:Em; [|done]. destruct (vcpu_step c 0 r t0 (sh v)) as [[t' s']|] eqn:Es; [|done].
      injection Hn as <-. apply vcpu_step_inv in Es as [Es _]. exists t', rest. split; [done|]. split; [done|].
      unfold may_step in Em. rewrite Ev in Em.
      apply (main_step r t0 (sh v)); try done; intros Ea; rewrite Ea in Em; cbn in Em; [done|done|by destruct (watchdog v)|by destruct (timer v)].
    + destruct (rest !! i) as [t|] eqn:Et; [|done]. destruct (may_step t v); [|done].
      destruct (vcpu_step c (S i) r t (sh v)) as [[t' s']|] eqn:Es; [|done]. injection Hn as <-.
      apply vcpu_step_inv in Es as [Es _]. pose proof (Forall_lookup_1 _ _ _ _ Hr Et) as H0'. cbn in H0'.
      apply other_step in Es as (Hs' & Hnr & Hd); [|done]. exists t0, (<[i := t']> rest). split; [done|].
      split; [by apply Forall_insert|]. assert (Hst : (stage (at_ t0) <= 3)%nat).
      { apply Nat.nlt_ge. intros Hlt. pose proof (m_cpus _ _ _ _ _ Hm Hlt) as Ha. rewrite forallb_forall in Ha.
        specialize (Ha t (proj1 (list_elem_of_In _ _) (list_elem_of_lookup_2 _ _ _ Et))). unfold returned in Ha. by destruct (at_ t). }
      eapply (main_ok_early _ _ _ _ _ _ _ _ _ 3); [exact Hm|done|lia|done|lia..].
  - destruct (watchdog_step c (watchdog v) (sh v)) as [[w s']|] eqn:Es; [|done]. injection Hn as <-.
    apply watchdog_flags in Es as (Hw & Hd & E1 & E2 & E3 & E4). exists t0, rest. do 2 (split; [done|]).
    assert (Hst : (stage (at_ t0) <= 8)%nat) by (apply Nat.nlt_ge; intros Hlt; by apply Hw, (m_watchdog _ _ _ _ _ Hm)).
    eapply (main_ok_early _ _ _ _ _ _ _ _ _ 8); [exact Hm|done|lia|done|done|lia..].
  - destruct (timer_step (timer v) (sh v)) as [[p s']|] eqn:Es; [|done]. injection Hn as <-.
    apply timer_effect in Es as (Hw & d & ->). exists t0, rest. do 2 (split; [done|]).
    assert (Hst : (stage (at_ t0) <= 10)%nat) by (apply Nat.nlt_ge; intros Hlt; by apply Hw, (m_timer _ _ _ _ _ Hm)).
    eapply (main_ok_early _ _ _ _ _ _ _ _ _ 10); [exact Hm|done|lia|done|done|done|lia].
Qed.

Lemma steps_joins v v' : steps c v v' -> joins v -> joins v'.
Proof. induction 1 as [v|v1 v2 v3 [l Hl] Hr IH]; [done|]. intros Hj. by eapply IH, next_joins. Qed.

Lemma launch_joins control d : 1 <= cpus c -> joins (launch c control d).
Proof.
  intros Hc. unfold joins, launch. cbn [vcpus]. destruct (Z.to_nat (cpus c)) as [|n] eqn:En; [lia|].
  exists (mkThread Top false None), (repeat (mkThread Top false None) n). split; [done|].
  split; [by apply Forall_forall; intros t ->%list_elem_of_In%repeat_spec|].
  by constructor; cbn; try lia.
Qed.

Definition main_pc v : option pc := at_ <$> head (vcpus v).

Lemma error_kept_step l v v' :
  next c l v = Some v' -> error_message (sh v) <> EmptyString -> error_message (sh v') = error_message (sh v).
Proof.
  intros Hn He. destruct (outer l) eqn:Eo; [by destruct (next_outer l v v' Eo Hn)|].
  destruct l as [i r| | |cmd|ns|bytes| |a bytes|frame]; try discriminate Eo; cbn in Hn; clear Eo.
  - destruct (vcpus v !! i) as [t|]; [|done]. destruct (may_step t v); [|done].
    destruct (vcpu_step c i r t (sh v)) as [[t' s']|] eqn:Es; [|done]. injection Hn as <-. cbn [sh].
    apply vcpu_step_inv in Es as [Es _]. revert Es. generalize (at_ t') as p'. intros p'.
    pc_cases t; rewrite ?(set_state_eq error_message) by done; try done.
    apply String.eqb_eq in Heqb. by rewrite Heqb in He.
  - destruct (watchdog v), (vm_done (sh v)) eqn:?; cbn in Hn; try done; rewrite ?Heqb in Hn; injection Hn as <-;
      cbn [sh]; by rewrite ?(set_state_eq error_message).
  - destruct (timer_step (timer v) (sh v)) as [[p s']|] eqn:Es; [|done]. injection Hn as <-.
    by apply timer_effect in Es as (_ & d & ->).
Qed.

Lemma error_kept v v' : steps c v v' -> error_message (sh v) <> EmptyString -> error_message (sh v') = error_message (sh v).
Proof.
  induction 1 as [v|v1 v2 v3 [l Hl] Hr IH]; intros He; [done|].
  pose proof (error_kept_step l v1 v2 Hl He) as E. rewrite IH; by rewrite E.
Qed.

(** C5.  How RunVm ends, over all interleavings of the processors, the watchdog, the timer
    and the host's commands.  A result is returned only when every other thread has
    returned, no error was recorded and the time was not exceeded; its reason and code are
    those of the first call of [finish] to take the exchange, at whatever moment that was
    seen, and no later one changes them.  An exception carries the first recorded error,
    or the time-out when there is none. *)
Theorem run_outcome control d v v' p :
  1 <= cpus c -> steps c (launch c control d) v -> steps c v v' -> main_pc v' = Some p ->
  match p with
  | Done r =>
      verdict v' = Some (exitReason r, exitReasonCode r) /\
      (forall x, verdict v = Some x -> x = (exitReason r, exitReasonCode r)) /\
      error_message (sh v') = EmptyString /\ watchdog_timeout (sh v') = false /\
      forallb returned (tl (vcpus v')) = true /\ watchdog v' = WReturned /\ timer v' = TReturned
  | Threw msg =>
      fault (sh v') msg /\ (error_message (sh v) <> EmptyString -> msg = error_message (sh v)) /\
      forallb returned (tl (vcpus v')) = true /\ watchdog v' = WReturned /\ timer v' = TReturned
  | _ => True
  end.
Proof.
  intros Hc H1' H2' Hp. pose proof (steps_joins _ _ H1' (launch_joins control d Hc)) as Hj.
  apply (steps_joins _ _ H2') in Hj as (t0 & rest & Ev & Hr & Hm).
  destruct (steps_verdict _ _ H1' (launch_one_winner control d)) as [Hw _].
  destruct (steps_verdict _ _ H2' Hw) as [Hw' Hk]. unfold main_pc in Hp. rewrite Ev in Hp. cbn in Hp. injection Hp as <-.
  rewrite Ev. cbn [tl]. pose proof (error_kept _ _ H2') as He. destruct (at_ t0) eqn:Ep; try done;
    destruct Hm as [M1 M2 M3 M4 M5 M6 M7 M8 M9]; cbn [stage ending_ok] in *.
  - destruct M9 as ([console ->] & Ee & Et).
    assert (Hv : verdict v' = Some (exitReason (result_of (sh v') console), exitReasonCode (result_of (sh v') console))).
    { unfold verdict, publishers. rewrite Ev, M6 by lia. cbn. rewrite Ep. cbn. rewrite app_nil_r.
      replace (omap (fun t => pub (at_ t)) rest) with (@nil (string * Z)); [by rewrite M1 by lia|].
      specialize (M2 ltac:(lia)). clear -M2. induction rest as [|t rest IH]; [done|]. cbn in M2.
      apply andb_true_iff in M2 as [Ht Hrest]. cbn. unfold returned in Ht. destruct (at_ t); try done. by apply IH. }
    split; [done|]. split; [|split_and!; auto with lia]. intros x Hx. apply Hk in Hx. congruence.
  - split; [done|]. split; [|split_and!; auto with lia]. intros Hne. rewrite <- He in Hne |- * by done.
    destruct M9 as [[_ ->]|(E & _)]; [done|]. congruence.
Qed.

(** ** The pause and halt counters *)

(** Between the two changes of [paused_count]; parked as well, unless about to leave. *)
Definition in_pause t : bool :=
  match at_ t with SetPaused _ | PauseCmd _ | PauseDone _ | PauseTimeout _ | LeavePause _ => true | _ => false end.
Definition parked t : bool := match at_ t with LeavePause _ => false | _ => in_pause t end.
(** In or around WHvRunVirtualProcessor. *)
Definition in_guest (p : pc) : bool :=
  match p with
  | PreRun | Running | Failed _ | CountRun _ | LeftGuest _ | CheckTimeout _ | Handle _ | CanceledTimeout | CanceledDone => true
  | _ => false
  end.
Definition counted_halt t : bool := locally_halted t && match at_ t with CountHalt _ => false | _ => true end.
Definition all_halted_pc (p : pc) : bool :=
  match p with Finish _ _ Loop | Publish _ _ Loop | Kick Loop => true | _ => false end.

Definition thread_ok t : Prop :=
  (locally_halted t = true -> in_guest (at_ t) = false) /\ (forall x, at_ t = CountHalt x -> locally_halted t = true).

Definition count (f : vcpu -> bool) (l : list vcpu) : nat := length (List.filter f l).

Lemma count_insert f (l : list vcpu) i t t' :
  l !! i = Some t -> (count f (<[i := t']> l) + Nat.b2n (f t) = count f l + Nat.b2n (f t'))%nat.
Proof.
  intros Ht. destruct (insert_split i l t t' Ht) as (l1 & l2 & -> & ->). unfold count.
  rewrite !List.filter_app, !length_app. cbn. destruct (f t), (f t'); cbn; lia.
Qed.
Lemma count_le f l : (count f l <= length l)%nat.
Proof. unfold count. apply List.filter_length_le. Qed.
Lemma count_all f l : count f l = length l -> forallb f l = true.
Proof.
  unfold count. induction l as [|t l IH]; [done|]. cbn. destruct (f t); cbn; [intros [= E]; by apply IH|].
  intros E. pose proof (List.filter_length_le f l). lia.
Qed.
Lemma all_count f l : forallb f l = true -> count f l = length l.
Proof.
  unfold count. induction l as [|t l IH]; [done|]. cbn. intros [Ht Hl]%andb_true_iff. rewrite Ht. cbn. f_equal. auto.
Qed.

(** What a step of a thread does to the counters and to its own part in them. *)
Definition counter_move (b b' : bool) (n n' : Z) : Prop :=
  (b' = b /\ n' = n) \/ (b = false /\ b' = true /\ n' = u32 (n + 1)) \/ (b = true /\ b' = false /\ n' = u32 (n - 1)).

Lemma counter_moves (f : vcpu -> bool) (l : list vcpu) i t t' n n' :
  l !! i = Some t -> Z.of_nat (length l) < 2 ^ 32 -> counter_move (f t) (f t') n n' -> n = Z.of_nat (count f l) ->
  n' = Z.of_nat (count f (<[i := t']> l)).
Proof.
  intros Ht Hl Hm ->. pose proof (count_insert f l i t t' Ht) as E. pose proof (count_le f (<[i := t']> l)) as Hle.
  rewrite length_insert in Hle. pose proof (count_le f l). unfold counter_move, u32 in Hm. change (2 ^ 32) with 4294967296 in *.
  destruct Hm as [[E1 ->]|[(E1 & E2 & ->)|(E1 & E2 & ->)]].
  - rewrite E1 in E. lia.
  - rewrite E1, E2 in E. cbn in E. rewrite Z.mod_small; lia.
  - rewrite E1, E2 in E. cbn in E. rewrite Z.mod_small; lia.
Qed.

Lemma step_paused i r t s t' s' :
  vcpu_step c i r t s = Some (t', s') -> counter_move (in_pause t) (in_pause t') (paused_count s) (paused_count s').
Proof.
  intros [Es _]%vcpu_step_inv. revert Es. unfold in_pause, counter_move. generalize (at_ t') as p'. intros p'.
  pc_cases t; rewrite ?(set_state_eq paused_count) by done; auto.
Qed.

Ltac locals_cases t t' :=
  intros [Es El]%vcpu_step_inv; unfold thread_ok, counted_halt, counter_move; unfold locals_step in El;
  destruct t' as [p' h' x']; cbn [at_ locally_halted last_exit_context] in *; revert El;
  revert Es; pc_cases t; cbn [at_ locally_halted last_exit_context]; intros [= -> ->].

Lemma step_thread_ok i r t s t' s' :
  vcpu_step c i r t s = Some (t', s') -> thread_ok t -> thread_ok t'.
Proof.
  locals_cases t t'; intros [H1' H2']; split; intros; cbn in *; try done; try congruence; auto.
  by rewrite orb_true_r.
Qed.

Lemma step_halted i r t s t' s' :
  vcpu_step c i r t s = Some (t', s') -> thread_ok t ->
  counter_move (counted_halt t) (counted_halt t') (halted_count s) (halted_count s') /\
  (counted_halt t = true -> counted_halt t' = true) /\
  (all_halted_pc (at_ t') = true ->
     all_halted_pc (at_ t) = true \/
     counted_halt t = false /\ counted_halt t' = true /\ u32 (halted_count s + 1) = cpus c).
Proof.
  locals_cases t t'; intros [H1' H2']; rewrite ?(set_state_eq halted_count), ?andb_true_r, ?andb_false_r by done.
  all: try (split_and!; [by left|done|by cbn; auto]).
  all: try (destruct locally_halted0; [by discriminate (H1' eq_refl)|]; cbn; split_and!; auto; done).
  all: rewrite (H2' _ eq_refl); split_and!; [by right; left|done|]; cbn; intros; try done.
  all: by right; split_and!; [..|apply Z.eqb_eq].
Qed.

Record counters_ok v : Prop := {
  k_paused : paused_count (sh v) = Z.of_nat (count in_pause (vcpus v));
  k_halted : halted_count (sh v) = Z.of_nat (count counted_halt (vcpus v));
  k_threads : Forall thread_ok (vcpus v);
  k_length : Z.of_nat (length (vcpus v)) = cpus c;
  k_hlt : existsb (fun t => all_halted_pc (at_ t)) (vcpus v) = true -> count counted_halt (vcpus v) = length (vcpus v) }.

Lemma counters_ext v v' :
  vcpus v' = vcpus v -> paused_count (sh v') = paused_count (sh v) -> halted_count (sh v') = halted_count (sh v) ->
  counters_ok v -> counters_ok v'.
Proof. intros E1 E2 E3 [K1 K2 K3 K4 K5]. by constructor; rewrite ?E1, ?E2, ?E3. Qed.

Lemma existsb_insert (f : vcpu -> bool) (l : list vcpu) i t t' :
  l !! i = Some t -> existsb f (<[i := t']> l) = true -> f t' = true \/ existsb f l = true.
Proof.
  intros Ht. destruct (insert_split i l t t' Ht) as (l1 & l2 & -> & ->). rewrite !existsb_app. cbn.
  destruct (existsb f l1), (f t'), (existsb f l2); cbn; auto. rewrite orb_true_r. auto.
Qed.

Lemma next_counters l v v' : cpus c < 2 ^ 32 -> next c l v = Some v' -> counters_ok v -> counters_ok v'.
Proof.
  intros Hc Hn HK. destruct (outer l) eqn:Eo; [destruct (next_outer l v v' Eo Hn); by apply (counters_ext v)|].
  destruct l as [i r| | |cmd|ns|bytes| |a bytes|frame]; try discriminate Eo; cbn in Hn; clear Eo.
  - destruct (vcpus v !! i) as [t|] eqn:Et; [|done]. destruct (may_step t v); [|done].
    destruct (vcpu_step c i r t (sh v)) as [[t' s']|] eqn:Es; [|done]. injection Hn as <-.
    destruct HK as [K1 K2 K3 K4 K5]. pose proof (Forall_lookup_1 _ _ _ _ K3 Et) as Ht.
    destruct (step_halted _ _ _ _ _ _ Es Ht) as (Hm & Hk & Hh).
    pose proof (counter_moves _ _ _ _ t' _ _ Et ltac:(lia) Hm K2) as Hcount.
    constructor; cbn [sh vcpus]; [..|by rewrite length_insert|].
    + eapply counter_moves; [exact Et|lia|by eapply step_paused|done].
    + done.
    + apply Forall_insert; [done|]. by eapply step_thread_ok.
    + intros He. pose proof (count_insert counted_halt _ _ _ t' Et) as Ec. pose proof (count_le counted_halt (<[i:=t']> (vcpus v))) as Hle.
      rewrite length_insert in Hle |- *. assert (Hold : existsb (fun t => all_halted_pc (at_ t)) (vcpus v) = true ->
        count counted_halt (<[i:=t']> (vcpus v)) = length (vcpus v)).
      { intros Ho. specialize (K5 Ho). destruct (counted_halt t) eqn:E0; [rewrite Hk in Ec by done|]; cbn in Ec; lia. }
      apply (existsb_insert _ _ _ _ t' Et) in He as [He|He]; [|by apply Hold]. destruct (Hh He) as [He2|(E1 & E2 & E3)].
      * apply Hold. apply existsb_exists. exists t. split; [|done]. by eapply list_elem_of_In, list_elem_of_lookup_2.
      * rewrite E1, E2 in Ec. cbn in Ec. rewrite K2 in E3. pose proof (count_le counted_halt (vcpus v)).
        unfold u32 in E3. rewrite Z.mod_small in E3; lia.
  - destruct (watchdog v), (vm_done (sh v)) eqn:?; cbn in Hn; try done; rewrite ?Heqb in Hn; injection Hn as <-;
      apply (counters_ext v); cbn [sh vcpus]; rewrite ?(set_state_eq paused_count), ?(set_state_eq halted_count); done.
  - destruct (timer_step (timer v) (sh v)) as [[p s']|] eqn:Es; [|done]. injection Hn as <-.
    apply timer_effect in Es as (_ & d & ->). by apply (counters_ext v).
Qed.
Lemma next_flags l v v' :
  next c l v = Some v' ->
  (vm_done (sh v) = true -> vm_done (sh v') = true) /\
  (watchdog_timeout (sh v) = true -> watchdog_timeout (sh v') = true) /\
  (match l with LCommand _ => False | _ => True end -> command (sh v') = command (sh v)).
Proof.
  assert (Hset : forall state s, command (set_state state s) = command s).
  { intros state s. unfold command, set_state. by destruct (control s) as [[]|] eqn:E; cbn; rewrite ?E. }
  intros Hn. destruct (outer l) eqn:Eo; [destruct (next_outer l v v' Eo Hn); split_and!; by rewrite ?o_done0, ?o_timeout0|].
  destruct l as [i r| | |cmd|ns|bytes| |a bytes|frame]; try discriminate Eo; cbn [next] in Hn; clear Eo.
  - destruct (vcpus v !! i) as [t|]; [|done]. destruct (may_step t v); [|done].
    destruct (vcpu_step c i r t (sh v)) as [[t' s']|] eqn:Es; [|done]. injection Hn as <-. cbn [sh].
    apply vcpu_step_inv in Es as [Es _]. revert Es. generalize (at_ t') as p'. intros p'.
    pc_cases t; rewrite ?(set_state_eq vm_done), ?(set_state_eq watchdog_timeout), ?Hset by done; done.
  - destruct (watchdog v), (vm_done (sh v)) eqn:?; cbn in Hn; try done; rewrite ?Heqb in Hn; injection Hn as <-; cbn [sh];
      rewrite ?(set_state_eq vm_done), ?(set_state_eq watchdog_timeout), ?Hset by done; done.
  - destruct (timer_step (timer v) (sh v)) as [[p s']|] eqn:Es; [|done]. injection Hn as <-.
    by apply timer_effect in Es as (_ & d & ->).
Qed.

Lemma parked_step i r t s t' s' :
  vcpu_step c i r t s = Some (t', s') -> parked t = true -> command s = kControlPause -> vm_done s = false ->
  watchdog_timeout s = false -> parked t' = true.
Proof.
  intros [Es _]%vcpu_step_inv. revert Es. unfold parked, in_pause. generalize (at_ t') as p'. intros p'.
  pc_cases t; try done; intros _ Hc; try congruence. rewrite Hc in Heqb. done.
Qed.

Definition is_command (l : label) : bool := match l with LCommand _ => true | _ => false end.

Lemma parked_stay ls : forall v v',
  exec c ls v = Some v' -> existsb is_command ls = false -> command (sh v) = kControlPause ->
  forallb parked (vcpus v) = true -> vm_done (sh v') = false -> watchdog_timeout (sh v') = false ->
  vm_done (sh v) = false /\ watchdog_timeout (sh v) = false /\ command (sh v') = kControlPause /\
  forallb parked (vcpus v') = true.
Proof.
  induction ls as [|l ls IH]; cbn; intros v v'; [by intros [= <-]|].
  destruct (next c l v) as [v1|] eqn:En; [|done]. intros He [Hl Hls]%orb_false_iff Hc Hp Hd Ht.
  destruct (next_flags l v v1 En) as (F1 & F2 & F3). rewrite <- F3 in Hc by by destruct l.
  assert (Hback : vm_done (sh v1) = false /\ watchdog_timeout (sh v1) = false ->
    vm_done (sh v) = false /\ watchdog_timeout (sh v) = false).
  { intros [E1 E2]. split; apply not_true_is_false; intros E; [apply F1 in E|apply F2 in E]; congruence. }
  assert (Hfl : vm_done (sh v1) = false /\ watchdog_timeout (sh v1) = false).
  { clear -He Hd Ht. revert v1 He. induction ls as [|l ls IH]; cbn; intros v1; [by intros [= ->]|].
    destruct (next c l v1) as [v2|] eqn:En; [|done]. intros [E1 E2]%IH. destruct (next_flags l v1 v2 En) as (F1 & F2 & _).
    split; apply not_true_is_false; intros E; [apply F1 in E|apply F2 in E]; congruence. }
  destruct (Hback Hfl) as [Hd0 Ht0]. do 2 (split; [done|]).
  enough (Hp1 : forallb parked (vcpus v1) = true) by (destruct (IH v1 v' He Hls Hc Hp1 Hd Ht) as (_ & _ & ? & ?); done).
  rewrite F3 in Hc by by destruct l. clear -En Hp Hc Hd0 Ht0.
  destruct (outer l) eqn:Eo; [destruct (next_outer l v v1 Eo En); by rewrite o_vcpus0|].
  destruct l as [i r| | |cmd|ns|bytes| |a bytes|frame]; try discriminate Eo; cbn in En; clear Eo.
  - destruct (vcpus v !! i) as [t|] eqn:Et; [|done]. destruct (may_step t v); [|done].
    destruct (vcpu_step c i r t (sh v)) as [[t' s']|] eqn:Es; [|done]. injection En as <-. cbn [vcpus].
    destruct (insert_split i _ t t' Et) as (l1 & l2 & E1 & ->). rewrite E1 in Hp. rewrite !forallb_app in *. cbn in *.
    apply andb_true_iff in Hp as [H1' [H2' H3']%andb_true_iff]. rewrite H1', H3', andb_true_r. cbn.
    by eapply parked_step.
  - destruct (watchdog_step c (watchdog v) (sh v)) as [[]|]; [|done]. by injection En as <-.
  - destruct (timer_step (timer v) (sh v)) as [[]|]; [|done]. by injection En as <-.
Qed.

Lemma launch_counters control d : 1 <= cpus c -> counters_ok (launch c control d).
Proof.
  intros Hc. assert (Hz : forall f n, f (mkThread Top false None) = false -> count f (repeat (mkThread Top false None) n) = 0%nat).
  { intros f n Hf. induction n as [|n IH]; [done|]. unfold count in *. cbn. by rewrite Hf. }
  unfold launch. constructor; cbn [sh vcpus]; rewrite ?(set_state_eq paused_count), ?(set_state_eq halted_count) by done.
  - by rewrite Hz.
  - by rewrite Hz.
  - apply Forall_forall. intros t ->%list_elem_of_In%repeat_spec. by split.
  - rewrite repeat_length. lia.
  - intros (t & ->%repeat_spec & Ht)%existsb_exists. done.
Qed.

Lemma steps_counters v v' : cpus c < 2 ^ 32 -> steps c v v' -> counters_ok v -> counters_ok v'.
Proof. intros Hc. induction 1 as [v|v1 v2 v3 [l Hl] Hr IH]; [done|]. intros Hj. by eapply IH, next_counters. Qed.

(** C7.  The pause protocol and the end of a halted machine.  In every reachable state
    [paused_count] is the number of processors in the pause section and [halted_count]
    that of the processors halted for good.  A processor goes on to announce Paused only
    when, at its increment of [paused_count], all of them were in the section; the store of
    the state that follows is a later step, and by then a processor may have left
    ([Demo.control_word_races]).  Once all are parked there they stay, whatever the
    threads do, until the host writes another command, the machine is done or its time is
    over.  The run is ended as "hlt" only with every processor halted. *)
Theorem pause_protocol control d v :
  1 <= cpus c < 2 ^ 32 -> steps c (launch c control d) v ->
  paused_count (sh v) = Z.of_nat (count in_pause (vcpus v)) /\
  halted_count (sh v) = Z.of_nat (count counted_halt (vcpus v)) /\
  (forall i r v1 at0, (at_ <$> vcpus v !! i) = Some (EnterPause at0) -> next c (LCpu i r) v = Some v1 ->
     (at_ <$> vcpus v1 !! i) = Some (SetPaused at0) -> forallb in_pause (vcpus v1) = true) /\
  (forall ls v1, exec c ls v = Some v1 -> existsb is_command ls = false -> command (sh v) = kControlPause ->
     forallb parked (vcpus v) = true -> vm_done (sh v1) = false -> watchdog_timeout (sh v1) = false ->
     forallb parked (vcpus v1) = true) /\
  (forall t reason code, t ∈ vcpus v -> at_ t = Finish reason code Loop -> forallb locally_halted (vcpus v) = true).
Proof.
  intros [Hc1 Hc2] Hs. pose proof (steps_counters _ _ Hc2 Hs (launch_counters control d Hc1)) as HK.
  destruct HK as [K1 K2 K3 K4 K5]. split_and!; [done|done|..].
  - intros i r v1 at0 Hi Hn Hi'. pose proof (next_counters _ _ _ Hc2 Hn ltac:(by constructor)) as HK1.
    apply count_all. apply Nat2Z.inj. rewrite (k_length _ HK1), <- (k_paused _ HK1).
    cbn in Hn. destruct (vcpus v !! i) as [t|] eqn:Et; [|done]. destruct (may_step t v); [|done].
    destruct (vcpu_step c i r t (sh v)) as [[t' s']|] eqn:Es; [|done]. injection Hn as <-. cbn in Hi', Hi |- *.
    rewrite list_lookup_insert_eq in Hi' by by eapply lookup_lt_Some. injection Hi as Hi. injection Hi' as Hi'.
    apply vcpu_step_inv in Es as [Es _]. rewrite Hi' in Es. unfold pc_step in Es. rewrite Hi in Es.
    destruct (Z.eqb_spec (u32 (paused_count (sh v) + 1)) (cpus c)) as [E|E]; [|by injection Es]. by injection Es as <-.
  - intros ls v1 He Hls Hc Hp Hd Ht. by eapply parked_stay.
  - intros t reason code Ht Ha. assert (E : existsb (fun t => all_halted_pc (at_ t)) (vcpus v) = true).
    { apply existsb_exists. exists t. split; [by apply list_elem_of_In|]. by rewrite Ha. }
    apply K5, count_all in E. rewrite forallb_forall in E |- *. intros u Hu. specialize (E u Hu).
    by apply andb_true_iff in E as [? _].
Qed.

(** ** Shutting down *)

(** Steps left for a processor's thread once [vm_done] is set. *)
Definition rank (p : pc) : nat :=
  match p with
  | Done _ | Threw _ => 0 | Exited _ => 1
  | Kick (Rethrow _) => 2 | Publish _ _ (Rethrow _) => 3 | Finish _ _ (Rethrow _) => 4
  | MakeResult => 5 | JoinTimer => 6 | StopTimer => 7 | JoinWatchdog => 8 | StopWatchdog => 9 | JoinInput => 10
  | StopInput => 11 | SetExited => 12 | JoinCpus => 13 | Kick Join => 14 | Publish _ _ Join => 15 | Finish _ _ Join => 16
  | Returned => 17 | Top => 18
  | Kick Return => 18 | Publish _ _ Return => 19 | Finish _ _ Return => 20
  | Kick Loop => 19 | Publish _ _ Loop => 20 | Finish _ _ Loop => 21
  | CanceledDone => 19 | SetStopping => 21 | Record_ _ => 21 | Raise _ => 22 | CountHalt _ => 22
  | CanceledTimeout => 23 | Failed _ => 23 | Handle _ => 24 | CheckTimeout _ => 25 | LeftGuest _ => 26 | CountRun _ => 27
  | Running => 28 | PreRun => 29 | Dispatch => 30 | SetRunning => 31 | AfterPauseDone => 32 | AfterPause => 33
  | Extend _ => 34 | LeavePause _ => 35 | PauseDone _ => 36 | PauseCmd _ => 37 | PauseTimeout _ => 38
  | SetPaused _ => 38 | EnterPause _ => 39 | PauseClock => 40 | ReadCommand => 41
  end%nat.
Definition rankw (w : watchdog_pc) : nat :=
  match w with
  | WReturned => 0 | WKick true => 1 | WTop => 1 | WTimeout => 2 | WKick false => 2 | WPublish => 2 | WFinish => 3
  | WCompare _ => 3 | WStopping => 4 | WDeadline => 4 | WCommand => 5
  end%nat.
(** While the watchdog has not been told to stop it may go round its loop for ever, but once
    it is about to notify the processors it returns. *)
Definition rankl (w : watchdog_pc) : nat :=
  match w with WReturned => 6 | WKick true => 7 | WPublish | WTimeout => 8 | _ => 9 end%nat.
Definition rankt (p : timer_pc) : nat := match p with TReturned => 0 | TTop => 1 | TTick => 2 | TCommand => 3 | TDone => 4 end%nat.

(** The steps left: the watchdog and the timer count for a constant until they are told to stop. *)
Definition left_ v : nat :=
  (sum_list (map (fun t => rank (at_ t)) (vcpus v)) +
   (if watchdog_done (sh v) then rankw (watchdog v) else rankl (watchdog v)) +
   (if timer_done (sh v) then rankt (timer v) else 5))%nat.

(** About to call [cancel_all] at the end of a [finish], or of the watchdog. *)
Definition notifies (p : pc) : bool := match p with Publish _ _ _ | Kick _ => true | _ => false end.
Definition notifiesw (w : watchdog_pc) : bool := match w with WPublish | WKick true => true | _ => false end.

(** The threads RunVm waits for. *)
Definition awaited (l : label) v : bool :=
  match l with
  | LCpu _ _ => true
  | LWatchdog => watchdog_done (sh v) || notifiesw (watchdog v)
  | LTimer => timer_done (sh v)
  | _ => false
  end.

(** A step that needs nothing of the guest: a run of it ends only because it was cancelled. *)
Definition prompt (l : label) v : bool :=
  match l with
  | LCpu i r =>
      match vcpus v !! i with
      | Some t => if is_running t then is_canceled r && nth i (cancels (sh v)) false else true
      | None => false
      end
  | _ => true
  end.

Definition ended v : Prop := exists p, main_pc v = Some p /\ match p with Done _ | Threw _ => True | _ => False end.

Lemma pc_rank i r t s p s' :
  pc_step c i r t s = Some (p, s') -> vm_done s = true ->
  (rank p < rank (at_ t))%nat /\ vm_done s' = true /\
  (watchdog_done s' = watchdog_done s \/ watchdog_done s' = true) /\
  (timer_done s' = timer_done s \/ timer_done s' = true).
Proof.
  pc_cases t; intros Hd; rewrite ?(set_state_eq vm_done), ?(set_state_eq watchdog_done), ?(set_state_eq timer_done) by done;
    cbn [rank at_]; try congruence; split_and!; auto; lia.
Qed.

Lemma sum_insert (l : list vcpu) i t t' :
  l !! i = Some t ->
  (sum_list (map (fun t => rank (at_ t)) (<[i := t']> l)) + rank (at_ t) =
   sum_list (map (fun t => rank (at_ t)) l) + rank (at_ t'))%nat.
Proof.
  intros Ht. destruct (insert_split i l t t' Ht) as (l1 & l2 & -> & ->).
  rewrite !map_app, !sum_list_with_app. cbn. lia.
Qed.

Lemma rankw_le w : (rankw w <= 5)%nat.
Proof. destruct w; cbn; try lia. destruct returns; lia. Qed.
Lemma rankl_ge w : (6 <= rankl w <= 9)%nat.
Proof. destruct w; cbn; try lia. destruct returns; lia. Qed.
Lemma rankt_le p : (rankt p <= 4)%nat.
Proof. destruct p; cbn; lia. Qed.

Lemma watchdog_rank w s w' s' :
  watchdog_step c w s = Some (w', s') -> vm_done s = true ->
  (watchdog_done s = true -> (rankw w' < rankw w)%nat) /\
  (watchdog_done s = false -> (rankl w' + Nat.b2n (notifiesw w) <= rankl w)%nat).
Proof.
  intros Es Hd. destruct w; cbn in Es; rewrite ?Hd in Es; try done; injection Es as <- <-;
    (split; intros Hw; rewrite ?Hw; repeat case_match; cbn; lia).
Qed.

Lemma next_left l v v' :
  next c l v = Some v' -> vm_done (sh v) = true -> (left_ v' + Nat.b2n (awaited l v) <= left_ v)%nat.
Proof.
  intros Hn Hd. unfold left_. destruct (outer l) eqn:Eo.
  { destruct (next_outer l v v' Eo Hn). rewrite o_vcpus0, o_watchdog0, o_timer0, o_wdone0, o_tdone0.
    destruct l; try discriminate Eo; cbn; lia. }
  destruct l as [i r| | |cmd|ns|bytes| |a bytes|frame]; try discriminate Eo; cbn in Hn; cbn [awaited]; clear Eo.
  - destruct (vcpus v !! i) as [t|] eqn:Et; [|done]. destruct (may_step t v); [|done].
    destruct (vcpu_step c i r t (sh v)) as [[t' s']|] eqn:Es; [|done]. injection Hn as <-. cbn [sh vcpus watchdog timer].
    apply vcpu_step_inv in Es as [Es _]. destruct (pc_rank _ _ _ _ _ _ Es Hd) as (Hr & _ & Hw & Ht).
    pose proof (sum_insert _ _ _ t' Et). pose proof (rankw_le (watchdog v)). pose proof (rankl_ge (watchdog v)).
    pose proof (rankt_le (timer v)). cbn [Nat.b2n].
    destruct Hw as [->| ->], Ht as [->| ->], (watchdog_done (sh v)), (timer_done (sh v)); lia.
  - destruct (watchdog_step c (watchdog v) (sh v)) as [[w s']|] eqn:Es; [|done]. injection Hn as <-. cbn [sh vcpus watchdog timer].
    pose proof (watchdog_flags _ _ _ _ Es) as (_ & _ & _ & _ & E1 & E2). rewrite E1, E2.
    destruct (watchdog_rank _ _ _ _ Es Hd) as [W1 W2].
    destruct (watchdog_done (sh v)); cbn [orb Nat.b2n]; [specialize (W1 eq_refl)|specialize (W2 eq_refl)]; lia.
  - destruct (timer_step (timer v) (sh v)) as [[p s']|] eqn:Es; [|done]. injection Hn as <-. cbn [sh vcpus watchdog timer].
    pose proof (timer_effect _ _ _ _ Es) as (_ & d & E). assert (E1 : watchdog_done s' = watchdog_done (sh v)) by by rewrite E.
    assert (E2 : timer_done s' = timer_done (sh v)) by by rewrite E. rewrite E1, E2.
    destruct (timer_done (sh v)) eqn:Et; cbn [Nat.b2n]; [|lia]. enough (rankt p < rankt (timer v))%nat by lia.
    clear -Es Hd Et. destruct (timer v); cbn in Es; rewrite ?Hd, ?Et in Es; try done; try (injection Es as <- <-);
      repeat case_match; cbn; try lia; try done. injection Es as <- <-. cbn. lia.
Qed.

(** ** Cancellations *)

(** From here a thread can enter WHvRunVirtualProcessor without seeing [vm_done] first. *)
Definition may_run (p : pc) : bool :=
  match p with
  | ReadCommand | PauseClock | EnterPause _ | SetPaused _ | PauseCmd _ | PauseDone _ | PauseTimeout _
  | LeavePause _ | Extend _ | AfterPause | AfterPauseDone | SetRunning | Dispatch | PreRun | Running => true
  | _ => false
  end.
Definition notifying v : Prop :=
  (exists i t, vcpus v !! i = Some t /\ notifies (at_ t) = true) \/ notifiesw (watchdog v) = true.

(** Once the machine is done, every processor that can still run the guest has a
    cancellation pending, or a thread is about to cancel them all. *)
Definition cancels_ok v : Prop :=
  length (cancels (sh v)) = length (vcpus v) /\
  (vm_done (sh v) = true -> notifying v \/
     forall i t, vcpus v !! i = Some t -> may_run (at_ t) = true -> nth i (cancels (sh v)) false = true).

Definition cancel_move (i : nat) (t : vcpu) (p : pc) (s s' : shared) : Prop :=
  (cancels s' = cancels s /\ (notifies (at_ t) = true -> notifies p = true)) \/
  (cancels s' = map (fun _ => true) (cancels s)) \/
  (cancels s' = <[i := false]> (cancels s) /\ may_run p = false /\ notifies (at_ t) = false).

Lemma pc_cancels i r t s p s' :
  cancel_sticks c = true -> pc_step c i r t s = Some (p, s') ->
  cancel_move i t p s s' /\
  (vm_done s' = true -> vm_done s = false -> notifies p = true) /\
  (vm_done s = true -> may_run p = true -> may_run (at_ t) = true).
Proof.
  intros Hc. unfold cancel_move. pc_cases t; rewrite ?(set_state_eq cancels), ?(set_state_eq vm_done) by done; cbn [at_];
    unfold run_begins, run_ends; cbn; rewrite ?Hc; repeat case_match;
    (split; [first [left; split; done | right; left; done | right; right; split_and!; done]
            | split; intros; solve [done | congruence]]).
Qed.

Lemma nth_map_true (l : list bool) i : (i < length l)%nat -> nth i (map (fun _ => true) l) false = true.
Proof.
  intros Hi. rewrite (nth_indep _ false true) by (by rewrite length_map). exact (map_nth (fun _ : bool => true) l true i).
Qed.

Lemma nth_insert_ne (l : list bool) i j b : i <> j -> nth j (<[i := b]> l) false = nth j l false.
Proof. intros Hne. rewrite !nth_lookup. by rewrite list_lookup_insert_ne. Qed.

Lemma watchdog_cancels w s w' s' :
  watchdog_step c w s = Some (w', s') ->
  (cancels s' = cancels s /\ (notifiesw w = true -> notifiesw w' = true) \/ cancels s' = map (fun _ => true) (cancels s)) /\
  (vm_done s' = true -> vm_done s = false -> notifiesw w' = true).
Proof.
  destruct w; cbn; intros Hw; try discriminate Hw;
    repeat match goal with Hw : context [if ?b then _ else _] |- _ => destruct b eqn:? end;
    injection Hw as <- <-; rewrite ?(set_state_eq cancels), ?(set_state_eq vm_done) by done;
    (split; [first [left; split; done | right; done] | unfold kick; cbn; intros; solve [done | congruence]]).
Qed.

Lemma cancels_all v : length (cancels (sh v)) = length (vcpus v) ->
  (exists l : list bool, length l = length (vcpus v) /\ cancels (sh v) = map (fun _ => true) l) -> cancels_ok v.
Proof.
  intros Hl (l & El & E). split; [done|]. intros _. right. intros i t Ht _. rewrite E. apply nth_map_true.
  rewrite El. by eapply lookup_lt_Some.
Qed.

Lemma next_cancels l v v' : cancel_sticks c = true -> next c l v = Some v' -> cancels_ok v -> cancels_ok v'.
Proof.
  intros Hc Hn [Hl Hk]. destruct (outer l) eqn:Eo.
  { destruct (next_outer l v v' Eo Hn). destruct o_cancels0 as [E|E].
    - unfold cancels_ok, notifying. by rewrite E, o_vcpus0, o_done0, o_watchdog0.
    - apply cancels_all; [by rewrite E, length_map, o_vcpus0|]. exists (cancels (sh v)). by rewrite o_vcpus0. }
  destruct l as [i r| | |cmd|ns|bytes| |a bytes|frame]; try discriminate Eo; cbn in Hn; clear Eo.
  - destruct (vcpus v !! i) as [t|] eqn:Et; [|done]. destruct (may_step t v); [|done].
    destruct (vcpu_step c i r t (sh v)) as [[t' s']|] eqn:Es; [|done]. injection Hn as <-.
    apply vcpu_step_inv in Es as [Es _]. destruct (pc_cancels _ _ _ _ _ _ Hc Es) as (Hm & Hnew & Hmay).
    assert (Hi : <[i := t']> (vcpus v) !! i = Some t') by (apply list_lookup_insert_eq; by eapply lookup_lt_Some).
    destruct Hm as [[E En]|[E|(E & Ep & En)]].
    2: { apply cancels_all; cbn [sh vcpus]; [by rewrite E, length_map, length_insert|]. exists (cancels (sh v)). by rewrite length_insert. }
    all: split; cbn [sh vcpus watchdog]; [by rewrite E, ?length_insert|]; intros Hd; unfold notifying; cbn [vcpus watchdog];
      (destruct (vm_done (sh v)) eqn:Hd0; [|left; left; exists i, t'; split; [done|by apply Hnew]]);
      destruct (Hk eq_refl) as [[(j & u & Hu & Hun)|Hw]|Hall]; [|by left; right|].
    + left. left. destruct (decide (i = j)) as [<-|Hne].
      * exists i, t'. split; [done|]. apply En. congruence.
      * exists j, u. by rewrite list_lookup_insert_ne.
    + right. intros j u Hu Hur. rewrite E. destruct (decide (i = j)) as [<-|Hne].
      * rewrite Hi in Hu. injection Hu as <-. by apply (Hall i t Et), Hmay.
      * rewrite list_lookup_insert_ne in Hu by done. by eapply Hall.
    + left. left. destruct (decide (i = j)) as [<-|Hne]; [congruence|]. exists j, u. by rewrite list_lookup_insert_ne.
    + right. intros j u Hu Hur. rewrite E. destruct (decide (i = j)) as [<-|Hne].
      * rewrite Hi in Hu. injection Hu as <-. congruence.
      * rewrite list_lookup_insert_ne in Hu by done. rewrite nth_insert_ne by done. by eapply Hall.
  - destruct (watchdog_step c (watchdog v) (sh v)) as [[w s']|] eqn:Es; [|done]. injection Hn as <-.
    destruct (watchdog_cancels _ _ _ _ Es) as [[[E En]|E] Hnew].
    + split; cbn [sh vcpus]; [by rewrite E|]. intros Hd. unfold notifying. cbn [vcpus watchdog].
      destruct (vm_done (sh v)) eqn:Hd0; [|left; right; by apply Hnew]. rewrite E.
      destruct (Hk eq_refl) as [[?|Hw]|Hall]; [by left; left|left; right; by apply En|by right].
    + apply cancels_all; cbn [sh vcpus]; [by rewrite E, length_map|]. by exists (cancels (sh v)).
  - destruct (timer_step (timer v) (sh v)) as [[p s']|] eqn:Es; [|done]. injection Hn as <-.
    apply timer_effect in Es as (_ & d & ->). by split.
Qed.

Lemma steps_cancels v v' : cancel_sticks c = true -> steps c v v' -> cancels_ok v -> cancels_ok v'.
Proof. intros Hc. induction 1 as [v|v1 v2 v3 [l Hl] Hr IH]; [done|]. intros Hj. by eapply IH, next_cancels. Qed.

Lemma launch_cancels control d : cancels_ok (launch c control d).
Proof.
  unfold launch. split; cbn [sh vcpus]; rewrite ?(set_state_eq cancels), ?(set_state_eq vm_done) by done; [|done].
  cbn. by rewrite !repeat_length.
Qed.

(** ** Progress *)

(** No call of a device that a thread is about to make from [v] runs for ever, and the
    timer's does not throw. *)
Definition no_hang v : Prop :=
  (forall i t x, vcpus v !! i = Some t -> at_ t = Handle x -> (dev_exit i x (devices (sh v))).1 <> OutOfFuel) /\
  (timer v = TTick -> is_ok (dev_tick (devices (sh v))).1 = true).

(** WHvRunVirtualProcessor returning because it was cancelled. *)
Definition canceled_run : run_result :=
  RunExit (mkExitContext (Irq.mkExit false false 0) (mkVpContext 0 0) Canceled).

Lemma vcpu_enabled i t v :
  no_hang v -> vcpus v !! i = Some t -> at_ t <> Returned \/ i = 0%nat ->
  match at_ t with Done _ | Threw _ => False | _ => True end ->
  is_Some (vcpu_step c i canceled_run t (sh v)).
Proof.
  intros [Hx _] Ht Hr Hp. unfold vcpu_step. destruct (locals_step c t).
  assert (Hh : forall x, at_ t = Handle x -> is_Some (handle_exit i x (sh v))).
  { intros x Ea. unfold handle_exit. specialize (Hx i t x Ht Ea). destruct (dev_exit i x (devices (sh v))) as [[[]| |] ?]; by eauto. }
  enough (is_Some (pc_step c i canceled_run t (sh v))) as [[] ->] by by eauto. unfold pc_step.
  destruct (at_ t) eqn:Ea; eauto; try done.
  - destruct (ctx_exit x); eauto. destruct (rootfs_backed c); eauto.
  - destruct Hr as [?| ->]; [done|]. by eauto.
Qed.

Lemma next_cpu i r t v :
  vcpus v !! i = Some t -> may_step t v = true -> is_Some (vcpu_step c i r t (sh v)) -> is_Some (next c (LCpu i r) v).
Proof. intros Et Hm [[t' s'] Es]. cbn. rewrite Et, Hm, Es. by eauto. Qed.

Lemma not_all_returned l : forallb returned l = false -> exists i t, l !! i = Some t /\ at_ t <> Returned.
Proof.
  induction l as [|t l IH]; [done|]. cbn. destruct (returned t) eqn:Et; cbn.
  - intros (i & u & Hu & Hn)%IH. by exists (S i), u.
  - intros _. exists 0%nat, t. split; [done|]. unfold returned in Et. by destruct (at_ t).
Qed.

(** RunVm waits for input threads that have not returned. *)
Definition waits_for_input v : Prop := main_pc v = Some JoinInput /\ input_returned (sh v) = false.

Definition moves v : Prop := exists l v', awaited l v = true /\ prompt l v = true /\ next c l v = Some v'.

(** A processor's thread that waits for no other can go on, or another one is about to
    cancel its run. *)
Lemma cpu_moves i t v :
  cancels_ok v -> vm_done (sh v) = true -> no_hang v -> vcpus v !! i = Some t -> may_step t v = true ->
  at_ t <> Returned \/ i = 0%nat -> match at_ t with Done _ | Threw _ => False | _ => True end -> moves v.
Proof.
  intros [_ Hk] Hd Hh Ht Hm Hr Hp.
  assert (Hgo : forall j u, vcpus v !! j = Some u -> may_step u v = true -> at_ u <> Returned \/ j = 0%nat ->
    match at_ u with Done _ | Threw _ => False | _ => True end ->
    (at_ u = Running -> nth j (cancels (sh v)) false = true) -> moves v).
  { intros j u Hu Hmu Hru Hpu Hc. destruct (next_cpu j canceled_run u v Hu Hmu (vcpu_enabled j u v Hh Hu Hru Hpu)) as [v' Hn].
    exists (LCpu j canceled_run), v'. split; [done|]. split; [|done]. cbn [prompt]. rewrite Hu. unfold is_running.
    destruct (at_ u); try done. cbn. by apply Hc. }
  destruct (is_running t) eqn:Er; [|apply (Hgo i t); try done; intros E; unfold is_running in Er; by rewrite E in Er].
  destruct (Hk Hd) as [[(j & u & Hu & Hun)|Hw]|Hall].
  - apply (Hgo j u Hu); unfold may_step; by destruct (at_ u); auto.
  - assert (Hn : is_Some (next c LWatchdog v)).
    { cbn. unfold notifiesw in Hw. destruct (watchdog v); try done; cbn; by eauto. }
    destruct Hn as [v' Hn]. exists LWatchdog, v'. split; [|done]. cbn. by rewrite Hw, orb_true_r.
  - apply (Hgo i t); try done. intros E. apply (Hall i t Ht). by rewrite E.
Qed.

Lemma progress v :
  joins v -> cancels_ok v -> vm_done (sh v) = true -> no_hang v -> ended v \/ waits_for_input v \/ moves v.
Proof.
  intros (t0 & rest & Ev & Hr & Hm) Hcan Hd Hh.
  destruct (may_step t0 v) eqn:Em.
  - destruct (match at_ t0 with Done _ | Threw _ => true | _ => false end) eqn:Ee.
    + left. exists (at_ t0). unfold main_pc. rewrite Ev. split; [done|]. by destruct (at_ t0).
    + right; right. apply (cpu_moves 0 t0); try done; [by rewrite Ev|by right|]. by destruct (at_ t0).
  - unfold may_step in Em. rewrite Ev in Em. cbn [tl] in Em. destruct (at_ t0) eqn:Ea; try done.
    + right; right. apply not_all_returned in Em as (i & t & Ht & Hn). pose proof (Forall_lookup_1 _ _ _ _ Hr Ht) as Hs. cbn in Hs.
      apply (cpu_moves (S i) t); try done; [by rewrite Ev| |by left|]; [unfold may_step|]; by destruct (at_ t).
    + right; left. unfold waits_for_input, main_pc. rewrite Ev. cbn. by rewrite Ea.
    + right; right. pose proof (m_watchdog_done _ _ _ _ _ Hm ltac:(by cbn; lia)) as Hw.
      assert (Hn : is_Some (next c LWatchdog v)) by (cbn; destruct (watchdog v); cbn; eauto; by destruct (vm_done (sh v)); eauto).
      destruct Hn as [v' Hn]. exists LWatchdog, v'. split; [|done]. cbn. by rewrite Hw.
    + right; right. pose proof (m_timer_done _ _ _ _ _ Hm ltac:(by cbn; lia)) as Ht. destruct Hh as [_ Htick].
      assert (Hn : is_Some (next c LTimer v)).
      { cbn. destruct (timer v); cbn; eauto; try done. specialize (Htick eq_refl). destruct (dev_tick (devices (sh v))) as [[] ?]; by eauto. }
      destruct Hn as [v' Hn]. by exists LTimer, v'.
Qed.

(** The steps of awaited threads in an execution. *)
Fixpoint awaited_steps (ls : list label) v : nat :=
  match ls with
  | [] => 0
  | l :: ls => match next c l v with Some v1 => Nat.b2n (awaited l v) + awaited_steps ls v1 | None => 0 end
  end%nat.

Lemma awaited_bound ls : forall v v',
  exec c ls v = Some v' -> vm_done (sh v) = true -> (awaited_steps ls v + left_ v' <= left_ v)%nat.
Proof.
  induction ls as [|l ls IH]; cbn; intros v v'; [intros [= <-]; lia|].
  destruct (next c l v) as [v1|] eqn:En; [|done]. intros He Hd. pose proof (next_left l v v1 En Hd).
  specialize (IH v1 v' He (proj1 (next_flags l v v1 En) Hd)). lia.
Qed.

Lemma exec_steps ls : forall v v', exec c ls v = Some v' -> steps c v v'.
Proof.
  induction ls as [|l ls IH]; cbn; intros v v'; [by intros [= <-]|].
  destruct (next c l v) as [v1|] eqn:En; [|done]. intros He. apply (rtc_l _ _ v1); [by exists l|by apply IH].
Qed.

Lemma left_bound v : (left_ v <= 41 * length (vcpus v) + 14)%nat.
Proof.
  unfold left_. pose proof (rankw_le (watchdog v)). pose proof (rankl_ge (watchdog v)). pose proof (rankt_le (timer v)).
  enough (sum_list (map (fun t => rank (at_ t)) (vcpus v)) <= 41 * length (vcpus v))%nat by (repeat case_match; lia).
  clear. induction (vcpus v) as [|t l IH]; cbn; [lia|]. assert (rank (at_ t) <= 41)%nat; [|lia].
  destruct (at_ t); cbn; try lia; destruct k; lia.
Qed.

(** C6.  Termination.  Once [vm_done] is set, and when a cancellation of a processor that
    does not run ends its next run: whatever the scheduler, the host, the network and the
    guest do, the threads RunVm waits for take at most 41 * cpus + 14 more steps between
    them; and as long as it has not ended one of them can take a step that needs nothing of
    the guest - a processor inside the guest is taken out by [cancel_all] - unless a call
    of a device never returns, or RunVm is joining input threads that have not returned
    ([Input.stop_input_stuck] says when they do not).  So no other thread waits for another
    in a circle, a pause does not outlast the end, no processor is left running, and the
    watchdog and the timer are joined after they were told to stop. *)
Theorem vm_shuts_down control d v ls v' :
  1 <= cpus c < 2 ^ 32 -> cancel_sticks c = true ->
  steps c (launch c control d) v -> vm_done (sh v) = true -> exec c ls v = Some v' ->
  (Z.of_nat (awaited_steps ls v) + Z.of_nat (left_ v') <= 41 * cpus c + 14) /\
  (no_hang v' -> ended v' \/ waits_for_input v' \/
     exists l v2, awaited l v' = true /\ prompt l v' = true /\ next c l v' = Some v2).
Proof.
  intros [Hc1 Hc2] Hst Hs Hd He. split.
  - pose proof (awaited_bound ls v v' He Hd). pose proof (left_bound v).
    pose proof (k_length _ (steps_counters _ _ Hc2 Hs (launch_counters control d Hc1))). lia.
  - pose proof (exec_steps _ _ _ He) as Hs'. intros Hh. apply progress; [| | |done].
    + eapply steps_joins; [exact Hs'|]. by eapply steps_joins, launch_joins.
    + apply (steps_cancels v v' Hst Hs'). apply (steps_cancels _ v Hst Hs), launch_cancels.
    + clear -Hs' Hd. induction Hs' as [v|v1 v2 v3 [l Hl] _ IH]; [done|]. by apply IH, (next_flags l v1 v2 Hl).
Qed.

(** ** Invariants of the devices *)

(** What keeps [I]: every call of a device that returns, every store of the guest and every
    frame. *)
Record device_laws (I : D -> Prop) : Prop := {
  d_pre_run i d : I d -> I (dev_pre_run i d);
  d_left i x d : I d -> I (dev_left i x d);
  d_exit i x d o d' : I d -> dev_exit i x d = (o, d') -> o <> OutOfFuel -> I d';
  d_tick d o d' : I d -> dev_tick d = (o, d') -> o <> OutOfFuel -> I d';
  d_input bytes d : I d -> I (dev_input bytes d);
  d_store a bytes d d' : I d -> bytes_ok bytes -> dev_store a bytes d = Some d' -> I d';
  d_net frame d o d' : I d -> bytes_ok frame -> dev_net frame d = (o, d') -> o <> OutOfFuel -> I d' }.

Lemma handle_exit_keeps I i x s p s' :
  device_laws I -> handle_exit i x s = Some (p, s') -> I (devices s) -> I (devices s').
Proof.
  intros HL. unfold handle_exit. destruct (dev_exit i x (devices s)) as [o d] eqn:Ed.
  intros Hs HI. pose proof (d_exit _ HL _ _ _ _ _ HI Ed) as Hd.
  destruct o as [[reason|]|msg|]; [..|done]; injection Hs as <- <-; by apply Hd.
Qed.

Lemma step_devices I i r t s p s' :
  device_laws I -> pc_step c i r t s = Some (p, s') -> I (devices s) -> I (devices s').
Proof.
  intros HL Hp HI. assert (Hh : forall x, handle_exit i x s = Some (p, s') -> I (devices s')) by (intros x Hx; by eapply handle_exit_keeps).
  revert Hp. destruct t as [p0 ? ?]. unfold pc_step, finish_step. cbn [at_].
  destruct p0; cbn; try match goal with x : exit_context |- context [ctx_exit ?x] => destruct (ctx_exit x) end; intros Hpc;
    repeat match goal with Hpc : context [if ?b then _ else _] |- _ => destruct b end; try discriminate; try (by eapply Hh);
    injection Hpc as <- <-; rewrite ?(set_state_eq devices) by done; try done; cbn.
  - by apply (d_pre_run _ HL).
  - by apply (d_left _ HL).
Qed.

Lemma next_devices I l v v' :
  device_laws I -> next c l v = Some v' -> I (devices (sh v)) -> I (devices (sh v')).
Proof.
  intros HL Hn HI. destruct l as [i r| | |cmd|ns|bytes| |a bytes|frame]; cbn in Hn.
  - destruct (vcpus v !! i) as [t|]; [|done]. destruct (may_step t v); [|done].
    destruct (vcpu_step c i r t (sh v)) as [[t' s']|] eqn:Es; [|done]. injection Hn as <-.
    apply vcpu_step_inv in Es as [Es _]. by eapply step_devices.
  - destruct (watchdog v), (vm_done (sh v)) eqn:?; cbn in Hn; try done; rewrite ?Heqb in Hn; injection Hn as <-; cbn [sh];
      by rewrite ?(set_state_eq devices).
  - destruct (timer v) eqn:Et; cbn in Hn; try done; try by injection Hn as <-.
    destruct (dev_tick (devices (sh v))) as [[] d] eqn:Ed; try done. injection Hn as <-. cbn.
    by apply (d_tick _ HL _ _ _ HI Ed).
  - destruct (control (sh v)) as [[]|]; [|done]. by injection Hn as <-.
  - destruct (0 <=? ns); [|done]. by injection Hn as <-.
  - destruct (input_returned (sh v)); [done|]. injection Hn as <-. by apply (d_input _ HL).
  - destruct (input_done (sh v)); [|done]. by injection Hn as <-.
  - destruct (existsb _ _); [|done]. destruct (bytes_okb bytes) eqn:Eb; [|done]. cbn [andb] in Hn.
    destruct (dev_store a bytes _) as [d|] eqn:Ed; [|done]. injection Hn as <-.
    by apply (d_store _ HL _ _ _ _ HI (bytes_okb_ok _ Eb) Ed).
  - destruct (bytes_okb frame) eqn:Eb; [|done]. destruct (dev_net frame _) as [[] d] eqn:Ed; try done. injection Hn as <-.
    by apply (d_net _ HL _ _ _ _ HI (bytes_okb_ok _ Eb) Ed).
Qed.

(** An invariant of the devices holds in every interleaving of the threads, the guest's
    stores and the network's frames. *)
Lemma devices_kept I control d v :
  device_laws I -> I d -> steps c (launch c control d) v -> I (devices (sh v)).
Proof.
  intros HL Hd Hr. assert (H0' : I (devices (sh (launch c control d)))).
  { unfold launch. cbn [sh]. by rewrite (set_state_eq devices). }
  revert H0'. induction Hr as [v|v1 v2 v3 [l Hl] Hr IH]; [done|]. intros HI. by apply IH, (next_devices I l v1).
Qed.
End Facts.

(** ** Two processors, devices that do nothing *)
Module Demo.
#[export] Instance no_devices : Devices unit := {|
  dev_pre_run _ d := d; dev_left _ _ d := d;
  dev_exit _ x d := (Ok match ctx_exit x with X64IoPortAccess _ => Some "guest-exit" | _ => None end, d);
  dev_tick d := (Ok tt, d); dev_input _ d := d; dev_store _ _ d := Some d; dev_net _ d := (Ok tt, d);
  dev_console _ := [] |}.
Definition config (n : Z) : run_config := mkRunConfig n 1000 true false true 0 (fun _ => "error").
Definition start_vm (n : Z) : vm unit := launch (config n) (Some (0, 0)) tt.
Definition canceled : run_result := RunExit (mkExitContext (Irq.mkExit false false 0x202) (mkVpContext 0x1000 2) Canceled).
Definition out_501 : run_result :=
  RunExit (mkExitContext (Irq.mkExit false false 0x202) (mkVpContext 0x1000 1)
    (X64IoPortAccess (mkIo 1 [0xEE] true 1 false false 0x501 0))).
(** [n] steps of processor [i]. *)
Definition run (n i : nat) : list label := repeat (LCpu i canceled) n.

(** The host pauses, resumes as soon as the machine is paused, and pauses again while
    processor 0 has already seen the resume but not yet left the section. *)
Definition pause_race : list label :=
  [LCommand kControlPause] ++ run 4 0 ++ run 5 1 ++ [LCommand kControlRun] ++ run 1 0 ++ run 8 1 ++
  [LCommand kControlPause] ++ run 11 1 ++ run 7 0 ++ run 1 1.
(** The watchdog reads the stop command just before processor 0 ends the run. *)
Definition stop_race : list label :=
  [LCommand kControlStop; LWatchdog; LWatchdog] ++ run 10 0 ++ [LWatchdog; LWatchdog] ++ run 5 0 ++ [LTimer] ++ run 2 0.

(** The guest writes to the exit port. *)
Definition guest_exit_run : list label := run 4 0 ++ [LCpu 0 out_501] ++ run 4 0.
Definition to_the_end : list label := run 10 0 ++ [LWatchdog] ++ run 2 0 ++ [LTimer] ++ run 2 0.
Definition after (ls : list label) (n : Z) : vm unit := default (start_vm n) (exec (config n) ls (start_vm n)).
Definition finishing : vm unit := after guest_exit_run 1.
Definition finished : vm unit := default finishing (exec (config 1) to_the_end finishing).

Lemma after_steps ls n : exec (config n) ls (start_vm n) = Some (after ls n) -> steps (config n) (start_vm n) (after ls n).
Proof. apply exec_steps. Qed.

(** Two races of the control words.  The state can read Paused, with the pause command
    in place, while a processor runs the guest: one that saw the resume is still counted
    when the next pause counts the processors.  And a run that has ended can leave the
    state at Stopping: [make_result] publishes Exited before it stops the watchdog, which
    may have read the stop command already. *)
Example control_word_races :
  (exists v, steps (config 2) (start_vm 2) v /\ control (sh v) = Some (kControlPause, kControlStatePaused) /\
     (at_ <$> vcpus v !! 0%nat) = Some Running) /\
  (exists v r, steps (config 1) (start_vm 1) v /\ main_pc v = Some (Done r) /\
     control (sh v) = Some (kControlStop, kControlStateStopping)).
Proof.
  split.
  - exists (after pause_race 2). split; [by apply after_steps; vm_compute|by split; vm_compute].
  - eexists (after stop_race 1), _. split; [by apply after_steps; vm_compute|by split; vm_compute].
Qed.

Lemma run_outcome_witness :
  verdict finished = Some ("guest-exit", 2) /\ forallb returned (tl (vcpus finished)) = true.
Proof.
  assert (E1 : exec (config 1) guest_exit_run (start_vm 1) = Some finishing) by (vm_compute; reflexivity).
  assert (E2 : exec (config 1) to_the_end finishing = Some finished) by (vm_compute; reflexivity).
  assert (E3 : main_pc finished = Some (Done (mkResult "guest-exit" 2 1 []))) by (vm_compute; reflexivity).
  pose proof (run_outcome (config 1) (Some (0, 0)) tt finishing finished _ ltac:(cbn; lia)
    (exec_steps _ _ _ _ E1) (exec_steps _ _ _ _ E2) E3) as (Hv & _ & _ & _ & Hr & _).
  by split.
Defined.

Lemma pause_protocol_witness : paused_count (sh (after pause_race 2)) = Z.of_nat (count in_pause (vcpus (after pause_race 2))).
Proof.
  assert (E : exec (config 2) pause_race (start_vm 2) = Some (after pause_race 2)) by (vm_compute; reflexivity).
  apply (pause_protocol (config 2) (Some (0, 0)) tt (after pause_race 2)); [split; reflexivity || (cbn; lia)|].
  by apply exec_steps in E.
Defined.

(** Two processors in the guest; the first leaves it through the exit port, and the thread
    that ended the run is about to cancel the other. *)
Definition both_running : list label := run 4 1 ++ guest_exit_run ++ run 1 0.
Definition ending : vm unit := after both_running 2.
Definition canceled_all : vm unit := default ending (exec (config 2) (run 2 0) ending).
Lemma vm_shuts_down_witness :
  (at_ <$> vcpus canceled_all !! 1%nat) = Some Running /\
  exists l v2, awaited l canceled_all = true /\ prompt l canceled_all = true /\ next (config 2) l canceled_all = Some v2.
Proof.
  assert (E1 : exec (config 2) both_running (start_vm 2) = Some ending) by (vm_compute; reflexivity).
  assert (E2 : exec (config 2) (run 2 0) ending = Some canceled_all) by (vm_compute; reflexivity).
  assert (Hd : vm_done (sh ending) = true) by (vm_compute; reflexivity).
  split; [vm_compute; reflexivity|].
  destruct (vm_shuts_down (config 2) (Some (0, 0)) tt ending _ canceled_all
    ltac:(cbn; lia) eq_refl (exec_steps _ _ _ _ E1) Hd E2) as [_ Hp].
  destruct Hp as [(p & Ep & Hf)|[[Hw _]|Hm]]; [| | |exact Hm].
  - split; [|intros _; reflexivity]. intros i t x _ _. destruct (ctx_exit x); discriminate.
  - exfalso. revert Ep. vm_compute. intros [= <-]. exact Hf.
  - exfalso. revert Hw. vm_compute. discriminate.
Defined.
End Demo.
