(* ===== verification/Session.v ===== *)
(** * RunVm as a whole: the threads over the machine

    The machine of Machine.v as the devices of Runner.v's threads, started from what
    RunVm_setup makes.  Windows' instruction emulator is the class [Emulator]; its law
    says that it reaches the machine through the callbacks and the register calls it is
    given, and nothing else.  The theorem: in every interleaving of the threads, the
    guest's stores and the network's frames, whatever the guest, the host and the emulator
    do, the machine stays well-formed. *)

From S2P Require Import Prelude Words Bytes GuestMemory Clock Board HostFile Vcpu Machine RunVm Runner.
From S2P Require Irq Rng Net IoApic Uart Hpet Blk Elf.
Import Irq(WhpApi).
#[local] Existing Instances DiskIo.win_disk DiskIo.win_disk_laws IoApic.eta_IoApic.

(** ** The devices of RunVm *)

Section Session.
Context {F H E S W : Type} `{HostFile F H} `{Rng.Entropy E} `{Net.SlirpBackend S} `{WhpApi W} `{WhpTranslate W}.
Context `{Emulator (Machine F H E S W)}.
Local Notation machine := (Machine F H E S W).
Definition world : Type := machine * HyperVState.

Definition on_machine {A} (m : M machine A) : M world A := zoom fst (fun s d => (s, d.2)) m.
(** HandleWhpMsr works on the HyperVState and the processor's registers. *)
Definition msr_exit (vp : Z) (x : vp_context) (a : msr_access) : M world unit :=
  zoom (fun d => (d.2, IoApic.api (ioapic d.1)))
    (fun hw d => (d.1 <| ioapic := (ioapic d.1) <| IoApic.api := hw.2 |> |>, hw.1)) (HandleWhpMsr vp x a).

(** Slirp's poll thread: deliver_rx_packet on the network device, when there is one. *)
Definition net_frame (frame : list Z) : M machine unit := run_event (NetFrame frame).

(** The handlers of [vcpu_loop], in its order. *)
Definition machine_exit (cpu_count : Z) (i : nat) (x : exit_context) : M world (option string) :=
  let vp := Z.of_nat i in
  match ctx_exit x with
  | X64Halt => on_machine (modify (halt_exit i)) ≫= fun _ => mret None
  | X64IoPortAccess io => on_machine (io_exit vp (ctx_vp x) io)
  | MemoryAccess a => on_machine (memory_exit vp (ctx_vp x) (Gpa a)) ≫= fun _ => mret None
  | X64ApicEoi vector => on_machine (modify (eoi_exit vector)) ≫= fun _ => mret None
  | X64InterruptWindow => on_machine (modify (window_exit i)) ≫= fun _ => mret None
  | X64Cpuid c _ => on_machine (on_api (HandleWhpCpuid vp (ctx_vp x) c cpu_count)) ≫= fun _ => mret None
  | X64MsrAccess a => msr_exit vp (ctx_vp x) a ≫= fun _ => mret None
  | Canceled | UnrecoverableException _ | OtherExit _ => mret None
  end.

Definition machine_devices (cpu_count : Z) (backed : bool) : Devices world := {|
  dev_pre_run i d := (pre_run backed i d.1, d.2);
  dev_left i x d := (update_exit i x d.1, d.2);
  dev_exit i x := machine_exit cpu_count i x;
  dev_tick := on_machine timer_tick;
  dev_input bytes d := ((deliver_input bytes d.1).2, d.2);
  dev_store a bytes d :=
    if (0 <=? a) && (a + Z.of_nat (length bytes) <=? len (mem d.1))
    then Some (d.1 <| mem := mem_store (mem d.1) a bytes |>, d.2) else None;
  dev_net frame := on_machine (net_frame frame);
  dev_console d := Uart.console (uart d.1) |}.

(** The configuration of the threads from that of RunVm. *)
Definition run_config_of (c : vm_config) (timeout : Z) (backed input sticks : bool) (start : Z) (error : Z -> string)
    : run_config :=
  mkRunConfig (RunVm.cpus c) timeout backed input sticks start error.
End Session.

(** ** Safety *)

Section Safe.
Context {F H E S W : Type} `{HostFileLaws F H} `{Rng.Entropy E} `{Net.SlirpBackend S} `{WhpApi W} `{WhpTranslate W}.
Local Notation machine := (Machine F H E S W).
Local Notation world := (@world F H E S W).

(** A callback of the emulator, or one of its register calls. *)
Inductive emulator_step (s s' : machine) : Prop :=
  | emulator_callback : event_step s s' -> emulator_step s s'
  | emulator_registers w : s' = s <| ioapic := (ioapic s) <| IoApic.api := w |> |> -> emulator_step s s'.

Class EmulatorLaws `{Emulator machine} : Prop := {
  try_io_steps vp x io s o s' : try_io vp x io s = (o, s') -> o <> OutOfFuel -> rtc emulator_step s s';
  try_mmio_steps vp x gpa s o s' : try_mmio vp x gpa s = (o, s') -> o <> OutOfFuel -> rtc emulator_step s s' }.

(** [I] holds after [m] unless [m] does not return. *)
Definition keeps {X A} (I : X -> Prop) (m : M X A) : Prop :=
  forall s o s', I s -> m s = (o, s') -> o <> OutOfFuel -> I s'.

Lemma keeps_bind {X A B} (I : X -> Prop) (m : M X A) (f : A -> M X B) :
  keeps I m -> (forall a, keeps I (f a)) -> keeps I (m ≫= f).
Proof.
  intros Hm Hf s o s' Hs Er Ho. rewrite bind_run in Er. destruct (m s) as [[a|e|] s1] eqn:Em.
  - eapply Hf; [|exact Er|exact Ho]. by eapply Hm.
  - injection Er as <- <-. by eapply Hm.
  - by injection Er as <- <-.
Qed.
Lemma keeps_ret {X A} (I : X -> Prop) (a : A) : keeps I (mret a).
Proof. by intros s o s' Hs [= <- <-]. Qed.
Lemma keeps_gets {X A} (I : X -> Prop) (f : X -> A) : keeps I (gets f).
Proof. by intros s o s' Hs [= <- <-]. Qed.
Lemma keeps_lift {X A} (I : X -> Prop) (a : outcome A) : keeps I (lift a).
Proof. by intros s o s' Hs [= <- <-]. Qed.
Lemma keeps_modify {X} (I : X -> Prop) f : (forall s, I s -> I (f s)) -> keeps I (modify f).
Proof. intros Hf s o s' Hs [= <- <-] _. by apply Hf. Qed.
Lemma keeps_when {X} (I : X -> Prop) b m : keeps I m -> keeps I (when b m).
Proof. intros Hm. destruct b; [done|apply keeps_ret]. Qed.
Lemma keeps_safe {X A} (I : X -> Prop) Q (m : M X A) : safe I Q m -> keeps I m.
Proof. intros Hm s o s' Hs Er _. by destruct (safe_inv _ _ _ _ _ _ Hm Hs Er). Qed.

Context `{EmulatorLaws}.
Variable (s0 : machine).
Local Notation I := (inv s0).

Lemma inv_api w s : I s -> I (s <| ioapic := (ioapic s) <| IoApic.api := w |> |>).
Proof. intros Hs. apply (inv_update _ _ _ Hs); try done; try apply Hs. by destruct (mo_ioapic _ (proj1 Hs)). Qed.

Lemma keeps_api {A} (m : M W A) : keeps I (on_api m).
Proof.
  intros s o s' Hs Er _. unfold on_api, zoom in Er. destruct (m _) as [o1 w]. injection Er as <- <-. by apply inv_api.
Qed.

Lemma emulator_inv s s' : rtc emulator_step s s' -> I s -> I s'.
Proof.
  induction 1 as [s|s1 s2 s3 Hs Hr IH]; [done|]. intros Hi. apply IH. destruct Hs as [[e o He Er Ho]|w ->].
  - pose proof (event_inv s0 s1 e o s2 Hi He Er). by destruct o.
  - by apply inv_api.
Qed.

Lemma keeps_io_exit vp x io : keeps I (io_exit vp x io).
Proof.
  unfold io_exit. apply keeps_bind; [apply keeps_gets|]. intros guest. apply keeps_bind; [apply keeps_api|]. intros io'.
  apply keeps_bind; [intros s o s' Hs Er Ho; eapply emulator_inv; [by eapply try_io_steps|done]|]. intros b.
  apply keeps_bind; [apply keeps_when; eapply keeps_safe, safe_HandleWhpIo|]. intros _.
  apply keeps_bind; [apply keeps_gets|]. intros g. apply keeps_bind; [apply keeps_gets|]. intros h. apply keeps_ret.
Qed.

Lemma keeps_memory_exit vp x gpa : keeps I (memory_exit vp x gpa).
Proof.
  unfold memory_exit. apply keeps_bind; [intros s o s' Hs Er Ho; eapply emulator_inv; [by eapply try_mmio_steps|done]|].
  intros b. apply keeps_lift.
Qed.

Definition world_inv (d : world) : Prop := I d.1.

Lemma keeps_on_machine {A} (m : M machine A) : keeps I m -> keeps world_inv (on_machine m).
Proof.
  intros Hm d o d' Hd Er Ho. unfold on_machine, zoom in Er. destruct (m d.1) as [o1 s1] eqn:Em. injection Er as <- <-.
  by eapply Hm.
Qed.

Lemma keeps_exit n i x : keeps world_inv (machine_exit n i x).
Proof.
  unfold machine_exit. destruct (ctx_exit x); try apply keeps_ret.
  1,3-7: apply keeps_bind; [|intros _; apply keeps_ret].
  - apply keeps_on_machine, keeps_modify. intros s. apply inv_on_vcpu.
  - apply keeps_on_machine, keeps_memory_exit.
  - apply keeps_on_machine, keeps_modify. intros s. apply inv_eoi.
  - apply keeps_on_machine, keeps_modify. intros s. apply inv_window.
  - apply keeps_on_machine, keeps_api.
  - intros d o d' Hd Er _. unfold msr_exit, zoom in Er. destruct (HandleWhpMsr _ _ _ _) as [o1 hw]. injection Er as <- <-.
    by apply inv_api.
  - apply keeps_on_machine, keeps_io_exit.
Qed.

Lemma machine_laws n backed :
  @device_laws world (machine_devices n backed) world_inv.
Proof.
  constructor; cbn.
  - intros i d Hd. by apply inv_pre_run.
  - intros i x d Hd. by apply inv_on_vcpu.
  - intros i x d o d' Hd Er Ho. by eapply keeps_exit.
  - intros d o d' Hd Er Ho. unfold on_machine, zoom in Er. destruct (timer_tick d.1) as [o1 s1] eqn:Et.
    injection Er as <- <-. pose proof (tick_inv s0 _ _ _ Hd Et). by destruct o1.
  - intros bytes d Hd. pose proof (event_inv s0 d.1 (HostInput bytes)) as Hev. cbn [run_event event_ok] in Hev.
    unfold ignore in Hev. specialize (Hev _ _ Hd Logic.I (surjective_pairing _)).
    rewrite bind_run in Hev. unfold deliver_input in *. rewrite bind_run in *.
    destruct (with_uart _ d.1) as [[a|e|] s1]; cbn in *; done.
  - intros a bytes d d' Hd Hb Hs. destruct (_ && _) eqn:Ea; [|done]. injection Hs as <-.
    apply andb_prop in Ea as [Ha%Z.leb_le Hl%Z.leb_le]. by apply (event_inv s0 d.1 (GuestStore a bytes) _ _ Hd (conj Hb (conj Ha Hl)) eq_refl).
  - intros frame d o d' Hd Hb Er Ho. change (on_machine (net_frame frame) d = (o, d')) in Er.
    unfold on_machine, zoom in Er. destruct (net_frame frame d.1) as [o1 s1] eqn:En.
    injection Er as <- <-. pose proof (event_inv s0 d.1 (NetFrame frame) _ _ Hd Hb En). by destruct o1.
Qed.
End Safe.

Section Whole.
Context {F H E S W : Type} `{HostFileLaws F H} `{Rng.Entropy E} `{Net.SlirpBackend S} `{Irq.WhpApiLaws W} `{WhpTranslate W}.
Context `{Emulator (Machine F H E S W)} `{!EmulatorLaws}.
Local Notation machine := (Machine F H E S W).
Local Notation world := (@world F H E S W).

End Whole.

(** ** The small guest of RunVm's example, with an emulator that reads *)
Module Demo.
Import Irq.Demo.
#[local] Existing Instances MemFiles.mem_files MemFiles.mem_files_laws Machine.Demo.zeros Machine.Demo.no_reply.
Local Notation machine := (Machine MemFiles.files bool unit unit regs).

#[export] Instance identity_map : WhpTranslate regs := fun vp gva access w => (true, gva, w).
(** It gives up on ports and reads four bytes of memory. *)
#[export] Instance reader : Emulator machine := {|
  try_io _ _ _ s := (Ok false, s);
  try_mmio _ _ gpa s :=
    match run_event (GuestMemory_ 0 false (u64 gpa) [0; 0; 0; 0]) s with
    | (OutOfFuel, s') => (OutOfFuel, s')
    | (_, s') => (Ok true, s')
    end |}.
#[export] Instance reader_laws : EmulatorLaws (F := MemFiles.files) (W := regs).
Proof.
  split; [by intros vp x io s o s' [= <- <-]|]. intros vp x gpa s o s'. cbn [try_mmio reader].
  destruct (run_event _ s) as [o1 s1] eqn:Er. intros Hr Ho. apply rtc_once, emulator_callback.
  assert (Ho1 : o1 <> OutOfFuel) by (intros ->; by injection Hr as <- <-).
  apply (event_runs s s' (GuestMemory_ 0 false (u64 gpa) [0; 0; 0; 0]) o1); [|by destruct o1; injection Hr as <- <-|done].
  split; [by apply bytes_okb_ok|apply u64_range].
Defined.

Definition rc : run_config := run_config_of RunVm.Demo.config 60000 true true true 0 (fun _ => EmptyString).
#[local] Instance devs : Devices (@world MemFiles.files bool unit unit regs) := machine_devices 2 true.
Definition reads : run_result :=
  RunExit (mkExitContext (Irq.mkExit false false 0x202) (mkVpContext 0x1000 3) (MemoryAccess (mkMemoryAccess 0xFEC00000 0 0 3))).
(** Processor 0 runs the guest, which stores to its memory, and leaves it on a memory
    access; a frame arrives and the timer ticks. *)
Definition trace : list label :=
  repeat (LCpu 0 reads) 4 ++ [LStore 0x1000 [1; 2; 3; 4]] ++ repeat (LCpu 0 reads) 4 ++ [LNet [1; 2; 3]; LTimer; LTimer; LTimer].
Definition hyperv : HyperVState := mkHyperV 1 1 0 0 0 (mkClock (fun _ => 0) 0).
Definition began (s : machine) : vm world := launch rc None (s, hyperv).

Lemma trace_runs :
  match RunVm.Demo.booted.1 with
  | Ok (s, _) => match exec rc trace (began s) with Some _ => true | None => false end
  | _ => false
  end = true.
Proof. vm_compute. reflexivity. Qed.

End Demo.
