(* ===== verification/Input.v ===== *)
(** * native/whp/backend.cc: console input

    The threads between the host's stdin and the receive queue of the UART: the reader
    ([input_thread]), the pump ([input_pump_thread]), the console's control handler, and
    the main thread in [stop_input].  They share a bounded queue under a mutex and one
    condition variable; a wait that finds its predicate false is a state of its own, which
    only [notify_all] ends.  The theorems: input arrives in order and none of it is lost
    while the machine runs, and exactly where [stop_input] can wait for ever. *)

From S2P Require Import Prelude Words Bytes.
From S2P Require Uart ConsoleWriter.

Definition kHostInputQueueLimit : Z := 1024 * 1024.
Definition kHostInputPumpChunk : Z := 256.
Definition size (bs : list Z) : Z := Z.of_nat (length bs).

(** ** The bytes of a read *)

Definition CR : Z := 13.
Definition LF : Z := 10.
(** [deliver_console_bytes]: a CR LF within one read becomes LF. *)
Fixpoint normalize (data : list Z) : list Z :=
  match data with
  | [] => []
  | b :: data' =>
      if b =? CR then
        match data' with
        | b2 :: data2 => if b2 =? LF then LF :: normalize data2 else CR :: normalize data'
        | [] => [CR]
        end
      else b :: normalize data'
  end.
(** What a successful ReadFile puts into the queue: of a console up to 4096 bytes at a
    time, otherwise one byte at a time and no CR. *)
Definition input_bytes (stdin_is_console : bool) (data : list Z) : list Z :=
  if stdin_is_console then normalize data
  else match data with [b] => if b =? CR then [] else [b] | _ => [] end.

(** ** The receiver: [uart.enqueue_rx] under [device_mu] *)
Class Receiver (D : Type) := {
  accept : list Z -> D -> Z * D;
  accept_bounds bs d : 0 <= (accept bs d).1 <= size bs }.

(** ** Threads *)

Inductive reader_pc :=
  | RCheck                              (** [while (!input_done.load())] *)
  | RCalling                            (** the test passed, ReadFile not entered yet *)
  | RReading                            (** in ReadFile *)
  | RQueue (bytes : list Z)             (** in [queue_host_input], the lock taken *)
  | RAsleep (bytes : list Z)            (** waiting on the condition variable *)
  | RNotify | RDone.
Inductive pump_pc := PLock | PAsleep | PNotify (chunk : list Z) | PDeliver (rest : list Z) | PDone.
(** [stop_input] of the main thread. *)
Inductive stop_pc := SRunning | SCancelEx | SCancelSync | SJoinReader | SNotify | SJoinPump | SDone.

Record input (D : Type) := mkInput {
  input_done : bool; host_input_queue : list Z; device : D;
  reader : reader_pc; pump : pump_pc; stop : stop_pc;
  delivered : list Z                    (** the bytes the device has accepted *) }.
Arguments mkInput {D}. Arguments input_done {D}. Arguments host_input_queue {D}. Arguments device {D}.
Arguments reader {D}. Arguments pump {D}. Arguments stop {D}. Arguments delivered {D}.
#[export] Instance eta_input D : Eta (input D) := fun s =>
  mkInput (input_done s) (host_input_queue s) (device s) (reader s) (pump s) (stop s) (delivered s).

Section Input.
Context {D : Type} `{Receiver D} (stdin_is_console : bool).
Local Notation input := (input D).
Implicit Types (s : input).

Definition fits (n : Z) s : bool := size (host_input_queue s) + n <=? kHostInputQueueLimit.

(** [host_input_cv.notify_all()] *)
Definition notify_all s : input :=
  let s := match reader s with RAsleep bytes => s <| reader := RQueue bytes |> | _ => s end in
  match pump s with PAsleep => s <| pump := PLock |> | _ => s end.

(** [queue_host_input] at the back, one evaluation of the wait's predicate. *)
Definition queue_back (bytes : list Z) s : input :=
  if input_done s then s <| reader := RCheck |>
  else if fits (size bytes) s then
    (s <| host_input_queue := host_input_queue s ++ bytes |>) <| reader := RNotify |>
  else s <| reader := RAsleep bytes |>.

(** The control handler: [queue_host_input(&intr, 1, true)] with its notification. *)
Fixpoint pop_back_while (fuel : nat) (q : list Z) : list Z :=
  match fuel with
  | O => q
  | S fuel =>
      if (kHostInputQueueLimit <? size q + 1) && negb (bool_decide (q = []))
      then pop_back_while fuel (take (length q - 1) q) else q
  end.
Definition queue_front (byte : Z) s : input :=
  let q := host_input_queue s in
  notify_all (s <| host_input_queue := byte :: pop_back_while (length q) q |>).

Definition reader_step s : option input :=
  match reader s with
  | RCheck => Some (s <| reader := if input_done s then RDone else RCalling |>)
  | RCalling => Some (s <| reader := RReading |>)
  | RQueue bytes => Some (queue_back bytes s)
  | RNotify => Some (notify_all (s <| reader := RCheck |>))
  | RReading | RAsleep _ | RDone => None
  end.

(** ReadFile returns: bytes, or a failure, the end of input or a cancelled call. *)
Definition read_returns (data : list Z) s : option input :=
  match reader s with
  | RReading =>
      if (if stdin_is_console then 4096 else 1) <? size data then None
      else if bool_decide (data = []) then Some (s <| reader := RDone |>)
      else match input_bytes stdin_is_console data with
           | [] => Some (s <| reader := RCheck |>)
           | bytes => Some (s <| reader := RQueue bytes |>)
           end
  | _ => None
  end.

Definition pump_step s : option input :=
  match pump s with
  | PLock =>
      Some (if input_done s then s <| pump := PDone |>
            else match host_input_queue s with
                 | [] => s <| pump := PAsleep |>
                 | q =>
                     let take_ := Z.min kHostInputPumpChunk (size q) in
                     (s <| pump := PNotify (take (Z.to_nat take_) q) |>) <| host_input_queue := drop (Z.to_nat take_) q |>
                 end)
  | PNotify chunk => Some (notify_all (s <| pump := PDeliver chunk |>))
  | PDeliver rest =>
      Some (if bool_decide (rest = []) || input_done s then s <| pump := PLock |>
            else
              let '(accepted, d) := accept rest (device s) in
              let s := (s <| device := d |>) <| delivered := delivered s ++ take (Z.to_nat accepted) rest |> in
              s <| pump := PDeliver (drop (Z.to_nat accepted) rest) |>)
  | PAsleep | PDone => None
  end.

(** CancelIoEx and CancelSynchronousIo end the call the reader is in, if it is in one; a
    call entered afterwards is not affected. *)
Definition cancel_read s : input := match reader s with RReading => s <| reader := RDone |> | _ => s end.
Definition stop_step s : option input :=
  match stop s with
  | SRunning => Some ((s <| input_done := true |>) <| stop := SCancelEx |>)
  | SCancelEx => Some ((cancel_read s) <| stop := SCancelSync |>)
  | SCancelSync => Some ((cancel_read s) <| stop := SJoinReader |>)
  | SJoinReader => match reader s with RDone => Some (s <| stop := SNotify |>) | _ => None end
  | SNotify => Some ((notify_all s) <| stop := SJoinPump |>)
  | SJoinPump => match pump s with PDone => Some (s <| stop := SDone |>) | _ => None end
  | SDone => None
  end.

Inductive label :=
  | LReader | LRead (data : list Z) | LPump | LStop
  | LInterrupt                          (** Ctrl-C at a console *)
  | LGuest (d : D)                      (** the guest uses the device *).
Definition next (l : label) s : option input :=
  match l with
  | LReader => reader_step s
  | LRead data => read_returns data s
  | LPump => pump_step s
  | LStop => stop_step s
  | LInterrupt => if stdin_is_console then Some (queue_front 3 s) else None
  | LGuest d => Some (s <| device := d |>)
  end.
Fixpoint exec (ls : list label) s : option input :=
  match ls with
  | [] => Some s
  | l :: ls => match next l s with Some s => exec ls s | None => None end
  end.

Definition launch (d : D) : input := mkInput false [] d RCheck PLock SRunning [].
End Input.

(** ** The UART as the receiver *)
#[export] Instance uart_receiver : Receiver Uart.Uart.
Proof.
  refine {| accept := Uart.enqueue_rx |}. intros bs d. unfold Uart.enqueue_rx, Uart.enqueue_rx_locked.
  case_bool_decide as Hd; [unfold size; cbn [fst]; lia|]. pose proof (Uart.push_rx_spec bs d) as Hp.
  destruct (Uart.push_rx bs d) as [n s1]. destruct Hp as [Hn _]. cbn [fst]. unfold ConsoleWriter.size in Hn. unfold size. lia.
Defined.

(** ** Order *)

Section Facts.
Context {D : Type} `{Receiver D} (stdin_is_console : bool).
Local Notation input := (input D).
Local Notation label := (@label D).
Local Notation next := (next stdin_is_console).
Local Notation exec := (exec stdin_is_console).
Implicit Types (s : input).

Definition in_flight s : list Z := match pump s with PNotify chunk => chunk | PDeliver rest => rest | _ => [] end.
Definition waiting s : list Z := match reader s with RQueue bytes | RAsleep bytes => bytes | _ => [] end.
(** Everything between the host's keyboard and the device, oldest first. *)
Definition stream s : list Z := delivered s ++ in_flight s ++ host_input_queue s ++ waiting s.
(** What the reads of an execution gave. *)
Definition typed_by (l : label) : list Z := match l with LRead data => input_bytes stdin_is_console data | _ => [] end.
Definition typed (ls : list label) : list Z := concat (map typed_by ls).
Definition is_interrupt (l : label) : bool := match l with LInterrupt => true | _ => false end.

Lemma size_app l1 l2 : size (l1 ++ l2) = size l1 + size l2.
Proof. unfold size. rewrite length_app. lia. Qed.

Ltac projections := cbn [input_done host_input_queue device reader pump stop delivered upd_field] in *.
Lemma notify_stream s :
  stream (notify_all s) = stream s /\ input_done (notify_all s) = input_done s /\
  host_input_queue (notify_all s) = host_input_queue s /\ delivered (notify_all s) = delivered s /\
  stop (notify_all s) = stop s /\ device (notify_all s) = device s.
Proof.
  unfold notify_all, stream, in_flight, waiting. destruct s as [dn q d rd pm st dl]. projections.
  by destruct rd, pm; cbn.
Qed.

Lemma pop_back_take fuel : forall q, (length q <= fuel)%nat ->
  pop_back_while fuel q = take (Z.to_nat (Z.max 0 (kHostInputQueueLimit - 1))) q.
Proof.
  induction fuel as [|fuel IH]; intros q Hq; cbn [pop_back_while].
  - destruct q; cbn in Hq; [by rewrite take_nil|lia].
  - unfold size. destruct (Z.ltb_spec kHostInputQueueLimit (Z.of_nat (length q) + 1)) as [Hlt|Hge]; cbn [andb].
    + destruct (bool_decide_reflect (q = [])) as [->|Hne]; cbn [negb]; [by rewrite take_nil|].
      rewrite IH by (rewrite length_take; lia). rewrite take_take. f_equal. unfold kHostInputQueueLimit in *. lia.
    + rewrite take_ge; [done|]. unfold kHostInputQueueLimit in *. lia.
Qed.

(** What holds after an execution that read [t]. *)
Record flow (t : list Z) s : Prop := {
  fl_running : input_done s = false -> t = stream s;
  fl_prefix : exists rest, t = delivered s ++ rest;
  fl_bound : size (host_input_queue s) <= kHostInputQueueLimit }.

Lemma flow_same t s s' :
  flow t s -> (input_done s' = false -> input_done s = false /\ stream s' = stream s) -> delivered s' = delivered s ->
  size (host_input_queue s') <= size (host_input_queue s) -> flow t s'.
Proof.
  intros [F1 F2 F3] Hs Hd Hq. split; [|by rewrite Hd|lia]. intros Hi. destruct (Hs Hi) as [? ->]. auto.
Qed.

Lemma flow_read t l s s' : read_returns stdin_is_console l s = Some s' -> flow t s -> flow (t ++ input_bytes stdin_is_console l) s'.
Proof.
  unfold read_returns. destruct s as [dn q d rd pm st dl]. projections. destruct rd; try done.
  destruct (_ <? _); [done|]. intros Hn [F1 [rest F2] F3].
  assert (Hend : input_bytes stdin_is_console [] = []) by (unfold input_bytes; by destruct stdin_is_console).
  destruct (bool_decide_reflect (l = [])) as [->|Hne]; [rewrite Hend, app_nil_r|destruct (input_bytes _ l) as [|b bs] eqn:Eb; [rewrite app_nil_r|]];
    injection Hn as <-; split; projections; try done; try (by exists rest).
  - intros Hi. rewrite (F1 Hi). unfold stream, waiting, in_flight. projections. by rewrite !app_nil_r, <- !app_assoc.
  - exists (rest ++ b :: bs). by rewrite F2, <- app_assoc.
Qed.

Lemma flow_reader t s s' : reader_step s = Some s' -> flow t s -> flow t s'.
Proof.
  unfold reader_step. destruct s as [dn q d rd pm st dl]. projections. destruct rd; try done; intros [= <-] HF.
  - apply (flow_same _ _ _ HF); try done. intros Hi. split; [done|]. unfold stream, waiting, in_flight. projections.
    by destruct dn.
  - by apply (flow_same _ _ _ HF).
  - unfold queue_back, fits. projections. destruct dn eqn:Ed; [apply (flow_same _ _ _ HF); try done|].
    destruct (Z.leb_spec (size q + size bytes) kHostInputQueueLimit).
    + destruct HF as [F1 F2 F3]. split; projections; [|done|rewrite size_app; lia]. intros _. rewrite F1 by done.
      unfold stream, waiting, in_flight. projections. by rewrite app_nil_r.
    + by apply (flow_same _ _ _ HF).
  - apply (flow_same _ _ _ HF); destruct (notify_stream ((mkInput dn q d RNotify pm st dl) <| reader := RCheck |>)) as (E1 & E2 & E3 & E4 & _);
      [|done|by rewrite E3]. intros Hi. rewrite E2 in Hi. by rewrite E1.
Qed.

Lemma flow_pump t s s' : pump_step s = Some s' -> flow t s -> flow t s'.
Proof.
  unfold pump_step. destruct s as [dn q d rd pm st dl]. projections. destruct pm; try done; intros [= <-] HF.
  - destruct dn; [by apply (flow_same _ _ _ HF)|]. destruct q as [|b q]; [by apply (flow_same _ _ _ HF)|].
    set (n := Z.to_nat _). apply (flow_same _ _ _ HF); [|done|]; projections.
    + intros _. split; [done|]. unfold stream, waiting, in_flight. projections. cbn [app]. rewrite (app_assoc (take n _)).
      by rewrite take_drop.
    + unfold size. rewrite length_drop. lia.
  - destruct (notify_stream ((mkInput dn q d rd (PNotify chunk) st dl) <| pump := PDeliver chunk |>)) as (E1 & E2 & E3 & E4 & _).
    apply (flow_same _ _ _ HF); [|done|by rewrite E3]. intros Hi. rewrite E2 in Hi. by rewrite E1.
  - destruct dn; [rewrite orb_true_r; by apply (flow_same _ _ _ HF)|]. rewrite orb_false_r.
    destruct (bool_decide_reflect (rest = [])) as [->|Hne]; [by apply (flow_same _ _ _ HF)|].
    destruct (accept rest d) as [n d']. destruct HF as [F1 F2 F3]. split; projections; [| |done].
    + intros _. rewrite F1 by done. unfold stream, waiting, in_flight. projections.
      by rewrite <- (app_assoc dl), (app_assoc (take _ rest)), take_drop.
    + rewrite F1 by done. unfold stream, in_flight. projections. exists (drop (Z.to_nat n) rest ++ q ++ waiting (mkInput false q d rd (PDeliver rest) st dl)).
      by rewrite <- (app_assoc dl), (app_assoc (take _ rest)), take_drop.
Qed.

Lemma flow_stop t s s' : stop_step s = Some s' -> flow t s -> flow t s'.
Proof.
  unfold stop_step. destruct s as [dn q d rd pm st dl]. projections. destruct st; try done.
  - intros [= <-] HF. by apply (flow_same _ _ _ HF).
  - intros [= <-] HF. apply (flow_same _ _ _ HF); unfold cancel_read; projections; by destruct rd.
  - intros [= <-] HF. apply (flow_same _ _ _ HF); unfold cancel_read; projections; by destruct rd.
  - destruct rd; try done. intros [= <-] HF. by apply (flow_same _ _ _ HF).
  - intros [= <-] HF. destruct (notify_stream (mkInput dn q d rd pm SNotify dl)) as (E1 & E2 & E3 & E4 & _).
    apply (flow_same _ _ _ HF); projections; [|done|by rewrite E3]. intros Hi. rewrite E2 in Hi. split; [done|].
    rewrite <- E1. unfold stream, waiting, in_flight. by projections.
  - destruct pm; try done. intros [= <-] HF. by apply (flow_same _ _ _ HF).
Qed.

Lemma flow_exec ls : forall t s s',
  exec ls s = Some s' -> existsb is_interrupt ls = false -> flow t s -> flow (t ++ typed ls) s'.
Proof.
  induction ls as [|l ls IH]; cbn; intros t s s'; [intros [= <-] _; by rewrite app_nil_r|].
  destruct (next l s) as [s1|] eqn:En; [|done]. intros He [Hl Hls]%orb_false_iff HF. unfold typed. cbn [map concat].
  rewrite app_assoc. apply (IH _ s1); [done|done|]. destruct l as [|data| | | |d]; cbn in En; cbn [typed_by]; rewrite ?app_nil_r; try done.
  - by apply (flow_reader _ s).
  - by apply (flow_read _ data s).
  - by apply (flow_pump _ s).
  - by apply (flow_stop _ s).
  - injection En as <-. by apply (flow_same _ _ _ HF).
Qed.

(** C37.  Console input reaches the device in the order it was typed, under any interleaving
    of the reader, the pump, the guest and the end of the run.  While the machine runs,
    what was read is exactly what the device has taken, what the pump holds, what is
    queued and what the reader waits to queue; afterwards the device has a prefix of it.
    The queue stays within its limit, and Ctrl-C goes ahead of everything still queued,
    at the price of the newest byte when the queue is full. *)
Theorem input_in_order d ls s :
  exec ls (launch d) = Some s -> existsb is_interrupt ls = false ->
  (input_done s = false -> typed ls = stream s) /\ (exists rest, typed ls = delivered s ++ rest) /\
  size (host_input_queue s) <= kHostInputQueueLimit /\
  host_input_queue (queue_front 3 s) = 3 :: take (Z.to_nat (kHostInputQueueLimit - 1)) (host_input_queue s).
Proof.
  intros He Hi. destruct (flow_exec ls [] (launch d) s He Hi) as [F1 F2 F3].
  - split; [done|by exists []|done].
  - split_and!; try done. unfold queue_front.
    destruct (notify_stream (s <| host_input_queue := 3 :: pop_back_while (length (host_input_queue s)) (host_input_queue s) |>))
      as (_ & _ & -> & _). projections. by rewrite pop_back_take.
Qed.

(** ** stop_input *)

Record waits s : Prop := {
  w_stopped : stop s <> SRunning -> input_done s = true;
  w_reader bytes : reader s = RAsleep bytes ->
    kHostInputQueueLimit < size (host_input_queue s) + size bytes \/ exists chunk, pump s = PNotify chunk;
  w_pump : stop s = SJoinPump -> pump s <> PAsleep }.

Lemma waits_notify s : waits s -> waits (notify_all s).
Proof.
  unfold notify_all. destruct s as [dn q d rd pm st dl]. intros [W1 W2 W3]. projections.
  destruct rd, pm; split; projections; try done; auto.
Qed.

Lemma next_waits l s s' : next l s = Some s' -> waits s -> waits s'.
Proof.
  destruct l as [|data| | | |d']; cbn.
  - unfold reader_step. destruct s as [dn q d rd pm st dl]. projections. destruct rd; try done; intros [= <-] [W1 W2 W3].
    + split; projections; try done. by destruct dn.
    + by split.
    + unfold queue_back, fits. projections. destruct dn; [by split|].
      destruct (Z.leb_spec (size q + size bytes) kHostInputQueueLimit); [by split|]. split; projections; try done.
      intros bs [= <-]. by left.
    + by apply waits_notify.
  - unfold read_returns. destruct s as [dn q d rd pm st dl]. projections. destruct rd; try done. destruct (_ <? _); [done|].
    destruct (bool_decide (data = [])); [intros [= <-] [W1 W2 W3]; by split|].
    destruct (input_bytes _ data); intros [= <-] [W1 W2 W3]; by split.
  - unfold pump_step. destruct s as [dn q d rd pm st dl]. projections. destruct pm; try done; intros [= <-] [W1 W2 W3].
    + destruct dn.
      * split; projections; try done. intros bs Hb. by destruct (W2 bs Hb) as [?|[? ?]]; [left|].
      * destruct q; split; projections; try done.
        -- intros bs Hb. by destruct (W2 bs Hb) as [?|[? ?]]; [left|].
        -- intros ->. by assert (false = true) by by apply W1.
        -- intros bs Hb. right. by eexists.
    + unfold notify_all. projections. destruct rd; split; projections; done.
    + destruct (bool_decide (rest = []) || dn).
      * split; projections; try done. intros bs Hb. by destruct (W2 bs Hb) as [?|[? ?]]; [left|].
      * destruct (accept rest d) as [n d']. split; projections; try done.
        intros bs Hb. by destruct (W2 bs Hb) as [?|[? ?]]; [left|].
  - unfold stop_step, cancel_read, notify_all. destruct s as [dn q d rd pm st dl]. projections. intros Hn [W1 W2 W3].
    destruct st; [..|done]; try (destruct rd; try done); try (destruct pm; try done); injection Hn as <-; split; projections; auto; done.
  - destruct stdin_is_console; [|done]. intros [= <-] HW. unfold queue_front, notify_all.
    destruct s as [dn q d rd pm st dl], HW as [W1 W2 W3]. projections. destruct rd, pm; split; projections; try done; auto.
  - intros [= <-] [W1 W2 W3]. by split.
Qed.

Lemma exec_waits ls : forall s s', exec ls s = Some s' -> waits s -> waits s'.
Proof.
  induction ls as [|l ls IH]; cbn; intros s s'; [by intros [= <-]|].
  destruct (next l s) as [s1|] eqn:En; [|done]. intros He HW. by eapply IH, next_waits.
Qed.

(** Everything that can still move without the host's keyboard is asleep or over. *)
Definition hung s : Prop :=
  stop s = SJoinReader /\ (pump s = PDone \/ pump s = PAsleep) /\
  (reader s = RReading \/
   exists bytes, reader s = RAsleep bytes /\ kHostInputQueueLimit < size (host_input_queue s) + size bytes).

Lemma hung_asleep ls : forall s s' bytes,
  hung s -> reader s = RAsleep bytes -> existsb is_interrupt ls = false -> exec ls s = Some s' ->
  stop s' = SJoinReader /\ reader s' = RAsleep bytes.
Proof.
  induction ls as [|l ls IH]; intros s s' bytes Hh Hr; cbn; [intros _ [= <-]; by destruct Hh|].
  intros [Hl Hls]%orb_false_iff He. destruct (next l s) as [s1|] eqn:En; [|done].
  destruct Hh as (Hst & Hp & Hrd). destruct l as [|data| | | |d']; cbn in En.
  - unfold reader_step in En. by rewrite Hr in En.
  - unfold read_returns in En. by rewrite Hr in En.
  - unfold pump_step in En. by destruct Hp as [E|E]; rewrite E in En.
  - unfold stop_step in En. by rewrite Hst, Hr in En.
  - done.
  - injection En as <-. by apply (IH (s <| device := d' |>) s' bytes).
Qed.

(** One byte typed while the pump still holds another. *)
Definition round : list label := [LReader; LReader; LRead [97]; LReader; LReader].
Definition backlog (q : list Z) (d : D) : input := mkInput false q d RCheck (PDeliver [97]) SRunning [].
Lemma round_exec q d : size q < kHostInputQueueLimit -> exec round (backlog q d) = Some (backlog (q ++ [97]) d).
Proof.
  intros Hq. unfold round, backlog. cbn. unfold read_returns, reader_step, queue_back, fits. projections.
  assert (E : input_bytes stdin_is_console [97] = [97]) by (unfold input_bytes; by destruct stdin_is_console).
  change (bool_decide ([97] = [])) with false. cbn [size length]. rewrite E.
  replace ((if stdin_is_console then 4096 else 1) <? size [97]) with false by (by destruct stdin_is_console).
  projections. change (size [97]) with 1. destruct (Z.leb_spec (size q + 1) kHostInputQueueLimit); [done|lia].
Qed.

Lemma exec_app l1 l2 : forall s, exec (l1 ++ l2) s = match exec l1 s with Some s' => exec l2 s' | None => None end.
Proof. induction l1 as [|l l1 IH]; intros s; [done|]. cbn. by destruct (next l s). Qed.

Lemma rounds_exec n : forall q d, size q + Z.of_nat n <= kHostInputQueueLimit ->
  exec (concat (repeat round n)) (backlog q d) = Some (backlog (q ++ repeat 97 n) d).
Proof.
  induction n as [|n IH]; intros q d Hq; [by rewrite app_nil_r|]. change (repeat round (S n)) with (round :: repeat round n).
  cbn [concat]. rewrite exec_app, round_exec, IH by (rewrite ?size_app; change (size [97]) with 1; lia).
  by rewrite <- app_assoc.
Qed.

(** The host types on until the queue is full, then the run ends. *)
Definition hang_trace : list label :=
  [LReader; LReader; LRead [97]; LReader; LReader; LPump; LPump] ++ concat (repeat round (Z.to_nat kHostInputQueueLimit)) ++
  [LReader; LReader; LRead [97]; LReader; LStop; LStop; LStop; LPump; LPump].
Lemma hang_reached d : exists s, exec hang_trace (launch d) = Some s /\ hung s /\ exists bytes, reader s = RAsleep bytes.
Proof.
  assert (E : input_bytes stdin_is_console [97] = [97]) by (unfold input_bytes; by destruct stdin_is_console).
  set (full := repeat 97 (Z.to_nat kHostInputQueueLimit)).
  assert (Hf : size full = kHostInputQueueLimit) by (unfold full, size; rewrite repeat_length; unfold kHostInputQueueLimit; lia).
  exists (mkInput true full d (RAsleep [97]) PDone SJoinReader []).
  split; [|split; [split; [done|split; [by left|]]; right; exists [97]; split; [done|]; cbn [host_input_queue]; rewrite Hf; change (size [97]) with 1; lia|by exists [97]]].
  unfold hang_trace. rewrite exec_app.
  assert (E1 : exec [LReader; LReader; LRead [97]; LReader; LReader; LPump; LPump] (launch d) = Some (backlog [] d)).
  { cbn. unfold read_returns. projections. rewrite E.
    replace ((if stdin_is_console then 4096 else 1) <? size [97]) with false by (by destruct stdin_is_console). done. }
  rewrite E1, exec_app, rounds_exec by (unfold size, kHostInputQueueLimit; cbn [length]; lia).
  cbn [app]. fold full. clearbody full. unfold backlog. cbn [exec next]. unfold read_returns, reader_step. projections.
  replace ((if stdin_is_console then 4096 else 1) <? size [97]) with false by (by destruct stdin_is_console).
  change (bool_decide ([97] = [])) with false. rewrite E. projections. unfold queue_back, fits. projections.
  rewrite Hf. change (kHostInputQueueLimit + size [97] <=? kHostInputQueueLimit) with false. done.
Qed.

(** The reader passes its test, the run ends, both cancellations find no call to end, and
    only then the reader enters ReadFile. *)
Definition race_trace : list label := [LReader; LStop; LStop; LStop; LReader; LPump].
Definition race_state (d : D) : input := mkInput true [] d RReading PDone SJoinReader [].
Lemma race_reached d : exec race_trace (launch d) = Some (race_state d).
Proof. done. Qed.

Definition is_read (l : label) : bool := match l with LRead _ => true | _ => false end.

Lemma hung_reading ls : forall s s',
  stop s = SJoinReader -> reader s = RReading -> existsb is_read ls = false -> exec ls s = Some s' ->
  stop s' = SJoinReader /\ reader s' = RReading.
Proof.
  induction ls as [|l ls IH]; intros s s' Hst Hr; cbn; [by intros _ [= <-]|].
  intros [Hl Hls]%orb_false_iff He. destruct (next l s) as [s1|] eqn:En; [|done].
  apply (IH s1 s'); [| |done|done]; clear IH He; destruct s as [dn q d rd pm st dl]; projections; subst st rd;
    (destruct l as [|data| | | |d']; cbn in En; try done); try (by injection En as <-);
    try (unfold pump_step in En; projections; destruct pm; try done; injection En as <-;
         repeat (case_match; try done); done);
    try (unfold queue_front, notify_all in En; destruct stdin_is_console; [|done]; injection En as <-; projections; by destruct pm).
Qed.

End Facts.

(** ** A receiver that takes three bytes at a time *)
Module Demo.
#[export] Program Instance three : Receiver unit := {| accept bs d := (Z.min 3 (size bs), d) |}.
Next Obligation. intros bs d. unfold size. cbn. lia. Qed.

Definition ls : list (@label unit) :=
  [LPump; LReader; LReader; LRead [108; 115; 13; 10]; LReader; LReader; LPump; LPump; LPump; LStop].
Lemma input_in_order_witness :
  exists s, exec true ls (launch tt) = Some s /\ delivered s = [108; 115; 10] /\ size (host_input_queue s) <= kHostInputQueueLimit.
Proof.
  destruct (exec true ls (launch tt)) as [s|] eqn:E; [|exfalso; revert E; vm_compute; discriminate].
  exists s. split; [reflexivity|]. split; [revert E; vm_compute; intros [= <-]; reflexivity|].
  apply (input_in_order true tt ls s E). reflexivity.
Defined.

End Demo.
