(* ===== verification/ArmBoard.v ===== *)
(** * native/hvf/backend.cc: the memory map of the ARM board

    One definition for the device tree that describes the machine to the guest (Fdt) and
    for the code that decodes the guest's accesses (ArmDevices, ArmCpu). *)

From S2P Require Import Prelude Words Bytes.

Definition kGicDistBase : Z := 0x08000000.
Definition kGicRedistBase : Z := 0x080A0000.
Definition kUartBase : Z := 0x09000000.
Definition kPl031RtcBase : Z := 0x09010000.
Definition kFwCfgBase : Z := 0x09020000.
Definition kPl061GpioBase : Z := 0x09030000.
Definition kVirtioMmioBase : Z := 0x0A000000.
Definition kVirtioMmioSize : Z := 0x200.
Definition kVirtioMmioStride : Z := 0x200.
Definition kVirtioMmioCount : Z := 32.
Definition kExitDevBase : Z := 0x0B000000.
Definition kPcieMmioBase : Z := 0x10000000.
Definition kPcieMmioSize : Z := 0x2EFF0000.
Definition kPciePioBase : Z := 0x3EFF0000.
Definition kPciePioSize : Z := 0x00010000.
Definition kPcieEcamBase : Z := 0x3F000000.
Definition kPcieEcamSize : Z := 0x01000000.
Definition kRamBase : Z := 0x40000000.
Definition kDtbOffset : Z := 0.
Definition kKernelOffset : Z := 0x00400000.
Definition kGicRedistributorBytesPerCpu : Z := 0x20000.

Definition kUartSpi : Z := 1.
Definition kRtcSpi : Z := 2.
Definition kPcieFirstSpi : Z := 3.
Definition kPcieIntxCount : Z := 4.
Definition kGpioSpi : Z := 7.
Definition kVirtioFirstSpi : Z := 16.
Definition kUartIntid : Z := 32 + kUartSpi.
Definition kMaxQueueSize : Z := 256.

Definition VirtioMmioBaseForSlot (slot : Z) : Z := kVirtioMmioBase + slot * kVirtioMmioStride.
Definition VirtioMmioIntidForSlot (slot : Z) : Z := u32 (32 + kVirtioFirstSpi + slot).
Definition kPciRangeIoPort : Z := 0x01000000.
Definition kPciRangeMmio32 : Z := 0x02000000.

Definition IsQemuVirtioMmioAddress (ipa : Z) : bool :=
  (kVirtioMmioBase <=? ipa) && (ipa <? kVirtioMmioBase + kVirtioMmioCount * kVirtioMmioStride).
Definition VirtioMmioOffset (ipa : Z) : Z := u64 (ipa - kVirtioMmioBase) mod kVirtioMmioStride.
Definition PcieBusCount : Z := kPcieEcamSize / 0x100000.
Definition GicRedistributorBytes (cpus : Z) : Z := u32 (kGicRedistributorBytesPerCpu * cpus).

(** ** The buffer of an access

    [dispatch_mmio] hands every device the caller's buffer of eight bytes: a read stores
    into it, and a 32-bit store covers four bytes whatever the length of the access. *)

(** [memset(data, c, len)] *)
Definition memset (data : list Z) (c len : Z) : list Z := repeat c (Z.to_nat len) ++ drop (Z.to_nat len) data.
(** The stores of [bs] at [data[0]], [data[1]], ... *)
Definition put (data bs : list Z) : list Z := bs ++ drop (length bs) data.

(** The test of the access length, and the last eight words of a PrimeCell. *)
Definition bad_len (len limit : Z) : bool := (len =? 0) || (limit <? len).
Definition prime_cell (id0 offset : Z) : Z :=
  if offset =? 0xFE0 then id0 else if offset =? 0xFE4 then 0x10 else if offset =? 0xFE8 then 0x14 else
  if offset =? 0xFEC then 0x00 else if offset =? 0xFF0 then 0x0D else if offset =? 0xFF4 then 0xF0 else
  if offset =? 0xFF8 then 0x05 else if offset =? 0xFFC then 0xB1 else 0.

Definition buffer_ok (data : list Z) : Prop := bytes_ok data /\ length data = 8%nat.

Lemma memset_buffer_ok data c len : buffer_ok data -> is_byte c -> 0 <= len <= 8 -> buffer_ok (memset data c len).
Proof.
  intros [Hb Hl] Hc Hn. split.
  - apply Forall_app. split; [|by apply Forall_drop]. apply List.Forall_forall. intros x Hx. by apply repeat_spec in Hx as ->.
  - unfold memset. rewrite length_app, repeat_length, length_drop. lia.
Qed.
Lemma put_buffer_ok data bs : buffer_ok data -> bytes_ok bs -> (length bs <= 8)%nat -> buffer_ok (put data bs).
Proof.
  intros [Hb Hl] Hbs Hn. split; [apply Forall_app; split; [done|by apply Forall_drop]|].
  unfold put. rewrite length_app, length_drop. lia.
Qed.
#[export] Hint Resolve memset_buffer_ok put_buffer_ok : buffer.
