(* ===== verification/ArmUart.v ===== *)
(** * native/hvf/backend.cc: the serial port of the ARM board (Pl011Uart)

    Registers, the receive queue, the transmit path with its answer to the terminal's
    cursor query, and the interrupt line.  Calls of the interrupt callback, bytes written
    to the standard output and notifications are recorded.  Theorems: the level the
    interrupt controller was last told is the masked interrupt status, the receive bits say
    whether data wait, typed input is delivered first in first out up to the capacity, and
    what the captured console holds. *)

From S2P Require Import Prelude Words Bytes ArmBoard.

Definition kRxInterrupts : Z := Z.lor 0x10 0x40.
Definition kRxLimit : nat := 4096.

Record Pl011Uart := mkPl011 {
  rx_ : list Z; console_ : list Z; terminal_query_ : list Z;
  console_limit_ : Z; echo_stdout_ : bool; console_output_seen_ : bool; has_notify : bool;
  cr_ : Z; ibrd_ : Z; fbrd_ : Z; lcr_h_ : Z; ifls_ : Z; dmacr_ : Z; imsc_ : Z; ris_ : Z;
  stdout : list Z;          (** bytes written to STDOUT_FILENO *)
  notified : Z;             (** calls of console_output_notify_ *)
  gic : list (Z * bool)     (** calls of gic_inject_, the last one first *) }.
#[export] Instance eta_Pl011 : Eta Pl011Uart := fun s => mkPl011
  (rx_ s) (console_ s) (terminal_query_ s) (console_limit_ s) (echo_stdout_ s) (console_output_seen_ s) (has_notify s)
  (cr_ s) (ibrd_ s) (fbrd_ s) (lcr_h_ s) (ifls_ s) (dmacr_ s) (imsc_ s) (ris_ s) (stdout s) (notified s) (gic s).

(** The members' initial values, with the callbacks RunVm sets. *)
Definition Pl011Uart_new (limit : Z) (echo : bool) : Pl011Uart :=
  mkPl011 [] [] [] limit echo false true 0x301 13 1 0x70 0x12 0 0 0 [] 0 [].

(** The level of the interrupt: MIS is not zero. *)
Definition level (s : Pl011Uart) : bool := negb (Z.land (ris_ s) (imsc_ s) =? 0).
Definition irq_pending : Pl011Uart -> bool := level.
Definition consume_irq_level : Pl011Uart -> bool := level.

Definition update_irq_locked (s : Pl011Uart) : Pl011Uart :=
  let s := match rx_ s with
           | _ :: _ => s <| ris_ := Z.lor (ris_ s) kRxInterrupts |>
           | [] => s <| ris_ := Z.land (ris_ s) (bnot 32 kRxInterrupts) |>
           end in
  s <| gic := (kUartIntid, level s) :: gic s |>.

(** ** Transmission *)

Definition emit_tx_locked (c : Z) (s : Pl011Uart) : Pl011Uart :=
  let s := if Z.of_nat (length (console_ s)) <? console_limit_ s then s <| console_ := console_ s ++ [c] |> else s in
  if echo_stdout_ s then
    let s := if console_output_seen_ s then s
             else let s := s <| console_output_seen_ := true |> in
                  if has_notify s then s <| notified := notified s + 1 |> else s in
    s <| stdout := stdout s ++ [c] |>
  else s.

(** ESC [ 6 n, and the answer ESC [ 1 ; 1 R *)
Definition query : list Z := [0x1B; 0x5B; 0x36; 0x6E].
Definition response : list Z := [0x1B; 0x5B; 0x31; 0x3B; 0x31; 0x52].

(** The loop over [response] from its end. *)
Fixpoint push_front_while (bs : list Z) (q : list Z) : list Z :=
  match bs with
  | [] => q
  | b :: bs => if (length q <? kRxLimit)%nat then push_front_while bs (b :: q) else q
  end.

(** [query.rfind(l, 0) == 0]: [l] is a prefix of the query. *)
Fixpoint prefix_of (l q : list Z) : bool :=
  match l, q with
  | [], _ => true
  | a :: l, b :: q => (a =? b) && prefix_of l q
  | _ :: _, [] => false
  end.

Definition handle_tx_locked (c : Z) (s : Pl011Uart) : Pl011Uart :=
  if echo_stdout_ s then emit_tx_locked c s
  else if negb (match terminal_query_ s with [] => true | _ => false end) || (c =? 0x1B) then
    let s := s <| terminal_query_ := terminal_query_ s ++ [c] |> in
    if prefix_of (terminal_query_ s) query then
      if bool_decide (terminal_query_ s = query) then
        s <| rx_ := push_front_while (rev response) (rx_ s) |>
          <| ris_ := Z.lor (ris_ s) kRxInterrupts |>
          <| terminal_query_ := [] |>
      else s
    else (fold_left (fun s c => emit_tx_locked c s) (terminal_query_ s) s) <| terminal_query_ := [] |>
  else emit_tx_locked c s.

(** ** Registers *)

Definition flags (s : Pl011Uart) : Z :=
  let val := 0x90 in
  let val := match rx_ s with [] => val | _ => Z.land val (bnot 32 0x10) end in
  Z.land val (bnot 32 0x20).

Definition register (offset : Z) (s : Pl011Uart) : Z :=
  if offset =? 0x018 then flags s else if offset =? 0x024 then ibrd_ s else if offset =? 0x028 then fbrd_ s else
  if offset =? 0x02C then lcr_h_ s else if offset =? 0x030 then cr_ s else if offset =? 0x034 then ifls_ s else
  if offset =? 0x038 then imsc_ s else if offset =? 0x03C then ris_ s else
  if offset =? 0x040 then Z.land (ris_ s) (imsc_ s) else if offset =? 0x048 then dmacr_ s else prime_cell 0x11 offset.

(** Reading DR. *)
Definition pop_rx (s : Pl011Uart) : Z * Pl011Uart :=
  match rx_ s with
  | [] => (0, s)
  | c :: rest =>
      let s := s <| rx_ := rest |> in
      let s := match rest with [] => s <| ris_ := Z.land (ris_ s) (bnot 32 kRxInterrupts) |> | _ => s end in
      (c, update_irq_locked s)
  end.

Definition read_mmio (offset : Z) (data : list Z) (len : Z) (s : Pl011Uart) : list Z * Pl011Uart :=
  let data := memset data 0 len in
  if bad_len len 4 then (data, s)
  else
    let '(val, s) := if offset =? 0 then pop_rx s else (register offset s, s) in
    (put data (WriteU32 val), s).

Definition write_register (offset val : Z) (s : Pl011Uart) : Pl011Uart :=
  if offset =? 0x024 then s <| ibrd_ := Z.land val 0xFFFF |>
  else if offset =? 0x028 then s <| fbrd_ := Z.land val 0x3F |>
  else if offset =? 0x02C then s <| lcr_h_ := val |>
  else if offset =? 0x030 then s <| cr_ := val |>
  else if offset =? 0x034 then update_irq_locked (s <| ifls_ := Z.land val 0x3F |>)
  else if offset =? 0x038 then update_irq_locked (s <| imsc_ := val |>)
  else if offset =? 0x044 then update_irq_locked (s <| ris_ := Z.land (ris_ s) (bnot 32 val) |>)
  else if offset =? 0x048 then s <| dmacr_ := val |>
  else s.

Definition write_mmio (offset : Z) (data : list Z) (len : Z) (s : Pl011Uart) : Pl011Uart :=
  if bad_len len 4 then s
  else
    let s := if offset =? 0 then
               let s := handle_tx_locked (byte_at data 0) s in
               update_irq_locked (s <| ris_ := Z.lor (ris_ s) 0x20 |>)
             else s in
    write_register offset (ReadU32 data) s.

(** ** Input from the host *)

Definition inject_char (c : Z) (s : Pl011Uart) : Pl011Uart :=
  let s := if (length (rx_ s) <? kRxLimit)%nat then s <| rx_ := rx_ s ++ [c] |> else s in
  update_irq_locked (s <| ris_ := Z.lor (ris_ s) kRxInterrupts |>).

Fixpoint push_back_while (bs : list Z) (q : list Z) : list Z :=
  match bs with
  | [] => q
  | b :: bs => if (length q <? kRxLimit)%nat then push_back_while bs (q ++ [b]) else q
  end.

Definition inject_bytes (bs : list Z) (s : Pl011Uart) : Pl011Uart :=
  let s := s <| rx_ := push_back_while bs (rx_ s) |> in
  let s := match bs with [] => s | _ => s <| ris_ := Z.lor (ris_ s) kRxInterrupts |> end in
  update_irq_locked s.

Definition refresh_irq : Pl011Uart -> Pl011Uart := update_irq_locked.

(** ** The interrupt line *)

Inductive op :=
  | Read (offset : Z) (data : list Z) (len : Z)
  | Write (offset : Z) (data : list Z) (len : Z)
  | InjectChar (c : Z)
  | InjectBytes (bs : list Z)
  | Refresh.
Definition run_op (o : op) (s : Pl011Uart) : Pl011Uart :=
  match o with
  | Read offset data len => (read_mmio offset data len s).2
  | Write offset data len => write_mmio offset data len s
  | InjectChar c => inject_char c s
  | InjectBytes bs => inject_bytes bs s
  | Refresh => refresh_irq s
  end.
Definition run_ops (ops : list op) (s : Pl011Uart) : Pl011Uart := fold_left (fun s o => run_op o s) ops s.

(** What the interrupt controller was last told. *)
Definition last_level (s : Pl011Uart) : bool := match gic s with [] => false | (_, l) :: _ => l end.
(** The receive bits of the raw status say whether data wait. *)
Definition rx_bits (s : Pl011Uart) : Prop :=
  Z.land (ris_ s) kRxInterrupts = match rx_ s with [] => 0 | _ => kRxInterrupts end.

Record uart_ok (s : Pl011Uart) : Prop := {
  ok_rx : rx_bits s;
  ok_line : last_level s = level s;
  ok_intid : Forall (fun c => c.1 = kUartIntid) (gic s);
  ok_room : (length (rx_ s) <= kRxLimit)%nat }.

(** Everything but the status and the line. *)
Record quiet (s s' : Pl011Uart) : Prop := {
  q_gic : gic s' = gic s;
  q_imsc : imsc_ s' = imsc_ s;
  q_room : (length (rx_ s) <= kRxLimit -> length (rx_ s') <= kRxLimit)%nat }.
Lemma quiet_refl s : quiet s s.
Proof. done. Qed.

(** [update_irq_locked] restores the invariant whatever was done to the status. *)
Lemma update_ok s : Forall (fun c => c.1 = kUartIntid) (gic s) -> (length (rx_ s) <= kRxLimit)%nat -> uart_ok (update_irq_locked s).
Proof.
  intros Hg Hr. unfold update_irq_locked. destruct (rx_ s) as [|c rest] eqn:E; split; unfold rx_bits, last_level; cbn; rewrite ?E.
  - rewrite <- Z.land_assoc. apply Z.land_0_r.
  - done.
  - by constructor.
  - cbn in *; lia.
  - apply Z.bits_inj'. intros i. rewrite Z.land_spec, Z.lor_spec. by destruct (Z.testbit (ris_ s) i), (Z.testbit kRxInterrupts i).
  - done.
  - by constructor.
  - done.
Qed.
Lemma update_quiet s s' : uart_ok s -> quiet s s' -> uart_ok (update_irq_locked s').
Proof. intros [_ _ Hi Hr] [Eg _ Hq]. apply update_ok; [by rewrite Eg|by apply Hq]. Qed.
Lemma update_rx s : rx_ (update_irq_locked s) = rx_ s.
Proof. unfold update_irq_locked. by destruct (rx_ s) eqn:E; cbn; rewrite ?E. Qed.

Lemma emit_quiet c s : quiet s (emit_tx_locked c s).
Proof. unfold emit_tx_locked. destruct (_ <? _), (echo_stdout_ s) eqn:E; cbn; rewrite ?E; split; repeat case_match; done. Qed.
Lemma quiet_trans s s1 s2 : quiet s s1 -> quiet s1 s2 -> quiet s s2.
Proof. intros [A1 B1 C1] [A2 B2 C2]. split; [congruence|congruence|auto]. Qed.
Lemma emit_all_quiet l : forall s, quiet s (fold_left (fun s c => emit_tx_locked c s) l s).
Proof. induction l as [|c l IH]; intros s; [done|]. cbn [fold_left]. eapply quiet_trans; [apply emit_quiet|apply IH]. Qed.

Lemma push_front_room bs : forall q, (length q <= kRxLimit -> length (push_front_while bs q) <= kRxLimit)%nat.
Proof.
  induction bs as [|b bs IH]; intros q Hq; cbn [push_front_while]; [done|].
  destruct (Nat.ltb_spec (length q) kRxLimit); [|done]. apply IH. cbn [length]. lia.
Qed.
Lemma push_back_spec bs : forall q, push_back_while bs q = q ++ take (kRxLimit - length q) bs.
Proof.
  induction bs as [|b bs IH]; intros q; cbn [push_back_while]; [by rewrite take_nil, app_nil_r|].
  destruct (Nat.ltb_spec (length q) kRxLimit) as [Hl|Hl].
  - rewrite IH, length_app. cbn [length]. replace (kRxLimit - length q)%nat with (S (kRxLimit - (length q + 1))) by lia.
    by rewrite <- app_assoc.
  - replace (kRxLimit - length q)%nat with O by lia. by rewrite app_nil_r.
Qed.

Lemma handle_tx_quiet c s : quiet s (handle_tx_locked c s).
Proof.
  unfold handle_tx_locked. destruct (echo_stdout_ s); [apply emit_quiet|]. destruct (_ || _); [|apply emit_quiet].
  cbn [terminal_query_]. destruct (prefix_of _ _).
  - destruct (bool_decide _); split; cbn; try done. exact (push_front_room (rev response) (rx_ s)).
  - by destruct (emit_all_quiet (terminal_query_ s ++ [c]) (s <| terminal_query_ := terminal_query_ s ++ [c] |>)).
Qed.

Lemma write_register_ok offset val s : uart_ok s -> uart_ok (write_register offset val s).
Proof.
  intros Hs. unfold write_register. repeat case_match; try (apply (update_ok _); cbn; apply Hs); try done; destruct Hs; by split.
Qed.

Lemma run_op_ok o s : uart_ok s -> uart_ok (run_op o s).
Proof.
  intros Hs. destruct o as [offset data len|offset data len|c|bs|]; cbn [run_op].
  - unfold read_mmio. destruct (bad_len _ _); [done|]. destruct (offset =? 0); [|done]. unfold pop_rx.
    destruct (rx_ s) as [|c rest] eqn:E; [done|]. cbn [snd]. pose proof (ok_room _ Hs) as Hr. rewrite E in Hr. cbn in Hr.
    apply update_ok; destruct rest; cbn in *; try apply Hs; lia.
  - unfold write_mmio. destruct (bad_len _ _); [done|]. apply write_register_ok. destruct (offset =? 0); [|done].
    apply (update_quiet s); [done|]. eapply quiet_trans; [apply handle_tx_quiet|]. done.
  - unfold inject_char. apply (update_quiet s); [done|]. destruct (Nat.ltb_spec (length (rx_ s)) kRxLimit); [|done].
    split; [done|done|]. cbn. rewrite length_app. cbn [length]. lia.
  - unfold inject_bytes. apply (update_quiet s); [done|].
    assert (Hq : quiet s (s <| rx_ := push_back_while bs (rx_ s) |>)).
    { split; [done|done|]. cbn. rewrite push_back_spec, length_app, length_take. lia. }
    destruct bs; [exact Hq|]. eapply quiet_trans; [exact Hq|done].
  - apply (update_quiet s); done.
Qed.

Lemma run_ops_ok ops : forall s, uart_ok s -> uart_ok (run_ops ops s).
Proof. induction ops as [|o ops IH]; intros s Hs; [done|]. cbn. by apply IH, run_op_ok. Qed.

(** C25. After any sequence of guest accesses and host input, the level of interrupt 33 that
    the interrupt controller was last told is exactly the masked interrupt status (MIS is
    not zero), the two receive bits of the raw status are set exactly when a byte waits
    (and the flag register's RXFE bit agrees), and the queue never exceeds its 4096 bytes. *)
Theorem uart_irq_line limit echo ops :
  let s := run_ops ops (Pl011Uart_new limit echo) in
  last_level s = negb (register 0x40 s =? 0) /\
  Forall (fun c => c.1 = kUartIntid) (gic s) /\
  (Z.land (register 0x3C s) 0x50 = if has (register 0x18 s) 0x10 then 0 else 0x50) /\
  (has (register 0x18 s) 0x10 = true <-> rx_ s = []) /\
  (length (rx_ s) <= 4096)%nat.
Proof.
  intros s. assert (Hs : uart_ok s).
  { apply run_ops_ok. split; [done|done|constructor|]. apply Nat.le_0_l. }
  clearbody s. destruct Hs as [Hb Hl Hi Hr]. unfold rx_bits in Hb. change (register 0x40 s) with (Z.land (ris_ s) (imsc_ s)).
  change (register 0x3C s) with (ris_ s). change (register 0x18 s) with (flags s). change 0x50 with kRxInterrupts.
  rewrite Hb. unfold flags. split; [done|]. split; [done|]. destruct (rx_ s); cbn; done.
Qed.

(** ** Input reaches the guest in order *)

(** [k] reads of the data register: the bytes the guest gets. *)
Fixpoint reads (k : nat) (len : Z) (s : Pl011Uart) : list Z * Pl011Uart :=
  match k with
  | O => ([], s)
  | S k => let '(data, s) := read_mmio 0 (repeat 0 8) len s in
           let '(bs, s) := reads k len s in (byte_at data 0 :: bs, s)
  end.

Lemma byte_at_put data v : is_byte v -> byte_at (put data (WriteU32 v)) 0 = v.
Proof.
  intros Hv. change (byte_at (put data (WriteU32 v)) 0) with (u8 (Z.land (Z.shiftr v 0) 0xff)).
  rewrite byte_of_shift by lia. rewrite Z.pow_0_r, Z.div_1_r. by apply Z.mod_small.
Qed.

Lemma read_dr c rest len s : 1 <= len <= 4 -> rx_ s = c :: rest -> is_byte c ->
  exists s', read_mmio 0 (repeat 0 8) len s = (put (memset (repeat 0 8) 0 len) (WriteU32 c), s') /\ rx_ s' = rest /\
    byte_at (put (memset (repeat 0 8) 0 len) (WriteU32 c)) 0 = c.
Proof.
  intros Hl E Hc. unfold read_mmio. replace (bad_len len 4) with false by (unfold bad_len; lia). cbn [Z.eqb]. unfold pop_rx. rewrite E.
  eexists. split; [reflexivity|]. split; [|by apply byte_at_put]. rewrite update_rx. by destruct rest.
Qed.

(** Host input is delivered first in first out: injected bytes are appended to what
    waits as far as the 4096 bytes of room go (the rest is dropped and nothing tells the guest),
    and reads of the data register return the waiting bytes in order, one each, with accesses of
    any width; the guest can see from RXFE when to stop. *)
Theorem uart_input_fifo s bs k len :
  bytes_ok (rx_ s) -> bytes_ok bs -> 1 <= len <= 4 ->
  let s1 := inject_bytes bs s in
  rx_ s1 = rx_ s ++ take (4096 - length (rx_ s)) bs /\
  ((k <= length (rx_ s1))%nat ->
     (reads k len s1).1 = take k (rx_ s1) /\ rx_ (reads k len s1).2 = drop k (rx_ s1) /\
     (has (register 0x18 (reads k len s1).2) 0x10 = true <-> k = length (rx_ s1))).
Proof.
  intros Hs Hbs Hl s1. assert (E1 : rx_ s1 = rx_ s ++ take (4096 - length (rx_ s)) bs).
  { unfold s1, inject_bytes. rewrite update_rx. change kRxLimit with 4096%nat in *. destruct bs; cbn [rx_]; apply push_back_spec. }
  split; [done|]. assert (Hb : bytes_ok (rx_ s1)) by (rewrite E1; apply Forall_app; split; [done|by apply Forall_take]).
  assert (Hflag : forall t, has (register 0x18 t) 0x10 = true <-> rx_ t = []).
  { intros t. change (register 0x18 t) with (flags t). unfold flags. by destruct (rx_ t). }
  clear E1. clearbody s1. intros Hk. rewrite Hflag. revert s1 Hb Hk. induction k as [|k IH]; intros s1 Hb Hk; cbn [reads].
  - split; [done|]. split; [done|]. cbn [snd]. destruct (rx_ s1); cbn; split; (done || lia).
  - destruct (rx_ s1) as [|c rest] eqn:E; [cbn in Hk; lia|]. apply Forall_cons_1 in Hb as [Hc Hb].
    destruct (read_dr c rest len s1) as (s' & -> & Er & Ec); [done..|]. specialize (IH s'). rewrite Er in IH.
    destruct (reads k len s') as [bs' s2]. cbn [fst snd] in *. rewrite Ec.
    destruct IH as (-> & -> & Hend); [done|cbn in Hk; lia|]. cbn [take drop length].
    split; [done|]. split; [done|]. rewrite Hend. cbn in Hk. lia.
Qed.

(** ** The captured console *)

(** A piece of what the guest transmits: a byte that is not ESC, a complete cursor query,
    or an escape sequence up to the byte with which it stops looking like the query. *)
Inductive piece := Plain (c : Z) | Query | Escape (p : list Z) (c : Z).
#[export] Instance piece_eq_dec : EqDecision piece.
Proof. solve_decision. Defined.
Definition piece_ok (p : piece) : bool :=
  match p with
  | Plain c => negb (c =? 0x1B)
  | Query => true
  | Escape l c => prefix_of l query && (0 <? length l)%nat && (length l <? 4)%nat && negb (prefix_of (l ++ [c]) query)
  end.
Definition sent (p : piece) : list Z := match p with Plain c => [c] | Query => query | Escape l c => l ++ [c] end.
Definition shown (p : piece) : list Z := match p with Query => [] | _ => sent p end.
Definition answers (ps : list piece) : nat := length (filter (fun p => p = Query) ps).

Definition transmit (c : Z) (s : Pl011Uart) : Pl011Uart := write_mmio 0 [c] 1 s.
Definition transmit_all (bs : list Z) (s : Pl011Uart) : Pl011Uart := fold_left (fun s c => transmit c s) bs s.

(** What transmission depends on and changes. *)
Record view (n : nat) (q con rx : list Z) (s : Pl011Uart) : Prop := {
  v_query : terminal_query_ s = q; v_con : console_ s = take n con; v_rx : rx_ s = rx;
  v_echo : echo_stdout_ s = false; v_limit : console_limit_ s = Z.of_nat n }.

Lemma transmit_view n q con rx c s : view n q con rx (handle_tx_locked c s) -> view n q con rx (transmit c s).
Proof.
  intros [Eq Ec Er Ee El]. unfold transmit, write_mmio. change (bad_len 1 4) with false. cbn [Z.eqb]. change (byte_at [c] 0) with c.
  set (t := handle_tx_locked c s) in *. unfold update_irq_locked. cbn [rx_].
  change (write_register 0 (ReadU32 [c])) with (fun s : Pl011Uart => s). cbv beta. split; cbn; destruct (rx_ t) eqn:E; cbn; congruence.
Qed.

Lemma emit_view n q con rx c s : view n q con rx s -> view n q (con ++ [c]) rx (emit_tx_locked c s).
Proof.
  intros [Eq Ec Er Ee El]. unfold emit_tx_locked. rewrite Ec, El.
  assert (Et : take n (con ++ [c]) = if Z.of_nat (length (take n con)) <? Z.of_nat n then take n con ++ [c] else take n con).
  { rewrite length_take. destruct (Z.ltb_spec (Z.of_nat (Nat.min n (length con))) (Z.of_nat n)).
    - rewrite take_app, (take_ge con n) by lia. f_equal. apply take_ge. cbn [length]. lia.
    - by rewrite take_app_le by lia. }
  destruct (_ <? _); cbn; rewrite Ee; split; cbn; rewrite ?Et; done.
Qed.
Lemma emit_all_view n q rx l : forall con s, view n q con rx s -> view n q (con ++ l) rx (fold_left (fun s c => emit_tx_locked c s) l s).
Proof.
  induction l as [|c l IH]; intros con s Hs; cbn [fold_left]; [by rewrite app_nil_r|].
  replace (con ++ c :: l) with ((con ++ [c]) ++ l) by (by rewrite <- app_assoc). by apply IH, emit_view.
Qed.

(** One step of the matcher. *)
Definition match_step (q : list Z) (c : Z) (con rx : list Z) : list Z * list Z * list Z :=
  if negb (match q with [] => true | _ => false end) || (c =? 0x1B) then
    if prefix_of (q ++ [c]) query then
      if bool_decide (q ++ [c] = query) then ([], con, push_front_while (rev response) rx) else (q ++ [c], con, rx)
    else ([], con ++ q ++ [c], rx)
  else (q, con ++ [c], rx).

Lemma transmit_step n q con rx c s : view n q con rx s ->
  let '(q', con', rx') := match_step q c con rx in view n q' con' rx' (transmit c s).
Proof.
  intros Hs. pose proof Hs as [Eq Ec Er Ee El]. destruct (match_step q c con rx) as [[q' con'] rx'] eqn:E.
  apply transmit_view. unfold handle_tx_locked, match_step in *. rewrite Ee, Eq.
  destruct (_ || _); [|injection E as <- <- <-; by apply emit_view]. cbn [terminal_query_].
  change (terminal_query_ (s <| terminal_query_ := q ++ [c] |>)) with (q ++ [c]).
  destruct (prefix_of (q ++ [c]) query); [destruct (bool_decide _)|]; injection E as <- <- <-.
  - split; cbn [terminal_query_ console_ rx_ echo_stdout_ console_limit_]; try done. by rewrite <- Er.
  - by split.
  - assert (Hv : view n (q ++ [c]) con rx (s <| terminal_query_ := q ++ [c] |>)) by by split.
    by destruct (emit_all_view n (q ++ [c]) rx (q ++ [c]) con _ Hv).
Qed.

Lemma transmit_app l1 l2 s : transmit_all (l1 ++ l2) s = transmit_all l2 (transmit_all l1 s).
Proof. apply fold_left_app. Qed.

(** Sending a proper prefix of the query only fills the matcher. *)
Lemma transmit_prefix n con rx s l : view n [] con rx s -> prefix_of l query = true -> (length l < 4)%nat ->
  view n l con rx (transmit_all l s).
Proof.
  intros Hs Hp Hl. pose proof (transmit_step n [] con rx 0x1B s Hs) as H1.
  pose proof (transmit_step n [0x1B] con rx 0x5B _ H1) as H2. pose proof (transmit_step n [0x1B; 0x5B] con rx 0x36 _ H2) as H3.
  destruct l as [|a [|b [|d [|]]]]; cbn in Hp, Hl; try lia; [exact Hs|..];
    repeat (apply andb_true_iff in Hp as [->%Z.eqb_eq Hp]); [exact H1|exact H2|exact H3].
Qed.

Lemma transmit_piece n con rx p s : piece_ok p = true -> view n [] con rx s ->
  view n [] (con ++ shown p) (if decide (p = Query) then push_front_while (rev response) rx else rx) (transmit_all (sent p) s).
Proof.
  intros Hp Hs. destruct p as [c| |l c]; cbn [sent shown piece_ok] in *.
  - pose proof (transmit_step n [] con rx c s Hs) as Hc. unfold match_step in Hc. apply negb_true_iff in Hp. rewrite Hp in Hc. exact Hc.
  - rewrite app_nil_r. change query with ([0x1B; 0x5B; 0x36] ++ [0x6E]). rewrite transmit_app.
    apply (transmit_step n [0x1B; 0x5B; 0x36] con rx 0x6E). apply transmit_prefix; [done|done|cbn; lia].
  - apply andb_true_iff in Hp as [Hp Hn]. apply andb_true_iff in Hp as [Hp Hl]. apply andb_true_iff in Hp as [Hp H0].
    apply Nat.ltb_lt in Hl, H0. rewrite transmit_app. pose proof (transmit_prefix n con rx s l Hs Hp Hl) as Hv.
    pose proof (transmit_step n l con rx c _ Hv) as Hc. unfold match_step in Hc. apply negb_true_iff in Hn. rewrite Hn in Hc.
    destruct l as [|a l]; [cbn in H0; lia|exact Hc].
Qed.

(** An answer in front of the waiting input: its end, as far as the room goes. *)
Definition answered (rx : list Z) : list Z := drop (6 - (4096 - length rx)) response ++ rx.

Lemma push_front_spec l rx : (length rx <= kRxLimit)%nat ->
  push_front_while (rev l) rx = drop (length l - (kRxLimit - length rx)) l ++ rx.
Proof.
  revert rx. induction l as [|x l IH] using rev_ind; intros rx Hr; [done|].
  rewrite rev_app_distr. cbn [rev app push_front_while]. rewrite length_app. cbn [length].
  destruct (Nat.ltb_spec (length rx) kRxLimit).
  - rewrite IH by (cbn [length]; lia). cbn [length].
    rewrite drop_app_le by lia. rewrite <- app_assoc. cbn [app]. do 2 f_equal. lia.
  - rewrite drop_ge by (rewrite length_app; cbn [length]; lia). done.
Qed.
Lemma push_front_answered rx : (length rx <= kRxLimit)%nat -> push_front_while (rev response) rx = answered rx.
Proof. intros Hr. by rewrite push_front_spec. Qed.
Lemma answered_room rx : (length rx <= kRxLimit)%nat -> (length (answered rx) <= kRxLimit)%nat.
Proof. intros Hr. rewrite <- push_front_answered by done. by apply push_front_room. Qed.

(** C26. When the output is not echoed to the host's terminal, whatever waits to be read
    and whatever was captured before: the captured console grows by what the guest
    transmits without its cursor queries, up to the limit, and the answer to each query
    goes in front of the input that waits, which stays as it is; in a full queue only the
    end of the answer finds room.  Any stream is made of the pieces named here and an
    unfinished prefix of the query, which is held back; a query directly after a stray
    ESC belongs to the escape piece, so it is shown and not answered. *)
Theorem uart_console s n ps rest :
  echo_stdout_ s = false -> terminal_query_ s = [] -> console_limit_ s = Z.of_nat n ->
  (length (console_ s) <= n)%nat -> (length (rx_ s) <= 4096)%nat ->
  Forall (fun p => piece_ok p = true) ps -> prefix_of rest query = true -> (length rest < 4)%nat ->
  let s' := transmit_all (concat (map sent ps) ++ rest) s in
  console_ s' = take n (console_ s ++ concat (map shown ps)) /\ terminal_query_ s' = rest /\
  rx_ s' = Nat.iter (answers ps) answered (rx_ s) /\
  (length (rx_ s) + 6 * answers ps <= 4096 -> rx_ s' = concat (repeat response (answers ps)) ++ rx_ s)%nat.
Proof.
  intros He Hq Hlim Hcon Hrx Hps Hr Hl s'.
  assert (Hv : forall con rx t, (length rx <= kRxLimit)%nat -> view n [] con rx t ->
    view n [] (con ++ concat (map shown ps)) (Nat.iter (answers ps) answered rx) (transmit_all (concat (map sent ps)) t)).
  { clear -Hps. induction Hps as [|p ps Hp _ IH]; intros con rx t Hrx Ht; cbn [map concat]; [by rewrite app_nil_r|].
    rewrite transmit_app, app_assoc. pose proof (transmit_piece n con rx p t Hp Ht) as Hv.
    unfold answers. rewrite filter_cons. destruct (decide (p = Query)); [|by apply IH]. cbn [length]. rewrite Nat.iter_succ_r.
    rewrite push_front_answered in Hv by done. apply IH; [by apply answered_room|done]. }
  assert (H0 : view n [] (console_ s) (rx_ s) s) by (split; try done; by rewrite take_ge).
  pose proof (transmit_prefix n _ _ _ rest (Hv _ _ _ Hrx H0) Hr Hl) as [Eq Ec Er _ _].
  unfold s'. rewrite transmit_app. split_and!; [done|done|done|]. intros Hroom. rewrite Er. clear -Hroom.
  revert Hroom. generalize (rx_ s). induction (answers ps) as [|k IH]; intros rx Hroom; [done|].
  rewrite Nat.iter_succ, IH by lia. unfold answered. cbn [repeat concat]. rewrite <- app_assoc.
  replace (6 - (4096 - _))%nat with 0%nat; [done|]. rewrite length_app.
  assert (Hc : forall m, length (concat (repeat response m)) = (6 * m)%nat)
    by (induction m as [|m IHm]; [done|]; cbn [repeat concat]; rewrite length_app, IHm; cbn; lia).
  rewrite Hc. lia.
Qed.

Module Demo.

Definition typed : list Z := [0x6C; 0x73; 0x0D].
(** "ok", a colour change, a query, and a query after a stray ESC *)
Definition pieces : list piece :=
  [Plain 0x6F; Plain 0x6B; Escape [0x1B; 0x5B] 0x30; Plain 0x6D; Query; Escape [0x1B] 0x1B; Plain 0x5B; Plain 0x36; Plain 0x6E].

Lemma uart_input_fifo_witness :
  (reads 3 1 (inject_bytes typed (Pl011Uart_new 100 false))).1 = typed.
Proof.
  destruct (uart_input_fifo (Pl011Uart_new 100 false) typed 3 1) as [Er Hk].
  - constructor.
  - by apply bytes_okb_ok.
  - lia.
  - destruct Hk as (-> & _); [rewrite Er; cbn; lia|]. rewrite Er. reflexivity.
Defined.

(** With a typed command waiting and two captured bytes. *)
Definition waiting : Pl011Uart := transmit_all [0x3E; 0x20] (inject_bytes typed (Pl011Uart_new 100 false)).
Lemma uart_console_witness :
  let s := transmit_all (concat (map sent pieces) ++ [0x1B]) waiting in
  console_ s = [0x3E; 0x20; 0x6F; 0x6B; 0x1B; 0x5B; 0x30; 0x6D; 0x1B; 0x1B; 0x5B; 0x36; 0x6E] /\ rx_ s = response ++ typed.
Proof.
  intros s. destruct (uart_console waiting 100 pieces [0x1B]) as (Ec & _ & _ & Er).
  - reflexivity.
  - reflexivity.
  - reflexivity.
  - vm_compute. lia.
  - apply Nat.leb_le. reflexivity.
  - repeat constructor.
  - reflexivity.
  - cbn. lia.
  - split; [exact Ec|]. apply Er. apply Nat.leb_le. reflexivity.
Defined.

End Demo.
