(* ===== verification/Fdt.v ===== *)
(** * native/hvf/backend.cc: the flattened device tree (FdtBuilder)

    The builder appends to a structure block and a strings block; [Build] is its straight
    line of calls.  A reader of the format of the Devicetree Specification (header, tokens,
    nested nodes) is defined next to it, and the theorem says that the reader recovers from
    the blob exactly the tree that [machine_tree] gives: the description of the machine. *)

From S2P Require Import Prelude Words Bytes ArmBoard.
#[local] Open Scope string_scope.
#[local] Open Scope list_scope.
#[local] Open Scope Z_scope.

(** ** FdtBuilder *)

Record FdtBuilder := mkFdt { buf_ : list Z; str_buf_ : list Z }.
Definition call : Type := FdtBuilder -> FdtBuilder.

Definition size (bs : list Z) : Z := Z.of_nat (length bs).
(** The bytes of a C string literal. *)
Definition chars (s : string) : list Z := map (fun c => Z.of_nat (nat_of_ascii c)) (list_ascii_of_string s).

Definition WriteU32BE (v : Z) : list Z := [u8 (Z.shiftr v 24); u8 (Z.shiftr v 16); u8 (Z.shiftr v 8); u8 v].
Definition WriteU64BE (v : Z) : list Z := WriteU32BE (u32 (Z.shiftr v 32)) ++ WriteU32BE (u32 v).

Definition FDT_BEGIN_NODE : Z := 1.
Definition FDT_END_NODE : Z := 2.
Definition FDT_PROP : Z := 3.
Definition FDT_END : Z := 9.

Definition append (bs : list Z) : call := fun b => mkFdt (buf_ b ++ bs) (str_buf_ b).
Definition AppendU32 (v : Z) : call := append (WriteU32BE v).
Definition AppendStr (s : list Z) : call := append (s ++ [0]).
(** [while (buf_.size() % 4) buf_.push_back(0)]: the bytes it adds. *)
Definition padding (n : nat) : list Z := repeat 0 ((4 - n mod 4) mod 4).
Definition Align4 : call := fun b => append (padding (length (buf_ b))) b.

Definition AddString (s : list Z) (b : FdtBuilder) : Z * FdtBuilder :=
  (u32 (size (str_buf_ b)), mkFdt (buf_ b) (str_buf_ b ++ s ++ [0])).

Definition AppendPropRaw (name : list Z) (data : list Z) : call := fun b =>
  let b := AppendU32 FDT_PROP b in
  let b := AppendU32 (u32 (size data)) b in
  let '(off, b) := AddString name b in
  let b := AppendU32 off b in
  Align4 (append data b).

Definition AppendPropU32 (name : string) (value : Z) : call := AppendPropRaw (chars name) (WriteU32BE value).
Definition AppendPropU64 (name : string) (value : Z) : call := AppendPropRaw (chars name) (WriteU64BE value).
Definition AppendPropStr (name : string) (value : list Z) : call := AppendPropRaw (chars name) (value ++ [0]).
Definition AppendPropStringList (name : string) (values : list string) : call :=
  AppendPropRaw (chars name) (concat (map (fun v => chars v ++ [0]) values)).
Definition AppendPropFlag (name : string) : call := AppendPropRaw (chars name) [].
Definition reg_bytes (base size : Z) : list Z :=
  WriteU32BE (u32 (Z.shiftr base 32)) ++ WriteU32BE (u32 base) ++ WriteU32BE (u32 (Z.shiftr size 32)) ++ WriteU32BE (u32 size).
Definition AppendPropReg (name : string) (base size : Z) : call := AppendPropRaw (chars name) (reg_bytes base size).
(** A local array of cells that is passed to [AppendPropRaw]. *)
Definition cells (vs : list Z) : list Z := concat (map WriteU32BE vs).
Definition AppendPropCells (name : string) (vs : list Z) : call := AppendPropRaw (chars name) (cells vs).

Definition ToHex (v : Z) : list Z := chars (hex_digits 8 1 v "").
Definition ToHex64 (v : Z) : list Z := chars (hex_digits 16 1 v "").

Definition begin_node (name : list Z) : list call := [AppendU32 FDT_BEGIN_NODE; AppendStr name; Align4].
Definition end_node : list call := [AppendU32 FDT_END_NODE].

Definition AppendVirtioNode (base spi : Z) : list call :=
  begin_node (chars "virtio_mmio@" ++ ToHex64 base) ++
  [AppendPropStr "compatible" (chars "virtio,mmio"); AppendPropReg "reg" base kVirtioMmioSize;
   AppendPropU32 "interrupt-parent" 1; AppendPropCells "interrupts" [0; spi; 1]; AppendPropFlag "dma-coherent"] ++
  end_node.

(** ** Build *)

(** One node of the loop over the processors. *)
Definition cpu_node (cpus i : Z) : list call :=
  begin_node (chars "cpu@" ++ ToHex i) ++
  [AppendPropStr "device_type" (chars "cpu"); AppendPropStr "compatible" (chars "arm,arm-v8"); AppendPropU32 "reg" i] ++
  (if 1 <? cpus then [AppendPropStr "enable-method" (chars "psci")] else []) ++ end_node.

(** The four slots and four pins of the PCI interrupt map. *)
Definition intx_cells : list Z :=
  concat (map (fun slot => concat (map (fun pin =>
    let spi := kPcieFirstSpi + (pin + slot) mod kPcieIntxCount in
    [Z.shiftl slot 11; 0; 0; pin + 1; 1; 0; 0; 0; spi; 4]) (seqZ 0 kPcieIntxCount))) (seqZ 0 4)).

Definition Build_head (ram_base ram_size cpus : Z) (cmdline : list Z) (kaslr : Z) (seed : list Z) : list call :=
  begin_node [] ++
  [AppendPropU32 "#address-cells" 2; AppendPropU32 "#size-cells" 2;
   AppendPropStr "compatible" (chars "linux,dummy-virt"); AppendPropStr "model" (chars "node-vmm-hvf");
   AppendPropU32 "interrupt-parent" 1; AppendPropFlag "dma-coherent"] ++
  begin_node (chars "aliases") ++ [AppendPropStr "serial0" (chars "/pl011@9000000")] ++ end_node ++
  begin_node (chars "chosen") ++
  [AppendPropStr "bootargs" cmdline; AppendPropStr "stdout-path" (chars "/pl011@9000000");
   AppendPropU64 "kaslr-seed" kaslr; AppendPropRaw (chars "rng-seed") seed] ++ end_node ++
  begin_node (chars "cpus") ++ [AppendPropU32 "#address-cells" 1; AppendPropU32 "#size-cells" 0] ++
  concat (map (cpu_node cpus) (seqZ 0 cpus)) ++ end_node ++
  begin_node (chars "psci") ++
  [AppendPropStringList "compatible" ["arm,psci-1.0"; "arm,psci-0.2"; "arm,psci"]; AppendPropStr "method" (chars "hvc")] ++ end_node ++
  begin_node (chars "memory@" ++ ToHex64 ram_base) ++
  [AppendPropStr "device_type" (chars "memory"); AppendPropReg "reg" ram_base ram_size] ++ end_node ++
  begin_node (chars "intc@8000000") ++
  [AppendPropU32 "phandle" 1; AppendPropStr "compatible" (chars "arm,gic-v3"); AppendPropU32 "#address-cells" 2;
   AppendPropU32 "#size-cells" 2; AppendPropU32 "#interrupt-cells" 3; AppendPropFlag "interrupt-controller";
   AppendPropFlag "ranges";
   AppendPropCells "reg" [u32 (Z.shiftr kGicDistBase 32); u32 kGicDistBase; 0; 0x10000;
     u32 (Z.shiftr kGicRedistBase 32); u32 kGicRedistBase; 0; GicRedistributorBytes cpus]] ++ end_node.

Definition Build_devices : list call :=
  begin_node (chars "timer") ++
  [AppendPropStringList "compatible" ["arm,armv8-timer"; "arm,armv7-timer"];
   AppendPropCells "interrupts" (concat (map (fun ppi => [1; ppi; 4]) [13; 14; 11; 10])); AppendPropFlag "always-on"] ++ end_node ++
  begin_node (chars "pl011@9000000") ++
  [AppendPropStringList "compatible" ["arm,pl011"; "arm,primecell"]; AppendPropReg "reg" kUartBase 0x1000;
   AppendPropCells "interrupts" [0; kUartSpi; 4]; AppendPropU32 "interrupt-parent" 1;
   AppendPropStringList "clock-names" ["uartclk"; "apb_pclk"]; AppendPropCells "clocks" [2; 3]] ++ end_node ++
  begin_node (chars "uartclk") ++
  [AppendPropU32 "phandle" 2; AppendPropStr "compatible" (chars "fixed-clock"); AppendPropU32 "#clock-cells" 0;
   AppendPropU32 "clock-frequency" 24000000] ++ end_node ++
  begin_node (chars "apb-pclk") ++
  [AppendPropU32 "phandle" 3; AppendPropStr "compatible" (chars "fixed-clock"); AppendPropU32 "#clock-cells" 0;
   AppendPropU32 "clock-frequency" 24000000] ++ end_node ++
  begin_node (chars "pl031@9010000") ++
  [AppendPropStringList "compatible" ["arm,pl031"; "arm,primecell"]; AppendPropReg "reg" kPl031RtcBase 0x1000;
   AppendPropCells "interrupts" [0; kRtcSpi; 4]; AppendPropU32 "interrupt-parent" 1; AppendPropU32 "clocks" 3;
   AppendPropStr "clock-names" (chars "apb_pclk")] ++ end_node ++
  begin_node (chars "pl061@9030000") ++
  [AppendPropStringList "compatible" ["arm,pl061"; "arm,primecell"]; AppendPropReg "reg" kPl061GpioBase 0x1000;
   AppendPropU32 "#gpio-cells" 2; AppendPropFlag "gpio-controller"; AppendPropCells "interrupts" [0; kGpioSpi; 4];
   AppendPropU32 "interrupt-parent" 1; AppendPropU32 "clocks" 3; AppendPropStr "clock-names" (chars "apb_pclk");
   AppendPropU32 "phandle" 4] ++ end_node ++
  begin_node (chars "gpio-keys") ++ [AppendPropStr "compatible" (chars "gpio-keys")] ++
  begin_node (chars "poweroff") ++
  [AppendPropStr "label" (chars "GPIO Key Poweroff"); AppendPropU32 "linux,code" 116; AppendPropCells "gpios" [4; 3; 0]] ++
  end_node ++ end_node ++
  begin_node (chars "fw-cfg@9020000") ++
  [AppendPropStr "compatible" (chars "qemu,fw-cfg-mmio"); AppendPropReg "reg" kFwCfgBase 0x18; AppendPropFlag "dma-coherent"] ++
  end_node.

Definition Build_buses : list call :=
  concat (map (fun slot => AppendVirtioNode (kVirtioMmioBase + slot * kVirtioMmioStride) (kVirtioFirstSpi + slot))
    (seqZ 0 kVirtioMmioCount)) ++
  begin_node (chars "pcie@10000000") ++
  [AppendPropStr "compatible" (chars "pci-host-ecam-generic"); AppendPropStr "device_type" (chars "pci");
   AppendPropU32 "#address-cells" 3; AppendPropU32 "#size-cells" 2; AppendPropU32 "linux,pci-domain" 0;
   AppendPropCells "bus-range" [0; PcieBusCount - 1]; AppendPropFlag "dma-coherent"; AppendPropReg "reg" kPcieEcamBase kPcieEcamSize;
   AppendPropCells "ranges"
     [kPciRangeIoPort; 0; 0; u32 (Z.shiftr kPciePioBase 32); u32 kPciePioBase; u32 (Z.shiftr kPciePioSize 32); u32 kPciePioSize;
      kPciRangeMmio32; u32 (Z.shiftr kPcieMmioBase 32); u32 kPcieMmioBase; u32 (Z.shiftr kPcieMmioBase 32); u32 kPcieMmioBase;
      u32 (Z.shiftr kPcieMmioSize 32); u32 kPcieMmioSize];
   AppendPropU32 "#interrupt-cells" 1; AppendPropCells "interrupt-map" intx_cells;
   AppendPropCells "interrupt-map-mask" [0x1800; 0; 0; 0x7]] ++ end_node ++
  begin_node (chars "exit@b000000") ++
  [AppendPropStr "compatible" (chars "node-vmm,exit"); AppendPropReg "reg" kExitDevBase 0x1000] ++ end_node ++
  end_node ++ [AppendU32 FDT_END].

Definition kHeaderSize : Z := 40.
Definition kReserveMapSize : Z := 16.
Definition kStructOffset : Z := kHeaderSize + kReserveMapSize.

(** The end of [Build]: the strings are appended and the header is filled in. *)
Definition finish_blob (b : FdtBuilder) : list Z :=
  let struct_size := u32 (size (buf_ b) - kStructOffset) in
  let strings_off := u32 (size (buf_ b)) in
  let b := Align4 (append (str_buf_ b) b) in
  let total := u32 (size (buf_ b)) in
  WriteU32BE 0xD00DFEED ++ WriteU32BE total ++ WriteU32BE kStructOffset ++ WriteU32BE strings_off ++
  WriteU32BE kHeaderSize ++ WriteU32BE 17 ++ WriteU32BE 16 ++ WriteU32BE 0 ++
  WriteU32BE (u32 (size (str_buf_ b))) ++ WriteU32BE struct_size ++ drop 40 (buf_ b).

Definition run_calls (cs : list call) (b : FdtBuilder) : FdtBuilder := fold_left (fun b c => c b) cs b.

Definition Build (ram_base ram_size cpus : Z) (cmdline : list Z) (kaslr : Z) (seed : list Z) : list Z :=
  finish_blob (run_calls (Build_head ram_base ram_size cpus cmdline kaslr seed ++ Build_devices ++ Build_buses)
    (mkFdt (repeat 0 (Z.to_nat kStructOffset)) [])).

(** ** The tree that is described *)

Inductive tree := Node (name : list Z) (props : list (list Z * list Z)) (children : list tree).

Definition p_raw (name : string) (data : list Z) : list Z * list Z := (chars name, data).
Definition p_u32 (name : string) (v : Z) : list Z * list Z := p_raw name (WriteU32BE v).
Definition p_str (name s : string) : list Z * list Z := p_raw name (chars s ++ [0]).
Definition p_strings (name : string) (l : list string) : list Z * list Z := p_raw name (concat (map (fun v => chars v ++ [0]) l)).
Definition p_flag (name : string) : list Z * list Z := p_raw name [].
Definition p_reg (base size : Z) : list Z * list Z := p_raw "reg" (reg_bytes base size).
Definition p_cells (name : string) (l : list Z) : list Z * list Z := p_raw name (cells l).
Definition leaf (name : string) (props : list (list Z * list Z)) : tree := Node (chars name) props [].
Definition spi (n trigger : Z) : list Z * list Z := p_cells "interrupts" [0; n; trigger].

Definition cpu_tree (cpus i : Z) : tree :=
  Node (chars "cpu@" ++ ToHex i)
    ([p_str "device_type" "cpu"; p_str "compatible" "arm,arm-v8"; p_u32 "reg" i] ++
     (if 1 <? cpus then [p_str "enable-method" "psci"] else [])) [].
Definition virtio_tree (slot : Z) : tree :=
  Node (chars "virtio_mmio@" ++ ToHex64 (kVirtioMmioBase + slot * kVirtioMmioStride))
    [p_str "compatible" "virtio,mmio"; p_reg (kVirtioMmioBase + slot * kVirtioMmioStride) kVirtioMmioSize;
     p_u32 "interrupt-parent" 1; spi (kVirtioFirstSpi + slot) 1; p_flag "dma-coherent"] [].
Definition clock_tree (name : string) (phandle : Z) : tree :=
  leaf name [p_u32 "phandle" phandle; p_str "compatible" "fixed-clock"; p_u32 "#clock-cells" 0; p_u32 "clock-frequency" 24000000].

(** The devices whose registers the monitor decodes itself, with the last of their trees. *)
Definition device_trees : list tree :=
  [leaf "pl011@9000000" [p_strings "compatible" ["arm,pl011"; "arm,primecell"]; p_reg kUartBase 0x1000; spi kUartSpi 4;
     p_u32 "interrupt-parent" 1; p_strings "clock-names" ["uartclk"; "apb_pclk"]; p_cells "clocks" [2; 3]];
   clock_tree "uartclk" 2; clock_tree "apb-pclk" 3;
   leaf "pl031@9010000" [p_strings "compatible" ["arm,pl031"; "arm,primecell"]; p_reg kPl031RtcBase 0x1000; spi kRtcSpi 4;
     p_u32 "interrupt-parent" 1; p_u32 "clocks" 3; p_str "clock-names" "apb_pclk"];
   leaf "pl061@9030000" [p_strings "compatible" ["arm,pl061"; "arm,primecell"]; p_reg kPl061GpioBase 0x1000; p_u32 "#gpio-cells" 2;
     p_flag "gpio-controller"; spi kGpioSpi 4; p_u32 "interrupt-parent" 1; p_u32 "clocks" 3; p_str "clock-names" "apb_pclk";
     p_u32 "phandle" 4];
   Node (chars "gpio-keys") [p_str "compatible" "gpio-keys"]
     [leaf "poweroff" [p_str "label" "GPIO Key Poweroff"; p_u32 "linux,code" 116; p_cells "gpios" [4; 3; 0]]];
   leaf "fw-cfg@9020000" [p_str "compatible" "qemu,fw-cfg-mmio"; p_reg kFwCfgBase 0x18; p_flag "dma-coherent"]] ++
  map virtio_tree (seqZ 0 kVirtioMmioCount) ++
  [leaf "pcie@10000000" [p_str "compatible" "pci-host-ecam-generic"; p_str "device_type" "pci"; p_u32 "#address-cells" 3;
     p_u32 "#size-cells" 2; p_u32 "linux,pci-domain" 0; p_cells "bus-range" [0; 15]; p_flag "dma-coherent";
     p_reg kPcieEcamBase kPcieEcamSize;
     p_cells "ranges" [kPciRangeIoPort; 0; 0; 0; kPciePioBase; 0; kPciePioSize;
                       kPciRangeMmio32; 0; kPcieMmioBase; 0; kPcieMmioBase; 0; kPcieMmioSize];
     p_u32 "#interrupt-cells" 1; p_cells "interrupt-map" intx_cells; p_cells "interrupt-map-mask" [0x1800; 0; 0; 0x7]];
   leaf "exit@b000000" [p_str "compatible" "node-vmm,exit"; p_reg kExitDevBase 0x1000]].

Definition machine_tree (ram_base ram_size cpus : Z) (cmdline : list Z) (kaslr : Z) (seed : list Z) : tree :=
  Node [] [p_u32 "#address-cells" 2; p_u32 "#size-cells" 2; p_str "compatible" "linux,dummy-virt"; p_str "model" "node-vmm-hvf";
           p_u32 "interrupt-parent" 1; p_flag "dma-coherent"]
    ([leaf "aliases" [p_str "serial0" "/pl011@9000000"];
      leaf "chosen" [p_raw "bootargs" (cmdline ++ [0]); p_str "stdout-path" "/pl011@9000000"; p_raw "kaslr-seed" (WriteU64BE kaslr);
                     p_raw "rng-seed" seed];
      Node (chars "cpus") [p_u32 "#address-cells" 1; p_u32 "#size-cells" 0] (map (cpu_tree cpus) (seqZ 0 cpus));
      leaf "psci" [p_strings "compatible" ["arm,psci-1.0"; "arm,psci-0.2"; "arm,psci"]; p_str "method" "hvc"];
      Node (chars "memory@" ++ ToHex64 ram_base) [p_str "device_type" "memory"; p_reg ram_base ram_size] [];
      leaf "intc@8000000" [p_u32 "phandle" 1; p_str "compatible" "arm,gic-v3"; p_u32 "#address-cells" 2; p_u32 "#size-cells" 2;
        p_u32 "#interrupt-cells" 3; p_flag "interrupt-controller"; p_flag "ranges";
        p_cells "reg" [0; kGicDistBase; 0; 0x10000; 0; kGicRedistBase; 0; GicRedistributorBytes cpus]];
      leaf "timer" [p_strings "compatible" ["arm,armv8-timer"; "arm,armv7-timer"];
        p_cells "interrupts" [1; 13; 4; 1; 14; 4; 1; 11; 4; 1; 10; 4]; p_flag "always-on"]] ++ device_trees).

(** ** A reader of the format *)

Inductive token := TBegin (name : list Z) | TProp (name data : list Z) | TEnd.

Definition be32 (bs : list Z) : option (Z * list Z) :=
  match bs with
  | a :: b :: c :: d :: rest => Some (a * 2 ^ 24 + b * 2 ^ 16 + c * 2 ^ 8 + d, rest)
  | _ => None
  end.
(** The string up to the next NUL, and what follows it. *)
Fixpoint cstring (bs : list Z) : option (list Z * list Z) :=
  match bs with
  | [] => None
  | b :: bs => if b =? 0 then Some ([], bs) else match cstring bs with Some (s, r) => Some (b :: s, r) | None => None end
  end.

(** The structure block up to FDT_END; one round of fuel per token. *)
Fixpoint lex (fuel : nat) (strings bs : list Z) : option (list token) :=
  match fuel with
  | O => None
  | S fuel =>
      '(t, bs) ← be32 bs;
      if t =? FDT_END then Some []
      else if t =? FDT_BEGIN_NODE then
        '(name, bs) ← cstring bs;
        ts ← lex fuel strings (drop (length (padding (length name + 1))) bs);
        Some (TBegin name :: ts)
      else if t =? FDT_PROP then
        '(n, bs) ← be32 bs;
        '(off, bs) ← be32 bs;
        '(name, _) ← cstring (drop (Z.to_nat off) strings);
        if n <=? size bs then
          ts ← lex fuel strings (drop (length (padding (Z.to_nat n))) (drop (Z.to_nat n) bs));
          Some (TProp name (take (Z.to_nat n) bs) :: ts)
        else None
      else if t =? FDT_END_NODE then ts ← lex fuel strings bs; Some (TEnd :: ts)
      else if t =? 4 then lex fuel strings bs
      else None
  end.

(** The tree of a token sequence; the stack holds the open nodes, properties come first. *)
Fixpoint grow (ts : list token) (stack : list tree) (done : option tree) : option tree :=
  match ts with
  | [] => match stack with [] => done | _ => None end
  | TBegin name :: ts => match done with None => grow ts (Node name [] [] :: stack) None | Some _ => None end
  | TProp name data :: ts =>
      match stack with
      | Node m ps [] :: stack => grow ts (Node m (ps ++ [(name, data)]) [] :: stack) done
      | _ => None
      end
  | TEnd :: ts =>
      match stack with
      | t :: Node m ps cs :: stack => grow ts (Node m ps (cs ++ [t]) :: stack) done
      | [t] => grow ts [] (Some t)
      | [] => None
      end
  end.

(** Header field number [i]. *)
Definition field (blob : list Z) (i : nat) : option Z := fst <$> be32 (drop (4 * i) blob).
Definition slice (blob : list Z) (off n : Z) : option (list Z) :=
  if (0 <=? off) && (0 <=? n) && (off + n <=? size blob) then Some (take (Z.to_nat n) (drop (Z.to_nat off) blob)) else None.

Definition read_blob (blob : list Z) : option tree :=
  magic ← field blob 0; total ← field blob 1; off_struct ← field blob 2; off_strings ← field blob 3;
  off_reserved ← field blob 4; version ← field blob 5; last_compatible ← field blob 6;
  size_strings ← field blob 8; size_struct ← field blob 9;
  if (magic =? 0xD00DFEED) && (total =? size blob) && (17 <=? version) && (last_compatible <=? 17) &&
     (off_struct mod 4 =? 0) && (off_reserved mod 8 =? 0)
  then
    reserved ← slice blob off_reserved 16;
    if forallb (Z.eqb 0) reserved then
      strings ← slice blob off_strings size_strings;
      structure ← slice blob off_struct size_struct;
      ts ← lex (length structure) strings structure;
      grow ts [] None
    else None
  else None.

(** ** The builder writes what the reader reads *)

Lemma bytes_app l1 l2 : size (l1 ++ l2) = size l1 + size l2.
Proof. unfold size. rewrite length_app. lia. Qed.

Lemma be32_write v rest : be32 (WriteU32BE v ++ rest) = Some (u32 v, rest).
Proof.
  unfold WriteU32BE. cbn [app be32]. f_equal. f_equal. unfold u8, u32. rewrite !Z.shiftr_div_pow2 by lia.
  change (2 ^ 24) with 16777216. change (2 ^ 16) with 65536. change (2 ^ 8) with 256. change (2 ^ 32) with 4294967296.
  replace (v / 65536) with (v / 256 / 256) by (rewrite Z.div_div; [f_equal; lia|lia|lia]).
  replace (v / 16777216) with (v / 256 / 256 / 256) by (rewrite !Z.div_div by lia; f_equal; lia).
  set (a := v / 256). set (b := a / 256). set (d := b / 256).
  pose proof (Z.div_mod v 256 ltac:(lia)) as E1. fold a in E1. pose proof (Z.div_mod a 256 ltac:(lia)) as E2. fold b in E2.
  pose proof (Z.div_mod b 256 ltac:(lia)) as E3. fold d in E3. pose proof (Z.div_mod d 256 ltac:(lia)) as E4.
  pose proof (Z.mod_pos_bound v 256). pose proof (Z.mod_pos_bound a 256). pose proof (Z.mod_pos_bound b 256).
  pose proof (Z.mod_pos_bound d 256). apply Z.mod_unique_pos with (d / 256); lia.
Qed.
Lemma length_u32be v : length (WriteU32BE v) = 4%nat.
Proof. done. Qed.

Lemma cstring_app s rest : Forall (fun b => b <> 0) s -> cstring (s ++ 0 :: rest) = Some (s, rest).
Proof.
  induction 1 as [|b s Hb Hs IH]; [done|]. cbn. destruct (Z.eqb_spec b 0); [done|]. by rewrite IH.
Qed.

Lemma padding_aligned n : ((n + length (padding n)) mod 4 = 0)%nat.
Proof.
  unfold padding. rewrite repeat_length. pose proof (Nat.mod_upper_bound n 4 ltac:(lia)) as Hm.
  rewrite <- Nat.Div0.add_mod_idemp_l. set (m := (n mod 4)%nat) in *. clearbody m.
  do 4 (destruct m as [|m]; [done|]). lia.
Qed.
Lemma padding_shift a n : (a mod 4 = 0)%nat -> padding (a + n) = padding n.
Proof. intros Ha. unfold padding. rewrite <- Nat.Div0.add_mod_idemp_l, Ha. done. Qed.

(** The calls a token stands for, and the sequence of tokens of a tree. *)
Definition calls_of (t : token) : list call :=
  match t with TBegin name => begin_node name | TProp name data => [AppendPropRaw name data] | TEnd => end_node end.
Fixpoint tokens_of (t : tree) : list token :=
  match t with
  | Node name props children =>
      TBegin name :: map (fun '(n, d) => TProp n d) props ++
      (fix all (l : list tree) := match l with [] => [] | t :: l => tokens_of t ++ all l end) children ++ [TEnd]
  end.

Definition no_nul (s : list Z) : Prop := Forall (fun b => b <> 0) s.
Definition token_ok (t : token) : Prop :=
  match t with TBegin name => no_nul name | TProp name data => no_nul name /\ size data < 2 ^ 32 | TEnd => True end.
Definition aligned (b : FdtBuilder) : Prop := (length (buf_ b) mod 4 = 0)%nat.

(** What a piece of the structure block means to the reader. *)
Record emits (ts : list token) (b b' : FdtBuilder) : Prop := {
  em_aligned : aligned b';
  em_strings : exists names, str_buf_ b' = str_buf_ b ++ names;
  em_lex : exists body, buf_ b' = buf_ b ++ body /\ (length ts <= length body)%nat /\
    forall strings more fuel rest, strings = str_buf_ b' ++ more -> size (str_buf_ b') < 2 ^ 32 ->
      lex (length ts + fuel) strings (body ++ rest) = (fun l => ts ++ l) <$> lex fuel strings rest }.

Lemma emits_app ts1 ts2 b b1 b2 : emits ts1 b b1 -> emits ts2 b1 b2 -> emits (ts1 ++ ts2) b b2.
Proof.
  intros [A1 [n1 S1] (body1 & E1 & L1 & X1)] [A2 [n2 S2] (body2 & E2 & L2 & X2)]. split; [done| |].
  - exists (n1 ++ n2). by rewrite S2, S1, app_assoc.
  - exists (body1 ++ body2). split; [by rewrite E2, E1, app_assoc|]. rewrite !length_app. split; [lia|].
    intros strings more fuel rest Hs Hz. rewrite <- Nat.add_assoc, <- app_assoc.
    assert (Hz1 : size (str_buf_ b1) < 2 ^ 32) by (rewrite S2, bytes_app in Hz; unfold size in *; lia).
    rewrite (X1 strings (n2 ++ more)) by (rewrite ?Hs, ?S2, <- ?app_assoc; done).
    rewrite (X2 strings more) by done. destruct (lex fuel strings rest); cbn; [|done]. by rewrite app_assoc.
Qed.

Lemma emits_begin name b : aligned b -> no_nul name -> emits [TBegin name] b (run_calls (begin_node name) b).
Proof.
  intros Ha Hn. unfold run_calls, begin_node. cbn [fold_left]. unfold AppendStr, AppendU32, Align4, append. cbn [buf_ str_buf_].
  set (body := WriteU32BE FDT_BEGIN_NODE ++ name ++ [0]).
  assert (Epad : padding (length ((buf_ b ++ WriteU32BE FDT_BEGIN_NODE) ++ name ++ [0])) = padding (length name + 1)).
  { rewrite !length_app, length_u32be, <- Nat.add_assoc, padding_shift by done. rewrite padding_shift by done. done. }
  rewrite Epad. split; cbn [buf_ str_buf_].
  - unfold aligned. cbn [buf_]. rewrite length_app, <- Epad. apply padding_aligned.
  - exists []. by rewrite app_nil_r.
  - exists (body ++ padding (length name + 1)). split; [unfold body; by rewrite <- !app_assoc|].
    split; [unfold body; rewrite !length_app, length_u32be; cbn [length]; lia|].
    intros strings more fuel rest _ _. change (length [TBegin name] + fuel)%nat with (S fuel). cbn [lex].
    unfold body. rewrite <- !app_assoc, be32_write. change (u32 FDT_BEGIN_NODE) with 1. cbn [mbind option_bind].
    change (1 =? FDT_END) with false. change (1 =? FDT_BEGIN_NODE) with true. cbn [app].
    rewrite cstring_app by done. cbn [mbind option_bind]. rewrite drop_app_length. by destruct (lex fuel strings rest).
Qed.

Lemma emits_end b : aligned b -> emits [TEnd] b (run_calls end_node b).
Proof.
  intros Ha. unfold run_calls, end_node. cbn [fold_left]. unfold AppendU32, append. split; cbn [buf_ str_buf_].
  - unfold aligned in *. cbn [buf_]. rewrite length_app, length_u32be. rewrite <- Nat.Div0.add_mod_idemp_l, Ha. done.
  - exists []. by rewrite app_nil_r.
  - exists (WriteU32BE FDT_END_NODE). split; [done|]. split; [cbn; lia|]. intros strings more fuel rest _ _.
    change (length [TEnd] + fuel)%nat with (S fuel). cbn [lex]. rewrite be32_write. cbn [mbind option_bind].
    change (u32 FDT_END_NODE) with 2. cbn. by destruct (lex fuel strings rest).
Qed.

Lemma emits_prop name data b :
  aligned b -> no_nul name -> size data < 2 ^ 32 -> emits [TProp name data] b (run_calls [AppendPropRaw name data] b).
Proof.
  intros Ha Hn Hd. unfold run_calls. cbn [fold_left]. unfold AppendPropRaw, AddString, AppendU32, Align4, append. cbn [buf_ str_buf_].
  set (off := u32 (size (str_buf_ b))). set (head := WriteU32BE FDT_PROP ++ WriteU32BE (u32 (size data)) ++ WriteU32BE off).
  assert (Epad : padding (length ((((buf_ b ++ WriteU32BE FDT_PROP) ++ WriteU32BE (u32 (size data))) ++ WriteU32BE off) ++ data)) = padding (length data)).
  { rewrite !length_app, !length_u32be, <- !Nat.add_assoc, padding_shift by done. rewrite !Nat.add_assoc. by rewrite padding_shift. }
  rewrite Epad. split; cbn [buf_ str_buf_].
  - unfold aligned. cbn [buf_]. rewrite length_app, <- Epad. apply padding_aligned.
  - by exists (name ++ [0]).
  - exists (head ++ data ++ padding (length data)). split; [unfold head; by rewrite <- !app_assoc|].
    split; [unfold head; rewrite !length_app, !length_u32be; cbn [length]; lia|].
    intros strings more fuel rest Hs Hz. change (length [TProp name data] + fuel)%nat with (S fuel). cbn [lex].
    unfold head. rewrite <- !app_assoc, be32_write. change (u32 FDT_PROP) with 3. cbn [mbind option_bind].
    change (3 =? FDT_END) with false. change (3 =? FDT_BEGIN_NODE) with false. change (3 =? FDT_PROP) with true. cbv iota.
    rewrite be32_write. cbn [mbind option_bind]. rewrite be32_write. cbn [mbind option_bind].
    rewrite bytes_app in Hz. rewrite !(u32_small (size data)) by (rewrite ?(u32_small (size data)); unfold size in *; lia).
    rewrite (u32_small off) by (unfold off; apply u32_range). unfold off. rewrite u32_small by (unfold size in *; lia).
    replace (drop (Z.to_nat (size (str_buf_ b))) strings) with (name ++ 0 :: more).
    2: { rewrite Hs, <- !app_assoc. unfold size. rewrite Nat2Z.id, drop_app_length. done. }
    rewrite cstring_app by done. cbn [mbind option_bind].
    rewrite (proj2 (Z.leb_le _ _)) by (unfold size; rewrite !length_app; lia).
    unfold size. rewrite Nat2Z.id, take_app_length, drop_app_length, drop_app_length. by destruct (lex fuel strings rest).
Qed.

Lemma run_calls_app c1 c2 b : run_calls (c1 ++ c2) b = run_calls c2 (run_calls c1 b).
Proof. apply fold_left_app. Qed.

Lemma emits_tokens ts : forall b, aligned b -> Forall token_ok ts -> emits ts b (run_calls (concat (map calls_of ts)) b).
Proof.
  induction ts as [|t ts IH]; intros b Ha Ht.
  - split; [done|exists []; by rewrite app_nil_r|]. exists []. split; [by rewrite app_nil_r|]. split; [done|].
    intros strings more fuel rest _ _. cbn. by destruct (lex fuel strings rest).
  - apply Forall_cons_1 in Ht as [Ht Hts]. cbn [map concat]. rewrite run_calls_app. change (t :: ts) with ([t] ++ ts).
    assert (H1 : emits [t] b (run_calls (calls_of t) b)).
    { destruct t; cbn [calls_of token_ok] in *; [by apply emits_begin|apply emits_prop; tauto|by apply emits_end]. }
    eapply emits_app; [exact H1|]. apply IH; [apply H1|done].
Qed.

(** ** The calls of Build are the tokens of the tree *)

Lemma tokens_node n ps cs :
  tokens_of (Node n ps cs) = TBegin n :: map (fun '(n, d) => TProp n d) ps ++ concat (map tokens_of cs) ++ [TEnd].
Proof.
  cbn [tokens_of]. do 3 f_equal. induction cs as [|t cs IH]; [done|]. cbn [map concat]. by rewrite <- IH.
Qed.

Definition calls_tree (t : tree) : list call := concat (map calls_of (tokens_of t)).
Definition prop_call (p : list Z * list Z) : call := AppendPropRaw p.1 p.2.
Lemma calls_node n ps cs :
  calls_tree (Node n ps cs) = begin_node n ++ map prop_call ps ++ concat (map calls_tree cs) ++ end_node.
Proof.
  unfold calls_tree at 1. rewrite tokens_node. cbn [map concat calls_of]. f_equal. rewrite !map_app, !concat_app. f_equal.
  - induction ps as [|[m d] ps IH]; [done|]. cbn. by rewrite IH.
  - f_equal. induction cs as [|t cs IH]; [done|]. cbn [map concat]. rewrite map_app, concat_app. by rewrite IH.
Qed.
Lemma calls_leaf n ps : calls_tree (leaf n ps) = begin_node (chars n) ++ map prop_call ps ++ end_node.
Proof. unfold leaf. by rewrite calls_node. Qed.
Lemma calls_virtio slot :
  calls_tree (virtio_tree slot) = AppendVirtioNode (kVirtioMmioBase + slot * kVirtioMmioStride) (kVirtioFirstSpi + slot).
Proof. unfold virtio_tree. by rewrite calls_node. Qed.
Lemma calls_cpu cpus i : calls_tree (cpu_tree cpus i) = cpu_node cpus i.
Proof. unfold cpu_tree. rewrite calls_node. unfold cpu_node. by destruct (1 <? cpus). Qed.

Lemma map_calls {A} (f : A -> tree) (g : A -> list call) l :
  (forall a, calls_tree (f a) = g a) -> concat (map calls_tree (map f l)) = concat (map g l).
Proof. intros Hfg. rewrite map_map. f_equal. apply map_ext. done. Qed.

Lemma Build_devices_calls :
  Build_devices ++ Build_buses =
  calls_tree (leaf "timer" [p_strings "compatible" ["arm,armv8-timer"; "arm,armv7-timer"];
        p_cells "interrupts" [1; 13; 4; 1; 14; 4; 1; 11; 4; 1; 10; 4]; p_flag "always-on"]) ++
  concat (map calls_tree device_trees) ++ end_node ++ [AppendU32 FDT_END].
Proof.
  unfold device_trees, Build_devices, Build_buses. rewrite !map_app, !concat_app. rewrite (map_calls virtio_tree _ _ calls_virtio).
  cbn [map concat]. unfold clock_tree. rewrite !calls_node, !calls_leaf. cbn [map concat]. rewrite calls_leaf.
  rewrite <- !app_assoc. reflexivity.
Qed.

Lemma Build_calls ram_base ram_size cpus cmdline kaslr seed :
  Build_head ram_base ram_size cpus cmdline kaslr seed ++ Build_devices ++ Build_buses =
  calls_tree (machine_tree ram_base ram_size cpus cmdline kaslr seed) ++ [AppendU32 FDT_END].
Proof.
  rewrite Build_devices_calls. unfold machine_tree. rewrite calls_node, map_app, concat_app. cbn [map concat].
  rewrite !calls_node, !calls_leaf, (map_calls (cpu_tree cpus) _ _ (calls_cpu cpus)).
  unfold Build_head. rewrite <- !app_assoc. reflexivity.
Qed.

(** ** The reader rebuilds the tree *)

Lemma grow_props ps rest : forall m ps0 stack done,
  grow (map (fun '(n, d) => TProp n d) ps ++ rest) (Node m ps0 [] :: stack) done = grow rest (Node m (ps0 ++ ps) [] :: stack) done.
Proof.
  induction ps as [|[n d] ps IH]; intros m ps0 stack dn; cbn [map app]; [by rewrite app_nil_r|].
  cbn [grow]. rewrite IH. by rewrite <- app_assoc.
Qed.

(** The tree [t] is complete: it joins the children of the innermost open node. *)
Definition close (t : tree) (rest : list token) (stack : list tree) : option tree :=
  match stack with [] => grow rest [] (Some t) | Node m ps cs :: stack => grow rest (Node m ps (cs ++ [t]) :: stack) None end.
Definition grows (t : tree) : Prop := forall rest stack, grow (tokens_of t ++ rest) stack None = close t rest stack.

Lemma grow_children cs : Forall grows cs -> forall m ps cs0 rest stack,
  grow (concat (map tokens_of cs) ++ rest) (Node m ps cs0 :: stack) None = grow rest (Node m ps (cs0 ++ cs) :: stack) None.
Proof.
  induction 1 as [|t cs Ht _ IH]; intros m ps cs0 rest stack; cbn [map concat app]; [by rewrite app_nil_r|].
  rewrite <- app_assoc, Ht. cbn [close]. rewrite IH. by rewrite <- app_assoc.
Qed.

Lemma grows_all : forall t, grows t.
Proof.
  fix IH 1. intros [n ps cs] rest stack.
  assert (Hcs : Forall grows cs) by (induction cs as [|t cs IHcs]; constructor; [apply IH|apply IHcs]).
  clear IH. rewrite tokens_node. cbn [app grow]. rewrite <- !app_assoc, grow_props. cbn [app].
  rewrite grow_children by done. cbn [app grow]. destruct stack as [|[m ps' cs'] stack]; done.
Qed.

(** ** The tokens of the tree are in the range of the format *)

Definition prop_ok (p : list Z * list Z) : Prop := no_nul p.1 /\ size p.2 < 2 ^ 32.
Definition tree_ok (t : tree) : Prop := Forall token_ok (tokens_of t).

Lemma node_ok n ps cs : no_nul n -> Forall prop_ok ps -> Forall tree_ok cs -> tree_ok (Node n ps cs).
Proof.
  intros Hn Hps Hcs. unfold tree_ok. rewrite tokens_node. constructor; [done|]. rewrite !Forall_app. split; [|split].
  - induction Hps as [|[m d] ps Hp _ IH]; constructor; [exact Hp|done].
  - induction Hcs; [done|]. cbn [map concat]. by rewrite Forall_app.
  - by repeat constructor.
Qed.

Definition no_nulb (s : list Z) : bool := forallb (fun b => negb (b =? 0)) s.
Lemma no_nulb_ok s : no_nulb s = true -> no_nul s.
Proof. unfold no_nulb. rewrite forallb_forall, <- List.Forall_forall. apply List.Forall_impl. intros b Hb ->. discriminate Hb. Qed.

Lemma p_raw_ok name d : no_nulb (chars name) = true -> size d < 2 ^ 32 -> prop_ok (p_raw name d).
Proof. intros H1 H2. split; [by apply no_nulb_ok|done]. Qed.

Lemma chars_cons c s : chars (String c s) = Z.of_nat (nat_of_ascii c) :: chars s.
Proof. done. Qed.
Lemma hex_digits_no_nul fuel : forall width n acc, no_nul (chars acc) -> no_nul (chars (hex_digits fuel width n acc)).
Proof.
  induction fuel as [|fuel IH]; intros width n acc Ha; cbn [hex_digits]; [done|]. destruct (_ && _); [done|].
  apply IH. rewrite chars_cons. constructor; [|done]. unfold hex_digit. pose proof (Z.mod_pos_bound n 16 ltac:(lia)) as Hm.
  rewrite nat_ascii_embedding by (destruct (_ <? _) eqn:?; lia). destruct (_ <? _) eqn:?; lia.
Qed.
Lemma hex_name_ok s fuel width n : no_nulb (chars s) = true -> no_nul (chars s ++ chars (hex_digits fuel width n "")).
Proof. intros Hs. apply Forall_app. split; [by apply no_nulb_ok|]. apply hex_digits_no_nul. constructor. Qed.

(** Properties whose name is a literal and whose size does not depend on their values. *)
Ltac props_ok := repeat (apply Forall_cons_2; [apply p_raw_ok; [vm_compute; reflexivity|lazy; reflexivity]|]); try apply Forall_nil_2.
Ltac leaf_ok := apply node_ok; [first [apply hex_name_ok; vm_compute; reflexivity|apply no_nulb_ok; vm_compute; reflexivity]| |].
Ltac trees_ok := repeat (apply Forall_cons_2; [leaf_ok; [try props_ok|try apply Forall_nil_2]|]); try apply Forall_nil_2.

Lemma cpu_tree_ok cpus i : tree_ok (cpu_tree cpus i).
Proof. unfold cpu_tree. leaf_ok; [|constructor]. destruct (1 <? cpus); props_ok. Qed.
Lemma virtio_tree_ok slot : tree_ok (virtio_tree slot).
Proof. unfold virtio_tree. leaf_ok; [props_ok|constructor]. Qed.
Lemma map_tree_ok {A} (f : A -> tree) l : (forall a, tree_ok (f a)) -> Forall tree_ok (map f l).
Proof. intros Hf. induction l; constructor; auto. Qed.

Lemma device_trees_ok : Forall tree_ok device_trees.
Proof.
  unfold device_trees. rewrite !Forall_app. split; [|split].
  - trees_ok.
  - apply map_tree_ok, virtio_tree_ok.
  - trees_ok.
Qed.

Lemma machine_tree_ok ram_base ram_size cpus cmdline kaslr seed :
  size cmdline + 1 < 2 ^ 32 -> size seed < 2 ^ 32 -> tree_ok (machine_tree ram_base ram_size cpus cmdline kaslr seed).
Proof.
  intros Hc Hs. unfold machine_tree. leaf_ok; [props_ok|]. rewrite Forall_app. split; [|apply device_trees_ok].
  apply Forall_cons_2; [leaf_ok; [props_ok|constructor]|]. apply Forall_cons_2; [|trees_ok; apply map_tree_ok, cpu_tree_ok].
  leaf_ok; [|constructor]. apply Forall_cons_2; [apply p_raw_ok; [done|by rewrite bytes_app]|].
  do 2 (apply Forall_cons_2; [apply p_raw_ok; done|]). apply Forall_cons_2; [by apply p_raw_ok|constructor].
Qed.

(** ** The header *)

Lemma field_first v rest : field (WriteU32BE v ++ rest) 0 = Some (u32 v).
Proof. unfold field. change (drop (4 * 0) (WriteU32BE v ++ rest)) with (WriteU32BE v ++ rest). by rewrite be32_write. Qed.
Lemma field_next v rest i : field (WriteU32BE v ++ rest) (S i) = field rest i.
Proof. unfold field. by replace (4 * S i)%nat with (4 + 4 * i)%nat by lia. Qed.

Lemma slice_app pre mid post off n : off = size pre -> n = size mid -> slice (pre ++ mid ++ post) off n = Some mid.
Proof.
  intros -> ->. unfold slice. replace (_ && _ && _) with true.
  - unfold size. by rewrite !Nat2Z.id, drop_app_length, take_app_length.
  - symmetry. unfold size. rewrite !length_app, !andb_true_iff, !Z.leb_le. lia.
Qed.

(** The header of a blob with structure block [body] and strings [st]. *)
Definition header (total off_strings size_st size_body : Z) : list Z :=
  WriteU32BE 0xD00DFEED ++ WriteU32BE total ++ WriteU32BE kStructOffset ++ WriteU32BE off_strings ++
  WriteU32BE kHeaderSize ++ WriteU32BE 17 ++ WriteU32BE 16 ++ WriteU32BE 0 ++ WriteU32BE size_st ++ WriteU32BE size_body.
Lemma header_app total o s b rest :
  header total o s b ++ rest = WriteU32BE 0xD00DFEED ++ WriteU32BE total ++ WriteU32BE kStructOffset ++ WriteU32BE o ++
  WriteU32BE kHeaderSize ++ WriteU32BE 17 ++ WriteU32BE 16 ++ WriteU32BE 0 ++ WriteU32BE s ++ WriteU32BE b ++ rest.
Proof. unfold header. by rewrite <- !app_assoc. Qed.

Lemma read_header total off_strings size_st size_body body st pad :
  size body = size_body -> size st = size_st -> off_strings = 56 + size_body ->
  total = 56 + size_body + size_st + size pad -> total < 2 ^ 32 ->
  read_blob (header total off_strings size_st size_body ++ repeat 0 16 ++ body ++ st ++ pad) =
  (ts ← lex (length body) st body; grow ts [] None).
Proof.
  intros Hb Hs -> Ht Hlt. set (blob := header _ _ _ _ ++ _).
  assert (Hr : 0 <= size_body /\ 0 <= size_st /\ 0 <= size pad) by (unfold size in *; lia).
  assert (Hf : forall i v, field (header total (56 + size_body) size_st size_body ++ repeat 0 16 ++ body ++ st ++ pad) i = Some v ->
    field blob i = Some v) by done.
  unfold read_blob.
  do 9 (erewrite Hf by (rewrite header_app, ?field_next, field_first; reflexivity); cbn [mbind option_bind]).
  clear Hf. rewrite (u32_small total), (u32_small (56 + size_body)), (u32_small size_st), (u32_small size_body) by lia.
  assert (Hsize : size blob = total).
  { unfold blob. rewrite !bytes_app. unfold header. rewrite !bytes_app. cbn [size]. unfold size in *. cbn [length WriteU32BE repeat]. lia. }
  rewrite Hsize, !Z.eqb_refl. replace (_ && _) with true by reflexivity.
  assert (Hh : size (header total (56 + size_body) size_st size_body) = 40) by done.
  unfold blob. rewrite (slice_app _ _ _ (u32 kHeaderSize) 16) by reflexivity. cbn [mbind option_bind]. change (forallb (Z.eqb 0) (repeat 0 16)) with true. cbv iota.
  set (pre := header total (56 + size_body) size_st size_body ++ repeat 0 16).
  assert (Hpre : size pre = 56) by (unfold pre; rewrite bytes_app, Hh; done).
  rewrite (app_assoc _ (repeat 0 16)). fold pre. rewrite (slice_app pre body) by done.
  rewrite (app_assoc pre body), (slice_app (pre ++ body) st) by (rewrite ?bytes_app; lia). done.
Qed.

Lemma read_built b body ts t :
  emits ts (mkFdt (repeat 0 56) []) b -> buf_ b = repeat 0 56 ++ body -> grow ts [] None = Some t ->
  size (finish_blob (AppendU32 FDT_END b)) < 2 ^ 32 -> read_blob (finish_blob (AppendU32 FDT_END b)) = Some t.
Proof.
  intros [Ha _ (body' & Eb & Hl & Hx)] Eb' Hg Hlt. cbn [buf_] in Eb. rewrite Eb' in Eb. apply app_inv_head in Eb as <-.
  unfold finish_blob, AppendU32, Align4, append in *. cbn [buf_ str_buf_] in *. rewrite Eb' in *.
  set (st := str_buf_ b) in *. set (tail := WriteU32BE FDT_END) in *.
  set (pad := padding (length (((repeat 0 56 ++ body) ++ tail) ++ st))) in *.
  assert (Ed : drop 40 ((((repeat 0 56 ++ body) ++ tail) ++ st) ++ pad) = repeat 0 16 ++ (body ++ tail) ++ st ++ pad) by (rewrite <- !app_assoc; done).
  rewrite Ed in *. clear Ed.
  match goal with |- read_blob ?l = _ => assert (El : l = header (u32 (size ((((repeat 0 56 ++ body) ++ tail) ++ st) ++ pad)))
    (u32 (size ((repeat 0 56 ++ body) ++ tail))) (u32 (size st)) (u32 (size ((repeat 0 56 ++ body) ++ tail) - kStructOffset)) ++ 
    repeat 0 16 ++ (body ++ tail) ++ st ++ pad) by (by rewrite header_app) end.
  rewrite El in *. clear El.
  assert (Hs : size (body ++ tail) + size st + size pad + 56 < 2 ^ 32).
  { rewrite !bytes_app in Hlt. change (size (header _ _ _ _)) with 40 in Hlt. change (size (repeat 0 16)) with 16 in Hlt.
    rewrite bytes_app. lia. }
  rewrite !bytes_app in *. change (size (repeat 0 56)) with 56. change kStructOffset with 56.
  change (size tail) with 4 in *. assert (Hp : 0 <= size body /\ 0 <= size st /\ 0 <= size pad) by (unfold size; lia).
  rewrite !u32_small by lia. rewrite read_header by (rewrite ?bytes_app; change (size tail) with 4; lia).
  rewrite length_app. change (length tail) with 4%nat.
  replace (length body + 4)%nat with (length ts + (length body - length ts + 4))%nat by lia.
  rewrite (Hx st []) by (rewrite ?app_nil_r; (done || lia)).
  replace (length body - length ts + 4)%nat with (S (length body - length ts + 3)) by lia.
  rewrite <- (app_nil_r tail) at 1. unfold tail. cbn [lex]. rewrite be32_write. cbn [mbind option_bind].
  change (u32 FDT_END =? FDT_END) with true. cbn [fmap option_fmap option_map mbind option_bind]. by rewrite app_nil_r.
Qed.

(** C20. The device tree blob that the monitor hands to an ARM guest says what it should: a
    reader that follows the Devicetree Specification - header, reserved map, tokens, string
    offsets, padding, nesting - accepts the bytes that [Build] produces and recovers from them
    exactly the tree [machine_tree] of the machine, for every memory size, number of
    processors, command line and seed, provided the blob stays below 4 GiB. *)
Theorem Build_reads_back ram_base ram_size cpus cmdline kaslr seed :
  size cmdline + 1 < 2 ^ 32 -> size seed < 2 ^ 32 ->
  size (Build ram_base ram_size cpus cmdline kaslr seed) < 2 ^ 32 ->
  read_blob (Build ram_base ram_size cpus cmdline kaslr seed) = Some (machine_tree ram_base ram_size cpus cmdline kaslr seed).
Proof.
  intros Hc Hs. unfold Build. rewrite Build_calls, run_calls_app. set (t := machine_tree _ _ _ _ _ _).
  change (Z.to_nat kStructOffset) with 56%nat. set (b0 := mkFdt (repeat 0 56) []).
  assert (He : emits (tokens_of t) b0 (run_calls (calls_tree t) b0)) by (apply emits_tokens; [done|by apply machine_tree_ok]).
  pose proof He as He'. destruct He' as [_ _ (body & Eb & _)]. unfold run_calls at 1 3. cbn [fold_left].
  intros Hlt. apply (read_built _ body (tokens_of t)); [done|done| |done].
  rewrite <- (app_nil_r (tokens_of t)). by rewrite grows_all.
Qed.

Module Demo.

Definition cmdline : list Z := chars "console=ttyAMA0 root=/dev/vda rw".
Definition seed : list Z := seqZ 1 32.
Definition blob : list Z := Build kRamBase 0x10000000 2 cmdline 0x123456789abcdef0 seed.

Lemma Build_reads_back_witness :
  size blob < 2 ^ 32 /\ read_blob blob = Some (machine_tree kRamBase 0x10000000 2 cmdline 0x123456789abcdef0 seed).
Proof.
  split; [vm_compute; reflexivity|]. apply Build_reads_back; [vm_compute; reflexivity..].
Defined.

End Demo.
