(* ===== verification/ArmDevices.v ===== *)
(** * native/hvf/backend.cc: the other devices of the ARM board

    The real-time clock (Pl031Rtc), the firmware configuration device (FwCfgMmio), the GPIO
    block (Pl061Gpio), the empty PCI host and the empty virtio transport, and the decoder
    of RunVm that hands an access to one of them ([dispatch_mmio]).  Theorems: the clock
    runs on from what the guest loads, a configuration item is read sequentially, the
    GPIO data register changes only addressed outputs, and the decoder's chain of tests is the
    table of disjoint windows that the device tree announces. *)

From S2P Require Import Prelude Words Bytes ArmBoard ArmUart Fdt.

Module Pl031.

Record Pl031Rtc := mk { offset_seconds_ : Z; match_ : Z; cr_ : Z; imsc_ : Z; ris_ : Z }.
#[global] Instance eta : Eta Pl031Rtc := fun s => mk (offset_seconds_ s) (match_ s) (cr_ s) (imsc_ s) (ris_ s).
Definition new : Pl031Rtc := mk 0 0 1 0 0.

(** [now] is what [time(nullptr)] returns in the call. *)
Definition host_seconds (now : Z) : Z := if now <? 0 then 0 else now.
Definition current_seconds_locked (now : Z) (s : Pl031Rtc) : Z :=
  let seconds := host_seconds now + offset_seconds_ s in
  if seconds <? 0 then 0 else if UINT32_MAX <? seconds then UINT32_MAX else u32 seconds.

Definition register (now offset : Z) (s : Pl031Rtc) : Z :=
  if offset =? 0x000 then current_seconds_locked now s else if offset =? 0x004 then match_ s else
  if offset =? 0x008 then current_seconds_locked now s else if offset =? 0x00C then cr_ s else
  if offset =? 0x010 then imsc_ s else if offset =? 0x014 then ris_ s else
  if offset =? 0x018 then Z.land (ris_ s) (imsc_ s) else prime_cell 0x31 offset.

Definition read_mmio (now offset : Z) (data : list Z) (len : Z) (s : Pl031Rtc) : list Z :=
  let data := memset data 0 len in
  if bad_len len 4 then data else put data (WriteU32 (register now offset s)).

Definition write_mmio (now offset : Z) (data : list Z) (len : Z) (s : Pl031Rtc) : Pl031Rtc :=
  if bad_len len 4 then s
  else
    let val := ReadU32 data in
    if offset =? 0x004 then
      let s := s <| match_ := val |> in
      s <| ris_ := if negb (match_ s =? 0) && (match_ s <=? current_seconds_locked now s) then 1 else 0 |>
    else if offset =? 0x008 then
      let s := s <| offset_seconds_ := val - host_seconds now |> in
      s <| ris_ := if negb (match_ s =? 0) && (match_ s <=? val) then 1 else 0 |>
    else if offset =? 0x00C then s <| cr_ := Z.land val 1 |>
    else if offset =? 0x010 then s <| imsc_ := Z.land val 1 |>
    else if offset =? 0x01C then s <| ris_ := Z.land (ris_ s) (bnot 32 val) |>
    else s.

End Pl031.

Module FwCfg.

Record FwCfgMmio := mk { cpus_ : Z; selector_ : Z; data_offset_ : Z }.
#[global] Instance eta : Eta FwCfgMmio := fun s => mk (cpus_ s) (selector_ s) (data_offset_ s).
Definition new (cpus : Z) : FwCfgMmio := mk cpus 0 0.

Definition normalize_selector (raw : Z) : Z :=
  if (Z.land raw 0x00FF =? 0) && negb (raw =? 0) then Z.shiftr raw 8 else raw.

Definition item_data_locked (s : FwCfgMmio) : list Z :=
  if selector_ s =? 0x0000 then [0x51; 0x45; 0x4D; 0x55]
  else if selector_ s =? 0x0001 then [1; 0; 0; 0]
  else if selector_ s =? 0x0005 then [u8 (Z.land (cpus_ s) 0xFF); u8 (Z.shiftr (cpus_ s) 8)]
  else if selector_ s =? 0x0019 then [0; 0; 0; 0]
  else [].

(** The loop of a data read: the bytes stored and the position reached. *)
Fixpoint read_item (n : nat) (item : list Z) (position : Z) : list Z * Z :=
  match n with
  | O => ([], position)
  | S n =>
      let b := if position <? Z.of_nat (length item) then byte_at item position else 0 in
      let '(bs, position) := read_item n item (u64 (position + 1)) in (b :: bs, position)
  end.

Definition read_mmio (offset : Z) (data : list Z) (len : Z) (s : FwCfgMmio) : list Z * FwCfgMmio :=
  let data := memset data 0 len in
  if bad_len len 8 then (data, s)
  else if offset <? 8 then
    let '(bs, position) := read_item (Z.to_nat len) (item_data_locked s) (data_offset_ s) in
    (put data bs, s <| data_offset_ := position |>)
  else if (offset =? 8) && (2 <=? len) then (put data (WriteU16 (selector_ s)), s)
  else (data, s).

Definition write_mmio (offset : Z) (data : list Z) (len : Z) (s : FwCfgMmio) : FwCfgMmio :=
  if bad_len len 8 then s
  else if offset =? 8 then
    let raw := if 2 <=? len then ReadU16 data else byte_at data 0 in
    s <| selector_ := normalize_selector raw |> <| data_offset_ := 0 |>
  else s.

End FwCfg.

Module Pl061.

Record Pl061Gpio := mk { data_ : Z; dir_ : Z; is_ : Z; ibe_ : Z; iev_ : Z; ie_ : Z; ris_ : Z; afsel_ : Z }.
#[global] Instance eta : Eta Pl061Gpio := fun s =>
  mk (data_ s) (dir_ s) (is_ s) (ibe_ s) (iev_ s) (ie_ s) (ris_ s) (afsel_ s).
Definition new : Pl061Gpio := mk 0 0 0 0 0 0 0 0.

Definition DataMask (offset : Z) : Z := Z.land (Z.shiftr offset 2) 0xFF.

Definition register (offset : Z) (s : Pl061Gpio) : Z :=
  if offset <=? 0x3FC then Z.land (data_ s) (DataMask offset) else
  if offset =? 0x400 then dir_ s else if offset =? 0x404 then is_ s else if offset =? 0x408 then ibe_ s else
  if offset =? 0x40C then iev_ s else if offset =? 0x410 then ie_ s else if offset =? 0x414 then ris_ s else
  if offset =? 0x418 then Z.land (ris_ s) (ie_ s) else if offset =? 0x420 then afsel_ s else prime_cell 0x61 offset.

Definition read_mmio (offset : Z) (data : list Z) (len : Z) (s : Pl061Gpio) : list Z :=
  let data := memset data 0 len in
  if bad_len len 4 then data else put data (WriteU32 (register offset s)).

Definition write_mmio (offset : Z) (data : list Z) (len : Z) (s : Pl061Gpio) : Pl061Gpio :=
  if bad_len len 4 then s
  else
    let val := Z.land (ReadU32 data) 0xFF in
    if offset <=? 0x3FC then
      let mask := Z.land (DataMask offset) (dir_ s) in
      s <| data_ := Z.lor (Z.land (data_ s) (bnot 32 mask)) (Z.land val mask) |>
    else if offset =? 0x400 then s <| dir_ := val |>
    else if offset =? 0x404 then s <| is_ := val |>
    else if offset =? 0x408 then s <| ibe_ := val |>
    else if offset =? 0x40C then s <| iev_ := val |>
    else if offset =? 0x410 then s <| ie_ := val |>
    else if offset =? 0x41C then s <| ris_ := Z.land (ris_ s) (bnot 32 val) |>
    else if offset =? 0x420 then s <| afsel_ := val |>
    else s.

End Pl061.

Module EmptyPcieHost.
Definition read_mmio (data : list Z) (len : Z) : list Z := memset data 0xFF len.
End EmptyPcieHost.

Module EmptyVirtioMmio.
Definition register (offset : Z) : Z :=
  if offset =? 0x000 then 0x74726976 else if offset =? 0x004 then 2 else if offset =? 0x008 then 0 else
  if offset =? 0x00C then 0x554D4551 else if offset =? 0x034 then kMaxQueueSize else 0.
Definition read_mmio (offset : Z) (data : list Z) (len : Z) : list Z :=
  let data := memset data 0 len in
  if negb (len =? 4) then data else put data (WriteU32 (register offset)).
End EmptyVirtioMmio.

(** ** dispatch_mmio *)

(** A virtio transport as RunVm sees it: the block and network devices implement it;
    [v_poll] is the network device's [if (enabled()) poll_rx()]. *)
Class VirtioTransport (V : Type) := {
  contains : V -> Z -> bool;
  v_poll : V -> V;
  v_read : V -> Z -> list Z -> Z -> list Z * V;
  v_write : V -> Z -> list Z -> Z -> V }.

Record Board (V : Type) := mkBoard {
  uart : ArmUart.Pl011Uart; rtc : Pl031.Pl031Rtc; fw_cfg : FwCfg.FwCfgMmio; gpio : Pl061.Pl061Gpio;
  blks : list V; net_dev : option V;
  exits : list Z  (** status bytes of request_stop("guest-exit", status), the last first *) }.
Arguments mkBoard {V}. Arguments uart {V}. Arguments rtc {V}. Arguments fw_cfg {V}. Arguments gpio {V}.
Arguments blks {V}. Arguments net_dev {V}. Arguments exits {V}.
#[export] Instance eta_Board V : Eta (Board V) := fun b =>
  mkBoard (uart b) (rtc b) (fw_cfg b) (gpio b) (blks b) (net_dev b) (exits b).

Section Dispatch.
Context {V : Type} `{VirtioTransport V}.

(** An access to one transport. *)
Definition v_access (ipa : Z) (is_write : bool) (data : list Z) (len : Z) (v : V) : list Z * V :=
  if is_write then (data, v_write v ipa data len) else v_read v ipa data len.

(** The loop over [blks]: the first one that contains the address. *)
Fixpoint blks_access (ipa : Z) (is_write : bool) (data : list Z) (len : Z) (l : list V) : option (list Z * list V) :=
  match l with
  | [] => None
  | v :: l =>
      if contains v ipa then let '(data, v) := v_access ipa is_write data len v in Some (data, v :: l)
      else match blks_access ipa is_write data len l with Some (data, l) => Some (data, v :: l) | None => None end
  end.

Definition within (base size ipa : Z) : bool := (base <=? ipa) && (ipa <? base + size).

(** [None]: the address belongs to no device.  The data are the buffer after the access. *)
Definition dispatch_mmio (now ipa : Z) (is_write : bool) (data : list Z) (len : Z) (b : Board V) : option (list Z * Board V) :=
  if within kUartBase 0x1000 ipa then
    let off := ipa - kUartBase in
    if is_write then Some (data, b <| uart := ArmUart.write_mmio off data len (uart b) |>)
    else let '(data, u) := ArmUart.read_mmio off data len (uart b) in Some (data, b <| uart := u |>)
  else if within kPl031RtcBase 0x1000 ipa then
    let off := ipa - kPl031RtcBase in
    if is_write then Some (data, b <| rtc := Pl031.write_mmio now off data len (rtc b) |>)
    else Some (Pl031.read_mmio now off data len (rtc b), b)
  else if within kFwCfgBase 0x18 ipa then
    let off := ipa - kFwCfgBase in
    if is_write then Some (data, b <| fw_cfg := FwCfg.write_mmio off data len (fw_cfg b) |>)
    else let '(data, f) := FwCfg.read_mmio off data len (fw_cfg b) in Some (data, b <| fw_cfg := f |>)
  else if within kPl061GpioBase 0x1000 ipa then
    let off := ipa - kPl061GpioBase in
    if is_write then Some (data, b <| gpio := Pl061.write_mmio off data len (gpio b) |>)
    else Some (Pl061.read_mmio off data len (gpio b), b)
  else if within kPcieEcamBase kPcieEcamSize ipa then
    Some (if is_write then data else EmptyPcieHost.read_mmio data len, b)
  else if within kPciePioBase kPciePioSize ipa then
    Some (if is_write then data else EmptyPcieHost.read_mmio data len, b)
  else match blks_access ipa is_write data len (blks b) with
  | Some (data, l) => Some (data, b <| blks := l |>)
  | None =>
      let empty_or_exit :=
        if IsQemuVirtioMmioAddress ipa then
          Some (if is_write then data else EmptyVirtioMmio.read_mmio (VirtioMmioOffset ipa) data len, b)
        else if within kExitDevBase 0x1000 ipa then
          Some (data, if is_write then b <| exits := byte_at data 0 :: exits b |> else b)
        else None in
      match net_dev b with
      | Some v => if contains v ipa then let '(data, v) := v_access ipa is_write data len v in Some (data, b <| net_dev := Some v |>)
                  else empty_or_exit
      | None => empty_or_exit
      end
  end.

End Dispatch.

(** ** The buffer after an access *)

(** What a transport promises of the caller's buffer. *)
Class TransportLaws (V : Type) `{VirtioTransport V} :=
  v_read_ok : forall v ipa data len, buffer_ok data -> 0 <= len <= 8 -> buffer_ok (v_read v ipa data len).1.

Lemma read_item_ok n item : forall p, bytes_ok item -> bytes_ok (FwCfg.read_item n item p).1 /\ length (FwCfg.read_item n item p).1 = n.
Proof.
  induction n as [|n IH]; intros p Hi; cbn [FwCfg.read_item]; [split; [constructor|done]|].
  destruct (IH (u64 (p + 1)) Hi) as [Hb Hl]. destruct (FwCfg.read_item n item (u64 (p + 1))) as [bs p']. cbn [fst length] in *.
  split; [|lia]. constructor; [|done]. destruct (_ <? _); [by apply byte_at_range|done].
Qed.
Lemma item_ok s : bytes_ok (FwCfg.item_data_locked s).
Proof. unfold FwCfg.item_data_locked. repeat case_match; repeat (apply Forall_cons_2; [apply u8_range || done|]); apply Forall_nil_2. Qed.

Section Buffer.
Context {V : Type} `{VirtioTransport V} `{!TransportLaws V}.

Lemma v_access_ok ipa w data len v : buffer_ok data -> 0 <= len <= 8 -> buffer_ok (v_access ipa w data len v).1.
Proof. intros Hd Hl. unfold v_access. destruct w; [done|by apply v_read_ok]. Qed.

Lemma blks_access_ok ipa w data len l data' l' : buffer_ok data -> 0 <= len <= 8 ->
  blks_access ipa w data len l = Some (data', l') -> buffer_ok data'.
Proof.
  intros Hd Hn. revert l'. induction l as [|v l IH]; intros l'; cbn [blks_access]; [done|]. destruct (contains v ipa).
  - pose proof (v_access_ok ipa w data len v Hd Hn) as Hv. destruct (v_access ipa w data len v) as [d v']. by intros [= <- <-].
  - destruct (blks_access ipa w data len l) as [[d l0]|]; [|done]. intros [= <- <-]. by apply (IH l0).
Qed.

Lemma uart_read_ok off data len s : buffer_ok data -> 0 <= len <= 8 -> buffer_ok (ArmUart.read_mmio off data len s).1.
Proof.
  intros Hd Hn. unfold ArmUart.read_mmio. destruct (bad_len len 4); [by apply memset_buffer_ok|].
  destruct (off =? 0); [destruct (ArmUart.pop_rx s) as [val s']|]; apply put_buffer_ok; auto with buffer bytes; by apply memset_buffer_ok.
Qed.
Lemma fw_read_ok off data len s : buffer_ok data -> 0 <= len <= 8 -> buffer_ok (FwCfg.read_mmio off data len s).1.
Proof.
  intros Hd Hn. pose proof (memset_buffer_ok data 0 len Hd ltac:(done) Hn) as Hm. unfold FwCfg.read_mmio. destruct (bad_len len 8); [done|].
  destruct (off <? 8); [|destruct (_ && _); [|done]; apply put_buffer_ok; [done|auto with bytes|rewrite length_WriteU16; lia]].
  destruct (read_item_ok (Z.to_nat len) (FwCfg.item_data_locked s) (FwCfg.data_offset_ s) (item_ok s)) as [Hb Hl].
  destruct (FwCfg.read_item _ _ _) as [bs p]. cbn [fst] in *. apply put_buffer_ok; [done|done|lia].
Qed.
Lemma reg_read_ok data len n val : buffer_ok data -> 0 <= len <= 8 ->
  buffer_ok (let data := memset data 0 len in if bad_len len n then data else put data (WriteU32 val)).
Proof. intros Hd Hn. cbv zeta. destruct (bad_len len n); [by apply memset_buffer_ok|]. apply put_buffer_ok; [by apply memset_buffer_ok|auto with bytes|rewrite length_WriteU32; lia]. Qed.

Lemma dispatch_buffer_ok now ipa w data len b data' b' : buffer_ok data -> 0 <= len <= 8 ->
  dispatch_mmio now ipa w data len b = Some (data', b') -> buffer_ok data'.
Proof.
  intros Hd Hn. unfold dispatch_mmio.
  destruct (within kUartBase 0x1000 ipa).
  { destruct w; [by intros [= <- <-]|]. pose proof (uart_read_ok (ipa - kUartBase) data len (uart b) Hd Hn) as Hu.
    destruct (ArmUart.read_mmio _ _ _ _) as [d u]. by intros [= <- <-]. }
  destruct (within kPl031RtcBase 0x1000 ipa); [destruct w; intros [= <- <-]; [done|by apply reg_read_ok]|].
  destruct (within kFwCfgBase 0x18 ipa).
  { destruct w; [by intros [= <- <-]|]. pose proof (fw_read_ok (ipa - kFwCfgBase) data len (fw_cfg b) Hd Hn) as Hu.
    destruct (FwCfg.read_mmio _ _ _ _) as [d u]. by intros [= <- <-]. }
  destruct (within kPl061GpioBase 0x1000 ipa); [destruct w; intros [= <- <-]; [done|by apply reg_read_ok]|].
  destruct (within kPcieEcamBase kPcieEcamSize ipa); [destruct w; intros [= <- <-]; [done|by apply memset_buffer_ok]|].
  destruct (within kPciePioBase kPciePioSize ipa); [destruct w; intros [= <- <-]; [done|by apply memset_buffer_ok]|].
  destruct (blks_access ipa w data len (blks b)) as [[d l]|] eqn:E; [intros [= <- <-]; by apply (blks_access_ok _ _ _ _ _ _ _ Hd Hn E)|].
  assert (He : forall r, (if IsQemuVirtioMmioAddress ipa then
      Some (if w then data else EmptyVirtioMmio.read_mmio (VirtioMmioOffset ipa) data len, b)
    else if within kExitDevBase 0x1000 ipa then Some (data, if w then b <| exits := byte_at data 0 :: exits b |> else b)
    else None) = Some r -> buffer_ok r.1).
  { intros r. destruct (IsQemuVirtioMmioAddress ipa); [|by destruct (within _ _ _); [intros [= <-]|]]. intros [= <-]. cbn [fst].
    destruct w; [done|]. unfold EmptyVirtioMmio.read_mmio. destruct (negb _); [by apply memset_buffer_ok|].
    apply put_buffer_ok; [by apply memset_buffer_ok|auto with bytes|rewrite length_WriteU32; lia]. }
  destruct (net_dev b) as [v|]; [|apply (He (data', b'))]. destruct (contains v ipa); [|apply (He (data', b'))].
  pose proof (v_access_ok ipa w data len v Hd Hn) as Hv. destruct (v_access ipa w data len v) as [d v']. by intros [= <- <-].
Qed.

End Buffer.

(** ** The map of the board *)

Inductive device := DUart | DRtc | DFwCfg | DGpio | DPci | DTransport (slot : Z) | DExit.
#[export] Instance device_eq_dec : EqDecision device.
Proof. solve_decision. Defined.

(** The windows of the board: base, size, what answers. *)
Definition windows : list (Z * Z * device) :=
  [(kUartBase, 0x1000, DUart); (kPl031RtcBase, 0x1000, DRtc); (kFwCfgBase, 0x18, DFwCfg); (kPl061GpioBase, 0x1000, DGpio);
   (kPcieEcamBase, kPcieEcamSize, DPci); (kPciePioBase, kPciePioSize, DPci); (kExitDevBase, 0x1000, DExit)] ++
  map (fun slot => (VirtioMmioBaseForSlot slot, kVirtioMmioSize, DTransport slot)) (seqZ 0 kVirtioMmioCount).
Definition decode (ipa : Z) : option (Z * device) :=
  match List.find (fun '(base, size, _) => within base size ipa) windows with
  | Some (base, _, d) => Some (ipa - base, d)
  | None => None
  end.

(** A transport answers in the window of its slot. *)
Definition transport_at {V} `{VirtioTransport V} (slot : Z) (v : V) : Prop :=
  forall ipa, contains v ipa = within (VirtioMmioBaseForSlot slot) kVirtioMmioSize ipa.
(** The transports RunVm creates: disks in the first slots, then the network device. *)
Record board_ok {V} `{VirtioTransport V} (b : Board V) : Prop := {
  bo_blks : forall i v, blks b !! i = Some v -> transport_at (Z.of_nat i) v;
  bo_net : forall v, net_dev b = Some v -> transport_at (Z.of_nat (length (blks b))) v;
  bo_count : Z.of_nat (length (blks b)) + match net_dev b with Some _ => 1 | None => 0 end <= kVirtioMmioCount }.

(** What the table says an access does. *)
Definition access {V} `{VirtioTransport V} (now ipa : Z) (is_write : bool) (data : list Z) (len : Z) (b : Board V)
    (off : Z) (d : device) : list Z * Board V :=
  match d with
  | DUart => if is_write then (data, b <| uart := ArmUart.write_mmio off data len (uart b) |>)
             else let '(data, u) := ArmUart.read_mmio off data len (uart b) in (data, b <| uart := u |>)
  | DRtc => if is_write then (data, b <| rtc := Pl031.write_mmio now off data len (rtc b) |>)
            else (Pl031.read_mmio now off data len (rtc b), b)
  | DFwCfg => if is_write then (data, b <| fw_cfg := FwCfg.write_mmio off data len (fw_cfg b) |>)
              else let '(data, f) := FwCfg.read_mmio off data len (fw_cfg b) in (data, b <| fw_cfg := f |>)
  | DGpio => if is_write then (data, b <| gpio := Pl061.write_mmio off data len (gpio b) |>)
             else (Pl061.read_mmio off data len (gpio b), b)
  | DPci => (if is_write then data else memset data 0xFF len, b)
  | DExit => (data, if is_write then b <| exits := byte_at data 0 :: exits b |> else b)
  | DTransport slot =>
      match blks b !! Z.to_nat slot with
      | Some v => let '(data, v) := v_access ipa is_write data len v in (data, b <| blks := <[Z.to_nat slot := v]> (blks b) |>)
      | None =>
          match net_dev b with
          | Some v => if slot =? Z.of_nat (length (blks b)) then
                        let '(data, v) := v_access ipa is_write data len v in (data, b <| net_dev := Some v |>)
                      else (if is_write then data else EmptyVirtioMmio.read_mmio off data len, b)
          | None => (if is_write then data else EmptyVirtioMmio.read_mmio off data len, b)
          end
      end
  end.

Lemma within_spec base size ipa : within base size ipa = true <-> base <= ipa < base + size.
Proof. unfold within. lia. Qed.

Lemma within_false base size ipa : ipa < base \/ base + size <= ipa -> within base size ipa = false.
Proof. unfold within. lia. Qed.

Lemma in_windows w : In w windows ->
  (exists slot, w = (VirtioMmioBaseForSlot slot, kVirtioMmioSize, DTransport slot) /\ 0 <= slot < 32) \/
  w = (kUartBase, 0x1000, DUart) \/ w = (kPl031RtcBase, 0x1000, DRtc) \/ w = (kFwCfgBase, 0x18, DFwCfg) \/
  w = (kPl061GpioBase, 0x1000, DGpio) \/ w = (kPcieEcamBase, kPcieEcamSize, DPci) \/ w = (kPciePioBase, kPciePioSize, DPci) \/
  w = (kExitDevBase, 0x1000, DExit).
Proof.
  intros Hw. unfold windows in Hw. apply in_app_or in Hw as [Hw|Hw].
  - right. cbn [In] in Hw. decompose [or] Hw; subst; tauto.
  - left. apply in_map_iff in Hw as (slot & <- & Hs). apply list_elem_of_In, elem_of_seqZ in Hs. exists slot. split; [done|].
    unfold kVirtioMmioCount in Hs. lia.
Qed.

Ltac board_consts := unfold VirtioMmioBaseForSlot, kVirtioMmioBase, kVirtioMmioStride, kVirtioMmioSize, kUartBase, kPl031RtcBase,
  kFwCfgBase, kPl061GpioBase, kPcieEcamBase, kPcieEcamSize, kPciePioBase, kPciePioSize, kExitDevBase in *.

(** No address is in two windows. *)
Lemma windows_disjoint w1 w2 ipa : In w1 windows -> In w2 windows ->
  within w1.1.1 w1.1.2 ipa = true -> within w2.1.1 w2.1.2 ipa = true -> w1 = w2.
Proof.
  intros H1 H2 W1 W2. pose proof (in_windows _ H1) as C1. pose proof (in_windows _ H2) as C2. clear H1 H2.
  rewrite within_spec in W1, W2.
  destruct C1 as [(s1 & -> & Hs1)|C1]; destruct C2 as [(s2 & -> & Hs2)|C2]; cbn [fst snd] in *.
  - assert (s1 = s2) as -> by (board_consts; lia). done.
  - exfalso. repeat destruct C2 as [->|C2]; try (subst w2); cbn [fst snd] in *; board_consts; lia.
  - exfalso. repeat destruct C1 as [->|C1]; try (subst w1); cbn [fst snd] in *; board_consts; lia.
  - repeat destruct C1 as [->|C1]; try (subst w1); cbn [fst snd] in *;
      (repeat destruct C2 as [->|C2]; try (subst w2); cbn [fst snd] in *; try done; exfalso; board_consts; lia).
Qed.

Lemma decode_window base size d ipa : In (base, size, d) windows -> within base size ipa = true -> decode ipa = Some (ipa - base, d).
Proof.
  intros Hin Hw. unfold decode. destruct (List.find _ windows) as [[[base' size'] d']|] eqn:E.
  - apply find_some in E as [Hin' Hw']. assert (Hww : (base', size', d') = (base, size, d)) by (by apply (windows_disjoint _ _ ipa)).
    by injection Hww as -> -> ->.
  - by rewrite (find_none _ _ E _ Hin) in Hw.
Qed.
Lemma decode_none ipa : (forall base size d, In (base, size, d) windows -> within base size ipa = false) -> decode ipa = None.
Proof.
  intros Hn. unfold decode. destruct (List.find _ windows) as [[[base size] d]|] eqn:E; [|done].
  apply find_some in E as [Hin Hw]. by rewrite (Hn _ _ _ Hin) in Hw.
Qed.

Section Routing.
Context {V : Type} `{VirtioTransport V}.

(** The slot of an address in the transports' range. *)
Definition slot_of (ipa : Z) : Z := (ipa - kVirtioMmioBase) / kVirtioMmioStride.
Lemma slot_of_spec ipa : IsQemuVirtioMmioAddress ipa = true ->
  0 <= slot_of ipa < 32 /\ within (VirtioMmioBaseForSlot (slot_of ipa)) kVirtioMmioSize ipa = true /\
  VirtioMmioOffset ipa = ipa - VirtioMmioBaseForSlot (slot_of ipa).
Proof.
  unfold IsQemuVirtioMmioAddress, slot_of. intros Ha. apply andb_true_iff in Ha as [H1%Z.leb_le H2%Z.ltb_lt].
  rewrite within_spec. unfold VirtioMmioOffset, VirtioMmioBaseForSlot, kVirtioMmioBase, kVirtioMmioStride, kVirtioMmioSize, kVirtioMmioCount in *.
  rewrite u64_small by lia. Z.to_euclidean_division_equations. lia.
Qed.
Lemma slot_range ipa slot : 0 <= slot < 32 -> within (VirtioMmioBaseForSlot slot) kVirtioMmioSize ipa = true ->
  IsQemuVirtioMmioAddress ipa = true /\ slot_of ipa = slot.
Proof.
  rewrite within_spec. unfold IsQemuVirtioMmioAddress, slot_of, VirtioMmioBaseForSlot, kVirtioMmioBase, kVirtioMmioStride, kVirtioMmioSize, kVirtioMmioCount.
  intros Hs Hw. split; [lia|]. Z.to_euclidean_division_equations. lia.
Qed.

(** The loop finds the transport of the address's slot. *)
Lemma blks_access_spec ipa w data len : forall (l : list V) first,
  (forall i v, l !! i = Some v -> transport_at (first + Z.of_nat i) v) ->
  0 <= first -> first + Z.of_nat (length l) <= 32 ->
  blks_access ipa w data len l =
  if IsQemuVirtioMmioAddress ipa && (first <=? slot_of ipa) then
    match l !! Z.to_nat (slot_of ipa - first) with
    | Some v => let '(data, v) := v_access ipa w data len v in Some (data, <[Z.to_nat (slot_of ipa - first) := v]> l)
    | None => None
    end
  else None.
Proof.
  induction l as [|v l IH]; intros first Hl H0 Hc; cbn [blks_access].
  - destruct (_ && _); [|done]. by rewrite lookup_nil.
  - cbn [length] in Hc. pose proof (Hl O v eq_refl ipa) as Hv. rewrite Z.add_0_r in Hv. rewrite Hv.
    destruct (within (VirtioMmioBaseForSlot first) kVirtioMmioSize ipa) eqn:Ew.
    + apply slot_range in Ew as [-> ->]; [|lia]. rewrite Z.leb_refl, Z.sub_diag. change (Z.to_nat 0) with O. cbn.
      by destruct (v_access ipa w data len v).
    + rewrite (IH (first + 1)); [|intros i x Hx; replace (first + 1 + Z.of_nat i) with (first + Z.of_nat (S i)) by lia; by apply Hl|lia|lia].
      destruct (IsQemuVirtioMmioAddress ipa) eqn:Ea; [|done]. cbn [andb]. apply slot_of_spec in Ea as (_ & Hs & _).
      destruct (Z.leb_spec (first + 1) (slot_of ipa)) as [Hle|Hle].
      * rewrite (proj2 (Z.leb_le first (slot_of ipa))) by lia.
        replace (Z.to_nat (slot_of ipa - first)) with (S (Z.to_nat (slot_of ipa - (first + 1)))) by lia. cbn [lookup list_lookup].
        destruct (_ !! _); [|done]. by destruct (v_access ipa w data len _).
      * destruct (Z.leb_spec first (slot_of ipa)); [|done]. assert (slot_of ipa = first) as E by lia. by rewrite E, Ew in Hs.
Qed.

Lemma dispatch_transport now ipa w data len (b : Board V) : board_ok b -> IsQemuVirtioMmioAddress ipa = true ->
  dispatch_mmio now ipa w data len b = Some (access now ipa w data len b (VirtioMmioOffset ipa) (DTransport (slot_of ipa))).
Proof.
  intros Hb Ha. pose proof (slot_of_spec ipa Ha) as (Hs & Hw & Ho). pose proof Ha as Ha'.
  unfold IsQemuVirtioMmioAddress, kVirtioMmioBase, kVirtioMmioCount, kVirtioMmioStride in Ha'. apply andb_true_iff in Ha' as [H1%Z.leb_le H2%Z.ltb_lt].
  unfold dispatch_mmio. rewrite Ha.
  rewrite !within_false by (board_consts; lia).
  destruct Hb as [Hblk Hnet Hcount]. unfold kVirtioMmioCount in Hcount.
  rewrite (blks_access_spec ipa w data len (blks b) 0) by (try apply Hblk; try lia; destruct (net_dev b); lia).
  rewrite Ha, Z.sub_0_r, (proj2 (Z.leb_le _ _)) by lia. cbn [andb access].
  destruct (blks b !! Z.to_nat (slot_of ipa)) as [v|] eqn:Ev; [by destruct (v_access ipa w data len v)|].
  destruct (net_dev b) as [v|]; [|done]. rewrite (Hnet v eq_refl).
  destruct (Z.eqb_spec (slot_of ipa) (Z.of_nat (length (blks b)))) as [E|E].
  - rewrite <- E, Hw. by destruct (v_access ipa w data len v).
  - destruct (within (VirtioMmioBaseForSlot (Z.of_nat (length (blks b)))) kVirtioMmioSize ipa) eqn:Ew; [|done].
    apply slot_range in Ew as [_ Ew]; lia.
Qed.

(** C21. The decoder of the ARM board is its map: an access to any address is performed
    by exactly the device whose window contains it, at the offset from the window's base,
    and by no device outside all windows; a transport's window reaches the disk or network
    device of that slot, and the remaining slots an empty transport. *)
Theorem arm_mmio_routing now ipa w data len (b : Board V) : board_ok b ->
  dispatch_mmio now ipa w data len b =
  match decode ipa with Some (off, d) => Some (access now ipa w data len b off d) | None => None end.
Proof.
  intros Hb. destruct (IsQemuVirtioMmioAddress ipa) eqn:Ea.
  - pose proof (slot_of_spec ipa Ea) as (Hs & Hw & Ho). rewrite dispatch_transport by done.
    rewrite (decode_window _ _ (DTransport (slot_of ipa)) ipa) with (2 := Hw); [by rewrite Ho|].
    unfold windows. apply in_or_app. right. apply in_map_iff. exists (slot_of ipa). split; [done|].
    apply list_elem_of_In, elem_of_seqZ. unfold kVirtioMmioCount. lia.
  - assert (Hnet : match net_dev b with Some v => contains v ipa | None => false end = false).
    { destruct (net_dev b) as [v|] eqn:En; [|done]. pose proof (bo_count b Hb) as Hc. rewrite En in Hc. rewrite (bo_net b Hb v En).
      destruct (within _ _ ipa) eqn:Ew; [|done]. apply slot_range in Ew as [Ew _]; [congruence|]. unfold kVirtioMmioCount in Hc. lia. }
    assert (Hblk : blks_access ipa w data len (blks b) = None).
    { pose proof (bo_count b Hb) as Hc. unfold kVirtioMmioCount in Hc.
      rewrite (blks_access_spec _ _ _ _ _ 0) by (try apply (bo_blks b Hb); destruct (net_dev b); lia). by rewrite Ea. }
    unfold dispatch_mmio. rewrite Ea, Hblk.
    repeat match goal with |- context [if within ?base ?size ipa then _ else _] =>
      let E := fresh "W" in destruct (within base size ipa) eqn:E;
      [first [rewrite (decode_window base size DUart ipa) by (done || (unfold windows; cbn; tauto))
             |rewrite (decode_window base size DRtc ipa) by (done || (unfold windows; cbn; tauto))
             |rewrite (decode_window base size DFwCfg ipa) by (done || (unfold windows; cbn; tauto))
             |rewrite (decode_window base size DGpio ipa) by (done || (unfold windows; cbn; tauto))
             |rewrite (decode_window base size DPci ipa) by (done || (unfold windows; cbn; tauto))
             |rewrite (decode_window base size DExit ipa) by (done || (unfold windows; cbn; tauto))]; cbn [access]; repeat case_match; done|] end.
    rewrite decode_none; [by destruct (net_dev b); rewrite ?Hnet|].
    intros base size d Hin. destruct (within base size ipa) eqn:Ew; [|done].
    destruct (in_windows _ Hin) as [(slot & Es & Hs)|Hin']; [|decompose [or] Hin'; congruence].
    injection Es as -> -> ->. apply slot_range in Ew as [Ew _]; [congruence|done].
Qed.

End Routing.

(** ** The map and the device tree *)

(** The first four cells of [reg], and the interrupt number in [interrupts]. *)
Definition prop_of (name : string) (t : tree) : option (list Z) :=
  match t with Node _ props _ => snd <$> List.find (fun '(n, _) => bool_decide (n = chars name)) props end.
Definition cells_of (bs : list Z) : list Z :=
  match be32 bs with
  | Some (a, bs) => a :: match be32 bs with
    | Some (b, bs) => b :: match be32 bs with
      | Some (c, bs) => c :: match be32 bs with Some (d, _) => [d] | None => [] end
      | None => [] end
    | None => [] end
  | None => [] end.
Definition reg_of (t : tree) : option (Z * Z) :=
  match cells_of <$> prop_of "reg" t with Some [a; b; c; d] => Some (a * 2 ^ 32 + b, c * 2 ^ 32 + d) | _ => None end.
Definition spi_of (t : tree) : option Z :=
  match cells_of <$> prop_of "interrupts" t with Some (0 :: n :: _) => Some n | _ => None end.

(** The interrupt a device of the model raises. *)
Definition intid_of (d : device) : option Z :=
  match d with DUart => Some kUartIntid | DTransport slot => Some (VirtioMmioIntidForSlot slot) | _ => None end.
Definition spi_agrees (t : tree) (d : device) : bool :=
  match intid_of d with Some n => bool_decide (spi_of t = Some (n - 32)) | None => true end.
Definition node_agrees (t : tree) : bool :=
  match reg_of t with
  | Some (base, size) => existsb (fun '(b, s, d) => (b =? base) && (s =? size) && spi_agrees t d) windows
  | None => true
  end.

(** C23. The device tree and the decoder describe the same board: every device node that
    the guest reads in the blob (Fdt.Build_reads_back) and that has registers announces
    exactly a window of the decoder, every address of which is decoded by one device at its
    offset, and the interrupt it announces is the one that device raises. *)
Theorem tree_matches_board t base size :
  In t device_trees -> reg_of t = Some (base, size) ->
  exists d, In (base, size, d) windows /\
    (forall ipa, base <= ipa < base + size -> decode ipa = Some (ipa - base, d)) /\
    (forall n, intid_of d = Some n -> spi_of t = Some (n - 32)).
Proof.
  intros Ht Hr. assert (Hall : forallb node_agrees device_trees = true) by (vm_compute; reflexivity).
  rewrite forallb_forall in Hall. specialize (Hall t Ht). unfold node_agrees in Hall. rewrite Hr in Hall.
  apply existsb_exists in Hall as ([[b s] d] & Hin & Hd). apply andb_true_iff in Hd as [Hd Hspi].
  apply andb_true_iff in Hd as [->%Z.eqb_eq ->%Z.eqb_eq]. exists d. split; [done|]. split.
  - intros ipa Hi. apply (decode_window _ size); [done|by apply within_spec].
  - intros n Hn. unfold spi_agrees in Hspi. rewrite Hn in Hspi. by apply bool_decide_eq_true in Hspi.
Qed.

(** ** The devices *)

Lemma clamp_seconds now s : Pl031.current_seconds_locked now s =
  Z.max 0 (Z.min UINT32_MAX (Pl031.host_seconds now + Pl031.offset_seconds_ s)).
Proof.
  unfold Pl031.current_seconds_locked, UINT32_MAX. destruct (Z.ltb_spec (Pl031.host_seconds now + Pl031.offset_seconds_ s) 0); [lia|].
  destruct (Z.ltb_spec (2 ^ 32 - 1) (Pl031.host_seconds now + Pl031.offset_seconds_ s)); [lia|]. rewrite u32_small; lia.
Qed.

(** The real-time clock: once the guest has loaded [v] at host time [t0], a later read
    at host time [t] gives [v] advanced by the elapsed seconds, held at the ends of 32 bits
    instead of wrapping.  The match interrupt is computed only in the writes of the
    match and load registers: no time that passes raises it. *)
Theorem rtc_runs s t0 t v data :
  0 <= t0 -> 0 <= t -> 0 <= v < 2 ^ 32 -> ReadU32 data = v ->
  let s1 := Pl031.write_mmio t0 0x008 data 4 s in
  Pl031.register t 0x000 s1 = Z.max 0 (Z.min UINT32_MAX (v + (t - t0))) /\
  Pl031.register t 0x014 s1 = (if negb (Pl031.match_ s =? 0) && (Pl031.match_ s <=? v) then 1 else 0).
Proof.
  intros H0 Ht Hv Hd s1. assert (E : s1 = s <| Pl031.offset_seconds_ := v - t0 |>
    <| Pl031.ris_ := if negb (Pl031.match_ s =? 0) && (Pl031.match_ s <=? v) then 1 else 0 |>).
  { unfold s1, Pl031.write_mmio. change (bad_len 4 4) with false. cbn [Z.eqb]. rewrite Hd. unfold Pl031.host_seconds.
    by destruct (Z.ltb_spec t0 0); [lia|]. }
  rewrite E. change (Pl031.register t 0x014 _) with (Pl031.ris_ (s <| Pl031.offset_seconds_ := v - t0 |>
    <| Pl031.ris_ := if negb (Pl031.match_ s =? 0) && (Pl031.match_ s <=? v) then 1 else 0 |>)).
  split; [|done]. change (Pl031.register t 0x000 ?x) with (Pl031.current_seconds_locked t x). rewrite clamp_seconds.
  unfold Pl031.host_seconds. destruct (Z.ltb_spec t 0); [lia|]. cbn. do 2 f_equal. lia.
Qed.

(** A sequence of data reads: the bytes the guest gets. *)
Fixpoint fw_reads (lens : list Z) (s : FwCfg.FwCfgMmio) : list Z :=
  match lens with
  | [] => []
  | n :: lens => let '(data, s) := FwCfg.read_mmio 0 (repeat 0 8) n s in take (Z.to_nat n) data ++ fw_reads lens s
  end.
Definition total (lens : list Z) : nat := sum_list_with Z.to_nat lens.
(** The [n] bytes of an item from a position on; past its end they are zero. *)
Definition padded (item : list Z) (position n : Z) : list Z := map (byte_at item) (seqZ position n).

Lemma byte_past item i : Z.of_nat (length item) <= i -> byte_at item i = 0.
Proof. intros Hi. unfold byte_at. apply nth_overflow. lia. Qed.

Lemma read_item_spec item n : forall p, 0 <= p -> p + Z.of_nat n < 2 ^ 64 ->
  FwCfg.read_item n item p = (padded item p (Z.of_nat n), p + Z.of_nat n).
Proof.
  induction n as [|n IH]; intros p H0 Hp; cbn [FwCfg.read_item]; [unfold padded; cbn; f_equal; lia|].
  rewrite u64_small, IH by lia. f_equal; [|lia]. unfold padded. rewrite (seqZ_cons p) by lia. cbn [map].
  replace (Z.succ p) with (p + 1) by lia. replace (Z.pred (Z.of_nat (S n))) with (Z.of_nat n) by lia. f_equal.
  destruct (Z.ltb_spec p (Z.of_nat (length item))); [done|]. symmetry. by apply byte_past.
Qed.

Lemma length_padded item p n : length (padded item p n) = Z.to_nat n.
Proof. unfold padded. by rewrite length_map, length_seqZ. Qed.

Lemma fw_reads_spec lens : forall s, Forall (fun n => 1 <= n <= 8) lens -> 0 <= FwCfg.data_offset_ s ->
  FwCfg.data_offset_ s + Z.of_nat (total lens) < 2 ^ 64 ->
  fw_reads lens s = padded (FwCfg.item_data_locked s) (FwCfg.data_offset_ s) (Z.of_nat (total lens)).
Proof.
  induction lens as [|n lens IH]; intros s Hl H0 Ht; [done|]. apply Forall_cons_1 in Hl as [Hn Hl].
  unfold total in *. cbn [sum_list_with fw_reads] in *. unfold FwCfg.read_mmio.
  replace (bad_len n 8) with false by (unfold bad_len; lia). cbn [Z.ltb]. rewrite read_item_spec by lia. rewrite Z2Nat.id by lia.
  change (0 <? 8) with true. cbv iota. rewrite IH by (cbn; done || lia). cbn [FwCfg.data_offset_]. unfold put.
  rewrite take_app_length' by (by rewrite length_padded).
  change (FwCfg.item_data_locked (s <| FwCfg.data_offset_ := FwCfg.data_offset_ s + n |>)) with (FwCfg.item_data_locked s).
  unfold padded. rewrite <- map_app. f_equal. rewrite Nat2Z.inj_add, Z2Nat.id by lia. by rewrite <- seqZ_app by lia.
Qed.

(** What the device offers under a selector. *)
Definition item_of (cpus key : Z) : list Z := FwCfg.item_data_locked (FwCfg.mk cpus key 0).

(** C29. The firmware configuration device: after the guest selects item [key], written in
    either byte order, any sequence of data reads of one to eight bytes returns the bytes of that
    item in order and then zeros: the signature QEMU, the interface version, the number of
    processors in little-endian order, an empty file directory; nothing for any other key. *)
Theorem fw_cfg_item s key lens data :
  0 <= key < 256 -> (data = [key; 0] \/ data = [0; key]) -> Forall (fun n => 1 <= n <= 8) lens -> Z.of_nat (total lens) < 2 ^ 64 ->
  fw_reads lens (FwCfg.write_mmio 8 data 2 s) = padded (item_of (FwCfg.cpus_ s) key) 0 (Z.of_nat (total lens)).
Proof.
  intros Hk Hd Hl Ht. assert (E : FwCfg.write_mmio 8 data 2 s = s <| FwCfg.selector_ := key |> <| FwCfg.data_offset_ := 0 |>).
  { unfold FwCfg.write_mmio. change (bad_len 2 8) with false. cbn [Z.eqb Pos.eqb Z.leb]. change (2 <=? 2) with true. cbv iota.
    assert (Hsel : FwCfg.normalize_selector (ReadU16 data) = key); [|by rewrite Hsel].
    revert Hk Hd. clear. intros Hk Hd. apply (byte_cases (fun k => (FwCfg.normalize_selector (ReadU16 [k; 0]) =? k) &&
      (FwCfg.normalize_selector (ReadU16 [0; k]) =? k))) in Hk; [|vm_compute; reflexivity].
    apply andb_true_iff in Hk as [E1%Z.eqb_eq E2%Z.eqb_eq]. by destruct Hd as [-> | ->]. }
  rewrite E, fw_reads_spec; [|done|cbn; lia|cbn; lia]. done.
Qed.

(** The GPIO block: a write to the data window changes exactly the lines that the
    address selects (bits 2 to 9) and that are outputs, to the bits written; a read shows
    exactly the selected lines. *)
Theorem gpio_data_spec s offset data len i :
  0 <= offset <= 0x3FC -> 1 <= len <= 4 -> 0 <= i < 32 ->
  let selected := (i <? 8) && Z.testbit offset (i + 2) in
  Z.testbit (Pl061.data_ (Pl061.write_mmio offset data len s)) i =
    (if selected && Z.testbit (Pl061.dir_ s) i then Z.testbit (ReadU32 data) i else Z.testbit (Pl061.data_ s) i) /\
  Z.testbit (Pl061.register offset s) i = selected && Z.testbit (Pl061.data_ s) i.
Proof.
  intros Ho Hl Hi selected. assert (Hm : Z.testbit (Pl061.DataMask offset) i = selected).
  { unfold Pl061.DataMask, selected. rewrite Z.land_spec, Z.shiftr_spec by lia. rewrite andb_comm. f_equal.
    destruct (Z.ltb_spec i 8); [|apply (testbit_small _ 8); lia]. change 0xFF with (Z.ones 8). apply Z.ones_spec_low. lia. }
  assert (H8 : selected = true -> Z.testbit 0xFF i = true).
  { unfold selected. intros Hs%andb_true_iff. change 0xFF with (Z.ones 8). apply Z.ones_spec_low. lia. }
  split.
  - unfold Pl061.write_mmio. replace (bad_len len 4) with false by (unfold bad_len; lia). rewrite (proj2 (Z.leb_le _ _)) by lia. cbn.
    rewrite Z.lor_spec, !Z.land_spec, bnot_spec, Z.land_spec, Hm by lia.
    destruct selected; cbn; [rewrite H8 by done|]; destruct (Z.testbit (Pl061.dir_ s) i); cbn; by rewrite ?andb_true_r, ?andb_false_r, ?orb_false_r.
  - unfold Pl061.register. rewrite (proj2 (Z.leb_le _ _)) by lia. rewrite Z.land_spec, Hm. apply andb_comm.
Qed.

Module Demo.

(** A transport that only records the addresses written. *)
Record probe := mkProbe { slot : Z; writes : list Z }.
#[export] Instance probe_transport : VirtioTransport probe := {
  contains p ipa := within (VirtioMmioBaseForSlot (slot p)) kVirtioMmioSize ipa;
  v_poll p := p;
  v_read p ipa data len := (memset data 0 len, p);
  v_write p ipa data len := mkProbe (slot p) (ipa :: writes p) }.

Definition board : Board probe :=
  mkBoard (ArmUart.Pl011Uart_new 1000 false) Pl031.new (FwCfg.new 2) Pl061.new [mkProbe 0 []; mkProbe 1 []] (Some (mkProbe 2 [])) [].

Lemma arm_mmio_routing_witness :
  dispatch_mmio 0 0x0A000250 true (repeat 0 8) 4 board =
  Some (repeat 0 8, board <| blks := [mkProbe 0 []; mkProbe 1 [0x0A000250]] |>).
Proof.
  rewrite arm_mmio_routing; [reflexivity|]. split; [| |cbn; unfold kVirtioMmioCount; lia].
  - intros [|[|i]] v E; cbn in E; [by injection E as <-|by injection E as <-|done].
  - intros v E. cbn in E. by injection E as <-.
Defined.

Lemma tree_matches_board_witness :
  exists t d, In t device_trees /\ In (kFwCfgBase, 0x18, d) windows /\ decode 0x09020010 = Some (0x10, d).
Proof.
  set (t := nth 6 device_trees (Node [] [] [])).
  destruct (tree_matches_board t kFwCfgBase 0x18) as (d & Hd & Hw & _).
  - do 6 right. by left.
  - vm_compute. reflexivity.
  - exists t, d. split; [do 6 right; by left|]. split; [done|]. apply (Hw 0x09020010). unfold kFwCfgBase. lia.
Defined.

Lemma rtc_runs_witness :
  Pl031.register 1700000042 0 (Pl031.write_mmio 1700000000 0x008 (WriteU32 1000) 4 Pl031.new) = 1042.
Proof.
  destruct (rtc_runs Pl031.new 1700000000 1700000042 1000 (WriteU32 1000)) as [H _]; [lia|lia|lia|vm_compute; reflexivity|].
  exact H.
Defined.

Lemma fw_cfg_item_witness :
  fw_reads [1; 4; 1] (FwCfg.write_mmio 8 [0; 5] 2 (FwCfg.new 3)) = [3; 0; 0; 0; 0; 0].
Proof.
  rewrite (fw_cfg_item (FwCfg.new 3) 5 [1; 4; 1] [0; 5]); [reflexivity|lia|by right|repeat constructor; lia|cbn; lia].
Defined.

Lemma gpio_data_spec_witness :
  let s := Pl061.write_mmio 0x400 [0x0F] 1 Pl061.new in
  Z.testbit (Pl061.data_ (Pl061.write_mmio 0x18 [0xFF] 1 s)) 1 = true /\ Z.testbit (Pl061.data_ (Pl061.write_mmio 0x18 [0xFF] 1 s)) 3 = false.
Proof.
  intros s. destruct (gpio_data_spec s 0x18 [0xFF] 1 1) as [H1 _]; [lia|lia|lia|].
  destruct (gpio_data_spec s 0x18 [0xFF] 1 3) as [H3 _]; [lia|lia|lia|]. split; [exact H1|exact H3].
Defined.

End Demo.
