(* ===== verification/ArmCpu.v ===== *)
(** * native/hvf/backend.cc: the exits of an ARM processor

    The syndrome decoder, the emulation of a trapped load or store, trapped system
    registers, the PSCI calls with the power states of the processors, and the step of the
    vCPU loop on an exception exit.  The register file is the hypervisor's, reached
    through [hv_vcpu_get_reg] and [hv_vcpu_set_reg]: a class with the documented laws.

    Theorems: the emulated access is the architecture's except in two cases, which are
    theorems of their own; every PSCI call answers as its specification says. *)

From S2P Require Import Prelude Words Bytes ArmBoard ArmDevices.
#[local] Open Scope string_scope.
#[local] Open Scope list_scope.
#[local] Open Scope Z_scope.

(** ** Syndrome *)

Definition EsrEC (esr : Z) : Z := Z.land (Z.shiftr esr 26) 0x3F.
Definition EsrWnR (esr : Z) : bool := has (Z.shiftr esr 6) 1.
Definition EsrSAS (esr : Z) : Z := Z.land (Z.shiftr esr 22) 3.
Definition EsrSRT (esr : Z) : Z := Z.land (Z.shiftr esr 16) 0x1F.
Definition EsrISV (esr : Z) : bool := has (Z.shiftr esr 24) 1.
Definition EsrSSE (esr : Z) : bool := has (Z.shiftr esr 21) 1.

Definition Hex64 (value : Z) : string := "0x" ++ hex_digits 16 1 value "".
Definition UnsupportedExceptionReason (kind : string) (ec syndrome ipa pc : Z) : string :=
  "unsupported-" ++ kind ++ " ec=" ++ Hex64 ec ++ " syndrome=" ++ Hex64 syndrome ++ " ipa=" ++ Hex64 ipa ++ " pc=" ++ Hex64 pc.

(** ** The hypervisor's registers *)

Class HvRegs (R : Type) := {
  HV_REG_X0 : Z; HV_REG_X1 : Z; HV_REG_X2 : Z; HV_REG_X3 : Z; HV_REG_PC : Z; HV_REG_CPSR : Z;
  hv_vcpu_get_reg : R -> Z -> Z;
  hv_vcpu_set_reg : Z -> Z -> R -> R }.
(** The enumeration of hv_vcpu_types.h, and registers as storage. *)
Class HvRegsLaws (R : Type) `{HvRegs R} := {
  reg_x0 : HV_REG_X0 = 0; reg_x1 : HV_REG_X1 = 1; reg_x2 : HV_REG_X2 = 2; reg_x3 : HV_REG_X3 = 3;
  reg_pc : HV_REG_PC = 31;
  get_set : forall r r' v s, hv_vcpu_get_reg (hv_vcpu_set_reg r v s) r' = if r =? r' then v else hv_vcpu_get_reg s r' }.

(** ** Trapped system registers *)

Definition SysReg (op0 op1 crn crm op2 : Z) : Z :=
  Z.lor (Z.lor (Z.lor (Z.lor (Z.shiftl op0 20) (Z.shiftl op1 14)) (Z.shiftl crn 10)) (Z.shiftl crm 1)) (Z.shiftl op2 17).
Definition kSysRegMask : Z := SysReg 0x3 0x7 0xF 0xF 0x7.
Definition kSysRegOslArEl1 : Z := SysReg 2 0 1 0 4.
Definition kSysRegOslSrEl1 : Z := SysReg 2 0 1 1 4.
Definition kSysRegOsdLrEl1 : Z := SysReg 2 0 1 3 4.
Definition kSysRegLorcEl1 : Z := SysReg 3 0 10 4 3.
Definition kSysRegCntPctEl0 : Z := SysReg 3 3 14 0 1.
Definition kSysRegCntpCtlEl0 : Z := SysReg 3 3 14 2 1.

Section Cpu.
Context {R : Type} `{HvRegs R}.

(** [None]: the access is not handled.  [micros] is what [MonotonicMicros] returns. *)
Definition HandleSystemRegisterTrap (micros syndrome : Z) (r : R) : option R :=
  let is_read := has syndrome 1 in
  let rt := Z.land (Z.shiftr syndrome 5) 0x1F in
  let reg := Z.land (u32 syndrome) kSysRegMask in
  if is_read then
    let value := if (reg =? kSysRegOslSrEl1) || (reg =? kSysRegOsdLrEl1) || (reg =? kSysRegLorcEl1) then Some 0
                 else if reg =? kSysRegCntPctEl0 then Some (u64 (micros * 1000)) else None in
    match value with
    | Some value => Some (if rt <? 31 then hv_vcpu_set_reg rt value r else r)
    | None => None
    end
  else if (reg =? kSysRegOslArEl1) || (reg =? kSysRegOsdLrEl1) || (reg =? kSysRegLorcEl1) || (reg =? kSysRegCntpCtlEl0) then Some r
  else None.

(** ** A trapped load or store *)

(** [for (i = 0; i < len && i < 8; i++) data[i] = uint8_t(reg_val >> (8*i))] into eight zero bytes. *)
Definition store_buffer (reg_val len : Z) : list Z :=
  put (repeat 0 8) (map (fun i => u8 (Z.shiftr reg_val (8 * i))) (seqZ 0 (Z.min len 8))).
(** [reg_val |= uint64_t(data[i]) << (8*i)] over the same range. *)
Definition load_value (data : list Z) (len : Z) : Z :=
  fold_left (fun v i => Z.lor v (Z.shiftl (byte_at data i) (8 * i))) (seqZ 0 (Z.min len 8)) 0.
Definition sign_extend (reg_val len : Z) : Z :=
  let sign_bit := Z.shiftl 1 (8 * len - 1) in
  if has reg_val sign_bit then Z.lor reg_val (bnot 64 (u64 (u64 (Z.shiftl sign_bit 1) - 1))) else reg_val.

(** What the loop does after an exit: run the guest again, or leave the loop; in both cases
    [request_stop] may have been called with a reason and a code. *)
Inductive verdict := Continue (stop : option (string * Z)) | Break (stop : option (string * Z)).
Definition Stop (reason : string) (code : Z) : verdict := Break (Some (reason, code)).

Definition emulate_mmio {V} `{VirtioTransport V} (now syndrome ipa : Z) (r : R) (b : Board V) : verdict * R * Board V :=
  let ec := EsrEC syndrome in
  let pc := hv_vcpu_get_reg r HV_REG_PC in
  if (ec =? 0x24) && EsrISV syndrome then
    let is_write := EsrWnR syndrome in
    let len := Z.shiftl 1 (EsrSAS syndrome) in
    let srt := EsrSRT syndrome in
    let data := if is_write then store_buffer (hv_vcpu_get_reg r srt) len else repeat 0 8 in
    match dispatch_mmio now ipa is_write data len b with
    | None => (Stop (UnsupportedExceptionReason "unhandled-mmio" ec syndrome ipa pc) 1, r, b)
    | Some (data, b) =>
        let r := if is_write then r
                 else let reg_val := load_value data len in
                      let reg_val := if EsrSSE syndrome then sign_extend reg_val len else reg_val in
                      hv_vcpu_set_reg srt reg_val r in
        (Continue None, hv_vcpu_set_reg HV_REG_PC (u64 (pc + 4)) r, b)
    end
  else (Stop (UnsupportedExceptionReason "unsupported-mmio-trap" ec syndrome ipa pc) 1, r, b).

End Cpu.

(** ** The architecture's view of an access *)

(** Register 31 of a load or store is the zero register. *)
Definition X {R} `{HvRegs R} (r : R) (n : Z) : Z := if n =? 31 then 0 else hv_vcpu_get_reg r n.
(** The bytes a store of [len] bytes puts on the bus. *)
Definition arch_store (value len : Z) : list Z := le_bytes (Z.to_nat len) value.
(** What a load leaves in the register: extended to the 64 or 32 bits of the register. *)
Definition arch_load (bytes : list Z) (sign sf : bool) : Z :=
  let v := le_num bytes in
  let bits := 8 * Z.of_nat (length bytes) in
  let v := if sign && (2 ^ (bits - 1) <=? v) then v - 2 ^ bits else v in
  v mod 2 ^ (if sf then 64 else 32).
Definition EsrSF (esr : Z) : bool := Z.testbit esr 15.

Lemma access_len sas : 0 <= sas < 4 -> let len := Z.shiftl 1 sas in len = 1 \/ len = 2 \/ len = 4 \/ len = 8.
Proof. intros Hs. assert (sas = 0 \/ sas = 1 \/ sas = 2 \/ sas = 3) as Hc by lia. by decompose [or] Hc; subst; cbn; auto. Qed.
Lemma sas_range esr : 0 <= EsrSAS esr < 4.
Proof. unfold EsrSAS. change 4 with (2 ^ 2). apply (land_range _ 3 2); lia. Qed.

Lemma shiftr_byte v i : 0 <= i -> u8 (Z.shiftr v i) = v / 2 ^ i mod 256.
Proof. intros Hi. unfold u8. by rewrite Z.shiftr_div_pow2 by lia. Qed.

Lemma store_buffer_arch v len : len = 1 \/ len = 2 \/ len = 4 \/ len = 8 ->
  store_buffer v len = arch_store v len ++ repeat 0 (8 - Z.to_nat len).
Proof.
  intros Hl. unfold store_buffer, put, arch_store. rewrite length_map, length_seqZ.
  assert (E : map (fun i => u8 (Z.shiftr v (8 * i))) (seqZ 0 (Z.min len 8)) = le_bytes (Z.to_nat len) v).
  { rewrite (map_ext_in _ (fun i => v / 2 ^ (8 * i) mod 256)).
    2: { intros i Hi. apply list_elem_of_In, elem_of_seqZ in Hi. apply shiftr_byte. lia. }
    decompose [or] Hl; subst len; [change (seqZ 0 _) with [0]|change (seqZ 0 _) with [0; 1]|change (seqZ 0 _) with [0; 1; 2; 3]|
      change (seqZ 0 _) with [0; 1; 2; 3; 4; 5; 6; 7]]; cbn [map]; change (8 * 0) with 0; rewrite Z.pow_0_r, Z.div_1_r;
      [change (Z.to_nat 1) with 1%nat|change (Z.to_nat 2) with 2%nat|change (Z.to_nat 4) with 4%nat|change (Z.to_nat 8) with 8%nat];
      cbn [le_bytes]; rewrite ?Z.div_div by lia; reflexivity. }
  rewrite E. f_equal. by decompose [or] Hl; subst len.
Qed.

Lemma load_value_arch data len : buffer_ok data -> len = 1 \/ len = 2 \/ len = 4 \/ len = 8 ->
  load_value data len = le_num (take (Z.to_nat len) data).
Proof.
  intros [Hb Hl] Hc. unfold load_value. rewrite <- (read_loop_le data) by (rewrite ?Hl; done || lia).
  unfold read_loop. rewrite Z.min_l, Z2Nat.id by lia. done.
Qed.

Lemma sign_extend_spec v len : len = 1 \/ len = 2 \/ len = 4 \/ len = 8 -> 0 <= v < 2 ^ (8 * len) ->
  sign_extend v len = (if 2 ^ (8 * len - 1) <=? v then v - 2 ^ (8 * len) else v) mod 2 ^ 64.
Proof.
  intros Hl Hv. unfold sign_extend. rewrite Z.shiftl_1_l, has_pow2 by lia.
  assert (Ht : Z.testbit v (8 * len - 1) = (2 ^ (8 * len - 1) <=? v)).
  { assert (Hp : 2 ^ (8 * len) = 2 ^ (8 * len - 1) * 2 ^ 1) by (rewrite <- Z.pow_add_r by lia; f_equal; lia). change (2 ^ 1) with 2 in Hp.
    rewrite Z.testbit_eqb by lia. destruct (Z.leb_spec (2 ^ (8 * len - 1)) v) as [Hle|Hlt].
    - replace (v / 2 ^ (8 * len - 1)) with 1; [done|]. apply (Z.div_unique_pos v _ 1 (v - 2 ^ (8 * len - 1))); lia.
    - by rewrite Z.div_small by lia. }
  rewrite Ht. destruct (Z.leb_spec (2 ^ (8 * len - 1)) v) as [Hle|Hlt].
  - assert (Hmask : exists hi, bnot 64 (u64 (u64 (Z.shiftl (2 ^ (8 * len - 1)) 1) - 1)) = Z.shiftl hi (8 * len) /\
      hi * 2 ^ (8 * len) = 2 ^ 64 - 2 ^ (8 * len)).
    { exists (2 ^ (64 - 8 * len) - 1). decompose [or] Hl; subst len; split; reflexivity. }
    destruct Hmask as (hi & -> & Hhi). rewrite lor_shiftl_add by lia. apply Z.mod_unique_pos with (-1); [|lia].
    assert (2 ^ (8 * len) <= 2 ^ 64) by (apply Z.pow_le_mono_r; lia). lia.
  - symmetry. apply Z.mod_small. assert (2 ^ (8 * len) <= 2 ^ 64) by (apply Z.pow_le_mono_r; lia). lia.
Qed.

Lemma zeros_ok n : bytes_ok (repeat 0 n).
Proof. apply List.Forall_forall. by intros x ->%repeat_spec. Qed.

Section Emulation.
Context {R : Type} `{HvRegsLaws R} {V : Type} `{TransportLaws V}.

Definition access_bytes (syndrome : Z) : Z := Z.shiftl 1 (EsrSAS syndrome).

(** C22. A trapped load or store is performed as the architecture defines it: a store
    hands the device the low bytes of the source register, a load leaves the device's bytes in the
    target register, zero- or sign-extended, no other register changes, and the program
    counter moves to the next instruction - except that a store of the zero register
    and a sign-extending load into a 32-bit register of a negative value are excluded (see
    emulation_divergences). *)
Theorem emulate_mmio_as_architecture now syndrome ipa (r : R) (b b' : Board V) data' :
  let w := EsrWnR syndrome in
  let rt := EsrSRT syndrome in
  let len := access_bytes syndrome in
  let bytes := take (Z.to_nat len) data' in
  EsrEC syndrome = 0x24 -> EsrISV syndrome = true ->
  dispatch_mmio now ipa w ((if w then arch_store (X r rt) len else []) ++ repeat 0 (8 - (if w then Z.to_nat len else 0))) len b =
    Some (data', b') ->
  (len = 8 -> EsrSF syndrome = true) -> (w = true -> rt <> 31) ->
  (w = false -> EsrSSE syndrome = true -> EsrSF syndrome = false -> le_num bytes < 2 ^ (8 * len - 1)) ->
  exists r', emulate_mmio now syndrome ipa r b = (Continue None, r', b') /\
    forall n, hv_vcpu_get_reg r' n =
      if n =? 31 then u64 (hv_vcpu_get_reg r 31 + 4)
      else if negb w && (n =? rt) then arch_load bytes (EsrSSE syndrome) (EsrSF syndrome)
      else hv_vcpu_get_reg r n.
Proof.
  intros w rt len bytes Hec Hisv Hd H8 Hw Hs. unfold emulate_mmio. rewrite Hec, Hisv. cbn [Z.eqb Pos.eqb andb]. fold w rt.
  fold (access_bytes syndrome). fold len. pose proof (access_len _ (sas_range syndrome)) as Hlen. cbv zeta in Hlen.
  fold (access_bytes syndrome) in Hlen. fold len in Hlen. rewrite reg_pc.
  assert (Hdata : (if w then store_buffer (hv_vcpu_get_reg r rt) len else repeat 0 8) =
    (if w then arch_store (X r rt) len else []) ++ repeat 0 (8 - (if w then Z.to_nat len else 0))).
  { destruct w; [|done]. rewrite store_buffer_arch by done. unfold X. by rewrite (proj2 (Z.eqb_neq rt 31)) by auto. }
  assert (Hbuf : buffer_ok data').
  { apply (dispatch_buffer_ok _ _ _ _ _ _ _ _) in Hd; [done| |lia]. rewrite <- Hdata. destruct w.
    - rewrite store_buffer_arch by done. split; [apply Forall_app; split; [apply le_bytes_ok|apply zeros_ok]|].
      unfold arch_store. rewrite length_app, length_le_bytes, repeat_length. lia.
    - split; [by apply bytes_okb_ok|done]. }
  rewrite Hdata, Hd. eexists. split; [reflexivity|]. intros n. destruct Hbuf as [Hb Hl].
  destruct w; cbn [negb andb].
  - rewrite get_set, (Z.eqb_sym 31 n). by destruct (n =? 31).
  - rewrite get_set, (Z.eqb_sym 31 n). destruct (Z.eqb_spec n 31); [done|]. rewrite get_set, (Z.eqb_sym rt n).
    destruct (n =? rt); [|done]. rewrite load_value_arch by done. fold bytes. unfold arch_load.
    assert (Elen : length bytes = Z.to_nat len) by (unfold bytes; rewrite length_take; lia).
    pose proof (le_num_range bytes (Forall_take _ _ _ Hb)) as Hv. rewrite Elen in Hv |- *. rewrite Z2Nat.id in Hv |- * by lia.
    assert (Hp : 2 ^ (8 * len) <= 2 ^ 64) by (apply Z.pow_le_mono_r; lia).
    assert (H32 : EsrSF syndrome = false -> 2 ^ (8 * len) <= 2 ^ 32).
    { intros Hf. apply Z.pow_le_mono_r; [lia|]. decompose [or] Hlen; subst; try lia. exfalso. rewrite H8 in Hf by lia. done. }
    destruct (EsrSSE syndrome) eqn:Es; cbn [andb].
    + rewrite sign_extend_spec by done. destruct (EsrSF syndrome) eqn:Ef; [done|]. specialize (Hs eq_refl eq_refl eq_refl).
      rewrite (proj2 (Z.leb_gt _ _)) by done. specialize (H32 eq_refl). by rewrite !Z.mod_small by lia.
    + symmetry. apply Z.mod_small. destruct (EsrSF syndrome); [lia|]. specialize (H32 eq_refl). lia.
Qed.

(** C27. The two divergences: a store of the zero register hands the device the low bytes of the
    program counter, because register number 31 of the hypervisor is the PC; and a
    sign-extending load of a negative value into a 32-bit register also sets its upper half,
    which the architecture clears. *)
Theorem emulation_divergences now syndrome ipa (r : R) (b b' : Board V) data' :
  let w := EsrWnR syndrome in
  let rt := EsrSRT syndrome in
  let len := access_bytes syndrome in
  let bytes := take (Z.to_nat len) data' in
  EsrEC syndrome = 0x24 -> EsrISV syndrome = true ->
  (w = true -> rt = 31 ->
     dispatch_mmio now ipa true (arch_store (hv_vcpu_get_reg r 31) len ++ repeat 0 (8 - Z.to_nat len)) len b = Some (data', b') ->
     exists r', emulate_mmio now syndrome ipa r b = (Continue None, r', b')) /\
  (w = false -> rt <> 31 -> EsrSSE syndrome = true -> EsrSF syndrome = false -> len <= 4 -> 2 ^ (8 * len - 1) <= le_num bytes ->
     dispatch_mmio now ipa false (repeat 0 8) len b = Some (data', b') ->
     exists r', emulate_mmio now syndrome ipa r b = (Continue None, r', b') /\
       hv_vcpu_get_reg r' rt = arch_load bytes true true /\ arch_load bytes true false = arch_load bytes true true - (2 ^ 64 - 2 ^ 32)).
Proof.
  intros w rt len bytes Hec Hisv. pose proof (access_len _ (sas_range syndrome)) as Hlen. cbv zeta in Hlen.
  fold (access_bytes syndrome) in Hlen. fold len in Hlen. unfold emulate_mmio. rewrite Hec, Hisv. cbn [Z.eqb Pos.eqb andb]. fold w rt.
  fold (access_bytes syndrome). fold len. rewrite reg_pc. split.
  - intros -> -> Hd. rewrite store_buffer_arch, Hd by done. by eexists.
  - intros -> Hrt Hs Hf Hl4 Hneg Hd. rewrite Hd. eexists. split; [reflexivity|].
    assert (Hbuf : buffer_ok data') by (apply (dispatch_buffer_ok _ _ _ _ _ _ _ _) in Hd; [done|split; [apply zeros_ok|done]|lia]).
    destruct Hbuf as [Hb Hl]. rewrite get_set, (proj2 (Z.eqb_neq 31 rt)), get_set, Z.eqb_refl, Hs by auto.
    rewrite load_value_arch by done. fold bytes. unfold arch_load.
    assert (Elen : length bytes = Z.to_nat len) by (unfold bytes; rewrite length_take; lia).
    pose proof (le_num_range bytes (Forall_take _ _ _ Hb)) as Hv. rewrite Elen in Hv |- *. rewrite Z2Nat.id in Hv |- * by lia.
    rewrite sign_extend_spec by done. rewrite (proj2 (Z.leb_le _ _) Hneg). cbn [andb]. split; [done|].
    assert (Hp : 2 ^ (8 * len) <= 2 ^ 32) by (apply Z.pow_le_mono_r; lia).
    rewrite <- (Z.mod_unique_pos (le_num bytes - 2 ^ (8 * len)) (2 ^ 32) (-1) (le_num bytes - 2 ^ (8 * len) + 2 ^ 32)) by lia.
    rewrite <- (Z.mod_unique_pos (le_num bytes - 2 ^ (8 * len)) (2 ^ 64) (-1) (le_num bytes - 2 ^ (8 * len) + 2 ^ 64)) by lia. lia.
Qed.

End Emulation.

(** ** PSCI *)

Definition kPsciVersion : Z := 0x84000000.
Definition kPsciCpuSuspend32 : Z := 0x84000001.
Definition kPsciCpuOff : Z := 0x84000002.
Definition kPsciCpuOn32 : Z := 0x84000003.
Definition kPsciAffinityInfo32 : Z := 0x84000004.
Definition kPsciMigrateInfoType : Z := 0x84000006.
Definition kPsciSystemOff : Z := 0x84000008.
Definition kPsciSystemReset : Z := 0x84000009.
Definition kPsciFeatures : Z := 0x8400000A.
Definition kPsciCpuSuspend64 : Z := 0xC4000001.
Definition kPsciCpuOn64 : Z := 0xC4000003.
Definition kPsciAffinityInfo64 : Z := 0xC4000004.

Definition kPsciSuccess : Z := 0.
Definition kPsciNotSupported : Z := -1.
Definition kPsciInvalidParams : Z := -2.
Definition kPsciDenied : Z := -3.
Definition kPsciAlreadyOn : Z := -4.

Definition PsciFeatureSupported (function_id : Z) : bool :=
  existsb (Z.eqb function_id)
    [kPsciVersion; kPsciCpuOff; kPsciCpuOn32; kPsciCpuOn64; kPsciAffinityInfo32; kPsciAffinityInfo64; kPsciMigrateInfoType;
     kPsciSystemOff; kPsciSystemReset; kPsciFeatures].

Inductive PsciCpuState := Off | OnPending | On.
#[export] Instance psci_state_eq_dec : EqDecision PsciCpuState.
Proof. solve_decision. Defined.

(** [vcpu] and [exit_info], handles of the hypervisor, are left out; they are set while [live]. *)
Record HvfCpuSlot := mkSlot {
  created : bool; live : bool; powered : bool; start_requested : bool; paused : bool;
  state : PsciCpuState; entry : Z; context : Z }.
#[export] Instance eta_HvfCpuSlot : Eta HvfCpuSlot := fun s =>
  mkSlot (created s) (live s) (powered s) (start_requested s) (paused s) (state s) (entry s) (context s).
Definition new_slot : HvfCpuSlot := mkSlot false false false false false Off 0 0.

Definition CpuIndexFromMpidr (mpidr cpus : Z) : option Z :=
  if negb (Z.land mpidr (bnot 64 0xFF) =? 0) then None
  else let index := u32 (Z.land mpidr 0xFF) in if cpus <=? index then None else Some index.

Definition slot_at (slots : list HvfCpuSlot) (i : Z) : HvfCpuSlot := nth (Z.to_nat i) slots new_slot.
Definition update_slot (i : Z) (f : HvfCpuSlot -> HvfCpuSlot) (slots : list HvfCpuSlot) : list HvfCpuSlot :=
  alter f (Z.to_nat i) slots.

Definition PoweredCpuCountLocked (slots : list HvfCpuSlot) : Z :=
  Z.max 1 (u32 (Z.of_nat (length (filter (fun s => state s <> Off) slots)))).

(** The scan over all slots returns at the first one that is on. *)
Definition PsciAffinityInfoState (slots : list HvfCpuSlot) (mpidr level : Z) : Z :=
  if level =? 0 then
    match CpuIndexFromMpidr mpidr (u32 (Z.of_nat (length slots))) with
    | None => kPsciInvalidParams
    | Some target => match state (slot_at slots target) with On => 0 | Off => 1 | OnPending => 2 end
    end
  else if (level <=? 3) && (mpidr =? 0) then
    if existsb (fun s => bool_decide (state s = On)) slots then 0
    else if existsb (fun s => bool_decide (state s = OnPending)) slots then 2 else 1
  else kPsciInvalidParams.

(** What a call does: the new X0 (none when it is left alone), the slots, a stop, and whether
    the calling processor powers off. *)
Record psci_result := mkPsci {
  p_x0 : option Z; p_slots : list HvfCpuSlot; p_stop : option (string * Z); p_off : bool }.

Definition CpuOn (cpus x1 x2 x3 : Z) (slots : list HvfCpuSlot) : psci_result :=
  match CpuIndexFromMpidr x1 cpus with
  | Some target =>
      if x2 =? 0 then mkPsci (Some (u64 kPsciInvalidParams)) slots None false
      else
        let s := slot_at slots target in
        if (target =? 0) || negb (bool_decide (state s = Off)) || start_requested s then
          mkPsci (Some (u64 kPsciAlreadyOn)) slots None false
        else
          mkPsci (Some (u64 kPsciSuccess))
            (update_slot target (fun s => s <| entry := x2 |> <| context := x3 |> <| start_requested := true |> <| state := OnPending |>) slots)
            None false
  | None => mkPsci (Some (u64 kPsciInvalidParams)) slots None false
  end.

Definition psci_call (cpus cpu_index x0 x1 x2 x3 : Z) (slots : list HvfCpuSlot) : psci_result :=
  let ret v := mkPsci (Some v) slots None false in
  if x0 =? kPsciVersion then ret 0x00010000
  else if x0 =? kPsciFeatures then ret (if PsciFeatureSupported x1 then u64 kPsciSuccess else u64 kPsciNotSupported)
  else if x0 =? kPsciMigrateInfoType then ret 2
  else if (x0 =? kPsciAffinityInfo32) || (x0 =? kPsciAffinityInfo64) then ret (u64 (PsciAffinityInfoState slots x1 x2))
  else if (x0 =? kPsciCpuSuspend32) || (x0 =? kPsciCpuSuspend64) then ret (u64 kPsciDenied)
  else if (x0 =? kPsciCpuOn32) || (x0 =? kPsciCpuOn64) then CpuOn cpus x1 x2 x3 slots
  else if x0 =? kPsciCpuOff then
    if cpu_index =? 0 then mkPsci None slots (Some ("hlt", 0)) false
    else mkPsci None (update_slot cpu_index (fun s => s <| powered := false |> <| state := Off |> <| paused := false |>) slots) None true
  else if x0 =? kPsciSystemOff then mkPsci None slots (Some ("shutdown", 0)) false
  else if x0 =? kPsciSystemReset then mkPsci None slots (Some ("reset", 0)) false
  else ret (u64 kPsciNotSupported).

(** ** One exit of the loop of [vcpu_main] *)

Section Exit.
Context {R : Type} `{HvRegs R} {V : Type} `{VirtioTransport V}.

(** The registers of a processor that starts at [pc] with [x0]; CPSR is EL1h with the
    interrupts masked. *)
Definition InitVcpuRegisters (pc x0 : Z) (r : R) : R :=
  fold_left (fun r '(reg, v) => hv_vcpu_set_reg reg v r)
    [(HV_REG_PC, pc); (HV_REG_X0, x0); (HV_REG_X1, 0); (HV_REG_X2, 0); (HV_REG_X3, 0); (HV_REG_CPSR, 0x3C5)] r.

(** What one exit sees and changes: the registers of the processor, the devices, the slots. *)
Record world := mkWorld { regs : R; board : Board V; slots : list HvfCpuSlot }.

Definition next_pc (r : R) : R := hv_vcpu_set_reg HV_REG_PC (u64 (hv_vcpu_get_reg r HV_REG_PC + 4)) r.
Definition poll_net (b : Board V) : Board V :=
  match net_dev b with Some v => b <| net_dev := Some (v_poll v) |> | None => b end.

(** HV_EXIT_REASON_EXCEPTION; [now] and [micros] are the host's clocks. *)
Definition on_exception (cpus cpu_index now micros syndrome ipa : Z) (w : world) : verdict * world :=
  let ec := EsrEC syndrome in
  let r := regs w in
  let pc := hv_vcpu_get_reg r HV_REG_PC in
  if ec =? 0x17 then
    (Continue None, mkWorld (next_pc (hv_vcpu_set_reg HV_REG_X0 (u64 kPsciNotSupported) r)) (board w) (slots w))
  else if ec =? 0x16 then
    let p := psci_call cpus cpu_index (hv_vcpu_get_reg r HV_REG_X0) (hv_vcpu_get_reg r HV_REG_X1)
               (hv_vcpu_get_reg r HV_REG_X2) (hv_vcpu_get_reg r HV_REG_X3) (slots w) in
    let r := match p_x0 p with Some v => hv_vcpu_set_reg HV_REG_X0 v r | None => r end in
    (if p_off p then Break (p_stop p) else Continue (p_stop p), mkWorld r (board w) (p_slots p))
  else if ec =? 0x01 then (Continue None, mkWorld (next_pc r) (poll_net (board w)) (slots w))
  else if ec =? 0x18 then
    match HandleSystemRegisterTrap micros syndrome r with
    | Some r => (Continue None, mkWorld (hv_vcpu_set_reg HV_REG_PC (u64 (pc + 4)) r) (board w) (slots w))
    | None => (Stop (UnsupportedExceptionReason "unhandled-sysreg" ec syndrome ipa pc) 1, w)
    end
  else if (ec =? 0x24) || (ec =? 0x20) then
    let '(v, r, b) := emulate_mmio now syndrome ipa r (board w) in (v, mkWorld r b (slots w))
  else (Stop (UnsupportedExceptionReason "unhandled-trap" ec syndrome ipa pc) 1, w).

End Exit.
Arguments world R V : clear implicits.

(** ** What the PSCI calls promise *)

(** C28. PSCI_FEATURES tells the truth: a function it reports as supported is one the
    handler implements (it does not answer NOT_SUPPORTED), and any other function leaves
    everything as it was and answers NOT_SUPPORTED - or DENIED for CPU_SUSPEND. *)
Theorem psci_features_agree cpus i f x1 x2 x3 slots :
  p_x0 (psci_call cpus i kPsciFeatures f x2 x3 slots) = Some (if PsciFeatureSupported f then 0 else u64 (-1)) /\
  (PsciFeatureSupported f = true -> f <> kPsciFeatures -> p_x0 (psci_call cpus i f x1 x2 x3 slots) <> Some (u64 (-1))) /\
  (PsciFeatureSupported f = false ->
     psci_call cpus i f x1 x2 x3 slots =
     mkPsci (Some (u64 (if (f =? kPsciCpuSuspend32) || (f =? kPsciCpuSuspend64) then -3 else -1))) slots None false).
Proof.
  assert (Ha : u64 (PsciAffinityInfoState slots x1 x2) <> u64 (-1)) by (unfold PsciAffinityInfoState; repeat case_match; done).
  split; [unfold psci_call; by destruct (PsciFeatureSupported f)|].
  destruct (PsciFeatureSupported f) eqn:Ef; split; try done; intros _; unfold PsciFeatureSupported in Ef.
  - apply existsb_exists in Ef as (g & Hg & ->%Z.eqb_eq). cbn [In] in Hg.
    decompose [or] Hg; try done; subst g; try done; cbn; unfold CpuOn; repeat case_match; cbn; try done; congruence.
  - cbn [existsb] in Ef. rewrite !orb_false_iff in Ef. unfold psci_call.
    destruct Ef as (-> & -> & -> & -> & -> & -> & -> & -> & -> & -> & _). cbn [orb]. by destruct (_ || _).
Qed.

Lemma update_slot_at slots i j f : 0 <= i < Z.of_nat (length slots) -> 0 <= j ->
  slot_at (update_slot i f slots) j = if j =? i then f (slot_at slots i) else slot_at slots j.
Proof.
  intros Hi Hj. unfold slot_at, update_slot. rewrite !nth_lookup. destruct (Z.eqb_spec j i) as [->|Hn].
  - rewrite list_lookup_alter_eq. destruct (lookup_lt_is_Some_2 slots (Z.to_nat i)) as [s ->]; [lia|]. done.
  - by rewrite list_lookup_alter_ne by lia.
Qed.

Lemma CpuIndexFromMpidr_spec mpidr cpus : 0 <= mpidr < 2 ^ 64 -> 0 <= cpus <= 64 ->
  CpuIndexFromMpidr mpidr cpus = if mpidr <? cpus then Some mpidr else None.
Proof.
  intros Hm Hc. unfold CpuIndexFromMpidr. change 0xFF with (Z.ones 8). rewrite !Z.land_ones by lia. change (2 ^ 8) with 256.
  assert (Hhigh : Z.land mpidr (bnot 64 (Z.ones 8)) = mpidr - mpidr mod 256).
  { transitivity (Z.ldiff mpidr (Z.ones 8)).
    - apply Z.bits_inj'. intros i Hi. rewrite Z.land_spec, Z.ldiff_spec. destruct (Z.ltb_spec i 64); [by rewrite bnot_spec by lia|].
      by rewrite (testbit_small mpidr 64) by lia.
    - rewrite Z.ldiff_ones_r, Z.shiftr_div_pow2, Z.shiftl_mul_pow2 by lia. change (2 ^ 8) with 256. pose proof (Z.div_mod mpidr 256). lia. }
  rewrite Hhigh. pose proof (Z.mod_pos_bound mpidr 256). rewrite u32_small by lia.
  destruct (Z.eqb_spec (mpidr - mpidr mod 256) 0) as [E|E]; cbn [negb].
  - replace (mpidr mod 256) with mpidr by lia. destruct (Z.leb_spec cpus mpidr), (Z.ltb_spec mpidr cpus); (done || lia).
  - destruct (Z.ltb_spec mpidr cpus); [|done]. exfalso. rewrite Z.mod_small in E; lia.
Qed.

(** C24. CPU_ON: a call succeeds exactly when it names an existing processor other than
    the first that is off and not already asked to start, with an entry point that is
    not zero; it then records entry and context for that processor alone and AFFINITY_INFO reports
    it as pending.  In every other case nothing changes, and the answer says which it was. *)
Theorem psci_cpu_on_spec i f x1 entry_point ctx slots :
  (f = kPsciCpuOn32 \/ f = kPsciCpuOn64) -> 0 <= x1 < 2 ^ 64 -> 0 < Z.of_nat (length slots) <= 64 ->
  let cpus := Z.of_nat (length slots) in
  let p := psci_call cpus i f x1 entry_point ctx slots in
  let s := slot_at slots x1 in
  p_stop p = None /\ p_off p = false /\
  if (x1 <? cpus) && negb (entry_point =? 0) then
    if negb (x1 =? 0) && bool_decide (state s = Off) && negb (start_requested s) then
      p_x0 p = Some 0 /\
      slot_at (p_slots p) x1 = s <| entry := entry_point |> <| context := ctx |> <| start_requested := true |> <| state := OnPending |> /\
      (forall j, 0 <= j -> j <> x1 -> slot_at (p_slots p) j = slot_at slots j) /\
      PsciAffinityInfoState (p_slots p) x1 0 = 2
    else p_x0 p = Some (u64 (-4)) /\ p_slots p = slots
  else p_x0 p = Some (u64 (-2)) /\ p_slots p = slots.
Proof.
  intros Hf Hx Hl cpus p s. assert (Ep : p = CpuOn cpus x1 entry_point ctx slots) by (unfold p; by destruct Hf as [-> | ->]).
  rewrite Ep. unfold CpuOn. rewrite CpuIndexFromMpidr_spec by (unfold cpus; lia). fold s.
  destruct (Z.ltb_spec x1 cpus) as [Hlt|Hge]; [|by repeat split]. destruct (entry_point =? 0); [by repeat split|].
  cbn [andb negb]. cbv zeta. fold s. destruct (x1 =? 0); [by repeat split|]. destruct (bool_decide (state s = Off)); [|by repeat split].
  destruct (start_requested s); [by repeat split|]. cbn [orb negb andb p_stop p_off p_x0 p_slots].
  unfold cpus in Hlt. split; [done|]. split; [done|]. split; [done|]. rewrite update_slot_at, Z.eqb_refl by lia.
  split; [done|]. split.
  - intros j Hj Hn. rewrite update_slot_at by lia. by rewrite (proj2 (Z.eqb_neq j x1)).
  - unfold PsciAffinityInfoState. cbn [Z.eqb]. unfold update_slot at 1. rewrite length_alter, u32_small by lia.
    rewrite CpuIndexFromMpidr_spec by lia. rewrite (proj2 (Z.ltb_lt _ _)) by done. by rewrite update_slot_at, Z.eqb_refl by lia.
Qed.

Module Demo.

#[local] Existing Instance ArmDevices.Demo.probe_transport.

(** Registers as a function of their number. *)
Definition file : Type := Z -> Z.
#[export] Instance file_regs : HvRegs file := {
  HV_REG_X0 := 0; HV_REG_X1 := 1; HV_REG_X2 := 2; HV_REG_X3 := 3; HV_REG_PC := 31; HV_REG_CPSR := 34;
  hv_vcpu_get_reg r n := r n;
  hv_vcpu_set_reg n v r := fun n' => if n =? n' then v else r n' }.
#[export] Instance file_laws : HvRegsLaws file.
Proof. split; reflexivity. Qed.
#[export] Instance probe_laws : TransportLaws ArmDevices.Demo.probe.
Proof. intros v ipa data len Hd Hl. by apply memset_buffer_ok. Qed.

Definition start : file := fun n => if n =? 31 then 0x40400041 else if n =? 1 then 0x1234 else 0.
Definition board0 : Board ArmDevices.Demo.probe := ArmDevices.Demo.board.

(** ldr w1, [flag register of the serial port] *)
Definition ldr_w1 : Z := 0x91810000.
(** str wzr, [data register of the serial port] *)
Definition str_wzr : Z := 0x919F0040.

Lemma emulate_mmio_as_architecture_witness :
  exists r', (emulate_mmio 0 ldr_w1 0x09000018 start board0).1 = (Continue None, r') /\ r' 1 = 0x90 /\ r' 31 = 0x40400045 /\ r' 2 = 0.
Proof.
  destruct (emulate_mmio_as_architecture 0 ldr_w1 0x09000018 start board0 board0 [0x90; 0; 0; 0; 0; 0; 0; 0]) as (r' & E & Hr').
  - reflexivity.
  - reflexivity.
  - vm_compute. reflexivity.
  - intros H. vm_compute in H. discriminate H.
  - intros H. vm_compute in H. discriminate H.
  - intros _ H. vm_compute in H. discriminate H.
  - exists r'. split; [by rewrite E|].
    pose proof (Hr' 1) as H1. pose proof (Hr' 31) as H31. pose proof (Hr' 2) as H2. cbn [hv_vcpu_get_reg file_regs] in H1, H31, H2.
    rewrite H1, H31, H2. by repeat split.
Defined.

(** The serial port transmits 'A', the low byte of the program counter, instead of NUL. *)
Lemma emulation_divergences_witness :
  let sent := (ArmUart.write_mmio 0 [0x41; 0; 0x40; 0x40; 0; 0; 0; 0] 4 (uart board0)) in
  ArmUart.console_ sent = [0x41] /\
  exists r', emulate_mmio 0 str_wzr 0x09000000 start board0 = (Continue None, r', board0 <| uart := sent |>).
Proof.
  intros sent. split; [vm_compute; reflexivity|].
  destruct (emulation_divergences 0 str_wzr 0x09000000 start board0 (board0 <| uart := sent |>) [0x41; 0; 0x40; 0x40; 0; 0; 0; 0])
    as [H _]; [reflexivity|reflexivity|]. destruct H as (r' & E); [reflexivity|reflexivity|vm_compute; reflexivity|]. by exists r'.
Defined.

Definition cpu_slots : list HvfCpuSlot := [new_slot <| state := On |>; new_slot].
Lemma psci_cpu_on_spec_witness :
  p_x0 (psci_call 2 0 kPsciCpuOn64 1 0x40400000 7 cpu_slots) = Some 0 /\
  PsciAffinityInfoState (p_slots (psci_call 2 0 kPsciCpuOn64 1 0x40400000 7 cpu_slots)) 1 0 = 2.
Proof.
  destruct (psci_cpu_on_spec 0 kPsciCpuOn64 1 0x40400000 7 cpu_slots) as (_ & _ & H); [by right|lia|cbn; lia|].
  vm_compute in H. destruct H as (E & _ & _ & Ha). split; [vm_compute; exact E|vm_compute; exact Ha].
Defined.
Lemma psci_features_agree_witness :
  p_x0 (psci_call 2 0 kPsciFeatures kPsciCpuOff 0 0 cpu_slots) = Some 0 /\
  p_x0 (psci_call 2 0 kPsciCpuSuspend64 0 0 0 cpu_slots) = Some (u64 (-3)).
Proof.
  destruct (psci_features_agree 2 0 kPsciCpuOff 0 0 0 cpu_slots) as [H1 _].
  destruct (psci_features_agree 2 0 kPsciCpuSuspend64 0 0 0 cpu_slots) as (_ & _ & H2).
  split; [exact H1|]. rewrite H2 by reflexivity. reflexivity.
Defined.

End Demo.
