(* ===== verification/Posix.v ===== *)
(** * The file calls of native/kvm/backend.cc

    The system calls are not code of the repository: they are the class [Posix] of
    operations on a file-system state, with their documented behaviour in
    [PosixLaws].  [ReadAll], [WriteAll], [PreadAll] and [PwriteAll] are the
    repository's loops over partial transfers, which retry a call interrupted by a
    signal; their fuel is the number of bytes left and of signals still to come.
    [MemPosix] is an in-memory instance. *)

From S2P Require Import Prelude Words Bytes GuestMemory HostFile.

(** ** System calls *)

(** [Failed e]: the call returned -1 and [e] is [strerror(errno)]; [Eintr] is the
    failure with [errno == EINTR]. *)
Inductive sysresult (A : Type) := Done (a : A) | Eintr | Failed (errno : string).
Arguments Done {A} a.
Arguments Eintr {A}.
Arguments Failed {A} errno.

(** [O_RDONLY] and [O_RDWR], and with [O_CREAT | O_TRUNC] and mode 0600 [O_WRONLY] and
    [O_RDWR]; all with [O_CLOEXEC]. *)
Inductive open_flags := O_RDONLY | O_RDWR | O_WRONLY_CREAT_TRUNC | O_RDWR_CREAT_TRUNC.
Definition truncates (m : open_flags) : bool :=
  match m with O_RDONLY | O_RDWR => false | _ => true end.

Class Posix (F H : Type) := {
  sys_open : string -> open_flags -> F -> sysresult H * F;
  (** [read(fd, dst, want)]: the bytes stored at [dst]; none is end of file. *)
  sys_read : H -> Z -> F -> sysresult (list Z) * F;
  (** The number of bytes written. *)
  sys_write : H -> list Z -> F -> sysresult Z * F;
  sys_pread : H -> Z -> Z -> F -> sysresult (list Z) * F;
  sys_pwrite : H -> list Z -> Z -> F -> sysresult Z * F;
  sys_ftruncate : H -> Z -> F -> sysresult unit * F;
  sys_fsync : H -> F -> sysresult unit * F;
  (** [st_size] *)
  sys_fstat : H -> F -> sysresult Z * F;
  (** [mmap] of the first bytes of the file, private. *)
  sys_mmap : H -> Z -> F -> sysresult ram * F;
  (** [mkdir(path, 0700)]; [Done false] is the failure with [errno == EEXIST]. *)
  sys_mkdir : string -> F -> sysresult bool * F;
  (** [S_ISDIR(st_mode)] *)
  sys_stat_isdir : string -> F -> sysresult bool * F
}.

(** [strerror(EINTR)] *)
Definition eintr_text : string := "Interrupted system call".

(** [ErrnoMessage(what)] *)
Definition ErrnoMessage (what errno : string) : string := (what ++ ": " ++ errno)%string.

(** [CheckErr(rc, what)] on the result of a call that is not retried. *)
Definition CheckErr {A} (r : sysresult A) (what : string) : outcome A :=
  match r with
  | Done a => Ok a
  | Eintr => Throw (ErrnoMessage what eintr_text)
  | Failed e => Throw (ErrnoMessage what e)
  end.

Section Loops.
Context {F H : Type} `{Posix F H}.

Definition checked {A} (call : F -> sysresult A * F) (what : string) : M F A := fun f =>
  let '(r, f') := call f in (CheckErr r what, f').

Lemma checked_ok {A} (call : F -> sysresult A * F) what f a f' :
  checked call what f = (Ok a, f') -> call f = (Done a, f').
Proof.
  unfold checked. destruct (call f) as [[b| |e] f1]; cbn; [by intros [= <- <-]|done|done].
Qed.

(** The loop of [ReadAll] and [PreadAll]: [call done want] transfers the next bytes,
    [acc] is [dst[0 .. done)], which keeps what was read when a later call throws. *)
Fixpoint transfer_in (fuel : nat) (call : Z -> Z -> F -> sysresult (list Z) * F) (len : Z)
    (failed short : string) (acc : list Z) (f : F) : outcome unit * list Z * F :=
  let done := Z.of_nat (length acc) in
  if done <? len then
    match fuel with
    | O => (OutOfFuel, acc, f)
    | S fuel =>
        match call done (len - done) f with
        | (Eintr, f') => transfer_in fuel call len failed short acc f'
        | (Failed e, f') => (Throw (ErrnoMessage failed e), acc, f')
        | (Done [], f') => (Throw short, acc, f')
        | (Done got, f') => transfer_in fuel call len failed short (acc ++ got) f'
        end
    end
  else (Ok tt, acc, f).

(** The loop of [WriteAll] and [PwriteAll]: [src] is what is left, [done] what was written. *)
Fixpoint transfer_out (fuel : nat) (call : Z -> list Z -> F -> sysresult Z * F)
    (failed short : string) (done : Z) (src : list Z) (f : F) : outcome unit * F :=
  match src with
  | [] => (Ok tt, f)
  | _ =>
      match fuel with
      | O => (OutOfFuel, f)
      | S fuel =>
          match call done src f with
          | (Eintr, f') => transfer_out fuel call failed short done src f'
          | (Failed e, f') => (Throw (ErrnoMessage failed e), f')
          | (Done n, f') =>
              if n =? 0 then (Throw short, f')
              else transfer_out fuel call failed short (done + n) (drop (Z.to_nat n) src) f'
          end
      end
  end.

Variable fuel : nat.

Definition ReadAll (fd : H) (len : Z) (what : string) (f : F) : outcome unit * list Z * F :=
  transfer_in fuel (fun _ want => sys_read fd want) len what ("short read " ++ what)%string [] f.

Definition WriteAll (fd : H) (src : list Z) (what : string) : M F unit :=
  transfer_out fuel (fun _ src => sys_write fd src) what ("short write " ++ what)%string 0 src.

Definition PreadAll (fd : H) (len off : Z) (f : F) : outcome unit * list Z * F :=
  transfer_in fuel (fun done want => sys_pread fd want (off + done)) len
    "pread disk" "short disk read" [] f.

Definition PwriteAll (fd : H) (src : list Z) (off : Z) : M F unit :=
  transfer_out fuel (fun done src => sys_pwrite fd src (off + done))
    "pwrite disk" "short disk write" 0 src.
End Loops.

(** ** The documented behaviour of the calls

    [file_at p f] is the content of the file at path [p], [path_of] the file a
    descriptor was opened on and [offset] its file offset.  A successful transfer
    moves a prefix of what was asked; a failed or interrupted call changes nothing.
    [signals f] bounds the interruptions still to come. *)

(** The content after [bs] is written at [off]; a gap before it reads as zeros. *)
Definition splice (c : list Z) (off : Z) (bs : list Z) : list Z :=
  let o := Z.to_nat off in
  take o c ++ replicate (o - length c) 0 ++ bs ++ drop (o + length bs) c.

(** [ftruncate] *)
Definition resize (c : list Z) (len : Z) : list Z :=
  let n := Z.to_nat len in take n c ++ replicate (n - length c) 0.

Definition interrupted {A} (r : sysresult A) : nat := match r with Eintr => 1 | _ => 0 end.

Class PosixLaws (F H : Type) `{Posix F H} := {
  file_at : string -> F -> list Z;
  path_of : H -> string;
  offset : H -> F -> Z;
  signals : F -> nat;
  file_bytes p f : bytes_ok (file_at p f);
  offset_nonneg h f : 0 <= offset h f;
  open_existing p m f h f' :
    truncates m = false -> sys_open p m f = (Done h, f') ->
    path_of h = p /\ offset h f' = 0 /\ (forall q, file_at q f' = file_at q f) /\
    (signals f' <= signals f)%nat;
  open_truncated p m f h f' :
    truncates m = true -> sys_open p m f = (Done h, f') ->
    path_of h = p /\ offset h f' = 0 /\ file_at p f' = [] /\
    (forall q, q <> p -> file_at q f' = file_at q f) /\ (signals f' <= signals f)%nat;
  open_error p m f r f' :
    sys_open p m f = (r, f') -> (forall h, r <> Done h) ->
    (forall q, file_at q f' = file_at q f) /\ (signals f' <= signals f)%nat;
  posix_read h want f bs f' :
    0 <= want -> sys_read h want f = (Done bs, f') ->
    Z.of_nat (length bs) <= want /\
    bs = take (length bs) (drop (Z.to_nat (offset h f)) (file_at (path_of h) f)) /\
    offset h f' = offset h f + Z.of_nat (length bs) /\
    (forall q, file_at q f' = file_at q f) /\ (signals f' <= signals f)%nat;
  posix_read_error h want f r f' :
    sys_read h want f = (r, f') -> (forall bs, r <> Done bs) ->
    offset h f' = offset h f /\ (forall q, file_at q f' = file_at q f) /\
    (signals f' + interrupted r <= signals f)%nat;
  posix_write h bs f n f' :
    bytes_ok bs -> sys_write h bs f = (Done n, f') ->
    0 <= n <= Z.of_nat (length bs) /\
    file_at (path_of h) f' = splice (file_at (path_of h) f) (offset h f) (take (Z.to_nat n) bs) /\
    offset h f' = offset h f + n /\
    (forall q, q <> path_of h -> file_at q f' = file_at q f) /\ (signals f' <= signals f)%nat;
  posix_write_error h bs f r f' :
    sys_write h bs f = (r, f') -> (forall n, r <> Done n) ->
    offset h f' = offset h f /\ (forall q, file_at q f' = file_at q f) /\
    (signals f' + interrupted r <= signals f)%nat;
  posix_pread h want off f bs f' :
    0 <= want -> 0 <= off -> sys_pread h want off f = (Done bs, f') ->
    Z.of_nat (length bs) <= want /\
    bs = take (length bs) (drop (Z.to_nat off) (file_at (path_of h) f)) /\
    (forall q, file_at q f' = file_at q f) /\ (signals f' <= signals f)%nat;
  posix_pread_error h want off f r f' :
    sys_pread h want off f = (r, f') -> (forall bs, r <> Done bs) ->
    (forall q, file_at q f' = file_at q f) /\
    (signals f' + interrupted r <= signals f)%nat;
  posix_pwrite h bs off f n f' :
    bytes_ok bs -> 0 <= off -> sys_pwrite h bs off f = (Done n, f') ->
    0 <= n <= Z.of_nat (length bs) /\
    file_at (path_of h) f' = splice (file_at (path_of h) f) off (take (Z.to_nat n) bs) /\
    (forall q, q <> path_of h -> file_at q f' = file_at q f) /\ (signals f' <= signals f)%nat;
  posix_pwrite_error h bs off f r f' :
    sys_pwrite h bs off f = (r, f') -> (forall n, r <> Done n) ->
    (forall q, file_at q f' = file_at q f) /\
    (signals f' + interrupted r <= signals f)%nat;
  posix_ftruncate h len f f' :
    0 <= len -> sys_ftruncate h len f = (Done tt, f') ->
    file_at (path_of h) f' = resize (file_at (path_of h) f) len /\
    (forall q, q <> path_of h -> file_at q f' = file_at q f) /\ (signals f' <= signals f)%nat;
  posix_ftruncate_error h len f r f' :
    sys_ftruncate h len f = (r, f') -> r <> Done tt ->
    (forall q, file_at q f' = file_at q f) /\ (signals f' <= signals f)%nat;
  posix_fsync h f r f' :
    sys_fsync h f = (r, f') ->
    (forall q, file_at q f' = file_at q f) /\ (signals f' <= signals f)%nat;
  posix_fstat h f r f' :
    sys_fstat h f = (r, f') ->
    offset h f' = offset h f /\ (forall q, file_at q f' = file_at q f) /\
    (signals f' <= signals f)%nat /\
    (forall n, r = Done n -> n = Z.of_nat (length (file_at (path_of h) f)));
  posix_mmap h len f r f' :
    sys_mmap h len f = (r, f') ->
    (forall q, file_at q f' = file_at q f) /\ (signals f' <= signals f)%nat /\
    (forall m, r = Done m -> ram_ok m /\
       (0 <= len <= Z.of_nat (length (file_at (path_of h) f)) -> load m 0 len = take (Z.to_nat len) (file_at (path_of h) f)));
  posix_dirs p f :
    (forall r f', sys_mkdir p f = (r, f') ->
       (forall q, file_at q f' = file_at q f) /\ (signals f' <= signals f)%nat) /\
    (forall r f', sys_stat_isdir p f = (r, f') ->
       (forall q, file_at q f' = file_at q f) /\ (signals f' <= signals f)%nat)
}.

(** ** The loops move everything, or stop at the first failing call *)

Section Laws.
Context {F H : Type} `{PosixLaws F H}.

Definition same_files (f f' : F) : Prop := forall q, file_at q f' = file_at q f.

Lemma open_read p f h f' :
  sys_open p O_RDONLY f = (Done h, f') ->
  path_of h = p /\ offset h f' = 0 /\ same_files f f' /\ (signals f' <= signals f)%nat.
Proof. by apply open_existing. Qed.
Lemma open_trunc p f h f' :
  sys_open p O_WRONLY_CREAT_TRUNC f = (Done h, f') ->
  path_of h = p /\ offset h f' = 0 /\ file_at p f' = [] /\
  (forall q, q <> p -> file_at q f' = file_at q f) /\ (signals f' <= signals f)%nat.
Proof. by apply open_truncated. Qed.

(** One call of a reading loop: it returns the bytes found at [base + done]. *)
Definition reads_at (c : list Z) (base : Z) (call : Z -> Z -> F -> sysresult (list Z) * F)
    (I : Z -> F -> Prop) : Prop :=
  forall done want f r f', 0 <= done -> 0 < want -> I done f -> call done want f = (r, f') ->
    (signals f' + interrupted r <= signals f)%nat /\ same_files f f' /\
    match r with
    | Done bs => Z.of_nat (length bs) <= want /\
        bs = take (length bs) (drop (Z.to_nat (base + done)) c) /\ I (done + Z.of_nat (length bs)) f'
    | _ => I done f'
    end.

Lemma transfer_in_spec c base call I len failed short : 0 <= base -> reads_at c base call I ->
  forall fuel acc f o bs f',
  Z.of_nat (length acc) <= len -> I (Z.of_nat (length acc)) f ->
  (Z.to_nat len - length acc + signals f <= fuel)%nat ->
  transfer_in fuel call len failed short acc f = (o, bs, f') ->
  same_files f f' /\ (signals f' <= signals f)%nat /\ I (Z.of_nat (length bs)) f' /\ o <> OutOfFuel /\
  (exists n, (length acc + n <= Z.to_nat len)%nat /\
     bs = acc ++ take n (drop (Z.to_nat base + length acc) c) /\ length bs = (length acc + n)%nat) /\
  (o = Ok tt -> Z.of_nat (length bs) = len).
Proof.
  intros Hb Hcall. induction fuel as [|fuel IH]; intros acc f o bs f' Hacc HI Hfuel;
    cbn [transfer_in]; destruct (Z.ltb_spec (Z.of_nat (length acc)) len) as [Hlt|Hge]; try lia.
  1,3: intros [= <- <- <-]; split_and!; [done|lia|done|done| |lia];
    exists O; rewrite take_0, app_nil_r; split_and!; [lia|done|lia].
  destruct (call (Z.of_nat (length acc)) (len - Z.of_nat (length acc)) f) as [r f1] eqn:E.
  destruct (fun a b => Hcall _ _ _ _ _ a b HI E) as (Hs & Hsame & Hr); [lia..|].
  destruct r as [[|b got]| |e]; cbn [interrupted] in Hs.
  1,4: intros [= <- <- <-]; split_and!; [done|lia| |done| |done];
    [first [apply Hr|destruct Hr as (_ & _ & Hr); by rewrite Z.add_0_r in Hr]|];
    exists O; rewrite take_0, app_nil_r; split_and!; [lia|done|lia].
  - destruct Hr as (Hn & Hgot & HI'). set (g := b :: got) in *.
    assert (1 <= length g)%nat by (subst g; cbn; lia). clearbody g.
    intros Hrec. apply IH in Hrec as (Hsame' & Hs' & HI2 & Hnf & (n & Hn1 & -> & Hl) & Hok);
      rewrite ?length_app in *; [|lia|by rewrite Nat2Z.inj_add|lia].
    split_and!; [intros q; by rewrite Hsame', Hsame|lia|done|done| |done].
    exists (length g + n)%nat. split_and!; [lia| |lia].
    rewrite <- app_assoc. f_equal.
    rewrite <- (take_take_drop _ (length g) n), drop_drop.
    f_equal; [|f_equal; f_equal; lia].
    rewrite Hgot at 1. do 2 f_equal. lia.
  - intros Hrec. apply IH in Hrec as (Hsame' & Hs' & HI2 & Hnf & Hex & Hok); [|done|done|lia].
    split_and!; [intros q; by rewrite Hsame', Hsame|lia|done..].
Qed.

(** One call of a writing loop stores a prefix at [base + done]. *)
Definition writes_at (p : string) (base : Z) (call : Z -> list Z -> F -> sysresult Z * F)
    (I : Z -> F -> Prop) : Prop :=
  forall done src f r f', 0 <= done -> bytes_ok src -> I done f -> call done src f = (r, f') ->
    (signals f' + interrupted r <= signals f)%nat /\ (forall q, q <> p -> file_at q f' = file_at q f) /\
    match r with
    | Done n => 0 <= n <= Z.of_nat (length src) /\
        file_at p f' = splice (file_at p f) (base + done) (take (Z.to_nat n) src) /\ I (done + n) f'
    | _ => file_at p f' = file_at p f /\ I done f'
    end.

Lemma splice_nil c off : (Z.to_nat off <= length c)%nat -> splice c off [] = c.
Proof.
  intros Ho. unfold splice. cbn. rewrite Nat.add_0_r.
  replace (Z.to_nat off - length c)%nat with O by lia. cbn. apply take_drop.
Qed.

Lemma length_splice c off bs :
  length (splice c off bs) = Nat.max (length c) (Z.to_nat off + length bs).
Proof. unfold splice. rewrite !length_app, length_take, length_replicate, length_drop. lia. Qed.

Lemma splice_splice c off b1 b2 : 0 <= off ->
  splice (splice c off b1) (off + Z.of_nat (length b1)) b2 = splice c off (b1 ++ b2).
Proof.
  intros Hoff. unfold splice at 1. rewrite length_splice.
  replace (Z.to_nat (off + Z.of_nat (length b1))) with (Z.to_nat off + length b1)%nat by lia.
  replace (Z.to_nat off + length b1 - _)%nat with O by lia. cbn [replicate app].
  unfold splice. set (o := Z.to_nat off).
  assert (Ho : length (take o c ++ replicate (o - length c) 0) = o)
    by (rewrite length_app, length_take, length_replicate; lia).
  set (pre := take o c ++ replicate (o - length c) 0) in *.
  rewrite !(app_assoc (take o c)). fold pre.
  rewrite (app_assoc pre b1).
  rewrite take_app_length' by (rewrite length_app; lia).
  rewrite <- drop_drop, drop_app_length' by (rewrite length_app; lia).
  rewrite drop_drop, length_app, <- !app_assoc. do 4 f_equal. lia.
Qed.

Lemma transfer_out_spec p base call I failed short : 0 <= base -> writes_at p base call I ->
  forall fuel src done f o f',
  0 <= done -> bytes_ok src -> I done f -> (length src + signals f <= fuel)%nat ->
  (Z.to_nat (base + done) <= length (file_at p f))%nat ->
  transfer_out fuel call failed short done src f = (o, f') ->
  (forall q, q <> p -> file_at q f' = file_at q f) /\ (signals f' <= signals f)%nat /\
  o <> OutOfFuel /\
  (exists n, (n <= length src)%nat /\
     file_at p f' = splice (file_at p f) (base + done) (take n src) /\ I (done + Z.of_nat n) f' /\
     (o = Ok tt -> n = length src)).
Proof.
  intros Hb Hcall. induction fuel as [|fuel IH]; intros src done f o f' Hd Hby HI Hfuel Hlen;
    cbn [transfer_out]; destruct src as [|b bs]; cbn [length] in Hfuel; try lia.
  1,2: intros [= <- <-]; split_and!; [done|lia|done|]; exists O; cbn;
    rewrite splice_nil, Z.add_0_r by done; done.
  set (src := b :: bs) in *. change (S (length bs)) with (length src) in Hfuel.
  assert (1 <= length src)%nat by (subst src; cbn; lia). clearbody src.
  destruct (call done src f) as [r f1] eqn:E.
  destruct (Hcall _ _ _ _ _ Hd Hby HI E) as (Hs & Hother & Hr).
  assert (Hnone : forall e, Throw e = o -> f1 = f' -> file_at p f1 = file_at p f -> I done f1 ->
    (forall q, q <> p -> file_at q f' = file_at q f) /\ (signals f' <= signals f)%nat /\
    o <> OutOfFuel /\
    (exists n, (n <= length src)%nat /\
       file_at p f' = splice (file_at p f) (base + done) (take n src) /\ I (done + Z.of_nat n) f' /\
       (o = Ok tt -> n = length src))).
  { intros e <- <- Hf HI1. split_and!; [done|lia|done|]. exists O.
    rewrite take_0, splice_nil, Z.add_0_r by done. split_and!; [lia|done..]. }
  destruct r as [n| |e]; cbn [interrupted] in Hs.
  - destruct Hr as (Hn & Hf & HI1). destruct (Z.eqb_spec n 0) as [->|Hne].
    + intros [= Ho Hf']. apply (Hnone _ Ho Hf'); [|by rewrite Z.add_0_r in HI1].
      by rewrite Hf, take_0, splice_nil.
    + intros Hrec. apply IH in Hrec as (Hother' & Hs' & Hnf & k & Hk & Hf' & HI' & Hok);
        [|lia|by apply Forall_drop|done|rewrite length_drop; lia|
         rewrite Hf, length_splice, length_take; lia].
      split_and!; [intros q Hq; by rewrite Hother', Hother|lia|done|].
      rewrite length_drop in Hk, Hok.
      exists (Z.to_nat n + k)%nat. split_and!; [lia| |by replace (done + _) with (done + n + Z.of_nat k) by lia|
        intros Ho; specialize (Hok Ho); lia].
      assert (Hl : length (take (Z.to_nat n) src) = Z.to_nat n) by (rewrite length_take; lia).
      rewrite Hf', Hf, Z.add_assoc.
      replace (base + done + n) with (base + done + Z.of_nat (length (take (Z.to_nat n) src))) by lia.
      rewrite splice_splice, take_take_drop by lia. done.
  - destruct Hr as (Hf & HI1). intros Hrec.
    apply IH in Hrec as (Hother' & Hs' & Hnf & k & Hk & Hf' & HI' & Hok);
      [|done|done|done|lia|by rewrite Hf].
    split_and!; [intros q Hq; by rewrite Hother', Hother|lia|done|].
    exists k. by rewrite Hf', Hf.
  - destruct Hr as (Hf & HI1). intros [= Ho Hf']. by apply (Hnone _ Ho Hf').
Qed.

(** What a read of [len] bytes at [off] of [c] leaves at its destination. *)
Definition reads (c : list Z) (off len : Z) (o : outcome unit) (bs : list Z) : Prop :=
  o <> OutOfFuel /\ Z.of_nat (length bs) <= len /\
  bs = take (length bs) (drop (Z.to_nat off) c) /\ (o = Ok tt -> Z.of_nat (length bs) = len).

Lemma ReadAll_spec fuel fd len what f o bs f' :
  0 <= len -> (Z.to_nat len + signals f <= fuel)%nat -> ReadAll fuel fd len what f = (o, bs, f') ->
  same_files f f' /\ (signals f' <= signals f)%nat /\ offset fd f' = offset fd f + Z.of_nat (length bs) /\
  reads (file_at (path_of fd) f) (offset fd f) len o bs.
Proof.
  intros Hlen Hfuel. unfold ReadAll. set (c := file_at _ _). set (base := offset fd f).
  intros Hrun. pose proof (offset_nonneg fd f) as Hb.
  eapply (transfer_in_spec c base _
    (fun done g => offset fd g = base + done /\ same_files f g)) in Hrun
    as (Hsame & Hs & (HI & _) & Hnf & (n & Hn & Hbs & Hl) & Hok);
    [|done| |cbn; lia|split; [subst base; cbn; lia|done]|cbn; lia].
  - split_and!; [done|lia|done|]. cbn [length app Nat.add] in *. unfold reads.
    rewrite Nat.add_0_r in Hbs. rewrite Hl in Hok |- *. rewrite <- Hbs. split_and!; [done|lia|done|done].
  - intros done want g r g' Hd Hw (Ho & Hg) E. destruct r as [got| |e].
    + apply posix_read in E as (Hn & Hgot & Hoff & Hf & Hs); [|lia]. cbn.
      split_and!; [lia|done|lia| |lia|intros q; by rewrite Hf].
      rewrite Ho, (Hg (path_of fd)) in Hgot. exact Hgot.
    + apply posix_read_error in E as (Hoff & Hf & Hs); [|done]. cbn in *.
      split_and!; [lia|done|lia|intros q; by rewrite Hf].
    + apply posix_read_error in E as (Hoff & Hf & Hs); [|done]. cbn in *.
      split_and!; [lia|done|lia|intros q; by rewrite Hf].
Qed.

Lemma fd_PreadAll_spec fuel fd len off f o bs f' :
  0 <= len -> 0 <= off -> (Z.to_nat len + signals f <= fuel)%nat ->
  PreadAll fuel fd len off f = (o, bs, f') ->
  same_files f f' /\ (signals f' <= signals f)%nat /\ reads (file_at (path_of fd) f) off len o bs.
Proof.
  intros Hlen Hoff Hfuel. unfold PreadAll. set (c := file_at _ _). intros Hrun.
  eapply (transfer_in_spec c off _ (fun _ g => same_files f g)) in Hrun
    as (Hsame & Hs & _ & Hnf & (n & Hn & Hbs & Hl) & Hok);
    [|done| |cbn; lia|done|cbn; lia].
  - split_and!; [done|lia|]. cbn [length app Nat.add] in *. unfold reads.
    rewrite Nat.add_0_r in Hbs. rewrite Hl in Hok |- *. rewrite <- Hbs. split_and!; [done|lia|done|done].
  - intros done want g r g' Hd Hw Hg E. destruct r as [got| |e].
    + apply posix_pread in E as (Hn & Hgot & Hf & Hs); [|lia..]. cbn.
      split_and!; [lia|done|lia| |intros q; by rewrite Hf]. by rewrite (Hg (path_of fd)) in Hgot.
    + apply posix_pread_error in E as (Hf & Hs); [|done]. cbn in *.
      split_and!; [lia|done|intros q; by rewrite Hf].
    + apply posix_pread_error in E as (Hf & Hs); [|done]. cbn in *.
      split_and!; [lia|done|intros q; by rewrite Hf].
Qed.

(** What a write of [src] at [off] does to the file [p]: the others stay, and a
    prefix of [src] is stored, all of it when the write returns. *)
Definition writes (p : string) (off : Z) (src : list Z) (f : F) (o : outcome unit) (n : nat) (f' : F)
    : Prop :=
  (forall q, q <> p -> file_at q f' = file_at q f) /\ (signals f' <= signals f)%nat /\
  o <> OutOfFuel /\ (n <= length src)%nat /\
  file_at p f' = splice (file_at p f) off (take n src) /\ (o = Ok tt -> n = length src).

Lemma WriteAll_spec fuel fd src what f o f' :
  bytes_ok src -> (length src + signals f <= fuel)%nat ->
  (Z.to_nat (offset fd f) <= length (file_at (path_of fd) f))%nat ->
  WriteAll fuel fd src what f = (o, f') ->
  exists n, writes (path_of fd) (offset fd f) src f o n f' /\
    offset fd f' = offset fd f + Z.of_nat n.
Proof.
  intros Hby Hfuel Hin. unfold WriteAll. intros Hrun.
  pose proof (offset_nonneg fd f) as Hb. set (base := offset fd f) in *.
  eapply (transfer_out_spec (path_of fd) base _ (fun done g => offset fd g = base + done)) in Hrun
    as (Hother & Hs & Hnf & n & Hn & Hf & HI & Hok);
    [|done| |lia|done|subst base; lia|lia|by rewrite Z.add_0_r].
  - exists n. rewrite Z.add_0_r in Hf. by repeat split.
  - intros done s g r g' Hd Hs Ho E. destruct r as [k| |e].
    + apply posix_write in E as (Hn & Hf & Hoff & Hq & Hsg); [|done]. cbn.
      rewrite Ho in Hf. split_and!; [lia|done|lia|lia|done|lia].
    + apply posix_write_error in E as (Hoff & Hf & Hsg); [|done]. cbn in *.
      split_and!; [lia|done|done|lia].
    + apply posix_write_error in E as (Hoff & Hf & Hsg); [|done]. cbn in *.
      split_and!; [lia|done|done|lia].
Qed.

Lemma fd_PwriteAll_spec fuel fd src off f o f' :
  bytes_ok src -> 0 <= off -> (length src + signals f <= fuel)%nat ->
  (Z.to_nat off <= length (file_at (path_of fd) f))%nat ->
  PwriteAll fuel fd src off f = (o, f') ->
  exists n, writes (path_of fd) off src f o n f'.
Proof.
  intros Hby Hoff Hfuel Hin. unfold PwriteAll. intros Hrun.
  eapply (transfer_out_spec (path_of fd) off _ (fun _ _ => True)) in Hrun
    as (Hother & Hs & Hnf & n & Hn & Hf & _ & Hok);
    [|done| |lia|done|done|lia|by rewrite Z.add_0_r].
  - exists n. rewrite Z.add_0_r in Hf. by repeat split.
  - intros done s g r g' Hd Hs _ E. destruct r as [k| |e].
    + apply posix_pwrite in E as (Hn & Hf & Hq & Hsg); [|done|lia]. cbn.
      by split_and!; [lia|done|lia|lia| |].
    + apply posix_pwrite_error in E as (Hf & Hsg); [|done]. cbn in *. by split_and!; [lia|..].
    + apply posix_pwrite_error in E as (Hf & Hsg); [|done]. cbn in *. by split_and!; [lia|..].
Qed.
End Laws.

Lemma take_load m a n k : 0 <= n <= k -> load m a n = take (Z.to_nat n) (load m a k).
Proof.
  intros Hn. replace k with (n + (k - n)) by lia.
  rewrite load_app by lia. by rewrite take_app_length' by (rewrite length_load; lia).
Qed.

(** ** An in-memory file system

    A descriptor is its path; a call transfers at most [chunk] bytes, and the first
    [pending] transfers are interrupted by a signal. *)
Module MemPosix.
Record files := mkFiles {
  disk : gmap string (list Z); offs : gmap string Z; chunk : Z; pending : nat }.
#[export] Instance eta_files : Eta files := fun f => mkFiles (disk f) (offs f) (chunk f) (pending f).

Definition body (p : string) (f : files) : list Z := map u8 (default [] (disk f !! p)).
Definition off (p : string) (f : files) : Z := Z.max 0 (default 0 (offs f !! p)).
Definition set_body (p : string) (c : list Z) (f : files) : files := f <| disk := <[p := c]> (disk f) |>.
Definition set_off (p : string) (o : Z) (f : files) : files := f <| offs := <[p := o]> (offs f) |>.

(** The number of bytes a call moves out of [n]. *)
Definition moved (f : files) (n : Z) : Z := Z.max 0 (Z.min n (chunk f)).

Definition interruptible {A} (call : files -> sysresult A * files) (f : files) : sysresult A * files :=
  match pending f with
  | S k => (Eintr, f <| pending := k |>)
  | O => call f
  end.

#[export] Instance mem_posix : Posix files string := {|
  sys_open p m f :=
    if truncates m then (Done p, set_off p 0 (set_body p [] f))
    else match disk f !! p with
         | Some _ => (Done p, set_off p 0 f)
         | None => (Failed "No such file or directory", f)
         end;
  sys_read h want := interruptible (fun f =>
    let bs := take (Z.to_nat (moved f want)) (drop (Z.to_nat (off h f)) (body h f)) in
    (Done bs, set_off h (off h f + Z.of_nat (length bs)) f));
  sys_write h bs := interruptible (fun f =>
    let n := moved f (Z.of_nat (length bs)) in
    (Done n, set_off h (off h f + n)
               (set_body h (splice (body h f) (off h f) (take (Z.to_nat n) bs)) f)));
  sys_pread h want o := interruptible (fun f =>
    (Done (take (Z.to_nat (moved f want)) (drop (Z.to_nat o) (body h f))), f));
  sys_pwrite h bs o := interruptible (fun f =>
    let n := moved f (Z.of_nat (length bs)) in
    (Done n, set_body h (splice (body h f) o (take (Z.to_nat n) bs)) f));
  sys_ftruncate h n f := (Done tt, set_body h (resize (body h f) n) f);
  sys_fsync h f := (Done tt, f);
  sys_fstat h f := (Done (Z.of_nat (length (body h f))), f);
  sys_mmap h len f := (Done (store (fun _ => 0) 0 (body h f)), f);
  sys_mkdir p f := (Done true, f);
  sys_stat_isdir p f := (Done true, f) |}.

Lemma map_u8_splice c o bs : map u8 (splice c o bs) = splice (map u8 c) o (map u8 bs).
Proof.
  unfold splice. rewrite !map_app, !length_map, firstn_map, skipn_map. do 2 f_equal.
  apply fmap_replicate.
Qed.
Lemma map_u8_resize c n : map u8 (resize c n) = resize (map u8 c) n.
Proof.
  unfold resize. rewrite !map_app, !length_map, firstn_map. f_equal. apply fmap_replicate.
Qed.
Lemma map_u8_body p f : map u8 (body p f) = body p f.
Proof. apply MemFiles.map_u8_id, MemFiles.map_u8_ok. Qed.

Lemma body_set p q c f : body q (set_body p c f) = if decide (q = p) then map u8 c else body q f.
Proof.
  unfold body, set_body. cbn. destruct (decide (q = p)) as [->|]; [by rewrite lookup_insert_eq|].
  by rewrite lookup_insert_ne.
Qed.
Lemma off_set p o f : 0 <= o -> off p (set_off p o f) = o.
Proof. intros Ho. unfold off, set_off. cbn. rewrite lookup_insert_eq. cbn. lia. Qed.

#[export] Instance mem_posix_laws : PosixLaws files string.
Proof.
  assert (Hnn : forall h f, 0 <= off h f) by (intros; unfold off; lia).
  apply (Build_PosixLaws _ _ _ body (fun h => h) off pending); cbn; unfold interruptible.
  - intros p f. apply MemFiles.map_u8_ok.
  - done.
  - intros p m f h f' ->. destruct (disk f !! p); [|done]. intros [= <- <-].
    split_and!; [done|by apply off_set|done|done].
  - intros p m f h f' -> [= <- <-]. split_and!; [done|by apply off_set| | |done].
    + change (body p (set_body p [] f) = []). by rewrite body_set, decide_True.
    + intros q Hq. change (body q (set_body p [] f) = body q f). by rewrite body_set, decide_False.
  - intros p m f r f'. destruct (truncates m); [intros [= <- <-] Hno; by destruct (Hno p)|].
    destruct (disk f !! p); intros [= <- <-] Hno; [by destruct (Hno p)|done].
  - intros h want f bs f' Hw. destruct (pending f) eqn:Hp; [|done]. intros [= Hbs <-].
    assert (Hm : 0 <= moved f want <= want) by (unfold moved; lia).
    rewrite Hbs. set (d := drop _ _) in *.
    split_and!; [| |rewrite off_set by (specialize (Hnn h f); lia); lia|done|cbn; lia].
    + rewrite <- Hbs, length_take. lia.
    + rewrite <- Hbs at 1. rewrite <- Hbs, length_take, <- take_take.
      by rewrite (take_ge d (length d)) by lia.
  - intros h want f r f'. destruct (pending f) eqn:Hp; [intros [= <- <-] Hno; by edestruct Hno|].
    intros [= <- <-] _. cbn. split_and!; [done|done|lia].
  - intros h bs f n f' Hby. destruct (pending f) eqn:Hp; [|done]. intros [= Hn <-]. rewrite Hn.
    assert (Hm : 0 <= n <= Z.of_nat (length bs)) by (rewrite <- Hn; unfold moved; lia).
    split_and!; [lia|lia| |rewrite off_set by (specialize (Hnn h f); lia); done| |cbn; lia].
    + change (body h (set_body h (splice (body h f) (off h f) (take (Z.to_nat n) bs)) f) =
        splice (body h f) (off h f) (take (Z.to_nat n) bs)).
      rewrite body_set, decide_True, map_u8_splice, map_u8_body by done.
      by rewrite MemFiles.map_u8_id by (by apply Forall_take).
    + intros q Hq. change (body q (set_body h (splice (body h f) (off h f) (take (Z.to_nat n) bs)) f) = body q f).
      by rewrite body_set, decide_False.
  - intros h bs f r f'. destruct (pending f) eqn:Hp; [intros [= <- <-] Hno; by edestruct Hno|].
    intros [= <- <-] _. cbn. split_and!; [done|done|lia].
  - intros h want o f bs f' Hw Ho. destruct (pending f) eqn:Hp; [|done]. intros [= Hbs <-].
    assert (Hm : 0 <= moved f want <= want) by (unfold moved; lia).
    set (d := drop _ _) in *. split_and!; [rewrite <- Hbs, length_take; lia| |done|lia].
    rewrite <- Hbs at 1. rewrite <- Hbs, length_take, <- take_take.
    by rewrite (take_ge d (length d)) by lia.
  - intros h want o f r f'. destruct (pending f) eqn:Hp; [intros [= <- <-] Hno; by edestruct Hno|].
    intros [= <- <-] _. cbn. split_and!; [done|lia].
  - intros h bs o f n f' Hby Ho. destruct (pending f) eqn:Hp; [|done]. intros [= Hn <-]. rewrite Hn.
    assert (Hm : 0 <= n <= Z.of_nat (length bs)) by (rewrite <- Hn; unfold moved; lia).
    split_and!; [lia|lia| | |cbn; lia].
    + rewrite body_set, decide_True, map_u8_splice, map_u8_body by done.
      by rewrite MemFiles.map_u8_id by (by apply Forall_take).
    + intros q Hq. by rewrite body_set, decide_False.
  - intros h bs o f r f'. destruct (pending f) eqn:Hp; [intros [= <- <-] Hno; by edestruct Hno|].
    intros [= <- <-] _. cbn. split_and!; [done|lia].
  - intros h n f f' Hn [= <-]. split_and!; [| |done].
    + by rewrite body_set, decide_True, map_u8_resize, map_u8_body.
    + intros q Hq. by rewrite body_set, decide_False.
  - intros h n f r f' [= <- <-]. done.
  - intros h f r f' [= <- <-]. done.
  - intros h f r f' [= <- <-]. split_and!; [done..|]. by intros n [= <-].
  - intros h len f r f' [= <- <-]. split_and!; [done..|]. intros m [= <-].
    split; [apply store_ok; [done|]; apply MemFiles.map_u8_ok|]. intros Hl.
    set (bs := body h f) in *.
    rewrite <- (load_store_eq (fun _ => 0) 0 bs (Z.of_nat (length bs))) at 2 by done.
    apply take_load. lia.
  - intros p f. split; by intros r f' [= <- <-].
Defined.
End MemPosix.
