(* ===== verification/KvmSnapshot.v ===== *)
(** * Guest RAM snapshots of native/kvm/backend.cc

    The sparse file of a full RAM image, the vCPU state files, and the incremental
    snapshot: the pages KVM logs as dirty are written to a delta file, which is
    applied over the base image on restore.  RAM is a map from addresses to bytes;
    the structs are written as the bytes of their x86-64 layout, with the padding of
    [DirtySnapshotHeader] a parameter.  The theorems: the dirty list is the set bits
    of KVM's bitmap in order, applying any file writes only whole pages inside RAM,
    and base image plus delta restore the saved RAM. *)

From S2P Require Import Prelude Words Bytes GuestMemory HostFile Posix.

#[local] Open Scope string_scope.
#[local] Open Scope list_scope.
#[local] Open Scope Z_scope.

Definition kSnapshotPageSize : Z := 4096.

(** The RAM of [struct KvmSystem]; its descriptors are the host's. *)
Record KvmSystem := mkKvmSystem { mem : ram; mem_size : Z }.
#[export] Instance eta_KvmSystem : Eta KvmSystem := fun s => mkKvmSystem (mem s) (mem_size s).

Definition bytes_of (s : string) : list Z :=
  map (fun a => Z.of_nat (nat_of_ascii a)) (list_ascii_of_string s).

(** The magics with their terminating NUL ([sizeof]). *)
Definition kRamSnapshotMagic : list Z := bytes_of "NODEKVM-RAM-001" ++ [0].
Definition kDirtySnapshotMagic : list Z := bytes_of "NODEKVM-DIRTY-001" ++ [0].
Definition kRamSnapshotVersion : Z := 1.
Definition kDirtySnapshotVersion : Z := 1.

(** [sizeof(RamSnapshotHeader)] and [sizeof(DirtySnapshotHeader)] *)
Definition ram_header_size : Z := 32.
Definition dirty_header_size : Z := 48.

Record RamSnapshotHeader := mkRamHeader {
  ram_magic : list Z; ram_version : Z; ram_mem_mib : Z; ram_mem_size : Z }.
Record DirtySnapshotHeader := mkDirtyHeader {
  magic : list Z; version : Z; page_size : Z; page_count : Z; dirty_pages : Z }.

(** The structs in memory. *)
Definition ram_header_bytes (h : RamSnapshotHeader) : list Z :=
  ram_magic h ++ WriteU32 (ram_version h) ++ WriteU32 (ram_mem_mib h) ++ WriteU64 (ram_mem_size h).
Definition ram_header_of (b : list Z) : RamSnapshotHeader :=
  mkRamHeader (take 16 b) (ReadU32 (drop 16 b)) (ReadU32 (drop 20 b)) (ReadU64 (drop 24 b)).

Definition dirty_header_bytes (pad2 pad4 : list Z) (h : DirtySnapshotHeader) : list Z :=
  magic h ++ pad2 ++ WriteU32 (version h) ++ WriteU32 (page_size h) ++ pad4 ++
  WriteU64 (page_count h) ++ WriteU64 (dirty_pages h).
Definition dirty_header_of (b : list Z) : DirtySnapshotHeader :=
  mkDirtyHeader (take 18 b) (ReadU32 (drop 20 b)) (ReadU32 (drop 24 b))
    (ReadU64 (drop 32 b)) (ReadU64 (drop 40 b)).

(** [memcmp(a, b, n) == 0] on arrays of the same size. *)
Definition same_bytes (a b : list Z) : bool := bool_decide (a = b).

Fixpoint IsZeroPage (src : list Z) : bool :=
  match src with
  | [] => true
  | b :: src => if negb (b =? 0) then false else IsZeroPage src
  end.

Definition JoinPath (dir name : string) : string :=
  if (dir =? "")%string || (dir =? "/")%string then (dir ++ name)%string
  else (dir ++ "/" ++ name)%string.

(** ** The dirty log *)

(** [__builtin_ctzll] of a non-zero word. *)
Fixpoint ctz (bits : nat) (word : Z) : Z :=
  match bits with
  | O => 0
  | S bits => if Z.odd word then 0 else 1 + ctz bits (Z.div2 word)
  end.

(** [while (word != 0) { ... word &= word - 1; }] *)
Fixpoint word_pages (rounds : nat) (page_count word_index word : Z) (pages : list Z)
    : outcome (list Z) :=
  if word =? 0 then Ok pages
  else
    match rounds with
    | O => OutOfFuel
    | S rounds =>
        let bit := ctz 64 word in
        let page := u64 (word_index * 64 + bit) in
        word_pages rounds page_count word_index (Z.land word (u64 (word - 1)))
          (if page <? page_count then pages ++ [page] else pages)
    end.

Fixpoint bitmap_pages (page_count word_index : Z) (bitmap pages : list Z) : outcome (list Z) :=
  match bitmap with
  | [] => Ok pages
  | word :: bitmap =>
      word_pages 64 page_count word_index word pages ≫= fun pages =>
      bitmap_pages page_count (word_index + 1) bitmap pages
  end.

(** [dirty_log n] is KVM_GET_DIRTY_LOG on a bitmap of [n] words. *)
Definition GetDirtyPages (sys : KvmSystem) (dirty_log : nat -> sysresult (list Z)) : outcome (list Z) :=
  let page_count := mem_size sys / kSnapshotPageSize in
  CheckErr (dirty_log (Z.to_nat ((page_count + 63) / 64))) "KVM_GET_DIRTY_LOG" ≫= fun bitmap =>
  bitmap_pages page_count 0 bitmap [].

(** ** The files *)

Section Files.
Context {F H : Type} `{Posix F H}.
(** A bound on the rounds of the loops over partial transfers, [sizeof(VcpuCoreState)],
    and the padding of [DirtySnapshotHeader]. *)
Variables (fuel : nat) (vcpu_state_size : Z) (pad2 pad4 : list Z).

(** A struct read into a fresh object. *)
Definition read_bytes (fd : H) (len : Z) (what : string) : M F (list Z) := fun f =>
  let '(o, bs, f') := ReadAll fuel fd len what f in (o ≫= fun _ => Ok bs, f').

Fixpoint sparse_loop (rounds : nat) (fd : H) (src : ram) (len off pages_written : Z) : M F Z :=
  if off <? len then
    match rounds with
    | O => fail_fuel
    | S rounds =>
        let chunk := Z.min kSnapshotPageSize (len - off) in
        if IsZeroPage (load src off chunk) then
          sparse_loop rounds fd src len (off + kSnapshotPageSize) pages_written
        else
          PwriteAll fuel fd (load src off chunk) off ≫= fun _ =>
          sparse_loop rounds fd src len (off + kSnapshotPageSize) (pages_written + 1)
    end
  else mret pages_written.

Definition WriteSparseMemoryFile (path : string) (src : ram) (len : Z) : M F Z :=
  checked (sys_open path O_WRONLY_CREAT_TRUNC) ("open sparse memory " ++ path)%string ≫= fun fd =>
  checked (sys_ftruncate fd len) ("truncate sparse memory " ++ path)%string ≫= fun _ =>
  sparse_loop (Z.to_nat len) fd src len 0 0.

Definition WriteFullRamFile (path : string) (sys : KvmSystem) : M F unit :=
  WriteSparseMemoryFile path (mem sys) (mem_size sys) ≫= fun _ => mret tt.

Definition EnsureDirectory (path : string) : M F unit := fun f =>
  match sys_mkdir path f with
  | (Done true, f') => (Ok tt, f')
  | (Done false, f') =>
      (checked (sys_stat_isdir path) ("stat snapshot directory " ++ path)%string ≫= fun isdir =>
       lift (Check isdir ("snapshot path is not a directory: " ++ path)%string)) f'
  | (r, f') => (CheckErr r ("mkdir snapshot directory " ++ path)%string ≫= fun _ => Ok tt, f')
  end.

Definition WriteVcpuStateFile (path : string) (state : list Z) : M F unit :=
  checked (sys_open path O_WRONLY_CREAT_TRUNC) ("open dirty snapshot state " ++ path)%string ≫= fun fd =>
  WriteAll fuel fd state "write dirty snapshot vCPU state".

Definition ReadVcpuStateFile (path : string) : M F (list Z) :=
  checked (sys_open path O_RDONLY) ("open dirty snapshot state " ++ path)%string ≫= fun fd =>
  read_bytes fd vcpu_state_size "read dirty snapshot vCPU state".

(** Returns [ram_path] and [state_path]. *)
Definition WriteRamSnapshotFiles (dir : string) (mem_mib : Z) (sys : KvmSystem) (state : list Z)
    : M F (string * string) :=
  EnsureDirectory dir ≫= fun _ =>
  let ram_path := JoinPath dir "mem.bin" in
  let state_path := JoinPath dir "vcpu.bin" in
  let header := mkRamHeader kRamSnapshotMagic kRamSnapshotVersion mem_mib (mem_size sys) in
  checked (sys_open state_path O_WRONLY_CREAT_TRUNC)
    ("open snapshot state " ++ state_path)%string ≫= fun state_fd =>
  WriteAll fuel state_fd (ram_header_bytes header) "write snapshot state header" ≫= fun _ =>
  WriteAll fuel state_fd state "write snapshot vCPU state" ≫= fun _ =>
  WriteSparseMemoryFile ram_path (mem sys) (mem_size sys) ≫= fun _ =>
  mret (ram_path, state_path).

(** Returns the state, [mem_mib] and [mem_size]. *)
Definition ReadRamSnapshotState (state_path : string) : M F (list Z * Z * Z) :=
  checked (sys_open state_path O_RDONLY) ("open snapshot state " ++ state_path)%string ≫= fun state_fd =>
  read_bytes state_fd ram_header_size "read snapshot state header" ≫= fun b =>
  let header := ram_header_of b in
  lift (Check (same_bytes (ram_magic header) kRamSnapshotMagic) "invalid native RAM snapshot magic") ≫= fun _ =>
  lift (Check (ram_version header =? kRamSnapshotVersion) "unsupported native RAM snapshot version") ≫= fun _ =>
  read_bytes state_fd vcpu_state_size "read snapshot vCPU state" ≫= fun state =>
  mret (state, ram_mem_mib header, ram_mem_size header).

(** The RAM of [CreateVmWithMemory] when [ram_path] is given: a private mapping of the file. *)
Definition MapSnapshotRam (mem_mib : Z) (ram_path : string) : M F KvmSystem :=
  let bytes := mem_mib * 1024 * 1024 in
  lift (Check ((0 <? bytes) && (bytes <=? Z.shiftl 1 32)) "invalid guest memory size") ≫= fun _ =>
  checked (sys_open ram_path O_RDONLY) ("open snapshot RAM " ++ ram_path)%string ≫= fun fd =>
  checked (sys_fstat fd) ("stat snapshot RAM " ++ ram_path)%string ≫= fun st_size =>
  lift (Check (st_size =? bytes) "snapshot RAM size does not match memMiB") ≫= fun _ =>
  checked (sys_mmap fd bytes) "mmap guest memory" ≫= fun m =>
  mret (mkKvmSystem m bytes).

Definition WriteDirtySnapshotFile (path : string) (sys : KvmSystem) (pages : list Z) : M F unit :=
  checked (sys_open path O_WRONLY_CREAT_TRUNC) ("open dirty RAM delta " ++ path)%string ≫= fun fd =>
  let header := mkDirtyHeader kDirtySnapshotMagic kDirtySnapshotVersion (u32 kSnapshotPageSize)
                  (mem_size sys / kSnapshotPageSize) (Z.of_nat (length pages)) in
  WriteAll fuel fd (dirty_header_bytes pad2 pad4 header) "write dirty snapshot header" ≫= fun _ =>
  for_each (fun page =>
    let offset := u64 (page * kSnapshotPageSize) in
    WriteAll fuel fd (WriteU64 page) "write dirty snapshot page index" ≫= fun _ =>
    WriteAll fuel fd (load (mem sys) offset kSnapshotPageSize) "write dirty snapshot page") pages.

(** [ReadAll] straight into guest memory: what was read stays when it throws. *)
Definition read_into_ram (fd : H) (addr len : Z) (what : string) : M (F * KvmSystem) unit :=
  fun '(f, sys) =>
    let '(o, bs, f') := ReadAll fuel fd len what f in
    (o, (f', sys <| mem := store (mem sys) addr bs |>)).

(** The body of the loop: one page. *)
Definition apply_entry (fd : H) (header : DirtySnapshotHeader) : M (F * KvmSystem) unit :=
  on_fst (read_bytes fd 8 "read dirty snapshot page index") ≫= fun b =>
  let page := ReadU64 b in
  lift (Check (page <? page_count header) "dirty snapshot page index out of bounds") ≫= fun _ =>
  read_into_ram fd (page * kSnapshotPageSize) kSnapshotPageSize "read dirty snapshot page".

Fixpoint apply_loop (rounds : nat) (fd : H) (header : DirtySnapshotHeader) (i : Z)
    : M (F * KvmSystem) unit :=
  if i <? dirty_pages header then
    match rounds with
    | O => fail_fuel
    | S rounds => apply_entry fd header ≫= fun _ => apply_loop rounds fd header (i + 1)
    end
  else mret tt.

(** [rounds] bounds the number of entries. *)
Definition ApplyDirtySnapshotFile (rounds : nat) (path : string) : M (F * KvmSystem) Z :=
  on_fst (checked (sys_open path O_RDONLY) ("open dirty RAM delta " ++ path)%string) ≫= fun fd =>
  on_fst (read_bytes fd dirty_header_size "read dirty snapshot header") ≫= fun b =>
  let header := dirty_header_of b in
  gets snd ≫= fun sys =>
  lift (Check (same_bytes (magic header) kDirtySnapshotMagic) "invalid dirty snapshot magic") ≫= fun _ =>
  lift (Check (version header =? kDirtySnapshotVersion) "unsupported dirty snapshot version") ≫= fun _ =>
  lift (Check (page_size header =? kSnapshotPageSize) "dirty snapshot page size mismatch") ≫= fun _ =>
  lift (Check (page_count header =? mem_size sys / kSnapshotPageSize)
         "dirty snapshot page count mismatch") ≫= fun _ =>
  apply_loop rounds fd header 0 ≫= fun _ =>
  mret (dirty_pages header).

(** The steps of [DirtyRamSnapshotSmoke] around the guest's run: the base image before
    it, the saving of what it changed, and the restore.  The vCPU calls are KVM's. *)
Definition base_ram (dir : string) : string := JoinPath dir "base.mem".
Definition delta_ram (dir : string) : string := JoinPath dir "dirty.mem".
Definition dirty_state_path (dir : string) : string := JoinPath dir "dirty-vcpu.bin".

Definition SaveBase (dir : string) (sys : KvmSystem) : M F unit :=
  WriteFullRamFile (base_ram dir) sys.

(** Returns [dirty_pages_count]. *)
Definition SaveDirty (dir : string) (sys : KvmSystem) (state : list Z)
    (dirty_log : nat -> sysresult (list Z)) : M F Z :=
  lift (GetDirtyPages sys dirty_log) ≫= fun dirty_pages =>
  WriteVcpuStateFile (dirty_state_path dir) state ≫= fun _ =>
  WriteDirtySnapshotFile (delta_ram dir) sys dirty_pages ≫= fun _ =>
  mret (Z.of_nat (length dirty_pages)).

(** A computation on a RAM the caller owns. *)
Definition with_ram {A} (sys : KvmSystem) (m : M (F * KvmSystem) A) : M F (A * KvmSystem) := fun f =>
  let '(o, (f', sys')) := m (f, sys) in (o ≫= fun a => Ok (a, sys'), f').

(** Returns [restored_sys], [restored_dirty_pages] and [restored_state]. *)
Definition RestoreDirty (rounds : nat) (dir : string) (mem_mib : Z) : M F (KvmSystem * Z * list Z) :=
  MapSnapshotRam mem_mib (base_ram dir) ≫= fun restored_sys =>
  with_ram restored_sys (ApplyDirtySnapshotFile rounds (delta_ram dir)) ≫= fun '(n, restored_sys) =>
  ReadVcpuStateFile (dirty_state_path dir) ≫= fun restored_state =>
  mret (restored_sys, n, restored_state).
End Files.

(** ** The dirty list *)

(** Whether KVM's bitmap marks a page. *)
Definition dirty_bit (bitmap : list Z) (page : Z) : bool :=
  Z.testbit (nth (Z.to_nat (page / 64)) bitmap 0) (page mod 64).

Definition word_ok (w : Z) : Prop := 0 <= w < 2 ^ 64.

(** The bits of [w] below [n] are clear. *)
Definition low_clear (n w : Z) : Prop := forall i, 0 <= i < n -> Z.testbit w i = false.

Lemma ctz_spec bits : forall w, 0 < w < 2 ^ Z.of_nat bits ->
  0 <= ctz bits w < Z.of_nat bits /\ Z.testbit w (ctz bits w) = true /\ low_clear (ctz bits w) w.
Proof.
  induction bits as [|bits IH]; intros w Hw; [cbn in *; lia|]. cbn [ctz].
  destruct (Z.odd w) eqn:Hodd; [split_and!; [lia|lia|by rewrite Z.bit0_odd|intros i; lia]|].
  rewrite Nat2Z.inj_succ, Z.pow_succ_r in Hw by lia.
  assert (Hd : w = 2 * Z.div2 w) by (rewrite (Z.div2_odd w), Hodd at 1; cbn; lia).
  destruct (IH (Z.div2 w) ltac:(lia)) as (Hr & Hb & Hl). split_and!; [lia|lia| |].
  - replace (1 + ctz bits (Z.div2 w)) with (Z.succ (ctz bits (Z.div2 w))) by lia.
    rewrite <- Z.div2_bits, <- Z.div2_div by lia. exact Hb.
  - intros i Hi. destruct (Z.eq_dec i 0) as [->|]; [by rewrite Z.bit0_odd|].
    replace i with (Z.succ (i - 1)) by lia. rewrite <- Z.div2_bits, <- Z.div2_div by lia. apply Hl. lia.
Qed.

(** [word &= word - 1] clears the lowest set bit. *)
Lemma clear_lowest w n : word_ok w -> 0 <= n < 64 -> Z.testbit w n = true -> low_clear n w ->
  Z.land w (u64 (w - 1)) = w - 2 ^ n /\
  (forall i, 0 <= i -> Z.testbit (w - 2 ^ n) i = Z.testbit w i && negb (i =? n)).
Proof.
  intros Hw Hn Hb Hl.
  assert (Hpos : 0 < w) by (destruct (Z.eq_dec w 0) as [->|]; [by rewrite Z.bits_0 in Hb|unfold word_ok in *; lia]).
  rewrite u64_small by (unfold word_ok in *; lia).
  set (k := Z.shiftr w (n + 1)).
  assert (Hsub : forall i, 0 <= i -> Z.testbit (Z.shiftl k (n + 1)) i = Z.testbit w i && negb (i =? n)).
  { intros i Hi. rewrite Z.shiftl_spec by lia. destruct (Z.ltb_spec i (n + 1)).
    - rewrite Z.testbit_neg_r by lia. destruct (Z.eqb_spec i n) as [->|]; cbn; [by rewrite andb_false_r|].
      by rewrite Hl by lia.
    - unfold k. rewrite Z.shiftr_spec by lia. replace (i - (n + 1) + (n + 1)) with i by lia.
      destruct (Z.eqb_spec i n); [lia|]. by rewrite andb_true_r. }
  assert (Hdec : w = Z.shiftl k (n + 1) + 2 ^ n).
  { rewrite <- lor_disjoint_add.
    - apply Z.bits_inj'. intros i Hi. rewrite Z.lor_spec, Hsub, Z.pow2_bits_eqb by lia.
      rewrite Z.eqb_sym. destruct (Z.eqb_spec n i) as [->|]; [by rewrite Hb|].
      cbn. by rewrite andb_true_r, orb_false_r.
    - apply Z.bits_inj'. intros i Hi. rewrite Z.land_spec, Hsub, Z.pow2_bits_eqb, Z.bits_0 by lia.
      rewrite Z.eqb_sym. destruct (Z.eqb_spec n i); [by rewrite andb_false_r|by rewrite andb_false_r]. }
  assert (Heq : w - 2 ^ n = Z.shiftl k (n + 1)) by lia. rewrite Heq. split; [|done].
  apply Z.bits_inj'. intros i Hi. rewrite Z.land_spec, Hsub by lia.
  replace (w - 1) with (Z.shiftl k (n + 1) + Z.ones n) by (rewrite Z.ones_equiv; lia).
  rewrite <- lor_disjoint_add.
  - rewrite Z.lor_spec, Hsub by lia. destruct (Z.testbit w i) eqn:Hi'; [|done]. cbn.
    destruct (Z.eqb_spec i n) as [->|]; cbn; [|done]. rewrite Z.ones_spec_high by lia. done.
  - apply Z.bits_inj'. intros j Hj. rewrite Z.land_spec, Hsub, Z.bits_0 by lia.
    destruct (Z.ltb_spec j n).
    + by rewrite Hl by lia.
    + rewrite Z.ones_spec_high by lia. by rewrite andb_false_r.
Qed.

(** The pages of [lo, lo+n) that satisfy [P], in order. *)
Definition pages_where (P : Z -> bool) (lo n : Z) : list Z := List.filter P (seqZ lo n).

Lemma pages_where_app P lo n m : 0 <= n -> 0 <= m ->
  pages_where P lo (n + m) = pages_where P lo n ++ pages_where P (lo + n) m.
Proof. intros. unfold pages_where. by rewrite seqZ_app, List.filter_app. Qed.

Lemma pages_where_none P lo n : (forall p, lo <= p < lo + n -> P p = false) -> pages_where P lo n = [].
Proof.
  intros Hp. unfold pages_where. destruct (List.filter P (seqZ lo n)) as [|p l] eqn:E; [done|].
  assert (Hin : In p (List.filter P (seqZ lo n))) by (rewrite E; by left).
  apply List.filter_In in Hin as [Hin Ht]. apply list_elem_of_In, elem_of_seqZ in Hin.
  by rewrite Hp in Ht.
Qed.

Lemma pages_where_ext P Q lo n : (forall p, lo <= p < lo + n -> P p = Q p) ->
  pages_where P lo n = pages_where Q lo n.
Proof.
  intros Hp. unfold pages_where. apply List.filter_ext_in. intros p Hin. apply Hp.
  apply list_elem_of_In, elem_of_seqZ in Hin. lia.
Qed.

Definition in_word (pc wi w p : Z) : bool := (p <? pc) && Z.testbit w (p - wi * 64).

Lemma word_pages_spec pc wi rounds : forall n w pages,
  0 <= wi -> wi * 64 + 64 <= 2 ^ 64 -> word_ok w -> 0 <= n <= 64 -> low_clear n w ->
  64 - n <= Z.of_nat rounds ->
  word_pages rounds pc wi w pages = Ok (pages ++ pages_where (in_word pc wi w) (wi * 64 + n) (64 - n)).
Proof.
  induction rounds as [|rounds IH]; intros n w pages Hwi Hmax Hw Hn Hl Hr; cbn [word_pages];
    destruct (Z.eqb_spec w 0) as [->|Hne].
  1,3: rewrite pages_where_none, app_nil_r; [done|]; intros p _; unfold in_word;
    by rewrite Z.bits_0, andb_false_r.
  - exfalso. apply Hne. apply Z.bits_inj'. intros i Hi. rewrite Z.bits_0.
    destruct (Z.ltb_spec i n); [by apply Hl|]. apply (testbit_small w 64); unfold word_ok in *; lia.
  - destruct (ctz_spec 64 w) as (Hc & Hb & Hlow); [unfold word_ok in *; cbn; lia|].
    change (Z.of_nat 64) with 64 in Hc. set (c := ctz 64 w) in *.
    assert (Hnc : n <= c).
    { destruct (Z.leb_spec n c); [done|]. rewrite (Hl c) in Hb by lia. done. }
    destruct (clear_lowest w c Hw ltac:(lia) Hb Hlow) as (Heq & Hbits). rewrite Heq.
    assert (Hw' : word_ok (w - 2 ^ c)).
    { rewrite <- Heq. apply land_range; [lia|]. apply u64_range. }
    rewrite (IH (c + 1)); [|done..|lia| |lia].
    2:{ intros i Hi. rewrite Hbits by lia. destruct (Z.eqb_spec i c); [by rewrite andb_false_r|].
        by rewrite Hlow by lia. }
    replace (64 - n) with ((c - n) + (1 + (64 - (c + 1)))) by lia.
    rewrite (pages_where_app _ _ (c - n)), (pages_where_app _ _ 1), (pages_where_none _ _ (c - n)) by
      first [lia|intros p Hp; unfold in_word; rewrite Hlow by lia; by rewrite andb_false_r].
    replace (wi * 64 + n + (c - n)) with (wi * 64 + c) by lia.
    replace (wi * 64 + c + 1) with (wi * 64 + (c + 1)) by lia. cbn [app].
    rewrite (u64_small (wi * 64 + c)) by lia.
    rewrite (pages_where_ext (in_word pc wi (w - 2 ^ c)) (in_word pc wi w)).
    2:{ intros p Hp. unfold in_word. rewrite Hbits by lia.
        destruct (Z.eqb_spec (p - wi * 64) c); [lia|]. by rewrite andb_true_r. }
    rewrite app_assoc. do 2 f_equal. unfold pages_where. cbn [seqZ seq fmap list_fmap].
    change (seqZ (wi * 64 + c) 1) with [0 + (wi * 64 + c)]. cbn [List.filter]. rewrite Z.add_0_l.
    unfold in_word at 1. replace (wi * 64 + c - wi * 64) with c by lia. rewrite Hb, andb_true_r.
    destruct (wi * 64 + c <? pc); [done|by rewrite app_nil_r].
Qed.

Lemma bitmap_pages_spec pc bitmap : forall wi pages,
  Forall word_ok bitmap -> 0 <= wi -> (wi + Z.of_nat (length bitmap)) * 64 <= 2 ^ 64 ->
  bitmap_pages pc wi bitmap pages =
  Ok (pages ++ pages_where
        (fun p => (p <? pc) && Z.testbit (nth (Z.to_nat (p / 64 - wi)) bitmap 0) (p mod 64))
        (wi * 64) (Z.of_nat (length bitmap) * 64)).
Proof.
  induction bitmap as [|w bitmap IH]; intros wi pages Hok Hwi Hmax; cbn [bitmap_pages].
  { cbn. by rewrite app_nil_r. }
  apply Forall_cons_1 in Hok as [Hw Hok]. cbn [length] in *. rewrite Nat2Z.inj_succ in *.
  rewrite (word_pages_spec pc wi 64 0 w pages) by
    first [done|lia|intros i ?; lia|unfold word_ok in *; lia].
  cbn [mbind outcome_bind]. rewrite IH by first [done|lia].
  rewrite <- app_assoc. do 2 f_equal.
  replace (Z.succ (Z.of_nat (length bitmap)) * 64) with (64 + Z.of_nat (length bitmap) * 64) by lia.
  rewrite pages_where_app by lia. replace (wi * 64 + 64) with ((wi + 1) * 64) by lia.
  rewrite Z.add_0_r, Z.sub_0_r. apply f_equal2; apply pages_where_ext; intros p Hp.
  - assert (Hq : p / 64 = wi) by (symmetry; apply (Z.div_unique _ _ _ (p - wi * 64)); lia).
    rewrite Hq, Z.sub_diag. cbn [Z.to_nat nth]. unfold in_word.
    rewrite Z.mod_eq, Hq by lia. do 2 f_equal. lia.
  - assert (wi + 1 <= p / 64) by (apply Z.div_le_lower_bound; lia).
    replace (Z.to_nat (p / 64 - wi)) with (S (Z.to_nat (p / 64 - (wi + 1)))) by lia. done.
Qed.

(** [GetDirtyPages] in terms of the bitmap KVM returned: the marked pages of RAM in
    ascending order; bits past the last page are ignored. *)
Lemma GetDirtyPages_bitmap sys log bitmap :
  0 <= mem_size sys <= 2 ^ 32 ->
  let pc := mem_size sys / kSnapshotPageSize in
  log (Z.to_nat ((pc + 63) / 64)) = Done bitmap ->
  length bitmap = Z.to_nat ((pc + 63) / 64) -> Forall word_ok bitmap ->
  GetDirtyPages sys log = Ok (pages_where (dirty_bit bitmap) 0 pc).
Proof.
  intros Hsize pc Hlog Hlen Hok. unfold GetDirtyPages. fold pc. rewrite Hlog. cbn [CheckErr mbind outcome_bind].
  assert (Hpc : 0 <= pc <= 2 ^ 20).
  { unfold pc, kSnapshotPageSize. split; [apply Z.div_pos; lia|]. apply Z.div_le_upper_bound; lia. }
  assert (Hw : Z.of_nat (length bitmap) = (pc + 63) / 64) by (rewrite Hlen, Z2Nat.id; [done|]; apply Z.div_pos; lia).
  assert (Hdiv : pc <= (pc + 63) / 64 * 64 /\ (pc + 63) / 64 * 64 <= pc + 63).
  { pose proof (Z.div_mod (pc + 63) 64 ltac:(lia)). pose proof (Z.mod_pos_bound (pc + 63) 64 ltac:(lia)). lia. }
  rewrite bitmap_pages_spec by first [done|lia]. cbn [app]. f_equal. rewrite Hw, Z.mul_0_l.
  replace ((pc + 63) / 64 * 64) with (pc + ((pc + 63) / 64 * 64 - pc)) by lia.
  rewrite pages_where_app, (pages_where_none _ (0 + pc)), app_nil_r by
    first [lia|intros p Hp; destruct (Z.ltb_spec p pc); [lia|done]].
  apply pages_where_ext. intros p Hp. destruct (Z.ltb_spec p pc); [|lia].
  cbn [andb]. unfold dirty_bit. by rewrite Z.sub_0_r.
Qed.

Lemma in_pages_where P lo n p : In p (pages_where P lo n) <-> (lo <= p < lo + n /\ P p = true).
Proof. unfold pages_where. by rewrite List.filter_In, <- list_elem_of_In, elem_of_seqZ. Qed.

(** ** Appending to a file *)

Lemma splice_append c bs : splice c (Z.of_nat (length c)) bs = c ++ bs.
Proof.
  unfold splice. rewrite Nat2Z.id, take_ge, Nat.sub_diag, drop_ge, app_nil_r by lia. done.
Qed.

Lemma load_page_ok m p : ram_ok m -> bytes_ok (load m p kSnapshotPageSize).
Proof. apply load_ok. Qed.

Section Facts.
Context {F H : Type} `{PosixLaws F H}.

Lemma checked_no_fuel {A} (call : F -> sysresult A * F) what f o f' :
  checked call what f = (o, f') -> o <> OutOfFuel.
Proof. unfold checked. destruct (call f) as [[b| |e] f1]; cbn; by intros [= <- <-]. Qed.

(** A descriptor at the end of its file. *)
Definition at_end (fd : H) (f : F) : Prop := offset fd f = Z.of_nat (length (file_at (path_of fd) f)).

(** The state after [bs] was appended to the file of [fd]. *)
Definition appended (fd : H) (bs : list Z) (f f' : F) : Prop :=
  at_end fd f' /\ file_at (path_of fd) f' = file_at (path_of fd) f ++ bs /\
  (forall q, q <> path_of fd -> file_at q f' = file_at q f) /\ (signals f' <= signals f)%nat.

Lemma appended_trans fd b1 b2 f1 f2 f3 :
  appended fd b1 f1 f2 -> appended fd b2 f2 f3 -> appended fd (b1 ++ b2) f1 f3.
Proof.
  intros (_ & Hf1 & Hq1 & Hs1) (He & Hf2 & Hq2 & Hs2). split_and!; [done| | |lia].
  - by rewrite Hf2, Hf1, app_assoc.
  - intros q Hq. by rewrite Hq2, Hq1.
Qed.

Lemma appended_nil fd f : at_end fd f -> appended fd [] f f.
Proof. intros He. split_and!; [done|by rewrite app_nil_r|done|lia]. Qed.

Lemma WriteAll_appends fuel fd src what f o f' :
  bytes_ok src -> (length src + signals f <= fuel)%nat -> at_end fd f ->
  WriteAll fuel fd src what f = (o, f') ->
  o <> OutOfFuel /\ (o = Ok tt -> appended fd src f f').
Proof.
  intros Hby Hfuel He Hrun.
  apply WriteAll_spec in Hrun as (n & (Hq & Hs & Hnf & Hn & Hf & Hok) & Hoff);
    [|done|done|rewrite He, Nat2Z.id; lia].
  split; [done|]. intros Ho. specialize (Hok Ho) as ->. rewrite firstn_all in Hf.
  rewrite He, splice_append in Hf.
  split_and!; [|done|done|done]. unfold at_end. rewrite Hoff, Hf, length_app, He. lia.
Qed.

Lemma open_trunc_end path what f fd f' :
  checked (sys_open path O_WRONLY_CREAT_TRUNC) what f = (Ok fd, f') ->
  path_of fd = path /\ at_end fd f' /\ file_at path f' = [] /\
  (forall q, q <> path -> file_at q f' = file_at q f) /\ (signals f' <= signals f)%nat.
Proof.
  intros Hc%checked_ok%open_trunc. destruct Hc as (Hp & Ho & Hf & Hq & Hs).
  split_and!; [done| |done|done|done]. unfold at_end. by rewrite Hp, Hf, Ho.
Qed.
End Facts.

(** ** The sparse file equals RAM: a page that is skipped reads back as the zeros of the hole *)

Lemma IsZeroPage_replicate bs : IsZeroPage bs = true -> bs = replicate (length bs) 0.
Proof.
  induction bs as [|b bs IH]; [done|]. cbn. destruct (Z.eqb_spec b 0) as [->|]; [|done].
  cbn. intros Hz. by rewrite <- IH.
Qed.

(** The file when the loop is at [off]. *)
Definition sparse_image (src : ram) (off len : Z) : list Z :=
  load src 0 off ++ replicate (Z.to_nat (len - off)) 0.

Lemma sparse_image_full src off len : 0 <= len <= off -> sparse_image src len len = load src 0 len.
Proof. intros. unfold sparse_image. by rewrite Z.sub_diag, app_nil_r. Qed.

Lemma sparse_image_step src off chunk len : 0 <= off -> 0 <= chunk -> off + chunk <= len ->
  splice (sparse_image src off len) off (load src off chunk) = sparse_image src (off + chunk) len.
Proof.
  intros Ho Hc Hl. unfold splice, sparse_image.
  rewrite !length_app, !length_load, length_replicate.
  replace (Z.to_nat off - _)%nat with O by lia. cbn [replicate app].
  rewrite take_app_length' by (by rewrite length_load).
  rewrite drop_app_ge by (rewrite length_load; lia). rewrite length_load, drop_replicate.
  rewrite load_app, <- app_assoc, Z.add_0_l by lia. do 2 f_equal. f_equal. lia.
Qed.

Lemma sparse_image_skip src off chunk len : 0 <= off -> 0 <= chunk -> off + chunk <= len ->
  IsZeroPage (load src off chunk) = true -> sparse_image src (off + chunk) len = sparse_image src off len.
Proof.
  intros Ho Hc Hl Hz%IsZeroPage_replicate. unfold sparse_image.
  rewrite load_app, <- app_assoc, Z.add_0_l, Hz, length_load, <- replicate_add by lia.
  do 2 f_equal. lia.
Qed.

Section Sparse.
Context {F H : Type} `{PosixLaws F H}.

Lemma sparse_loop_spec fuel fd src len rounds : forall off n f o f',
  ram_ok src -> (4096 + signals f <= fuel)%nat -> 0 <= off -> len - off <= Z.of_nat rounds ->
  file_at (path_of fd) f = sparse_image src (Z.min off len) len -> 0 <= len ->
  sparse_loop fuel rounds fd src len off n f = (o, f') ->
  (forall q, q <> path_of fd -> file_at q f' = file_at q f) /\ (signals f' <= signals f)%nat /\
  o <> OutOfFuel /\ (is_ok o = true -> file_at (path_of fd) f' = load src 0 len).
Proof.
  induction rounds as [|rounds IH]; intros off n f o f' Hby Hfuel Ho Hr Hc Hlen; cbn [sparse_loop];
    destruct (Z.ltb_spec off len) as [Hlt|Hge]; try lia.
  1,3: intros [= <- <-]; split_and!; [done|lia|done|]; intros _; rewrite Hc;
    replace (Z.min off len) with len by lia; by apply (sparse_image_full _ off).
  set (chunk := Z.min kSnapshotPageSize (len - off)).
  assert (Hchunk : 0 < chunk <= 4096 /\ off + chunk <= len) by (unfold chunk, kSnapshotPageSize; lia).
  assert (Hnext : Z.min (off + kSnapshotPageSize) len = off + chunk) by (unfold chunk, kSnapshotPageSize; lia).
  replace (Z.min off len) with off in Hc by lia.
  destruct (IsZeroPage (load src off chunk)) eqn:Hz.
  - intros Hrun. apply IH in Hrun; [done|done|lia|unfold kSnapshotPageSize; lia..| |done].
    by rewrite Hnext, Hc, sparse_image_skip by first [lia|done].
  - rewrite bind_run. destruct (PwriteAll fuel fd (load src off chunk) off f) as [o1 f1] eqn:E.
    apply fd_PwriteAll_spec in E as (k & Hq & Hs & Hnf & Hk & Hf & Hok);
      [|by apply load_ok|lia|rewrite length_load; lia|
       rewrite Hc; unfold sparse_image; rewrite length_app, length_load; lia].
    destruct o1 as [[]|e|]; [|intros [= <- <-]; by split_and!|done].
    specialize (Hok eq_refl) as ->. rewrite firstn_all, Hc, sparse_image_step in Hf by lia.
    intros Hrun. apply IH in Hrun as (Hq' & Hs' & Hnf' & Hok');
      [|done|lia|unfold kSnapshotPageSize; lia..|by rewrite Hnext|done].
    split_and!; [|lia|done|done]. intros q Hne. by rewrite Hq', Hq.
Qed.

Lemma WriteSparseMemoryFile_spec fuel path src len f o f' :
  ram_ok src -> (4096 + signals f <= fuel)%nat -> 0 <= len ->
  WriteSparseMemoryFile fuel path src len f = (o, f') ->
  (forall q, q <> path -> file_at q f' = file_at q f) /\ (signals f' <= signals f)%nat /\
  o <> OutOfFuel /\ (is_ok o = true -> file_at path f' = load src 0 len).
Proof.
  intros Hby Hfuel Hlen. unfold WriteSparseMemoryFile, checked. rewrite bind_run.
  destruct (sys_open path O_WRONLY_CREAT_TRUNC f) as [r f1] eqn:E1.
  destruct r as [fd| |e]; cbn [CheckErr].
  2,3: apply open_error in E1 as (Hq & Hs); [|done]; intros [= <- <-]; split_and!; [intros q _; apply Hq|lia|done|done].
  apply open_trunc in E1 as (<- & _ & Hf1 & Hq1 & Hs1). rewrite bind_run.
  destruct (sys_ftruncate fd len f1) as [r f2] eqn:E2.
  destruct r as [[]| |e]; cbn [CheckErr].
  2,3: apply posix_ftruncate_error in E2 as (Hq & Hs); [|done]; intros [= <- <-];
    split_and!; [intros q Hne; by rewrite Hq, Hq1|lia|done|done].
  apply posix_ftruncate in E2 as (Hf2 & Hq2 & Hs2); [|done]. intros Hrun.
  apply sparse_loop_spec in Hrun as (Hq & Hs & Hnf & Hok); [|done|lia|lia|lia| |done].
  - split_and!; [|lia|done|done]. intros q Hne. by rewrite Hq, Hq2, Hq1.
  - rewrite Hf2, Hf1. unfold resize, sparse_image. rewrite take_nil. cbn [app length].
    replace (Z.min 0 len) with 0 by lia. rewrite load_0. cbn. f_equal. lia.
Qed.
End Sparse.

(** ** Applying a delta file *)

(** Entry [i] of a delta file: a page index and the page. *)
Definition entry_offset (i : Z) : Z := dirty_header_size + i * (8 + kSnapshotPageSize).
Definition entry_index (c : list Z) (i : Z) : Z :=
  ReadU64 (take 8 (drop (Z.to_nat (entry_offset i)) c)).
Definition entry_data (c : list Z) (i : Z) : list Z :=
  take 4096 (drop (Z.to_nat (entry_offset i + 8)) c).
Definition store_entry (c : list Z) (m : ram) (i : Z) : ram :=
  store m (entry_index c i * kSnapshotPageSize) (entry_data c i).
Definition entry_ok (c : list Z) (pc i : Z) : Prop :=
  0 <= entry_index c i < pc /\ entry_offset (i + 1) <= Z.of_nat (length c).

Section Apply.
Context {F H : Type} `{PosixLaws F H}.

Lemma read_bytes_spec fuel fd len what f o f' :
  0 <= len -> (Z.to_nat len + signals f <= fuel)%nat ->
  offset fd f <= Z.of_nat (length (file_at (path_of fd) f)) ->
  read_bytes fuel fd len what f = (o, f') ->
  same_files f f' /\ (signals f' <= signals f)%nat /\ o <> OutOfFuel /\
  (forall bs, o = Ok bs ->
     bs = take (Z.to_nat len) (drop (Z.to_nat (offset fd f)) (file_at (path_of fd) f)) /\
     length bs = Z.to_nat len /\ offset fd f' = offset fd f + len /\
     offset fd f + len <= Z.of_nat (length (file_at (path_of fd) f))).
Proof.
  intros Hlen Hfuel Hin. unfold read_bytes. destruct (ReadAll fuel fd len what f) as [[o1 bs] f1] eqn:E.
  apply ReadAll_spec in E as (Hsame & Hs & Hoff & Hnf & Hle & Hbs & Hok); [|done|done].
  intros [= <- <-]. split_and!; [done|done|by destruct o1|].
  intros bs'. destruct o1 as [[]| |]; [|done..]. intros [= <-]. specialize (Hok eq_refl).
  assert (Hl : length bs = Z.to_nat len) by lia.
  rewrite Hl in Hbs. split_and!; [done|done|lia|].
  assert (length bs <= length (file_at (path_of fd) f) - Z.to_nat (offset fd f))%nat
    by (rewrite Hbs, length_take, length_drop; lia).
  pose proof (offset_nonneg fd f). lia.
Qed.

Definition whole_pages (sys : KvmSystem) (a : Z) : Prop :=
  in_range 0 (mem_size sys / kSnapshotPageSize * kSnapshotPageSize) a.

(** What every step of an application keeps. *)
Definition apply_step (f : F) (sys : KvmSystem) (f' : F) (sys' : KvmSystem) : Prop :=
  same_files f f' /\ (signals f' <= signals f)%nat /\
  mem_size sys' = mem_size sys /\ ram_ok (mem sys') /\ only_writes (whole_pages sys) (mem sys) (mem sys').

Lemma apply_step_refl f sys : ram_ok (mem sys) -> apply_step f sys f sys.
Proof. intros Hr. split_and!; [done|lia|done|done|apply only_writes_refl]. Qed.

Lemma apply_step_files f sys f' : same_files f f' -> (signals f' <= signals f)%nat ->
  ram_ok (mem sys) -> apply_step f sys f' sys.
Proof. intros Hf Hs Hr. split_and!; [done|lia|done|done|apply only_writes_refl]. Qed.

Lemma apply_step_trans f1 s1 f2 s2 f3 s3 :
  apply_step f1 s1 f2 s2 -> apply_step f2 s2 f3 s3 -> apply_step f1 s1 f3 s3.
Proof.
  intros (Hf & Hs & Hm & _ & Hw) (Hf' & Hs' & Hm' & Hr' & Hw').
  split_and!; [intros q; by rewrite Hf', Hf|lia|by rewrite Hm'|done|].
  unfold whole_pages in Hw'. rewrite Hm in Hw'. by eapply only_writes_trans.
Qed.

Lemma apply_entry_spec fuel fd header c i f sys o f' sys' :
  file_at (path_of fd) f = c -> page_count header = mem_size sys / kSnapshotPageSize ->
  (4096 + signals f <= fuel)%nat -> ram_ok (mem sys) -> 0 <= i ->
  offset fd f = entry_offset i -> entry_offset i <= Z.of_nat (length c) ->
  apply_entry fuel fd header (f, sys) = (o, (f', sys')) ->
  apply_step f sys f' sys' /\ o <> OutOfFuel /\
  (o = Ok tt -> mem sys' = store_entry c (mem sys) i /\ entry_ok c (page_count header) i /\
     offset fd f' = entry_offset (i + 1)).
Proof.
  intros Hc Hpc Hfuel Hram Hi Hoff Hin. unfold apply_entry. rewrite bind_run. unfold on_fst at 1.
  destruct (read_bytes fuel fd 8 _ f) as [o1 f1] eqn:E1.
  apply read_bytes_spec in E1 as (Hsame1 & Hs1 & Hnf1 & Hok1); [|lia|lia|by rewrite Hc, Hoff].
  pose proof (apply_step_files f sys f1 Hsame1 Hs1 Hram) as Hstep1.
  destruct o1 as [b|e|]; [|by intros [= <- <- <-]|done].
  destruct (Hok1 b eq_refl) as (Hb & Hlb & Hoff1 & Hin1). rewrite Hc, Hoff in Hb.
  assert (Hbok : bytes_ok b) by (rewrite Hb, <- Hc; apply Forall_take, Forall_drop, file_bytes).
  pose proof (ReadU64_range b Hbok ltac:(lia)) as Hr.
  assert (Hbix : ReadU64 b = entry_index c i) by (unfold entry_index; by rewrite Hb).
  rewrite lift_bind, Hbix. rewrite Hbix in Hr. unfold Check.
  destruct (Z.ltb_spec (entry_index c i) (page_count header)) as [Hix|]; [|by intros [= <- <- <-]].
  unfold read_into_ram. destruct (ReadAll fuel fd kSnapshotPageSize _ f1) as [[o2 bs] f2] eqn:E2.
  apply ReadAll_spec in E2 as (Hsame2 & Hs2 & Hoff2 & Hnf2 & Hle & Hbs & Hok2);
    [|unfold kSnapshotPageSize; lia|unfold kSnapshotPageSize; lia].
  rewrite (Hsame1 (path_of fd)), Hoff1, Hoff, Hc in Hbs.
  assert (Hbsok : bytes_ok bs) by (rewrite Hbs, <- Hc; apply Forall_take, Forall_drop, file_bytes).
  intros [= <- <- <-]. split_and!; [|done|].
  - eapply apply_step_trans; [exact Hstep1|]. split_and!; [done|done|done|by apply store_ok|].
    eapply only_writes_weaken; [|apply only_writes_store]. intros a. unfold whole_pages, in_range.
    rewrite Hpc in Hix. unfold kSnapshotPageSize in *. nia.
  - intros Ho. specialize (Hok2 Ho). unfold kSnapshotPageSize in Hok2.
    assert (Hl : length bs = 4096%nat) by lia. rewrite Hl in Hbs.
    split_and!; [|split; [lia|]|unfold entry_offset, kSnapshotPageSize in *; lia].
    + unfold store_entry, entry_data. cbn. by rewrite Hbs.
    + assert (length bs <= length c - Z.to_nat (entry_offset i + 8))%nat
        by (rewrite Hbs, length_take, length_drop; lia).
      unfold entry_offset, dirty_header_size, kSnapshotPageSize in *. lia.
Qed.

Lemma apply_loop_spec fuel fd header c rounds : forall i f sys o f' sys',
  file_at (path_of fd) f = c -> 0 <= i <= dirty_pages header ->
  page_count header = mem_size sys / kSnapshotPageSize ->
  (4096 + signals f <= fuel)%nat -> ram_ok (mem sys) ->
  offset fd f = entry_offset i -> entry_offset i <= Z.of_nat (length c) ->
  Z.of_nat (length c) < entry_offset i + Z.of_nat rounds ->
  apply_loop fuel rounds fd header i (f, sys) = (o, (f', sys')) ->
  apply_step f sys f' sys' /\ o <> OutOfFuel /\
  (o = Ok tt ->
     mem sys' = fold_left (store_entry c) (seqZ i (dirty_pages header - i)) (mem sys) /\
     forall k, i <= k < dirty_pages header -> entry_ok c (page_count header) k).
Proof.
  induction rounds as [|rounds IH]; intros i f sys o f' sys' Hc Hi Hpc Hfuel Hram Hoff Hin Hr;
    [cbn in Hr; lia|]. cbn [apply_loop].
  destruct (Z.ltb_spec i (dirty_pages header)) as [Hlt|Hge].
  2:{ intros [= <- <- <-]. split_and!; [by apply apply_step_refl|done|]. intros _.
      rewrite seqZ_nil by lia. split; [done|lia]. }
  rewrite bind_run. destruct (apply_entry fuel fd header (f, sys)) as [o1 [f1 sys1]] eqn:E1.
  apply (apply_entry_spec _ _ _ c i) in E1 as (Hstep & Hnf & Hok1); [|done..|lia|done|done].
  destruct o1 as [[]|e|]; [|by intros [= <- <- <-]|done].
  destruct (Hok1 eq_refl) as (Hm1 & Hent & Hoff1).
  pose proof Hstep as (Hf1 & Hs1 & Hms1 & Hram1 & _). intros Hrun.
  apply IH in Hrun as (Hstep' & Hnf' & Hok');
    [|by rewrite Hf1|lia|by rewrite Hms1|lia|done|done|apply Hent|
     unfold entry_offset, kSnapshotPageSize in *; lia].
  split_and!; [by eapply apply_step_trans|done|]. intros Ho. destruct (Hok' Ho) as (Hm & Hall). split.
  - rewrite (seqZ_cons i) by lia. cbn [fold_left]. rewrite Hm, Hm1. do 2 f_equal; lia.
  - intros k Hk. destruct (Z.eq_dec k i) as [->|]; [done|apply Hall; lia].
Qed.
End Apply.

(** ** The delta file as it is written *)

Definition dirty_file (pad2 pad4 : list Z) (sys : KvmSystem) (pages : list Z) : list Z :=
  dirty_header_bytes pad2 pad4
    (mkDirtyHeader kDirtySnapshotMagic kDirtySnapshotVersion (u32 kSnapshotPageSize)
      (mem_size sys / kSnapshotPageSize) (Z.of_nat (length pages))) ++
  flat_map (fun page => WriteU64 page ++ load (mem sys) (page * kSnapshotPageSize) kSnapshotPageSize) pages.

Definition pads_ok (pad2 pad4 : list Z) : Prop :=
  bytes_ok pad2 /\ bytes_ok pad4 /\ length pad2 = 2%nat /\ length pad4 = 4%nat.

Section Format.
Variables pad2 pad4 : list Z.
Hypothesis Hpads : pads_ok pad2 pad4.

Lemma dirty_header_length h : length (magic h) = 18%nat -> length (dirty_header_bytes pad2 pad4 h) = 48%nat.
Proof.
  destruct Hpads as (_ & _ & H2 & H4). intros Hm. unfold dirty_header_bytes.
  by rewrite !length_app, Hm, H2, H4, !length_WriteU32, !length_WriteU64.
Qed.

Lemma drop_app_at {A} (n k : nat) (l1 l2 : list A) : length l1 = k -> (k <= n)%nat ->
  drop n (l1 ++ l2) = drop (n - k) l2.
Proof. intros <- Hn. by rewrite drop_app_ge. Qed.

Lemma Read_app (n : nat) p q : length p = n -> n = 4%nat -> ReadU32 (p ++ q) = ReadU32 p.
Proof.
  intros Hl ->. destruct p as [|a [|b [|c [|d [|]]]]]; cbn in Hl; try lia. done.
Qed.
Lemma Read64_app p q : length p = 8%nat -> ReadU64 (p ++ q) = ReadU64 p.
Proof.
  intros Hl. do 9 (destruct p as [|? p]; cbn in Hl; try lia). done.
Qed.

(** Reading the header back gives its fields at their width. *)
Lemma dirty_header_roundtrip h rest : length (magic h) = 18%nat ->
  dirty_header_of (dirty_header_bytes pad2 pad4 h ++ rest) =
  mkDirtyHeader (magic h) (u32 (version h)) (u32 (page_size h)) (u64 (page_count h)) (u64 (dirty_pages h)).
Proof.
  destruct Hpads as (_ & _ & H2 & H4). intros Hm. unfold dirty_header_of, dirty_header_bytes.
  rewrite <- !app_assoc.
  rewrite take_app_length' by done.
  rewrite !(drop_app_at _ 18 (magic h)) by first [done|lia].
  rewrite !(drop_app_at _ 2 pad2) by first [done|lia]. cbn [Nat.sub].
  rewrite drop_0, !(drop_app_at _ 4 (WriteU32 (version h))) by first [apply length_WriteU32|lia]. cbn [Nat.sub].
  rewrite drop_0, !(drop_app_at _ 4 (WriteU32 (page_size h))) by first [apply length_WriteU32|lia]. cbn [Nat.sub].
  rewrite !(drop_app_at _ 4 pad4) by first [done|lia]. cbn [Nat.sub].
  rewrite drop_0, (drop_app_at _ 8 (WriteU64 (page_count h))) by first [apply length_WriteU64|lia]. cbn [Nat.sub].
  rewrite drop_0, !(Read_app 4), !Read64_app by first [apply length_WriteU32|apply length_WriteU64|done].
  by rewrite !ReadU32_WriteU32, !ReadU64_WriteU64.
Qed.

Lemma drop_flat_map {A B} (g : A -> list B) (k : nat) (l : list A) (n : nat) :
  (forall x, length (g x) = k) -> drop (n * k) (flat_map g l) = flat_map g (drop n l).
Proof.
  intros Hg. revert l. induction n as [|n IH]; intros l; [done|].
  destruct l as [|x l]; [cbn; by rewrite drop_nil|]. cbn [flat_map].
  rewrite (drop_app_at _ k) by first [apply Hg|lia].
  replace (S n * k - k)%nat with (n * k)%nat by lia. by rewrite IH.
Qed.

(** The entries of the written file. *)
Lemma dirty_file_entry sys pages i page :
  0 <= i -> pages !! Z.to_nat i = Some page -> 0 <= page < 2 ^ 64 ->
  entry_index (dirty_file pad2 pad4 sys pages) i = page /\
  entry_data (dirty_file pad2 pad4 sys pages) i = load (mem sys) (page * kSnapshotPageSize) kSnapshotPageSize.
Proof.
  intros Hi Hp Hr. unfold entry_index, entry_data, dirty_file, entry_offset, dirty_header_size, kSnapshotPageSize.
  set (g := fun page => _). set (hd := dirty_header_bytes _ _ _).
  assert (Hh : length hd = 48%nat) by (by apply dirty_header_length).
  assert (Hg : forall x, length (g x) = 4104%nat)
    by (intros x; unfold g; by rewrite length_app, length_WriteU64, length_load).
  assert (Hd : drop (Z.to_nat (48 + i * (8 + 4096))) (hd ++ flat_map g pages) =
               g page ++ flat_map g (drop (S (Z.to_nat i)) pages)).
  { rewrite (drop_app_at _ 48) by first [done|lia].
    replace (Z.to_nat (48 + i * (8 + 4096)) - 48)%nat with (Z.to_nat i * 4104)%nat by lia.
    rewrite drop_flat_map by done. by rewrite (drop_S _ page) by done. }
  replace (Z.to_nat (48 + i * (8 + 4096) + 8)) with (Z.to_nat (48 + i * (8 + 4096)) + 8)%nat by lia.
  rewrite <- drop_drop, Hd. unfold g. rewrite <- !app_assoc. split.
  - rewrite take_app_length' by (symmetry; apply length_WriteU64). rewrite ReadU64_WriteU64. by apply u64_small.
  - rewrite drop_app_length' by (symmetry; apply length_WriteU64). by rewrite take_app_length' by (by rewrite length_load).
Qed.
End Format.

Section Dirty.
Context {F H : Type} `{PosixLaws F H}.
Variables (fuel : nat) (pad2 pad4 : list Z).
Hypothesis Hpads : pads_ok pad2 pad4.

Lemma for_each_appends {X} (fd : H) (m : X -> M F unit) (g : X -> list Z) (P : X -> Prop) l : forall f o f',
  (forall x f o f', P x -> at_end fd f -> (4096 + signals f <= fuel)%nat -> m x f = (o, f') ->
     o <> OutOfFuel /\ (o = Ok tt -> appended fd (g x) f f')) ->
  Forall P l -> at_end fd f -> (4096 + signals f <= fuel)%nat -> for_each m l f = (o, f') ->
  o <> OutOfFuel /\ (o = Ok tt -> appended fd (flat_map g l) f f').
Proof.
  induction l as [|x l IH]; intros f o f' Hm Hl He Hfuel; cbn [for_each flat_map].
  { intros [= <- <-]. split; [done|]. intros _. by apply appended_nil. }
  apply Forall_cons_1 in Hl as [Hx Hl]. rewrite bind_run. destruct (m x f) as [o1 f1] eqn:E.
  apply Hm in E as (Hnf & Hok); [|done..].
  destruct o1 as [[]|e|]; [|by intros [= <- <-]|done]. specialize (Hok eq_refl).
  pose proof Hok as (He1 & _ & _ & Hs1). intros Hrun. apply IH in Hrun as (Hnf' & Hok'); [|done|done|done|lia].
  split; [done|]. intros Ho. by eapply appended_trans; [|apply Hok'].
Qed.

Lemma two_writes_append fd b1 b2 w1 w2 f o f' :
  bytes_ok b1 -> bytes_ok b2 -> (length b1 <= 4096)%nat -> (length b2 <= 4096)%nat ->
  at_end fd f -> (4096 + signals f <= fuel)%nat ->
  (WriteAll fuel fd b1 w1 ≫= fun _ => WriteAll fuel fd b2 w2) f = (o, f') ->
  o <> OutOfFuel /\ (o = Ok tt -> appended fd (b1 ++ b2) f f').
Proof.
  intros Hb1 Hb2 Hl1 Hl2 He Hfuel. rewrite bind_run.
  destruct (WriteAll fuel fd b1 w1 f) as [o1 f1] eqn:E.
  apply WriteAll_appends in E as (Hnf & Hok); [|done|lia|done].
  destruct o1 as [[]|e|]; [|by intros [= <- <-]|done]. specialize (Hok eq_refl).
  pose proof Hok as (He1 & _ & _ & Hs1). intros Hrun.
  apply WriteAll_appends in Hrun as (Hnf' & Hok'); [|done|lia|done].
  split; [done|]. intros Ho. by eapply appended_trans; [|apply Hok'].
Qed.

Lemma kDirtySnapshotMagic_facts : length kDirtySnapshotMagic = 18%nat /\ bytes_ok kDirtySnapshotMagic.
Proof. split; [reflexivity|]. apply bytes_okb_ok. reflexivity. Qed.

(** A page number of this guest. *)
Definition page_in (sys : KvmSystem) (page : Z) : Prop := 0 <= page < mem_size sys / kSnapshotPageSize.

Lemma page_in_u64 sys page : 0 <= mem_size sys <= 2 ^ 32 -> page_in sys page ->
  0 <= page < 2 ^ 64 /\ u64 (page * kSnapshotPageSize) = page * kSnapshotPageSize /\
  page * kSnapshotPageSize + kSnapshotPageSize <= mem_size sys.
Proof.
  intros Hs [Hlo Hhi]. unfold kSnapshotPageSize in *.
  pose proof (Z.mul_div_le (mem_size sys) 4096 ltac:(lia)).
  split_and!; [lia|lia| |lia]. apply u64_small. lia.
Qed.

Lemma WriteDirtySnapshotFile_spec path sys pages f o f' :
  0 <= mem_size sys <= 2 ^ 32 -> ram_ok (mem sys) -> Forall (page_in sys) pages ->
  (4096 + signals f <= fuel)%nat ->
  WriteDirtySnapshotFile fuel pad2 pad4 path sys pages f = (o, f') ->
  o <> OutOfFuel /\
  (o = Ok tt -> file_at path f' = dirty_file pad2 pad4 sys pages /\
     (forall q, q <> path -> file_at q f' = file_at q f) /\ (signals f' <= signals f)%nat).
Proof.
  intros Hsize Hram Hpages Hfuel. unfold WriteDirtySnapshotFile. rewrite bind_run.
  destruct (checked _ _ f) as [o1 f1] eqn:E1.
  destruct o1 as [fd|e|]; [|by intros [= <- <-]|by apply checked_no_fuel in E1].
  apply open_trunc_end in E1 as (<- & He & Hf1 & Hq1 & Hs1).
  set (hd := dirty_header_bytes _ _ _). rewrite bind_run.
  destruct (WriteAll fuel fd hd _ f1) as [o2 f2] eqn:E2.
  assert (Hhd : length hd = 48%nat) by (by apply dirty_header_length).
  assert (Hhb : bytes_ok hd).
  { destruct Hpads as (Hp2 & Hp4 & _). unfold hd, dirty_header_bytes, bytes_ok.
    repeat first [apply kDirtySnapshotMagic_facts|apply WriteU32_ok|apply WriteU64_ok|done|apply Forall_app_2]. }
  apply WriteAll_appends in E2 as (Hnf & Hok); [|done|lia|done].
  destruct o2 as [[]|e|]; [|by intros [= <- <-]|done]. specialize (Hok eq_refl).
  pose proof Hok as (He2 & _ & _ & Hs2). intros Hrun.
  apply (for_each_appends fd _
    (fun page => WriteU64 page ++ load (mem sys) (page * kSnapshotPageSize) kSnapshotPageSize)
    (page_in sys)) in Hrun as (Hnf' & Hok'); [|clear -Hsize Hram|done|done|lia].
  - split; [done|]. intros Ho. destruct (appended_trans _ _ _ _ _ _ Hok (Hok' Ho)) as (_ & Hf & Hq & Hs).
    rewrite Hf1 in Hf. split_and!; [exact Hf| |lia]. intros q Hne. by rewrite Hq, Hq1.
  - intros page f o f' Hp He Hfuel Hrun. destruct (page_in_u64 _ _ Hsize Hp) as (_ & Hu & _).
    cbv zeta in Hrun. rewrite Hu in Hrun.
    apply two_writes_append in Hrun; [done|apply WriteU64_ok|by apply load_ok| | |done|done].
    + rewrite length_WriteU64. lia.
    + by rewrite length_load.
Qed.

(** ** ApplyDirtySnapshotFile on any file *)

(** The checks on the header of a delta file of content [c]. *)
Definition header_valid (c : list Z) (sys : KvmSystem) : Prop :=
  let h := dirty_header_of (take 48 c) in
  (48 <= length c)%nat /\ magic h = kDirtySnapshotMagic /\ version h = kDirtySnapshotVersion /\
  page_size h = kSnapshotPageSize /\ page_count h = mem_size sys / kSnapshotPageSize.

Lemma apply_file_spec rounds path f sys o f' sys' :
  let c := file_at path f in
  let n := dirty_pages (dirty_header_of (take 48 c)) in
  ram_ok (mem sys) -> (4096 + signals f <= fuel)%nat -> (length c < rounds)%nat ->
  ApplyDirtySnapshotFile fuel rounds path (f, sys) = (o, (f', sys')) ->
  apply_step f sys f' sys' /\ o <> OutOfFuel /\
  (forall k, o = Ok k ->
     k = n /\ header_valid c sys /\
     mem sys' = fold_left (store_entry c) (seqZ 0 n) (mem sys) /\
     forall i, 0 <= i < n -> entry_ok c (mem_size sys / kSnapshotPageSize) i).
Proof.
  intros c n Hram Hfuel Hrounds. unfold ApplyDirtySnapshotFile. rewrite bind_run. unfold on_fst at 1, checked.
  destruct (sys_open path O_RDONLY f) as [r f1] eqn:E1.
  destruct r as [fd| |e]; cbn [CheckErr].
  2,3: apply open_error in E1 as (Hq & Hs); [|done]; intros [= <- <- <-];
    by split_and!; [apply apply_step_files|..].
  apply open_read in E1 as (<- & Ho1 & Hf1 & Hs1). rewrite bind_run. unfold on_fst at 1.
  assert (Hc1 : file_at (path_of fd) f1 = c) by apply Hf1.
  destruct (read_bytes fuel fd dirty_header_size _ f1) as [o2 f2] eqn:E2.
  apply read_bytes_spec in E2 as (Hsame & Hs2 & Hnf2 & Hok2);
    [|unfold dirty_header_size; lia|unfold dirty_header_size; lia|rewrite Ho1; lia].
  assert (Hstep : apply_step f sys f2 sys).
  { apply apply_step_files; [intros q; by rewrite Hsame, Hf1|lia|done]. }
  destruct o2 as [b|e|]; [|by intros [= <- <- <-]|done].
  destruct (Hok2 b eq_refl) as (Hb & Hlb & Ho2 & Hin). rewrite Hc1, Ho1 in *.
  change (drop (Z.to_nat 0) c) with c in Hb. change (Z.to_nat dirty_header_size) with 48%nat in Hb.
  subst b. rewrite gets_bind. cbn [snd].
  assert (Hn : 0 <= n).
  { apply ReadU64_range; [apply Forall_drop, Forall_take, file_bytes|].
    rewrite length_drop, length_take. unfold dirty_header_size in Hin. lia. }
  unfold header_valid. subst n. remember (dirty_header_of (take 48 c)) as h eqn:Hh. clear Hh. cbv zeta.
  do 4 (rewrite lift_bind; unfold Check at 1).
  unfold same_bytes. case_bool_decide as Hmagic; [|by intros [= <- <- <-]].
  destruct (Z.eqb_spec (version h) kDirtySnapshotVersion) as [Hver|]; [|by intros [= <- <- <-]].
  destruct (Z.eqb_spec (page_size h) kSnapshotPageSize) as [Hps|]; [|by intros [= <- <- <-]].
  destruct (Z.eqb_spec (page_count h) (mem_size sys / kSnapshotPageSize)) as [Hpc|]; [|by intros [= <- <- <-]].
  rewrite bind_run. destruct (apply_loop fuel rounds fd h 0 (f2, sys)) as [o3 [f3 sys3]] eqn:E3.
  apply (apply_loop_spec _ _ _ c) in E3 as (Hstep3 & Hnf3 & Hok3);
    [|by rewrite Hsame|lia|done|lia|done|rewrite Ho2; done|exact Hin|unfold entry_offset, dirty_header_size; lia].
  assert (Hstep' : apply_step f sys f3 sys3) by (by eapply apply_step_trans).
  destruct o3 as [[]|e|]; [|by intros [= <- <- <-]|done].
  intros [= <- <- <-]. split_and!; [done|done|]. intros k [= <-].
  destruct (Hok3 eq_refl) as (Hm & Hall). rewrite Z.sub_0_r in Hm. rewrite <- Hpc.
  split_and!; try done. unfold dirty_header_size in Hin. lia.
Qed.
End Dirty.

(** ** The incremental snapshot *)

Lemma JoinPath_inj dir a b : JoinPath dir a = JoinPath dir b -> a = b.
Proof.
  unfold JoinPath. destruct ((dir =? "")%string || (dir =? "/")%string); intros Heq;
    apply (inj (String.append dir)) in Heq; [done|]. by injection Heq.
Qed.

(** Storing pages of one RAM into another. *)
Definition copy_pages (src : ram) (pages : list Z) (m : ram) : ram :=
  fold_left (fun m page =>
    store m (page * kSnapshotPageSize) (load src (page * kSnapshotPageSize) kSnapshotPageSize)) pages m.

Lemma copy_pages_at src pages : forall m a,
  copy_pages src pages m a = if existsb (Z.eqb (a / kSnapshotPageSize)) pages then src a else m a.
Proof.
  induction pages as [|p pages IH]; intros m a; [done|]. unfold copy_pages in *. cbn [fold_left existsb].
  rewrite IH. destruct (existsb _ pages); [by rewrite orb_true_r|]. rewrite orb_false_r.
  unfold kSnapshotPageSize. pose proof (Z.div_mod a 4096 ltac:(lia)).
  pose proof (Z.mod_pos_bound a 4096 ltac:(lia)).
  destruct (Z.eqb_spec (a / 4096) p) as [<-|Hne].
  - set (lo := a / 4096 * 4096). replace a with (lo + a mod 4096) by lia.
    rewrite store_in by (rewrite length_load; lia).
    rewrite nth_lookup, lookup_load, decide_True by lia. cbn. f_equal. lia.
  - apply store_out. unfold in_range. rewrite length_load. nia.
Qed.

(** Applying the written delta copies its pages. *)
Lemma fold_entries_copy src c pages : forall i m,
  (forall k p, pages !! k = Some p ->
     entry_index c (i + Z.of_nat k) = p /\
     entry_data c (i + Z.of_nat k) = load src (p * kSnapshotPageSize) kSnapshotPageSize) ->
  fold_left (store_entry c) (seqZ i (Z.of_nat (length pages))) m = copy_pages src pages m.
Proof.
  induction pages as [|p pages IH]; intros i m Hc; [done|].
  cbn [length]. rewrite Nat2Z.inj_succ, seqZ_cons by lia. unfold copy_pages. cbn [fold_left].
  rewrite Z.pred_succ, IH.
  - unfold copy_pages, store_entry. f_equal.
    destruct (Hc 0%nat p eq_refl) as [Hi Hd]. cbn in Hi, Hd. rewrite Z.add_0_r in Hi, Hd. by rewrite Hi, Hd.
  - intros k q Hk. replace (Z.succ i + Z.of_nat k) with (i + Z.of_nat (S k)) by lia. by apply Hc.
Qed.

Lemma apply_dirty_file pad2 pad4 sys pages m :
  pads_ok pad2 pad4 -> 0 <= mem_size sys <= 2 ^ 32 -> Forall (page_in sys) pages ->
  fold_left (store_entry (dirty_file pad2 pad4 sys pages)) (seqZ 0 (Z.of_nat (length pages))) m =
  copy_pages (mem sys) pages m.
Proof.
  intros Hpads Hsize Hpages. apply fold_entries_copy. intros k p Hk.
  apply dirty_file_entry; [done|lia|by rewrite Z.add_0_l, Nat2Z.id|].
  apply (Forall_lookup_1 _ _ _ _ Hpages) in Hk. apply (page_in_u64 _ _ Hsize Hk).
Qed.

(** The count a reader finds in the written header. *)
Lemma dirty_file_count pad2 pad4 sys pages :
  pads_ok pad2 pad4 -> 0 <= mem_size sys <= 2 ^ 32 -> Z.of_nat (length pages) <= 2 ^ 20 ->
  dirty_pages (dirty_header_of (take 48 (dirty_file pad2 pad4 sys pages))) = Z.of_nat (length pages).
Proof.
  intros Hpads Hsize Hlen. unfold dirty_file.
  rewrite take_app_length' by (symmetry; by apply dirty_header_length).
  rewrite <- (app_nil_r (dirty_header_bytes _ _ _)), dirty_header_roundtrip by done. cbn [dirty_pages].
  apply u64_small. lia.
Qed.

Lemma length_pages_where P lo n : 0 <= n -> Z.of_nat (length (pages_where P lo n)) <= n.
Proof.
  intros Hn. pose proof (List.filter_length_le P (seqZ lo n)) as Hl. rewrite length_seqZ in Hl. unfold pages_where. lia.
Qed.

Section Roundtrip.
Context {F H : Type} `{PosixLaws F H}.
Variables (fuel rounds : nat) (vcpu_state_size : Z) (pad2 pad4 : list Z).
Hypothesis Hpads : pads_ok pad2 pad4.
Hypothesis Hvcpu : 0 <= vcpu_state_size <= 4096.

Lemma MapSnapshotRam_spec mem_mib path f o f' :
  MapSnapshotRam mem_mib path f = (o, f') ->
  same_files f f' /\ (signals f' <= signals f)%nat /\ o <> OutOfFuel /\
  (forall sys, o = Ok sys -> mem_size sys = mem_mib * 1024 * 1024 /\ ram_ok (mem sys) /\
     0 < mem_size sys <= 2 ^ 32 /\ load (mem sys) 0 (mem_size sys) = file_at path f).
Proof.
  unfold MapSnapshotRam. rewrite lift_bind. unfold Check at 1. set (bytes := mem_mib * 1024 * 1024).
  destruct (Z.ltb_spec 0 bytes), (Z.leb_spec bytes (Z.shiftl 1 32)) as [Hb|]; cbn [andb];
    try (intros [= <- <-]; split_and!; [done|lia|done|done]).
  change (Z.shiftl 1 32) with (2 ^ 32) in Hb. rewrite bind_run.
  unfold checked. destruct (sys_open path O_RDONLY f) as [r f1] eqn:E1.
  destruct r as [fd| |e]; cbn [CheckErr].
  2,3: apply open_error in E1 as (Hq & Hs); [|done]; intros [= <- <-]; by split_and!.
  apply open_read in E1 as (<- & _ & Hf1 & Hs1). rewrite bind_run.
  destruct (sys_fstat fd f1) as [r f2] eqn:E2. apply posix_fstat in E2 as (_ & Hf2 & Hs2 & Hsz).
  assert (Hf : same_files f f2) by (intros q; by rewrite Hf2, Hf1).
  destruct r as [size| |e]; cbn [CheckErr]; [|intros [= <- <-]; split_and!; [done|lia|done..]|
    intros [= <- <-]; split_and!; [done|lia|done..]].
  specialize (Hsz size eq_refl). rewrite lift_bind. unfold Check at 1.
  destruct (Z.eqb_spec size bytes) as [Heq|]; [|intros [= <- <-]; split_and!; [done|lia|done..]].
  rewrite bind_run. destruct (sys_mmap fd bytes f2) as [r f3] eqn:E3.
  apply posix_mmap in E3 as (Hf3 & Hs3 & Hm).
  assert (Hf' : same_files f f3) by (intros q; by rewrite Hf3, Hf).
  destruct r as [m| |e]; cbn [CheckErr]; intros [= <- <-]; split_and!; try done; try lia.
  intros sys [= <-]. destruct (Hm m eq_refl) as (Hok & Hl). cbn [mem mem_size].
  split_and!; [done|done|lia|lia|]. rewrite Hl by (rewrite Hf2; lia).
  rewrite Hf2, Hf1, take_ge; [done|]. rewrite <- Hf1. lia.
Qed.

Lemma WriteVcpuStateFile_spec path state f o f' :
  bytes_ok state -> (length state + signals f <= fuel)%nat ->
  WriteVcpuStateFile fuel path state f = (o, f') ->
  o <> OutOfFuel /\
  (o = Ok tt -> file_at path f' = state /\ (forall q, q <> path -> file_at q f' = file_at q f) /\
     (signals f' <= signals f)%nat).
Proof.
  intros Hby Hfuel. unfold WriteVcpuStateFile. rewrite bind_run.
  destruct (checked _ _ f) as [o1 f1] eqn:E1.
  destruct o1 as [fd|e|]; [|by intros [= <- <-]|by apply checked_no_fuel in E1].
  apply open_trunc_end in E1 as (<- & He & Hf1 & Hq1 & Hs1). intros Hrun.
  apply WriteAll_appends in Hrun as (Hnf & Hok); [|done|lia|done]. split; [done|].
  intros Ho. destruct (Hok Ho) as (_ & Hf & Hq & Hs). rewrite Hf, Hf1.
  split_and!; [done| |lia]. intros q Hne. by rewrite Hq, Hq1.
Qed.

Lemma ReadVcpuStateFile_spec path f o f' :
  (4096 + signals f <= fuel)%nat -> ReadVcpuStateFile fuel vcpu_state_size path f = (o, f') ->
  o <> OutOfFuel /\
  (forall state, o = Ok state ->
     state = take (Z.to_nat vcpu_state_size) (file_at path f) /\ length state = Z.to_nat vcpu_state_size).
Proof.
  intros Hfuel. unfold ReadVcpuStateFile. rewrite bind_run.
  destruct (checked _ _ f) as [o1 f1] eqn:E1.
  destruct o1 as [fd|e|]; [|by intros [= <- <-]|by apply checked_no_fuel in E1].
  apply checked_ok, open_read in E1 as (<- & Ho1 & Hf1 & Hs1). intros Hrun.
  apply read_bytes_spec in Hrun as (_ & _ & Hnf & Hok); [|lia|lia|rewrite Ho1; lia].
  split; [done|]. intros state Ho. destruct (Hok state Ho) as (-> & Hl & _).
  split; [|done]. by rewrite Ho1, Hf1.
Qed.

(** Every page the two RAMs differ in is marked in KVM's bitmap. *)
Definition log_covers (sys0 sys1 : KvmSystem) (bitmap : list Z) : Prop :=
  forall a, 0 <= a < mem_size sys0 -> dirty_bit bitmap (a / kSnapshotPageSize) = false ->
    mem sys1 a = mem sys0 a.

(** KVM_GET_DIRTY_LOG fills the bitmap it is given. *)
Definition log_returns (sys : KvmSystem) (dirty_log : nat -> sysresult (list Z)) (bitmap : list Z) : Prop :=
  let words := Z.to_nat ((mem_size sys / kSnapshotPageSize + 63) / 64) in
  dirty_log words = Done bitmap /\ length bitmap = words /\ Forall word_ok bitmap.

Lemma restored_ram sys0 sys1 bitmap m a :
  mem_size sys1 = mem_size sys0 -> log_covers sys0 sys1 bitmap ->
  0 <= a < mem_size sys0 -> (kSnapshotPageSize | mem_size sys0) -> m a = mem sys0 a ->
  copy_pages (mem sys1) (pages_where (dirty_bit bitmap) 0 (mem_size sys1 / kSnapshotPageSize)) m a = mem sys1 a.
Proof.
  intros Hms Hcov Ha Hdiv Hm. rewrite copy_pages_at, Hms.
  set (pg := a / kSnapshotPageSize).
  assert (Hpg : 0 <= pg < mem_size sys0 / kSnapshotPageSize).
  { unfold pg. split; [apply Z.div_pos; unfold kSnapshotPageSize; lia|].
    apply Z.div_lt_upper_bound; [unfold kSnapshotPageSize; lia|].
    rewrite <- Z.divide_div_mul_exact, Z.mul_comm, Z.div_mul by (unfold kSnapshotPageSize in *; first [lia|done]). lia. }
  destruct (existsb _ _) eqn:E; [done|]. rewrite Hm. symmetry. apply Hcov; [done|]. fold pg.
  destruct (dirty_bit bitmap pg) eqn:Hbit; [|done]. exfalso.
  apply not_true_iff_false in E. apply E, existsb_exists. exists pg.
  split; [apply in_pages_where; split; [lia|done]|apply Z.eqb_refl].
Qed.

Lemma pages_of_log_in sys bitmap :
  Forall (page_in sys) (pages_where (dirty_bit bitmap) 0 (mem_size sys / kSnapshotPageSize)).
Proof. apply List.Forall_forall. intros p Hp%in_pages_where. unfold page_in. lia. Qed.

(** After [SaveDirty] returned, what its files hold. *)
Lemma SaveDirty_spec dir sys state log bitmap f o f' :
  0 <= mem_size sys <= 2 ^ 32 -> ram_ok (mem sys) -> bytes_ok state -> length state = Z.to_nat vcpu_state_size ->
  log_returns sys log bitmap -> (4096 + signals f <= fuel)%nat ->
  SaveDirty fuel pad2 pad4 dir sys state log f = (o, f') ->
  let pages := pages_where (dirty_bit bitmap) 0 (mem_size sys / kSnapshotPageSize) in
  o <> OutOfFuel /\
  (forall n, o = Ok n -> n = Z.of_nat (length pages) /\
     file_at (delta_ram dir) f' = dirty_file pad2 pad4 sys pages /\
     file_at (dirty_state_path dir) f' = state /\
     file_at (base_ram dir) f' = file_at (base_ram dir) f /\ (signals f' <= signals f)%nat).
Proof.
  intros Hsize Hram Hst Hlen (Hlog & Hbl & Hbw) Hfuel. unfold SaveDirty.
  rewrite lift_bind, (GetDirtyPages_bitmap _ _ bitmap) by done. cbv zeta.
  set (pages := pages_where _ _ _).
  assert (Hd1 : delta_ram dir <> dirty_state_path dir) by (intros Heq; by apply JoinPath_inj in Heq).
  assert (Hd2 : base_ram dir <> dirty_state_path dir) by (intros Heq; by apply JoinPath_inj in Heq).
  assert (Hd3 : base_ram dir <> delta_ram dir) by (intros Heq; by apply JoinPath_inj in Heq).
  rewrite bind_run. destruct (WriteVcpuStateFile _ _ _ f) as [o1 f1] eqn:E1.
  apply WriteVcpuStateFile_spec in E1 as (Hnf1 & Hok1); [|done|lia].
  destruct o1 as [[]|e|]; [|by intros [= <- <-]|done]. destruct (Hok1 eq_refl) as (Hf1 & Hq1 & Hs1).
  rewrite bind_run. destruct (WriteDirtySnapshotFile _ _ _ _ _ _ f1) as [o2 f2] eqn:E2.
  apply WriteDirtySnapshotFile_spec in E2 as (Hnf2 & Hok2); [|done|done|done|apply pages_of_log_in|lia].
  destruct o2 as [[]|e|]; [|by intros [= <- <-]|done]. destruct (Hok2 eq_refl) as (Hf2 & Hq2 & Hs2).
  intros [= <- <-]. split; [done|]. intros n [= <-].
  split_and!; [done|done|by rewrite Hq2|by rewrite Hq2, Hq1|lia].
Qed.

(** The restore, from what the three files hold. *)
Lemma RestoreDirty_spec dir mem_mib sys0 sys1 state bitmap f o f' :
  let pages := pages_where (dirty_bit bitmap) 0 (mem_size sys1 / kSnapshotPageSize) in
  mem_size sys0 = mem_mib * 1024 * 1024 -> mem_size sys1 = mem_size sys0 ->
  length state = Z.to_nat vcpu_state_size -> log_covers sys0 sys1 bitmap ->
  (4096 + signals f <= fuel)%nat -> (length (file_at (delta_ram dir) f) < rounds)%nat ->
  file_at (base_ram dir) f = load (mem sys0) 0 (mem_size sys0) ->
  file_at (delta_ram dir) f = dirty_file pad2 pad4 sys1 pages ->
  file_at (dirty_state_path dir) f = state ->
  RestoreDirty fuel vcpu_state_size rounds dir mem_mib f = (o, f') ->
  o <> OutOfFuel /\
  forall sys2 n state2, o = Ok (sys2, n, state2) ->
    mem_size sys2 = mem_size sys1 /\ n = Z.of_nat (length pages) /\ state2 = state /\
    forall a, 0 <= a < mem_size sys1 -> mem sys2 a = mem sys1 a.
Proof.
  intros pages Hmib Hms Hlen Hcov Hfuel Hrounds Hbase Hdelta Hstate.
  unfold RestoreDirty. rewrite bind_run. destruct (MapSnapshotRam _ _ f) as [o1 g1] eqn:E1.
  apply MapSnapshotRam_spec in E1 as (Hsame1 & Hs1 & Hnf1 & Hok1).
  destruct o1 as [sysm|e|]; [|by intros [= <- <-]|done].
  destruct (Hok1 sysm eq_refl) as (Hmsm & Hramm & Hszm & Hload). rewrite Hbase in Hload.
  assert (Hmm : mem_size sysm = mem_size sys0) by lia. rewrite bind_run. unfold with_ram.
  destruct (ApplyDirtySnapshotFile _ _ _ (g1, sysm)) as [o2 [g2 sys2]] eqn:E2.
  apply apply_file_spec in E2 as (Hstep2 & Hnf2 & Hok2); [|done|lia|by rewrite Hsame1].
  rewrite (Hsame1 (delta_ram dir)), Hdelta in Hok2. destruct Hstep2 as (Hsame2 & Hsg2 & Hms2 & _).
  destruct o2 as [n2|e|]; [|by intros [= <- <-]|done]. cbn [mbind outcome_bind].
  destruct (Hok2 n2 eq_refl) as (Hn2 & _ & Hmem2 & _).
  assert (Hpl : Z.of_nat (length pages) <= 2 ^ 20).
  { unfold pages, kSnapshotPageSize. etrans; [apply length_pages_where, Z.div_pos; lia|].
    apply Z.div_le_upper_bound; lia. }
  rewrite dirty_file_count in Hn2, Hmem2 by first [done|lia].
  rewrite apply_dirty_file in Hmem2 by first [done|lia|apply pages_of_log_in].
  rewrite bind_run. destruct (ReadVcpuStateFile _ _ _ g2) as [o3 g3] eqn:E3.
  apply ReadVcpuStateFile_spec in E3 as (Hnf3 & Hok3); [|lia].
  destruct o3 as [state3|e|]; [|by intros [= <- <-]|done]. intros [= <- <-].
  split; [done|]. intros sys' n' state' [= <- <- <-]. destruct (Hok3 state3 eq_refl) as (Hst3 & _).
  rewrite Hsame2, Hsame1, Hstate, take_ge in Hst3 by lia.
  split_and!; [by rewrite Hms2, Hmm, Hms|done|done|]. intros a Ha. rewrite Hmem2.
  apply (restored_ram sys0); [done|done|lia| |].
  - rewrite Hmib. exists (mem_mib * 256). unfold kSnapshotPageSize. lia.
  - apply (map_seqZ_inv (mem sysm) (mem sys0) 0 (mem_size sys0)); [|lia]. by rewrite <- Hmm at 1.
Qed.

(** Incremental snapshots round-trip: if the base image was written from [sys0], the
    guest then changed RAM into [sys1] with every changed page in KVM's dirty log, and
    the delta and the vCPU state were written, then whenever the restore returns it has
    the RAM and the vCPU state that were saved, having applied every logged page; and no
    loop of the restore runs out of rounds. *)
Theorem dirty_snapshot_roundtrip dir mem_mib sys0 sys1 state log bitmap f f1 f2 n o f3 :
  mem_size sys0 = mem_mib * 1024 * 1024 -> 0 < mem_size sys0 <= 2 ^ 32 -> mem_size sys1 = mem_size sys0 ->
  ram_ok (mem sys0) -> ram_ok (mem sys1) ->
  bytes_ok state -> length state = Z.to_nat vcpu_state_size ->
  log_returns sys1 log bitmap -> log_covers sys0 sys1 bitmap ->
  (4096 + signals f <= fuel)%nat ->
  SaveBase fuel dir sys0 f = (Ok tt, f1) ->
  SaveDirty fuel pad2 pad4 dir sys1 state log f1 = (Ok n, f2) ->
  (length (file_at (delta_ram dir) f2) < rounds)%nat ->
  RestoreDirty fuel vcpu_state_size rounds dir mem_mib f2 = (o, f3) ->
  o <> OutOfFuel /\
  forall sys2 n2 state2, o = Ok (sys2, n2, state2) ->
    mem_size sys2 = mem_size sys1 /\ n2 = n /\ state2 = state /\
    forall a, 0 <= a < mem_size sys1 -> mem sys2 a = mem sys1 a.
Proof.
  intros Hmib Hsize Hms Hram0 Hram1 Hst Hlen Hlog Hcov Hfuel Hbase Hsave Hrounds Hrun.
  unfold SaveBase, WriteFullRamFile in Hbase. rewrite bind_run in Hbase.
  destruct (WriteSparseMemoryFile _ _ _ _ f) as [ob fb] eqn:Eb.
  apply WriteSparseMemoryFile_spec in Eb as (_ & Hsb & _ & Hokb); [|done|lia|lia].
  destruct ob as [k|e|]; [|done|done]. injection Hbase as <-. specialize (Hokb eq_refl).
  apply (SaveDirty_spec _ _ _ _ bitmap) in Hsave as (_ & Hok); [|lia|done|done|done|done|lia].
  destruct (Hok n eq_refl) as (Hn & Hdelta & Hstate & Hb & Hs2).
  rewrite Hn. eapply (RestoreDirty_spec dir mem_mib sys0 sys1 state bitmap f2); first [done|lia|by rewrite Hb].
Qed.
End Roundtrip.

Lemma sparse_loop_zero {F H : Type} `{Posix F H} fuel rounds (fd : H) src len : forall off n (f : F),
  (forall a, src a = 0) -> len - off <= Z.of_nat rounds ->
  sparse_loop fuel rounds fd src len off n f = (Ok n, f).
Proof.
  induction rounds as [|rounds IH]; intros off n f Hsrc Hr; cbn [sparse_loop];
    destruct (Z.ltb_spec off len); try lia; [done| |done].
  assert (Hz : forall l, IsZeroPage (map src l) = true)
    by (induction l as [|x l IHl]; [done|]; cbn [map IsZeroPage]; by rewrite Hsrc, IHl).
  unfold load. rewrite Hz. apply IH; [done|]. unfold kSnapshotPageSize. lia.
Qed.

#[local] Existing Instances MemPosix.mem_posix MemPosix.mem_posix_laws.

(** A 1 MiB guest that changed one byte in page 2; the host transfers 4096 bytes per call
    and interrupts the first two. *)
Module Example_snapshot.
Import MemPosix.
Definition sys0 : KvmSystem := mkKvmSystem (fun _ => 0) (2 ^ 20).
Definition sys1 : KvmSystem := mkKvmSystem (store (fun _ => 0) 8195 [7]) (2 ^ 20).
Definition bitmap : list Z := [4; 0; 0; 0].
Definition log : nat -> sysresult (list Z) := fun _ => Done bitmap.
Definition fs : MemPosix.files := MemPosix.mkFiles ∅ ∅ 4096 2.
Definition fuel : nat := 4098.
Definition rounds : nat := 4153.
(** The image of a RAM that is all zeros is one hole. *)
Definition after_base : MemPosix.files :=
  let p := base_ram "/snap" in
  let opened := set_off p 0 (set_body p [] fs) in
  set_body p (resize (body p opened) (2 ^ 20)) opened.
Definition after_save : MemPosix.files :=
  snd (SaveDirty (H := string) fuel [0; 0] [0; 0; 0; 0] "/snap" sys1 [1; 2] log after_base).
Definition restored := fst (RestoreDirty (H := string) fuel 2 rounds "/snap" 1 after_save).
End Example_snapshot.



Lemma zero_ram_ok : ram_ok (fun _ => 0).
Proof. intros a. unfold is_byte. lia. Qed.

Lemma dirty_snapshot_roundtrip_witness :
  match Example_snapshot.restored with
  | Ok (sys2, n, state) => n = 1 /\ state = [1; 2] /\ mem sys2 8195 = 7
  | _ => False
  end.
Proof.
  destruct (RestoreDirty (H := string) Example_snapshot.fuel 2 Example_snapshot.rounds "/snap" 1
    Example_snapshot.after_save) as [o f3] eqn:E.
  assert (Ho : is_ok Example_snapshot.restored = true) by (vm_compute; reflexivity).
  unfold Example_snapshot.restored in *. rewrite E in Ho |- *. cbn [fst] in *.
  destruct (dirty_snapshot_roundtrip Example_snapshot.fuel Example_snapshot.rounds 2 [0; 0] [0; 0; 0; 0]
    ltac:(by repeat split; try apply bytes_okb_ok) ltac:(lia) "/snap" 1 Example_snapshot.sys0 Example_snapshot.sys1
    [1; 2] Example_snapshot.log Example_snapshot.bitmap Example_snapshot.fs Example_snapshot.after_base
    Example_snapshot.after_save 1 o f3) as [_ Hres].
  - reflexivity.
  - cbn. lia.
  - reflexivity.
  - apply zero_ram_ok.
  - apply store_ok; [|by apply bytes_okb_ok]. apply zero_ram_ok.
  - by apply bytes_okb_ok.
  - reflexivity.
  - split_and!; [reflexivity|vm_compute; reflexivity|]. by repeat constructor.
  - intros a Ha Hbit. cbn [mem Example_snapshot.sys0 Example_snapshot.sys1]. apply store_out.
    unfold in_range. cbn [length]. intros Hin. assert (a = 8195) as -> by lia. by vm_compute in Hbit.
  - vm_compute. lia.
  - unfold SaveBase, WriteFullRamFile, WriteSparseMemoryFile. cbn [mem mem_size Example_snapshot.sys0].
    rewrite !bind_run. cbn [checked sys_open sys_ftruncate MemPosix.mem_posix truncates CheckErr]. rewrite !bind_run.
    cbn [checked sys_open sys_ftruncate MemPosix.mem_posix CheckErr]. rewrite sparse_loop_zero by (done || lia). done.
  - unfold Example_snapshot.after_save. rewrite (surjective_pairing (SaveDirty _ _ _ _ _ _ _ _)) at 1.
    apply (f_equal2 pair); [vm_compute; reflexivity|reflexivity].
  - apply Nat.ltb_lt. vm_compute. reflexivity.
  - exact E.
  - destruct o as [[[sys2 n] state]|e|]; [|done|done].
    destruct (Hres sys2 n state eq_refl) as (_ & -> & -> & Hm). split_and!; [done|done|].
    rewrite Hm by (cbn [mem_size Example_snapshot.sys1]; lia). reflexivity.
Defined.

(** ** Untrusted delta files *)

Section Untrusted.
Context {F H : Type} `{PosixLaws F H}.

(** [ApplyDirtySnapshotFile] is in bounds for every content of the delta file and
    however the reads end: only bytes of whole pages inside RAM change, the RAM keeps its
    size, the files keep their contents, and the loop ends even when the file claims
    2^64 pages.  If it returns, the header was valid, every index was a page of RAM, and
    RAM is the old one with the file's pages stored in order. *)
Theorem apply_in_bounds fuel rounds path f sys o f' sys' :
  ram_ok (mem sys) -> (4096 + signals f <= fuel)%nat -> (length (file_at path f) < rounds)%nat ->
  ApplyDirtySnapshotFile fuel rounds path (f, sys) = (o, (f', sys')) ->
  let c := file_at path f in
  let n := dirty_pages (dirty_header_of (take 48 c)) in
  mem_size sys' = mem_size sys /\ ram_ok (mem sys') /\ same_files f f' /\
  (forall a, ~ 0 <= a < mem_size sys / kSnapshotPageSize * kSnapshotPageSize -> mem sys' a = mem sys a) /\
  o <> OutOfFuel /\
  (forall k, o = Ok k -> k = n /\ header_valid c sys /\
     (forall i, 0 <= i < n -> entry_ok c (mem_size sys / kSnapshotPageSize) i) /\
     mem sys' = fold_left (store_entry c) (seqZ 0 n) (mem sys)).
Proof.
  intros Hram Hfuel Hrounds Hrun c n.
  apply apply_file_spec in Hrun as ((Hf & _ & Hms & Hr & Hw) & Hnf & Hok); [|done..].
  split_and!; [done..| |done|].
  - intros a Ha. apply Hw. unfold whole_pages, in_range. by rewrite Z.add_0_l.
  - intros k Hk. destruct (Hok k Hk) as (Hn & Hv & Hm & Hall). by split_and!.
Qed.
End Untrusted.

(** A delta for a guest of two pages that names page 5. *)
Lemma apply_in_bounds_witness :
  let sys := mkKvmSystem (fun _ => 0) 8192 in
  let bad := dirty_header_bytes [0; 0] [0; 0; 0; 0]
               (mkDirtyHeader kDirtySnapshotMagic 1 4096 2 (2 ^ 64 - 1)) ++ WriteU64 5 in
  let f := MemPosix.mkFiles {["d" := bad]} ∅ 7 1 in
  exists f' sys',
    ApplyDirtySnapshotFile (H := string) 4097 57 "d" (f, sys) =
      (Throw "dirty snapshot page index out of bounds", (f', sys')) /\
    mem sys' 9000 = 0.
Proof.
  intros sys bad f.
  destruct (ApplyDirtySnapshotFile (H := string) 4097 57 "d" (f, sys)) as [o [f' sys']] eqn:E.
  exists f', sys'.
  destruct (apply_in_bounds 4097 57 "d" f sys o f' sys' zero_ram_ok
    ltac:(apply Nat.leb_le; vm_compute; reflexivity)
    ltac:(apply Nat.ltb_lt; vm_compute; reflexivity) E) as (_ & _ & _ & Hout & _).
  split; [|rewrite Hout; [reflexivity|vm_compute; intros [_ Hx]; discriminate Hx]].
  apply (f_equal2 pair); [|reflexivity]. change o with (fst (o, (f', sys'))). rewrite <- E. vm_compute. reflexivity.
Defined.

(** ** The full snapshot *)

Section Full.
Context {F H : Type} `{PosixLaws F H}.
Variables (fuel : nat) (vcpu_state_size : Z).
Hypothesis Hvcpu : 0 <= vcpu_state_size <= 4096.

Lemma kRamSnapshotMagic_facts : length kRamSnapshotMagic = 16%nat /\ bytes_ok kRamSnapshotMagic.
Proof. split; [reflexivity|]. apply bytes_okb_ok. reflexivity. Qed.

Lemma ram_header_roundtrip h : length (ram_magic h) = 16%nat ->
  length (ram_header_bytes h) = 32%nat /\
  ram_header_of (ram_header_bytes h) =
  mkRamHeader (ram_magic h) (u32 (ram_version h)) (u32 (ram_mem_mib h)) (u64 (ram_mem_size h)).
Proof.
  intros Hm. unfold ram_header_of, ram_header_bytes. split.
  { by rewrite !length_app, Hm, !length_WriteU32, length_WriteU64. }
  rewrite take_app_length', !(drop_app_at _ 16 (ram_magic h)) by first [done|lia]. cbn [Nat.sub].
  rewrite drop_0, !(drop_app_at _ 4 (WriteU32 (ram_version h))) by first [apply length_WriteU32|lia]. cbn [Nat.sub].
  rewrite drop_0, (drop_app_at _ 4 (WriteU32 (ram_mem_mib h))) by first [apply length_WriteU32|lia]. cbn [Nat.sub].
  rewrite drop_0, !(Read_app 4) by first [apply length_WriteU32|done].
  by rewrite !ReadU32_WriteU32, ReadU64_WriteU64.
Qed.

(** The state file of the full snapshot. *)
Definition ram_state_file (mem_mib : Z) (sys : KvmSystem) (state : list Z) : list Z :=
  ram_header_bytes (mkRamHeader kRamSnapshotMagic kRamSnapshotVersion mem_mib (mem_size sys)) ++ state.

Lemma WriteRamSnapshotFiles_spec dir mem_mib sys state f o f' :
  ram_ok (mem sys) -> 0 <= mem_size sys -> bytes_ok state -> (length state <= 4064)%nat ->
  (4096 + signals f <= fuel)%nat ->
  WriteRamSnapshotFiles fuel dir mem_mib sys state f = (o, f') ->
  o <> OutOfFuel /\
  (forall paths, o = Ok paths -> paths = (JoinPath dir "mem.bin", JoinPath dir "vcpu.bin") /\
     file_at (JoinPath dir "mem.bin") f' = load (mem sys) 0 (mem_size sys) /\
     file_at (JoinPath dir "vcpu.bin") f' = ram_state_file mem_mib sys state /\
     (signals f' <= signals f)%nat).
Proof.
  intros Hram Hsize Hst Hlen Hfuel. unfold WriteRamSnapshotFiles. rewrite bind_run.
  destruct (EnsureDirectory dir f) as [o0 f0] eqn:E0.
  assert (Hdir : o0 <> OutOfFuel /\ (signals f0 <= signals f)%nat).
  { unfold EnsureDirectory in E0. destruct (posix_dirs dir f) as [Hmk _].
    destruct (sys_mkdir dir f) as [r g] eqn:Em. destruct (Hmk _ _ eq_refl) as (_ & Hs).
    destruct r as [[]| |]; try (injection E0 as <- <-; by split).
    rewrite bind_run in E0. unfold checked in E0. destruct (posix_dirs dir g) as [_ Hst'].
    destruct (sys_stat_isdir dir g) as [r g'] eqn:Es. destruct (Hst' _ _ eq_refl) as (_ & Hs').
    destruct r as [[]| |]; cbn in E0; injection E0 as <- <-; split; (done || lia). }
  destruct Hdir as [Hnf0 Hs0]. destruct o0 as [[]|e|]; [|by intros [= <- <-]|done].
  set (sp := JoinPath dir "vcpu.bin"). set (rp := JoinPath dir "mem.bin").
  assert (Hne : rp <> sp) by (intros Heq; by apply JoinPath_inj in Heq).
  rewrite bind_run. destruct (checked _ _ f0) as [o1 f1] eqn:E1.
  destruct o1 as [fd|e|]; [|by intros [= <- <-]|by apply checked_no_fuel in E1].
  apply open_trunc_end in E1 as (Hp & He & Hf1 & _ & Hs1).
  rewrite <- bind_bind, bind_run. cbv zeta.
  destruct ((WriteAll fuel fd _ _ ≫= fun _ => WriteAll fuel fd state _) f1) as [o2 f2] eqn:E2.
  set (hd := ram_header_bytes _) in E2.
  destruct kRamSnapshotMagic_facts as [Hml Hmb].
  assert (Hhl : length hd = 32%nat) by (by apply ram_header_roundtrip).
  assert (Hhb : bytes_ok hd).
  { unfold hd, ram_header_bytes, bytes_ok.
    repeat first [exact Hmb|apply WriteU32_ok|apply WriteU64_ok|apply Forall_app_2]. }
  apply two_writes_append in E2 as (Hnf2 & Hok2); [|done|done|lia|lia|done|lia].
  destruct o2 as [[]|e|]; [|by intros [= <- <-]|done]. specialize (Hok2 eq_refl) as (_ & Hf2 & _ & Hs2).
  rewrite bind_run. destruct (WriteSparseMemoryFile _ _ _ _ f2) as [o3 f3] eqn:E3.
  apply WriteSparseMemoryFile_spec in E3 as (Hq3 & Hs3 & Hnf3 & Hok3); [|done|lia|done].
  destruct o3 as [k|e|]; [|by intros [= <- <-]|done]. intros [= <- <-].
  split; [done|]. intros paths [= <-]. split_and!; [done|by apply Hok3| |lia].
  rewrite Hq3 by (by intros ->). by rewrite <- Hp, Hf2, Hp, Hf1.
Qed.

(** Reading the state file back, from any file that starts with a written one. *)
Lemma ReadRamSnapshotState_spec path mem_mib sys state f o f' :
  0 <= mem_mib < 2 ^ 32 -> 0 <= mem_size sys <= 2 ^ 32 -> length state = Z.to_nat vcpu_state_size ->
  file_at path f = ram_state_file mem_mib sys state -> (4096 + signals f <= fuel)%nat ->
  ReadRamSnapshotState fuel vcpu_state_size path f = (o, f') ->
  same_files f f' /\ (signals f' <= signals f)%nat /\ o <> OutOfFuel /\
  (forall r, o = Ok r -> r = (state, mem_mib, mem_size sys)).
Proof.
  intros Hmib Hsize Hlen Hf Hfuel. unfold ReadRamSnapshotState. rewrite bind_run. unfold checked.
  destruct (sys_open path O_RDONLY f) as [r f1] eqn:E1.
  destruct r as [fd| |e]; cbn [CheckErr].
  2,3: apply open_error in E1 as (Hq & Hs); [|done]; intros [= <- <-]; by split_and!.
  apply open_read in E1 as (<- & Ho1 & Hf1 & Hs1). rewrite bind_run.
  destruct kRamSnapshotMagic_facts as [Hml _].
  destruct (ram_header_roundtrip
    (mkRamHeader kRamSnapshotMagic kRamSnapshotVersion mem_mib (mem_size sys)) Hml) as [Hhl Hhr].
  assert (Hc : length (ram_state_file mem_mib sys state) = (32 + Z.to_nat vcpu_state_size)%nat)
    by (unfold ram_state_file; by rewrite length_app, Hhl, Hlen).
  destruct (read_bytes fuel fd ram_header_size _ f1) as [o2 f2] eqn:E2.
  apply read_bytes_spec in E2 as (Hq2 & Hs2 & Hnf2 & Hok2);
    [|unfold ram_header_size; lia..|rewrite Ho1; lia].
  assert (Hq : same_files f f2) by (intros q; by rewrite Hq2, Hf1).
  destruct o2 as [b|e|]; [|intros [= <- <-]; split_and!; [done|lia|done|done]|done].
  destruct (Hok2 b eq_refl) as (Hb & _ & Ho2 & _). rewrite Ho1, Hf1, Hf in Hb.
  change (drop (Z.to_nat 0) ?l) with l in Hb. change (Z.to_nat ram_header_size) with 32%nat in Hb.
  unfold ram_state_file in Hb. rewrite take_app_length' in Hb by done. subst b. cbv zeta. rewrite Hhr.
  cbn [ram_magic ram_version ram_mem_mib ram_mem_size].
  unfold same_bytes. rewrite lift_bind, bool_decide_true by done. cbn [Check].
  rewrite lift_bind. change (u32 kRamSnapshotVersion =? kRamSnapshotVersion) with true. cbn [Check].
  rewrite bind_run. destruct (read_bytes fuel fd vcpu_state_size _ f2) as [o3 f3] eqn:E3.
  assert (Hc2 : file_at (path_of fd) f2 = ram_state_file mem_mib sys state) by (by rewrite Hq).
  apply read_bytes_spec in E3 as (Hq3 & Hs3 & Hnf3 & Hok3);
    [|lia|lia|rewrite Hc2, Hc, Ho2, Ho1; unfold ram_header_size; lia].
  assert (Hq' : same_files f f3) by (intros q; by rewrite Hq3, Hq).
  destruct o3 as [st|e|]; [|intros [= <- <-]; split_and!; [done|lia|done|done]|done].
  intros [= <- <-]. split_and!; [done|lia|done|]. intros r [= <-].
  destruct (Hok3 st eq_refl) as (-> & _). rewrite Hc2, Ho2, Ho1.
  change (Z.to_nat (0 + ram_header_size)) with 32%nat.
  unfold ram_state_file. rewrite drop_app_length' by done.
  rewrite take_ge by lia. rewrite u32_small, u64_small by lia. done.
Qed.

(** The full snapshot round-trips: what [ReadRamSnapshotState] and the mapping of the RAM
    file return is what [WriteRamSnapshotFiles] was given. *)
Theorem ram_snapshot_roundtrip dir mem_mib sys state f rp sp f1 o f2 o' f3 :
  ram_ok (mem sys) -> mem_size sys = mem_mib * 1024 * 1024 -> 0 <= mem_size sys <= 2 ^ 32 ->
  bytes_ok state -> length state = Z.to_nat vcpu_state_size -> (length state <= 4064)%nat ->
  (4096 + signals f <= fuel)%nat ->
  WriteRamSnapshotFiles fuel dir mem_mib sys state f = (Ok (rp, sp), f1) ->
  ReadRamSnapshotState fuel vcpu_state_size sp f1 = (o, f2) ->
  MapSnapshotRam mem_mib rp f2 = (o', f3) ->
  o <> OutOfFuel /\ (forall r, o = Ok r -> r = (state, mem_mib, mem_size sys)) /\
  (forall sys2, o' = Ok sys2 -> mem_size sys2 = mem_size sys /\
     forall a, 0 <= a < mem_size sys -> mem sys2 a = mem sys a).
Proof.
  intros Hram Hmib Hsize Hst Hlen Hle Hfuel Hw Hr Hm.
  apply WriteRamSnapshotFiles_spec in Hw as (_ & Hok); [|done|lia|done..].
  destruct (Hok _ eq_refl) as ([= -> ->] & Hrp & Hsp & Hs1).
  apply (ReadRamSnapshotState_spec _ mem_mib sys state) in Hr as (Hsame & Hs2 & Hnf & Hok2); [|lia|done|done|done|lia].
  apply MapSnapshotRam_spec in Hm as (_ & _ & _ & Hok3). split_and!; [done|done|].
  intros sys2 Hs. destruct (Hok3 sys2 Hs) as (Hms & _ & _ & Hload).
  rewrite Hsame, Hrp, Hms, Hmib in Hload. split; [lia|]. intros a Ha.
  apply (map_seqZ_inv (mem sys2) (mem sys) 0 (mem_mib * 1024 * 1024)); [exact Hload|lia].
Qed.
End Full.
