(* ===== verification/KvmUart.v ===== *)
(** * The serial port and the I/O ports of native/kvm/backend.cc

    Class Uart of the Linux backend: registers, the receive queue, the capture of the
    console with the search for the shutdown messages, the answer to the terminal's
    cursor query and the interrupt line; and HandleIo, the decoder of port accesses.
    Calls of KVM_IRQ_LINE, bytes written to the standard output and notifications are
    recorded.  Theorems: the line KVM was last told is what the interrupt identification
    register reports, the captured console, no shutdown message is missed (but some are
    seen that were not printed), and a port access reaches the device it names. *)

From S2P Require Import Prelude Words Bytes ArmUart.

#[local] Open Scope string_scope.
#[local] Open Scope list_scope.
#[local] Open Scope Z_scope.

Definition kCom1Base : Z := 0x3F8.
Definition kCom1IRQ : Z := 4.
Definition kNodeVmmExitPort : Z := 0x501.
Definition kNodeVmmConsolePort : Z := 0x600.
Definition rx_limit : nat := 4096.

Definition chars (s : string) : list Z := map (fun a => Z.of_nat (nat_of_ascii a)) (list_ascii_of_string s).

Record Uart := mkUart {
  ier_ : Z; iir_ : Z; lcr_ : Z; mcr_ : Z; scr_ : Z; dll_ : Z; dlh_ : Z;
  limit_ : Z; echo_stdout_ : bool;
  has_sys : bool;            (** [sys_ != nullptr] *)
  has_notify : bool; console_output_seen_ : bool;
  console_ : list Z; last_stdout_byte_ : Z; rx_ : list Z; terminal_query_ : list Z;
  halted_seen_ : bool; restarting_seen_ : bool; halted_match_ : nat; restarting_match_ : nat;
  stdout : list Z;           (** bytes written to STDOUT_FILENO *)
  notified : Z;              (** calls of console_output_notify_ *)
  irq : list (Z * bool)      (** calls of IrqLine, the last one first *) }.
#[export] Instance eta_Uart : Eta Uart := fun s => mkUart
  (ier_ s) (iir_ s) (lcr_ s) (mcr_ s) (scr_ s) (dll_ s) (dlh_ s) (limit_ s) (echo_stdout_ s) (has_sys s)
  (has_notify s) (console_output_seen_ s) (console_ s) (last_stdout_byte_ s) (rx_ s) (terminal_query_ s)
  (halted_seen_ s) (restarting_seen_ s) (halted_match_ s) (restarting_match_ s) (stdout s) (notified s) (irq s).

(** The members' initial values. *)
Definition Uart_new (limit : Z) (echo sys notify : bool) : Uart :=
  mkUart 0 0x01 0 0x03 0 0 0 limit echo sys notify false [] 0 [] [] false false 0 0 [] 0 [].

(** ** Interrupts *)

Definition set_irq (level : bool) (s : Uart) : Uart :=
  if has_sys s then s <| irq := (kCom1IRQ, level) :: irq s |> else s.

Definition update_interrupt_locked (s : Uart) : Uart :=
  if has (ier_ s) 0x01 && negb (match rx_ s with [] => true | _ => false end) then
    set_irq true (s <| iir_ := 0x04 |>)
  else if has (ier_ s) 0x02 then set_irq true (s <| iir_ := 0x02 |>)
  else set_irq false (s <| iir_ := 0x01 |>).

Definition raise_thr_empty : Uart -> Uart := update_interrupt_locked.

(** ** Console output *)

(** [while (current > 0 && byte != pattern[current]) current--;] *)
Fixpoint retreat (pattern : list Z) (current : nat) (byte : Z) : nat :=
  match current with
  | O => O
  | S k => if byte =? nth current pattern 0 then current else retreat pattern k byte
  end.

(** [pattern[pattern_len]] is the terminating NUL. *)
Definition AdvanceMatch (pattern : list Z) (current : nat) (byte : Z) : nat :=
  let current := retreat pattern current byte in
  if byte =? nth current pattern 0 then S current else current.

Definition kHalted : list Z := chars "reboot: System halted".
Definition kRestarting : list Z := chars "Restarting system".

Definition track_byte (byte : Z) (s : Uart) : Uart :=
  let s := if halted_seen_ s then s
           else let m := AdvanceMatch kHalted (halted_match_ s) byte in
                s <| halted_match_ := m |> <| halted_seen_ := (m =? length kHalted)%nat |> in
  if restarting_seen_ s then s
  else let m := AdvanceMatch kRestarting (restarting_match_ s) byte in
       s <| restarting_match_ := m |> <| restarting_seen_ := (m =? length kRestarting)%nat |>.

Definition track_console_markers (bytes : list Z) (s : Uart) : Uart :=
  fold_left (fun s b => track_byte b s) bytes s.

(** [normalized] with the last byte: a newline that does not follow a return gets one. *)
Fixpoint normalize (last : Z) (bytes : list Z) : list Z * Z :=
  match bytes with
  | [] => ([], last)
  | b :: bytes =>
      let '(rest, last') := normalize b bytes in
      ((if (b =? 0x0A) && negb (last =? 0x0D) then [0x0D; b] else [b]) ++ rest, last')
  end.

Definition write_stdout (bytes : list Z) (s : Uart) : Uart :=
  let '(normalized, last) := normalize (last_stdout_byte_ s) bytes in
  s <| last_stdout_byte_ := last |> <| stdout := stdout s ++ normalized |>.

Definition emit_tx_locked (bytes : list Z) (s : Uart) : Uart :=
  match bytes with
  | [] => s
  | _ =>
      let s := track_console_markers bytes s in
      let size := Z.of_nat (length (console_ s)) in
      let available := if size <? limit_ s then limit_ s - size else 0 in
      let s := if 0 <? available then
                 s <| console_ := console_ s ++ take (Z.to_nat (Z.min available (Z.of_nat (length bytes)))) bytes |>
               else s in
      if echo_stdout_ s then
        let s := if console_output_seen_ s then s
                 else let s := s <| console_output_seen_ := true |> in
                      if has_notify s then s <| notified := notified s + 1 |> else s in
        write_stdout bytes s
      else s
  end.

(** ** The cursor query *)

(** ESC [ 6 n, and the answer ESC [ 1 ; 1 R *)
Definition query : list Z := [0x1B; 0x5B; 0x36; 0x6E].
Definition response : list Z := [0x1B; 0x5B; 0x31; 0x3B; 0x31; 0x52].

(** The loop over [data] from its end, and the one from its start. *)
Fixpoint push_front_while (bs : list Z) (q : list Z) : list Z :=
  match bs with
  | [] => q
  | b :: bs => if (length q <? rx_limit)%nat then push_front_while bs (b :: q) else q
  end.
Fixpoint push_back_while (bs : list Z) (q : list Z) : list Z :=
  match bs with
  | [] => q
  | b :: bs => if (length q <? rx_limit)%nat then push_back_while bs (q ++ [b]) else q
  end.

Definition enqueue_rx_locked (data : list Z) (front : bool) (s : Uart) : Uart :=
  update_interrupt_locked
    (if front then s <| rx_ := push_front_while (rev data) (rx_ s) |>
     else s <| rx_ := push_back_while data (rx_ s) |>).

Definition handle_tx_byte (value : Z) (s : Uart) : Uart :=
  if negb (match terminal_query_ s with [] => true | _ => false end) || (value =? 0x1B) then
    let s := s <| terminal_query_ := terminal_query_ s ++ [value] |> in
    if prefix_of (terminal_query_ s) query then
      if bool_decide (terminal_query_ s = query) then
        (enqueue_rx_locked response true s) <| terminal_query_ := [] |>
      else s
    else (emit_tx_locked (terminal_query_ s) s) <| terminal_query_ := [] |>
  else emit_tx_locked [value] s.

(** ** Registers *)

Definition dlab (s : Uart) : bool := has (lcr_ s) 0x80.

Definition read (offset : Z) (s : Uart) : Z * Uart :=
  if offset =? 0 then
    if dlab s then (dll_ s, s)
    else
      let '(value, s) := match rx_ s with
                         | c :: rest => (c, s <| rx_ := rest |>)
                         | [] => (0, s)
                         end in
      (value, update_interrupt_locked s)
  else if offset =? 1 then (if dlab s then dlh_ s else ier_ s, s)
  else if offset =? 2 then
    let value := Z.lor 0xC0 (iir_ s) in
    if iir_ s =? 0x02 then (value, update_interrupt_locked (set_irq false s)) else (value, s)
  else if offset =? 3 then (lcr_ s, s)
  else if offset =? 4 then (mcr_ s, s)
  else if offset =? 5 then (Z.lor 0x60 (match rx_ s with [] => 0x00 | _ => 0x01 end), s)
  else if offset =? 6 then (0xB0, s)
  else if offset =? 7 then (scr_ s, s)
  else (0, s).

Definition write (offset value : Z) (s : Uart) : Uart :=
  if offset =? 0 then
    if dlab s then s <| dll_ := value |>
    else
      let s := handle_tx_byte value s in
      if has (ier_ s) 0x02 then raise_thr_empty s else s
  else if offset =? 1 then
    if dlab s then s <| dlh_ := value |>
    else update_interrupt_locked (s <| ier_ := value |>)
  else if offset =? 3 then s <| lcr_ := value |>
  else if offset =? 4 then s <| mcr_ := value |>
  else if offset =? 7 then s <| scr_ := value |>
  else s.

(** [console_.find(needle) != npos] *)
Fixpoint infix_of (needle text : list Z) : bool :=
  prefix_of needle text || match text with [] => false | _ :: text => infix_of needle text end.

Definition contains (needle : list Z) (s : Uart) : bool :=
  if bool_decide (needle = kHalted) then halted_seen_ s
  else if bool_decide (needle = kRestarting) then restarting_seen_ s
  else infix_of needle (console_ s).

Definition enqueue_rx (data : list Z) (s : Uart) : Uart :=
  update_interrupt_locked (s <| rx_ := push_back_while data (rx_ s) |>).
Definition emit_bytes (data : list Z) (s : Uart) : Uart := emit_tx_locked data s.

(** ** Port accesses: HandleIo *)

Inductive io_direction := KVM_EXIT_IO_IN | KVM_EXIT_IO_OUT.
(** [run->io] *)
Record kvm_io := mkIo { direction : io_direction; io_size : Z; port : Z; count : Z }.
Record GuestExit := mkGuestExit { requested : bool; status : Z }.

Definition is_out (io : kvm_io) : bool := match direction io with KVM_EXIT_IO_OUT => true | _ => false end.

(** One item: its bytes afterwards, the serial port, and [*guest_exit]. *)
Definition io_item (io : kvm_io) (item : list Z) (uart : Uart) (guest_exit : option GuestExit)
    : list Z * Uart * option GuestExit :=
  if (port io =? kNodeVmmExitPort) && (io_size io =? 1) then
    if is_out io then
      (item, uart, match guest_exit with Some _ => Some (mkGuestExit true (byte_at item 0)) | None => None end)
    else (put item 0 [0], uart, guest_exit)
  else if (port io =? kNodeVmmConsolePort) && (io_size io =? 1) then
    if is_out io then (item, emit_bytes (take 1 item) uart, guest_exit)
    else (put item 0 [0], uart, guest_exit)
  else if (kCom1Base <=? port io) && (port io <? kCom1Base + 8) && (io_size io =? 1) then
    let off := u16 (port io - kCom1Base) in
    if is_out io then (item, write off (byte_at item 0) uart, guest_exit)
    else let '(v, uart) := read off uart in (put item 0 [v], uart, guest_exit)
  else if is_out io then (item, uart, guest_exit)
  else (repeat 0 (length item), uart, guest_exit).

(** [data] is the run structure from [data_offset], [count * size] bytes or more. *)
Fixpoint io_items (n : nat) (io : kvm_io) (data : list Z) (uart : Uart) (guest_exit : option GuestExit)
    : list Z * Uart * option GuestExit :=
  match n with
  | O => (data, uart, guest_exit)
  | S n =>
      let size := Z.to_nat (io_size io) in
      let '(item, uart, guest_exit) := io_item io (take size data) uart guest_exit in
      let '(rest, uart, guest_exit) := io_items n io (drop size data) uart guest_exit in
      (item ++ rest, uart, guest_exit)
  end.

Definition HandleIo (io : kvm_io) (data : list Z) (uart : Uart) (guest_exit : option GuestExit)
    : list Z * Uart * option GuestExit :=
  io_items (Z.to_nat (count io)) io data uart guest_exit.

(** ** The interrupt line *)

Inductive op :=
  | Read (offset : Z)
  | Write (offset value : Z)
  | Input (data : list Z)
  | Emit (data : list Z).
Definition run_op (o : op) (s : Uart) : Uart :=
  match o with
  | Read offset => (read offset s).2
  | Write offset value => write offset value s
  | Input data => enqueue_rx data s
  | Emit data => emit_bytes data s
  end.
Definition run_ops (ops : list op) (s : Uart) : Uart := fold_left (fun s o => run_op o s) ops s.

(** The level KVM was last told. *)
Definition last_level (s : Uart) : bool := match irq s with [] => false | (_, l) :: _ => l end.
Definition rx_ready (s : Uart) : bool := match rx_ s with [] => false | _ => true end.
(** The identification of the pending interrupt of highest priority. *)
Definition pending_iir (s : Uart) : Z :=
  if has (ier_ s) 0x01 && rx_ready s then 0x04 else if has (ier_ s) 0x02 then 0x02 else 0x01.

Record uart_ok (s : Uart) : Prop := {
  ok_iir : iir_ s = pending_iir s;
  ok_line : has_sys s = true -> last_level s = negb (iir_ s =? 0x01);
  ok_calls : Forall (fun c => c.1 = kCom1IRQ) (irq s);
  ok_room : (length (rx_ s) <= rx_limit)%nat }.

(** The fields the invariant is about. *)
Record same_state (s s' : Uart) : Prop := {
  same_ier : ier_ s' = ier_ s; same_iir : iir_ s' = iir_ s; same_sys : has_sys s' = has_sys s;
  same_rx : rx_ s' = rx_ s; same_irq : irq s' = irq s }.

Lemma same_refl s : same_state s s.
Proof. done. Qed.
Lemma same_trans s1 s2 s3 : same_state s1 s2 -> same_state s2 s3 -> same_state s1 s3.
Proof. intros [] []. split; congruence. Qed.

Lemma same_ok s s' : same_state s s' -> uart_ok s -> uart_ok s'.
Proof.
  intros [E1 E2 E3 E4 E5] [H1 H2 H3 H4].
  split; unfold pending_iir, rx_ready, last_level in *; rewrite ?E1, ?E2, ?E3, ?E4, ?E5; done.
Qed.

(** [update_interrupt_locked] restores it whatever was done to the registers. *)
Lemma kvm_update_ok s : Forall (fun c => c.1 = kCom1IRQ) (irq s) -> (length (rx_ s) <= rx_limit)%nat ->
  uart_ok (update_interrupt_locked s).
Proof.
  intros Hc Hr. unfold update_interrupt_locked, set_irq.
  destruct (has (ier_ s) 0x01 && negb _) eqn:E1; [|destruct (has (ier_ s) 0x02) eqn:E2];
    destruct (has_sys s) eqn:Es; cbn; rewrite ?Es; split; unfold pending_iir, rx_ready, last_level; cbn; rewrite ?Es;
    try done; try by constructor.
  all: destruct (has (ier_ s) 0x01), (rx_ s); cbn in *; try done; by rewrite ?E2.
Qed.

Lemma update_fields s : rx_ (update_interrupt_locked s) = rx_ s /\ ier_ (update_interrupt_locked s) = ier_ s /\
  has_sys (update_interrupt_locked s) = has_sys s.
Proof. unfold update_interrupt_locked, set_irq. repeat case_match; done. Qed.

Lemma track_same bytes : forall s, same_state s (track_console_markers bytes s).
Proof.
  induction bytes as [|b bytes IH]; intros s; [done|]. unfold track_console_markers in *. cbn [fold_left].
  eapply same_trans; [|apply IH]. unfold track_byte.
  destruct (halted_seen_ s); cbn; destruct (restarting_seen_ s); done.
Qed.

Lemma write_stdout_same bytes s : same_state s (write_stdout bytes s).
Proof. unfold write_stdout. by destruct (normalize _ _). Qed.

Lemma emit_same bytes s : same_state s (emit_tx_locked bytes s).
Proof.
  unfold emit_tx_locked. destruct bytes as [|b bytes]; [done|]. set (bs := b :: bytes).
  eapply same_trans; [apply (track_same bs)|]. set (t := track_console_markers bs s).
  cbv zeta. destruct (0 <? _); cbn [echo_stdout_]; [set (t1 := t <| console_ := _ |>)|set (t1 := t)];
    (eapply (same_trans _ t1); [done|]); clearbody t1; clearbody t;
    (match goal with |- context [if echo_stdout_ ?x then _ else _] => destruct (echo_stdout_ x) end); try done;
    destruct (console_output_seen_ _); try apply write_stdout_same;
    (match goal with |- context [if has_notify ?x then _ else _] => destruct (has_notify x) end);
    (eapply same_trans; [|apply write_stdout_same]); done.
Qed.

Lemma kvm_push_front_room bs q : (length q <= rx_limit -> length (push_front_while bs q) <= rx_limit)%nat.
Proof. exact (ArmUart.push_front_room bs q). Qed.
Lemma kvm_push_back_spec bs q : push_back_while bs q = q ++ take (rx_limit - length q) bs.
Proof. exact (ArmUart.push_back_spec bs q). Qed.

Lemma handle_tx_ok value s : uart_ok s -> uart_ok (handle_tx_byte value s).
Proof.
  intros Hs. unfold handle_tx_byte. destruct (_ || _); [|by eapply same_ok; [apply emit_same|]].
  set (s1 := s <| terminal_query_ := _ |>).
  assert (H1 : uart_ok s1) by (by apply (same_ok s)).
  destruct (prefix_of _ _).
  - destruct (bool_decide _); [|done].
    assert (H2 : uart_ok (enqueue_rx_locked response true s1)).
    { unfold enqueue_rx_locked. apply kvm_update_ok; cbn; [apply Hs|].
      apply (kvm_push_front_room (rev response)), Hs. }
    eapply same_ok; [|exact H2]. done.
  - eapply same_ok; [|exact H1]. eapply same_trans; [apply emit_same|]. done.
Qed.

Lemma kvm_run_op_ok o s : uart_ok s -> uart_ok (run_op o s).
Proof.
  intros Hs. pose proof Hs as [_ _ Hc Hr]. destruct o as [offset|offset value|data|data]; cbn [run_op].
  - unfold read. destruct (offset =? 0).
    { destruct (dlab s); [done|]. destruct (rx_ s) as [|c rest] eqn:E; cbn [snd]; apply kvm_update_ok; cbn; try done.
      - by rewrite E.
      - cbn in Hr. lia. }
    destruct (offset =? 1); [done|]. destruct (offset =? 2).
    { destruct (iir_ s =? 2); [|done]. cbn [snd]. apply kvm_update_ok; unfold set_irq; destruct (has_sys s); cbn; try done.
      by constructor. }
    repeat (destruct (_ =? _); [done|]). done.
  - unfold write. destruct (offset =? 0).
    { destruct (dlab s); [by apply (same_ok s)|]. destruct (has _ _); [|by apply handle_tx_ok].
      pose proof (handle_tx_ok value s Hs) as [_ _ Hc' Hr']. by apply kvm_update_ok. }
    destruct (offset =? 1).
    { destruct (dlab s); [by apply (same_ok s)|]. by apply kvm_update_ok. }
    repeat (destruct (_ =? _); [by apply (same_ok s)|]). done.
  - unfold enqueue_rx. apply kvm_update_ok; [done|]. cbn. rewrite kvm_push_back_spec, length_app, length_take.
    cbn [rx_]. lia.
  - by eapply same_ok; [apply emit_same|].
Qed.

Lemma kvm_run_ops_ok ops : forall s, uart_ok s -> uart_ok (run_ops ops s).
Proof. induction ops as [|o ops IH]; intros s Hs; [done|]. cbn. by apply IH, kvm_run_op_ok. Qed.

Lemma upd_sys s : has_sys (update_interrupt_locked s) = has_sys s.
Proof. apply update_fields. Qed.

Lemma set_irq_sys b s : has_sys (set_irq b s) = has_sys s.
Proof. unfold set_irq. by destruct (has_sys s) eqn:E; cbn; rewrite ?E. Qed.

Lemma run_op_sys o s : has_sys (run_op o s) = has_sys s.
Proof.
  assert (Htx : forall value, has_sys (handle_tx_byte value s) = has_sys s).
  { intros value. unfold handle_tx_byte. destruct (_ || _); [|apply emit_same].
    set (s1 := s <| terminal_query_ := _ |>). destruct (prefix_of _ _); [destruct (bool_decide _); [|done]|].
    - change (has_sys (update_interrupt_locked (s1 <| rx_ := push_front_while (rev response) (rx_ s1) |>)) = has_sys s).
      by rewrite upd_sys.
    - change (has_sys (emit_tx_locked (terminal_query_ s1) s1) = has_sys s).
      by rewrite (same_sys _ _ (emit_same _ _)). }
  destruct o as [offset|offset value|data|data]; cbn [run_op].
  - unfold read. repeat case_match; simplify_eq; cbn [snd]; rewrite ?upd_sys, ?set_irq_sys; done.
  - unfold write, raise_thr_empty. repeat case_match; rewrite ?upd_sys; try done; apply Htx.
  - unfold enqueue_rx. by rewrite upd_sys.
  - apply emit_same.
Qed.
Lemma run_ops_sys ops : forall s, has_sys (run_ops ops s) = has_sys s.
Proof. induction ops as [|o ops IH]; intros s; [done|]. cbn. by rewrite IH, run_op_sys. Qed.

(** After any sequence of guest accesses, console-port output and typed input, the
    interrupt identification register names the pending interrupt of highest priority
    (received data before transmitter empty), the level of interrupt 4 that KVM was last
    told is high exactly when one is pending, and at most 4096 bytes wait.  Reading the
    register does not acknowledge a transmitter-empty interrupt: it answers 0xC2, drops
    the line, raises it again, and the next read answers 0xC2 again. *)
Theorem kvm_uart_line limit echo notify ops :
  let s := run_ops ops (Uart_new limit echo true notify) in
  iir_ s = pending_iir s /\
  last_level s = negb (iir_ s =? 0x01) /\
  Forall (fun c => c.1 = kCom1IRQ) (irq s) /\ (length (rx_ s) <= 4096)%nat /\
  (iir_ s = 0x02 ->
     let '(v, s1) := read 2 s in
     v = 0xC2 /\ irq s1 = (4, true) :: (4, false) :: irq s /\ iir_ s1 = 0x02 /\ fst (read 2 s1) = 0xC2).
Proof.
  intros s. assert (Hs : uart_ok s).
  { apply kvm_run_ops_ok. split; [done|done|constructor|apply Nat.le_0_l]. }
  assert (Hsys : has_sys s = true) by apply run_ops_sys.
  clearbody s. pose proof Hs as [Hi Hl Hc Hr]. split_and!; try auto.
  intros E. unfold read. cbn [Z.eqb]. rewrite E. cbn [Z.eqb].
  unfold pending_iir in Hi. rewrite E in Hi.
  assert (Hcase : has (ier_ s) 0x01 && rx_ready s = false /\ has (ier_ s) 0x02 = true).
  { destruct (has (ier_ s) 0x01 && rx_ready s); [done|]. by destruct (has (ier_ s) 0x02). }
  destruct Hcase as [H1 H2].
  unfold update_interrupt_locked, set_irq. rewrite Hsys. cbn. rewrite H2, Hsys.
  unfold rx_ready in H1. destruct (has (ier_ s) 1), (rx_ s); cbn in *; done.
Qed.

(** ** The shutdown messages *)

(** The matcher run over a text: where it stands, and whether it has seen the pattern. *)
Definition matcher (pattern : list Z) (st : nat * bool) (b : Z) : nat * bool :=
  if snd st then st else let m := AdvanceMatch pattern (fst st) b in (m, (m =? length pattern)%nat).
Definition scan (pattern text : list Z) : nat * bool := fold_left (matcher pattern) text (O, false).

Lemma retreat_spec pattern b c :
  (retreat pattern c b <= c)%nat /\
  (forall k, (k <= c)%nat -> nth k pattern 0 = b -> (k <= retreat pattern c b)%nat /\
     nth (retreat pattern c b) pattern 0 = b).
Proof.
  induction c as [|c [IH1 IH2]]; cbn [retreat].
  - split; [lia|]. intros k Hk <-. assert (k = O) as -> by lia. done.
  - destruct (Z.eqb_spec b (nth (S c) pattern 0)) as [->|Hne].
    + split; [lia|]. intros k Hk _. done.
    + split; [lia|]. intros k Hk Hp. destruct (decide (k = S c)) as [->|]; [done|]. apply IH2; [lia|done].
Qed.

(** [text] ends with the first [k] bytes of the pattern. *)
Definition ends_with_prefix (pattern text : list Z) (k : nat) : Prop :=
  (k <= length pattern)%nat /\ exists t, text = t ++ take k pattern.

Lemma ends_step pattern text b k :
  ends_with_prefix pattern (text ++ [b]) (S k) -> ends_with_prefix pattern text k /\ nth k pattern 0 = b.
Proof.
  intros [Hk [t Ht]]. destruct (lookup_lt_is_Some_2 pattern k ltac:(lia)) as [c Hc].
  rewrite (take_S_r _ _ _ Hc), app_assoc in Ht. apply app_inj_tail in Ht as [Ht ->].
  split; [split; [lia|by exists t]|]. by apply nth_lookup_Some.
Qed.

(** The matcher never stands before a match in progress, so it misses none. *)
Lemma scan_ahead pattern text : (0 < length pattern)%nat ->
  snd (scan pattern text) = true \/
  ((fst (scan pattern text) < length pattern)%nat /\
   forall k, ends_with_prefix pattern text k -> (k <= fst (scan pattern text))%nat).
Proof.
  intros Hp. induction text as [|b text IH] using rev_ind.
  { right. split; [done|]. intros k [Hk [t Ht]]. cbn. symmetry in Ht. apply app_nil in Ht as [_ Ht].
    apply (f_equal length) in Ht. rewrite length_take in Ht. cbn in Ht. lia. }
  unfold scan in *. rewrite fold_left_app. cbn [fold_left].
  set (st := fold_left _ text _) in *. unfold matcher. destruct IH as [Hs|[Hlt Hk]]; [left; by rewrite Hs|].
  destruct (snd st) eqn:Hs; [by left|]. cbn [fst snd]. unfold AdvanceMatch.
  destruct (retreat_spec pattern b (fst st)) as [Hr1 Hr2]. set (r := retreat pattern (fst st) b) in *.
  destruct (Nat.eqb_spec (if b =? nth r pattern 0 then S r else r) (length pattern)) as [|Hne]; [by left|]. right.
  split; [destruct (b =? nth r pattern 0); lia|]. intros [|k] Hend; [lia|].
  apply ends_step in Hend as [Hend Hb]. destruct (Hr2 k (Hk k Hend) Hb) as [Hkr Hr].
  rewrite Hr, Z.eqb_refl. lia.
Qed.

Lemma prefix_of_app p q : prefix_of p q = true -> exists r, q = p ++ r.
Proof.
  revert q. induction p as [|a p IH]; intros q Hp; [by exists q|]. destruct q as [|b q]; [done|].
  cbn in Hp. apply andb_true_iff in Hp as [->%Z.eqb_eq Hp]. destruct (IH q Hp) as [r ->]. by exists r.
Qed.
Lemma infix_of_spec p text : infix_of p text = true -> exists l r, text = l ++ p ++ r.
Proof.
  induction text as [|b text IH]; cbn [infix_of]; intros Hi; apply orb_true_iff in Hi as [Hi|Hi]; try discriminate.
  1,2: apply prefix_of_app in Hi as [r ->]; by exists [], r.
  destruct (IH Hi) as (l & r & ->). by exists (b :: l), r.
Qed.

Lemma scan_seen_stays pattern t : forall st, snd st = true -> snd (fold_left (matcher pattern) t st) = true.
Proof.
  induction t as [|b t IH]; intros st Hs; [done|]. cbn [fold_left]. apply IH. unfold matcher. by rewrite Hs.
Qed.

Lemma scan_misses_none pattern text :
  (0 < length pattern)%nat -> infix_of pattern text = true -> snd (scan pattern text) = true.
Proof.
  intros Hp Hi. apply infix_of_spec in Hi as (l & r & ->). unfold scan. rewrite app_assoc, fold_left_app.
  apply scan_seen_stays. change (snd (scan pattern (l ++ pattern)) = true).
  destruct (scan_ahead pattern (l ++ pattern) Hp) as [?|[Hlt Hk]]; [done|].
  assert (length pattern <= fst (scan pattern (l ++ pattern)))%nat; [|lia].
  apply Hk. split; [done|]. exists l. by rewrite firstn_all.
Qed.

(** ** The captured console *)

Definition transmit (value : Z) (s : Uart) : Uart := write 0 value s.
Definition transmit_all (bs : list Z) (s : Uart) : Uart := fold_left (fun s b => transmit b s) bs s.

(** The state after the text [text] was emitted, with [q] held back. *)
Record view (n : nat) (echo : bool) (q text rx : list Z) (s : Uart) : Prop := {
  v_query : terminal_query_ s = q; v_con : console_ s = take n text; v_rx : rx_ s = rx;
  v_limit : limit_ s = Z.of_nat n; v_dlab : dlab s = false; v_echo : echo_stdout_ s = echo;
  v_out : (stdout s, last_stdout_byte_ s) = if echo then normalize 0 text else ([], 0);
  v_halted : (halted_match_ s, halted_seen_ s) = scan kHalted text;
  v_restarting : (restarting_match_ s, restarting_seen_ s) = scan kRestarting text }.

Lemma normalize_app last t1 t2 :
  normalize last (t1 ++ t2) =
  (fst (normalize last t1) ++ fst (normalize (snd (normalize last t1)) t2),
   snd (normalize (snd (normalize last t1)) t2)).
Proof.
  revert last. induction t1 as [|b t1 IH]; intros last; cbn [normalize app fst snd].
  - by destruct (normalize last t2).
  - rewrite IH. destruct (normalize b t1) as [o l]. cbn [fst snd]. by rewrite app_assoc.
Qed.

(** The matchers after [bytes]. *)
Lemma track_scan bytes : forall s t,
  (halted_match_ s, halted_seen_ s) = scan kHalted t ->
  (restarting_match_ s, restarting_seen_ s) = scan kRestarting t ->
  let s' := track_console_markers bytes s in
  (halted_match_ s', halted_seen_ s') = scan kHalted (t ++ bytes) /\
  (restarting_match_ s', restarting_seen_ s') = scan kRestarting (t ++ bytes).
Proof.
  induction bytes as [|b bytes IH]; intros s t H1 H2; [by rewrite app_nil_r|].
  unfold track_console_markers in *. cbn [fold_left].
  replace (t ++ b :: bytes) with ((t ++ [b]) ++ bytes) by (by rewrite <- app_assoc).
  apply IH; unfold scan in *; rewrite fold_left_app; cbn [fold_left]; [rewrite <- H1|rewrite <- H2];
    unfold track_byte, matcher; cbn [fst snd]; destruct (halted_seen_ s) eqn:E1; cbn;
    destruct (restarting_seen_ s) eqn:E2; cbn; rewrite ?E1, ?E2; done.
Qed.

(** Tracking changes nothing else. *)
Lemma track_fields bytes : forall s, let s' := track_console_markers bytes s in
  console_ s' = console_ s /\ terminal_query_ s' = terminal_query_ s /\ rx_ s' = rx_ s /\
  limit_ s' = limit_ s /\ lcr_ s' = lcr_ s /\ echo_stdout_ s' = echo_stdout_ s /\
  stdout s' = stdout s /\ last_stdout_byte_ s' = last_stdout_byte_ s.
Proof.
  induction bytes as [|b bytes IH]; intros s; [done|]. unfold track_console_markers in *. cbn [fold_left].
  destruct (IH (track_byte b s)) as (-> & -> & -> & -> & -> & -> & -> & ->).
  unfold track_byte. destruct (halted_seen_ s); cbn; destruct (restarting_seen_ s); done.
Qed.
#[local] Arguments kHalted : simpl never.
#[local] Arguments kRestarting : simpl never.

Lemma kvm_emit_view n echo q text rx bytes s :
  view n echo q text rx s -> view n echo q (text ++ bytes) rx (emit_tx_locked bytes s).
Proof.
  intros [Eq Ec Er El Ed Ee Eo Eh Ers]. unfold emit_tx_locked.
  destruct bytes as [|b bytes]; [by rewrite app_nil_r|]. set (bs := b :: bytes).
  destruct (track_scan bs s text Eh Ers) as [Eh' Ers'].
  destruct (track_fields bs s) as (F1 & F2 & F3 & F4 & F5 & F6 & F7 & F8).
  set (t := track_console_markers bs s) in *. clearbody t bs. cbv zeta.
  assert (Hcon : console_ (if 0 <? (if Z.of_nat (length (console_ t)) <? limit_ t
                                    then limit_ t - Z.of_nat (length (console_ t)) else 0)
                           then t <| console_ := console_ t ++
                                  take (Z.to_nat (Z.min (if Z.of_nat (length (console_ t)) <? limit_ t
                                    then limit_ t - Z.of_nat (length (console_ t)) else 0)
                                    (Z.of_nat (length bs)))) bs |>
                           else t) = take n (text ++ bs)).
  { rewrite F1, F4, Ec, El, length_take, take_app.
    destruct (Z.ltb_spec (Z.of_nat (Nat.min n (length text))) (Z.of_nat n)) as [Hlt|Hge].
    - destruct (Z.ltb_spec 0 (Z.of_nat n - Z.of_nat (Nat.min n (length text)))); [|lia]. cbn. f_equal.
      replace (Z.to_nat _) with (Nat.min (n - length text) (length bs)) by lia.
      rewrite <- take_take. by rewrite (take_ge bs (length bs)) by lia.
    - cbn. rewrite F1, Ec. replace (n - length text)%nat with O by lia. by rewrite app_nil_r. }
  set (u := if 0 <? _ then _ else _) in *.
  assert (Hu : terminal_query_ u = q /\ rx_ u = rx /\ limit_ u = Z.of_nat n /\ lcr_ u = lcr_ s /\
    echo_stdout_ u = echo /\ stdout u = stdout s /\ last_stdout_byte_ u = last_stdout_byte_ s /\
    halted_match_ u = halted_match_ t /\ halted_seen_ u = halted_seen_ t /\
    restarting_match_ u = restarting_match_ t /\ restarting_seen_ u = restarting_seen_ t).
  { subst u. destruct (0 <? _); cbn; split_and!; congruence. }
  clearbody u. destruct Hu as (U1 & U2 & U3 & U4 & U5 & U6 & U7 & U8 & U9 & U10 & U11).
  assert (Hdl : dlab s = dlab u) by (unfold dlab; by rewrite U4). rewrite Ed in Hdl. rewrite U5.
  destruct echo.
  - set (w := if console_output_seen_ u then u else _).
    assert (Hw : view n true q (text ++ bs) rx (write_stdout bs w)); [|exact Hw].
    unfold write_stdout. destruct (normalize (last_stdout_byte_ w) bs) as [out last] eqn:En.
    assert (W : terminal_query_ w = q /\ rx_ w = rx /\ limit_ w = Z.of_nat n /\ dlab w = false /\
      console_ w = take n (text ++ bs) /\ echo_stdout_ w = true /\ stdout w = stdout s /\
      last_stdout_byte_ w = last_stdout_byte_ s /\
      (halted_match_ w, halted_seen_ w) = scan kHalted (text ++ bs) /\
      (restarting_match_ w, restarting_seen_ w) = scan kRestarting (text ++ bs)).
    { subst w. unfold dlab in *. destruct (console_output_seen_ u); [|destruct (has_notify _)]; cbn;
        split_and!; congruence. }
    destruct W as (W1 & W2 & W3 & W4 & W5 & W6 & W7 & W8 & W9 & W10).
    split; cbn; try done. rewrite W7. rewrite W8 in En. rewrite normalize_app.
    destruct (normalize 0 text) as [o l]. injection Eo as E1 E2. rewrite E1. rewrite E2 in En. cbn [fst snd]. by rewrite En.
  - split; try done; try congruence.
Qed.

Lemma update_view n echo q text rx s :
  view n echo q text rx s -> view n echo q text rx (update_interrupt_locked s).
Proof.
  intros Hs. unfold update_interrupt_locked, set_irq.
  destruct (_ && _); [|destruct (has (ier_ s) 2)]; destruct (has_sys _); destruct Hs; by split.
Qed.

(** A step of the matcher of ArmUart, which is the same. *)
Lemma kvm_transmit_step n echo q text rx c s : view n echo q text rx s ->
  let '(q', text', rx') := match_step q c text rx in view n echo q' text' rx' (transmit c s).
Proof.
  intros Hs. pose proof Hs as [Eq Ec Er El Ed Ee Eo Eh Ers].
  destruct (match_step q c text rx) as [[q' text'] rx'] eqn:E.
  assert (Hv : view n echo q' text' rx' (handle_tx_byte c s)).
  { unfold handle_tx_byte, match_step in *. rewrite Eq.
    destruct (_ || _); [|injection E as <- <- <-; by apply kvm_emit_view].
    set (s1 := s <| terminal_query_ := q ++ [c] |>). change (terminal_query_ s1) with (q ++ [c]).
    assert (Hv : view n echo (q ++ [c]) text rx s1) by by split.
    change query with ArmUart.query. destruct (prefix_of (q ++ [c]) _); [destruct (bool_decide _)|];
      injection E as <- <- <-.
    - set (s2 := s1 <| rx_ := push_front_while (rev response) (rx_ s1) |>).
      assert (Hv2 : view n echo (q ++ [c]) text (push_front_while (rev response) rx) s2).
      { destruct Hv as [? ? Hrx]. split; try done. change (rx_ s2) with (push_front_while (rev response) (rx_ s1)).
        by rewrite Hrx. }
      apply update_view in Hv2. destruct Hv2. by split.
    - done.
    - pose proof (kvm_emit_view _ _ _ _ _ (q ++ [c]) _ Hv) as [??????]. by split. }
  unfold transmit, write. cbn [Z.eqb]. rewrite Ed.
  destruct (has _ _); [|done]. by apply update_view.
Qed.

(** The matcher on a list of bytes. *)
Definition match_all (bs : list Z) (st : list Z * list Z * list Z) : list Z * list Z * list Z :=
  fold_left (fun '(q, text, rx) c => match_step q c text rx) bs st.

Lemma match_prefix l text rx : prefix_of l ArmUart.query = true -> (length l < 4)%nat ->
  match_all l ([], text, rx) = (l, text, rx).
Proof.
  intros Hp Hl. destruct l as [|a [|b [|d [|]]]]; cbn in Hp, Hl; try lia; [done|..];
    repeat (apply andb_true_iff in Hp as [->%Z.eqb_eq Hp]); reflexivity.
Qed.

Lemma match_piece p text rx : piece_ok p = true ->
  match_all (sent p) ([], text, rx) =
  ([], text ++ shown p, if decide (p = Query) then ArmUart.push_front_while (rev ArmUart.response) rx else rx).
Proof.
  intros Hp. destruct p as [c| |l c]; cbn [sent shown piece_ok] in *.
  - unfold match_all. cbn [fold_left]. unfold match_step. apply negb_true_iff in Hp. by rewrite Hp.
  - by rewrite app_nil_r.
  - apply andb_true_iff in Hp as [Hp Hn]. apply andb_true_iff in Hp as [Hp Hl]. apply andb_true_iff in Hp as [Hp H0].
    apply Nat.ltb_lt in Hl, H0. apply negb_true_iff in Hn. unfold match_all. rewrite fold_left_app.
    change (fold_left (fun '(q, text, rx) c => match_step q c text rx) l) with (match_all l).
    rewrite match_prefix by done. cbn [fold_left]. unfold match_step. rewrite Hn. destruct l; [cbn in H0; lia|done].
Qed.

Lemma match_pieces ps rest text rx :
  Forall (fun p => piece_ok p = true) ps -> prefix_of rest ArmUart.query = true -> (length rest < 4)%nat ->
  match_all (concat (map sent ps) ++ rest) ([], text, rx) =
  (rest, text ++ concat (map shown ps),
   Nat.iter (answers ps) (ArmUart.push_front_while (rev ArmUart.response)) rx).
Proof.
  intros Hps Hr Hl. revert text rx. induction Hps as [|p ps Hp _ IH]; intros text rx; cbn [map concat].
  - rewrite app_nil_r. by apply match_prefix.
  - rewrite <- app_assoc. unfold match_all in *. rewrite fold_left_app.
    change (fold_left _ (sent p) _) with (match_all (sent p) ([], text, rx)). rewrite match_piece, IH by done.
    rewrite app_assoc. f_equal. unfold answers. rewrite filter_cons.
    destruct (decide (p = Query)); [|done]. cbn [length]. by rewrite Nat.iter_succ_r.
Qed.

Lemma transmit_all_view n echo bs : forall q text rx s, view n echo q text rx s ->
  let '(q', text', rx') := match_all bs (q, text, rx) in view n echo q' text' rx' (transmit_all bs s).
Proof.
  induction bs as [|b bs IH]; intros q text rx s Hs; [done|].
  pose proof (kvm_transmit_step n echo q text rx b s Hs) as H1. unfold match_all, transmit_all in *. cbn [fold_left].
  destruct (match_step q b text rx) as [[q1 text1] rx1]. by apply IH.
Qed.

Lemma transmit_pieces n echo sys notify ps rest :
  Forall (fun p => piece_ok p = true) ps -> prefix_of rest query = true -> (length rest < 4)%nat ->
  view n echo rest (concat (map shown ps)) (Nat.iter (answers ps) (push_front_while (rev response)) [])
    (transmit_all (concat (map sent ps) ++ rest) (Uart_new (Z.of_nat n) echo sys notify)).
Proof.
  intros Hps Hr Hl.
  assert (H0 : view n echo [] [] [] (Uart_new (Z.of_nat n) echo sys notify))
    by (split; try done; [by rewrite take_nil|by destruct echo]).
  pose proof (transmit_all_view n echo (concat (map sent ps) ++ rest) _ _ _ _ H0) as Hv.
  by rewrite match_pieces in Hv.
Qed.

(** A newline in [out] always follows a return. *)
Fixpoint newlines_ok (last : Z) (out : list Z) : Prop :=
  match out with
  | [] => True
  | b :: out => (b = 0x0A -> last = 0x0D) /\ newlines_ok b out
  end.
Lemma normalize_newlines last bytes : newlines_ok last (fst (normalize last bytes)).
Proof.
  revert last. induction bytes as [|b bytes IH]; intros last; cbn [normalize]; [done|].
  specialize (IH b). destruct (normalize b bytes) as [o l]. cbn [fst] in *.
  destruct (Z.eqb_spec b 10) as [->|Hb], (Z.eqb_spec last 13) as [->|Hl]; cbn; by split_and?.
Qed.

(** The captured console is what the guest transmitted without its cursor queries, cut
    at the limit; each query is answered in front of the waiting input, and an unfinished
    one is held back.  With echo, the standard output gets the same text uncut, with a
    return before each newline that lacks one.  (A query directly after a stray ESC belongs
    to that piece: it is shown and not answered.) *)
Theorem kvm_uart_console n echo sys notify ps rest :
  Forall (fun p => piece_ok p = true) ps -> prefix_of rest query = true -> (length rest < 4)%nat ->
  let s := transmit_all (concat (map sent ps) ++ rest) (Uart_new (Z.of_nat n) echo sys notify) in
  let text := concat (map shown ps) in
  console_ s = take n text /\ terminal_query_ s = rest /\
  rx_ s = Nat.iter (answers ps) (push_front_while (rev response)) [] /\
  stdout s = (if echo then fst (normalize 0 text) else []) /\ newlines_ok 0 (stdout s).
Proof.
  intros Hps Hr Hl s text. pose proof (transmit_pieces n echo sys notify ps rest Hps Hr Hl) as [Eq Ec Er _ _ _ Eo _ _].
  fold s text in Eq, Ec, Er, Eo.
  assert (Hout : stdout s = (if echo then fst (normalize 0 text) else [])).
  { destruct echo; [|by injection Eo]. by rewrite <- Eo. }
  split_and!; [done..|]. rewrite Hout. destruct echo; [apply normalize_newlines|done].
Qed.

(** The text whose "st" after "Restarting " lets the matcher fall back into "Restart". *)
Definition false_alarm : list Z := chars "Restarting sting system".

Lemma pair_eq_snd {A B} (a : A) (b : B) p : (a, b) = p -> b = snd p.
Proof. by intros <-. Qed.

Lemma kvm_contains_halted s : contains kHalted s = halted_seen_ s.
Proof. unfold contains. by rewrite bool_decide_true. Qed.
Lemma kvm_contains_restarting s : contains kRestarting s = restarting_seen_ s.
Proof. unfold contains. rewrite bool_decide_false; [by rewrite bool_decide_true|]. intros Heq. vm_compute in Heq. discriminate. Qed.

Lemma false_alarm_plain : Forall (fun p => piece_ok p = true) (map Plain false_alarm).
Proof. apply List.Forall_forall, forallb_forall. vm_compute. reflexivity. Qed.
Lemma false_alarm_sent : concat (map sent (map Plain false_alarm)) ++ [] = false_alarm.
Proof. vm_compute. reflexivity. Qed.
Lemma false_alarm_shown : concat (map shown (map Plain false_alarm)) = false_alarm.
Proof. vm_compute. reflexivity. Qed.
Lemma false_alarm_seen : snd (scan kRestarting false_alarm) = true.
Proof. vm_compute. reflexivity. Qed.

(** A shutdown message in the transmitted text is always noticed, even past the limit of
    the captured console.  The converse fails: after a mismatch the matcher keeps a longer
    match than the text has, and takes "Restarting sting system" for the message. *)
Theorem kvm_shutdown_messages n echo sys notify ps rest :
  Forall (fun p => piece_ok p = true) ps -> prefix_of rest query = true -> (length rest < 4)%nat ->
  let s := transmit_all (concat (map sent ps) ++ rest) (Uart_new (Z.of_nat n) echo sys notify) in
  let text := concat (map shown ps) in
  (infix_of kHalted text = true -> contains kHalted s = true) /\
  (infix_of kRestarting text = true -> contains kRestarting s = true) /\
  (infix_of kRestarting false_alarm = false /\
   contains kRestarting (transmit_all false_alarm (Uart_new (Z.of_nat n) echo sys notify)) = true).
Proof.
  intros Hps Hr Hl s text.
  pose proof (transmit_pieces n echo sys notify ps rest Hps Hr Hl) as [_ _ _ _ _ _ _ Eh Ers].
  fold s text in Eh, Ers. split_and!.
  - intros Hi. rewrite kvm_contains_halted.
    rewrite (pair_eq_snd _ _ _ Eh). apply scan_misses_none; [by apply Nat.ltb_lt|done].
  - intros Hi. rewrite kvm_contains_restarting.
    rewrite (pair_eq_snd _ _ _ Ers).
    apply scan_misses_none; [by apply Nat.ltb_lt|done].
  - reflexivity.
  - rewrite kvm_contains_restarting.
    pose proof (transmit_pieces n echo sys notify (map Plain false_alarm) [] false_alarm_plain eq_refl
      ltac:(cbn; lia)) as Hv.
    rewrite false_alarm_sent, false_alarm_shown in Hv. apply v_restarting, pair_eq_snd in Hv.
    rewrite Hv. apply false_alarm_seen.
Qed.

Module Demo.
(** "ok", a query, and the halt message *)
Definition pieces : list piece := [Plain 0x6F; Plain 0x6B; Plain 0x0A; Query] ++ map Plain kHalted.

Lemma pieces_fine : Forall (fun p => piece_ok p = true) pieces.
Proof. by repeat constructor. Qed.

Lemma kvm_uart_console_witness :
  let s := transmit_all (concat (map sent pieces) ++ [0x1B]) (Uart_new (Z.of_nat 3) true true true) in
  console_ s = [0x6F; 0x6B; 0x0A] /\ rx_ s = response /\ take 4 (stdout s) = [0x6F; 0x6B; 0x0D; 0x0A].
Proof.
  intros s. destruct (kvm_uart_console 3 true true true pieces [0x1B]) as (Ec & _ & Er & Eo & _).
  - apply pieces_fine.
  - reflexivity.
  - cbn. lia.
  - split_and!; [exact Ec|exact Er|]. fold s in Eo. rewrite Eo. reflexivity.
Defined.

Lemma kvm_shutdown_messages_witness :
  contains kHalted (transmit_all (concat (map sent pieces) ++ []) (Uart_new (Z.of_nat 3) true true true)) = true.
Proof.
  destruct (kvm_shutdown_messages 3 true true true pieces []) as (Hh & _).
  - apply pieces_fine.
  - reflexivity.
  - cbn. lia.
  - apply Hh. reflexivity.
Defined.
End Demo.

(** ** Port accesses *)

(** The ports something answers, with the width it wants. *)
Definition claimed (io : kvm_io) : bool :=
  (io_size io =? 1) &&
  ((port io =? kNodeVmmExitPort) || (port io =? kNodeVmmConsolePort) ||
   ((kCom1Base <=? port io) && (port io <? kCom1Base + 8))).

Lemma io_items_out n io : is_out io = true -> forall data uart ge,
  fst (fst (io_items n io data uart ge)) = data.
Proof.
  intros Ho. induction n as [|n IH]; intros data uart ge; [done|]. cbn [io_items].
  assert (Hi : forall item u g, fst (fst (io_item io item u g)) = item)
    by (intros; unfold io_item; rewrite Ho; repeat case_match; done).
  specialize (Hi (take (Z.to_nat (io_size io)) data) uart ge).
  destruct (io_item io _ uart ge) as [[item u] g]. cbn [fst] in Hi. subst item.
  specialize (IH (drop (Z.to_nat (io_size io)) data) u g).
  destruct (io_items n io _ u g) as [[rest u'] g']. cbn [fst] in *. subst rest. apply take_drop.
Qed.

Lemma io_items_unclaimed n io : claimed io = false -> forall data uart ge,
  (n * Z.to_nat (io_size io) <= length data)%nat ->
  io_items n io data uart ge =
  (if is_out io then data
   else repeat 0 (n * Z.to_nat (io_size io)) ++ drop (n * Z.to_nat (io_size io)) data, uart, ge).
Proof.
  intros Hc. assert (Hi : forall item u g, io_item io item u g = (if is_out io then item else repeat 0 (length item), u, g)).
  { intros item u g. unfold io_item, claimed in *. destruct (io_size io =? 1); [|rewrite !andb_false_r; by destruct (is_out io)].
    cbn [andb] in Hc. apply orb_false_iff in Hc as [Hc H3]. apply orb_false_iff in Hc as [H1 H2].
    rewrite H1, H2, H3. by destruct (is_out io). }
  induction n as [|n IH]; intros data uart ge Hl; cbn [io_items]; [by destruct (is_out io)|].
  rewrite Hi, IH by (rewrite length_drop; lia). destruct (is_out io); [by rewrite take_drop|].
  rewrite length_take, Nat.min_l by lia. rewrite drop_drop, app_assoc. cbn [Nat.mul]. by rewrite repeat_app.
Qed.

(** What an OUT of bytes does to the port and the exit request. *)
Definition out_bytes (io : kvm_io) (bs : list Z) (uart : Uart) (ge : option GuestExit) : Uart * option GuestExit :=
  if port io =? kNodeVmmExitPort then
    (uart, match ge, list.last bs with Some _, Some b => Some (mkGuestExit true b) | _, _ => ge end)
  else if port io =? kNodeVmmConsolePort then (fold_left (fun s b => emit_bytes [b] s) bs uart, ge)
  else (fold_left (fun s b => write (port io - kCom1Base) b s) bs uart, ge).

Lemma io_items_bytes n io : claimed io = true -> is_out io = true -> forall data uart ge,
  (n <= length data)%nat ->
  let '(_, uart', ge') := io_items n io data uart ge in (uart', ge') = out_bytes io (take n data) uart ge.
Proof.
  intros Hc Ho. pose proof Hc as Hc'. unfold claimed in Hc. apply andb_true_iff in Hc as [H1 Hp].
  assert (Hs : Z.to_nat (io_size io) = 1%nat) by lia.
  induction n as [|n IH]; intros data uart ge Hl.
  { cbn. unfold out_bytes. cbn [list.last fold_left]. repeat case_match; done. }
  cbn [io_items]. rewrite Hs. destruct data as [|b data]; [cbn in Hl; lia|]. cbn [length] in Hl.
  change (take 1 (b :: data)) with [b]. change (drop 1 (b :: data)) with data. change (take (S n) (b :: data)) with (b :: take n data).
  unfold io_item. rewrite H1, Ho, !andb_true_r. change (byte_at [b] 0) with b. cbn [take].
  unfold out_bytes. destruct (port io =? kNodeVmmExitPort) eqn:E1.
  - specialize (IH data uart (match ge with Some _ => Some (mkGuestExit true b) | None => None end) ltac:(lia)).
    destruct (io_items n io data uart _) as [[r u] g]. rewrite IH. unfold out_bytes. rewrite E1. f_equal.
    destruct ge; [|done]. destruct data as [|c data]; [by destruct n|]. destruct n as [|n]; [done|].
    cbn [take]. change (list.last (b :: c :: take n data)) with (list.last (c :: take n data)).
    destruct (list.last (c :: take n data)) eqn:E; [done|]. by apply list.last_None in E.
  - destruct (port io =? kNodeVmmConsolePort) eqn:E2.
    + specialize (IH data (emit_bytes [b] uart) ge ltac:(lia)).
      destruct (io_items n io data _ _) as [[r u] g]. rewrite IH. unfold out_bytes. by rewrite E1, E2.
    + cbn [orb] in Hp. rewrite Hp. cbn [andb]. rewrite u16_small by (unfold kCom1Base in *; lia).
      specialize (IH data (write (port io - kCom1Base) b uart) ge ltac:(lia)).
      destruct (io_items n io data _ _) as [[r u] g]. rewrite IH. unfold out_bytes. by rewrite E1, E2.
Qed.

(** A port access reaches the device it names: bytes written to the exit port, the
    console port or a register of the serial port arrive there in order, and an output
    leaves the buffer alone; any other access changes no device and reads zeros. *)
Theorem HandleIo_routes io data uart ge :
  0 <= count io -> 0 <= io_size io -> count io * io_size io <= Z.of_nat (length data) ->
  let '(data', uart', ge') := HandleIo io data uart ge in
  (is_out io = true -> data' = data) /\
  (claimed io = true -> is_out io = true ->
     (uart', ge') = out_bytes io (take (Z.to_nat (count io)) data) uart ge) /\
  (claimed io = false -> uart' = uart /\ ge' = ge /\
     (is_out io = false -> data' = repeat 0 (Z.to_nat (count io * io_size io)) ++
                                   drop (Z.to_nat (count io * io_size io)) data)).
Proof.
  intros Hc Hs Hl. unfold HandleIo.
  pose proof (fun H => io_items_out (Z.to_nat (count io)) io H data uart ge) as Hout.
  pose proof (fun H => io_items_unclaimed (Z.to_nat (count io)) io H data uart ge ltac:(lia)) as Hun.
  pose proof (fun H Ho => io_items_bytes (Z.to_nat (count io)) io H Ho data uart ge) as Hb.
  destruct (io_items _ io data uart ge) as [[data' uart'] ge']. cbn [fst] in Hout. split_and!.
  - done.
  - intros Hcl Ho. apply Hb; [done|done|]. unfold claimed in Hcl. apply andb_true_iff in Hcl as [H1 _]. nia.
  - intros Hcl. specialize (Hun Hcl). injection Hun as -> -> ->. split_and!; [done|done|]. intros ->.
    replace (Z.to_nat (count io * io_size io)) with (Z.to_nat (count io) * Z.to_nat (io_size io))%nat by lia. done.
Qed.
