(* ===== verification/KvmRunner.v ===== *)
(** * native/kvm/backend.cc: the threads of RunVm

    The processors, the watchdog and the host that writes the control words, as one
    program counter per thread over the atomics they share; each access to a shared
    variable is a step of its own, so the executions are all interleavings.  KVM_RUN is
    the hypervisor's: it returns at once when [immediate_exit] is set, and a thread that
    is in it leaves on a signal; a signal that arrives while the thread runs the
    monitor's own code only runs the empty handler.  The devices under [device_mu] are
    reached through the class [Devices].  The theorems: the first [finish] decides the
    result; what RunVm waits for at the end ends, KVM_RUN excepted; and a wake-up of a
    processor can be lost, so that RunVm waits for ever or reports a time-out that did
    not happen. *)

From S2P Require Import Prelude Words Bytes KvmUart.
From stdpp Require Import pretty.
#[local] Open Scope string_scope.
#[local] Open Scope Z_scope.

(** ** Exits *)

(** [run->mmio] *)
Record kvm_mmio := mkMmio { phys_addr : Z; mmio_data : list Z; mmio_len : Z; is_write : bool }.

Inductive vm_exit :=
  | ExitIo (io : kvm_io) (data : list Z)
  | ExitMmio (m : kvm_mmio)
  | ExitIrqWindowOpen | ExitHlt | ExitShutdown | ExitSystemEvent | ExitInternalError
  | ExitFailEntry (hardware_entry_failure_reason : Z)
  | ExitOther (reason : Z).

(** KVM_EXIT_* of linux/kvm.h. *)
Definition KVM_EXIT_HLT : Z := 5.
Definition KVM_EXIT_INTR : Z := 10.
Definition KVM_EXIT_INTERNAL_ERROR : Z := 17.
Definition exit_code (x : vm_exit) : Z :=
  match x with
  | ExitIo _ _ => 2 | ExitHlt => 5 | ExitMmio _ => 6 | ExitIrqWindowOpen => 7 | ExitShutdown => 8
  | ExitFailEntry _ => 9 | ExitInternalError => 17 | ExitSystemEvent => 24 | ExitOther reason => reason
  end.

Definition ExitReasonName (reason : Z) : string :=
  if reason =? 0 then "unknown" else if reason =? 1 then "exception" else if reason =? 2 then "io"
  else if reason =? 5 then "hlt" else if reason =? 6 then "mmio" else if reason =? 7 then "irq-window-open"
  else if reason =? 8 then "shutdown" else if reason =? 9 then "fail-entry"
  else if reason =? 17 then "internal-error" else if reason =? 24 then "system-event"
  else "exit-" ++ pretty reason.

(** What KVM_RUN returns; [RunAgain] is EAGAIN. *)
Inductive run_result := RunExit (x : vm_exit) | RunAgain | RunFailed (errno : string).

(** ** The devices under the lock *)

Class Devices (D : Type) := {
  (** HandleIo; whether the guest asked to exit *)
  dev_io : nat -> kvm_io -> list Z -> M D bool;
  (** HandleMmio *)
  dev_mmio : nat -> kvm_mmio -> M D unit;
  (** [net->poll_rx()], nothing without a network *)
  dev_poll : M D unit;
  (** the console shows one of the shutdown messages *)
  dev_halted : D -> bool;
  (** enqueue_rx of console input *)
  dev_input : list Z -> D -> D;
  dev_console : D -> list Z
}.

(** ** Shared state *)

Definition kControlRun : Z := 0.
Definition kControlPause : Z := 1.
Definition kControlStop : Z := 2.
Definition kControlStateStarting : Z := 0.
Definition kControlStateRunning : Z := 1.
Definition kControlStatePaused : Z := 2.
Definition kControlStateStopping : Z := 3.
Definition kControlStateExited : Z := 4.

Record run_config := mkRunConfig { cpus : Z; timeout_ms : Z; start : Z }.

Record shared (D : Type) := mkShared {
  control : option (Z * Z);             (** command and state words, [None] without control *)
  vm_done : bool; watchdog_done : bool; watchdog_timeout : bool; watchdog_halted : bool;
  host_interrupt_requested : bool; input_done : bool;
  runs : Z; paused_count : Z; timeout_extension_ms : Z;
  final_exit_reason : string; final_reason : Z; error_message : string;
  immediate_exit : list bool;           (** of each processor's run structure *)
  runner_ready : list bool;
  now : Z;                              (** the steady clock *)
  devices : D }.
Arguments mkShared {D}. Arguments control {D}. Arguments vm_done {D}. Arguments watchdog_done {D}.
Arguments watchdog_timeout {D}. Arguments watchdog_halted {D}. Arguments host_interrupt_requested {D}.
Arguments input_done {D}. Arguments runs {D}. Arguments paused_count {D}. Arguments timeout_extension_ms {D}.
Arguments final_exit_reason {D}. Arguments final_reason {D}. Arguments error_message {D}.
Arguments immediate_exit {D}. Arguments runner_ready {D}. Arguments now {D}. Arguments devices {D}.
#[export] Instance eta_shared D : Eta (shared D) := fun s =>
  mkShared (control s) (vm_done s) (watchdog_done s) (watchdog_timeout s) (watchdog_halted s)
    (host_interrupt_requested s) (input_done s) (runs s) (paused_count s) (timeout_extension_ms s)
    (final_exit_reason s) (final_reason s) (error_message s) (immediate_exit s) (runner_ready s) (now s) (devices s).

Record run_vm_result := mkResult { exitReason : string; exitReasonCode : Z; result_runs : Z; result_console : list Z }.

(** ** Threads *)

(** What follows a call of [finish]. *)
Inductive after := Return | Join | Rethrow (msg : string).

(** Where a processor's thread is; the thread of processor 0 goes on with the end of RunVm. *)
Inductive pc :=
  | SetRunner | Top | ReadCommand | SetStopping
  | Finish (reason : string) (code : Z) (k : after)
  | Publish (reason : string) (code : Z) (k : after)
  | KickFlag (j : nat) (k : after) | KickSignal (j : nat) (k : after)
  | PauseClock | EnterPause (paused_at : Z) | SetPaused (paused_at : Z)
  | PauseCmd (paused_at : Z) | PauseDone (paused_at : Z) | LeavePause (paused_at : Z) | Extend (paused_at : Z)
  | AfterPause | AfterPauseDone | SetRunning
  | PollRx | ClearImmediate | EnterRun | InGuest
  | Interrupted | PollAfter | CheckHalted | CheckTimeout
  | Failed (errno : string) | CountRun (x : vm_exit) | Handle (x : vm_exit) | CheckConsole
  | Raise (msg : string) | Record_ (msg : string)
  | Returned
  | JoinCpus | SetExited | StopInput | StopWatchdog | JoinWatchdog | MakeResult
  | Done (r : run_vm_result) | Threw (msg : string).

(** What follows an [interrupt_all] of the watchdog. *)
Inductive wafter := ToTap | ToPause | ToBreak | ToEnd.
Inductive watchdog_pc :=
  | WTop | WHostInterrupt
  | WFinish (reason : string) (code : Z) | WPublish (reason : string) (code : Z)
  | WKickFlag (j : nat) (k : wafter) | WKickSignal (j : nat) (k : wafter)
  | WCommand | WTap | WPause | WDeadline | WCompare (deadline : Z) | WTimeout | WContains | WHalted
  | WBreak | WReturned.

Record vm (D : Type) := mkVm { sh : shared D; vcpus : list pc; watchdog : watchdog_pc }.
Arguments mkVm {D}. Arguments sh {D}. Arguments vcpus {D}. Arguments watchdog {D}.

Section Threads.
Context {D : Type} `{Devices D} (c : run_config).
Local Notation shared := (shared D).
Local Notation vm := (vm D).

Definition command (s : shared) : Z := match control s with Some (cmd, _) => cmd | None => kControlRun end.
Definition set_state (state : Z) (s : shared) : shared :=
  match control s with Some (cmd, _) => s <| control := Some (cmd, state) |> | None => s end.

Definition ncpus : nat := Z.to_nat (cpus c).
Definition timed_out : string := "VM timed out after " ++ pretty (timeout_ms c) ++ "ms".
Definition resume (k : after) : pc :=
  match k with Return => Returned | Join => JoinCpus | Rethrow msg => Threw msg end.

(** [finish]: the exchange, then the result under its lock, then [interrupt_all]. *)
Definition finish_step (reason : string) (code : Z) (k : after) (s : shared) : pc * shared :=
  if vm_done s then (resume k, s) else (Publish reason code k, s <| vm_done := true |>).
Definition publish_step (reason : string) (code : Z) (s : shared) : shared :=
  (s <| final_exit_reason := reason |>) <| final_reason := code |>.

(** [interrupt_all]: the flags of all processors, then a signal to each thread that runs. *)
Definition set_immediate (j : nat) (b : bool) (s : shared) : shared :=
  s <| immediate_exit := <[j := b]> (immediate_exit s) |>.
Definition is_ready (j : nat) (s : shared) : bool := default false (runner_ready s !! j).
Definition immediate (j : nat) (s : shared) : bool := default false (immediate_exit s !! j).

(** A call of a device: the state after it, and where the thread goes. *)
Definition device_step {A} (m : M D A) (k : A -> pc) (s : shared) : option (pc * shared) :=
  let '(o, d) := m (devices s) in
  let s := s <| devices := d |> in
  match o with
  | Ok a => Some (k a, s)
  | Throw msg => Some (Raise msg, s)
  | OutOfFuel => None
  end.

(** The [switch] on the exit reason. *)
Definition handle_exit (i : nat) (x : vm_exit) (s : shared) : option (pc * shared) :=
  match x with
  | ExitIo io data =>
      device_step (dev_io i io data) (fun requested =>
        if requested then Finish "guest-exit" (exit_code x) Return else CheckConsole) s
  | ExitMmio m => device_step (dev_mmio i m) (fun _ => Top) s
  | ExitIrqWindowOpen => Some (Top, s)
  | ExitHlt =>
      if (i =? 0)%nat then Some (Finish (ExitReasonName (exit_code x)) (exit_code x) Return, s) else Some (Top, s)
  | ExitShutdown | ExitSystemEvent => Some (Finish (ExitReasonName (exit_code x)) (exit_code x) Return, s)
  | ExitInternalError => Some (Raise "KVM internal error", s)
  | ExitFailEntry reason =>
      Some (Raise ("KVM fail entry hardware_entry_failure_reason=" ++ pretty reason), s)
  | ExitOther reason => Some (Raise ("unhandled KVM exit: " ++ ExitReasonName reason), s)
  end.

(** [poll_rx] is called by processor 0. *)
Definition poll (i : nat) (k : pc) (s : shared) : option (pc * shared) :=
  if (i =? 0)%nat then device_step dev_poll (fun _ => k) s else Some (k, s).

(** [make_result] after the joins; its exception goes through the handler around it. *)
Definition make_result (s : shared) : pc :=
  if negb (String.eqb (error_message s) "") then
    Finish "host-error" KVM_EXIT_INTERNAL_ERROR (Rethrow (error_message s))
  else Done (mkResult (final_exit_reason s) (final_reason s)
               (if 0xFFFFFFFF <? runs s then 0xFFFFFFFF else runs s) (dev_console (devices s))).

(** One access of the thread of processor [i]; [r] is what KVM_RUN returns. *)
Definition pc_step (i : nat) (r : run_result) (p : pc) (s : shared) : option (pc * shared) :=
  match p with
  | SetRunner => Some (Top, s <| runner_ready := <[i := true]> (runner_ready s) |>)
  | Top => Some (if vm_done s then Returned else ReadCommand, s)
  | ReadCommand =>
      Some (if command s =? kControlStop then SetStopping
            else if command s =? kControlPause then PauseClock else PollRx, s)
  | SetStopping => Some (Finish "host-stop" KVM_EXIT_INTR Return, set_state kControlStateStopping s)
  | Finish reason code k => Some (finish_step reason code k s)
  | Publish reason code k => Some (KickFlag 0 k, publish_step reason code s)
  | KickFlag j k =>
      if (j <? ncpus)%nat then Some (KickFlag (S j) k, set_immediate j true s) else Some (KickSignal 0 k, s)
  | KickSignal j k => Some (if (j <? ncpus)%nat then KickSignal (S j) k else resume k, s)
  | PauseClock => Some (EnterPause (now s), s)
  | EnterPause t0 =>
      let n := u32 (paused_count s + 1) in
      Some (if n =? cpus c then SetPaused t0 else PauseCmd t0, s <| paused_count := n |>)
  | SetPaused t0 => Some (PauseCmd t0, set_state kControlStatePaused s)
  | PauseCmd t0 => Some (if command s =? kControlPause then PauseDone t0 else LeavePause t0, s)
  | PauseDone t0 => Some (if vm_done s then LeavePause t0 else PauseCmd t0, s)
  | LeavePause t0 => Some (Extend t0, s <| paused_count := u32 (paused_count s - 1) |>)
  | Extend t0 =>
      Some (AfterPause,
        if (0 <? timeout_ms c) && (i =? 0)%nat then
          s <| timeout_extension_ms := i64 (timeout_extension_ms s + Z.quot (now s - t0) 1000000) |>
        else s)
  | AfterPause => Some (if command s =? kControlStop then SetStopping else AfterPauseDone, s)
  | AfterPauseDone => Some (if vm_done s then PollRx else SetRunning, s)
  | SetRunning => Some (PollRx, set_state kControlStateRunning s)
  | PollRx => poll i ClearImmediate s
  | ClearImmediate => Some (EnterRun, set_immediate i false s)
  | EnterRun => Some (if immediate i s then Interrupted else InGuest, s)
  | InGuest =>
      Some (match r with RunExit x => CountRun x | RunAgain => Interrupted | RunFailed e => Failed e end, s)
  | Interrupted => Some (PollAfter, set_immediate i false s)
  | PollAfter => poll i CheckHalted s
  | CheckHalted => Some (if watchdog_halted s then Finish "halted-console" KVM_EXIT_HLT Return else CheckTimeout, s)
  | CheckTimeout => Some (if watchdog_timeout s then Raise timed_out else Top, s)
  | Failed errno => Some (Raise ("KVM_RUN: " ++ errno), s)
  | CountRun x => Some (Handle x, s <| runs := u64 (runs s + 1) |>)
  | Handle x => handle_exit i x s
  | CheckConsole =>
      Some (if dev_halted (devices s) then Finish "halted-console" KVM_EXIT_HLT Return else Top, s)
  | Raise msg => Some (Record_ msg, s)
  | Record_ msg =>
      Some (Finish "host-error" KVM_EXIT_INTERNAL_ERROR Return,
        if String.eqb (error_message s) "" then s <| error_message := msg |> else s)
  | Returned => if (i =? 0)%nat then Some (Finish "host-stop" KVM_EXIT_INTR Join, s) else None
  | JoinCpus => Some (SetExited, s)
  | SetExited => Some (StopInput, set_state kControlStateExited s)
  | StopInput => Some (StopWatchdog, s <| input_done := true |>)
  | StopWatchdog => Some (JoinWatchdog, s <| watchdog_done := true |>)
  | JoinWatchdog => Some (MakeResult, s)
  | MakeResult => Some (make_result s, s)
  | Done _ | Threw _ => None
  end.

(** [pthread_kill(runner_threads[j], SIGUSR1)]: it ends the KVM_RUN of a thread that is in it. *)
Definition signal (j : nat) (s : shared) (ps : list pc) : list pc :=
  if is_ready j s then alter (fun p => match p with InGuest => Interrupted | _ => p end) j ps else ps.
Definition signalled (p : pc) : option nat :=
  match p with KickSignal j _ => if (j <? ncpus)%nat then Some j else None | _ => None end.
Definition wsignalled (w : watchdog_pc) : option nat :=
  match w with WKickSignal j _ => if (j <? ncpus)%nat then Some j else None | _ => None end.
Definition send (j : option nat) (s : shared) (ps : list pc) : list pc :=
  match j with Some j => signal j s ps | None => ps end.

(** [thread.join()]: the threads a processor's thread waits for. *)
Definition returned (p : pc) : bool := match p with Returned => true | _ => false end.
Definition may_step (p : pc) (v : vm) : bool :=
  match p with
  | JoinCpus => forallb returned (tl (vcpus v))
  | JoinWatchdog => match watchdog v with WReturned => true | _ => false end
  | _ => true
  end.

Definition ms : Z := 1000000.
Definition wresume (k : wafter) : watchdog_pc :=
  match k with ToTap => WTap | ToPause => WPause | ToBreak => WBreak | ToEnd => WReturned end.

(** A round of the watchdog; [tap] is what [tap_readable()] says. *)
Definition watchdog_step (tap : bool) (w : watchdog_pc) (s : shared) : option (watchdog_pc * shared) :=
  match w with
  | WTop => Some (if watchdog_done s then WBreak else WHostInterrupt, s)
  | WHostInterrupt => Some (if host_interrupt_requested s then WFinish "host-stop" KVM_EXIT_INTR else WCommand, s)
  | WFinish reason code => Some (if vm_done s then (WBreak, s) else (WPublish reason code, s <| vm_done := true |>))
  | WPublish reason code => Some (WKickFlag 0 ToBreak, publish_step reason code s)
  | WKickFlag j k =>
      if (j <? ncpus)%nat then Some (WKickFlag (S j) k, set_immediate j true s) else Some (WKickSignal 0 k, s)
  | WKickSignal j k => Some (if (j <? ncpus)%nat then WKickSignal (S j) k else wresume k, s)
  | WCommand => Some (if negb (command s =? kControlRun) then WKickFlag 0 ToTap else WTap, s)
  | WTap => Some (if tap then WKickFlag 0 ToPause else WPause, s)
  | WPause => Some (if command s =? kControlPause then WTop else WDeadline, s)
  | WDeadline => Some (WCompare (start c + timeout_ms c * ms + timeout_extension_ms s * ms), s)
  | WCompare deadline => Some (if (0 <? timeout_ms c) && (deadline <? now s) then WTimeout else WContains, s)
  | WTimeout => Some (WBreak, s <| watchdog_timeout := true |>)
  | WContains => Some (if dev_halted (devices s) then WHalted else WTop, s)
  | WHalted => Some (WFinish "halted-console" KVM_EXIT_HLT, s <| watchdog_halted := true |>)
  | WBreak => Some (if watchdog_done s then WReturned else WKickFlag 0 ToEnd, s)
  | WReturned => None
  end.

(** ** Executions *)

Inductive label :=
  | LCpu (i : nat) (r : run_result) | LWatchdog (tap : bool)
  | LCommand (cmd : Z)                  (** the host writes the command word *)
  | LClock (ns : Z)                     (** time passes *)
  | LInput (bytes : list Z)             (** the input thread delivers console input *)
  | LInterrupt                          (** the input thread reads Ctrl-C *).

Definition put_shared (s : shared) (v : vm) : vm := mkVm s (vcpus v) (watchdog v).

Definition next (l : label) (v : vm) : option vm :=
  match l with
  | LCpu i r =>
      match vcpus v !! i with
      | Some p =>
          if may_step p v then
            match pc_step i r p (sh v) with
            | Some (p', s) => Some (mkVm s (send (signalled p) s (<[i := p']> (vcpus v))) (watchdog v))
            | None => None
            end
          else None
      | None => None
      end
  | LWatchdog tap =>
      match watchdog_step tap (watchdog v) (sh v) with
      | Some (w, s) => Some (mkVm s (send (wsignalled (watchdog v)) s (vcpus v)) w)
      | None => None
      end
  | LCommand cmd =>
      match control (sh v) with
      | Some (_, state) => Some (put_shared ((sh v) <| control := Some (cmd, state) |>) v)
      | None => None
      end
  | LClock ns => if 0 <=? ns then Some (put_shared ((sh v) <| now := now (sh v) + ns |>) v) else None
  | LInput bytes =>
      if input_done (sh v) then None
      else Some (put_shared ((sh v) <| devices := dev_input bytes (devices (sh v)) |>) v)
  | LInterrupt =>
      if input_done (sh v) then None else Some (put_shared ((sh v) <| host_interrupt_requested := true |>) v)
  end.

Fixpoint exec (ls : list label) (v : vm) : option vm :=
  match ls with
  | [] => Some v
  | l :: ls => match next l v with Some v => exec ls v | None => None end
  end.

Definition step (v v' : vm) : Prop := exists l, next l v = Some v'.
Definition steps : vm -> vm -> Prop := rtc step.

(** RunVm when the threads start; the control words are as the host left them. *)
Definition launch (control : option (Z * Z)) (d : D) : vm :=
  mkVm (set_state kControlStateRunning
          (mkShared control false false false false false false 0 0 0 "host-stop" KVM_EXIT_INTR ""
             (replicate ncpus false) (replicate ncpus false) (start c) d))
    (replicate ncpus SetRunner) WTop.
End Threads.

(** ** Shutting down *)

Section Facts.
#[local] Open Scope list_scope.
#[local] Open Scope Z_scope.
Context {D : Type} `{Devices D} (c : run_config).
Local Notation shared := (shared D).
Local Notation vm := (vm D).
Implicit Types (s : shared) (v : vm) (p : pc).

Lemma kvm_set_state_eq {A} (f : shared -> A) state s :
  (forall x, f (s <| control := x |>) = f s) -> f (set_state state s) = f s.
Proof. intros Hf. unfold set_state. by destruct (control s) as [[]|]. Qed.

Lemma device_step_inv {A} (m : M D A) k s p s' : device_step m k s = Some (p, s') ->
  (exists d, s' = s <| devices := d |>) /\ ((exists a, p = k a) \/ exists msg, p = Raise msg).
Proof.
  unfold device_step. destruct (m (devices s)) as [[a|msg|] d]; intros [= <- <-]; split; try (by exists d).
  - left. by exists a.
  - right. by exists msg.
Qed.

Lemma kvm_handle_exit_inv i x s p s' : handle_exit i x s = Some (p, s') ->
  (exists d, s' = s <| devices := d |>) /\
  (p = Top \/ p = CheckConsole \/ (exists msg, p = Raise msg) \/ exists reason code, p = Finish reason code Return).
Proof.
  unfold handle_exit. intros Hx.
  assert (Hsame : exists d, s = s <| devices := d |>) by (exists (devices s); by destruct s).
  destruct x; try (apply device_step_inv in Hx as [Hd Hp]; split; [done|]; naive_solver);
    try (injection Hx as <- <-; split; [done|]; naive_solver).
  - apply device_step_inv in Hx as [Hd [[[] ->]|[msg ->]]]; (split; [done|]); naive_solver.
  - destruct (i =? 0)%nat; injection Hx as <- <-; (split; [done|]); naive_solver.
Qed.

Lemma poll_inv i k s p s' : poll i k s = Some (p, s') ->
  (exists d, s' = s <| devices := d |>) /\ (p = k \/ exists msg, p = Raise msg).
Proof.
  unfold poll. destruct (i =? 0)%nat.
  - intros [Hd [[[] ->]|Hp]]%device_step_inv; auto.
  - intros [= <- <-]. split; [|by left]. exists (devices s). by destruct s.
Qed.

(** The counters only the end of RunVm goes through. *)
Definition main_only p : bool :=
  match p with
  | Finish _ _ k | Publish _ _ k | KickFlag _ k | KickSignal _ k => match k with Return => false | _ => true end
  | JoinCpus | SetExited | StopInput | StopWatchdog | JoinWatchdog | MakeResult | Done _ | Threw _ => true
  | _ => false
  end.

(** Steps left for a processor's thread once [vm_done] is set; [n] is the number of processors. *)
Definition rank (n : nat) p : nat :=
  (match p with
   | Done _ | Threw _ => 0
   | KickSignal j (Rethrow _) => 1 + (n - j) | KickFlag j (Rethrow _) => 2 + n + (n - j)
   | Publish _ _ (Rethrow _) => 3 + 2 * n | Finish _ _ (Rethrow _) => 4 + 2 * n
   | MakeResult => 5 + 2 * n | JoinWatchdog => 6 + 2 * n | StopWatchdog => 7 + 2 * n | StopInput => 8 + 2 * n
   | SetExited => 9 + 2 * n | JoinCpus => 10 + 2 * n
   | KickSignal j Join => 11 + 2 * n + (n - j) | KickFlag j Join => 12 + 3 * n + (n - j)
   | Publish _ _ Join => 13 + 4 * n | Finish _ _ Join => 14 + 4 * n
   | Returned => 15 + 4 * n | Top => 16 + 4 * n
   | KickSignal j Return => 16 + 4 * n + (n - j) | KickFlag j Return => 17 + 5 * n + (n - j)
   | Publish _ _ Return => 18 + 6 * n | Finish _ _ Return => 19 + 6 * n
   | SetStopping | Record_ _ | CheckConsole => 20 + 6 * n | Raise _ => 21 + 6 * n
   | Handle _ | Failed _ | CheckTimeout => 22 + 6 * n | CountRun _ | CheckHalted => 23 + 6 * n
   | PollAfter => 24 + 6 * n | Interrupted => 25 + 6 * n | InGuest => 26 + 6 * n | EnterRun => 27 + 6 * n
   | ClearImmediate => 28 + 6 * n | PollRx => 29 + 6 * n | SetRunning => 30 + 6 * n | AfterPauseDone => 31 + 6 * n
   | AfterPause => 32 + 6 * n | Extend _ => 33 + 6 * n | LeavePause _ => 34 + 6 * n | PauseDone _ => 35 + 6 * n
   | PauseCmd _ => 36 + 6 * n | SetPaused _ => 37 + 6 * n | EnterPause _ => 38 + 6 * n | PauseClock => 39 + 6 * n
   | ReadCommand => 40 + 6 * n | SetRunner => 41 + 6 * n
   end)%nat.

Definition rankw (n : nat) (w : watchdog_pc) : nat :=
  (match w with
   | WReturned => 0 | WBreak => 1 | WTop | WTimeout => 2
   | WKickSignal j ToEnd => 1 + (n - j) | WKickFlag j ToEnd => 2 + n + (n - j)
   | WKickSignal j ToBreak => 2 + (n - j) | WKickFlag j ToBreak => 3 + n + (n - j)
   | WPublish _ _ => 4 + 2 * n | WFinish _ _ => 5 + 2 * n | WHalted => 6 + 2 * n | WContains => 7 + 2 * n
   | WCompare _ => 8 + 2 * n | WDeadline => 9 + 2 * n | WPause => 10 + 2 * n
   | WKickSignal j ToPause => 11 + 2 * n + (n - j) | WKickFlag j ToPause => 12 + 3 * n + (n - j)
   | WTap => 13 + 4 * n | WKickSignal j ToTap => 14 + 4 * n + (n - j) | WKickFlag j ToTap => 15 + 5 * n + (n - j)
   | WCommand => 16 + 6 * n | WHostInterrupt => 17 + 6 * n
   end)%nat.

Lemma rank_le n p : (rank n p <= 41 + 6 * n)%nat.
Proof. destruct p; cbn; try lia; destruct k; lia. Qed.
Lemma kvm_rankw_le n w : (rankw n w <= 17 + 6 * n)%nat.
Proof. destruct w; cbn; try lia; destruct k; lia. Qed.

(** The next program counter and the effect. *)
Ltac pc_cases p :=
  unfold pc_step, finish_step, make_result, resume; destruct p; cbn -[Nat.ltb poll handle_exit]; intros Hpc;
  repeat match goal with
  | Hpc : handle_exit _ _ _ = Some _ |- _ => apply kvm_handle_exit_inv in Hpc as ([? ->] & [->|[->|[[? ->]|[? [? ->]]]]])
  | Hpc : poll _ _ _ = Some _ |- _ => apply poll_inv in Hpc as ([? ->] & [->|[? ->]])
  | k : after |- _ => destruct k
  | Hpc : context [match ?r with RunExit _ => _ | RunAgain => _ | RunFailed _ => _ end] |- _ => destruct r
  | Hpc : context [if ?b then _ else _] |- _ => destruct b eqn:?
  end; try discriminate; try (injection Hpc as <- <-).

Lemma kvm_pc_rank i r p s p' s' :
  pc_step c i r p s = Some (p', s') -> vm_done s = true ->
  (rank (ncpus c) p' < rank (ncpus c) p)%nat /\ vm_done s' = true /\
  (watchdog_done s' = watchdog_done s \/ watchdog_done s' = true).
Proof.
  pc_cases p; intros Hd; rewrite ?(kvm_set_state_eq vm_done), ?(kvm_set_state_eq watchdog_done) by done;
    cbn [rank]; try congruence;
    repeat match goal with
    | E : (_ <? _)%nat = true |- _ => apply Nat.ltb_lt in E
    | E : (_ <? _)%nat = false |- _ => apply Nat.ltb_ge in E
    end; split_and!; auto; lia.
Qed.

(** The threads other than the first keep out of the end of RunVm. *)
Lemma kvm_other_step i r p s p' s' :
  pc_step c (S i) r p s = Some (p', s') -> main_only p = false -> main_only p' = false.
Proof. pc_cases p; cbn [main_only]; intros Hs; try discriminate; done. Qed.

Lemma kvm_main_step r p s p' s' :
  pc_step c 0 r p s = Some (p', s') -> p' = JoinWatchdog -> watchdog_done s' = true.
Proof. pc_cases p; intros E; try discriminate; done. Qed.

Lemma watchdog_keeps tap w s w' s' : watchdog_step c tap w s = Some (w', s') ->
  watchdog_done s' = watchdog_done s /\ (vm_done s = true -> vm_done s' = true).
Proof.
  destruct w; cbn; try done; intros [= Hw];
    repeat match goal with Hw : context [if ?b then _ else _] |- _ => destruct b eqn:? end;
    try (injection Hw as <- <-); subst; done.
Qed.

Lemma watchdog_steps_left tap w s w' s' :
  watchdog_step c tap w s = Some (w', s') -> vm_done s = true -> watchdog_done s = true ->
  (rankw (ncpus c) w' < rankw (ncpus c) w)%nat.
Proof.
  intros Hw Hd Hwd. destruct w; cbn -[Nat.ltb] in Hw; rewrite ?Hd, ?Hwd in Hw;
    repeat match goal with
    | k : wafter |- _ => destruct k
    | Hw : context [if ?b then _ else _] |- _ => destruct b eqn:?
    end; simplify_eq; cbn [rankw wresume];
    repeat match goal with
    | E : (_ <? _)%nat = true |- _ => apply Nat.ltb_lt in E
    | E : (_ <? _)%nat = false |- _ => apply Nat.ltb_ge in E
    end; lia.
Qed.

(** The steps left: the watchdog counts for a constant until it is told to stop. *)
Definition ranks v : nat := sum_list (map (rank (ncpus c)) (vcpus v)).
Definition left_ v : nat :=
  (ranks v + (if watchdog_done (sh v) then rankw (ncpus c) (watchdog v) else 18 + 6 * ncpus c))%nat.

(** The threads RunVm waits for. *)
Definition awaited (l : label) v : bool :=
  match l with LCpu _ _ => true | LWatchdog _ => watchdog_done (sh v) | _ => false end.

Definition main_pc v : option pc := head (vcpus v).
Definition ended v : Prop := exists p, main_pc v = Some p /\ match p with Done _ | Threw _ => True | _ => False end.

Lemma kvm_insert_split {A} i (l : list A) x y :
  l !! i = Some x -> exists l1 l2, l = l1 ++ x :: l2 /\ <[i := y]> l = l1 ++ y :: l2.
Proof.
  intros Hx. exists (take i l), (drop (S i) l). split; [by rewrite take_drop_middle|].
  apply insert_take_drop. by eapply lookup_lt_Some.
Qed.

Lemma kvm_sum_insert (l : list pc) i p p' : l !! i = Some p ->
  (sum_list (map (rank (ncpus c)) (<[i := p']> l)) + rank (ncpus c) p =
   sum_list (map (rank (ncpus c)) l) + rank (ncpus c) p')%nat.
Proof.
  intros Hp. destruct (kvm_insert_split i l p p' Hp) as (l1 & l2 & -> & ->).
  rewrite !map_app, !sum_list_with_app. cbn. lia.
Qed.

Definition interrupted p : pc := match p with InGuest => Interrupted | _ => p end.

Lemma alter_insert_some (l : list pc) j p : l !! j = Some p -> alter interrupted j l = <[j := interrupted p]> l.
Proof.
  intros Hp. apply list_eq. intros k. destruct (decide (k = j)) as [->|Hne].
  - rewrite list_lookup_alter_eq, Hp, list_lookup_insert_eq by (by eapply lookup_lt_Some). done.
  - by rewrite list_lookup_alter_ne, list_lookup_insert_ne by done.
Qed.

(** A signal changes at most a thread in KVM_RUN. *)
Lemma send_cases j s (l : list pc) :
  send j s l = l \/ exists k, l !! k = Some InGuest /\ send j s l = <[k := Interrupted]> l.
Proof.
  destruct j as [j|]; [|by left]. cbn [send]. unfold signal. destruct (is_ready j s); [|by left].
  change (alter _ j l) with (alter interrupted j l).
  destruct (l !! j) as [p|] eqn:E.
  - rewrite (alter_insert_some _ _ p) by done.
    destruct p; try (left; by apply list_insert_id). right. by exists j.
  - left. apply list_eq. intros k. destruct (decide (k = j)) as [->|Hne]; [by rewrite list_lookup_alter_eq, E|].
    by rewrite list_lookup_alter_ne.
Qed.

Lemma send_ranks j s (l : list pc) :
  (sum_list (map (rank (ncpus c)) (send j s l)) <= sum_list (map (rank (ncpus c)) l))%nat.
Proof.
  destruct (send_cases j s l) as [->|(k & Hk & ->)]; [done|].
  pose proof (kvm_sum_insert l k InGuest Interrupted Hk). cbn [rank] in *. lia.
Qed.

Lemma kvm_next_left l v v' :
  next c l v = Some v' -> vm_done (sh v) = true ->
  (left_ v' + Nat.b2n (awaited l v) <= left_ v)%nat /\ vm_done (sh v') = true.
Proof.
  intros Hn Hd. unfold left_, ranks. destruct l as [i r|tap|cmd|ns|bytes|]; cbn -[send] in Hn; cbn [awaited Nat.b2n].
  - destruct (vcpus v !! i) as [p|] eqn:Ep; [|done]. destruct (may_step p v); [|done].
    destruct (pc_step c i r p (sh v)) as [[p' s']|] eqn:Es; [|done]. injection Hn as <-. cbn [sh vcpus watchdog].
    destruct (kvm_pc_rank _ _ _ _ _ _ Es Hd) as (Hr & Hd' & Hw). split; [|done].
    pose proof (kvm_sum_insert _ _ _ p' Ep). pose proof (kvm_rankw_le (ncpus c) (watchdog v)).
    pose proof (send_ranks (signalled c p) s' (<[i:=p']> (vcpus v))).
    destruct Hw as [->| ->], (watchdog_done (sh v)); lia.
  - destruct (watchdog_step c tap (watchdog v) (sh v)) as [[w s']|] eqn:Es; [|done]. injection Hn as <-.
    cbn [sh vcpus watchdog]. destruct (watchdog_keeps _ _ _ _ _ Es) as [-> Hd']. split; [|auto].
    pose proof (send_ranks (wsignalled c (watchdog v)) s' (vcpus v)).
    destruct (watchdog_done (sh v)) eqn:Ew; cbn [Nat.b2n]; [|lia].
    pose proof (watchdog_steps_left _ _ _ _ _ Es Hd Ew). lia.
  - destruct (control (sh v)) as [[]|]; [|done]. injection Hn as <-. cbn. split; [lia|done].
  - destruct (0 <=? ns); [|done]. injection Hn as <-. cbn. split; [lia|done].
  - destruct (input_done (sh v)); [done|]. injection Hn as <-. cbn. split; [lia|done].
  - destruct (input_done (sh v)); [done|]. injection Hn as <-. cbn. split; [lia|done].
Qed.

(** ** What RunVm waits for *)

Record joins v : Prop := {
  j_count : length (vcpus v) = ncpus c;
  j_others : Forall (fun p => main_only p = false) (tl (vcpus v));
  j_watchdog : main_pc v = Some JoinWatchdog -> watchdog_done (sh v) = true }.

Lemma tl_insert (l : list pc) i p : tl (<[i := p]> l) = match i with O => tl l | S i => <[i := p]> (tl l) end.
Proof. destruct l, i; done. Qed.

Lemma insert_joins v k p p' s w :
  vcpus v !! k = Some p -> joins v -> (main_only p = false -> k <> O -> main_only p' = false) ->
  watchdog_done (sh v) = watchdog_done s \/ watchdog_done s = true ->
  (k = O -> p' = JoinWatchdog -> watchdog_done s = true) ->
  joins (mkVm s (<[k := p']> (vcpus v)) w).
Proof.
  intros Hk [J1 J2 J3] Hp Hs Hm. split; cbn [vcpus sh].
  - by rewrite length_insert.
  - rewrite tl_insert. destruct k as [|k]; [done|]. apply Forall_insert; [done|]. apply Hp; [|done].
    destruct (vcpus v) as [|q l]; [done|]. cbn in Hk, J2. by eapply (Forall_lookup_1 _ _ _ _ J2).
  - unfold main_pc in *. cbn [vcpus]. destruct (vcpus v) as [|q l]; [done|]. destruct k as [|k]; cbn.
    + intros [= ->]. by apply Hm.
    + cbn in J3. intros E. destruct Hs as [<-|?]; [by apply J3|done].
Qed.

Lemma send_joins j s v w :
  joins (mkVm s (vcpus v) w) -> joins (mkVm s (send j s (vcpus v)) w).
Proof.
  intros Hj. destruct (send_cases j s (vcpus v)) as [->|(k & Hk & ->)]; [done|].
  change (vcpus v) with (vcpus (mkVm s (vcpus v) w)). by eapply insert_joins; [exact Hk|..]; auto.
Qed.

Lemma kvm_next_joins l v v' : next c l v = Some v' -> joins v -> joins v'.
Proof.
  intros Hn Hj. destruct l as [i r|tap|cmd|ns|bytes|]; cbn -[send] in Hn.
  - destruct (vcpus v !! i) as [p|] eqn:Ep; [|done]. destruct (may_step p v); [|done].
    destruct (pc_step c i r p (sh v)) as [[p' s']|] eqn:Es; [|done]. injection Hn as <-.
    apply (send_joins _ _ (mkVm s' (<[i:=p']> (vcpus v)) (watchdog v))). eapply insert_joins; [exact Ep|done|..].
    + intros Hp Hi. destruct i as [|i]; [done|]. by eapply kvm_other_step.
    + revert Es. pc_cases p; rewrite ?(kvm_set_state_eq watchdog_done) by done; auto.
    + intros -> E. by eapply kvm_main_step.
  - destruct (watchdog_step c tap (watchdog v) (sh v)) as [[w s']|] eqn:Es; [|done]. injection Hn as <-.
    apply watchdog_keeps in Es as [Hw _]. apply (send_joins _ _ (mkVm s' (vcpus v) w)).
    destruct Hj as [J1 J2 J3]. split; [done|done|]. cbn [sh]. by rewrite Hw.
  - destruct (control (sh v)) as [[]|]; [|done]. injection Hn as <-. by destruct Hj.
  - destruct (0 <=? ns); [|done]. injection Hn as <-. by destruct Hj.
  - destruct (input_done (sh v)); [done|]. injection Hn as <-. by destruct Hj.
  - destruct (input_done (sh v)); [done|]. injection Hn as <-. by destruct Hj.
Qed.

Lemma kvm_steps_joins v v' : steps c v v' -> joins v -> joins v'.
Proof. induction 1 as [v|v1 v2 v3 [l Hl] Hr IH]; [done|]. intros Hj. by eapply IH, kvm_next_joins. Qed.

Lemma kvm_launch_joins control d : joins (launch c control d).
Proof.
  split; cbn [vcpus launch sh].
  - by rewrite length_replicate.
  - destruct (ncpus c) as [|n]; [constructor|]. cbn. by apply Forall_replicate.
  - unfold main_pc. cbn [vcpus launch]. by destruct (ncpus c).
Qed.

(** No call of a device from [v] runs for ever. *)
Definition no_hang v : Prop :=
  (forall i io data, fst (dev_io i io data (devices (sh v))) <> OutOfFuel) /\
  (forall i m, fst (dev_mmio i m (devices (sh v))) <> OutOfFuel) /\
  fst (dev_poll (devices (sh v))) <> OutOfFuel.

Lemma device_step_some {A} (m : M D A) k s : fst (m (devices s)) <> OutOfFuel -> is_Some (device_step m k s).
Proof. unfold device_step. destruct (m (devices s)) as [[a|msg|] d]; cbn; eauto; done. Qed.

Lemma kvm_vcpu_enabled i r p v :
  no_hang v -> (p = Returned -> i = O) -> match p with Done _ | Threw _ => False | _ => True end ->
  is_Some (pc_step c i r p (sh v)).
Proof.
  intros (Hio & Hmm & Hpo) Hr Hp. unfold pc_step, poll, handle_exit.
  destruct p; eauto; try done;
    repeat match goal with
    | |- context [if ?b then Some _ else Some _] => destruct b
    | |- context [if (i =? 0)%nat then _ else _] => destruct (i =? 0)%nat eqn:?
    | x : vm_exit |- _ => destruct x
    end; eauto; try (apply device_step_some; done).
  apply Nat.eqb_neq in Heqb. by rewrite Hr in Heqb.
Qed.

Lemma kvm_next_cpu i r p v :
  vcpus v !! i = Some p -> may_step p v = true -> is_Some (pc_step c i r p (sh v)) -> is_Some (next c (LCpu i r) v).
Proof. intros Ep Hm [[p' s'] Es]. cbn -[send]. rewrite Ep, Hm, Es. by eauto. Qed.

Lemma kvm_not_all_returned (l : list pc) : forallb returned l = false -> exists i p, l !! i = Some p /\ p <> Returned.
Proof.
  induction l as [|p l IH]; [done|]. cbn. destruct (returned p) eqn:Et; cbn.
  - intros (i & u & Hu & Hn)%IH. by exists (S i), u.
  - intros _. exists 0%nat, p. split; [done|]. by destruct p.
Qed.

(** The step does not need KVM_RUN to return. *)
Definition own_step (l : label) v : Prop :=
  match l with LCpu i _ => vcpus v !! i <> Some InGuest | LWatchdog _ => True | _ => False end.

Lemma watchdog_enabled tap w s : w <> WReturned -> is_Some (watchdog_step c tap w s).
Proof. intros Hw. destruct w; cbn -[Nat.ltb]; eauto; try done; by destruct (_ <? _)%nat; eauto. Qed.

Lemma kvm_progress v : (0 < ncpus c)%nat -> joins v -> no_hang v ->
  ended v \/ (exists l v', awaited l v = true /\ own_step l v /\ next c l v = Some v') \/
  (exists i, vcpus v !! i = Some InGuest).
Proof.
  intros Hc [J1 J2 J3] Hh. destruct (vcpus v) as [|p0 rest] eqn:Ev; [cbn in J1; lia|]. cbn [tl] in J2.
  assert (Hcpu : forall i p, vcpus v !! i = Some p -> may_step p v = true -> (p = Returned -> i = O) ->
    match p with Done _ | Threw _ => False | _ => True end ->
    (exists l v', awaited l v = true /\ own_step l v /\ next c l v = Some v') \/ (exists i, vcpus v !! i = Some InGuest)).
  { intros i p Ei Hm Hr Hd. assert (p = InGuest \/ p <> InGuest) as [->|Hg] by (destruct p; auto; by right).
    { right. by exists i. }
    left.
    destruct (kvm_next_cpu i RunAgain p v Ei Hm (kvm_vcpu_enabled i RunAgain p v Hh Hr Hd)) as [v' Hn].
    exists (LCpu i RunAgain), v'. split; [done|]. split; [cbn; congruence|done]. }
  rewrite Ev in Hcpu. destruct (may_step p0 v) eqn:Em.
  - destruct (match p0 with Done _ | Threw _ => true | _ => false end) eqn:Ee.
    + left. exists p0. unfold main_pc. rewrite Ev. split; [done|]. by destruct p0.
    + right. apply (Hcpu O p0); [done|done|done|by destruct p0].
  - right. unfold may_step in Em. rewrite Ev in Em. cbn [tl] in Em. destruct p0; try discriminate.
    + apply kvm_not_all_returned in Em as (i & p & Hp & Hn).
      pose proof (Forall_lookup_1 _ _ _ _ J2 Hp) as Hs. cbn in Hs.
      apply (Hcpu (S i) p); [done|by destruct p|done|by destruct p].
    + left. assert (Hd : watchdog_done (sh v) = true) by (apply J3; unfold main_pc; by rewrite Ev).
      destruct (watchdog_enabled false (watchdog v) (sh v)) as [[w s'] Es]; [by intros E; rewrite E in Em|].
      exists (LWatchdog false). cbn -[send]. rewrite Es. by eexists.
Qed.

(** The steps of awaited threads in an execution. *)
Fixpoint awaited_steps (ls : list label) v : nat :=
  match ls with
  | [] => 0
  | l :: ls => match next c l v with Some v1 => Nat.b2n (awaited l v) + awaited_steps ls v1 | None => 0 end
  end%nat.

Lemma kvm_awaited_bound ls : forall v v',
  exec c ls v = Some v' -> vm_done (sh v) = true -> (awaited_steps ls v + left_ v' <= left_ v)%nat.
Proof.
  induction ls as [|l ls IH]; cbn -[next]; intros v v'; [intros [= <-]; lia|].
  destruct (next c l v) as [v1|] eqn:En; [|done]. intros He Hd. pose proof (kvm_next_left l v v1 En Hd) as [Hl Hd1].
  specialize (IH v1 v' He Hd1). lia.
Qed.

Lemma kvm_exec_steps ls : forall v v', exec c ls v = Some v' -> steps c v v'.
Proof.
  induction ls as [|l ls IH]; cbn -[next]; intros v v'; [by intros [= <-]|].
  destruct (next c l v) as [v1|] eqn:En; [|done]. intros He. apply (rtc_l _ _ v1); [by exists l|by apply IH].
Qed.

Lemma kvm_left_bound v : (left_ v <= (41 + 6 * ncpus c) * length (vcpus v) + (18 + 6 * ncpus c))%nat.
Proof.
  unfold left_, ranks. pose proof (kvm_rankw_le (ncpus c) (watchdog v)).
  enough (sum_list (map (rank (ncpus c)) (vcpus v)) <= (41 + 6 * ncpus c) * length (vcpus v))%nat by (case_match; lia).
  clear. induction (vcpus v) as [|p l IH]; cbn -[Nat.mul]; [lia|]. pose proof (rank_le (ncpus c) p). lia.
Qed.

(** The end of RunVm.  Once [vm_done] is set, the threads RunVm waits for take, between
    them, at most (41 + 6 * cpus) * cpus + 18 + 6 * cpus more steps, whatever the
    scheduler, the host and the guest do.  As long as RunVm has not ended one of them can
    take a step, unless a call of a device never returns: a step of the monitor's own code,
    or else some processor is inside KVM_RUN and everything waits for its return. *)
Theorem kvm_vm_shuts_down control d v ls v' :
  1 <= cpus c -> steps c (launch c control d) v -> vm_done (sh v) = true -> exec c ls v = Some v' ->
  Z.of_nat (awaited_steps ls v) + Z.of_nat (left_ v') <= (41 + 6 * cpus c) * cpus c + 18 + 6 * cpus c /\
  (no_hang v' ->
     ended v' \/ (exists l v2, awaited l v' = true /\ own_step l v' /\ next c l v' = Some v2) \/
     (exists i, vcpus v' !! i = Some InGuest)).
Proof.
  intros Hc Hs Hd He. pose proof (kvm_steps_joins _ _ Hs (kvm_launch_joins control d)) as Hj. split.
  - pose proof (kvm_awaited_bound ls v v' He Hd). pose proof (kvm_left_bound v) as Hb. rewrite (j_count _ Hj) in Hb.
    assert (E : cpus c = Z.of_nat (ncpus c)) by (unfold ncpus; lia). rewrite E. lia.
  - intros Hh. apply kvm_progress; [unfold ncpus; lia| |done]. eapply kvm_steps_joins; [by eapply kvm_exec_steps|done].
Qed.
(** ** The first [finish] *)

Definition publishing p : nat := match p with Publish _ _ _ => 1 | _ => 0 end.
Definition wpublishing (w : watchdog_pc) : nat := match w with WPublish _ _ => 1 | _ => 0 end.
Definition publishers v : nat :=
  (sum_list (map publishing (vcpus v)) + wpublishing (watchdog v))%nat.
(** At most one thread publishes a result, and only once [vm_done] is set. *)
Definition one_finish v : Prop := (publishers v <= Nat.b2n (vm_done (sh v)))%nat.
Definition result_of s : string * Z := (final_exit_reason s, final_reason s).

Lemma pc_publishing i r p s p' s' : pc_step c i r p s = Some (p', s') ->
  (publishing p' + Nat.b2n (vm_done s) <= publishing p + Nat.b2n (vm_done s'))%nat /\
  (publishing p = 0%nat -> result_of s' = result_of s).
Proof.
  pc_cases p; unfold result_of;
    rewrite ?(kvm_set_state_eq vm_done), ?(kvm_set_state_eq final_exit_reason), ?(kvm_set_state_eq final_reason) by done;
    cbn [publishing]; repeat match goal with E : vm_done _ = _ |- _ => rewrite E; clear E end; cbn; split; try done; lia.
Qed.

Lemma watchdog_publishing tap w s w' s' : watchdog_step c tap w s = Some (w', s') ->
  (wpublishing w' + Nat.b2n (vm_done s) <=
   wpublishing w + Nat.b2n (vm_done s'))%nat /\
  (wpublishing w = 0%nat -> result_of s' = result_of s).
Proof.
  unfold wresume, result_of. destruct w; cbn -[Nat.ltb]; try done; intros [= Hw];
    repeat match goal with
    | k : wafter |- _ => destruct k
    | Hw : context [if ?b then _ else _] |- _ => destruct b eqn:?
    end; simplify_eq; repeat match goal with E : vm_done _ = _ |- _ => rewrite E; clear E end; cbn; split; try done; lia.
Qed.

Lemma publishing_insert (l : list pc) i p p' : l !! i = Some p ->
  (sum_list (map publishing (<[i := p']> l)) + publishing p = sum_list (map publishing l) + publishing p')%nat.
Proof.
  intros Hp. destruct (kvm_insert_split i l p p' Hp) as (l1 & l2 & -> & ->).
  rewrite !map_app, !sum_list_with_app. cbn. lia.
Qed.

Lemma send_publishing j s (l : list pc) :
  sum_list (map publishing (send j s l)) = sum_list (map publishing l).
Proof.
  destruct (send_cases j s l) as [->|(k & Hk & ->)]; [done|].
  pose proof (publishing_insert l k InGuest Interrupted Hk). cbn [publishing] in *. lia.
Qed.

Lemma next_publishers l v v' : next c l v = Some v' ->
  (publishers v' + Nat.b2n (vm_done (sh v)) <= publishers v + Nat.b2n (vm_done (sh v')))%nat /\
  (publishers v = 0%nat -> result_of (sh v') = result_of (sh v)).
Proof.
  intros Hn. unfold publishers. destruct l as [i r|tap|cmd|ns|bytes|]; cbn -[send] in Hn.
  - destruct (vcpus v !! i) as [p|] eqn:Ep; [|done]. destruct (may_step p v); [|done].
    destruct (pc_step c i r p (sh v)) as [[p' s']|] eqn:Es; [|done]. injection Hn as <-. cbn [sh vcpus watchdog].
    apply pc_publishing in Es as [Hp Hr]. rewrite send_publishing.
    pose proof (publishing_insert _ _ _ p' Ep). pose proof (publishing_insert _ _ _ Top Ep) as Ht. cbn [publishing] in Ht.
    split; [lia|]. intros E. apply Hr. lia.
  - destruct (watchdog_step c tap (watchdog v) (sh v)) as [[w s']|] eqn:Es; [|done]. injection Hn as <-.
    cbn [sh vcpus watchdog]. apply watchdog_publishing in Es as [Hp Hr]. rewrite send_publishing.
    split; [lia|]. intros E. apply Hr. lia.
  - destruct (control (sh v)) as [[]|]; [|done]. injection Hn as <-. cbn. split; [lia|done].
  - destruct (0 <=? ns); [|done]. injection Hn as <-. cbn. split; [lia|done].
  - destruct (input_done (sh v)); [done|]. injection Hn as <-. cbn. split; [lia|done].
  - destruct (input_done (sh v)); [done|]. injection Hn as <-. cbn. split; [lia|done].
Qed.

Lemma next_vm_done l v v' : next c l v = Some v' -> vm_done (sh v) = true -> vm_done (sh v') = true.
Proof. intros Hn Hd. by destruct (kvm_next_left l v v' Hn Hd). Qed.

Lemma steps_one_finish v v' : steps c v v' -> one_finish v -> one_finish v'.
Proof.
  unfold one_finish. induction 1 as [v|v1 v2 v3 [l Hl] Hr IH]; [done|]. intros Ho. apply IH.
  pose proof (next_publishers l v1 v2 Hl) as [Hp _]. lia.
Qed.

Lemma launch_one_finish control d : one_finish (launch c control d).
Proof.
  unfold one_finish, publishers. cbn [vcpus watchdog launch].
  enough (sum_list (map publishing (replicate (ncpus c) SetRunner)) = 0)%nat as -> by (cbn; lia).
  by induction (ncpus c).
Qed.

(** The result RunVm returns is the published one. *)
Definition returns_it (res : string * Z) v : Prop :=
  forall r, main_pc v = Some (Done r) -> (exitReason r, exitReasonCode r) = res.

Lemma pc_done i k p s p' s' r : pc_step c i k p s = Some (p', s') -> p' = Done r ->
  (exitReason r, exitReasonCode r) = result_of s'.
Proof. pc_cases p; intros E; try discriminate; by injection E as <-. Qed.

Lemma next_returns l v v' : next c l v = Some v' -> result_of (sh v') = result_of (sh v) ->
  returns_it (result_of (sh v)) v -> returns_it (result_of (sh v)) v'.
Proof.
  intros Hn Hr Hv r Hd. apply (fun H => H : head _ = _) in Hd.
  assert (Hsend : forall j s (ps : list pc), head (send j s ps) = Some (Done r) -> head ps = Some (Done r)).
  { intros j s ps. destruct (send_cases j s ps) as [->|(k & Hk & ->)]; [done|]. by destruct ps, k; cbn. }
  destruct l as [i x|tap|cmd|ns|bytes|]; cbn -[send] in Hn.
  - destruct (vcpus v !! i) as [p|] eqn:Ep; [|done]. destruct (may_step p v); [|done].
    destruct (pc_step c i x p (sh v)) as [[p' s']|] eqn:Es; [|done]. injection Hn as <-. cbn [sh vcpus] in *.
    apply Hsend in Hd. destruct (vcpus v) as [|q l] eqn:Ev; [done|]. destruct i as [|i]; cbn in Hd.
    + injection Hd as Hd. rewrite <-Hr. by eapply pc_done.
    + apply Hv. unfold main_pc. by rewrite Ev.
  - destruct (watchdog_step c tap (watchdog v) (sh v)) as [[w s']|] eqn:Es; [|done]. injection Hn as <-.
    apply Hv. by eapply Hsend.
  - destruct (control (sh v)) as [[]|]; [|done]. injection Hn as <-. by apply Hv.
  - destruct (0 <=? ns); [|done]. injection Hn as <-. by apply Hv.
  - destruct (input_done (sh v)); [done|]. injection Hn as <-. by apply Hv.
  - destruct (input_done (sh v)); [done|]. injection Hn as <-. by apply Hv.
Qed.

(** The first [finish] decides.  In every execution at most one thread is between the
    exchange of [vm_done] and the store of the result; once the result is stored it never
    changes, whatever finishes later (a guest exit, a stop of the host, a time-out, an
    error), and a result RunVm returns afterwards names that reason and that code. *)
Theorem kvm_first_finish control d v v' :
  steps c (launch c control d) v -> steps c v v' ->
  one_finish v /\
  (vm_done (sh v) = true -> publishers v = 0%nat -> ~ ended v ->
   result_of (sh v') = result_of (sh v) /\ returns_it (result_of (sh v)) v').
Proof.
  intros Hs Hs'. split; [by apply (steps_one_finish _ _ Hs), launch_one_finish|].
  intros Hd Hp He. assert (Hv : returns_it (result_of (sh v)) v).
  { intros r Hr. destruct He. by exists (Done r). }
  clear Hs He. revert Hd Hp Hv.
  induction Hs' as [v|v1 v2 v3 [l Hl] Hr IH]; intros Hd Hp Hv; [done|].
  pose proof (next_publishers l v1 v2 Hl) as [Hq Hres]. pose proof (next_vm_done _ _ _ Hl Hd) as Hd2.
  rewrite Hd, Hd2 in Hq. cbn in Hq. specialize (Hres Hp). rewrite <-Hres.
  apply IH; [done|lia|]. rewrite Hres. by eapply next_returns.
Qed.
End Facts.

Module Demo.
#[export] Instance no_devices : Devices unit := {|
  dev_io _ io _ d := (Ok (port io =? kNodeVmmExitPort), d); dev_mmio _ _ d := (Ok tt, d); dev_poll d := (Ok tt, d);
  dev_halted _ := false; dev_input _ d := d; dev_console _ := [] |}.
(** Two processors, with a time-out in milliseconds (0 for none). *)
Definition config (timeout : Z) : run_config := mkRunConfig 2 timeout 0.
Definition start_vm (timeout : Z) : vm unit := launch (config timeout) (Some (0, 0)) tt.

(** [n] steps of processor [i]; a run of it ends with EAGAIN, or with an OUT to the exit port. *)
Definition run (n i : nat) : list label := repeat (LCpu i RunAgain) n.
Definition out_501 : label := LCpu 0 (RunExit (ExitIo (mkIo KVM_EXIT_IO_OUT 1 kNodeVmmExitPort 1) [0])).

(** Processor 1 tests [vm_done]; processor 0 runs the guest until it exits, finishes the
    run and wakes every processor; then processor 1 clears its flag and enters KVM_RUN. *)
Definition lost_kick : list label :=
  run 4 1 ++ run 6 0 ++ [out_501] ++ run 12 0 ++ run 2 1.
Definition at_pcs (timeout : Z) (ls : list label) := vcpus <$> exec (config timeout) ls (start_vm timeout).
End Demo.

Import Demo.

(** ** A wake-up that is lost *)

(** Processor 1 does not come out of KVM_RUN by itself (a halted processor does not), no
    packet waits on the TAP device, and the host neither writes another command nor
    types Ctrl-C. *)
Definition quiet (l : label) : Prop :=
  match l with
  | LCpu i _ => i <> 1%nat
  | LWatchdog tap => tap = false
  | LCommand cmd => cmd = kControlRun
  | LInterrupt => False
  | LClock _ | LInput _ => True
  end.

Record stuck (v : vm unit) : Prop := {
  k_pcs : vcpus v = [JoinCpus; InGuest];
  k_command : command (sh v) = kControlRun;
  k_interrupt : host_interrupt_requested (sh v) = false;
  k_watchdog : watchdog_done (sh v) = false;
  k_at : match watchdog v with
         | WTop | WHostInterrupt | WCommand | WTap | WPause | WDeadline | WCompare _ | WContains => True
         | _ => False
         end;
  k_done : vm_done (sh v) = true;
  k_result : final_exit_reason (sh v) = "guest-exit" }.

Lemma stuck_next l v v' : quiet l -> stuck v -> next (config 0) l v = Some v' -> stuck v'.
Proof.
  intros Hq [K1 K2 K3 K4 K5 K6 K7] Hn. destruct v as [s ps w]. cbn [sh vcpus watchdog] in *. subst ps.
  destruct l as [[|[|i]] r|tap|cmd|ns|bytes|]; cbn in Hq; subst; try done; cbn in Hn.
  - destruct w; try done; cbn in Hn; rewrite ?K2, ?K3, ?K4 in Hn; cbn in Hn;
      injection Hn as <-; split; done.
  - unfold command in K2. destruct (control s) as [[]|]; [|done]. injection Hn as <-. by split.
  - destruct (0 <=? ns); [|done]. injection Hn as <-. by split.
  - destruct (input_done s); [done|]. injection Hn as <-. by split.
Qed.

Lemma stuck_exec ls : forall v v', Forall quiet ls -> stuck v -> exec (config 0) ls v = Some v' -> stuck v'.
Proof.
  induction ls as [|l ls IH]; cbn -[next]; intros v v' Hq Hv; [by intros [= <-]|].
  apply Forall_cons in Hq as [Hl Hq]. destruct (next _ l v) as [v1|] eqn:En; [|done].
  apply IH; [done|by eapply stuck_next].
Qed.

Lemma lost_kick_stuck : exists v, exec (config 0) lost_kick (start_vm 0) = Some v /\ stuck v.
Proof. eexists. split; [vm_compute; reflexivity|]. by split. Qed.

Lemma kvm_exec_app {D} `{Devices D} c ls1 ls2 : forall v : vm D,
  exec c (ls1 ++ ls2) v = match exec c ls1 v with Some v1 => exec c ls2 v1 | None => None end.
Proof. induction ls1 as [|l ls1 IH]; cbn -[next]; intros v; [done|]. destruct (next c l v); [apply IH|done]. Qed.

(** A wake-up can be lost.  Two processors, no time-out: processor 1 has tested
    [vm_done] when processor 0's guest exits; [finish] sets the flag [immediate_exit] of
    both and signals both threads, once; processor 1 then clears its flag and enters
    KVM_RUN.  After that, whatever the threads do and however long it takes, RunVm waits
    for processor 1 and processor 1 stays in KVM_RUN, as long as the guest does not take
    it out by itself, no packet arrives and the host asks for nothing. *)
Theorem kvm_lost_kick ls v :
  Forall quiet ls -> exec (config 0) (lost_kick ++ ls) (start_vm 0) = Some v ->
  vm_done (sh v) = true /\ final_exit_reason (sh v) = "guest-exit" /\
  vcpus v = [JoinCpus; InGuest] /\ ~ ended v.
Proof.
  intros Hq. rewrite kvm_exec_app. destruct lost_kick_stuck as (v1 & -> & Hv1).
  intros He. destruct (stuck_exec ls v1 v Hq Hv1 He) as [K1 _ _ _ _ K6 K7].
  split_and!; try done. unfold ended, main_pc. rewrite K1. cbn. by intros (p & [= <-] & ?).
Qed.

(** The watchdog's rounds and an hour. *)
Definition an_hour : list label := repeat (LWatchdog false) 40 ++ [LClock 3600000000000] ++ repeat (LWatchdog false) 40.

Lemma kvm_lost_kick_witness : exists v : vm unit,
  vm_done (sh v) = true /\ final_exit_reason (sh v) = "guest-exit" /\ vcpus v = [JoinCpus; InGuest] /\ ~ ended v.
Proof.
  destruct (exec (config 0) (lost_kick ++ an_hour) (start_vm 0)) as [v|] eqn:E; [|vm_compute in E; discriminate E].
  exists v. apply (kvm_lost_kick an_hour v); [|exact E]. repeat (constructor; [cbn; lia || done|]). constructor.
Defined.

(** The time-out passes, the watchdog wakes processor 1, and processor 0 ends RunVm. *)
Definition expire : list label :=
  [LClock 1000000001] ++ repeat (LWatchdog false) 15 ++ run 7 1 ++ run 7 0.

(** With a time-out the lost wake-up turns a run that ended with a guest exit into an
    exception "VM timed out". *)
Example kvm_spurious_timeout :
  (fun v => (vcpus v, watchdog v, final_exit_reason (sh v))) <$> exec (config 1000) (lost_kick ++ expire) (start_vm 1000) =
  Some ([Threw "VM timed out after 1000ms"; Returned], WReturned, "guest-exit").
Proof. vm_compute. reflexivity. Qed.

(** A processor that reads the host's stop command, then everything that follows. *)
Definition stopped : list label := run 2 0 ++ [LCommand kControlStop] ++ run 2 0 ++ run 1 0.
Definition the_rest : list label := run 7 0 ++ repeat (LWatchdog false) 3 ++ run 2 1.

Lemma no_devices_no_hang (v : vm unit) : no_hang v.
Proof. split; [|split]; cbn; discriminate. Qed.

Lemma kvm_vm_shuts_down_witness : exists v v' : vm unit,
  1 <= cpus (config 0) /\ vm_done (sh v) = true /\ no_hang v' /\
  Z.of_nat (awaited_steps (config 0) the_rest v) + Z.of_nat (left_ (config 0) v') <= 136 /\
  (ended v' \/ (exists l v2, awaited l v' = true /\ own_step l v' /\ next (config 0) l v' = Some v2) \/
   (exists i, vcpus v' !! i = Some InGuest)).
Proof.
  destruct (exec (config 0) stopped (start_vm 0)) as [v|] eqn:E; [|vm_compute in E; discriminate E].
  destruct (exec (config 0) the_rest v) as [v'|] eqn:E'.
  2: { exfalso. vm_compute in E. injection E as <-. vm_compute in E'. discriminate E'. }
  assert (Hd : vm_done (sh v) = true) by (vm_compute in E; injection E as <-; reflexivity).
  assert (Hh : no_hang v') by apply no_devices_no_hang.
  assert (Hc : 1 <= cpus (config 0)) by (cbn; lia).
  destruct (kvm_vm_shuts_down (config 0) (Some (0, 0)) tt v the_rest v' Hc (kvm_exec_steps _ _ _ _ E) Hd E') as [Hb Hp].
  exists v, v'. split_and!; auto.
Defined.

Lemma kvm_first_finish_witness : exists v v' : vm unit,
  one_finish v /\ result_of (sh v') = ("guest-exit", 2) /\ returns_it ("guest-exit", 2) v'.
Proof.
  destruct (exec (config 1000) lost_kick (start_vm 1000)) as [v|] eqn:E; [|vm_compute in E; discriminate E].
  destruct (exec (config 1000) expire v) as [v'|] eqn:E'.
  2: { exfalso. vm_compute in E. injection E as <-. vm_compute in E'. discriminate E'. }
  destruct (kvm_first_finish (config 1000) (Some (0, 0)) tt v v' (kvm_exec_steps _ _ _ _ E) (kvm_exec_steps _ _ _ _ E'))
    as [Ho Hr].
  assert (vm_done (sh v) = true /\ publishers v = 0%nat /\ ~ ended v /\ result_of (sh v) = ("guest-exit", 2))
    as (Hd & Hp & He & Hres).
  { vm_compute in E. clear E' Hr. injection E as <-. repeat split; try reflexivity. by intros (p & [= <-] & ?). }
  destruct (Hr Hd Hp He) as [Hr1 Hr2]. exists v, v'. rewrite <-Hres. auto.
Defined.
