(* ===== verification/KvmBoot.v ===== *)
(** * native/kvm/backend.cc: what RunVm prepares before the first vCPU runs

    CPUID, the model-specific registers, the local APIC, the page tables and registers of
    the bootstrap processor, the ELF loader, the zero page, the MP table and the interrupt
    routing of the Linux backend.  KVM's ioctls are the class [KvmVcpuApi]; files are those
    of [Posix].  The specifications are those of the Windows backend: the same zero page,
    the same decoder of the MP table, the same page walk.  The theorems: what a processor
    reads as its identity and topology; that everything is readable from one memory when
    the processors start; that RAM of more than 3328 MiB covers the devices. *)

From S2P Require Import Prelude Words Bytes GuestMemory Posix KvmAcpi.
From S2P Require PageTables BootParams Elf Acpi Vcpu.

(** ** KVM's data *)

Record kvm_segment := mkSeg {
  base : Z; limit : Z; selector : Z; type : Z; present : Z; dpl : Z; db : Z; s : Z; l : Z; g : Z; avl : Z; unusable : Z }.
#[export] Instance eta_kvm_segment : Eta kvm_segment := fun x =>
  mkSeg (base x) (limit x) (selector x) (type x) (present x) (dpl x) (db x) (s x) (l x) (g x) (avl x) (unusable x).
Record kvm_dtable := mkDtable { dt_base : Z; dt_limit : Z }.

Record kvm_sregs := mkSregs {
  cs : kvm_segment; ds : kvm_segment; es : kvm_segment; fs : kvm_segment; gs : kvm_segment; ss : kvm_segment;
  tr : kvm_segment; ldt : kvm_segment; gdt : kvm_dtable; idt : kvm_dtable;
  cr0 : Z; cr2 : Z; cr3 : Z; cr4 : Z; cr8 : Z; efer : Z; apic_base : Z }.
#[export] Instance eta_kvm_sregs : Eta kvm_sregs := fun x =>
  mkSregs (cs x) (ds x) (es x) (fs x) (gs x) (ss x) (tr x) (ldt x) (gdt x) (idt x)
    (cr0 x) (cr2 x) (cr3 x) (cr4 x) (cr8 x) (efer x) (apic_base x).

(** The registers the monitor names, and the others in order. *)
Record kvm_regs := mkRegs { rip : Z; rflags : Z; rsi : Z; rsp : Z; rbp : Z; other_regs : list Z }.
#[export] Instance eta_kvm_regs : Eta kvm_regs := fun x =>
  mkRegs (rip x) (rflags x) (rsi x) (rsp x) (rbp x) (other_regs x).

Record kvm_cpuid_entry2 := mkCpuidEntry { function : Z; index : Z; flags : Z; eax : Z; ebx : Z; ecx : Z; edx : Z }.
#[export] Instance eta_kvm_cpuid_entry2 : Eta kvm_cpuid_entry2 := fun x =>
  mkCpuidEntry (function x) (index x) (flags x) (eax x) (ebx x) (ecx x) (edx x).

Record kvm_fpu := mkFpu { fcw : Z; mxcsr : Z }.
Record kvm_irq_routing_entry := mkRoute { gsi : Z; irqchip : Z; pin : Z }.

Definition KVM_MP_STATE_UNINITIALIZED : Z := 1.
Definition KVM_IRQCHIP_PIC_MASTER : Z := 0.
Definition KVM_IRQCHIP_PIC_SLAVE : Z := 1.
Definition KVM_IRQCHIP_IOAPIC : Z := 2.

(** The ioctls, on the processor with the given index. *)
Class KvmVcpuApi (W : Type) := {
  GET_SUPPORTED_CPUID : W -> sysresult (list kvm_cpuid_entry2) * W;
  SET_CPUID2 : Z -> list kvm_cpuid_entry2 -> W -> sysresult unit * W;
  (** the number of registers set *)
  SET_MSRS : Z -> list (Z * Z) -> W -> sysresult Z * W;
  SET_FPU : Z -> kvm_fpu -> W -> sysresult unit * W;
  GET_LAPIC : Z -> W -> sysresult (list Z) * W;
  SET_LAPIC : Z -> list Z -> W -> sysresult unit * W;
  GET_SREGS : Z -> W -> sysresult kvm_sregs * W;
  SET_SREGS : Z -> kvm_sregs -> W -> sysresult unit * W;
  GET_REGS : Z -> W -> sysresult kvm_regs * W;
  SET_REGS : Z -> kvm_regs -> W -> sysresult unit * W;
  SET_MP_STATE : Z -> Z -> W -> sysresult unit * W;
  SET_GSI_ROUTING : list kvm_irq_routing_entry -> W -> sysresult unit * W
}.

Definition ioctl {W A} (call : W -> sysresult A * W) (what : string) : M W A := fun w =>
  let '(r, w) := call w in (CheckErr r what, w).

(** ** CPUID *)

(** [while (max > 0) { out++; max >>= 1; }] *)
Fixpoint log2_loop (fuel : nat) (max out : Z) : outcome Z :=
  if 0 <? max then
    match fuel with O => OutOfFuel | S fuel => log2_loop fuel (Z.shiftr max 1) (u32 (out + 1)) end
  else Ok out.

Definition CeilLog2 (value : Z) : outcome Z :=
  log2_loop 32 (if 0 <? value then value - 1 else 0) 0.

(** The body of the loop over the entries. *)
Definition cpuid_entry (cpu_id cpu_count logical_cpus topology_shift : Z) (entry : kvm_cpuid_entry2) : kvm_cpuid_entry2 :=
  if function entry =? 1 then
    let entry := entry <| ebx := Z.lor (Z.land (ebx entry) 0x00FFFFFF) (u32 (Z.shiftl (Z.land cpu_id 0xFF) 24)) |> in
    let entry := entry <| ebx := Z.lor (Z.land (ebx entry) 0xFF00FFFF) (u32 (Z.shiftl logical_cpus 16)) |> in
    if 1 <? cpu_count then entry <| edx := Z.lor (edx entry) (Z.shiftl 1 28) |> else entry
  else if (function entry =? 0x0B) || (function entry =? 0x1F) then
    let entry := entry <| edx := cpu_id |> in
    if index entry =? 0 then
      ((entry <| eax := 0 |>) <| ebx := 1 |>) <| ecx := Z.lor (Z.shiftl 1 8) (index entry) |>
    else if index entry =? 1 then
      ((entry <| eax := topology_shift |>) <| ebx := cpu_count |>) <| ecx := Z.lor (Z.shiftl 2 8) (index entry) |>
    else ((entry <| eax := 0 |>) <| ebx := 0 |>) <| ecx := index entry |>
  else entry.

Section Vcpus.
Context {W : Type} `{KvmVcpuApi W}.

Definition SetupCpuid (vcpu cpu_id cpu_count : Z) : M W unit :=
  ioctl GET_SUPPORTED_CPUID "KVM_GET_SUPPORTED_CPUID" ≫= fun entries =>
  let logical_cpus := Z.min cpu_count 255 in
  lift (CeilLog2 cpu_count) ≫= fun topology_shift =>
  ioctl (SET_CPUID2 vcpu (map (cpuid_entry cpu_id cpu_count logical_cpus topology_shift) entries)) "KVM_SET_CPUID2".

(** ** The other registers *)

Definition msrs : list (Z * Z) :=
  [(0x174, 0); (0x175, 0); (0x176, 0); (0x10, 0); (0x1A0, 1); (0xC0000080, 0x500); (0xC0000081, 0);
   (0xC0000082, 0); (0xC0000083, 0); (0xC0000084, 0); (0xC0000102, 0); (0x2FF, Z.lor (Z.shiftl 1 11) 0x6)].

Definition SetupMsrs (vcpu : Z) : M W unit :=
  ioctl (SET_MSRS vcpu msrs) "KVM_SET_MSRS" ≫= fun _ => mret tt.

Definition SetupFpu (vcpu : Z) : M W unit := ioctl (SET_FPU vcpu (mkFpu 0x37F 0x1F80)) "KVM_SET_FPU".

(** LINT0 as ExtINT and LINT1 as NMI. *)
Definition lapic_writes (regs : list Z) : list Z :=
  put (put regs 0x350 [0x00; 0x07; 0x00; 0x00]) 0x360 [0x00; 0x04; 0x00; 0x00].
Definition SetupLapic (vcpu : Z) : M W unit :=
  ioctl (GET_LAPIC vcpu) "KVM_GET_LAPIC" ≫= fun lapic =>
  ioctl (SET_LAPIC vcpu (lapic_writes lapic)) "KVM_SET_LAPIC".

Definition SetMpState (vcpu state : Z) : M W unit := ioctl (SET_MP_STATE vcpu state) "KVM_SET_MP_STATE".

Definition SetupRealMode (vcpu entry : Z) : M W unit :=
  ioctl (GET_SREGS vcpu) "KVM_GET_SREGS" ≫= fun sregs =>
  let sregs := sregs <| cs := (cs sregs) <| base := 0 |> <| selector := 0 |> |> in
  ioctl (SET_SREGS vcpu sregs) "KVM_SET_SREGS" ≫= fun _ =>
  ioctl (SET_REGS vcpu (mkRegs entry 0x2 0 0 0 (repeat 0 13))) "KVM_SET_REGS".

(** ** Long mode *)

Definition kPageTableBase : Z := 0x9000.
Definition kBootParamsAddr : Z := 0x7000.
Definition kCmdlineAddr : Z := 0x20000.
Definition kGdtAddr : Z := 0x500.
Definition kIdtAddr : Z := 0x520.

Definition page_size : Z := 0x1000.
Definition pt_flags : Z := 0x07.
Definition huge : Z := 0x83.

Definition BuildPageTables (mem_size base : Z) : M ram unit :=
  let pml4 := base in
  let pdpt := u64 (base + page_size) in
  let pd := u64 (base + 2 * page_size) in
  put_guest mem_size pml4 8 (WriteU64 (Z.lor pdpt pt_flags)) ≫= fun _ =>
  for_each (fun i =>
      let this_pd := u64 (pd + i * page_size) in
      put_guest mem_size (u64 (pdpt + i * 8)) 8 (WriteU64 (Z.lor this_pd pt_flags)) ≫= fun _ =>
      for_each (fun j =>
          let phys := (i * 512 + j) * 0x200000 in
          put_guest mem_size (this_pd + j * 8) 8 (WriteU64 (Z.lor phys huge))) (seqZ 0 512))
    (seqZ 0 4).

Definition gdt_entries : list Z :=
  [0x0000000000000000; 0x00AF9B000000FFFF; 0x00CF93000000FFFF; 0x008F8B000000FFFF].

Definition set_data (seg : kvm_segment) : kvm_segment :=
  seg <| base := 0 |> <| limit := 0xFFFFF |> <| selector := 0x10 |> <| type := 3 |> <| present := 1 |>
      <| s := 1 |> <| db := 1 |> <| g := 1 |>.

Definition long_mode_sregs (sregs : kvm_sregs) : kvm_sregs :=
  let sregs := sregs <| cs := (cs sregs) <| base := 0 |> <| limit := 0xFFFFF |> <| selector := 0x08 |> <| type := 11 |>
    <| present := 1 |> <| s := 1 |> <| l := 1 |> <| g := 1 |> |> in
  let sregs := sregs <| ds := set_data (ds sregs) |> in
  let sregs := sregs <| es := set_data (es sregs) |> in
  let sregs := sregs <| fs := set_data (fs sregs) |> in
  let sregs := sregs <| gs := set_data (gs sregs) |> in
  let sregs := sregs <| ss := set_data (ss sregs) |> in
  let sregs := sregs <| tr := (tr sregs) <| base := 0 |> <| limit := 0xFFFFF |> <| selector := 0x18 |> <| type := 11 |>
    <| present := 1 |> <| g := 1 |> |> in
  let sregs := sregs <| gdt := mkDtable kGdtAddr 31 |> in
  let sregs := sregs <| idt := mkDtable kIdtAddr 7 |> in
  let sregs := sregs <| cr0 := Z.lor (cr0 sregs) 0x80000001 |> in
  let sregs := sregs <| cr3 := kPageTableBase |> in
  let sregs := sregs <| cr4 := Z.lor (cr4 sregs) 0x20 |> in
  sregs <| efer := Z.lor (efer sregs) 0x500 |>.

Definition long_mode_regs (entry : Z) (regs : kvm_regs) : kvm_regs :=
  regs <| rip := entry |> <| rsi := kBootParamsAddr |> <| rflags := 0x2 |> <| rsp := 0x8FF0 |> <| rbp := 0x8FF0 |>.

Definition SetupLongMode (mem_size vcpu entry : Z) : M (ram * W) unit :=
  on_fst (BuildPageTables mem_size kPageTableBase) ≫= fun _ =>
  on_fst (for_each (fun i => put_guest mem_size (kGdtAddr + i * 8) 8 (WriteU64 (nth (Z.to_nat i) gdt_entries 0)))
            (seqZ 0 4)) ≫= fun _ =>
  on_fst (put_guest mem_size kIdtAddr 8 (WriteU64 0)) ≫= fun _ =>
  on_snd (ioctl (GET_SREGS vcpu) "KVM_GET_SREGS") ≫= fun sregs =>
  on_snd (ioctl (SET_SREGS vcpu (long_mode_sregs sregs)) "KVM_SET_SREGS") ≫= fun _ =>
  on_snd (ioctl (GET_REGS vcpu) "KVM_GET_REGS") ≫= fun regs =>
  on_snd (ioctl (SET_REGS vcpu (long_mode_regs entry regs)) "KVM_SET_REGS").

Definition SetupBootstrapVcpu (mem_size vcpu entry cpu_count : Z) : M (ram * W) unit :=
  on_snd (SetupCpuid vcpu 0 cpu_count) ≫= fun _ =>
  on_snd (SetupMsrs vcpu) ≫= fun _ =>
  on_snd (SetupFpu vcpu) ≫= fun _ =>
  SetupLongMode mem_size vcpu entry ≫= fun _ =>
  on_snd (SetupLapic vcpu).

Definition SetupApplicationVcpu (vcpu cpu_id cpu_count : Z) : M W unit :=
  SetupCpuid vcpu cpu_id cpu_count ≫= fun _ =>
  SetupMsrs vcpu ≫= fun _ =>
  SetupFpu vcpu ≫= fun _ =>
  SetupRealMode vcpu 0 ≫= fun _ =>
  SetupLapic vcpu ≫= fun _ =>
  SetMpState vcpu KVM_MP_STATE_UNINITIALIZED.

(** ** Interrupt routing *)

(** [kMaxIoApicPins] rounds; the table has room for 64 entries. *)
Definition irq_routes (irq : Z) : list kvm_irq_routing_entry :=
  (if irq <? 16 then
     [mkRoute irq (if irq <? 8 then KVM_IRQCHIP_PIC_MASTER else KVM_IRQCHIP_PIC_SLAVE) (if irq <? 8 then irq else irq - 8)]
   else []) ++ [mkRoute irq KVM_IRQCHIP_IOAPIC irq].
Definition routing_table : list kvm_irq_routing_entry := concat (map irq_routes (seqZ 0 kMaxIoApicPins)).

Definition SetIrqRouting : M W unit := ioctl (SET_GSI_ROUTING routing_table) "KVM_SET_GSI_ROUTING".
End Vcpus.

(** ** The kernel *)

Section Load.
Context {F H : Type} `{Posix F H}.

(** The loop of [ReadFile]; [fuel] bounds the transfers, as in Posix. *)
Definition read_file (fuel : nat) (fd : H) (size : Z) (path : string) : M F (list Z) := fun f =>
  let '(o, data, f) := transfer_in fuel (fun _ want => sys_read fd want) size
    ("read " ++ path)%string ("short read " ++ path)%string [] f in
  (match o with Ok _ => Ok data | Throw e => Throw e | OutOfFuel => OutOfFuel end, f).

Definition ReadFile (fuel : nat) (path : string) : M F (list Z) :=
  checked (sys_open path O_RDONLY) ("open " ++ path)%string ≫= fun fd =>
  checked (sys_fstat fd) ("stat " ++ path)%string ≫= fun st_size =>
  lift (Check (0 <=? st_size) ("negative file size: " ++ path)%string) ≫= fun _ =>
  read_file fuel fd st_size path.
End Load.

Section Loader.
Context (file : list Z) (mem_size : Z).

(** One iteration of the program-header loop; the result is the new kernel_end. *)
Definition load_segment (ph : Elf.Elf64Phdr) (kend : Z) : M ram Z :=
  if negb (Elf.type ph =? Elf.kElfPtLoad) then mret kend
  else
    lift (Check (Elf.filesz ph <=? Elf.memsz ph) "kernel segment file size exceeds memory size") ≫= fun _ =>
    lift (CheckRange (Z.of_nat (length file)) (Elf.offset ph) (Elf.filesz ph) "kernel segment file range") ≫= fun _ =>
    lift (CheckRange mem_size (Elf.paddr ph) (Elf.memsz ph) "kernel segment guest range") ≫= fun _ =>
    put_guest mem_size (Elf.paddr ph) (Elf.filesz ph)
      (take (Z.to_nat (Elf.filesz ph)) (drop (Z.to_nat (Elf.offset ph)) file)) ≫= fun _ =>
    when (Elf.filesz ph <? Elf.memsz ph)
      (lift (CheckedAdd (Elf.paddr ph) (Elf.filesz ph) "kernel zero-fill range") ≫= fun zero_start =>
       lift (ptr mem_size zero_start (Elf.memsz ph - Elf.filesz ph)) ≫= fun _ =>
       modify (fun m => fill m zero_start (Elf.memsz ph - Elf.filesz ph) 0)) ≫= fun _ =>
    lift (CheckedAdd (Elf.paddr ph) (Elf.memsz ph) "kernel end") ≫= fun e =>
    mret (Z.max kend e).

(** [for (i = 0; i < eh->e_phnum; i++)] over the remaining indices. *)
Fixpoint load_segments (eh : Elf.Elf64Ehdr) (idxs : list Z) (kend : Z) : M ram Z :=
  match idxs with
  | [] => mret kend
  | i :: idxs =>
      lift (Elf.phdr_at file eh i) ≫= fun ph =>
      load_segment ph kend ≫= fun kend => load_segments eh idxs kend
  end.

Definition check_ehdr (eh : Elf.Elf64Ehdr) : outcome unit :=
  Check (bool_decide (take 4 (Elf.ident eh) = Elf.kElfMagic))
    "kernel must be an ELF vmlinux for KVM v1" ≫= fun _ =>
  Check (byte_at (Elf.ident eh) 4 =? Elf.kElfClass64) "kernel must be ELF64" ≫= fun _ =>
  Check (byte_at (Elf.ident eh) 5 =? Elf.kElfDataLe) "kernel must be little-endian ELF" ≫= fun _ =>
  Check (Elf.machine eh =? Elf.kElfMachineX64) "kernel must be x86_64 ELF" ≫= fun _ =>
  Check (Elf.phentsize eh =? Elf.sizeof_Phdr) "kernel ELF program header size is unsupported" ≫= fun _ =>
  CheckedMul (Elf.phnum eh) Elf.sizeof_Phdr "kernel program header table" ≫= fun ph_size =>
  CheckRange (Z.of_nat (length file)) (Elf.phoff eh) ph_size "kernel program header table".

Definition LoadElfImage : M ram Elf.KernelInfo :=
  lift (Check (Elf.sizeof_Ehdr <=? Z.of_nat (length file)) "kernel is too small") ≫= fun _ =>
  let eh := Elf.read_ehdr file in
  lift (check_ehdr eh) ≫= fun _ =>
  load_segments eh (seqZ 0 (Elf.phnum eh)) 0 ≫= fun kend =>
  lift (Check (negb (Elf.entry eh =? 0)) "kernel ELF entrypoint is zero") ≫= fun _ =>
  mret (Elf.mkKernelInfo (Elf.entry eh) kend).
End Loader.

Definition LoadElfKernel {F H} `{Posix F H} (fuel : nat) (mem_size : Z) (path : string) : M (F * ram) Elf.KernelInfo :=
  on_fst (ReadFile fuel path) ≫= fun file => on_snd (LoadElfImage file mem_size).

(** ** The zero page and the MP table *)

Definition PutE820 (mem_size off addr size typ : Z) : M ram unit :=
  put_guest mem_size off 20 (WriteU64 addr) ≫= fun _ =>
  put_guest mem_size (off + 8) 12 (WriteU64 size) ≫= fun _ =>
  put_guest mem_size (off + 16) 4 (WriteU32 typ).

Definition WriteBootParams (mem_size mem_bytes : Z) (cmdline : list Z) : M ram unit :=
  let base := kBootParamsAddr in
  let n := Z.of_nat (length cmdline) + 1 in
  lift (ptr mem_size base 4096) ≫= fun _ =>
  lift (ptr mem_size kCmdlineAddr n) ≫= fun _ =>
  put_guest mem_size kCmdlineAddr n (cmdline ++ [0]) ≫= fun _ =>
  lift (ptr mem_size (base + 0x2D0) 80) ≫= fun _ =>
  put_guest mem_size (base + 0x1E8) 1 [4] ≫= fun _ =>
  PutE820 mem_size (base + 0x2D0) 0x00000000 0x0009FC00 1 ≫= fun _ =>
  PutE820 mem_size (base + 0x2D0 + 20) 0x0009FC00 0x00040400 2 ≫= fun _ =>
  PutE820 mem_size (base + 0x2D0 + 40) 0x000E0000 0x00020000 2 ≫= fun _ =>
  when (0x00100000 <? mem_bytes)
    (PutE820 mem_size (base + 0x2D0 + 60) 0x00100000 (u64 (mem_bytes - 0x00100000)) 1) ≫= fun _ =>
  put_guest mem_size (base + 0x1FA) 2 (WriteU16 0xFFFF) ≫= fun _ =>
  put_guest mem_size (base + 0x1FE) 2 (WriteU16 0xAA55) ≫= fun _ =>
  put_guest mem_size (base + 0x202) 4 (WriteU32 0x53726448) ≫= fun _ =>
  put_guest mem_size (base + 0x210) 1 [0xFF] ≫= fun _ =>
  lift (ptr mem_size (base + 0x211) 1) ≫= fun _ =>
  modify (fun m => store m (base + 0x211) [Z.lor (m (base + 0x211)) 0x01]) ≫= fun _ =>
  put_guest mem_size (base + 0x228) 4 (WriteU32 (u32 kCmdlineAddr)) ≫= fun _ =>
  put_guest mem_size (base + 0x238) 4 (WriteU32 (u32 (Z.of_nat (length cmdline)))).

Definition Checksum : list Z -> nat -> nat -> Z := BootParams.Checksum.

Definition base_ram_end : Z := 0xA0000.
Definition apic_version : Z := 0x14.
Definition max_legacy_gsi : Z := 23.

Definition mp_cpu (cpu : Z) : list Z :=
  let entry := repeat 0 20 in
  let entry := put entry 0 [0] in
  let entry := put entry 1 [u8 cpu] in
  let entry := put entry 2 [apic_version] in
  let entry := put entry 3 [Z.lor 0x01 (if cpu =? 0 then 0x02 else 0)] in
  let entry := put entry 4 (WriteU32 0x600) in
  put entry 8 (WriteU32 (Z.lor 0x200 0x001)).
Definition mp_bus : list Z := put (put (repeat 0 8) 0 [1]) 2 (BootParams.ascii_bytes "ISA   ").
Definition mp_ioapic (io_apic_id : Z) : list Z :=
  put (put (put (put (put (repeat 0 8) 0 [2]) 1 [io_apic_id]) 2 [apic_version]) 3 [1]) 4 (WriteU32 0xFEC00000).
Definition mp_irq (io_apic_id irq : Z) : list Z :=
  put (put (put (put (put (put (repeat 0 8) 0 [3]) 1 [0]) 4 [0]) 5 [u8 irq]) 6 [io_apic_id]) 7 [u8 irq].
Definition mp_extint : list Z := put (put (repeat 0 8) 0 [4]) 1 [3].
Definition mp_nmi : list Z := put (put (put (put (repeat 0 8) 0 [4]) 1 [1]) 6 [0xFF]) 7 [1].

Definition mp_entries (cpus : Z) : list Z :=
  let io_apic_id := u8 (cpus + 1) in
  concat (map mp_cpu (seqZ 0 cpus)) ++ mp_bus ++ mp_ioapic io_apic_id ++
  concat (map (mp_irq io_apic_id) (seqZ 0 (max_legacy_gsi + 1))) ++ mp_extint ++ mp_nmi.

(** [entry_count++] once per entry appended. *)
Definition mp_entry_count (cpus : Z) : Z := u16 (Z.max 0 cpus + 1 + 1 + (max_legacy_gsi + 1) + 1 + 1).

Definition mp_size (cpus : Z) : Z := 16 + 44 + 20 * cpus + 8 + 8 + 8 * (max_legacy_gsi + 1) + 8 * 2.
Definition mp_start (cpus : Z) : Z := Z.land (u64 (base_ram_end - u64 (mp_size cpus))) (bnot 64 0xF).

Definition mp_buffer (cpus : Z) : list Z :=
  let buf := repeat 0 (Z.to_nat (mp_size cpus)) in
  let buf := put buf 0 (BootParams.ascii_bytes "_MP_") in
  let buf := put buf 4 (WriteU32 (u32 (mp_start cpus + 16))) in
  let buf := put buf 8 [1] in
  let buf := put buf 9 [4] in
  let buf := put buf 10 [Checksum buf 0 16] in
  let entries := mp_entries cpus in
  let buf := put buf 16 (BootParams.ascii_bytes "PCMP") in
  let buf := put buf (16 + 4) (WriteU16 (u16 (44 + Z.of_nat (length entries)))) in
  let buf := put buf (16 + 6) [4] in
  let buf := put buf (16 + 8) (BootParams.ascii_bytes "FC      ") in
  let buf := put buf (16 + 16) (BootParams.ascii_bytes "000000000000") in
  let buf := put buf (16 + 34) (WriteU16 (mp_entry_count cpus)) in
  let buf := put buf (16 + 36) (WriteU32 0xFEE00000) in
  let buf := put buf (16 + 44) entries in
  put buf (16 + 7) [Checksum buf 16 (44 + length entries)].

Definition WriteMpTable (mem_size cpus : Z) : M ram unit :=
  let buf := mp_buffer cpus in put_guest mem_size (mp_start cpus) (Z.of_nat (length buf)) buf.

(** ** RunVm up to the first KVM_RUN *)

Record vm_config := mkConfig {
  kernelPath : string; rootfsPath : string; cmdline : list Z; mem_mib : Z; cpus : Z;
  (** whether [netTapName] is set, [netSlirpEnabled], whether [netGuestMac] is set *)
  tap : bool; slirp_enabled : bool; guest_mac : bool;
  (** the number of attached disks *)
  attached_disks : Z }.

Definition kKernelCmdlineMax : Z := 2048.
Definition kMaxVcpus : Z := 64.

Definition network_enabled (c : vm_config) : bool := tap c || slirp_enabled c.
Definition disk_count (c : vm_config) : Z := u32 (attached_disks c + 1).

Definition check_config (c : vm_config) : outcome unit :=
  Check (attached_disks c <? kMaxIoApicPins) "too many attached disks" ≫= fun _ =>
  CheckVirtioMmioDeviceCount (u32 (disk_count c + (if network_enabled c then 1 else 0))) ≫= fun _ =>
  Check (negb (kernelPath c =? "")%string) "kernelPath is required" ≫= fun _ =>
  Check (negb (rootfsPath c =? "")%string) "rootfsPath is required" ≫= fun _ =>
  Check (negb (Z.of_nat (length (cmdline c)) =? 0)) "cmdline is required" ≫= fun _ =>
  Check ((1 <=? cpus c) && (cpus c <=? kMaxVcpus)) "cpus must be between 1 and 64" ≫= fun _ =>
  Check (negb (slirp_enabled c && tap c)) "netSlirpEnabled cannot be combined with netTapName" ≫= fun _ =>
  Check (negb (network_enabled c) || guest_mac c) "netGuestMac is required when networking is enabled" ≫= fun _ =>
  Check (Z.of_nat (length (cmdline c)) + 1 <=? kKernelCmdlineMax) "kernel cmdline is too long".

(** The size of the memory region of [CreateVmWithMemory], and its check. *)
Definition ram_bytes (c : vm_config) : Z := mem_mib c * 1024 * 1024.
Definition check_ram (c : vm_config) : outcome unit :=
  Check ((0 <? ram_bytes c) && (ram_bytes c <=? Z.shiftl 1 32)) "invalid guest memory size".

(** From [LoadElfKernel] to [SetIrqRouting]: files, guest memory and KVM. *)
Definition load_guest {F H W} `{Posix F H} `{KvmVcpuApi W} (fuel : nat) (c : vm_config) : M ((F * ram) * W) Elf.KernelInfo :=
  let mem_size := ram_bytes c in
  on_fst (LoadElfKernel fuel mem_size (kernelPath c)) ≫= fun kernel =>
  on_fst (on_snd (CreateAcpiTables mem_size (network_enabled c) (cpus c) (disk_count c))) ≫= fun rsdp_addr =>
  on_fst (on_snd (WriteBootParams mem_size (ram_bytes c) (cmdline c))) ≫= fun _ =>
  on_fst (on_snd (put_guest mem_size (kBootParamsAddr + 0x70) 8 (WriteU64 rsdp_addr))) ≫= fun _ =>
  on_fst (on_snd (WriteMpTable mem_size (cpus c))) ≫= fun _ =>
  on_snd SetIrqRouting ≫= fun _ =>
  mret kernel.

(** The processors are set up once they all exist. *)
Definition start_vcpus {W} `{KvmVcpuApi W} (c : vm_config) (entry : Z) : M (ram * W) unit :=
  SetupBootstrapVcpu (ram_bytes c) 0 entry (cpus c) ≫= fun _ =>
  for_each (fun i => on_snd (SetupApplicationVcpu i i (cpus c))) (seqZ 1 (cpus c - 1)).

(** ** Processor identity *)

Lemma log2_loop_spec fuel : forall max out, 0 <= max < 2 ^ Z.of_nat fuel -> 0 <= out -> out + Z.of_nat fuel < 2 ^ 32 ->
  log2_loop fuel max out = Ok (out + (if max =? 0 then 0 else Z.log2 max + 1)).
Proof.
  induction fuel as [|fuel IH]; intros max out Hm Ho Hb.
  - assert (max = 0) as -> by (cbn in Hm; lia). cbn. f_equal. lia.
  - cbn [log2_loop]. destruct (Z.ltb_spec 0 max) as [Hp|]; [|assert (max = 0) as -> by lia; cbn; f_equal; lia].
    rewrite u32_small by lia. rewrite Z.shiftr_div_pow2, Z.pow_1_r by lia.
    rewrite IH; [|split; [apply Z.div_pos; lia|apply Z.div_lt_upper_bound; [lia|]; rewrite <- Z.pow_succ_r by lia;
      replace (Z.succ (Z.of_nat fuel)) with (Z.of_nat (S fuel)) by lia; lia]|lia|lia].
    destruct (Z.eqb_spec max 0); [lia|]. f_equal. destruct (Z.eqb_spec (max / 2) 0) as [E|E].
    + assert (max = 1) as -> by (Z.to_euclidean_division_equations; lia). change (Z.log2 1) with 0. lia.
    + assert (2 <= max) by (Z.to_euclidean_division_equations; lia).
      replace (max / 2) with (Z.shiftr max 1) by (by rewrite Z.shiftr_div_pow2).
      rewrite Z.log2_shiftr by lia. assert (1 <= Z.log2 max) by (apply Z.log2_le_pow2; lia). lia.
Qed.

(** The least power of two that is not smaller. *)
Lemma CeilLog2_spec value : 1 <= value < 2 ^ 32 ->
  exists n, CeilLog2 value = Ok n /\ 0 <= n <= 32 /\ value <= 2 ^ n /\ (0 < n -> 2 ^ (n - 1) < value).
Proof.
  intros Hv. unfold CeilLog2. destruct (Z.ltb_spec 0 value); [|lia].
  rewrite log2_loop_spec by (change (Z.of_nat 32) with 32; lia). eexists. split; [reflexivity|]. rewrite Z.add_0_l.
  destruct (Z.eqb_spec (value - 1) 0) as [E|E]; [assert (value = 1) as -> by lia; cbn; lia|].
  pose proof (Z.log2_spec (value - 1) ltac:(lia)) as [H1 H2]. pose proof (Z.log2_nonneg (value - 1)).
  assert (Z.log2 (value - 1) < 32) by (apply Z.log2_lt_pow2; lia).
  replace (Z.log2 (value - 1) + 1 - 1) with (Z.log2 (value - 1)) by lia.
  change (Z.succ (Z.log2 (value - 1))) with (Z.log2 (value - 1) + 1) in H2. lia.
Qed.

(** What a processor reads of itself: APIC id, processors in the package, HTT. *)
Definition leaf_1 (cpu_id cpu_count : Z) (host e : kvm_cpuid_entry2) : Prop :=
  Z.shiftr (ebx e) 24 = cpu_id /\ Z.land (Z.shiftr (ebx e) 16) 0xFF = cpu_count /\
  Z.land (ebx e) 0xFFFF = Z.land (ebx host) 0xFFFF /\
  Z.testbit (edx e) 28 = (1 <? cpu_count) || Z.testbit (edx host) 28.

(** The extended topology: the id, and at level 1 (core) a shift that leaves every
    processor in package 0, and no larger than needed. *)
Definition leaf_topology (cpu_id cpu_count : Z) (e : kvm_cpuid_entry2) : Prop :=
  edx e = cpu_id /\ Z.land (ecx e) 0xFF = index e /\
  (index e = 0 -> eax e = 0 /\ ebx e = 1 /\ Z.shiftr (ecx e) 8 = 1) /\
  (index e = 1 -> ebx e = cpu_count /\ Z.shiftr (ecx e) 8 = 2 /\
     (forall id, 0 <= id < cpu_count -> Z.shiftr id (eax e) = 0) /\
     (0 < eax e -> exists id, 0 <= id < cpu_count /\ Z.shiftr id (eax e - 1) <> 0)) /\
  (1 < index e -> eax e = 0 /\ ebx e = 0 /\ Z.shiftr (ecx e) 8 = 0).

(** The bits of EBX in leaf 1. *)
Definition leaf_1_ebx (b id n : Z) : Z :=
  Z.lor (Z.land (Z.lor (Z.land b 0x00FFFFFF) (u32 (Z.shiftl (Z.land id 0xFF) 24))) 0xFF00FFFF) (u32 (Z.shiftl n 16)).

Lemma leaf_1_bits b id n k : 0 <= id < 64 -> 1 <= n <= 64 -> 0 <= k ->
  Z.testbit (leaf_1_ebx b id n) k =
  if k <? 16 then Z.testbit b k else if k <? 24 then Z.testbit n (k - 16) else Z.testbit id (k - 24).
Proof.
  intros Hi Hn Hk. unfold leaf_1_ebx. change 0xFF with (Z.ones 8). rewrite (Z.land_ones id), Z.mod_small by lia.
  rewrite !Z.shiftl_mul_pow2, !u32_small by lia. rewrite <- !Z.shiftl_mul_pow2 by lia.
  change 0x00FFFFFF with (Z.ones 24). change 0xFF00FFFF with (Z.lor (Z.shiftl (Z.ones 8) 24) (Z.ones 16)).
  rewrite !Z.lor_spec, !Z.land_spec, !Z.lor_spec, !Z.land_spec, !Z.shiftl_spec, !Z.testbit_ones by lia.
  assert (Hid : 6 <= k - 24 -> Z.testbit id (k - 24) = false) by (intros; apply (testbit_small id 6); lia).
  assert (Hnn : 8 <= k - 16 -> Z.testbit n (k - 16) = false) by (intros; apply (testbit_small n 8); lia).
  destruct (Z.ltb_spec k 16), (Z.ltb_spec k 24); try lia.
  - rewrite (Z.testbit_neg_r n), (Z.testbit_neg_r id) by lia.
    repeat match goal with |- context [?a <=? ?b] => destruct (Z.leb_spec a b); try lia end. cbn.
    by rewrite !andb_true_r, !orb_false_r.
  - rewrite (Z.testbit_neg_r id) by lia.
    repeat match goal with
    | |- context [?a <=? ?b] => destruct (Z.leb_spec a b); try lia
    | |- context [k <? ?b] => destruct (Z.ltb_spec k b); try lia end. cbn. by rewrite !andb_false_r.
  - rewrite Hnn by lia.
    destruct (Z.ltb_spec k 32).
    + repeat match goal with
      | |- context [?a <=? ?b] => destruct (Z.leb_spec a b); try lia
      | |- context [?a <? ?b] => destruct (Z.ltb_spec a b); try lia end. cbn.
      by rewrite !andb_false_r, !andb_true_r, !orb_false_r.
    + rewrite Hid by lia. by rewrite !orb_false_r, ?andb_false_r, ?orb_false_r;
      repeat match goal with
      | |- context [?a <=? ?b] => destruct (Z.leb_spec a b); try lia
      | |- context [?a <? ?b] => destruct (Z.ltb_spec a b); try lia end; cbn; rewrite ?andb_false_r.
Qed.

Lemma leaf_1_fields b id n : 0 <= id < 64 -> 1 <= n <= 64 ->
  Z.shiftr (leaf_1_ebx b id n) 24 = id /\ Z.land (Z.shiftr (leaf_1_ebx b id n) 16) 0xFF = n /\
  Z.land (leaf_1_ebx b id n) 0xFFFF = Z.land b 0xFFFF.
Proof.
  intros Hi Hn. change 0xFFFF with (Z.ones 16). change 0xFF with (Z.ones 8).
  split_and!; apply Z.bits_inj'; intros k Hk; rewrite ?Z.land_spec, ?Z.shiftr_spec, ?Z.testbit_ones, leaf_1_bits by lia.
  - destruct (Z.ltb_spec (k + 24) 16), (Z.ltb_spec (k + 24) 24); try lia. f_equal. lia.
  - destruct (Z.ltb_spec (k + 16) 16), (Z.ltb_spec (k + 16) 24), (Z.leb_spec 0 k), (Z.ltb_spec k 8); try lia; cbn.
    + rewrite andb_true_r. f_equal. lia.
    + rewrite andb_false_r. symmetry. apply (testbit_small n 8); lia.
  - destruct (Z.ltb_spec k 16); [done|]. by rewrite !andb_false_r.
Qed.

Lemma cpuid_entry_spec cpu_id cpu_count n e : 0 <= cpu_id < cpu_count -> cpu_count <= 64 ->
  0 <= index e < 256 -> 0 <= n <= 32 -> cpu_count <= 2 ^ n -> (0 < n -> 2 ^ (n - 1) < cpu_count) ->
  let e' := cpuid_entry cpu_id cpu_count (Z.min cpu_count 255) n e in
  (function e = 1 -> leaf_1 cpu_id cpu_count e e') /\
  (function e = 0x0B \/ function e = 0x1F -> leaf_topology cpu_id cpu_count e') /\
  (function e <> 1 -> function e <> 0x0B -> function e <> 0x1F -> e' = e) /\
  function e' = function e /\ index e' = index e /\ flags e' = flags e.
Proof.
  intros Hid Hc Hx Hn Hp Hl. cbv zeta. unfold cpuid_entry. rewrite Z.min_l by lia. split_and!.
  - intros ->. cbv beta iota zeta. change (1 =? 1) with true. cbv iota.
    destruct (leaf_1_fields (ebx e) cpu_id cpu_count) as (H1 & H2 & H3); [lia..|].
    unfold leaf_1. destruct (Z.ltb_spec 1 cpu_count); cbn [ebx edx upd_field]; (split_and!; [exact H1|exact H2|exact H3|]).
    + rewrite Z.lor_spec. by rewrite orb_true_r.
    + done.
  - intros Hf. destruct (Z.eqb_spec (function e) 1); [lia|].
    replace ((function e =? 0x0B) || (function e =? 0x1F)) with true by (destruct Hf as [->| ->]; done).
    assert (Hmask : forall j, 0 <= j < 3 -> Z.land (Z.lor (Z.shiftl j 8) (index e)) 0xFF = index e /\
      Z.shiftr (Z.lor (Z.shiftl j 8) (index e)) 8 = j).
    { intros j Hj. rewrite Z.shiftl_mul_pow2, (lor_aligned_add _ _ 8) by (lia || by exists j).
      change 0xFF with (Z.ones 8). rewrite Z.land_ones, Z.shiftr_div_pow2 by lia. change (2 ^ 8) with 256.
      Z.to_euclidean_division_equations; lia. }
    cbv zeta. cbn [index upd_field]. destruct (Z.eqb_spec (index e) 0) as [E|]; [|destruct (Z.eqb_spec (index e) 1) as [E|]];
      unfold leaf_topology; cbn [eax ebx ecx edx index upd_field].
    + destruct (Hmask 1) as [M1 M2]; [lia|]. split_and!; [done|done|done|intros; lia|intros; lia].
    + destruct (Hmask 2) as [M1 M2]; [lia|]. split_and!; [done|done|intros; lia| |intros; lia].
      intros _. split_and!; [done|done| |].
      * intros id Hi. rewrite Z.shiftr_div_pow2 by lia. apply Z.div_small. lia.
      * intros Hn0. exists (cpu_count - 1). split; [lia|]. rewrite Z.shiftr_div_pow2 by lia. specialize (Hl Hn0). pose proof (Z.pow_pos_nonneg 2 (n - 1) ltac:(lia) ltac:(lia)).
        assert (1 <= (cpu_count - 1) / 2 ^ (n - 1)) by (apply Z.div_le_lower_bound; lia). lia.
    + destruct (Hmask 0) as [M1 M2]; [lia|]. split_and!; [done|done|intros; lia|intros; lia|]. intros _. by split_and!.
  - intros H1 H2 H3. destruct (Z.eqb_spec (function e) 1); [done|].
    destruct (Z.eqb_spec (function e) 0x0B), (Z.eqb_spec (function e) 0x1F); done.
  - by repeat case_match.
  - by repeat case_match.
  - by repeat case_match.
Qed.

(** ** Guest memory *)

Definition low_ram (size : Z) : Prop := 0x100000 <= size < 2 ^ 64.

(** A write below 1 MiB goes through. *)
Lemma put_low size gpa n bs m : low_ram size -> 0 <= gpa -> 0 <= n -> gpa + n <= 0x100000 ->
  put_guest size gpa n bs m = (Ok tt, store m gpa bs).
Proof. intros [Hs _] Hg Hn Hl. rewrite put_guest_run by done. destruct (Z.leb_spec (gpa + n) size); [done|lia]. Qed.

Lemma ptr_low size gpa n : low_ram size -> 0 <= gpa -> 0 <= n -> gpa + n <= 0x100000 -> ptr size gpa n = Ok tt.
Proof. intros [Hs _] Hg Hn Hl. rewrite ptr_eq by done. destruct (Z.leb_spec (gpa + n) size); [done|lia]. Qed.

(** A loop of writes that all go through. *)
Lemma for_each_run {X} (f : X -> M ram unit) (g : ram -> X -> ram) l : forall m,
  (forall x m, x ∈ l -> f x m = (Ok tt, g m x)) -> for_each f l m = (Ok tt, fold_left g l m).
Proof.
  induction l as [|x l IH]; intros m Hf; cbn [for_each fold_left]; [done|].
  rewrite bind_run, Hf by (by left). cbv beta iota. apply IH. intros y m' Hy. apply Hf. by right.
Qed.

Ltac put := rewrite bind_run, put_low by (done || lia); cbv beta iota.

Lemma PutE820_run size off addr n typ m : low_ram size -> 0 <= off -> off + 20 <= 0x100000 ->
  PutE820 size off addr n typ m = (Ok tt, BootParams.PutE820 m off addr n typ).
Proof. intros Hs Ho Hl. unfold PutE820, BootParams.PutE820. cbv zeta. put. put. by rewrite put_low by (done || lia). Qed.

Lemma WriteBootParams_run size mem_bytes cmdline m : low_ram size -> Z.of_nat (length cmdline) < 2048 ->
  WriteBootParams size mem_bytes cmdline m = (Ok tt, BootParams.boot_writes mem_bytes cmdline m).
Proof.
  intros Hs Hc. unfold WriteBootParams, BootParams.boot_writes, BootParams.kBootParamsAddr, BootParams.kCmdlineAddr,
    BootParams.kE820Offset, BootParams.kE820EntrySize, kBootParamsAddr, kCmdlineAddr.
  cbv zeta. cbn [Z.add Pos.add Pos.succ Pos.add_carry Z.mul Pos.mul].
  rewrite lift_bind, ptr_low by (done || lia). rewrite lift_bind, ptr_low by (done || lia). put.
  rewrite lift_bind, ptr_low by (done || lia). put.
  do 3 (rewrite bind_run, PutE820_run by (done || lia); cbv beta iota).
  destruct (0x100000 <? mem_bytes); cbn [when];
    [rewrite bind_run, PutE820_run by (done || lia); cbv beta iota|rewrite ret_bind]; do 4 put;
    rewrite lift_bind, ptr_low by (done || lia); rewrite modify_bind; put; by rewrite put_low by (done || lia).
Qed.

Lemma mp_entries_same cpus : mp_entries cpus = BootParams.mp_entries cpus 0.
Proof.
  assert (E : map (mp_irq (u8 (cpus + 1))) (seqZ 0 (max_legacy_gsi + 1)) =
              map (BootParams.mp_irq (u8 (cpus + 1)) 0) (seqZ 0 (max_legacy_gsi + 1))).
  { apply map_ext_in. intros i Hi. apply list_elem_of_In, elem_of_seqZ in Hi. unfold max_legacy_gsi in Hi.
    unfold mp_irq, BootParams.mp_irq. cbv zeta. destruct (Z.eqb_spec i 0) as [->|]; [done|]. by rewrite u32_small by lia. }
  unfold mp_entries. cbv zeta. rewrite E. done.
Qed.

Lemma mp_buffer_same cpus : mp_buffer cpus = BootParams.mp_buffer cpus 0.
Proof. unfold mp_buffer, BootParams.mp_buffer. cbv zeta. by rewrite mp_entries_same. Qed.

Lemma WriteMpTable_run size cpus m : low_ram size -> 1 <= cpus <= 64 ->
  WriteMpTable size cpus m = (Ok tt, store m (BootParams.mp_start cpus) (BootParams.mp_buffer cpus 0)).
Proof.
  intros Hs Hc. unfold WriteMpTable. cbv zeta. rewrite mp_buffer_same, BootParams.length_mp_buffer by done.
  change (mp_start cpus) with (BootParams.mp_start cpus). destruct (BootParams.mp_low cpus Hc).
  assert (0 <= BootParams.mp_size cpus) by (unfold BootParams.mp_size, BootParams.max_legacy_gsi; lia). by apply put_low; lia || done.
Qed.

Lemma BuildPageTables_run size m : low_ram size ->
  BuildPageTables size kPageTableBase m = (Ok tt, PageTables.BuildPageTables m kPageTableBase).
Proof.
  intros Hs. unfold BuildPageTables, PageTables.BuildPageTables, kPageTableBase, page_size, PageTables.page_size. cbv zeta.
  put. apply for_each_run. intros i m1 Hi%elem_of_seqZ.
  rewrite !(u64_small (0x9000 + _)) by lia. rewrite !u64_small by lia. put.
  apply for_each_run. intros j m2 Hj%elem_of_seqZ. by rewrite put_low by (done || lia).
Qed.

(** What the bootstrap processor's setup writes, the same bytes as on the other backend. *)
Lemma tables_run size m : low_ram size ->
  exists m1 m2, BuildPageTables size kPageTableBase m = (Ok tt, m1) /\
    for_each (fun i => put_guest size (kGdtAddr + i * 8) 8 (WriteU64 (nth (Z.to_nat i) gdt_entries 0))) (seqZ 0 4) m1 = (Ok tt, m2) /\
    put_guest size kIdtAddr 8 (WriteU64 0) m2 = (Ok tt, Vcpu.long_mode_tables m).
Proof.
  intros Hs. eexists. eexists. split; [by apply BuildPageTables_run|]. split.
  - apply for_each_run. intros i m1 Hi%elem_of_seqZ. unfold kGdtAddr. rewrite put_low by (done || lia). reflexivity.
  - unfold kIdtAddr. by rewrite put_low by (done || lia).
Qed.

(** ** The loader *)

Section Loader_same.
Context (file : list Z) (size : Z).
Hypothesis Hfile : bytes_ok file.
Hypothesis Hsize : 0 <= size < 2 ^ 64.

Lemma load_segment_same ph kend m : Elf.phdr_ok ph -> load_segment file size ph kend m = Elf.load_segment file size ph kend m.
Proof.
  intros Hp. unfold load_segment, Elf.load_segment. destruct (negb _); [done|].
  rewrite !lift_bind. destruct (Check _ _) as [u|e|] eqn:E1; [|done..]. apply Check_ok, Z.leb_le in E1.
  destruct (CheckRange (Z.of_nat (length file)) _ _ _) as [u1|e|]; [|done..].
  destruct (CheckRange size _ _ _) as [u2|e|] eqn:E2; [|done..].
  destruct Hp as (Hp1 & Hp2 & Hp3 & Hp4). apply CheckRange_ok in E2; [|lia..].
  rewrite bind_run, put_guest_run by lia. destruct (Z.leb_spec (Elf.paddr ph + Elf.filesz ph) size); [|lia].
  cbv beta iota. rewrite modify_bind, !(bind_run (when _ _)).
  match goal with |- (let (_, _) := ?x in _) = (let (_, _) := ?y in _) => assert (x = y) as -> end; [|done].
  destruct (Z.ltb_spec (Elf.filesz ph) (Elf.memsz ph)); cbn [when]; [|done].
  rewrite !lift_bind. destruct (CheckedAdd _ _ _) as [zs|e|] eqn:Ez; [|done..].
  apply CheckedAdd_ok in Ez as [-> _]; [|lia..]. rewrite lift_bind, ptr_eq by lia.
  destruct (Z.leb_spec (Elf.paddr ph + Elf.filesz ph + (Elf.memsz ph - Elf.filesz ph)) size); [done|lia].
Qed.

Lemma load_segments_same eh idxs : forall kend m,
  load_segments file size eh idxs kend m = Elf.load_segments file size eh idxs kend m.
Proof.
  induction idxs as [|i idxs IH]; intros kend m; [done|]. cbn [load_segments Elf.load_segments].
  rewrite !lift_bind. destruct (Elf.phdr_at file eh i) as [ph|e|] eqn:E; [|done..].
  apply Elf.phdr_at_ok in E; [|done]. rewrite !bind_run, load_segment_same by done.
  destruct (Elf.load_segment file size ph kend m) as [[k|e|] m1]; [apply IH|done..].
Qed.

(** A kernel is loaded, and as the other backend's loader kvm_loads it, or the message differs. *)
Lemma LoadElfImage_same m info m' :
  LoadElfImage file size m = (Ok info, m') -> Elf.LoadElfImage file size m = (Ok info, m').
Proof.
  unfold LoadElfImage, Elf.LoadElfImage. rewrite !lift_bind. destruct (Check _ _); [|done..]. cbv zeta.
  assert (Hck : forall u, check_ehdr file (Elf.read_ehdr file) = Ok u ->
    Elf.check_ehdr file (Elf.read_ehdr file) = Ok u).
  { intros u'. unfold check_ehdr, Elf.check_ehdr. set (b := bool_decide _). by destruct b. }
  destruct (check_ehdr _ _) as [u'|e|]; [|done..]. rewrite (Hck u' eq_refl).
  by rewrite !bind_run, load_segments_same.
Qed.
End Loader_same.

Section Files.
Context {F H : Type} `{PosixLaws F H}.

(** [ReadFile] returns what is in the file, and reads nothing else into the bargain. *)
Lemma ReadFile_spec fuel path f data f' :
  (length (file_at path f) + signals f <= fuel)%nat -> ReadFile fuel path f = (Ok data, f') ->
  data = file_at path f /\ same_files f f' /\ (signals f' <= signals f)%nat.
Proof.
  intros Hfuel. unfold ReadFile, checked. rewrite bind_ok. intros (fd & f1 & E1 & E).
  destruct (sys_open path O_RDONLY f) as [r g] eqn:Eo. injection E1 as E1 ->.
  destruct r as [h| |]; [|done..]. injection E1 as ->. apply open_read in Eo as (Hp & Ho & Hq & Hs).
  rewrite bind_ok in E. destruct E as (n & f2 & E2 & E). destruct (sys_fstat fd f1) as [r g] eqn:Es. injection E2 as E2 ->.
  apply posix_fstat in Es as (Ho2 & Hq2 & Hs2 & Hn). destruct r as [k| |]; [|done..]. injection E2 as ->.
  specialize (Hn n eq_refl). rewrite lift_bind in E. destruct (Check _ _) as [u|e|] eqn:Ec; [|done..].
  unfold read_file in E. destruct (transfer_in _ _ _ _ _ _ _) as [[o bs] f3] eqn:Et. injection E as E <-.
  rewrite Hp, Hq in Hn.
  eapply (transfer_in_spec (file_at path f) 0 _ (fun done g => offset fd g = done /\ same_files f g)) in Et
    as (Hsame & Hs3 & HI & Hnf & (k & Hk & Hbs & Hlen) & Hok).
  - destruct o as [[]|e|]; [|done..]. injection E as ->. specialize (Hok eq_refl). cbn in Hbs, Hlen. rewrite drop_0 in Hbs.
    split; [|split; [apply HI|lia]]. rewrite Hbs. apply take_ge. lia.
  - done.
  - intros d want g r g' Hd Hw [Hog Hsg] Er. destruct r as [bs'| |e].
    + apply posix_read in Er as (Hl & Hb & Hof & Hqq & Hss); [|lia]. cbn. split; [lia|]. split; [done|].
      rewrite Hp, Hog, Hsg in Hb. split_and!; [lia|done|lia|]. intros q. by rewrite Hqq.
    + apply posix_read_error in Er as (Hof & Hqq & Hss); [|done]. cbn in *. split_and!; [lia|done|lia|].
      intros q. by rewrite Hqq.
    + apply posix_read_error in Er as (Hof & Hqq & Hss); [|done]. cbn in *. split_and!; [lia|done|lia|].
      intros q. by rewrite Hqq.
  - cbn. lia.
  - cbn. split; [lia|]. intros q. by rewrite Hq2, Hq.
  - cbn. lia.
Qed.
End Files.

(** ** KVM's documented behaviour *)

Record vcpu_state := mkVcpu {
  v_cpuid : list kvm_cpuid_entry2; v_msrs : Z -> Z; v_fpu : kvm_fpu; v_lapic : list Z;
  v_sregs : kvm_sregs; v_regs : kvm_regs; v_mp_state : Z }.
#[export] Instance eta_vcpu_state : Eta vcpu_state := fun x =>
  mkVcpu (v_cpuid x) (v_msrs x) (v_fpu x) (v_lapic x) (v_sregs x) (v_regs x) (v_mp_state x).

Definition set_msrs (l : list (Z * Z)) (r : Z -> Z) : Z -> Z :=
  fold_left (fun r '(i, v) => fun j => if j =? i then v else r j) l r.

(** A successful call stores its argument in one processor, or returns what is there.
    [SET_MSRS] sets the registers in order up to the first one the processor refuses, and
    returns how many. *)
Class KvmVcpuLaws (W : Type) `{KvmVcpuApi W} := {
  vcpu : Z -> W -> vcpu_state;
  routes : W -> list kvm_irq_routing_entry;
  sets {A} (call : W -> sysresult A * W) (i : Z) (f : A -> vcpu_state -> vcpu_state) : Prop :=
    forall w a w', call w = (Done a, w') ->
      (forall j, vcpu j w' = if decide (j = i) then f a (vcpu i w) else vcpu j w) /\ routes w' = routes w;
  returns {A} (call : W -> sysresult A * W) (P : W -> A -> Prop) : Prop :=
    forall w a w', call w = (Done a, w') -> P w a /\ (forall j, vcpu j w' = vcpu j w) /\ routes w' = routes w;
  get_cpuid : returns GET_SUPPORTED_CPUID (fun _ _ => True);
  set_cpuid i l : sets (SET_CPUID2 i l) i (fun _ v => v <| v_cpuid := l |>);
  set_msrs_prefix i l : sets (SET_MSRS i l) i (fun n v => v <| v_msrs := set_msrs (take (Z.to_nat n) l) (v_msrs v) |>);
  set_fpu i x : sets (SET_FPU i x) i (fun _ v => v <| v_fpu := x |>);
  get_lapic i : returns (GET_LAPIC i) (fun w x => x = v_lapic (vcpu i w));
  set_lapic i x : sets (SET_LAPIC i x) i (fun _ v => v <| v_lapic := x |>);
  get_sregs i : returns (GET_SREGS i) (fun w x => x = v_sregs (vcpu i w));
  set_sregs i x : sets (SET_SREGS i x) i (fun _ v => v <| v_sregs := x |>);
  get_regs i : returns (GET_REGS i) (fun w x => x = v_regs (vcpu i w));
  set_regs i x : sets (SET_REGS i x) i (fun _ v => v <| v_regs := x |>);
  set_mp_state i x : sets (SET_MP_STATE i x) i (fun _ v => v <| v_mp_state := x |>);
  set_routing l w u w' : SET_GSI_ROUTING l w = (Done u, w') -> (forall j, vcpu j w' = vcpu j w) /\ routes w' = l
}.

Section Vcpu_facts.
Context {W : Type} `{KvmVcpuLaws W}.

Lemma ioctl_ok {A} (call : W -> sysresult A * W) what w a w' :
  ioctl call what w = (Ok a, w') -> call w = (Done a, w').
Proof. unfold ioctl. destruct (call w) as [r w1]. intros [= Hr <-]. destruct r; cbn in Hr; by simplify_eq. Qed.

(** Only processor [i] changes, by [f]; the routing stays. *)
Definition changes (i : Z) (f : vcpu_state -> vcpu_state) (w w' : W) : Prop :=
  (forall j, vcpu j w' = if decide (j = i) then f (vcpu i w) else vcpu j w) /\ routes w' = routes w.

Lemma changes_trans i f g w1 w2 w3 : changes i f w1 w2 -> changes i g w2 w3 -> changes i (fun v => g (f v)) w1 w3.
Proof.
  intros [A1 A2] [B1 B2]. split; [|congruence]. intros j. rewrite B1. case_decide; [by rewrite A1, decide_True|].
  by rewrite A1, decide_False.
Qed.

Lemma ioctl_sets {A} (call : W -> sysresult A * W) i f what w a w' :
  sets call i f -> ioctl call what w = (Ok a, w') -> changes i (f a) w w'.
Proof. intros Hc E%ioctl_ok. by apply Hc. Qed.

Lemma ioctl_returns {A} (call : W -> sysresult A * W) P i what w a w' :
  returns call P -> ioctl call what w = (Ok a, w') -> P w a /\ changes i id w w'.
Proof.
  intros Hc E%ioctl_ok. apply Hc in E as (Hp & Hv & Hr). split; [done|]. split; [|done].
  intros j. rewrite Hv. by case_decide as Hj; [subst|].
Qed.

(** What the processor tells the guest of itself after [SetupCpuid]. *)
Definition identifies (cpu_id cpu_count : Z) (cpuid : list kvm_cpuid_entry2) : Prop :=
  exists host, length cpuid = length host /\
  forall k h e, host !! k = Some h -> cpuid !! k = Some e ->
    0 <= index h < 256 ->
    (function h = 1 -> leaf_1 cpu_id cpu_count h e) /\
    (function h = 0x0B \/ function h = 0x1F -> leaf_topology cpu_id cpu_count e) /\
    (function h <> 1 -> function h <> 0x0B -> function h <> 0x1F -> e = h) /\
    function e = function h /\ index e = index h /\ flags e = flags h.

Lemma SetupCpuid_spec i cpu_id cpu_count w u w' :
  0 <= cpu_id < cpu_count -> cpu_count <= 64 -> SetupCpuid i cpu_id cpu_count w = (Ok u, w') ->
  exists l, changes i (fun v => v <| v_cpuid := l |>) w w' /\ identifies cpu_id cpu_count l.
Proof.
  intros Hi Hc. unfold SetupCpuid. rewrite bind_ok. intros (host & w1 & E1 & E). cbv zeta in E.
  destruct (ioctl_returns _ _ i _ _ _ _ get_cpuid E1) as [_ C1].
  destruct (CeilLog2_spec cpu_count) as (n & Hn & Hn1 & Hn2 & Hn3); [lia|]. rewrite lift_bind, Hn in E.
  apply (ioctl_sets _ _ _ _ _ _ _ (set_cpuid i _)) in E. eexists. split; [exact (changes_trans _ _ _ _ _ _ C1 E)|].
  exists host. split; [by rewrite length_map|]. intros k h e Hh He Hx. rewrite list_lookup_fmap, Hh in He.
  injection He as <-. by apply cpuid_entry_spec.
Qed.

Lemma SetupMsrs_spec i w u w' : SetupMsrs i w = (Ok u, w') ->
  exists n, changes i (fun v => v <| v_msrs := set_msrs (take n msrs) (v_msrs v) |>) w w'.
Proof.
  unfold SetupMsrs. rewrite bind_ok. intros (n & w1 & E1 & [= _ <-]). exists (Z.to_nat n).
  exact (ioctl_sets _ _ _ _ _ _ _ (set_msrs_prefix i msrs) E1).
Qed.

Lemma SetupLapic_spec i w u w' : SetupLapic i w = (Ok u, w') ->
  changes i (fun v => v <| v_lapic := lapic_writes (v_lapic v) |>) w w'.
Proof.
  unfold SetupLapic. rewrite bind_ok. intros (x & w1 & E1 & E).
  destruct (ioctl_returns _ _ i _ _ _ _ (get_lapic i) E1) as [-> C1].
  apply (ioctl_sets _ _ _ _ _ _ _ (set_lapic i _)) in E. destruct (changes_trans _ _ _ _ _ _ C1 E) as [D1 D2].
  split; [|done]. intros j. by rewrite D1.
Qed.

(** The parts of a processor's state the setup leaves alone. *)
Definition keeps_regs (f : vcpu_state -> vcpu_state) : Prop :=
  forall v, v_sregs (f v) = v_sregs v /\ v_regs (f v) = v_regs v.

Lemma kvm_SetupLongMode_spec size i entry m w u m' w' : low_ram size ->
  SetupLongMode size i entry (m, w) = (Ok u, (m', w')) ->
  m' = Vcpu.long_mode_tables m /\
  changes i (fun v => v <| v_sregs := long_mode_sregs (v_sregs v) |> <| v_regs := long_mode_regs entry (v_regs v) |>) w w'.
Proof.
  intros Hs. destruct (tables_run size m Hs) as (m1 & m2 & E1 & E2 & E3). unfold SetupLongMode.
  rewrite bind_run. unfold on_fst at 1. rewrite E1. cbv beta iota.
  rewrite bind_run. unfold on_fst at 1. rewrite E2. cbv beta iota.
  rewrite bind_run. unfold on_fst at 1. rewrite E3. cbv beta iota. unfold on_snd.
  rewrite bind_ok. intros (x & [n1 w1] & F1 & F). destruct (ioctl (GET_SREGS i) _ w) as [o wa] eqn:G1.
  injection F1 as -> <- <-. destruct (ioctl_returns _ _ i _ _ _ _ (get_sregs i) G1) as [-> C1].
  rewrite bind_ok in F. destruct F as (y & [n2 w2] & F1 & F). destruct (ioctl (SET_SREGS i _) _ wa) as [o wb] eqn:G2.
  injection F1 as -> <- <-. apply (ioctl_sets _ _ _ _ _ _ _ (set_sregs i _)) in G2.
  rewrite bind_ok in F. destruct F as (z & [n3 w3] & F1 & F). destruct (ioctl (GET_REGS i) _ wb) as [o wc] eqn:G3.
  injection F1 as -> <- <-. destruct (ioctl_returns _ _ i _ _ _ _ (get_regs i) G3) as [-> C3].
  destruct (ioctl (SET_REGS i _) _ wc) as [o wd] eqn:G4. injection F as -> <- <-.
  apply (ioctl_sets _ _ _ _ _ _ _ (set_regs i _)) in G4. split; [done|].
  pose proof (changes_trans _ _ _ _ _ _ (changes_trans _ _ _ _ _ _ (changes_trans _ _ _ _ _ _ C1 G2) C3) G4) as [D1 D2].
  split; [|done]. intros j. rewrite D1. case_decide; [|done]. subst.
  assert (Hr : v_regs (vcpu i wb) = v_regs (vcpu i w)) by (destruct G2 as [-> _]; rewrite decide_True by done; cbn;
    destruct C1 as [-> _]; by rewrite decide_True).
  rewrite Hr. done.
Qed.

Lemma on_snd_ok {A} (m0 : M W A) (m : ram) w a m' w' :
  on_snd m0 (m, w) = (Ok a, (m', w')) -> m' = m /\ m0 w = (Ok a, w').
Proof. unfold on_snd. destruct (m0 w) as [o w1]. by intros [= -> <- <-]. Qed.

(** A processor that has its identity and has not run. *)
Definition prepared (i cpu_count : Z) (f : kvm_sregs -> kvm_sregs) (g : kvm_regs -> kvm_regs) (v v' : vcpu_state) : Prop :=
  identifies i cpu_count (v_cpuid v') /\ v_fpu v' = mkFpu 0x37F 0x1F80 /\
  v_lapic v' = lapic_writes (v_lapic v) /\ v_sregs v' = f (v_sregs v) /\ v_regs v' = g (v_regs v).

Lemma SetupBootstrapVcpu_spec size entry n m w u m' w' : low_ram size -> 1 <= n <= 64 ->
  SetupBootstrapVcpu size 0 entry n (m, w) = (Ok u, (m', w')) ->
  m' = Vcpu.long_mode_tables m /\ routes w' = routes w /\
  (forall j, j <> 0 -> vcpu j w' = vcpu j w) /\
  prepared 0 n long_mode_sregs (long_mode_regs entry) (vcpu 0 w) (vcpu 0 w').
Proof.
  intros Hs Hn. unfold SetupBootstrapVcpu.
  rewrite bind_ok. intros (u1 & [m1 w1] & E1 & E). apply on_snd_ok in E1 as [-> E1].
  apply SetupCpuid_spec in E1 as (l & C1 & Hl); [|lia..].
  rewrite bind_ok in E. destruct E as (u2 & [m2 w2] & E2 & E). apply on_snd_ok in E2 as [-> E2].
  apply SetupMsrs_spec in E2 as (k & C2).
  rewrite bind_ok in E. destruct E as (u3 & [m3 w3] & E3 & E). apply on_snd_ok in E3 as [-> E3].
  apply (ioctl_sets _ _ _ _ _ _ _ (set_fpu 0 _)) in E3.
  rewrite bind_ok in E. destruct E as (u4 & [m4 w4] & E4 & E). apply kvm_SetupLongMode_spec in E4 as [-> C4]; [|done].
  apply on_snd_ok in E as [-> E]. apply SetupLapic_spec in E.
  pose proof (changes_trans _ _ _ _ _ _ (changes_trans _ _ _ _ _ _ (changes_trans _ _ _ _ _ _
    (changes_trans _ _ _ _ _ _ C1 C2) E3) C4) E) as [D1 D2].
  split_and!; [done|done| |].
  - intros j Hj. by rewrite D1, decide_False.
  - rewrite D1, decide_True by done. done.
Qed.

Lemma SetupApplicationVcpu_spec i n w u w' : 0 <= i < n -> n <= 64 ->
  SetupApplicationVcpu i i n w = (Ok u, w') ->
  routes w' = routes w /\ (forall j, j <> i -> vcpu j w' = vcpu j w) /\
  identifies i n (v_cpuid (vcpu i w')) /\ rip (v_regs (vcpu i w')) = 0 /\
  v_mp_state (vcpu i w') = KVM_MP_STATE_UNINITIALIZED.
Proof.
  intros Hi Hn. unfold SetupApplicationVcpu.
  rewrite bind_ok. intros (u1 & w1 & E1 & E). apply SetupCpuid_spec in E1 as (l & C1 & Hl); [|lia..].
  rewrite bind_ok in E. destruct E as (u2 & w2 & E2 & E). apply SetupMsrs_spec in E2 as (k & C2).
  rewrite bind_ok in E. destruct E as (u3 & w3 & E3 & E). apply (ioctl_sets _ _ _ _ _ _ _ (set_fpu i _)) in E3.
  rewrite bind_ok in E. destruct E as (u4 & w4 & E4 & E). unfold SetupRealMode in E4.
  rewrite bind_ok in E4. destruct E4 as (x & wa & F1 & E4). destruct (ioctl_returns _ _ i _ _ _ _ (get_sregs i) F1) as [_ G1].
  rewrite bind_ok in E4. destruct E4 as (y & wb & F2 & F3). apply (ioctl_sets _ _ _ _ _ _ _ (set_sregs i _)) in F2.
  apply (ioctl_sets _ _ _ _ _ _ _ (set_regs i _)) in F3.
  rewrite bind_ok in E. destruct E as (u5 & w5 & E5 & E). apply SetupLapic_spec in E5.
  apply (ioctl_sets _ _ _ _ _ _ _ (set_mp_state i _)) in E.
  pose proof (changes_trans _ _ _ _ _ _ (changes_trans _ _ _ _ _ _ (changes_trans _ _ _ _ _ _ C1 C2) E3) G1) as D1.
  pose proof (changes_trans _ _ _ _ _ _ (changes_trans _ _ _ _ _ _ (changes_trans _ _ _ _ _ _
    (changes_trans _ _ _ _ _ _ D1 F2) F3) E5) E) as [D D'].
  split_and!; [done| |rewrite D, decide_True by done; done..].
  intros j Hj. by rewrite D, decide_False.
Qed.

Lemma application_vcpus n l : forall (m : ram) w u m' w', NoDup l -> (forall i, i ∈ l -> 0 <= i < n) -> n <= 64 ->
  for_each (fun i => on_snd (SetupApplicationVcpu i i n)) l ((m : ram), w) = (Ok u, (m', w')) ->
  m' = m /\ routes w' = routes w /\ (forall j, j ∉ l -> vcpu j w' = vcpu j w) /\
  forall i, i ∈ l -> identifies i n (v_cpuid (vcpu i w')) /\ rip (v_regs (vcpu i w')) = 0 /\
    v_mp_state (vcpu i w') = KVM_MP_STATE_UNINITIALIZED.
Proof.
  induction l as [|i l IH]; intros m w u m' w' Hnd Hl Hn; cbn [for_each].
  { intros [= _ <- <-]. split_and!; [done..|]. by intros i Hi%elem_of_nil. }
  rewrite bind_ok. intros (u1 & [m1 w1] & E1 & E). apply on_snd_ok in E1 as [-> E1].
  inversion Hnd as [|? ? Hi Hnd1]; subst.
  apply SetupApplicationVcpu_spec in E1 as (R1 & V1 & I1); [|apply Hl; by left|done].
  apply IH in E as (-> & R2 & V2 & I2); [|done|intros j Hj; apply Hl; by right|done].
  split_and!; [done|congruence| |].
  - intros j [Hj Hjl]%not_elem_of_cons. by rewrite V2, V1.
  - intros j [->|Hj]%elem_of_cons; [by rewrite V2|by apply I2].
Qed.
End Vcpu_facts.

(** ** The bootstrap processor in 64-bit mode *)

(** A segment as the hardware describes it. *)
Definition hw_segment (x : kvm_segment) : PageTables.Segment_t :=
  PageTables.mkSegment (base x) (limit x) (selector x)
    (type x + 2 ^ 4 * s x + 2 ^ 5 * dpl x + 2 ^ 7 * present x + 2 ^ 12 * avl x + 2 ^ 13 * l x + 2 ^ 14 * db x + 2 ^ 15 * g x).

Definition segments (x : kvm_sregs) : list kvm_segment := [cs x; ds x; es x; fs x; gs x; ss x; tr x].

(** The state after reset as far as the setup does not overwrite it: no segment is a
    64-bit one, none is unusable, all have privilege 0, CS and TR are not 32-bit ones and
    TR is a system segment. *)
Definition reset_state (x : kvm_sregs) : Prop :=
  Forall (fun sg => dpl sg = 0 /\ avl sg = 0 /\ unusable sg = 0) (segments x) /\
  Forall (fun sg => l sg = 0) (tl (segments x)) /\ db (cs x) = 0 /\ db (tr x) = 0 /\ s (tr x) = 0.

(** As [Vcpu.long_mode_ready]: protected mode with paging, long mode enabled and active, a
    64-bit code segment, segment registers equal to the descriptors they name, and the low
    4 GiB mapped to themselves. *)
Record long_mode_ready (m : ram) (x : kvm_sregs) : Prop := {
  lm_modes : has (cr0 x) 1 = true /\ has (cr0 x) (2 ^ 31) = true /\ has (cr4 x) (2 ^ 5) = true /\
    has (efer x) (2 ^ 8) = true /\ has (efer x) (2 ^ 10) = true;
  lm_code : l (cs x) = 1 /\ db (cs x) = 0;
  lm_gdt sg : sg ∈ segments x ->
    0 < selector sg /\ selector sg + 7 <= dt_limit (gdt x) /\ unusable sg = 0 /\
    hw_segment sg = Vcpu.table_descriptor m (PageTables.Table (dt_base (gdt x)) (dt_limit (gdt x))) (selector sg);
  lm_identity va : 0 <= va < 2 ^ 32 -> PageTables.walk m (cr3 x) va = Some va }.

Lemma has_lor_const a b v : Z.land b v = v -> v <> 0 -> 0 <= v -> has (Z.lor a b) v = true.
Proof.
  intros Hb Hv Hp. rewrite has_lor. unfold has at 2. rewrite Hb. destruct (Z.eqb_spec v 0); [done|]. cbn. by rewrite orb_true_r.
Qed.

Lemma long_mode_sregs_ready m x : reset_state x -> long_mode_ready (Vcpu.long_mode_tables m) (long_mode_sregs x).
Proof.
  intros (Hr & Hl & Hdb & Hdt & Hst). destruct (Vcpu.long_mode_tables_spec m) as (_ & Ht & Hg).
  unfold segments in Hr, Hl. cbn [tl] in Hl. decompose_Forall_hyps.
  constructor.
  - cbn. split_and!; apply has_lor_const; done.
  - cbn. done.
  - intros sg Hsg. cbn [gdt long_mode_sregs upd_field dt_limit dt_base]. unfold Vcpu.table_descriptor.
    cbn [PageTables.Table PageTables.tBase PageTables.tLimit].
    assert (Hs : exists i, 0 < i < 4 /\ selector sg = 8 * i /\ unusable sg = 0 /\
      hw_segment sg = Vcpu.descriptor (nth (Z.to_nat i) Vcpu.gdt 0) (8 * i)).
    { unfold segments in Hsg. repeat (apply elem_of_cons in Hsg as [->|Hsg];
        [(exists 1 + exists 2 + exists 3); split; [lia|]; split; [reflexivity|];
         split; [cbn; tauto|unfold hw_segment; cbn; repeat match goal with E : _ /\ _ |- _ => destruct E end;
           repeat match goal with E : _ = 0 |- _ => rewrite E; clear E end; vm_compute; reflexivity]|]).
      by apply elem_of_nil in Hsg. }
    destruct Hs as (i & Hi & -> & Hu & ->). rewrite (Z.mul_comm 8 i), Z.div_mul, (Z.mul_comm i 8) by lia.
    change kGdtAddr with Vcpu.kGdtAddr. rewrite Hg by lia. split_and!; done || lia.
  - intros va Hva. apply (PageTables.walk_identity _ kPageTableBase); [exact Ht|by vm_compute|by exists 9|done].
Qed.

(** ** What the kernel finds *)

Record config_ok (c : vm_config) : Prop := {
  co_cpus : 1 <= cpus c <= 64;
  co_cmdline : Z.of_nat (length (cmdline c)) < 2048;
  co_disks : disk_count c = attached_disks c + 1;
  co_devices : device_count (network_enabled c) (disk_count c) <= 19 }.

Lemma kvm_check_config_ok c u : 0 <= attached_disks c -> check_config c = Ok u -> config_ok c.
Proof.
  intros Hd. unfold check_config. intros E.
  apply obind_ok in E as (? & E1%Check_ok & E). apply obind_ok in E as (? & E2 & E).
  do 3 apply obind_ok in E as (? & _ & E). apply obind_ok in E as (? & E3%Check_ok & E).
  do 2 apply obind_ok in E as (? & _ & E). apply Check_ok in E.
  unfold CheckVirtioMmioDeviceCount in E2. apply obind_ok in E2 as (? & _ & E2%Check_ok).
  unfold kVirtioMmioIrqBase, kMaxIoApicPins, kMaxVcpus, kKernelCmdlineMax, device_count, disk_count in *.
  apply Z.ltb_lt in E1. rewrite (u32_small (attached_disks c + 1)) in * by lia.
  set (k := if network_enabled c then 1 else 0) in *. assert (0 <= k <= 1) by (subst k; destruct (network_enabled c); lia).
  rewrite u32_small, u64_small in E2 by (rewrite ?u32_small; lia). constructor; unfold disk_count, device_count;
    rewrite ?u32_small by lia; lia.
Qed.

Lemma check_ram_ok c u : check_ram c = Ok u -> 0 <= mem_mib c -> 1 <= mem_mib c <= 4096 /\ low_ram (ram_bytes c).
Proof. unfold check_ram, low_ram, ram_bytes. intros E%Check_ok Hm. change (Z.shiftl 1 32) with (2 ^ 32) in E. lia. Qed.

(** The memory the monitor writes besides the kernel's segments. *)
Definition tables_area (a : Z) : Prop := Vcpu.low_tables a \/ in_range Vcpu.kPageTableBase 0x6000 a.
Definition boot_area (c : vm_config) (a : Z) : Prop :=
  tables_area a \/ BootParams.boot_params_area (cmdline c) a \/
  in_range (BootParams.mp_start (cpus c)) (BootParams.mp_size (cpus c)) a \/ in_range 0xA0000 0x40024 a.

(** The zero page, the tables behind the RSDP it points to, and the MP table, all the
    interrupts wired straight through. *)
Record guest_ready (c : vm_config) (m : ram) : Prop := {
  gr_zero_page : BootParams.zero_page (ram_bytes c) (cmdline c) m;
  gr_firmware : exists fw, ReadU64 (load m (BootParams.kBootParamsAddr + 0x70) 8) = 0xE0000 /\
    acpi_walk m = Some fw /\ describes_machine (cpus c) (device_count (network_enabled c) (disk_count c)) fw;
  gr_mp : BootParams.mp_table_at m (BootParams.mp_start (cpus c)) (cpus c) 0 }.

Section Ready.
Context {F H W : Type} `{PosixLaws F H} `{KvmVcpuLaws W}.

Lemma kvm_load_guest_steps fuel c f m0 w0 kernel f' m w :
  config_ok c -> low_ram (ram_bytes c) -> (length (file_at (kernelPath c) f) + signals f <= fuel)%nat ->
  load_guest fuel c ((f, m0), w0) = (Ok kernel, ((f', m), w)) ->
  exists mE mA rsdp,
    Elf.LoadElfImage (file_at (kernelPath c) f) (ram_bytes c) m0 = (Ok kernel, mE) /\
    CreateAcpiTables (ram_bytes c) (network_enabled c) (cpus c) (disk_count c) mE = (Ok rsdp, mA) /\
    m = store (store (BootParams.boot_writes (ram_bytes c) (cmdline c) mA) 0x7070 (WriteU64 rsdp))
          (BootParams.mp_start (cpus c)) (BootParams.mp_buffer (cpus c) 0) /\
    (forall j, vcpu j w = vcpu j w0) /\ routes w = routing_table.
Proof.
  intros Hc Hs Hfuel. unfold load_guest. cbv zeta. rewrite bind_ok. intros (k & [[f1 mE] w1] & E1 & E).
  unfold on_fst at 1 in E1. destruct (LoadElfKernel fuel _ _ (f, m0)) as [o [f2 m2]] eqn:El. injection E1 as -> <- <- <-.
  unfold LoadElfKernel in El. rewrite bind_ok in El. destruct El as (data & [f3 m3] & Er & El). unfold on_fst, on_snd in Er, El.
  destruct (ReadFile fuel (kernelPath c) f) as [o f4] eqn:Ef. injection Er as -> <- <-.
  apply ReadFile_spec in Ef as (-> & _ & _); [|done].
  destruct (LoadElfImage _ _ m0) as [o m5] eqn:Ei. injection El as -> -> ->.
  apply LoadElfImage_same in Ei; [|apply file_bytes|destruct Hs; lia]. exists m2.
  rewrite bind_ok in E. destruct E as (rsdp & [[g1 mA] w2] & E2 & E). unfold on_fst, on_snd in E2.
  destruct (CreateAcpiTables _ _ _ _ m2) as [o m6] eqn:Ea. injection E2 as -> <- <- <-. exists m6, rsdp.
  rewrite bind_run in E. unfold on_fst at 1, on_snd at 1 in E. rewrite WriteBootParams_run in E by (done || apply Hc). cbv beta iota in E.
  rewrite bind_run in E. unfold on_fst at 1, on_snd at 1 in E. unfold kBootParamsAddr in E.
  rewrite put_low in E by (done || lia). cbv beta iota in E.
  rewrite bind_run in E. unfold on_fst at 1, on_snd at 1 in E. rewrite WriteMpTable_run in E by (done || apply Hc). cbv beta iota in E.
  rewrite bind_ok in E. destruct E as (u & [fm w3] & E3 & E). unfold on_snd in E3.
  destruct (SetIrqRouting _) as [o w4] eqn:Eg. injection E3 as -> <- <-. injection E as -> <- <- <-.
  apply ioctl_ok, set_routing in Eg as [Hv Hr]. done.
Qed.

(** The structures stay intact when the page tables are written on top. *)
Lemma kvm_load_guest_ready fuel c f m0 w0 kernel f' m w m2 :
  config_ok c -> 0x100000 < ram_bytes c < 2 ^ 64 -> (length (file_at (kernelPath c) f) + signals f <= fuel)%nat ->
  load_guest fuel c ((f, m0), w0) = (Ok kernel, ((f', m), w)) -> only_writes tables_area m m2 ->
  guest_ready c m2 /\
  exists mE, Elf.LoadElfImage (file_at (kernelPath c) f) (ram_bytes c) m0 = (Ok kernel, mE) /\ only_writes (boot_area c) mE m2.
Proof.
  intros Hc Hm Hfuel (mE & mA & rsdp & El & Ea & -> & _ & _)%kvm_load_guest_steps Hw; [|done|unfold low_ram; lia|done].
  pose proof (BootParams.mp_low (cpus c) (co_cpus c Hc)) as Hmp.
  pose proof (BootParams.length_mp_buffer (cpus c) 0 (co_cpus c Hc)) as Hlb.
  pose proof (co_cmdline c Hc) as Hcmd.
  assert (Hd : 0 <= disk_count c < 2 ^ 32) by apply u32_range.
  pose proof (kvm_CreateAcpiTables_found (ram_bytes c) (network_enabled c) (cpus c) (disk_count c) mE ltac:(lia) (co_cpus c Hc) Hd) as Ha.
  cbv zeta in Ha. rewrite Ea in Ha. destruct Ha as (-> & _ & HwA & fw & Hfw & Hwalk).
  set (mB := BootParams.boot_writes _ _ mA) in *. set (mC := store mB _ _) in *.
  set (st := BootParams.mp_start (cpus c)) in *. set (buf := BootParams.mp_buffer _ _) in *.
  assert (Hm2 : forall a, ~ tables_area a -> ~ in_range st (BootParams.mp_size (cpus c)) a -> m2 a = mC a)
    by (intros a Ht Ha; rewrite Hw by done; apply store_out; by rewrite Hlb).
  assert (HB : forall a, ~ tables_area a -> ~ in_range st (BootParams.mp_size (cpus c)) a -> ~ in_range 0x7070 8 a -> m2 a = mB a)
    by (intros a Ht Ha Hp; rewrite Hm2 by done; by apply store_out).
  pose proof (BootParams.boot_writes_only (ram_bytes c) (cmdline c) mA) as HwB. fold mB in HwB.
  unfold boot_area, tables_area, Vcpu.low_tables, Vcpu.kPageTableBase, Vcpu.kGdtAddr, BootParams.boot_params_area,
    BootParams.kBootParamsAddr, BootParams.kCmdlineAddr in *.
  split; [constructor|exists mE; split; [done|]].
  - apply (BootParams.zero_page_ext _ _ mB); [apply BootParams.boot_e820_count| |apply BootParams.boot_zero_page; unfold UINT32_MAX; lia].
    unfold BootParams.zero_page_fields, BootParams.kBootParamsAddr, BootParams.kCmdlineAddr.
    intros a Hf. apply HB; unfold in_range in *; lia.
  - exists fw. split_and!; [|apply Hwalk|done].
    + rewrite (load_ext mC m2) by (intros z Hz; apply Hm2; unfold in_range, BootParams.kBootParamsAddr in *; lia).
      unfold mC. change (BootParams.kBootParamsAddr + 0x70) with 0x7070. rewrite load_store_eq by done. by rewrite ReadU64_WriteU64.
    + intros z Hz. rewrite HB by (unfold in_range in *; lia). apply HwB. unfold in_range in *. lia.
  - apply BootParams.mp_buffer_table_at; [apply Hc|done|]. fold buf st.
    rewrite (load_ext (store mC st buf) m2); [apply load_store_same|]. intros z Hz. apply Hw. unfold in_range in *. lia.
  - intros a Ha. rewrite HB by (unfold in_range in *; lia). rewrite HwB by (unfold in_range in *; lia).
    apply HwA. unfold in_range in *. lia.
Qed.

End Ready.

(** ** RAM over the devices *)

(** Where the devices are.  [CreateVmWithMemory] accepts up to 4096 MiB of RAM, in one
    region from address 0.  Up to 3328 MiB no byte of a virtio window is RAM; with more,
    every byte of every window, of any machine, lies in the region and in a part of the
    e820 map the guest may use as memory: KVM serves an access to the region from the
    region, so the devices the ACPI tables describe there cannot be reached. *)
Theorem kvm_ram_over_devices c m i a :
  1 < mem_mib c <= 4096 -> BootParams.zero_page (ram_bytes c) (cmdline c) m ->
  0 <= i < 19 -> in_range (VirtioMmioBase i) kVirtioStride a ->
  (mem_mib c <= 3328 -> ram_bytes c <= a) /\
  (3328 < mem_mib c -> a < ram_bytes c /\
     exists e, e ∈ BootParams.e820_map m /\ BootParams.e_kind e = 1 /\ in_range (BootParams.e_addr e) (BootParams.e_size e) a).
Proof.
  intros Hm Hz Hi Ha. unfold VirtioMmioBase, kVirtioMmioBase, kVirtioStride in Ha. rewrite u64_small in Ha by lia.
  pose proof (BootParams.zp_usable _ _ _ Hz a) as Hu. unfold in_range in Ha. unfold ram_bytes in *. split; [lia|].
  intros Hb. split; [lia|]. apply Hu. lia.
Qed.

Module Demo.
#[local] Existing Instance MemPosix.mem_posix.
#[local] Existing Instance MemPosix.mem_posix_laws.

(** KVM with the state of the processors and the routing; [refused] registers cannot be set. *)
Record host := mkHost { vs : Z -> vcpu_state; rt : list kvm_irq_routing_entry; refused : Z -> bool }.
#[export] Instance eta_host : Eta host := fun h => mkHost (vs h) (rt h) (refused h).

Definition set_vcpu (i : Z) (f : vcpu_state -> vcpu_state) (h : host) : host :=
  h <| vs := fun j => if decide (j = i) then f (vs h i) else vs h j |>.

Fixpoint accepted (bad : Z -> bool) (l : list (Z * Z)) : nat :=
  match l with [] => 0 | (i, _) :: l => if bad i then 0 else S (accepted bad l) end.

(** Leaves 1 and 0xB of a host with one processor. *)
Definition host_cpuid : list kvm_cpuid_entry2 :=
  [mkCpuidEntry 1 0 0 0x306C3 0x00010800 0 0; mkCpuidEntry 0xB 0 1 0 0 0 0; mkCpuidEntry 0xB 1 1 0 0 0 0].

#[export] Instance demo_kvm : KvmVcpuApi host := {|
  GET_SUPPORTED_CPUID h := (Done host_cpuid, h);
  SET_CPUID2 i l h := (Done tt, set_vcpu i (fun v => v <| v_cpuid := l |>) h);
  SET_MSRS i l h :=
    let n := accepted (refused h) l in
    (Done (Z.of_nat n), set_vcpu i (fun v => v <| v_msrs := set_msrs (take n l) (v_msrs v) |>) h);
  SET_FPU i x h := (Done tt, set_vcpu i (fun v => v <| v_fpu := x |>) h);
  GET_LAPIC i h := (Done (v_lapic (vs h i)), h);
  SET_LAPIC i x h := (Done tt, set_vcpu i (fun v => v <| v_lapic := x |>) h);
  GET_SREGS i h := (Done (v_sregs (vs h i)), h);
  SET_SREGS i x h := (Done tt, set_vcpu i (fun v => v <| v_sregs := x |>) h);
  GET_REGS i h := (Done (v_regs (vs h i)), h);
  SET_REGS i x h := (Done tt, set_vcpu i (fun v => v <| v_regs := x |>) h);
  SET_MP_STATE i x h := (Done tt, set_vcpu i (fun v => v <| v_mp_state := x |>) h);
  SET_GSI_ROUTING l h := (Done tt, h <| rt := l |>) |}.

#[export] Instance demo_kvm_laws : KvmVcpuLaws host.
Proof.
  apply (Build_KvmVcpuLaws host _ (fun i h => vs h i) rt); cbn;
    intros; match goal with E : (Done _, _) = _ |- _ => injection E as <- <- end; rewrite ?Nat2Z.id; by split_and!.
Defined.

Definition real_segment : kvm_segment := mkSeg 0 0xFFFF 0 3 1 0 0 1 0 0 0 0.
Definition reset : vcpu_state :=
  let sg := real_segment in
  mkVcpu [] (fun _ => 0) (mkFpu 0 0) (repeat 0 1024)
    (mkSregs sg sg sg sg sg sg (sg <| s := 0 |>) sg (mkDtable 0 0xFFFF) (mkDtable 0 0xFFFF) 0x60000010 0 0 0 0 0 0xFEE00900)
    (mkRegs 0xFFF0 2 0 0 0 (repeat 0 13)) 0.
Definition kvm0 : host := mkHost (fun _ => reset) [] (fun _ => false).

Definition config : vm_config := mkConfig "vmlinux" "rootfs" (BootParams.ascii_bytes "console=ttyS0") 128 2 false false false 0.
Definition files0 : MemPosix.files := MemPosix.mkFiles {[ "vmlinux"%string := Elf.demo_elf ]} ∅ 4096 0.

Definition loaded := load_guest (H := string) 1000 config ((files0, fun _ => 0), kvm0).
Definition kernel : Elf.KernelInfo := Elf.mkKernelInfo 0x1000 0x1008.
Lemma kvm_loads : loaded = (Ok kernel, ((loaded.2.1.1, loaded.2.1.2), loaded.2.2)).
Proof. rewrite <- !surjective_pairing. rewrite (surjective_pairing loaded) at 1. f_equal. Qed.

Definition started := start_vcpus config 0x1000 (loaded.2.1.2, loaded.2.2).
Lemma starts : started = (Ok tt, (started.2.1, started.2.2)).
Proof. rewrite <- surjective_pairing. rewrite (surjective_pairing started) at 1. f_equal. Qed.


Definition large : vm_config := mkConfig "vmlinux" "rootfs" (BootParams.ascii_bytes "console=ttyS0") 4096 1 false false false 0.
Lemma kvm_ram_over_devices_witness :
  exists e, e ∈ BootParams.e820_map (BootParams.boot_writes (ram_bytes large) (cmdline large) (fun _ => 0)) /\
    BootParams.e_kind e = 1 /\ in_range (BootParams.e_addr e) (BootParams.e_size e) 0xD0000000.
Proof.
  destruct (kvm_ram_over_devices large (BootParams.boot_writes (ram_bytes large) (cmdline large) (fun _ => 0)) 0 0xD0000000)
    as [_ H].
  - split; [reflexivity|discriminate].
  - apply BootParams.boot_zero_page; [split; reflexivity|discriminate].
  - split; [discriminate|reflexivity].
  - split; [discriminate|reflexivity].
  - destruct H as [_ H]; [reflexivity|exact H].
Defined.

(** A processor that refuses IA32_MISC_ENABLE: KVM_SET_MSRS stops there and returns 4 of 12.
    [SetupMsrs] takes that for success, and the registers after it, the default memory
    type among them, are never set. *)
Example kvm_partial_msrs :
  let h := mkHost (fun _ => reset) [] (fun i => i =? 0x1A0) in
  let '(o, h') := SetupMsrs 0 h in
  o = Ok tt /\ v_msrs (vcpu 0 h') 0x2FF = 0 /\ v_msrs (vcpu 0 (SetupMsrs 0 kvm0).2) 0x2FF = 0x806.
Proof. vm_compute. auto. Qed.
End Demo.
