(* ===== verification/KvmBlk.v ===== *)
(** * native/kvm/backend.cc: class VirtioBlk and HandleMmio

    The disk of the Linux backend.  Requests, the walk of descriptor chains, the rings
    and the copy-on-write overlay are the same code as in the Windows backend, so they
    are Blk's definitions over the loops of Posix.  Its own are the construction and the
    registers, which drive a level-triggered line through KVM_IRQ_LINE.  Exceptions are
    named as Blk names them where process_request swallows them; the one that leaves the
    device is renamed.  [HandleMmio] dispatches an access over the windows.  The theorems:
    every access ends, writes only guest RAM and the writable file, keeps the image under
    an overlay, and the line is asserted exactly while an interrupt is pending; a fresh
    disk reads as its image; an access reaches exactly the device whose window holds it. *)

From S2P Require Import Prelude Words Bytes GuestMemory HostFile Posix DiskIo VirtQueue.
From S2P Require Blk KvmAcpi.
#[local] Existing Instances Blk.eta_VirtioBlk.

(** ** The files *)

(** The byte at [a] of a file; nothing is before its start, zeros after its end. *)
Definition file_byte (c : list Z) : Z -> Z := fun a => if a <? 0 then 0 else byte_at c a.

#[export] Instance posix_disk {F H} `{PosixLaws F H} : DiskIo F H := {|
  PreadAll fd n off f := Posix.PreadAll (Z.to_nat n + signals f) fd n off f;
  PwriteAll fd src off f := Posix.PwriteAll (length src + signals f) fd src off f;
  FlushFile fd := checked (sys_fsync fd) "virtio-blk flush" |}.

Section Files.
Context {F H : Type} `{PosixLaws F H}.

Lemma file_byte_ok p (f : F) : ram_ok (file_byte (file_at p f)).
Proof.
  intros a. unfold file_byte. destruct (a <? 0); [done|]. apply byte_at_range, file_bytes.
Qed.

Lemma load_file_byte c off n : 0 <= off -> (n <= length c - Z.to_nat off)%nat ->
  load (file_byte c) off (Z.of_nat n) = take n (drop (Z.to_nat off) c).
Proof.
  intros Ho Hn. apply list_eq. intros i. rewrite lookup_load.
  destruct (decide (i < n)%nat) as [Hi|Hi].
  - rewrite lookup_take_lt, lookup_drop by done.
    destruct (decide (Z.of_nat i < Z.of_nat n)); [|lia]. unfold file_byte, byte_at.
    destruct (Z.ltb_spec (off + Z.of_nat i) 0); [lia|].
    destruct (lookup_lt_is_Some_2 c (Z.to_nat off + i)) as [b Hb]; [lia|]. rewrite Hb. f_equal.
    replace (Z.to_nat (off + Z.of_nat i)) with (Z.to_nat off + i)%nat by lia.
    by apply nth_lookup_Some.
  - rewrite lookup_take_ge by lia. case_decide; [lia|done].
Qed.

Lemma nth_zeros i k : nth i (replicate k 0) 0 = 0.
Proof.
  destruct (decide (i < k)%nat) as [Hi|Hi].
  - apply nth_lookup_Some. by apply lookup_replicate.
  - apply nth_overflow. rewrite length_replicate. lia.
Qed.

Lemma file_byte_splice c off bs : 0 <= off ->
  forall a, file_byte (splice c off bs) a = store (file_byte c) off bs a.
Proof.
  intros Ho a. unfold file_byte, store, byte_at. destruct (Z.ltb_spec a 0).
  { destruct (Z.leb_spec off a); [lia|]. done. }
  unfold splice. set (o := Z.to_nat off).
  assert (Hpre : length (take o c ++ replicate (o - length c) 0) = o)
    by (rewrite length_app, length_take, length_replicate; lia).
  rewrite (app_assoc (take o c)). set (pre := take o c ++ _) in *.
  destruct (Z.leb_spec off a) as [Hle|Hlt]; cbn [andb].
  - rewrite app_nth2 by lia. rewrite Hpre.
    destruct (Z.ltb_spec a (off + Z.of_nat (length bs))).
    + rewrite app_nth1 by lia. f_equal. lia.
    + rewrite app_nth2 by lia. rewrite nth_drop'. f_equal. lia.
  - rewrite app_nth1 by lia. unfold pre. destruct (decide (Z.to_nat a < length c)%nat).
    + rewrite app_nth1 by (rewrite length_take; lia). apply nth_take'. lia.
    + rewrite app_nth2 by (rewrite length_take; lia). rewrite nth_zeros.
      by rewrite nth_overflow by lia.
Qed.

(** The writing loop, seen byte by byte: a gap before the range needs no care. *)
Lemma transfer_out_bytes p base call failed short : 0 <= base -> writes_at p base call (fun _ _ => True) ->
  forall fuel src done f o f',
  0 <= done -> bytes_ok src -> (length src + signals f <= fuel)%nat ->
  transfer_out fuel call failed short done src f = (o, f') ->
  (forall q, q <> p -> file_at q f' = file_at q f) /\
  only_writes (in_range (base + done) (Z.of_nat (length src)))
    (file_byte (file_at p f)) (file_byte (file_at p f')) /\
  (o = Ok tt -> forall a, file_byte (file_at p f') a = store (file_byte (file_at p f)) (base + done) src a) /\
  o <> OutOfFuel.
Proof.
  intros Hb Hcall. induction fuel as [|fuel IH]; intros src done f o f' Hd Hby Hfuel;
    cbn [transfer_out]; destruct src as [|b bs]; cbn [length] in Hfuel; try lia.
  1,2: intros [= <- <-]; split_and!; [done|apply only_writes_refl| |done];
    intros _ a; by rewrite store_out by (unfold in_range; cbn; lia).
  set (src := b :: bs) in *. change (S (length bs)) with (length src) in Hfuel.
  assert (Hl1 : (1 <= length src)%nat) by (subst src; cbn; lia). clearbody src.
  destruct (call done src f) as [r f1] eqn:E.
  destruct (Hcall _ _ _ _ _ Hd Hby I E) as (Hs & Hother & Hr).
  assert (Hnone : forall e, Throw e = o -> f1 = f' -> file_at p f1 = file_at p f ->
    (forall q, q <> p -> file_at q f' = file_at q f) /\
    only_writes (in_range (base + done) (Z.of_nat (length src)))
      (file_byte (file_at p f)) (file_byte (file_at p f')) /\
    (o = Ok tt -> forall a, file_byte (file_at p f') a = store (file_byte (file_at p f)) (base + done) src a) /\
    o <> OutOfFuel).
  { intros e <- <- Hf. rewrite Hf. split_and!; [done|apply only_writes_refl|done|done]. }
  destruct r as [n| |e]; cbn [interrupted] in Hs.
  - destruct Hr as (Hn & Hf & _).
    assert (Hw : forall a, file_byte (file_at p f1) a =
      store (file_byte (file_at p f)) (base + done) (take (Z.to_nat n) src) a)
      by (intros a; rewrite Hf; apply file_byte_splice; lia).
    destruct (Z.eqb_spec n 0) as [->|Hne].
    + intros [= Ho Hf']. subst o f'. split_and!; [done| |done|done].
      intros a _. rewrite Hw. by rewrite store_out by (unfold in_range; rewrite length_take; lia).
    + intros Hrec. apply IH in Hrec as (Ho' & Hw' & Hok & Hnf);
        [|lia|by apply Forall_drop|rewrite length_drop; lia].
      assert (Hl : length (take (Z.to_nat n) src) = Z.to_nat n) by (rewrite length_take; lia).
      rewrite length_drop in Hw'.
      split_and!; [intros q Hq; by rewrite Ho', Hother| | |done].
      * intros a Ha. rewrite Hw', Hw by (unfold in_range in *; lia).
        apply store_out. unfold in_range in *. lia.
      * intros Hoo a. rewrite (Hok Hoo). rewrite <- (take_drop (Z.to_nat n) src) at 2.
        rewrite store_app, Hl. replace (base + (done + n)) with (base + done + Z.of_nat (Z.to_nat n)) by lia.
        unfold store at 1 2. by rewrite Hw.
  - destruct Hr as (Hf & _). intros Hrec. apply IH in Hrec as (Ho' & Hw' & Hok & Hnf); [|done|done|lia].
    rewrite Hf in *. split_and!; [intros q Hq; by rewrite Ho', Hother|done..].
  - destruct Hr as (Hf & _). intros [= Ho Hf']. by apply (Hnone _ Ho Hf').
Qed.

#[export] Instance posix_disk_laws : DiskIoLaws F H.
Proof.
  refine {| contents h f := file_byte (file_at (path_of h) f); apart h h' := path_of h <> path_of h' |}.
  - intros h h' Hne Heq. by apply Hne.
  - intros h f. apply file_byte_ok.
  - intros fd n off f o bs f' Hn Hoff E. cbn in E.
    apply fd_PreadAll_spec in E as (Hsame & _ & Hnf & Hl & Hbs & Hok); [|done..].
    split_and!; [intros h'; by rewrite Hsame| |done].
    exists (Z.of_nat (length bs)). split_and!; [lia|lia| |done].
    rewrite load_file_byte; [done|done|].
    pose proof (f_equal length Hbs) as Hl'. rewrite length_take, length_drop in Hl'. lia.
  - intros fd src off f o f' Hby Hoff E. cbn in E. unfold Posix.PwriteAll in E.
    eapply (transfer_out_bytes (path_of fd) off) in E as (Ho & Hw & Hok & Hnf); [|done| |done|done|lia].
    + rewrite Z.add_0_r in *. split_and!; [|done..].
      intros h' Hh'. by rewrite Ho.
    + intros done s g r g' Hd Hs _ E'. destruct r as [k| |e].
      * apply posix_pwrite in E' as (Hn & Hf & Hq & Hsg); [|done|lia]. cbn.
        by split_and!; [lia|done|lia|lia| |].
      * apply posix_pwrite_error in E' as (Hf & Hsg); [|done]. cbn in *. by split_and!; [lia|..].
      * apply posix_pwrite_error in E' as (Hf & Hsg); [|done]. cbn in *. by split_and!; [lia|..].
  - intros fd f o f'. cbn. unfold checked. destruct (sys_fsync fd f) as [r g] eqn:E. intros [= <- <-].
    apply posix_fsync in E as [Hf _]. split; [by destruct r|]. intros h'. by rewrite Hf.
Defined.
End Files.

(** ** State *)

(** [disk] is the part shared with the Windows device ([mmio_base_], [mem_], the files,
    the registers and the queues); [irq_calls] are the calls of IrqLine, the last first. *)
Record VirtioBlk (F H : Type) := mkBlk {
  disk : Blk.VirtioBlk F H; irq_ : Z; irq_calls : list (Z * bool) }.
Arguments mkBlk {F H}. Arguments disk {F H}. Arguments irq_ {F H}. Arguments irq_calls {F H}.
#[export] Instance eta_VirtioBlk F H : Eta (VirtioBlk F H) := fun s => mkBlk (disk s) (irq_ s) (irq_calls s).

Section Device.
Context {F H : Type} `{PosixLaws F H}.
Local Notation blk := (VirtioBlk F H).
Local Notation MB := (M blk).

Definition set_disk (d : Blk.VirtioBlk F H) (s : blk) : blk := s <| disk := d |>.
Definition on_disk {A} (m : M (Blk.VirtioBlk F H) A) : MB A := zoom disk set_disk m.

(** [IrqLine(sys_, irq_, level)] *)
Definition IrqLine (level : bool) (s : blk) : blk := s <| irq_calls := (irq_ s, level) :: irq_calls s |>.

Definition mmio_base (s : blk) : Z := Blk.mmio_base (disk s).

(** ** Registers *)

Definition read_reg (s : blk) (off : Z) : Z := Blk.read_reg (disk s) off.

(** The bytes [read_mmio] leaves in [data[0 .. len)]. *)
Definition read_mmio (s : blk) (a n : Z) : list Z := Blk.read_mmio (disk s) a n.

(** [handle_queue(queues_[i])]: what leaves it is a refused [mem_.ptr]. *)
Definition handle_queue (i : Z) : MB unit := fun s =>
  match on_disk (Blk.handle_queue i) s with
  | (Throw _, s') => (Throw "guest memory access out of bounds", s')
  | r => r
  end.

Definition reset (s : blk) : blk := IrqLine false (set_disk (Blk.reset (disk s)) s).

(** An assignment to registers of the shared part. *)
Definition upd (f : Blk.VirtioBlk F H -> Blk.VirtioBlk F H) : MB unit := modify (fun s => set_disk (f (disk s)) s).

Definition write_reg (off value : Z) : MB unit :=
  gets (fun s => Blk.queue_sel (disk s)) ≫= fun sel =>
  let with_q (f : Queue -> Queue) := upd (Blk.set_queue sel f) in
  if off =? 0x014 then upd (fun d => d <| Blk.dev_features_sel := value |>)
  else if off =? 0x024 then upd (fun d => d <| Blk.drv_features_sel := value |>)
  else if off =? 0x020 then
    upd (fun d => d <| Blk.drv_features :=
      if Blk.drv_features_sel d =? 0 then set_lo32 (Blk.drv_features d) value
      else set_hi32 (Blk.drv_features d) value |>)
  else if off =? 0x030 then when (value <? 8) (upd (fun d => d <| Blk.queue_sel := value |>))
  else if off =? 0x038 then
    when ((1 <=? value) && (value <=? kMaxQueueSize)) (with_q (fun q => q <| qsize := value |>))
  else if off =? 0x044 then with_q (fun q => q <| ready := negb (value =? 0) |>)
  else if off =? 0x050 then
    gets (fun s => Blk.queue (disk s) value) ≫= fun q =>
    when ((value <? 8) && ready q)
      (handle_queue value ≫= fun _ =>
       upd (fun d => d <| Blk.interrupt_status := Z.lor (Blk.interrupt_status d) 1 |>) ≫= fun _ =>
       modify (IrqLine true))
  else if off =? 0x064 then
    upd (fun d => d <| Blk.interrupt_status := Z.land (Blk.interrupt_status d) (bnot 32 value) |>) ≫= fun _ =>
    gets (fun s => Blk.interrupt_status (disk s)) ≫= fun pending =>
    when (pending =? 0) (modify (IrqLine false))
  else if off =? 0x070 then
    (if value =? 0 then modify reset else upd (fun d => d <| Blk.status := value |>))
  else if off =? 0x080 then with_q (fun q => q <| desc_addr := set_lo32 (desc_addr q) value |>)
  else if off =? 0x084 then with_q (fun q => q <| desc_addr := set_hi32 (desc_addr q) value |>)
  else if off =? 0x090 then with_q (fun q => q <| driver_addr := set_lo32 (driver_addr q) value |>)
  else if off =? 0x094 then with_q (fun q => q <| driver_addr := set_hi32 (driver_addr q) value |>)
  else if off =? 0x0A0 then with_q (fun q => q <| device_addr := set_lo32 (device_addr q) value |>)
  else if off =? 0x0A4 then with_q (fun q => q <| device_addr := set_hi32 (device_addr q) value |>)
  else mret tt.

Definition write_mmio (a : Z) (bytes : list Z) : MB unit :=
  gets mmio_base ≫= fun mb =>
  let off := u32 (a - mb) in
  if (0x100 <=? off) || negb (Z.of_nat (length bytes) =? 4) then mret tt
  else write_reg off (ReadU32 bytes).

(** ** Construction *)

Definition VirtioBlk_new (mb irq : Z) (g : GuestMemory) (path overlay_path : string) (ro : bool)
    : M F blk :=
  let use_overlay := negb (String.eqb overlay_path "") in
  lift (Check (negb (ro && use_overlay)) "read-only disk cannot use an overlay") ≫= fun _ =>
  let flags := if use_overlay || ro then O_RDONLY else O_RDWR in
  checked (sys_open path flags) ("open rootfs " ++ path)%string ≫= fun b =>
  checked (sys_fstat b) ("stat rootfs " ++ path)%string ≫= fun sz =>
  lift (Check (0 <=? sz) ("negative rootfs size: " ++ path)%string) ≫= fun _ =>
  let mk ov dirty f :=
    mkBlk (Blk.mkBlk mb g false b ov dirty sz (sz / 512) ro 0 0 0 0 0 0
             (repeat Blk.new_queue 8) 0 f) irq [] in
  if use_overlay then
    lift (Check (negb (String.eqb overlay_path path)) "overlayPath must not equal rootfsPath") ≫= fun _ =>
    checked (sys_open overlay_path O_RDWR_CREAT_TRUNC) ("open overlay " ++ overlay_path)%string ≫= fun ov =>
    checked (sys_ftruncate ov sz) ("truncate overlay " ++ overlay_path)%string ≫= fun _ =>
    gets (mk (Some ov) (repeat 0 (Z.to_nat ((sz / 512 + 7) / 8))))
  else gets (mk None []).

(** ** The parts of a request, as the Windows device has them *)

Definition read_desc (q : Queue) (idx : Z) : MB Desc := fun s =>
  ((Check (idx <? qsize q) "virtio descriptor index out of bounds" ≫= fun _ =>
    ptr (Blk.mem (disk s)) (u64 (desc_addr q + idx * 16)) 16 ≫= fun p =>
    Ok (VirtQueue.read_desc (data (Blk.mem (disk s))) p)), s).
Definition walk_chain (q : Queue) (head : Z) : MB (list Desc) := on_disk (Blk.walk q head).
Definition push_used (q : Queue) (id written : Z) : MB unit := on_disk (Blk.push_used q id written).
Definition process_request (q : Queue) (head : Z) : MB unit := on_disk (Blk.process_request q head).
Definition has_overlay (s : blk) : bool := Blk.has_overlay (disk s).
Definition write_fd (s : blk) : H := Blk.write_handle (disk s).
Definition sector_dirty (s : blk) (sector : Z) : bool := Blk.sector_dirty (disk s) sector.
Definition mark_dirty (sector : Z) : MB unit := on_disk (modify (Blk.mark_dirty sector)).
Definition mark_dirty_range (byte_off n : Z) : MB unit := on_disk (Blk.mark_dirty_range byte_off n).
Definition prepare_partial_overlay_sectors (byte_off n : Z) : MB unit :=
  on_disk (Blk.prepare_partial_overlay_sectors byte_off n).
Definition ReadDisk (sector dst n : Z) : MB unit := on_disk (Blk.ReadDisk sector dst n).
Definition WriteDisk (sector src n : Z) : MB unit := on_disk (Blk.WriteDisk sector src n).

(** What the guest reads at byte [a] of the disk. *)
Definition disk_view (s : blk) (a : Z) : Z := Blk.disk_view (disk s) a.
End Device.

(** ** HandleMmio *)

(** The network device behind its window. *)
Class NetWindow (N : Type) := {
  net_base : N -> Z;
  (** with the guest memory, which the device shares; the bytes left in [data[0 .. len)] *)
  net_read : N -> Z -> Z -> list Z;
  net_write : Z -> list Z -> M (N * GuestMemory) unit;
  (** [poll_rx()] *)
  net_poll : M (N * GuestMemory) unit
}.

(** [mem] and [host] are shared by the devices; each runs on them in turn. *)
Record Devices (F H N : Type) := mkDevices {
  mem : GuestMemory; host : F; blks : list (VirtioBlk F H); net : option N }.
Arguments mkDevices {F H N}. Arguments mem {F H N}. Arguments host {F H N}.
Arguments blks {F H N}. Arguments net {F H N}.
#[export] Instance eta_Devices F H N : Eta (Devices F H N) := fun s => mkDevices (mem s) (host s) (blks s) (net s).

Section Mmio.
Context {F H N : Type} `{PosixLaws F H} `{NetWindow N}.
Local Notation devices := (Devices F H N).
Local Notation MD := (M devices).

Definition lend (s : devices) (b : VirtioBlk F H) : VirtioBlk F H :=
  set_disk (((disk b) <| Blk.mem := mem s |>) <| Blk.host := host s |>) b.
Definition with_blk (i : nat) (m : M (VirtioBlk F H) unit) (b : VirtioBlk F H) : MD unit := fun s =>
  let '(o, b') := m (lend s b) in
  (o, ((s <| mem := Blk.mem (disk b') |>) <| host := Blk.host (disk b') |>) <| blks := <[ i := b' ]> (blks s) |>).
Definition with_net (m : M (N * GuestMemory) unit) (n : N) : MD unit := fun s =>
  let '(o, (n', g)) := m (n, mem s) in (o, (s <| net := Some n' |>) <| mem := g |>).

(** [addr >= base && addr < base + kVirtioStride] *)
Definition in_window (base a : Z) : bool := (base <=? a) && (a <? u64 (base + KvmAcpi.kVirtioStride)).

Fixpoint blk_at (a : Z) (l : list (VirtioBlk F H)) (i : nat) : option (nat * VirtioBlk F H) :=
  match l with
  | [] => None
  | b :: l => if in_window (mmio_base b) a then Some (i, b) else blk_at a l (S i)
  end.

(** [HandleMmio(run, blks, net)]: [bytes] is [run->mmio.data[0 .. len)]; the result says
    whether a device took the access, and what is in [data] afterwards. *)
Definition HandleMmio (is_write : bool) (a : Z) (bytes : list Z) : MD (bool * list Z) := fun s =>
  let n := Z.of_nat (length bytes) in
  match blk_at a (blks s) 0 with
  | Some (i, b) =>
      if is_write then (with_blk i (write_mmio a bytes) b ≫= fun _ => mret (true, bytes)) s
      else (Ok (true, read_mmio b a n), s)
  | None =>
      match net s with
      | Some d =>
          if in_window (net_base d) a then
            if is_write then (with_net (net_write a bytes) d ≫= fun _ => mret (true, bytes)) s
            else (Ok (true, net_read d a n), s)
          else (Ok (false, if is_write then bytes else repeat 0 (length bytes)), s)
      | None => (Ok (false, if is_write then bytes else repeat 0 (length bytes)), s)
      end
  end.
End Mmio.

(** ** The device as the Windows device with a level-triggered line *)

Section Line.
Context {F H : Type} `{PosixLaws F H}.
Local Notation blk := (VirtioBlk F H).

(** The level of the line after the calls made so far. *)
Definition level (s : blk) : bool := match irq_calls s with [] => false | (_, l) :: _ => l end.
Definition pending (s : blk) : bool := negb (Blk.interrupt_status (disk s) =? 0).

Record line_ok (s : blk) : Prop := {
  lo_level : level s = pending s;
  lo_line : Forall (fun c => c.1 = irq_ s) (irq_calls s);
  lo_raise : Blk.has_raise_irq (disk s) = false;
  lo_disk : Blk.blk_ok (disk s) }.

(** The outcome up to the text of an exception. *)
Definition same_outcome {A} (o o' : outcome A) : Prop :=
  match o, o' with
  | Ok a, Ok b => a = b
  | Throw _, Throw _ | OutOfFuel, OutOfFuel => True
  | _, _ => False
  end.

(** One step of this device is the step of the Windows device on the shared part. *)
Definition simulates (m : M blk unit) (m' : M (Blk.VirtioBlk F H) unit) : Prop := forall s o s',
  line_ok s -> m s = (o, s') ->
  (exists o', m' (disk s) = (o', disk s') /\ same_outcome o o') /\
  irq_ s' = irq_ s /\ level s' = pending s' /\ Forall (fun c => c.1 = irq_ s) (irq_calls s').

Lemma simulates_upd f : (forall d, Blk.interrupt_status (f d) = Blk.interrupt_status d) ->
  simulates (upd f) (modify f).
Proof.
  intros Hf s o s' [Hl Hc _ _] [= <- <-]. split_and!; [by eexists|done| |done].
  unfold pending. cbn. rewrite Hf. exact Hl.
Qed.

Lemma simulates_id : simulates (mret tt) (mret tt).
Proof. intros s o s' [Hl Hc _ _] [= <- <-]. split_and!; [by eexists|done..]. Qed.

Lemma simulates_when b m m' : simulates m m' -> simulates (when b m) (when b m').
Proof. intros Hm. destruct b; [done|apply simulates_id]. Qed.

Lemma simulates_if (b : bool) m1 m1' m2 m2' :
  simulates m1 m1' -> simulates m2 m2' -> simulates (if b then m1 else m2) (if b then m1' else m2').
Proof. by destruct b. Qed.

Lemma lor_1_pending x : 0 <= x -> (Z.lor x 1 =? 0) = false.
Proof. intros Hx. apply Z.eqb_neq. intros [_ ?]%Z.lor_eq_0_iff. done. Qed.

Lemma notify_simulates value : 0 <= value ->
  simulates (gets (fun s => Blk.queue (disk s) value) ≫= fun q =>
    when ((value <? 8) && ready q)
      (handle_queue value ≫= fun _ =>
       upd (fun d => d <| Blk.interrupt_status := Z.lor (Blk.interrupt_status d) 1 |>) ≫= fun _ =>
       modify (IrqLine true))) (Blk.notify value).
Proof.
  intros Hv s o s' [Hl Hc Hr Hd]. unfold Blk.notify. rewrite !gets_bind.
  destruct ((value <? 8) && ready (Blk.queue (disk s) value)) eqn:Eq; cbn [when].
  2:{ intros [= <- <-]. split_and!; [by eexists|done..]. }
  rewrite !bind_run. unfold handle_queue, on_disk, zoom.
  assert (Hq : 0 <= value < 8) by lia.
  pose proof (Blk.handle_queue_spec value (disk s) Hq Hd) as Hs.
  pose proof (Blk.frames_handle_queue value (disk s)) as Hk. unfold Blk.registers in Hk.
  destruct (Blk.handle_queue value (disk s)) as [[u|e|] d]; [| |done]; cbn [snd] in Hk;
    injection Hk as _ Hr' _ _ _ _ _ Hi _; rewrite Hr in Hr'.
  - destruct Hs as [[Hok _] _]. unfold upd. rewrite modify_bind. intros [= <- <-]. rewrite modify_bind.
    split_and!; [|done| |by constructor].
    + exists (Ok tt). split; [|done]. unfold modify, Blk.raise_irq. cbn. by rewrite Hr'.
    + unfold pending. cbn. by rewrite lor_1_pending by apply (Blk.ok_interrupt d Hok).
  - intros [= <- <-]. split_and!; [by eexists|done| |done]. unfold pending. cbn. rewrite Hi. exact Hl.
Qed.

Lemma ack_simulates value :
  simulates
    (upd (fun d => d <| Blk.interrupt_status := Z.land (Blk.interrupt_status d) (bnot 32 value) |>) ≫= fun _ =>
     gets (fun s => Blk.interrupt_status (disk s)) ≫= fun pending =>
     when (pending =? 0) (modify (IrqLine false)))
    (modify (fun d => d <| Blk.interrupt_status := Z.land (Blk.interrupt_status d) (bnot 32 value) |>)).
Proof.
  intros s o s' [Hl Hc Hr Hd]. unfold upd. rewrite modify_bind, gets_bind.
  cbn [disk set_disk upd_field Blk.interrupt_status]. set (x := Z.land _ _).
  destruct (Z.eqb_spec x 0) as [Hx|Hx]; cbn [when]; intros [= <- <-].
  - split_and!; [by eexists|done| |by constructor]. unfold pending. cbn. fold x. by rewrite Hx.
  - split_and!; [by eexists|done| |done]. change (level s = negb (x =? 0)).
    rewrite Hl. unfold pending. destruct (Z.eqb_spec (Blk.interrupt_status (disk s)) 0) as [E0|];
      destruct (Z.eqb_spec x 0); try done. unfold x in Hx. by rewrite E0 in Hx.
Qed.

Lemma reset_simulates : simulates (modify reset) (modify Blk.reset).
Proof. intros s o s' [Hl Hc Hr Hd] [= <- <-]. split_and!; [by eexists|done|done|by constructor]. Qed.

(** The case tables agree register by register. *)
Lemma write_reg_simulates off value : 0 <= value -> simulates (write_reg off value) (Blk.write_reg off value).
Proof.
  intros Hv s o s' Hs. unfold write_reg, Blk.write_reg. rewrite !gets_bind. cbv zeta.
  generalize (Blk.queue_sel (disk s)) as sel. intros sel. revert s o s' Hs.
  match goal with |- forall s o s', line_ok s -> ?m s = (o, s') -> (exists o', ?m' (disk s) = _ /\ _) /\ _ =>
    change (simulates m m') end.
  apply simulates_if; [by apply simulates_upd|].
  apply simulates_if; [by apply simulates_upd|].
  apply simulates_if; [by apply simulates_upd|].
  apply simulates_if; [by apply simulates_when, simulates_upd|].
  apply simulates_if; [by apply simulates_when, simulates_upd|].
  apply simulates_if; [by apply simulates_upd|].
  apply simulates_if; [by apply notify_simulates|].
  apply simulates_if; [apply ack_simulates|].
  apply simulates_if; [apply simulates_if; [apply reset_simulates|by apply simulates_upd]|].
  repeat (apply simulates_if; [by apply simulates_upd|]). apply simulates_id.
Qed.

Lemma write_mmio_simulates a bytes : bytes_ok bytes -> simulates (write_mmio a bytes) (Blk.write_mmio a bytes).
Proof.
  intros Hb s o s' Hs. unfold write_mmio, Blk.write_mmio. rewrite !gets_bind. cbv zeta.
  change (mmio_base s) with (Blk.mmio_base (disk s)).
  destruct (_ || _) eqn:E; [by apply simulates_id|]. apply write_reg_simulates; [|done].
  apply ReadU32_range; [done|]. apply orb_false_iff in E as [_ E]. lia.
Qed.

(** An access keeps the invariant and ends. *)
Lemma kvm_write_mmio_ok a bytes s o s' :
  line_ok s -> bytes_ok bytes -> write_mmio a bytes s = (o, s') ->
  o <> OutOfFuel /\ line_ok s' /\ irq_ s' = irq_ s /\ Blk.dev_step (disk s) (disk s').
Proof.
  intros Hs Hb E. pose proof Hs as [_ _ Hr Hd].
  apply write_mmio_simulates in E as ((o' & E & Ho) & Hi & Hl & Hc); [|done..].
  apply Blk.blk_write_safe in E as (Hnf & Hok & Hst); [|done..].
  split_and!; [|split; try done; [by rewrite Hi|by rewrite (Blk.dv_raise _ _ Hst)]|done|done].
  intros ->. destruct o'; done.
Qed.
End Line.

(** ** A fresh disk *)

Section Fresh.
Context {F H : Type} `{PosixLaws F H}.
Local Notation blk := (VirtioBlk F H).

Lemma has_0 k : 0 <= k < 8 -> has 0 (u8 (Z.shiftl 1 k)) = false.
Proof. intros Hk. unfold has. by rewrite Z.land_0_l. Qed.

Lemma byte_at_zeros k i : byte_at (repeat 0 k) i = 0.
Proof. unfold byte_at. destruct (nth_in_or_default (Z.to_nat i) (repeat 0 k) 0) as [Hi|]; [by apply repeat_spec in Hi|done]. Qed.

(** What the constructor establishes; the file at [path] is only opened. *)
Record fresh (mb irq : Z) (g : GuestMemory) (path overlay_path : string) (ro : bool) (f : F) (s : blk) (f' : F)
    : Prop := {
  fr_line : irq_calls s = []; fr_irq : irq_ s = irq;
  fr_mem : Blk.mem (disk s) = g; fr_base : mmio_base s = mb; fr_host : Blk.host (disk s) = f';
  fr_ro : Blk.read_only (disk s) = ro;
  fr_file : path_of (Blk.base (disk s)) = path;
  fr_image : file_at path f' = file_at path f;
  fr_size : Blk.disk_bytes (disk s) = Z.of_nat (length (file_at path f));
  fr_overlay ov : Blk.overlay (disk s) = Some ov -> path_of ov = overlay_path /\ overlay_path <> path /\ ro = false;
  fr_plain : overlay_path = ""%string <-> Blk.overlay (disk s) = None;
  fr_files : overlay_path = ""%string -> forall p, file_at p f' = file_at p f;
  fr_clean x : sector_dirty s x = false;
  fr_ok : 0 <= len g < 2 ^ 64 -> ram_ok (data g) -> Blk.disk_bytes (disk s) < 2 ^ 63 -> line_ok s }.

Lemma VirtioBlk_new_fresh mb irq g path overlay_path ro f s f' :
  VirtioBlk_new mb irq g path overlay_path ro f = (Ok s, f') -> fresh mb irq g path overlay_path ro f s f'.
Proof.
  intros E. unfold VirtioBlk_new in E.
  assert (Hq : Forall (queue_ok kMaxQueueSize) (repeat Blk.new_queue 8))
    by (repeat (constructor; [by split|]); constructor).
  revert E. rewrite lift_bind. destruct (Check (negb (ro && _)) _) as [[]| |] eqn:Hro; [|done..].
  apply Check_ok in Hro. rewrite bind_run.
  destruct (checked (sys_open path _) _ f) as [[b|e|] f1] eqn:E1; [|done..].
  apply checked_ok, open_existing in E1 as (Hp & _ & Hf1 & _); [|by destruct (_ || _)].
  rewrite bind_run. destruct (checked (sys_fstat b) _ f1) as [[sz|e|] f2] eqn:E2; [|done..].
  apply checked_ok, posix_fstat in E2 as (_ & Hf2 & _ & Hsz). specialize (Hsz sz eq_refl).
  rewrite Hp, Hf1 in Hsz. rewrite lift_bind. destruct (Check (0 <=? sz) _) as [[]| |] eqn:Hz; [|done..].
  apply Check_ok in Hz. cbv zeta.
  destruct (overlay_path =? "")%string eqn:Eo; cbn [negb andb] in *.
  - apply String.eqb_eq in Eo as ->. intros [= <- <-].
    split; try done; cbn; [by rewrite Hf2, Hf1|intros _ p; by rewrite Hf2, Hf1|].
    intros Hl Hg Hd. split; try done. split; try done; cbn in *; [lia|constructor].
  - rewrite lift_bind. destruct (Check (negb _) _) as [[]| |] eqn:Hne; [|done..].
    apply Check_ok in Hne. rewrite andb_true_r in Hro. rewrite bind_run.
    destruct (checked (sys_open overlay_path _) _ f2) as [[ov|e|] f3] eqn:E3; [|done..].
    apply checked_ok, open_truncated in E3 as (Hpo & _ & _ & Hf3 & _); [|done].
    rewrite bind_run. destruct (checked (sys_ftruncate ov sz) _ f3) as [[[]|e|] f4] eqn:E4; [|done..].
    apply checked_ok, posix_ftruncate in E4 as (_ & Hf4 & _); [|lia]. rewrite Hpo in Hf4.
    assert (Hpp : overlay_path <> path) by (intros ->; by rewrite String.eqb_refl in Hne).
    assert (Hov : path_of ov <> path) by congruence. apply String.eqb_neq in Eo.
    intros [= <- <-]. assert (0 <= sz / 512) by (apply Z.div_pos; lia).
    assert (0 <= (sz / 512 + 7) / 8) by (apply Z.div_pos; lia).
    split; try done.
    + cbn. rewrite Hf4, Hf3, Hf2, Hf1 by congruence. done.
    + cbn. intros ov' [= <-]. split_and!; [done..|by destruct ro].
    + intros x. unfold sector_dirty, Blk.sector_dirty. destruct (_ || _); [done|]. cbn [Blk.dirty_sectors disk].
      rewrite byte_at_zeros. apply has_0. by apply Z.mod_pos_bound.
    + intros Hl Hg Hd. cbn in Hd. split; try done. split; try done; cbn.
      * lia.
      * intros _. rewrite repeat_length. lia.
      * apply Forall_forall. intros x Hx%repeat_spec. by subst.
      * intros ov' [= <-]. by rewrite Hp.
Qed.
End Fresh.

(** ** The devices together *)

(** [AttachedDiskConfig] *)
Record AttachedDiskConfig := mkDisk { path : string; read_only : bool }.

(** What the network device promises: an access and a poll end, stay in guest RAM and do
    not move the window. *)
Class NetWindowLaws (N : Type) `{NetWindow N} := {
  net_ok : N -> GuestMemory -> Prop;
  net_ok_mem n g g' : net_ok n g -> mem_step g g' -> net_ok n g';
  net_write_ok a bytes n g o n' g' :
    0 <= len g < 2 ^ 64 -> ram_ok (data g) -> net_ok n g -> bytes_ok bytes ->
    net_write a bytes (n, g) = (o, (n', g')) ->
    o <> OutOfFuel /\ mem_step g g' /\ net_ok n' g' /\ net_base n' = net_base n;
  net_poll_ok n g o n' g' :
    0 <= len g < 2 ^ 64 -> ram_ok (data g) -> net_ok n g -> net_poll (n, g) = (o, (n', g')) ->
    o <> OutOfFuel /\ mem_step g g' /\ net_ok n' g' /\ net_base n' = net_base n
}.

Section Machine.
Context {F H N : Type} `{PosixLaws F H} `{NetWindowLaws N}.
Local Notation devices := (Devices F H N).

(** The disks of RunVm: the root file system, then the attached ones. *)
Fixpoint attach_disks (g : GuestMemory) (index : Z) (disks : list AttachedDiskConfig)
    : M F (list (VirtioBlk F H)) :=
  match disks with
  | [] => mret []
  | d :: ds =>
      VirtioBlk_new (KvmAcpi.VirtioMmioBase index) (KvmAcpi.VirtioMmioIrq index) g (path d) "" (read_only d) ≫= fun b =>
      attach_disks g (index + 1) ds ≫= fun bs => mret (b :: bs)
  end.
Definition create_disks (g : GuestMemory) (rootfs_path overlay_path : string) (disks : list AttachedDiskConfig)
    : M F (list (VirtioBlk F H)) :=
  VirtioBlk_new (KvmAcpi.VirtioMmioBase 0) (KvmAcpi.VirtioMmioIrq 0) g rootfs_path overlay_path false ≫= fun b =>
  attach_disks g 1 disks ≫= fun bs => mret (b :: bs).

(** Each device in its window, with its line at the level of its pending interrupts. *)
Record devices_ok (s : devices) : Prop := {
  do_len : 0 <= len (mem s) < 2 ^ 64;
  do_ram : ram_ok (data (mem s));
  do_count : (length (blks s) <= 19)%nat;
  do_disk i b : blks s !! i = Some b ->
    line_ok b /\ mmio_base b = KvmAcpi.VirtioMmioBase (Z.of_nat i) /\ irq_ b = KvmAcpi.VirtioMmioIrq (Z.of_nat i);
  do_net n : net s = Some n ->
    net_ok n (mem s) /\ net_base n = KvmAcpi.VirtioMmioBase (Z.of_nat (length (blks s))) }.

(** The window that holds an address. *)
Definition slot (a : Z) : Z := (a - KvmAcpi.kVirtioMmioBase) / KvmAcpi.kVirtioStride.

Lemma in_window_slot (i : nat) a : (i <= 19)%nat ->
  in_window (KvmAcpi.VirtioMmioBase (Z.of_nat i)) a = (slot a =? Z.of_nat i).
Proof.
  intros Hi. unfold in_window, slot, KvmAcpi.VirtioMmioBase, KvmAcpi.kVirtioMmioBase, KvmAcpi.kVirtioStride.
  rewrite !u64_small by (rewrite ?u64_small; lia). set (d := a - 0xD0000000).
  pose proof (Z.div_mod d 0x1000 ltac:(done)). pose proof (Z.mod_pos_bound d 0x1000 ltac:(done)).
  destruct (Z.eqb_spec (d / 0x1000) (Z.of_nat i)); [apply andb_true_iff; lia|].
  apply andb_false_iff. unfold d in *. lia.
Qed.

Lemma kvm_blk_at_slot a (l : list (VirtioBlk F H)) : forall k,
  (k + length l <= 19)%nat ->
  (forall i b, l !! i = Some b -> mmio_base b = KvmAcpi.VirtioMmioBase (Z.of_nat (k + i))) ->
  blk_at a l k =
    if (Z.of_nat k <=? slot a) && (slot a <? Z.of_nat (k + length l))
    then b ← l !! (Z.to_nat (slot a) - k)%nat; Some (Z.to_nat (slot a), b) else None.
Proof.
  induction l as [|b l IH]; intros k Hk Hl; cbn [blk_at length] in *.
  - rewrite Nat.add_0_r. destruct (Z.leb_spec (Z.of_nat k) (slot a)), (Z.ltb_spec (slot a) (Z.of_nat k)); try done; lia.
  - rewrite (Hl 0%nat b eq_refl), Nat.add_0_r, in_window_slot by lia.
    destruct (Z.eqb_spec (slot a) (Z.of_nat k)) as [->|Hne].
    + rewrite Z.leb_refl, Nat2Z.id, Nat.sub_diag. destruct (Z.ltb_spec (Z.of_nat k) (Z.of_nat (k + S (length l)))); [done|lia].
    + rewrite IH; [|lia|intros i b' Hb'; replace (S k + i)%nat with (k + S i)%nat by lia; by apply Hl].
      replace (k + S (length l))%nat with (S k + length l)%nat by lia.
      destruct (Z.leb_spec (Z.of_nat (S k)) (slot a)), (Z.leb_spec (Z.of_nat k) (slot a)); try lia; cbn [andb]; [|done].
      destruct (_ <? _); [|done]. replace (Z.to_nat (slot a) - k)%nat with (S (Z.to_nat (slot a) - S k)) by lia. done.
Qed.

Lemma blks_window s a : devices_ok s ->
  blk_at a (blks s) 0 =
    if (0 <=? slot a) then b ← blks s !! Z.to_nat (slot a); Some (Z.to_nat (slot a), b) else None.
Proof.
  intros Hs. rewrite kvm_blk_at_slot; [|apply Hs|intros i b Hb; apply (do_disk s Hs i b Hb)].
  change (Z.of_nat 0) with 0. cbn [Nat.add]. rewrite Nat.sub_0_r. destruct (Z.leb_spec 0 (slot a)); cbn [andb]; [|done].
  destruct (Z.ltb_spec (slot a) (Z.of_nat (length (blks s)))); [done|].
  rewrite lookup_ge_None_2 by lia. done.
Qed.

Lemma line_ok_lend s b : devices_ok s -> line_ok b -> line_ok (lend s b).
Proof.
  intros Hs [Hl Hc Hr Hd]. split; try done. destruct Hd. by split; try apply Hs.
Qed.

(** The files a disk may write. *)
Definition writable (s : devices) (p : string) : Prop :=
  exists b, b ∈ blks s /\ p = path_of (write_fd b) /\ Blk.read_only (disk b) = false.

(** What an access leaves as it was: the files of no writable disk, RAM's surroundings,
    and the files and lines of the disks. *)
Definition same_files_lines (b b' : VirtioBlk F H) : Prop :=
  Blk.base (disk b') = Blk.base (disk b) /\ Blk.overlay (disk b') = Blk.overlay (disk b) /\
  Blk.read_only (disk b') = Blk.read_only (disk b) /\ mmio_base b' = mmio_base b /\ irq_ b' = irq_ b.
Record devices_step (s s' : devices) : Prop := {
  ds_mem : mem_step (mem s) (mem s');
  ds_files h : ~ writable s (path_of h) -> forall a,
    file_byte (file_at (path_of h) (host s')) a = file_byte (file_at (path_of h) (host s)) a;
  ds_disks : Forall2 same_files_lines (blks s) (blks s') }.

Lemma same_files_lines_refl (l : list (VirtioBlk F H)) : Forall2 same_files_lines l l.
Proof. induction l; constructor; [by split_and!|done]. Qed.

Lemma devices_step_refl s : devices_ok s -> devices_step s s.
Proof. intros Hs. split; [apply mem_step_refl, Hs|done|apply same_files_lines_refl]. Qed.

Lemma same_write_fd (b b' : VirtioBlk F H) : same_files_lines b b' -> write_fd b' = write_fd b.
Proof. intros (Hb & Ho & _). unfold write_fd, Blk.write_handle. by rewrite Hb, Ho. Qed.

Lemma writable_same s s' p : Forall2 same_files_lines (blks s) (blks s') -> writable s' p -> writable s p.
Proof.
  intros Hf (b' & Hb' & -> & Hr). apply list_elem_of_lookup_1 in Hb' as [i Hi].
  destruct (Forall2_lookup_r _ _ _ _ _ Hf Hi) as (b & Hb & Hs). exists b.
  split_and!; [by eapply list_elem_of_lookup_2|by rewrite (same_write_fd b b')|].
  destruct Hs as (_ & _ & Hro & _). by rewrite <- Hro.
Qed.

Lemma devices_step_trans s1 s2 s3 : devices_step s1 s2 -> devices_step s2 s3 -> devices_step s1 s3.
Proof.
  intros [M1 F1 D1] [M2 F2 D2]. split; [by eapply mem_step_trans| |].
  - intros p Hp a. rewrite F2; [by apply F1|]. intros Hw. apply Hp. by eapply writable_same.
  - clear -D1 D2. revert D1 D2. generalize (blks s1), (blks s2), (blks s3). intros l1 l2 l3 D1. revert l3.
    induction D1 as [|b1 b2 l1 l2 Hb D1 IH]; intros l3 D2; inversion D2 as [|? b3 ? l3' Hb2 D3]; subst; [constructor|].
    constructor; [|by apply IH]. destruct Hb as (? & ? & ? & ? & ?), Hb2 as (? & ? & ? & ? & ?). split_and!; congruence.
Qed.

(** An access to a disk, from its window's slot. *)
Lemma with_blk_ok s (i : nat) b a bytes o s' :
  devices_ok s -> blks s !! i = Some b -> bytes_ok bytes ->
  with_blk i (write_mmio a bytes) b s = (o, s') ->
  o <> OutOfFuel /\ devices_ok s' /\ devices_step s s' /\ net s' = net s /\
  (forall j, j <> i -> blks s' !! j = blks s !! j).
Proof.
  intros Hs Hb Hby. unfold with_blk. destruct (write_mmio a bytes (lend s b)) as [o1 b'] eqn:E.
  intros [= <- <-]. destruct (do_disk s Hs i b Hb) as (Hline & Hbase & Hirq).
  apply kvm_write_mmio_ok in E as (Hnf & Hok & Hi & [Dm Db Do Dr Da _ Df]); [|by apply line_ok_lend|done].
  cbn in *. assert (Hsame : same_files_lines b b') by (split_and!; done).
  assert (Hd : Forall2 same_files_lines (blks s) (<[ i := b' ]> (blks s))).
  { rewrite <- (list_insert_id (blks s) i b Hb) at 1. apply Forall2_insert; [apply same_files_lines_refl|done]. }
  assert (Hlt : (i < length (blks s))%nat) by (by eapply lookup_lt_Some).
  split_and!; [done| | |done|intros j Hj; by apply list_lookup_insert_ne].
  - split; cbn; [rewrite (step_len _ _ Dm); apply Hs|apply Dm|rewrite length_insert; apply Hs| |].
    + intros j bj Hj. destruct (decide (j = i)) as [->|Hne].
      * rewrite list_lookup_insert_eq in Hj by done. injection Hj as <-.
        split_and!; [done|unfold mmio_base in *; by rewrite Da|by rewrite Hi].
      * rewrite list_lookup_insert_ne in Hj by done. by apply (do_disk s Hs).
    + intros n Hn. rewrite length_insert. destruct (do_net s Hs n Hn). split; [by eapply net_ok_mem|done].
  - split; [done| |done]. intros h Hp x. refine (f_equal (fun c => c x) (Df h _)). cbn.
    destruct (Blk.read_only (disk b)) eqn:Er; [by right|left]. intros Heq. apply Hp. exists b.
    split_and!; [by eapply list_elem_of_lookup_2|exact Heq|done].
Qed.
End Machine.

Section Run.
Context {F H N : Type} `{PosixLaws F H} `{NetWindowLaws N}.
Local Notation devices := (Devices F H N).

(** A call of the network device that keeps its promise. *)
Lemma with_net_ok s n m o s' : devices_ok s -> net s = Some n ->
  (forall o n' g, m (n, mem s) = (o, (n', g)) ->
     o <> OutOfFuel /\ mem_step (mem s) g /\ net_ok n' g /\ net_base n' = net_base n) ->
  with_net m n s = (o, s') -> o <> OutOfFuel /\ devices_ok s' /\ devices_step s s'.
Proof.
  intros Hs En Hm. unfold with_net. destruct (m (n, mem s)) as [o1 [n' g]]. intros [= <- <-].
  destruct (Hm o1 n' g eq_refl) as (Hnf & Hg & Hn' & Hb'). destruct (do_net s Hs n En) as [_ Hb].
  split_and!; [done| |split; [done|done|apply same_files_lines_refl]].
  split; cbn; [rewrite (step_len _ _ Hg); apply Hs|apply Hg|apply Hs|apply Hs|].
  intros n1 [= <-]. by rewrite Hb'.
Qed.

Lemma HandleMmio_ok s is_write a bytes o s' :
  devices_ok s -> bytes_ok bytes -> HandleMmio is_write a bytes s = (o, s') ->
  o <> OutOfFuel /\ devices_ok s' /\ devices_step s s'.
Proof.
  intros Hs Hby. unfold HandleMmio. rewrite blks_window by done.
  assert (Hsame : forall r : bool * list Z, (Ok r, s) = (o, s') -> o <> OutOfFuel /\ devices_ok s' /\ devices_step s s')
    by (intros r [= <- <-]; split_and!; [done|done|by apply devices_step_refl]).
  destruct (0 <=? slot a); [destruct (blks s !! Z.to_nat (slot a)) as [b|] eqn:Eb; cbn [mbind option_bind]|].
  { destruct is_write; [|apply Hsame]. rewrite bind_run. destruct (with_blk _ _ b s) as [o1 s1] eqn:E.
    apply with_blk_ok in E as (Hnf & Hok & Hst & _); [|done..]. destruct o1; intros [= <- <-]; done. }
  all: destruct (net s) as [n|] eqn:En; [|apply Hsame]; destruct (in_window (net_base n) a); [|apply Hsame];
    (destruct is_write; [|apply Hsame]); rewrite bind_run; destruct (with_net (net_write a bytes) n s) as [o1 s1] eqn:E;
    destruct (do_net s Hs n En) as [Hn Hb];
    apply with_net_ok in E as (Hnf & Hok & Hst);
      [destruct o1; intros [= <- <-]; done|done|done|
       intros o2 n' g E'; apply net_write_ok in E'; [done|apply Hs|apply Hs|done|done]].
Qed.

(** An access to a window reaches the device there and no other. *)
Lemma HandleMmio_routes s is_write a bytes o s' :
  devices_ok s -> bytes_ok bytes -> HandleMmio is_write a bytes s = (o, s') ->
  (forall i b, blks s !! i = Some b -> slot a = Z.of_nat i ->
     net s' = net s /\ (forall j, j <> i -> blks s' !! j = blks s !! j) /\
     (if is_write then o = Ok (true, bytes) \/ exists e, o = Throw e
      else o = Ok (true, read_mmio b a (Z.of_nat (length bytes))) /\ s' = s)) /\
  (forall n, net s = Some n -> slot a = Z.of_nat (length (blks s)) ->
     blks s' = blks s /\ host s' = host s /\
     (if is_write then True else o = Ok (true, net_read n a (Z.of_nat (length bytes))) /\ s' = s)) /\
  (slot a < 0 \/ Z.of_nat (length (blks s)) < slot a \/ slot a = Z.of_nat (length (blks s)) /\ net s = None ->
     o = Ok (false, if is_write then bytes else repeat 0 (length bytes)) /\ s' = s).
Proof.
  intros Hs Hby. unfold HandleMmio. rewrite blks_window by done. intros E. split_and!.
  - intros i b Hb Hi. rewrite Hi, Nat2Z.id, Hb in E. destruct (Z.leb_spec 0 (Z.of_nat i)); [|lia].
    cbn [mbind option_bind] in E. destruct is_write; [|by injection E as <- <-].
    rewrite bind_run in E. destruct (with_blk i (write_mmio a bytes) b s) as [o1 s1] eqn:E1.
    apply with_blk_ok in E1 as (Hnf & _ & _ & Hnet & Hoth); [|done..].
    destruct o1 as [u|e|]; injection E as <- <-; [by split_and!; auto|split_and!; eauto|done].
  - intros n Hn Hi. rewrite Hi, Nat2Z.id, lookup_ge_None_2 in E by lia.
    destruct (Z.leb_spec 0 (Z.of_nat (length (blks s)))); [|lia]. cbn [mbind option_bind] in E.
    rewrite Hn in E. destruct (do_net s Hs n Hn) as [Hok Hb].
    rewrite Hb, in_window_slot, Hi, Z.eqb_refl in E by (pose proof (do_count s Hs); lia).
    destruct is_write; [|by injection E as <- <-]. rewrite bind_run in E. unfold with_net in E.
    destruct (net_write a bytes (n, mem s)) as [o1 [n' g]]. by destruct o1; injection E as <- <-.
  - intros Hi. assert (Hw : forall n, net s = Some n -> in_window (net_base n) a = false).
    { intros n Hn. destruct (do_net s Hs n Hn) as [_ ->].
      rewrite in_window_slot by (pose proof (do_count s Hs); lia). apply Z.eqb_neq. intros Heq.
      destruct Hi as [?|[?|[_ Hnone]]]; [lia|lia|congruence]. }
    destruct (Z.leb_spec 0 (slot a)); [rewrite lookup_ge_None_2 in E by lia; cbn [mbind option_bind] in E|];
      (destruct (net s) as [n|]; [rewrite (Hw n eq_refl) in E|]; by injection E as <- <-).
Qed.

(** ** From the creation of the disks on *)

Lemma attach_disks_fresh g disks : forall index f bs f',
  attach_disks g index disks f = (Ok bs, f') ->
  length bs = length disks /\ (forall p, file_at p f' = file_at p f) /\
  forall j b, bs !! j = Some b -> exists d f1 f2, disks !! j = Some d /\
    fresh (KvmAcpi.VirtioMmioBase (index + Z.of_nat j)) (KvmAcpi.VirtioMmioIrq (index + Z.of_nat j)) g (path d) ""
      (read_only d) f1 b f2.
Proof.
  induction disks as [|d disks IH]; intros index f bs f'; cbn [attach_disks].
  { intros [= <- <-]. by split_and!. }
  rewrite bind_run. destruct (VirtioBlk_new _ _ g _ _ _ f) as [[b|e|] f1] eqn:E1; [|done..].
  apply VirtioBlk_new_fresh in E1 as Hb. rewrite bind_run.
  destruct (attach_disks g (index + 1) disks f1) as [[bs'|e|] f2] eqn:E2; [|done..].
  apply IH in E2 as (Hl & Hf & Hall). intros [= <- <-]. cbn [length].
  split_and!; [by rewrite Hl|intros p; rewrite Hf; by apply (fr_files _ _ _ _ _ _ _ _ _ Hb)|].
  intros [|j] b' Hj; [injection Hj as <-; exists d, f, f1; rewrite Z.add_0_r; done|].
  apply Hall in Hj as (d' & fa & fb & Hd & Hfr). exists d', fa, fb. split; [done|].
  by replace (index + Z.of_nat (S j)) with (index + 1 + Z.of_nat j) by lia.
Qed.

(** One access of a processor, with its outcome. *)
Inductive mmio_step : devices -> devices -> Prop :=
  | mmio_step_at is_write a bytes s o s' :
      bytes_ok bytes -> HandleMmio is_write a bytes s = (o, s') -> mmio_step s s'.

Lemma mmio_steps_ok s s' : devices_ok s -> rtc mmio_step s s' -> devices_ok s' /\ devices_step s s'.
Proof.
  intros Hs Hrun. induction Hrun as [s|s1 s2 s3 [w a bytes s1' o s2' Hb E] _ IH];
    [split; [done|by apply devices_step_refl]|].
  apply HandleMmio_ok in E as (_ & Hok & Hst); [|done..]. destruct (IH Hok) as [Hok3 Hst3].
  split; [done|by eapply devices_step_trans].
Qed.

(** The devices as RunVm creates them; what it takes for the root image to be written. *)
Lemma kvm_create_disks_ok g rootfs overlay disks f bs f' (nd : option N) :
  0 <= len g < 2 ^ 64 -> ram_ok (data g) -> (length disks <= 18)%nat ->
  create_disks g rootfs overlay disks f = (Ok bs, f') ->
  Forall (fun b => Blk.disk_bytes (disk b) < 2 ^ 63) bs ->
  (forall n, nd = Some n -> net_ok n g /\ net_base n = KvmAcpi.VirtioMmioBase (Z.of_nat (length bs))) ->
  devices_ok (mkDevices g f' bs nd) /\
  (overlay <> ""%string -> exists h, path_of h = rootfs /\
     (writable (mkDevices g f' bs nd) rootfs ->
      exists d, d ∈ disks /\ path d = rootfs /\ read_only d = false)).
Proof.
  intros Hl Hg Hn Hc Hsz Hnet. unfold create_disks in Hc. rewrite bind_run in Hc.
  destruct (VirtioBlk_new _ _ g _ _ _ f) as [[b|e|] f1] eqn:E1; [|done..].
  apply VirtioBlk_new_fresh in E1. rewrite bind_run in Hc.
  destruct (attach_disks g 1 disks f1) as [[bs'|e|] f2] eqn:E2; [|done..]. injection Hc as <- <-.
  apply attach_disks_fresh in E2 as (Hlen & _ & Hall). apply Forall_cons_1 in Hsz as [Hb Hbs].
  split.
  - split; cbn; [done|done|lia| |done]. intros [|i] b' Hi.
    + injection Hi as <-. split_and!; [by apply (fr_ok _ _ _ _ _ _ _ _ _ E1)|apply E1|apply E1].
    + destruct (Hall i b' Hi) as (d & fa & fb & _ & Hfr). pose proof (proj1 (Forall_lookup _ _) Hbs) as Hbs'.
      replace (Z.of_nat (S i)) with (1 + Z.of_nat i) by lia.
      split_and!; [exact (fr_ok _ _ _ _ _ _ _ _ _ Hfr Hl Hg (Hbs' i b' Hi))|apply Hfr|apply Hfr].
  - intros Ho. exists (Blk.base (disk b)). split; [apply E1|]. intros (b' & Hin & Hp & Hro). cbn in Hin.
    apply elem_of_cons in Hin as [->|Hin].
    + exfalso. unfold write_fd, Blk.write_handle in Hp. destruct (Blk.overlay (disk b)) as [ov|] eqn:Eov.
      * destruct (fr_overlay _ _ _ _ _ _ _ _ _ E1 ov Eov) as (Hov & Hne & _). congruence.
      * by apply (fr_plain _ _ _ _ _ _ _ _ _ E1) in Eov.
    + apply list_elem_of_lookup_1 in Hin as [j Hj]. destruct (Hall j b' Hj) as (d & fa & fb & Hd & Hfr).
      exists d. split; [by eapply list_elem_of_lookup_2|].
      unfold write_fd, Blk.write_handle in Hp. rewrite (proj1 (fr_plain _ _ _ _ _ _ _ _ _ Hfr) eq_refl) in Hp.
      split; [by rewrite Hp, (fr_file _ _ _ _ _ _ _ _ _ Hfr)|by rewrite <- (fr_ro _ _ _ _ _ _ _ _ _ Hfr)].
Qed.

Lemma create_disks_files g rootfs overlay disks f bs f' :
  create_disks g rootfs overlay disks f = (Ok bs, f') -> file_at rootfs f' = file_at rootfs f.
Proof.
  unfold create_disks. rewrite bind_run.
  destruct (VirtioBlk_new _ _ g _ _ _ f) as [[b|e|] f1] eqn:E1; [|done..].
  apply VirtioBlk_new_fresh in E1. rewrite bind_run.
  destruct (attach_disks g 1 disks f1) as [[bs'|e|] f2] eqn:E2; [|done..]. intros [= <- <-].
  apply attach_disks_fresh in E2 as (_ & Hf & _). rewrite Hf. apply E1.
Qed.

Lemma other_disk s is_write a bytes o s' j b :
  devices_ok s -> bytes_ok bytes -> HandleMmio is_write a bytes s = (o, s') -> blks s !! j = Some b ->
  slot a <> Z.of_nat j -> blks s' !! j = Some b.
Proof.
  intros Hs Hby E Hb Hj. apply HandleMmio_routes in E as (Hd & Hn & Ho); [|done..].
  destruct (decide (0 <= slot a < Z.of_nat (length (blks s)))) as [Hi|Hi].
  - destruct (lookup_lt_is_Some_2 (blks s) (Z.to_nat (slot a))) as [b0 Hb0]; [lia|].
    destruct (Hd _ _ Hb0) as (_ & Hoth & _); [lia|]. rewrite Hoth by lia. done.
  - destruct (decide (slot a = Z.of_nat (length (blks s)))) as [He|He].
    + destruct (net s) as [n|] eqn:En.
      * by destruct (Hn n eq_refl He) as (-> & _).
      * destruct Ho as [_ ->]; [by auto|done].
    + destruct Ho as [_ ->]; [lia|done].
Qed.

(** Whatever the processors read and write in the windows, and whatever the drivers
    put in guest memory, from the creation of the disks on: every access ends; RAM's
    surroundings in the host are never touched; each disk's interrupt line is at the level
    of its pending interrupts; an access changes no device but the one whose window
    holds it; and with an overlay no byte of the root file system's image ever changes,
    unless the same file is attached once more as a writable disk. *)
Theorem kvm_devices_safe g rootfs overlay disks f bs f' (nd : option N) s :
  0 <= len g < 2 ^ 64 -> ram_ok (data g) -> (length disks <= 18)%nat ->
  create_disks g rootfs overlay disks f = (Ok bs, f') ->
  Forall (fun b => Blk.disk_bytes (disk b) < 2 ^ 63) bs ->
  (forall n, nd = Some n -> net_ok n g /\ net_base n = KvmAcpi.VirtioMmioBase (Z.of_nat (length bs))) ->
  rtc mmio_step (mkDevices g f' bs nd) s ->
  only_writes (in_range 0 (len g)) (data g) (data (mem s)) /\
  Forall (fun b => level b = pending b /\ Forall (fun c => c.1 = irq_ b) (irq_calls b)) (blks s) /\
  (forall is_write a bytes o s', bytes_ok bytes -> HandleMmio is_write a bytes s = (o, s') ->
     o <> OutOfFuel /\ (forall j, slot a <> Z.of_nat j -> blks s' !! j = blks s !! j)) /\
  (overlay <> ""%string -> (forall d, d ∈ disks -> path d = rootfs -> read_only d = true) ->
     forall a, file_byte (file_at rootfs (host s)) a = file_byte (file_at rootfs f) a).
Proof.
  intros Hl Hg Hn Hc Hsz Hnet Hrun.
  destruct (kvm_create_disks_ok g rootfs overlay disks f bs f' nd) as [Hok Himg]; [done..|].
  destruct (mmio_steps_ok _ _ Hok Hrun) as [Hs Hst]. split_and!.
  - apply (ds_mem _ _ Hst).
  - apply Forall_lookup_2. intros i b Hb. destruct (do_disk s Hs i b Hb) as ([Hlv Hc' _ _] & _). done.
  - intros w a bytes o s' Hb E. apply HandleMmio_ok in E as Hnf; [|done..]. split; [apply Hnf|].
    intros j Hj. destruct (blks s !! j) as [b|] eqn:Ej; [by eapply other_disk|].
    apply lookup_ge_None in Ej. apply lookup_ge_None.
    destruct Hnf as (_ & _ & Hst'). by rewrite <- (Forall2_length (ds_disks _ _ Hst')).
  - intros Ho Hd a. destruct (Himg Ho) as (h & Hp & Hw). rewrite <- Hp.
    rewrite (ds_files _ _ Hst h) by (rewrite Hp; intros Hwr; destruct (Hw Hwr) as (d & Hin & Hpd & Hro);
      by rewrite (Hd d Hin Hpd) in Hro).
    cbn [host]. rewrite Hp. by rewrite (create_disks_files g rootfs overlay disks f bs f').
Qed.
End Run.

Section Reads.
Context {F H : Type} `{PosixLaws F H}.
Local Notation blk := (VirtioBlk F H).

(** A fresh disk, with or without overlay, reads as its image: what a successful read
    leaves in guest memory is the part of the file it asked for. *)
Lemma fresh_disk_reads mb irq g path overlay ro f (s : blk) f' sector dst n s' :
  0 <= len g < 2 ^ 64 -> ram_ok (data g) -> Blk.disk_bytes (disk s) < 2 ^ 63 ->
  VirtioBlk_new mb irq g path overlay ro f = (Ok s, f') ->
  0 <= sector < 2 ^ 64 -> 0 <= n -> ReadDisk sector dst n s = (Ok tt, s') ->
  sector * 512 + n <= Z.of_nat (length (file_at path f)) /\
  forall a, data (Blk.mem (disk s')) a =
    store (data g) dst (take (Z.to_nat n) (drop (Z.to_nat (sector * 512)) (file_at path f))) a.
Proof.
  intros Hl Hg Hsz Hnew%VirtioBlk_new_fresh Hsec Hn. unfold ReadDisk, on_disk, zoom.
  destruct (Blk.ReadDisk sector dst n (disk s)) as [o d] eqn:E. intros [= -> <-].
  apply Blk.ReadDisk_ok in E as (Hin & _ & Hd); [|by apply (fr_ok _ _ _ _ _ _ _ _ _ Hnew)|done..].
  rewrite (fr_size _ _ _ _ _ _ _ _ _ Hnew) in Hin. split; [done|].
  intros a. cbn [disk set_disk upd_field]. rewrite Hd, (fr_mem _ _ _ _ _ _ _ _ _ Hnew). f_equal.
  rewrite <- load_file_byte by lia. rewrite Z2Nat.id by done. apply load_ext. intros x _.
  unfold Blk.disk_view. change (Blk.sector_dirty (disk s) (x / 512)) with (sector_dirty s (x / 512)).
  rewrite (fr_clean _ _ _ _ _ _ _ _ _ Hnew). cbn.
  rewrite (fr_file _ _ _ _ _ _ _ _ _ Hnew), (fr_host _ _ _ _ _ _ _ _ _ Hnew).
  by rewrite (fr_image _ _ _ _ _ _ _ _ _ Hnew).
Qed.
End Reads.

(** ** Two disks on the in-memory files *)
Module Demo.
#[local] Existing Instances MemPosix.mem_posix MemPosix.mem_posix_laws.

(** A network device that ignores its registers. *)
#[local] Instance no_net : NetWindow Z := {|
  net_base n := n; net_read _ _ n := repeat 0 (Z.to_nat n); net_write _ _ s := (Ok tt, s);
  net_poll s := (Ok tt, s) |}.
#[local] Instance no_net_laws : NetWindowLaws Z.
Proof.
  refine {| net_ok _ _ := True |}; [done| |].
  - intros a bytes n g o n' g' Hl Hg _ _ [= <- <- <-]. split_and!; [done|by apply mem_step_refl|done..].
  - intros n g o n' g' Hl Hg _ [= <- <- <-]. split_and!; [done|by apply mem_step_refl|done..].
Defined.

Definition host0 : MemPosix.files :=
  MemPosix.mkFiles {[ "root"%string := repeat 7 1024; "data"%string := repeat 9 512 ]} ∅ 100 3.
Definition disks0 : list AttachedDiskConfig := [mkDisk "data" true].

Definition created := create_disks demo_mem "root" "overlay" disks0 host0.
Definition blks0 : list (VirtioBlk MemPosix.files string) := match created.1 with Ok bs => bs | _ => [] end.
Definition devices0 : Devices MemPosix.files string Z := mkDevices demo_mem created.2 blks0 None.

Lemma disks_open : create_disks demo_mem "root" "overlay" disks0 host0 = (Ok blks0, created.2).
Proof. by vm_compute. Qed.

(** The guest acknowledges, then notifies queue 0 of the first disk before it is ready. *)
Definition devices1 := (HandleMmio true 0xD0000064 [1; 0; 0; 0] devices0).2.

Lemma kvm_devices_safe_witness :
  forall a, file_byte (file_at "root" (host devices1)) a = file_byte (file_at "root" host0) a.
Proof.
  refine (proj2 (proj2 (proj2 (kvm_devices_safe demo_mem "root" "overlay" disks0 host0 blks0 created.2 None devices1
    _ _ _ _ _ _ _))) _ _).
  - done.
  - apply demo_mem_ok.
  - cbn. lia.
  - apply disks_open.
  - apply Forall_forall. intros b Hb.
    assert (Hall : forallb (fun b => Blk.disk_bytes (disk b) <? 2 ^ 63) blks0 = true) by (by vm_compute).
    rewrite forallb_forall in Hall. apply Z.ltb_lt, Hall. done.
  - done.
  - eapply rtc_once, (mmio_step_at true 0xD0000064 [1; 0; 0; 0]); [by apply (bytes_okb_ok [1; 0; 0; 0])|apply surjective_pairing].
  - done.
  - intros d [->|[]%elem_of_nil]%elem_of_cons Hp. done.
Defined.
End Demo.
