(* ===== verification/KvmNet.v ===== *)
(** * native/kvm/backend.cc: class VirtioNet

    The network device of the Linux backend: queue 0 receives, queue 1 transmits, behind
    it a TAP device or libslirp.  The TAP device and libslirp are classes; what libslirp
    sends while it runs is queued in [slirp_rx_frames_] until the guest has buffers.  The
    exceptions of a malformed ring leave the device (they end the run), so they carry the
    source's text.  The theorems: every access and poll ends, stays inside guest RAM and
    keeps the interrupt line at the level of the pending interrupt; what a received
    frame writes, and that a chain too short for it is consumed and never given back; that
    a transmitted chain reaches the network without its header, whatever its split. *)

From S2P Require Import Prelude Words Bytes GuestMemory VirtQueue.
From S2P Require KvmAcpi KvmBlk.

(** ** The network behind the device *)

(** The result of a non-blocking call. *)
Inductive io_result (A : Type) := Got (a : A) | Interrupted | WouldBlock | Error (errno : string).
Arguments Got {A} a. Arguments Interrupted {A}. Arguments WouldBlock {A}. Arguments Error {A} errno.

Class Tap (T : Type) := {
  (** [read(tap, frame, 2048)]: no bytes are end of file *)
  tap_read : T -> io_result (list Z) * T;
  (** [poll] for [POLLIN] without waiting *)
  tap_poll_in : T -> bool;
  (** [writev(tap, iov, n)] *)
  tap_writev : list (list Z) -> T -> io_result Z * T
}.

(** [tap_pending] bounds the frames and signals before a read would block. *)
Class TapLaws (T : Type) `{Tap T} := {
  tap_pending : T -> nat;
  tap_frame t bs t' : tap_read t = (Got bs, t') -> bytes_ok bs /\ Z.of_nat (length bs) <= 2048;
  tap_progress t r t' : tap_read t = (r, t') ->
    match r with Got [] | WouldBlock | Error _ => True | _ => (tap_pending t' < tap_pending t)%nat end
}.

(** The calls of libslirp, each with the packets it hands to [send_packet] meanwhile. *)
Class Slirp (L : Type) := {
  slirp_input : list Z -> L -> list (list Z) * L;
  (** [slirp_pollfds_fill]: the calls of [add_poll], a descriptor and its events each *)
  slirp_pollfds_fill : L -> list (Z * Z) * L;
  (** [poll(fds, n, 0)] of the host: the events of each descriptor *)
  host_poll : list (Z * Z) -> L -> io_result (list Z) * L;
  (** [slirp_pollfds_poll(select_error, get_revents)] *)
  slirp_pollfds_poll : bool -> (Z -> Z) -> L -> list (list Z) * L;
  slirp_input_bytes p l : bytes_ok p -> Forall bytes_ok (slirp_input p l).1;
  slirp_poll_bytes e g l : Forall bytes_ok (slirp_pollfds_poll e g l).1
}.

(** *** Poll events *)

Definition POLLIN : Z := 1.
Definition POLLPRI : Z := 2.
Definition POLLOUT : Z := 4.
Definition POLLERR : Z := 8.
Definition POLLHUP : Z := 16.
Definition SLIRP_POLL_IN : Z := 1.
Definition SLIRP_POLL_OUT : Z := 2.
Definition SLIRP_POLL_PRI : Z := 4.
Definition SLIRP_POLL_ERR : Z := 8.
Definition SLIRP_POLL_HUP : Z := 16.

(** [if (events & from) out |= to;] for each pair. *)
Definition convert_events (table : list (Z * Z)) (events : Z) : Z :=
  fold_left (fun out '(from, to) => if has events from then Z.lor out to else out) table 0.

Definition poll_events_from_slirp : Z -> Z := convert_events
  [(SLIRP_POLL_IN, POLLIN); (SLIRP_POLL_OUT, POLLOUT); (SLIRP_POLL_PRI, POLLPRI);
   (SLIRP_POLL_ERR, POLLERR); (SLIRP_POLL_HUP, POLLHUP)].
Definition slirp_events_from_poll : Z -> Z := convert_events
  [(POLLIN, SLIRP_POLL_IN); (POLLOUT, SLIRP_POLL_OUT); (POLLPRI, SLIRP_POLL_PRI);
   (POLLERR, SLIRP_POLL_ERR); (POLLHUP, SLIRP_POLL_HUP)].

(** [pollfd] *)
Record pollfd := mkPollfd { fd : Z; events : Z; revents : Z }.

Definition slirp_add_poll_cb (f ev : Z) (set : list pollfd) : Z * list pollfd :=
  let set := set ++ [mkPollfd f (poll_events_from_slirp ev) 0] in
  (Z.of_nat (length set) - 1, set).

Definition slirp_get_revents_cb (set : list pollfd) (index : Z) : Z :=
  if (index <? 0) || (Z.of_nat (length set) <=? index) then 0
  else match set !! Z.to_nat index with Some p => slirp_events_from_poll (revents p) | None => 0 end.

(** ** State *)

(** [tap] is the device when [tap_] is open; [irq_calls] are the calls of IrqLine, the last
    first; [rxq] and [txq] are [queues_[0]] and [queues_[1]]. *)
Record VirtioNet (T L : Type) := mkNet {
  mem : GuestMemory; mmio_base : Z; irq_ : Z; tap : option T; mac : list Z;
  status : Z; drv_features : Z; dev_features_sel : Z; drv_features_sel : Z; queue_sel : Z;
  interrupt_status : Z; rxq : Queue; txq : Queue; slirp_rx_frames : list (list Z);
  slirp : option L; irq_calls : list (Z * bool) }.
Arguments mkNet {T L}. Arguments mem {T L}. Arguments mmio_base {T L}. Arguments irq_ {T L}.
Arguments tap {T L}. Arguments mac {T L}. Arguments status {T L}. Arguments drv_features {T L}.
Arguments dev_features_sel {T L}. Arguments drv_features_sel {T L}. Arguments queue_sel {T L}.
Arguments interrupt_status {T L}. Arguments rxq {T L}. Arguments txq {T L}.
Arguments slirp_rx_frames {T L}. Arguments slirp {T L}. Arguments irq_calls {T L}.
#[export] Instance eta_VirtioNet T L : Eta (VirtioNet T L) := fun s =>
  mkNet (mem s) (mmio_base s) (irq_ s) (tap s) (mac s) (status s) (drv_features s) (dev_features_sel s)
    (drv_features_sel s) (queue_sel s) (interrupt_status s) (rxq s) (txq s) (slirp_rx_frames s)
    (slirp s) (irq_calls s).

Definition new_queue : Queue := mkQueue 256 false 0 0 0 0.

Section Net.
Context {T L : Type} `{TapLaws T} `{Slirp L}.
Local Notation net := (VirtioNet T L).
Local Notation MN := (M net).

(** The device with its TAP device or its libslirp instance. *)
Definition VirtioNet_new (g : GuestMemory) (mb irq : Z) (t : option T) (m : list Z) (l : option L) : net :=
  mkNet g mb irq t m 0 0 0 0 0 0 new_queue new_queue [] l [].

Definition slirp_enabled (s : net) : bool := match slirp s with Some _ => true | None => false end.
Definition enabled (s : net) : bool :=
  match tap s with Some _ => true | None => slirp_enabled s end.
(** The vCPU thread's shortcut around [poll_rx] while it handles the console's alarm. *)
Definition tap_readable (s : net) : bool :=
  slirp_enabled s || match tap s with Some t => tap_poll_in t | None => false end.

(** ** Guest memory *)

(** [mem_.ptr(gpa, n)] *)
Definition guest_ptr (gpa n : Z) : MN unit := fun s => (KvmAcpi.ptr (len (mem s)) gpa n, s).
Definition guest_load (gpa n : Z) : MN (list Z) :=
  guest_ptr gpa n ≫= fun _ => gets (fun s => load (data (mem s)) gpa n).
(** The bytes written through a pointer that was checked before. *)
Definition put_bytes (gpa : Z) (bs : list Z) : MN unit := modify (fun s => s <| mem := mem_store (mem s) gpa bs |>).

Definition IrqLine (level : bool) (s : net) : net := s <| irq_calls := (irq_ s, level) :: irq_calls s |>.
Definition signal_queue (s : net) : net :=
  IrqLine true (s <| interrupt_status := Z.lor (interrupt_status s) 1 |>).

Definition queue_at (i : Z) (s : net) : Queue := if i =? 0 then rxq s else txq s.
Definition with_queue (i : Z) (f : Queue -> Queue) (s : net) : net :=
  if i =? 0 then s <| rxq := f (rxq s) |> else s <| txq := f (txq s) |>.

(** ** Rings *)

Definition read_desc (q : Queue) (idx : Z) : MN Desc :=
  lift (Check (idx <? qsize q) "virtio-net descriptor index out of bounds") ≫= fun _ =>
  guest_ptr (u64 (desc_addr q + idx * 16)) 16 ≫= fun _ =>
  gets (fun s => VirtQueue.read_desc (data (mem s)) (u64 (desc_addr q + idx * 16))).

(** Each round takes an index below [q.size] for the first time. *)
Fixpoint walk_loop (fuel : nat) (q : Queue) (seen : gset Z) (chain : list Desc) (idx : Z) : MN (list Desc) :=
  match fuel with
  | O => fail_fuel
  | S fuel =>
      lift (Check (idx <? qsize q) "virtio-net descriptor next out of bounds") ≫= fun _ =>
      lift (Check (negb (bool_decide (idx ∈ seen))) "virtio-net descriptor cycle") ≫= fun _ =>
      let seen := {[ idx ]} ∪ seen in
      read_desc q idx ≫= fun d =>
      lift (Check (negb (has (flags d) 4)) "virtio-net indirect descriptors are not supported") ≫= fun _ =>
      lift (push chain d) ≫= fun chain =>
      if negb (has (flags d) 1) then mret chain else walk_loop fuel q seen chain (next d)
  end.
Definition walk_chain (q : Queue) (head : Z) : MN (list Desc) :=
  walk_loop (S (Z.to_nat kMaxQueueSize)) q ∅ [] head.

Definition push_used (q : Queue) (id written : Z) : MN unit :=
  guest_load (u64 (device_addr q + 2)) 2 ≫= fun b =>
  let used := ReadU16 b in
  let entry := u64 (device_addr q + 4 + used mod qsize q * 8) in
  guest_ptr entry 8 ≫= fun _ => put_bytes entry (WriteU32 id) ≫= fun _ =>
  guest_ptr (u64 (entry + 4)) 4 ≫= fun _ => put_bytes (u64 (entry + 4)) (WriteU32 written) ≫= fun _ =>
  put_bytes (u64 (device_addr q + 2)) (WriteU16 (used + 1)).

(** [ReadU16(mem_.ptr(q.driver_addr + 2, 2))] *)
Definition avail_idx (q : Queue) : MN Z := guest_load (u64 (driver_addr q + 2)) 2 ≫= fun b => mret (ReadU16 b).
(** The head at the cursor of queue [i], which moves on. *)
Definition next_head (i : Z) : MN Z :=
  gets (queue_at i) ≫= fun q =>
  guest_load (u64 (driver_addr q + 4 + last_avail q mod qsize q * 2)) 2 ≫= fun b =>
  modify (with_queue i (fun q => q <| last_avail := u16 (last_avail q + 1) |>)) ≫= fun _ =>
  mret (ReadU16 b).

(** ** Receive *)

Definition has_rx_buffer : MN bool :=
  gets rxq ≫= fun q =>
  if negb (ready q) then mret false
  else avail_idx q ≫= fun idx => mret (negb (last_avail q =? idx)).

(** The loop over the chain; [offset] counts the bytes of header and frame placed so far. *)
Fixpoint fill_chain (ds : list Desc) (frame : list Z) (offset : Z) : MN Z :=
  match ds with
  | [] => mret offset
  | d :: ds =>
      let n := Z.of_nat (length frame) in
      let needed := 12 + n in
      lift (Check (has (flags d) 2) "virtio-net rx descriptor must be writable") ≫= fun _ =>
      guest_ptr (addr d) (dlen d) ≫= fun _ =>
      let n1 := if (offset <? 12) && (0 <? dlen d) then Z.min (dlen d) (12 - offset) else 0 in
      when (0 <? n1) (put_bytes (addr d) (repeat 0 (Z.to_nat n1))) ≫= fun _ =>
      let offset := offset + n1 in
      let frame_off := offset - 12 in
      let n2 := if (12 <=? offset) && (n1 <? dlen d) && (offset <? needed)
                then Z.min (dlen d - n1) (n - frame_off) else 0 in
      when (0 <? n2) (put_bytes (addr d + n1) (take (Z.to_nat n2) (drop (Z.to_nat frame_off) frame))) ≫= fun _ =>
      let offset := offset + n2 in
      if needed <=? offset then mret offset else fill_chain ds frame offset
  end.

Definition inject_rx_frame (frame : list Z) : MN bool :=
  has_rx_buffer ≫= fun ok =>
  if negb ok then mret false
  else
    next_head 0 ≫= fun head =>
    gets rxq ≫= fun q =>
    walk_chain q head ≫= fun chain =>
    let needed := 12 + Z.of_nat (length frame) in
    fill_chain chain frame 0 ≫= fun offset =>
    if offset <? needed then mret false
    else
      push_used q head (u32 needed) ≫= fun _ =>
      modify signal_queue ≫= fun _ => mret true.

(** *** libslirp *)

Definition enqueue_slirp_rx (bs : list Z) (s : net) : net :=
  match bs with [] => s | _ => s <| slirp_rx_frames := slirp_rx_frames s ++ [bs] |> end.

(** Short frames are padded to 60 bytes. *)
Definition slirp_send_packet_cb (bs : list Z) (s : net) : net :=
  match bs with
  | [] => s
  | _ => if Z.of_nat (length bs) <? 60 then enqueue_slirp_rx (bs ++ repeat 0 (60 - length bs)%nat) s
         else enqueue_slirp_rx bs s
  end.

Definition input_slirp_packet (packet : list Z) : MN unit := modify (fun s =>
  match slirp s, packet with
  | Some l, _ :: _ =>
      let '(frames, l) := slirp_input packet l in
      fold_left (fun s bs => slirp_send_packet_cb bs s) frames (s <| slirp := Some l |>)
  | _, _ => s
  end).

(** [poll] with the descriptors that were filled in: [rc < 0] and what it leaves in [revents]. *)
Definition poll_fds (set : list pollfd) (l : L) : bool * list pollfd * L :=
  match set with
  | [] => (false, set, l)
  | _ =>
      match host_poll (map (fun p => (fd p, events p)) set) l with
      | (Got rs, l) => (false, zip_with (fun p r => mkPollfd (fd p) (events p) r) set rs, l)
      | (Interrupted, l) => (false, set, l)
      | (_, l) => (true, set, l)
      end
  end.

Definition poll_slirp : MN unit := modify (fun s =>
  match slirp s with
  | None => s
  | Some l =>
      let '(calls, l) := slirp_pollfds_fill l in
      let set := fold_left (fun set '(f, ev) => (slirp_add_poll_cb f ev set).2) calls [] in
      let '(failed, set, l) := poll_fds set l in
      let '(frames, l) := slirp_pollfds_poll failed (slirp_get_revents_cb set) l in
      fold_left (fun s bs => slirp_send_packet_cb bs s) frames (s <| slirp := Some l |>)
  end).

(** The front frame stays queued until a chain took it. *)
Fixpoint flush_loop (fuel : nat) : MN unit :=
  gets slirp_rx_frames ≫= fun frames =>
  match frames with
  | [] => mret tt
  | frame :: _ =>
      match fuel with
      | O => fail_fuel
      | S fuel =>
          inject_rx_frame frame ≫= fun ok =>
          if negb ok then mret tt
          else modify (fun s => s <| slirp_rx_frames := tail (slirp_rx_frames s) |>) ≫= fun _ => flush_loop fuel
      end
  end.
Definition flush_slirp_rx : MN unit := fun s => flush_loop (length (slirp_rx_frames s)) s.

(** *** The TAP device *)

(** [read(tap_.get(), frame, sizeof(frame))]; without a device [read] fails. *)
Definition read_tap : MN (io_result (list Z)) := fun s =>
  match tap s with
  | None => (Ok (Error "Bad file descriptor"), s)
  | Some t => let '(r, t) := tap_read t in (Ok r, s <| tap := Some t |>)
  end.

Fixpoint drain_loop (fuel : nat) (throw_errors : bool) : MN unit :=
  match fuel with
  | O => fail_fuel
  | S fuel =>
      read_tap ≫= fun r =>
      match r with
      | Got (_ :: _) | Interrupted => drain_loop fuel throw_errors
      | Error e => if throw_errors then lift (Throw ("read tap: " ++ e)%string) else mret tt
      | _ => mret tt
      end
  end.
Definition drain_tap (throw_errors : bool) : MN unit := fun s =>
  match tap s with
  | None => (Ok tt, s)
  | Some t => drain_loop (S (tap_pending t)) throw_errors s
  end.

Fixpoint rx_rounds (n : nat) : MN unit :=
  match n with
  | O => mret tt
  | S n =>
      has_rx_buffer ≫= fun ok =>
      if negb ok then mret tt
      else
        read_tap ≫= fun r =>
        match r with
        | Interrupted => rx_rounds n
        | WouldBlock => mret tt
        | Error e => lift (Throw ("read tap: " ++ e)%string)
        | Got [] => mret tt
        | Got frame => inject_rx_frame frame ≫= fun _ => rx_rounds n
        end
  end.

Definition poll_rx : MN unit :=
  gets slirp_enabled ≫= fun sl : bool =>
  if sl then poll_slirp ≫= fun _ => flush_slirp_rx
  else gets rxq ≫= fun q =>
       if negb (ready q) then drain_tap false else rx_rounds 16.
End Net.

(** ** Transmit *)

Section Transmit.
Context {T L : Type} `{TapLaws T} `{Slirp L}.
Local Notation net := (VirtioNet T L).
Local Notation MN := (M net).

(** The loop over the chain: [skip] is what is left of the header, [pieces] the data so
    far, for the TAP device at most the 256 entries of [iov]. *)
Fixpoint gather (to_tap : bool) (ds : list Desc) (skip : Z) (pieces : list (list Z)) : MN (list (list Z)) :=
  match ds with
  | [] => mret pieces
  | d :: ds =>
      lift (Check (negb (has (flags d) 2)) "virtio-net tx descriptor must be read-only") ≫= fun _ =>
      if dlen d <=? skip then gather to_tap ds (skip - dlen d) pieces
      else if (skip <? dlen d) && (negb to_tap || (Z.of_nat (length pieces) <? 256)) then
        guest_load (u64 (addr d + skip)) (dlen d - skip) ≫= fun bs => gather to_tap ds 0 (pieces ++ [bs])
      else gather to_tap ds 0 pieces
  end.

(** [writev]: a full or interrupted device drops the frame. *)
Definition write_tap (pieces : list (list Z)) : MN unit := fun s =>
  match tap s with
  | None => (Throw "write tap: Bad file descriptor", s)
  | Some t =>
      let '(r, t) := tap_writev pieces t in
      (match r with Error e => Throw ("write tap: " ++ e)%string | _ => Ok tt end, s <| tap := Some t |>)
  end.

Definition process_tx (head : Z) : MN unit :=
  gets txq ≫= fun q =>
  walk_chain q head ≫= fun chain =>
  gets slirp_enabled ≫= fun sl : bool =>
  gather (negb sl) chain 12 [] ≫= fun pieces =>
  (if sl then input_slirp_packet (concat pieces) ≫= fun _ => poll_slirp ≫= fun _ => flush_slirp_rx
   else when (0 <? Z.of_nat (length pieces)) (write_tap pieces)) ≫= fun _ =>
  push_used q head 0 ≫= fun _ =>
  modify signal_queue.

(** [while (q.last_avail != avail_idx)]: the cursor is 16 bits wide, so the loop runs
    [(avail_idx - last_avail) mod 2^16] times. *)
Fixpoint tx_loop (fuel : nat) (idx : Z) : MN unit :=
  gets txq ≫= fun q =>
  if last_avail q =? idx then mret tt
  else
    match fuel with
    | O => fail_fuel
    | S fuel => next_head 1 ≫= fun head => process_tx head ≫= fun _ => tx_loop fuel idx
    end.

Definition handle_tx_queue : MN unit :=
  gets txq ≫= fun q =>
  avail_idx q ≫= fun idx =>
  tx_loop (Z.to_nat (u16 (idx - last_avail q))) idx ≫= fun _ =>
  poll_rx.

(** ** Registers *)

Definition device_features : Z := Z.lor (Z.lor (Z.shiftl 1 32) (Z.shiftl 1 5)) (Z.shiftl 1 16).

Definition read_reg (s : net) (off : Z) : Z :=
  if off =? 0x000 then 0x74726976
  else if off =? 0x004 then 2
  else if off =? 0x008 then 1
  else if off =? 0x00C then 0x554D4551
  else if off =? 0x010 then
    (if dev_features_sel s =? 1 then u32 (Z.shiftr device_features 32) else u32 device_features)
  else if off =? 0x034 then (if queue_sel s <? 2 then kMaxQueueSize else 0)
  else if off =? 0x044 then (if (queue_sel s <? 2) && ready (queue_at (queue_sel s) s) then 1 else 0)
  else if off =? 0x060 then interrupt_status s
  else if off =? 0x070 then status s
  else 0.

(** The bytes [read_mmio] leaves in [data[0 .. len)]. *)
Definition read_mmio (s : net) (a n : Z) : list Z :=
  let zeros := repeat 0 (Z.to_nat n) in
  let off := u32 (a - mmio_base s) in
  if off <? 0x100 then
    if negb (n =? 4) then zeros else WriteU32 (read_reg s off)
  else
    let cfg := mac s ++ WriteU16 1 ++ WriteU16 1 ++ WriteU16 1500 in
    let cfg_off := off - 0x100 in
    if cfg_off <? 12 then put zeros 0 (take (Z.to_nat (Z.min n (12 - cfg_off))) (drop (Z.to_nat cfg_off) cfg))
    else zeros.

(** The frames waiting in [slirp_rx_frames_] stay. *)
Definition reset (s : net) : net :=
  let s := s <| status := 0 |> in
  let s := s <| drv_features := 0 |> in
  let s := s <| dev_features_sel := 0 |> in
  let s := s <| drv_features_sel := 0 |> in
  let s := s <| queue_sel := 0 |> in
  let s := s <| interrupt_status := 0 |> in
  let s := s <| rxq := new_queue |> in
  let s := s <| txq := new_queue |> in
  IrqLine false s.

Definition write_reg (off value : Z) : MN unit :=
  gets queue_sel ≫= fun sel =>
  let with_q f := modify (with_queue (if sel <? 2 then sel else 0) f) in
  if off =? 0x014 then modify (fun s => s <| dev_features_sel := value |>)
  else if off =? 0x024 then modify (fun s => s <| drv_features_sel := value |>)
  else if off =? 0x020 then
    modify (fun s => s <| drv_features :=
      if drv_features_sel s =? 0 then set_lo32 (drv_features s) value
      else set_hi32 (drv_features s) value |>)
  else if off =? 0x030 then when (value <? 2) (modify (fun s => s <| queue_sel := value |>))
  else if off =? 0x038 then
    when ((1 <=? value) && (value <=? kMaxQueueSize)) (with_q (fun q => q <| qsize := value |>))
  else if off =? 0x044 then with_q (fun q => q <| ready := negb (value =? 0) |>)
  else if off =? 0x050 then
    (if value =? 0 then poll_rx
     else gets txq ≫= fun q => when ((value =? 1) && ready q) handle_tx_queue)
  else if off =? 0x064 then
    modify (fun s => s <| interrupt_status := Z.land (interrupt_status s) (bnot 32 value) |>) ≫= fun _ =>
    gets interrupt_status ≫= fun pending => when (pending =? 0) (modify (IrqLine false))
  else if off =? 0x070 then
    (if value =? 0 then modify reset else modify (fun s => s <| status := value |>))
  else if off =? 0x080 then with_q (fun q => q <| desc_addr := set_lo32 (desc_addr q) value |>)
  else if off =? 0x084 then with_q (fun q => q <| desc_addr := set_hi32 (desc_addr q) value |>)
  else if off =? 0x090 then with_q (fun q => q <| driver_addr := set_lo32 (driver_addr q) value |>)
  else if off =? 0x094 then with_q (fun q => q <| driver_addr := set_hi32 (driver_addr q) value |>)
  else if off =? 0x0A0 then with_q (fun q => q <| device_addr := set_lo32 (device_addr q) value |>)
  else if off =? 0x0A4 then with_q (fun q => q <| device_addr := set_hi32 (device_addr q) value |>)
  else mret tt.

Definition write_mmio (a : Z) (bytes : list Z) : MN unit :=
  gets mmio_base ≫= fun mb =>
  let off := u32 (a - mb) in
  if (0x100 <=? off) || negb (Z.of_nat (length bytes) =? 4) then mret tt
  else write_reg off (ReadU32 bytes).
End Transmit.

(** ** Invariant and safety *)

Section Safety.
Context {T L : Type} `{TapLaws T} `{Slirp L}.
Local Notation net := (VirtioNet T L).
Local Notation MN := (M net).

(** The level of the line after the calls made so far. *)
Definition level (s : net) : bool := match irq_calls s with [] => false | (_, l) :: _ => l end.
Definition pending (s : net) : bool := negb (interrupt_status s =? 0).

Record net_ok (s : net) : Prop := {
  ok_len : 0 <= len (mem s) < 2 ^ 64; ok_ram : ram_ok (data (mem s));
  ok_mac : length (mac s) = 6%nat /\ bytes_ok (mac s);
  ok_rxq : queue_ok kMaxQueueSize (rxq s); ok_txq : queue_ok kMaxQueueSize (txq s);
  ok_sel : 0 <= queue_sel s < 2; ok_status : 0 <= status s < 2 ^ 32;
  ok_features : 0 <= drv_features s < 2 ^ 64; ok_interrupt : 0 <= interrupt_status s < 2 ^ 32;
  ok_frames : Forall bytes_ok (slirp_rx_frames s);
  ok_level : level s = pending s;
  ok_line : Forall (fun c => c.1 = irq_ s) (irq_calls s) }.

(** What every step keeps, from [s0] on. *)
Record net_step (s0 s : net) : Prop := {
  ns_mem : mem_step (mem s0) (mem s); ns_base : mmio_base s = mmio_base s0; ns_irq : irq_ s = irq_ s0;
  ns_mac : mac s = mac s0; ns_slirp : slirp_enabled s = slirp_enabled s0;
  ns_tap : tap s = None <-> tap s0 = None }.

Section From.
Context (s0 : net).
Definition inv (s : net) : Prop := net_ok s /\ net_step s0 s.

Lemma net_inv_len s : inv s -> len (mem s) = len (mem s0).
Proof. intros [_ Hs]. apply (ns_mem _ _ Hs). Qed.

(** A change of registers: everything else is as it was. *)
Lemma inv_set s s' : inv s -> net_ok s' -> mem s' = mem s -> mmio_base s' = mmio_base s -> irq_ s' = irq_ s ->
  mac s' = mac s -> slirp_enabled s' = slirp_enabled s -> (tap s' = None <-> tap s = None) -> inv s'.
Proof.
  intros [_ Hst] Hok Hm Hb Hi Hc Hsl Ht. split; [done|]. destruct Hst.
  split; [by rewrite Hm|congruence..|by rewrite Ht].
Qed.

Lemma net_safe_guest_ptr a n :
  0 <= a -> 0 <= n -> safe inv (fun _ => a + n <= len (mem s0)) (guest_ptr a n).
Proof.
  intros Ha Hn s Hs. unfold guest_ptr. rewrite KvmAcpi.ptr_eq, (net_inv_len s Hs) by done.
  destruct (Z.leb_spec (a + n) (len (mem s0))); done.
Qed.

Lemma net_safe_guest_load a n : 0 <= a -> 0 <= n ->
  safe inv (fun bs => bytes_ok bs /\ length bs = Z.to_nat n /\ a + n <= len (mem s0)) (guest_load a n).
Proof.
  intros Ha Hn. unfold guest_load. eapply safe_bind; [by apply net_safe_guest_ptr|]. intros ? Hr. cbn beta in Hr.
  apply safe_gets. intros s Hs. split_and!; [apply load_ok, Hs|apply length_load|done].
Qed.

Lemma safe_put_bytes a bs :
  bytes_ok bs -> 0 <= a -> a + Z.of_nat (length bs) <= len (mem s0) -> safe inv (fun _ => True) (put_bytes a bs).
Proof.
  intros Hb Ha Hl. apply safe_modify. intros s Hs. pose proof Hs as [Hok Hst].
  assert (Hm : mem_step (mem s) (mem_store (mem s) a bs))
    by (apply store_step; [apply Hok|apply Hok|done|done|by rewrite (net_inv_len s Hs)]).
  split.
  - destruct Hok. split; try done. apply Hm.
  - destruct Hst. split; try done. by eapply mem_step_trans.
Qed.
(** *** Rings *)

Lemma same_outcome_throw {A} (o : outcome A) e : KvmBlk.same_outcome (Throw e) o -> exists e', o = Throw e'.
Proof. destruct o; try done. by eexists. Qed.

(** The walk is that of VirtQueue, with the texts of this device. *)
Lemma walk_loop_same (s : net) q fuel : 0 <= len (mem s) < 2 ^ 64 -> forall seen chain idx,
  exists o, walk_loop fuel q seen chain idx s = (o, s) /\
    KvmBlk.same_outcome o (VirtQueue.walk_loop (mem s) (desc_addr q) (qsize q) fuel seen chain idx).
Proof.
  intros Hl. induction fuel as [|fuel IH]; intros seen chain idx; cbn [walk_loop VirtQueue.walk_loop]; [by eexists|].
  rewrite lift_bind. unfold Check at 1 3. destruct (idx <? qsize q) eqn:Ei; [|by eexists].
  cbn [throw_unless]. rewrite lift_bind. unfold Check at 1 3. cbn [mbind outcome_bind].
  destruct (negb (bool_decide (idx ∈ seen))); [|by eexists]. cbn [throw_unless mbind outcome_bind].
  unfold read_desc. rewrite bind_bind, lift_bind. unfold Check at 1 3. rewrite Ei. cbn [throw_unless mbind outcome_bind].
  set (a := u64 (desc_addr q + idx * 16)). rewrite bind_bind, bind_run. unfold guest_ptr.
  pose proof (ptr_ok (mem s) a 16) as Hp. pose proof (ptr_no_fuel (mem s) a 16).
  rewrite KvmAcpi.ptr_eq by (apply u64_range || done).
  destruct (Z.leb_spec (a + 16) (len (mem s))) as [Hin|Hout].
  2:{ destruct (ptr (mem s) a 16) as [p|e|]; [|by eexists|done].
      destruct (proj1 (Hp p Hl (proj1 (u64_range _)) ltac:(done)) eq_refl). lia. }
  rewrite (proj2 (Hp a Hl (proj1 (u64_range _)) ltac:(done)) (conj eq_refl Hin)). cbn [mbind outcome_bind].
  rewrite gets_bind. set (d := VirtQueue.read_desc (data (mem s)) a). rewrite lift_bind. unfold Check at 1 2.
  change kRingDescFIndirect with 4. destruct (negb (has (flags d) 4)); [|by eexists].
  cbn [throw_unless mbind outcome_bind]. rewrite lift_bind. destruct (push chain d) as [chain'|e|]; [|by eexists..].
  cbn [mbind outcome_bind]. change kRingDescFNext with 1. destruct (negb (has (flags d) 1)); [by eexists|apply IH].
Qed.

Lemma walk_chain_same (s : net) q head : 0 <= len (mem s) < 2 ^ 64 ->
  exists o, walk_chain q head s = (o, s) /\
    KvmBlk.same_outcome o (walk_chain_inline (mem s) (desc_addr q) (qsize q) head).
Proof. intros Hl. by apply walk_loop_same. Qed.

Lemma walk_chain_ok (s : net) q head : net_ok s -> queue_ok kMaxQueueSize q -> 0 <= head ->
  match walk_chain q head s with
  | (Ok ds, s') => s' = s /\ Forall desc_ok ds /\ 1 <= Z.of_nat (length ds) <= qsize q /\
      exists ixs, linked (mem s) (desc_addr q) (qsize q) head ixs ds /\ NoDup ixs
  | (Throw _, s') => s' = s
  | (OutOfFuel, _) => False
  end.
Proof.
  intros Hs Hq Hh. destruct (walk_chain_same s q head (ok_len s Hs)) as (o & -> & Ho).
  assert (Hw : walk_chain_inline (mem s) (desc_addr q) (qsize q) head <> OutOfFuel /\
    forall ds, walk_chain_inline (mem s) (desc_addr q) (qsize q) head = Ok ds ->
      exists ixs, linked (mem s) (desc_addr q) (qsize q) head ixs ds /\ NoDup ixs).
  { destruct (walk_loop_spec (mem s) (desc_addr q) (qsize q) (ok_len s Hs) (ok_ram s Hs) (qok_size _ _ Hq)
      (S (Z.to_nat kMaxQueueSize)) ∅ [] head) as [Hnf Hok];
      [done|done|done|pose proof (qok_size _ _ Hq); unfold kMaxQueueSize in *; lia|].
    split; [done|]. intros ds E. apply Hok in E as (ixs & ds' & -> & Hl & Hnd & _). by exists ixs. }
  destruct o as [ds|e|]; destruct (walk_chain_inline _ _ _ _) as [ds'|e'|] eqn:E; try done; [|by destruct Hw].
  cbn in Ho. subst ds'. destruct (proj2 Hw ds eq_refl) as (ixs & Hl & Hnd).
  split_and!; [done|by eapply Blk.linked_descs_ok; [apply Hs|]|inversion Hl; subst; cbn [length]; lia| |by exists ixs].
  rewrite <- (linked_length _ _ _ _ _ _ Hl). apply linked_range in Hl.
  pose proof (seen_size (qsize q) (list_to_set ixs)) as Hz. rewrite size_list_to_set in Hz by done.
  rewrite Forall_forall in Hl.
  specialize (Hz (fun i Hi => Hl i (proj1 (list_elem_of_In _ _) (proj1 (elem_of_list_to_set i ixs) Hi)))).
  pose proof (qok_size _ _ Hq). lia.
Qed.

Lemma safe_walk_chain q head : queue_ok kMaxQueueSize q -> 0 <= head ->
  safe inv (fun ds => Forall desc_ok ds) (walk_chain q head).
Proof.
  intros Hq Hh s Hs. pose proof (walk_chain_ok s q head (proj1 Hs) Hq Hh) as Hw.
  destruct (walk_chain q head s) as [[ds|e|] s']; [|by subst|done]. by destruct Hw as (-> & ? & _).
Qed.

(** A step of a [safe] proof whose result is only known to satisfy its postcondition. *)
Ltac next L Hx := eapply safe_bind; [apply L|intros ? Hx; cbn beta in Hx].

Lemma net_safe_push_used q id written : safe inv (fun _ => True) (push_used q id written).
Proof.
  unfold push_used. pose proof (u64_range (device_addr q + 2)) as Hi.
  next net_safe_guest_load Hb; [lia..|]. destruct Hb as (Hb & Hl & Hin). cbv zeta.
  set (entry := u64 (device_addr q + 4 + ReadU16 a mod qsize q * 8)).
  assert (He : 0 <= entry) by apply u64_range. assert (He4 : 0 <= u64 (entry + 4)) by apply u64_range.
  next net_safe_guest_ptr H1'; [lia..|]. next safe_put_bytes H2'; [apply WriteU32_ok|lia|autorewrite with bytes_len; lia|].
  next net_safe_guest_ptr H3'; [lia..|]. next safe_put_bytes H4'; [apply WriteU32_ok|lia|autorewrite with bytes_len; lia|].
  apply safe_put_bytes; [apply WriteU16_ok|lia|autorewrite with bytes_len; lia].
Qed.

Lemma virtio_queue_at_ok s i : net_ok s -> queue_ok kMaxQueueSize (queue_at i s).
Proof. intros Hs. unfold queue_at. destruct (i =? 0); apply Hs. Qed.

Lemma inv_with_queue s i f : inv s -> (forall q, queue_ok kMaxQueueSize q -> queue_ok kMaxQueueSize (f q)) ->
  inv (with_queue i f s).
Proof.
  intros Hs Hf. pose proof Hs as [Hok _]. unfold with_queue.
  destruct (i =? 0); (apply (inv_set s); try done; destruct Hok; split; try done; by apply Hf).
Qed.

Lemma safe_avail_idx q : 0 <= driver_addr q -> safe inv (fun idx => 0 <= idx < 65536) (avail_idx q).
Proof.
  intros _. unfold avail_idx. next net_safe_guest_load Hb; [apply u64_range|done|].
  apply safe_ret. destruct Hb as (Hb & Hl & _). apply ReadU16_range; [done|by rewrite Hl].
Qed.

Lemma safe_next_head i : safe inv (fun head => 0 <= head < 65536) (next_head i).
Proof.
  unfold next_head. eapply safe_bind; [apply safe_gets; intros s Hs; exact (virtio_queue_at_ok s i (proj1 Hs))|].
  intros q Hq. cbn beta in Hq. next net_safe_guest_load Hb; [apply u64_range|done|].
  eapply safe_bind.
  - apply safe_modify. intros s Hs. apply inv_with_queue; [done|]. intros q0 []. split; try done. apply u16_range.
  - intros ? _. apply safe_ret. destruct Hb as (Hb & Hl & _). apply ReadU16_range; [done|by rewrite Hl].
Qed.

(** *** Receive *)

Lemma safe_has_rx_buffer : safe inv (fun _ => True) has_rx_buffer.
Proof.
  unfold has_rx_buffer. eapply safe_bind; [apply safe_gets; intros s Hs; exact (ok_rxq s (proj1 Hs))|].
  intros q Hq. cbn beta in Hq. apply safe_if; intros _; [by apply safe_ret|].
  next safe_avail_idx Hi; [apply Hq|]. by apply safe_ret.
Qed.

Lemma safe_fill_chain ds frame : bytes_ok frame -> Forall desc_ok ds ->
  forall offset, 0 <= offset -> safe inv (fun _ => True) (fill_chain ds frame offset).
Proof.
  intros Hf Hds. induction Hds as [|d ds Hd Hds IH]; intros offset Ho; cbn [fill_chain]; [by apply safe_ret|].
  pose proof (VirtQueue.ok_len d Hd) as Hdl. pose proof (VirtQueue.ok_addr d Hd) as Hda.
  safe_step; [apply Check_no_fuel|any_result|].
  next net_safe_guest_ptr Hr; [lia..|]. cbv zeta.
  set (n1 := if _ && _ then _ else 0). assert (Hn1 : 0 <= n1 <= dlen d).
  { unfold n1. destruct (Z.ltb_spec offset 12), (Z.ltb_spec 0 (dlen d)); cbn [andb]; lia. }
  safe_step; [apply safe_put_bytes; [apply Forall_forall; intros x Hx%repeat_spec; by subst|lia|rewrite repeat_length; lia]|].
  set (off1 := offset + n1). set (n2 := if _ && _ then _ else 0).
  assert (Hn2 : 0 <= n2 <= dlen d - n1).
  { unfold n2. destruct (Z.leb_spec 12 off1), (Z.ltb_spec n1 (dlen d)), (Z.ltb_spec off1 (12 + Z.of_nat (length frame)));
      cbn [andb]; lia. }
  safe_step; [apply safe_put_bytes; [by apply Forall_take, Forall_drop|lia|rewrite length_take; lia]|].
  apply safe_if; intros _; [by apply safe_ret|]. apply IH. lia.
Qed.

Lemma inv_signal s : inv s -> inv (signal_queue s).
Proof.
  intros Hs. pose proof Hs as [Hok _]. apply (inv_set s); try done. destruct Hok. split; try done; cbn.
  - by apply (lor_range _ _ 32).
  - unfold level, pending. cbn. by rewrite KvmBlk.lor_1_pending by lia.
  - by constructor.
Qed.

Lemma safe_inject frame : bytes_ok frame -> safe inv (fun _ => True) (inject_rx_frame frame).
Proof.
  intros Hf. unfold inject_rx_frame. next safe_has_rx_buffer H1'.
  apply safe_if; intros _; [by apply safe_ret|]. next safe_next_head Hh.
  eapply safe_bind; [apply safe_gets; intros s Hs; exact (ok_rxq s (proj1 Hs))|]. intros q Hq. cbn beta in Hq.
  next safe_walk_chain Hds; [done|lia|]. cbv zeta. next safe_fill_chain Ho; [done|done|lia|].
  apply safe_if; intros _; [by apply safe_ret|]. next net_safe_push_used H2'.
  eapply safe_bind; [apply safe_modify, inv_signal|]. intros _ _. by apply safe_ret.
Qed.
(** *** libslirp *)

Lemma inv_enqueue bs s : bytes_ok bs -> inv s -> inv (enqueue_slirp_rx bs s).
Proof.
  intros Hb Hs. pose proof Hs as [Hok _]. destruct bs as [|b bs]; [done|].
  apply (inv_set s); try done. destruct Hok. split; try done. cbn.
  apply Forall_app. by split; [|apply Forall_singleton].
Qed.

Lemma inv_send_packet bs s : bytes_ok bs -> inv s -> inv (slirp_send_packet_cb bs s).
Proof.
  intros Hb Hs. unfold slirp_send_packet_cb. destruct bs as [|b bs]; [done|].
  destruct (_ <? 60); apply inv_enqueue; try done.
  apply Forall_app. split; [done|]. apply Forall_forall. intros x Hx%repeat_spec. by subst.
Qed.

Lemma inv_send_packets frames s : Forall bytes_ok frames -> inv s ->
  inv (fold_left (fun s bs => slirp_send_packet_cb bs s) frames s).
Proof.
  intros Hf. revert s. induction Hf as [|bs frames Hb Hf IH]; intros s Hs; cbn [fold_left]; [done|].
  by apply IH, inv_send_packet.
Qed.

Lemma inv_set_slirp l s : slirp_enabled s = true -> inv s -> inv (s <| slirp := Some l |>).
Proof.
  intros Hl Hs. pose proof Hs as [Hok _]. apply (inv_set s); try done. by destruct Hok; split.
Qed.

Lemma safe_input packet : bytes_ok packet -> safe inv (fun _ => True) (input_slirp_packet packet).
Proof.
  intros Hp. apply safe_modify. intros s Hs. destruct (slirp s) as [l|] eqn:El; [|done].
  destruct packet as [|b bs]; [done|]. pose proof (slirp_input_bytes (b :: bs) l Hp) as Hb.
  destruct (slirp_input (b :: bs) l) as [frames l']. apply inv_send_packets; [done|].
  apply inv_set_slirp; [by unfold slirp_enabled; rewrite El|done].
Qed.

Lemma safe_poll_slirp : safe inv (fun _ => True) poll_slirp.
Proof.
  apply safe_modify. intros s Hs. destruct (slirp s) as [l|] eqn:El; [|done].
  destruct (slirp_pollfds_fill l) as [calls l1]. cbv zeta. match goal with |- context [poll_fds ?set ?l] => destruct (poll_fds set l) as [[failed set'] l2] end.
  pose proof (slirp_poll_bytes failed (slirp_get_revents_cb set') l2) as Hb.
  destruct (slirp_pollfds_poll _ _ l2) as [frames l3]. apply inv_send_packets; [done|].
  apply inv_set_slirp; [by unfold slirp_enabled; rewrite El|done].
Qed.

(** What a received frame and the rings leave alone. *)
Lemma frames_rings {X} (g : net -> X) : (forall s m, g (s <| mem := m |>) = g s) ->
  (forall a n, frames g (guest_load a n)) /\ (forall q head, frames g (walk_chain q head)) /\
  (forall q id w, frames g (push_used q id w)).
Proof.
  intros Hm. assert (Hp : forall a n, frames g (guest_ptr a n)) by done.
  assert (Hl : forall a n, frames g (guest_load a n)) by (intros; unfold guest_load; repeat frames_step; done).
  assert (Hs : forall a bs, frames g (put_bytes a bs)) by (intros a bs s; apply Hm).
  assert (Hw : forall q fuel seen chain idx, frames g (walk_loop fuel q seen chain idx)).
  { intros q. induction fuel as [|fuel IH]; intros; cbn [walk_loop]; unfold read_desc; repeat frames_step; auto. }
  split_and!; [done|intros; apply Hw|]. intros q id w. unfold push_used. repeat frames_step; auto.
Qed.

Lemma frames_inject {X} (g : net -> X) frame : (forall s m, g (s <| mem := m |>) = g s) ->
  (forall f s, g (with_queue 0 f s) = g s) -> (forall s, g (signal_queue s) = g s) ->
  frames g (inject_rx_frame frame).
Proof.
  intros Hm Hq Hi. destruct (frames_rings g Hm) as (Hl & Hw & Hu).
  assert (Hp : forall a n, frames g (guest_ptr a n)) by done.
  assert (Hs : forall a bs, frames g (put_bytes a bs)) by (intros a bs s; apply Hm).
  assert (Hfill : forall ds f o, frames g (fill_chain ds f o)).
  { induction ds as [|d ds IH]; intros; cbn [fill_chain]; repeat frames_step; auto. }
  unfold inject_rx_frame, has_rx_buffer, avail_idx, next_head. repeat frames_step; auto.
Qed.

Lemma safe_flush_loop fuel : forall s, inv s -> (length (slirp_rx_frames s) <= fuel)%nat ->
  match flush_loop fuel s with
  | (Ok _, s') => inv s' /\ True
  | (Throw _, s') => inv s'
  | (OutOfFuel, _) => False
  end.
Proof.
  induction fuel as [|fuel IH]; intros s Hs Hf; cbn [flush_loop]; rewrite gets_bind;
    destruct (slirp_rx_frames s) as [|frame rest] eqn:Ef; cbn [length] in Hf; [done|lia|done|].
  pose proof (ok_frames s (proj1 Hs)) as Hb. rewrite Ef in Hb. apply Forall_cons_1 in Hb as [Hb Hr].
  rewrite bind_run. pose proof (safe_inject frame Hb s Hs) as Hi. pose proof (frames_inject (@slirp_rx_frames T L) frame ltac:(done) ltac:(done) ltac:(done) s) as Hk.
  destruct (inject_rx_frame frame s) as [[[]|e|] s1]; cbn [snd negb] in *; [| |done|done].
  - destruct Hi as [Hi _]. rewrite modify_bind. apply IH; [|cbn; rewrite Hk, Ef; cbn; lia].
    pose proof Hi as [Hok _]. apply (inv_set s1); try done. destruct Hok. split; try done. cbn. by rewrite Hk, Ef.
  - done.
Qed.

Lemma net_safe_flush : safe inv (fun _ => True) flush_slirp_rx.
Proof. intros s Hs. by apply safe_flush_loop. Qed.

(** *** The TAP device *)

Lemma safe_read_tap :
  safe inv (fun r => match r with Got bs => bytes_ok bs /\ Z.of_nat (length bs) <= 2048 | _ => True end) read_tap.
Proof.
  intros s Hs. unfold read_tap. destruct (tap s) as [t|] eqn:Et; [|done].
  destruct (tap_read t) as [r t'] eqn:Er. split.
  - pose proof Hs as [Hok _]. apply (inv_set s); try done; [by destruct Hok; split|cbn; by rewrite Et].
  - destruct r; try done. by eapply tap_frame.
Qed.

Lemma safe_drain_loop throw fuel : forall s t, inv s -> tap s = Some t -> (tap_pending t < fuel)%nat ->
  match drain_loop fuel throw s with
  | (Ok _, s') => inv s' /\ True
  | (Throw _, s') => inv s'
  | (OutOfFuel, _) => False
  end.
Proof.
  induction fuel as [|fuel IH]; intros s t Hs Et Hf; [lia|]. cbn [drain_loop]. rewrite bind_run.
  pose proof (safe_read_tap s Hs) as Hi. unfold read_tap in *. rewrite Et in *.
  destruct (tap_read t) as [r t'] eqn:Er. pose proof (tap_progress t r t' Er) as Hp. destruct Hi as [Hi _].
  destruct r as [[|b bs]| | |e]; [done|apply (IH _ t'); [done|done|lia]|apply (IH _ t'); [done|done|lia]|done|].
  by destruct throw.
Qed.

Lemma safe_drain_tap throw : safe inv (fun _ => True) (drain_tap throw).
Proof.
  intros s Hs. unfold drain_tap. destruct (tap s) as [t|] eqn:Et; [|done].
  apply (safe_drain_loop throw _ s t); [done|done|lia].
Qed.

Lemma safe_rx_rounds n : safe inv (fun _ => True) (rx_rounds n).
Proof.
  induction n as [|n IH]; cbn [rx_rounds]; [by apply safe_ret|].
  next safe_has_rx_buffer Hb. apply safe_if; intros _; [by apply safe_ret|].
  next safe_read_tap Hr. destruct a0 as [[|b bs]| | |e]; [by apply safe_ret| |done|by apply safe_ret|by apply safe_lift].
  destruct Hr as [Hr _]. eapply safe_bind; [by apply safe_inject|]. done.
Qed.

Lemma safe_poll_rx : safe inv (fun _ => True) poll_rx.
Proof.
  unfold poll_rx. safe_step; [any_result|].
  apply safe_if; intros _; [next safe_poll_slirp Hp; apply net_safe_flush|].
  safe_step; [any_result|]. apply safe_if; intros _; [apply safe_drain_tap|apply safe_rx_rounds].
Qed.

(** *** Transmit *)

Lemma safe_gather to_tap ds : Forall desc_ok ds -> forall skip pieces, 0 <= skip -> Forall bytes_ok pieces ->
  safe inv (Forall bytes_ok) (gather to_tap ds skip pieces).
Proof.
  induction 1 as [|d ds Hd Hds IH]; intros skip pieces Hsk Hp; cbn [gather]; [by apply safe_ret|].
  safe_step; [apply Check_no_fuel|any_result|].
  apply safe_if; intros Hc; [apply IH; [lia|done]|]. apply Z.leb_gt in Hc.
  apply safe_if; intros _; [|by apply IH].
  next net_safe_guest_load Hb; [apply u64_range|lia|]. apply IH; [lia|].
  apply Forall_app. split; [done|apply Forall_singleton, Hb].
Qed.

Lemma safe_write_tap pieces : safe inv (fun _ => True) (write_tap pieces).
Proof.
  intros s Hs. unfold write_tap. destruct (tap s) as [t|] eqn:Et; [|done].
  destruct (tap_writev pieces t) as [r t'].
  assert (Hi : inv (s <| tap := Some t' |>)).
  { pose proof Hs as [Hok _]. apply (inv_set s); try done; [by destruct Hok; split|cbn; by rewrite Et]. }
  by destruct r.
Qed.

Lemma safe_process_tx head : 0 <= head -> safe inv (fun _ => True) (process_tx head).
Proof.
  intros Hh. unfold process_tx. eapply safe_bind; [apply safe_gets; intros s Hs; exact (ok_txq s (proj1 Hs))|].
  intros q Hq. cbn beta in Hq. next safe_walk_chain Hds; [done|done|]. safe_step; [any_result|].
  next safe_gather Hp; [done|lia|done|]. eapply (safe_bind _ (fun _ => True)).
  - apply safe_if; intros _; [|apply safe_when; intros _; apply safe_write_tap].
    next safe_input Hi; [|next safe_poll_slirp Hi'; apply net_safe_flush].
    apply Forall_concat. done.
  - intros _ _. next net_safe_push_used Hu. apply safe_modify, inv_signal.
Qed.

Lemma fold_send_txq frames (s : net) :
  txq (fold_left (fun s bs => slirp_send_packet_cb bs s) frames s) = txq s.
Proof.
  revert s. induction frames as [|bs frames IH]; intros s; cbn [fold_left]; [done|]. rewrite IH.
  unfold slirp_send_packet_cb, enqueue_slirp_rx. repeat case_match; done.
Qed.

Lemma frames_process_tx head : frames (@txq T L) (process_tx head).
Proof.
  destruct (frames_rings (@txq T L) ltac:(done)) as (Hl & Hw & Hu).
  assert (Hg : forall b ds sk ps, frames (@txq T L) (gather b ds sk ps)).
  { intros b. induction ds as [|d ds IH]; intros; cbn [gather]; repeat frames_step; auto. }
  assert (Hf : forall fuel, frames (@txq T L) (flush_loop fuel)).
  { induction fuel as [|fuel IH]; cbn [flush_loop]; frames_step; try apply frames_gets;
      (match goal with |- frames _ (match ?l with _ => _ end) => destruct l end); repeat frames_step; auto.
    by apply frames_inject. }
  assert (Hp : frames (@txq T L) poll_slirp).
  { intros s. unfold poll_slirp, modify. destruct (slirp s); [|done]. repeat case_match. etransitivity; [apply fold_send_txq|done]. }
  unfold process_tx. repeat frames_step; auto.
  - intros s. unfold input_slirp_packet, modify. repeat case_match; try done. etransitivity; [apply fold_send_txq|done].
  - intros s. unfold flush_slirp_rx. apply Hf.
  - intros s. unfold write_tap. repeat case_match; simplify_eq; done.
Qed.

Lemma safe_tx_loop idx : 0 <= idx < 65536 -> forall fuel s, inv s ->
  (Z.to_nat (u16 (idx - last_avail (txq s))) <= fuel)%nat ->
  match tx_loop fuel idx s with
  | (Ok _, s') => inv s' /\ last_avail (txq s') = idx
  | (Throw _, s') => inv s'
  | (OutOfFuel, _) => False
  end.
Proof.
  intros Hi. induction fuel as [|fuel IH]; intros s Hs Hf; cbn [tx_loop]; rewrite gets_bind;
    pose proof (ok_txq s (proj1 Hs)) as Hq; pose proof (qok_last _ _ Hq) as Hla;
    destruct (Z.eqb_spec (last_avail (txq s)) idx) as [Heq|Hne]; try done.
  1: pose proof (u16_dist_pos idx (last_avail (txq s)) Hi Hla ltac:(congruence)); lia.
  rewrite bind_run. pose proof (safe_next_head 1 s Hs) as Hn.
  assert (Hc : match next_head 1 s with (Ok _, s1) => last_avail (txq s1) = u16 (last_avail (txq s) + 1) | _ => True end).
  { unfold next_head. rewrite gets_bind, bind_run. unfold guest_load. rewrite bind_run. unfold guest_ptr.
    destruct (KvmAcpi.ptr _ _ _); done. }
  destruct (next_head 1 s) as [[head|e|] s1]; [|done|done]. destruct Hn as [Hs1 Hh].
  rewrite bind_run. pose proof (safe_process_tx head ltac:(lia) s1 Hs1) as Hp.
  pose proof (frames_process_tx head s1) as Hk.
  destruct (process_tx head s1) as [[u|e|] s2]; [|done|done]. destruct Hp as [Hs2 _]. cbn [snd] in Hk.
  apply IH; [done|]. rewrite Hk, Hc, u16_dist by (done || congruence). lia.
Qed.

Lemma safe_handle_tx : safe inv (fun _ => True) handle_tx_queue.
Proof.
  intros s Hs. unfold handle_tx_queue. rewrite gets_bind, bind_run.
  pose proof (ok_txq s (proj1 Hs)) as Hq.
  pose proof (safe_avail_idx (txq s) (proj1 (qok_driver _ _ Hq)) s Hs) as Ha.
  assert (Hk : frames (@txq T L) (avail_idx (txq s))).
  { unfold avail_idx. destruct (frames_rings (@txq T L) ltac:(done)) as (Hl & _). repeat frames_step; auto. }
  specialize (Hk s). destruct (avail_idx (txq s) s) as [[idx|e|] s1]; [|done|done]. destruct Ha as [Hs1 Hi].
  cbn [snd] in Hk. rewrite bind_run.
  pose proof (safe_tx_loop idx Hi (Z.to_nat (u16 (idx - last_avail (txq s)))) s1 Hs1 ltac:(by rewrite Hk)) as HL.
  destruct (tx_loop _ idx s1) as [[u|e|] s2]; [|done|done]. apply safe_poll_rx, HL.
Qed.

(** *** Registers *)

(** A change of registers only. *)
Ltac regs := apply safe_modify; intros s Hs; apply (inv_set s); try done;
  destruct Hs as [[] _]; split; try done; cbn.

Lemma net_safe_with_q i f : (forall q, queue_ok kMaxQueueSize q -> queue_ok kMaxQueueSize (f q)) ->
  safe inv (fun _ => True) (modify (with_queue i f)).
Proof. intros Hf. apply safe_modify. intros s Hs. by apply inv_with_queue. Qed.

Ltac queue_field := intros q Hq; destruct Hq; split; try done; cbn;
  first [by apply set_lo32_range | by apply set_hi32_range | lia].

Lemma safe_ack value : 0 <= value < 2 ^ 32 ->
  safe inv (fun _ => True)
    (modify (fun s : net => s <| interrupt_status := Z.land (interrupt_status s) (bnot 32 value) |>) ≫= fun _ =>
     gets interrupt_status ≫= fun pending => when (pending =? 0) (modify (IrqLine false))).
Proof.
  intros Hv s Hs. pose proof Hs as [Hok _]. rewrite modify_bind, gets_bind. cbn [interrupt_status upd_field].
  set (x := Z.land _ _).
  assert (Hx : 0 <= x < 2 ^ 32).
  { unfold x. rewrite Z.land_comm. apply (land_range _ _ 32); pose proof (ok_interrupt s Hok); lia. }
  destruct (Z.eqb_spec x 0) as [E|E]; cbn [when]; (split; [|done]); apply (inv_set s); try done; destruct Hok;
    split; try done; cbn.
  - unfold level, pending. cbn. by rewrite E.
  - by constructor.
  - unfold level, pending in *. cbn. rewrite ok_level0. destruct (Z.eqb_spec x 0); [done|].
    destruct (Z.eqb_spec (interrupt_status s) 0) as [E0|]; [|done]. unfold x in E. by rewrite E0 in E.
Qed.

Lemma inv_reset s : inv s -> inv (reset s).
Proof.
  intros Hs. pose proof Hs as [Hok _]. apply (inv_set s); try done. destruct Hok. split; try done; cbn;
    by constructor.
Qed.

Lemma net_safe_write_reg off value : 0 <= value < 2 ^ 32 -> safe inv (fun _ => True) (write_reg off value).
Proof.
  intros Hv. unfold write_reg.
  safe_with (fun sel => 0 <= sel < 2); [intros s Hs; exact (ok_sel s (proj1 Hs))|]. rename a into sel. cbv zeta.
  safe_cases; [..|by apply safe_ret].
  - regs.
  - regs.
  - regs. destruct (drv_features_sel s =? 0); [by apply set_lo32_range|by apply set_hi32_range].
  - apply safe_when. intros Hc. regs. lia.
  - apply safe_when. intros Hc. apply net_safe_with_q. queue_field.
  - apply net_safe_with_q. queue_field.
  - apply safe_if; intros _; [apply safe_poll_rx|]. safe_step; [any_result|].
    apply safe_when. intros _. apply safe_handle_tx.
  - by apply safe_ack.
  - safe_step; [|by regs]. apply safe_modify, inv_reset.
  - apply net_safe_with_q. queue_field.
  - apply net_safe_with_q. queue_field.
  - apply net_safe_with_q. queue_field.
  - apply net_safe_with_q. queue_field.
  - apply net_safe_with_q. queue_field.
  - apply net_safe_with_q. queue_field.
Qed.

Lemma net_safe_write_mmio a bytes : bytes_ok bytes -> safe inv (fun _ => True) (write_mmio a bytes).
Proof.
  intros Hb. unfold write_mmio. safe_step; [any_result|]. cbv zeta.
  apply safe_if; intros Hc; [by apply safe_ret|]. apply net_safe_write_reg.
  apply ReadU32_range; [done|]. apply orb_false_iff in Hc as [_ Hc]. lia.
Qed.
End From.
End Safety.

(** ** Runs of the device *)

Section Runs.
Context {T L : Type} `{TapLaws T} `{Slirp L}.
Local Notation net := (VirtioNet T L).

(** An access of the driver or a poll of the vCPU loop, with its outcome. *)
Inductive net_event : net -> net -> Prop :=
  | net_write_at a bytes s o s' : bytes_ok bytes -> write_mmio a bytes s = (o, s') -> net_event s s'
  | net_polled s o s' : poll_rx s = (o, s') -> net_event s s'.

Lemma net_event_inv s0 s s' : inv s0 s -> net_event s s' -> inv s0 s'.
Proof.
  intros Hs He. destruct He as [a bytes s o s' Hb E|s o s' E].
  - by apply (safe_inv _ _ _ _ _ _ (net_safe_write_mmio s0 a bytes Hb) Hs E).
  - by apply (safe_inv _ _ _ _ _ _ (safe_poll_rx s0) Hs E).
Qed.

Lemma VirtioNet_new_ok g mb irq (t : option T) m (l : option L) :
  0 <= len g < 2 ^ 64 -> ram_ok (data g) -> length m = 6%nat -> bytes_ok m ->
  net_ok (VirtioNet_new g mb irq t m l).
Proof. intros. split; try done; by constructor. Qed.

Lemma net_inv_start (s : net) : net_ok s -> inv s s.
Proof. intros Hs. split; [done|]. split; try done. apply mem_step_refl, Hs. Qed.

(** Whatever the driver writes to the registers and puts in guest memory, whatever
    frames arrive from the TAP device or libslirp, from the creation of the device on:
    every access and every poll ends, only guest RAM is written, the queues stay in
    range, and the level-triggered interrupt line is asserted exactly while an interrupt
    is pending, also after an exception. *)
Theorem kvm_net_safe g mb irq (t : option T) m (l : option L) s :
  0 <= len g < 2 ^ 64 -> ram_ok (data g) -> length m = 6%nat -> bytes_ok m ->
  rtc net_event (VirtioNet_new g mb irq t m l) s ->
  only_writes (in_range 0 (len g)) (data g) (data (mem s)) /\
  queue_ok kMaxQueueSize (rxq s) /\ queue_ok kMaxQueueSize (txq s) /\
  level s = pending s /\ Forall (fun c => c.1 = irq) (irq_calls s) /\
  (poll_rx s).1 <> OutOfFuel /\
  forall a bytes, bytes_ok bytes -> (write_mmio a bytes s).1 <> OutOfFuel.
Proof.
  intros Hl Hg Hm Hb Hrun. pose proof (VirtioNet_new_ok g mb irq t m l Hl Hg Hm Hb) as H0'.
  assert (Hs : inv (VirtioNet_new g mb irq t m l) s).
  { pose proof (net_inv_start _ H0') as Hi. revert Hi. generalize (VirtioNet_new g mb irq t m l) at 1 3 as s0.
    clear H0'. intros s0. induction Hrun as [s|s1 s2 s3 He _ IH]; [done|]. intros Hi. by apply IH, (net_event_inv s0 s1). }
  pose proof Hs as [Hok Hst]. split_and!; [apply Hst|apply Hok|apply Hok|apply Hok| | |].
  - pose proof (ok_line s Hok) as Hc. by rewrite (ns_irq _ _ Hst) in Hc.
  - destruct (poll_rx s) as [o s'] eqn:E. by apply (safe_inv _ _ _ _ _ _ (safe_poll_rx _) Hs E).
  - intros a bytes Hby. destruct (write_mmio a bytes s) as [o s'] eqn:E.
    by apply (safe_inv _ _ _ _ _ _ (net_safe_write_mmio _ a bytes Hby) Hs E).
Qed.
End Runs.

(** ** What a frame writes *)

(** The bytes laid out over the buffers of a chain, in order. *)
Fixpoint scatter (ds : list Desc) (bytes : list Z) (m : ram) : ram :=
  match ds with
  | [] => m
  | d :: ds => scatter ds (drop (Z.to_nat (dlen d)) bytes) (store m (addr d) (take (Z.to_nat (dlen d)) bytes))
  end.
Fixpoint capacity (ds : list Desc) : Z :=
  match ds with [] => 0 | d :: ds => dlen d + capacity ds end.

Lemma store_ext m m' a bs : (forall x, m' x = m x) -> forall x, store m' a bs x = store m a bs x.
Proof. intros Hm x. unfold store. by rewrite Hm. Qed.
Lemma scatter_ext ds : forall bytes m m', (forall x, m' x = m x) -> forall x, scatter ds bytes m' x = scatter ds bytes m x.
Proof. induction ds as [|d ds IH]; intros bytes m m' Hm; cbn [scatter]; [done|]. by apply IH, store_ext. Qed.
Lemma scatter_nil ds m : forall x, scatter ds [] m x = m x.
Proof.
  revert m. induction ds as [|d ds IH]; intros m x; cbn [scatter]; [done|].
  rewrite drop_nil, IH, take_nil. apply store_out. unfold in_range. cbn. lia.
Qed.
Lemma capacity_nonneg ds : Forall desc_ok ds -> 0 <= capacity ds.
Proof. induction 1 as [|d ds Hd _ IH]; cbn [capacity]; [done|]. pose proof (VirtQueue.ok_len d Hd). lia. Qed.

Section Frames.
Context {T L : Type} `{TapLaws T} `{Slirp L}.
Local Notation net := (VirtioNet T L).
Local Notation MN := (M net).

(** The header, all zeros, then the frame. *)
Definition packet (frame : list Z) : list Z := repeat 0 12 ++ frame.

Lemma when_put_run (b : bool) a bs (k : unit -> MN Z) s : (b = false -> bs = []) ->
  exists g, (forall x, data g x = store (data (mem s)) a bs x) /\ len g = len (mem s) /\
    ((when b (put_bytes a bs)) ≫= k) s = k tt (s <| mem := g |>).
Proof.
  intros Hb. destruct b; cbn [when].
  - unfold put_bytes. rewrite modify_bind. exists (mem_store (mem s) a bs). by split_and!.
  - exists (mem s). rewrite (Hb eq_refl). split_and!; [|done|by destruct s].
    intros x. by rewrite store_out by (unfold in_range; cbn; lia).
Qed.

Lemma drop_repeat k n : drop k (repeat 0 n) = repeat 0 (n - k).
Proof. revert k. by induction n as [|n IH]; intros [|k]; cbn; try done. Qed.
Lemma take_repeat k n : take k (repeat 0 n) = repeat 0 (Nat.min k n).
Proof. revert k. induction n as [|n IH]; intros [|k]; cbn; [done..|]. by rewrite IH. Qed.
Lemma take_upto (l : list Z) k : take (Nat.min k (length l)) l = take k l.
Proof. rewrite <- take_take. by rewrite firstn_all. Qed.

(** One buffer of the chain: the two copies of the source are one. *)
Lemma two_copies frame offset n (m : ram) a x :
  0 <= offset < 12 + Z.of_nat (length frame) -> 0 <= n ->
  let n1 := if (offset <? 12) && (0 <? n) then Z.min n (12 - offset) else 0 in
  let off1 := offset + n1 in
  let n2 := if (12 <=? off1) && (n1 <? n) && (off1 <? 12 + Z.of_nat (length frame))
            then Z.min (n - n1) (Z.of_nat (length frame) - (off1 - 12)) else 0 in
  store (store m a (repeat 0 (Z.to_nat n1))) (a + n1) (take (Z.to_nat n2) (drop (Z.to_nat (off1 - 12)) frame)) x =
  store m a (take (Z.to_nat n) (drop (Z.to_nat offset) (packet frame))) x /\
  off1 + n2 = Z.min (12 + Z.of_nat (length frame)) (offset + n) /\ 0 <= n1 /\ 0 <= n2 /\
  (n1 = 0 -> repeat 0 (Z.to_nat n1) = []) /\ (n2 = 0 -> take (Z.to_nat n2) (drop (Z.to_nat (off1 - 12)) frame) = []).
Proof.
  intros Ho Hn n1 off1 n2.
  assert (HA : 0 <= n1 <= n /\ (offset < 12 -> n1 = Z.min n (12 - offset)) /\ (12 <= offset -> n1 = 0)).
  { unfold n1. destruct (Z.ltb_spec offset 12), (Z.ltb_spec 0 n); cbn [andb]; lia. }
  assert (HB : n2 = if 12 <=? off1 then Z.min (n - n1) (Z.of_nat (length frame) - (off1 - 12)) else 0).
  { unfold n2. destruct (Z.leb_spec 12 off1), (Z.ltb_spec n1 n), (Z.ltb_spec off1 (12 + Z.of_nat (length frame)));
      cbn [andb]; lia. }
  clearbody n1 n2. destruct HA as (Hb1 & Hlt & Hge).
  assert (Hn2 : 0 <= n2) by (subst n2; destruct (Z.leb_spec 12 off1); lia).
  split_and!; [|subst n2; unfold off1 in *; destruct (Z.leb_spec 12 (offset + n1)); lia|lia|done|by intros Hz; rewrite Hz|by intros Hz; rewrite Hz].
  replace (a + n1) with (a + Z.of_nat (length (repeat 0 (Z.to_nat n1)))) by (rewrite repeat_length; lia).
  rewrite <- store_app. f_equal. unfold packet.
  destruct (decide (12 <= offset)) as [Hc|Hc].
  - unfold off1 in *. rewrite (Hge Hc) in *. change (repeat 0 (Z.to_nat 0)) with (@nil Z). rewrite app_nil_l.
    rewrite drop_app_ge by (rewrite repeat_length; lia).
    rewrite repeat_length. destruct (Z.leb_spec 12 (offset + 0)); [|lia]. subst n2.
    replace (Z.to_nat (offset + 0 - 12)) with (Z.to_nat offset - 12)%nat by lia.
    rewrite <- (take_upto (drop _ frame) (Z.to_nat n)), length_drop. f_equal. lia.
  - rewrite drop_app_le by (rewrite repeat_length; lia). rewrite drop_repeat.
    specialize (Hlt ltac:(lia)). unfold off1 in *. clear off1. destruct (decide (n <= 12 - offset)) as [Hs|Hs].
    + rewrite take_app_le by (rewrite repeat_length; lia). rewrite take_repeat.
      replace (Z.to_nat n2) with O by (destruct (Z.leb_spec 12 (offset + n1)); lia).
      rewrite take_0, app_nil_r. f_equal. lia.
    + assert (Hn1 : offset + n1 = 12) by lia. rewrite Hn1 in *. cbn [Z.leb Z.compare] in HB.
      rewrite take_app_ge by (rewrite repeat_length; lia). rewrite repeat_length. f_equal; [f_equal; lia|].
      change (drop (Z.to_nat (12 - 12)) frame) with frame. rewrite <- (take_upto frame (Z.to_nat n - _)).
      f_equal. change (12 <=? 12) with true in HB. cbv iota in HB. lia.
Qed.
Lemma set_mem_mem (s : net) g g' : (s <| mem := g |>) <| mem := g' |> = s <| mem := g' |>.
Proof. done. Qed.

(** The loop of [inject_rx_frame] lays the packet out over the chain. *)
Lemma fill_chain_scatter frame ds : Forall desc_ok ds -> forall offset (s : net) o' s',
  0 <= offset < 12 + Z.of_nat (length frame) -> fill_chain ds frame offset s = (Ok o', s') ->
  o' = Z.min (12 + Z.of_nat (length frame)) (offset + capacity ds) /\
  exists g, s' = s <| mem := g |> /\ len g = len (mem s) /\
    forall x, data g x = scatter ds (drop (Z.to_nat offset) (packet frame)) (data (mem s)) x.
Proof.
  induction 1 as [|d ds Hd Hds IH]; intros offset s o' s' Ho; cbn [fill_chain].
  { intros [= <- <-]. cbn [capacity scatter]. split; [lia|]. exists (mem s). by destruct s. }
  rewrite lift_bind. destruct (Check _ _) as [[]|e|]; [|done..]. rewrite bind_run. unfold guest_ptr.
  destruct (KvmAcpi.ptr _ _ _) as [[]|e|]; [|done..]. cbv zeta.
  pose proof (VirtQueue.ok_len d Hd) as Hdl. pose proof (capacity_nonneg ds Hds) as Hcap.
  pose proof (fun m x => two_copies frame offset (dlen d) m (addr d) x Ho (proj1 Hdl)) as Htwo. cbv zeta in Htwo.
  set (n1 := if (offset <? 12) && (0 <? dlen d) then _ else 0) in *. set (off1 := offset + n1) in *.
  set (n2 := if (12 <=? off1) && _ && _ then _ else 0) in *.
  clearbody n2 off1 n1. destruct (Htwo (data (mem s)) 0) as (_ & Hend & Hn1 & Hn2 & Hz1 & Hz2).
  match goal with |- ((when ?b (put_bytes ?a ?bs)) ≫= ?k) s = _ -> _ =>
    destruct (when_put_run b a bs k s) as (g1 & Hg1 & Hl1 & ->) end; [intros Hb; apply Hz1; lia|].
  match goal with |- ((when ?b (put_bytes ?a ?bs)) ≫= ?k) ?s = _ -> _ =>
    destruct (when_put_run b a bs k s) as (g2 & Hg2 & Hl2 & ->) end; [intros Hb; apply Hz2; lia|].
  rewrite set_mem_mem. cbn [mem upd_field] in Hg2, Hl2.
  assert (Hg : forall x, data g2 x = store (data (mem s)) (addr d) (take (Z.to_nat (dlen d)) (drop (Z.to_nat offset) (packet frame))) x).
  { intros x. rewrite Hg2, <- (proj1 (Htwo (data (mem s)) x)). by apply store_ext. }
  cbn [capacity scatter]. rewrite drop_drop. destruct (Z.leb_spec (12 + Z.of_nat (length frame)) (off1 + n2)) as [Hc|Hc].
  - intros [= <- <-]. split; [lia|]. exists g2. split_and!; [done|congruence|]. intros x. rewrite Hg.
    rewrite (drop_ge (packet frame) (Z.to_nat offset + Z.to_nat (dlen d))); [by rewrite scatter_nil|].
    unfold packet. rewrite length_app. change (length (repeat 0 12)) with 12%nat. lia.
  - intros E. apply IH in E as (-> & g & -> & Hl & Hx); [|lia]. split; [lia|]. rewrite set_mem_mem.
    exists g. cbn [mem upd_field] in Hl, Hx. split_and!; [done|congruence|]. intros x. rewrite Hx.
    replace (Z.to_nat (off1 + n2)) with (Z.to_nat offset + Z.to_nat (dlen d))%nat by lia.
    by apply scatter_ext.
Qed.

(** What the device reads from the available ring of its receive queue. *)
Definition rx_avail (s : net) : Z := ReadU16 (load (data (mem s)) (u64 (driver_addr (rxq s) + 2)) 2).
Definition rx_head (s : net) : Z :=
  ReadU16 (load (data (mem s)) (u64 (driver_addr (rxq s) + 4 + last_avail (rxq s) mod qsize (rxq s) * 2)) 2).
(** The device after it took the next receive chain. *)
Definition took_chain (s : net) : net := s <| rxq := (rxq s) <| last_avail := u16 (last_avail (rxq s) + 1) |> |>.

Lemma guest_load_run a n (s : net) r s' : guest_load a n s = (Ok r, s') -> r = load (data (mem s)) a n /\ s' = s.
Proof.
  unfold guest_load, guest_ptr. rewrite bind_run. destruct (KvmAcpi.ptr _ _ _); [|done..]. by intros [= <- <-].
Qed.

Lemma has_rx_buffer_run (s : net) b s' : has_rx_buffer s = (Ok b, s') ->
  s' = s /\ b = ready (rxq s) && negb (last_avail (rxq s) =? rx_avail s).
Proof.
  unfold has_rx_buffer, avail_idx. rewrite gets_bind. destruct (ready (rxq s)); cbn [negb andb]; [|by intros [= <- <-]].
  rewrite bind_bind, bind_run. destruct (guest_load _ _ s) as [[r|e|] s1] eqn:E; [|done..].
  apply guest_load_run in E as [-> ->]. by intros [= <- <-].
Qed.

Lemma next_head_run (s : net) head s' : next_head 0 s = (Ok head, s') -> head = rx_head s /\ s' = took_chain s.
Proof.
  unfold next_head. rewrite gets_bind, bind_run. destruct (guest_load _ _ s) as [[r|e|] s1] eqn:E; [|done..].
  apply guest_load_run in E as [-> ->]. rewrite modify_bind. by intros [= <- <-].
Qed.

(** A frame for the guest.  Without a posted buffer nothing happens.  Otherwise the
    device takes the next chain of the ring and lays header and frame out over its
    buffers in order; if they fit it publishes the chain with their length and raises
    the interrupt.  If the chain is too short it reports that the frame was not taken,
    yet the chain is consumed: it is neither published nor ever read again, and its
    buffers hold the start of the frame. *)
Theorem kvm_rx_frame frame (s : net) b s' :
  net_ok s -> inject_rx_frame frame s = (Ok b, s') ->
  (ready (rxq s) && negb (last_avail (rxq s) =? rx_avail s) = false /\ b = false /\ s' = s) \/
  exists ixs ds g,
    linked (mem s) (desc_addr (rxq s)) (qsize (rxq s)) (rx_head s) ixs ds /\ NoDup ixs /\
    len g = len (mem s) /\ (forall x, data g x = scatter ds (packet frame) (data (mem s)) x) /\
    b = (12 + Z.of_nat (length frame) <=? capacity ds) /\
    if b then exists g', push_used (rxq (took_chain s)) (rx_head s) (u32 (12 + Z.of_nat (length frame)))
                           (took_chain s <| mem := g |>) = (Ok tt, took_chain s <| mem := g' |>) /\
                         s' = signal_queue (took_chain s <| mem := g' |>)
    else s' = took_chain s <| mem := g |>.
Proof.
  intros Hs. unfold inject_rx_frame. rewrite bind_run.
  destruct (has_rx_buffer s) as [[ok|e|] s1] eqn:E1; [|done..]. apply has_rx_buffer_run in E1 as [-> Hok].
  rewrite <- Hok. destruct ok; cbn [negb]; [|intros [= <- <-]; by left]. right. revert H2. rewrite bind_run.
  destruct (next_head 0 s) as [[head|e|] s2] eqn:E2; [|done..].
  pose proof (safe_next_head s 0 s (net_inv_start s Hs)) as Hh. rewrite E2 in Hh. destruct Hh as [[Hs2 _] Hh].
  apply next_head_run in E2 as [-> ->]. rewrite gets_bind, bind_run.
  pose proof (walk_chain_ok (took_chain s) (rxq (took_chain s)) (rx_head s) Hs2 (ok_rxq _ Hs2) ltac:(lia)) as Hw.
  destruct (walk_chain _ _ _) as [[ds|e|] s3]; [|done..]. destruct Hw as (-> & Hds & _ & ixs & Hl & Hnd).
  cbv zeta. rewrite bind_run. destruct (fill_chain ds frame 0 (took_chain s)) as [[o|e|] s4] eqn:E4; [|done..].
  apply fill_chain_scatter in E4 as (-> & g & -> & Hlg & Hg); [|done|lia].
  rewrite Z.add_0_l. intros E. exists ixs, ds, g. cbn [Z.to_nat drop] in Hg.
  assert (Hb : b = (12 + Z.of_nat (length frame) <=? capacity ds) /\
    if b then exists g', push_used (rxq (took_chain s)) (rx_head s) (u32 (12 + Z.of_nat (length frame)))
                           (took_chain s <| mem := g |>) = (Ok tt, took_chain s <| mem := g' |>) /\
                         s' = signal_queue (took_chain s <| mem := g' |>)
    else s' = took_chain s <| mem := g |>); [|destruct Hb as [-> Hb']; by split_and!].
  destruct (Z.ltb_spec (Z.min (12 + Z.of_nat (length frame)) (capacity ds)) (12 + Z.of_nat (length frame))) as [Hc|Hc].
  - injection E as <- <-. split; [|done]. symmetry. apply Z.leb_gt. lia.
  - rewrite bind_run in E. destruct (push_used _ _ _ _) as [[[]|e|] s5] eqn:E5; [|done..].
    rewrite modify_bind in E. injection E as <- <-. split; [symmetry; apply Z.leb_le; lia|].
    destruct (frames_rings (fun t : net => t <| mem := mem s |>)) as (_ & _ & Hk); [done|].
    specialize (Hk (rxq (took_chain s)) (rx_head s) (u32 (12 + Z.of_nat (length frame))) (took_chain s <| mem := g |>)).
    assert (Hk5 : s5 <| mem := mem s |> = took_chain s <| mem := mem s |>)
      by (rewrite <- (f_equal snd E5 : _ = s5); exact Hk).
    assert (Hs5 : s5 = took_chain s <| mem := mem s5 |>).
    { transitivity ((s5 <| mem := mem s |>) <| mem := mem s5 |>); [by destruct s5|]. by rewrite Hk5. }
    exists (mem s5). rewrite <- Hs5. done.
Qed.

(** *** Transmitted frames *)

(** The bytes of a chain's buffers, in order. *)
Definition chain_bytes (g : GuestMemory) (ds : list Desc) : list Z :=
  concat (map (fun d => load (data g) (addr d) (dlen d)) ds).
(** A buffer the device may read, inside guest memory. *)
Definition readable (g : GuestMemory) (d : Desc) : Prop :=
  desc_ok d /\ has (flags d) 2 = false /\ addr d + dlen d <= len g.

Lemma drop_load m a n k : 0 <= k <= n -> drop (Z.to_nat k) (load m a n) = load m (a + k) (n - k).
Proof.
  intros Hk. replace n with (k + (n - k)) at 1 by lia. rewrite load_app by lia.
  rewrite drop_app_length' by (rewrite length_load; lia). done.
Qed.

Lemma gather_run to_tap (s : net) ds : len (mem s) < 2 ^ 64 -> Forall (readable (mem s)) ds ->
  forall skip pieces, 0 <= skip -> (length pieces + length ds <= 256)%nat ->
  exists ps, gather to_tap ds skip pieces s = (Ok ps, s) /\
    concat ps = concat pieces ++ drop (Z.to_nat skip) (chain_bytes (mem s) ds).
Proof.
  intros Hlen. induction 1 as [|d ds (Hd & Hro & Hin) Hds IH]; intros skip pieces Hsk Hn; cbn [gather length] in *.
  { exists pieces. split; [done|]. unfold chain_bytes. cbn. by rewrite drop_nil, app_nil_r. }
  pose proof (VirtQueue.ok_len d Hd) as Hl. pose proof (VirtQueue.ok_addr d Hd) as Ha.
  unfold Check. rewrite Hro. cbn [negb throw_unless]. rewrite lift_bind.
  unfold chain_bytes. cbn [map concat]. fold (chain_bytes (mem s) ds).
  destruct (Z.leb_spec (dlen d) skip) as [Hle|Hgt].
  - destruct (IH (skip - dlen d) pieces ltac:(lia) ltac:(lia)) as (ps & E & Hps). exists ps. rewrite E, Hps. split; [done|].
    f_equal. rewrite drop_app_ge by (rewrite length_load; lia). rewrite length_load. f_equal. lia.
  - destruct (Z.ltb_spec skip (dlen d)); [|lia]. destruct (Z.ltb_spec (Z.of_nat (length pieces)) 256); [|lia].
    rewrite orb_true_r. cbn [andb]. rewrite u64_small by lia. rewrite bind_run. unfold guest_load, guest_ptr. rewrite bind_run.
    rewrite KvmAcpi.ptr_eq by lia. destruct (Z.leb_spec (addr d + skip + (dlen d - skip)) (len (mem s))); [|lia].
    unfold gets. destruct (IH 0 (pieces ++ [load (data (mem s)) (addr d + skip) (dlen d - skip)]) ltac:(lia)
      ltac:(rewrite length_app; cbn; lia)) as (ps & E & Hps). exists ps. rewrite E, Hps. split; [done|].
    rewrite concat_app. cbn [concat]. rewrite app_nil_r, <- app_assoc. f_equal.
    rewrite drop_app_le by (rewrite length_load; lia). by rewrite drop_load by lia.
Qed.

Lemma walk_chain_linked (s : net) q head ixs ds : net_ok s -> queue_ok kMaxQueueSize q -> 0 <= head ->
  linked (mem s) (desc_addr q) (qsize q) head ixs ds -> NoDup ixs -> walk_chain q head s = (Ok ds, s).
Proof.
  intros Hs Hq Hh Hl Hnd. destruct (walk_chain_same s q head (ok_len s Hs)) as (o & -> & Ho).
  destruct (walk_loop_spec (mem s) (desc_addr q) (qsize q) (ok_len s Hs) (ok_ram s Hs) (qok_size _ _ Hq)
    (S (Z.to_nat kMaxQueueSize)) ∅ [] head) as [_ Hok];
    [done|done|done|pose proof (qok_size _ _ Hq); unfold kMaxQueueSize in *; lia|].
  assert (E : walk_chain_inline (mem s) (desc_addr q) (qsize q) head = Ok ds).
  { apply Hok. exists ixs, ds. split_and!; [done|done|done|]. intros i _. apply not_elem_of_empty. }
  rewrite E in Ho. destruct o; cbn in Ho; [by subst|done|done].
Qed.

(** A frame from the guest.  For a chain of readable buffers inside guest memory,
    split wherever the driver likes (also inside the header), what is sent is the chain's
    bytes without the 12 of the header, in order: to libslirp as one packet, to the TAP
    device as one vectored write; then the chain is published with length 0 and the
    interrupt is raised. *)
Theorem kvm_tx_frame (s : net) head ixs ds :
  net_ok s -> 0 <= head -> linked (mem s) (desc_addr (txq s)) (qsize (txq s)) head ixs ds -> NoDup ixs ->
  Forall (readable (mem s)) ds ->
  exists pieces, concat pieces = drop 12 (chain_bytes (mem s) ds) /\
    process_tx head s =
      ((if slirp_enabled s
        then input_slirp_packet (drop 12 (chain_bytes (mem s) ds)) ≫= fun _ => poll_slirp ≫= fun _ => flush_slirp_rx
        else when (0 <? Z.of_nat (length pieces)) (write_tap pieces)) ≫= fun _ =>
       push_used (txq s) head 0 ≫= fun _ => modify signal_queue) s.
Proof.
  intros Hs Hh Hl Hnd Hds. pose proof (ok_txq s Hs) as Hq.
  assert (Hn : (length ds <= 256)%nat).
  { pose proof (walk_chain_ok s (txq s) head Hs Hq Hh) as Hw.
    rewrite (walk_chain_linked s (txq s) head ixs ds) in Hw by done. destruct Hw as (_ & _ & Hn & _).
    pose proof (qok_size _ _ Hq). unfold kMaxQueueSize in *. lia. }
  destruct (gather_run (negb (slirp_enabled s)) s ds (proj2 (ok_len s Hs)) Hds 12 [] ltac:(lia) Hn) as (ps & E & Hps).
  exists ps. split; [exact Hps|]. unfold process_tx.
  rewrite gets_bind, bind_run, (walk_chain_linked s (txq s) head ixs ds) by done.
  rewrite gets_bind, bind_run, E. by rewrite Hps.
Qed.
End Frames.

(** ** The device in its window *)

#[export] Instance net_window {T L} `{TapLaws T} `{Slirp L} : KvmBlk.NetWindow (VirtioNet T L) := {|
  KvmBlk.net_base := mmio_base;
  KvmBlk.net_read := read_mmio;
  KvmBlk.net_write a bytes := fun '(s, g) =>
    let '(o, s') := write_mmio a bytes (s <| mem := g |>) in (o, (s', mem s'));
  KvmBlk.net_poll := fun '(s, g) => let '(o, s') := poll_rx (s <| mem := g |>) in (o, (s', mem s')) |}.

(** A call that keeps the invariant keeps the promise of [NetWindowLaws]. *)
Lemma window_call {T L} `{TapLaws T} `{Slirp L} (s : VirtioNet T L) g (m : M (VirtioNet T L) unit) o s' Q :
  net_ok (s <| mem := g |>) -> safe (inv (s <| mem := g |>)) Q m -> m (s <| mem := g |>) = (o, s') ->
  o <> OutOfFuel /\ mem_step g (mem s') /\ net_ok (s' <| mem := mem s' |>) /\ mmio_base s' = mmio_base s.
Proof.
  intros Hs Hm E. apply (safe_inv _ _ _ _ _ _ Hm (net_inv_start _ Hs)) in E as [Hnf [Hok Hst]].
  split_and!; [done|apply (ns_mem _ _ Hst)| |apply (ns_base _ _ Hst)]. by destruct Hok; split.
Qed.

#[export] Instance net_window_laws {T L} `{TapLaws T} `{Slirp L} : KvmBlk.NetWindowLaws (VirtioNet T L).
Proof.
  refine {| KvmBlk.net_ok s g := net_ok (s <| mem := g |>) |}.
  - intros s g g' Hs Hg. destruct Hs. split; try done; cbn [mem upd_field] in *; [by rewrite (step_len _ _ Hg)|apply Hg].
  - intros a bytes s g o s' g' _ _ Hs Hb. cbn. destruct (write_mmio a bytes _) as [o1 s1] eqn:E.
    intros [= <- <- <-]. eapply window_call; [exact Hs|by apply (net_safe_write_mmio _ a bytes)|exact E].
  - intros s g o s' g' _ _ Hs. cbn. destruct (poll_rx _) as [o1 s1] eqn:E.
    intros [= <- <- <-]. eapply window_call; [exact Hs|apply safe_poll_rx|exact E].
Defined.

(** ** Witnesses *)

Module Demo.
(** A TAP device with frames to read and what was written to it. *)
Record tap_dev := mkTap { incoming : list (list Z); sent : list (list Z) }.
#[local] Instance tap_queue : Tap tap_dev := {|
  tap_read t :=
    match incoming t with
    | [] => (WouldBlock, t)
    | f :: fs => (Got (map (fun b => b mod 256) (take 2048 f)), mkTap fs (sent t))
    end;
  tap_poll_in t := negb (bool_decide (incoming t = []));
  tap_writev pieces t := (Got (Z.of_nat (length (concat pieces))), mkTap (incoming t) (concat pieces :: sent t)) |}.
#[local] Instance tap_queue_laws : TapLaws tap_dev.
Proof.
  refine {| tap_pending t := length (incoming t) |}.
  - intros [[|f fs] w] bs t'; cbn; [done|]. intros [= <- <-]. split.
    + unfold bytes_ok. apply Forall_map, Forall_forall. intros x _. apply Z.mod_pos_bound. done.
    + rewrite length_map, length_take. lia.
  - intros [[|f fs] w] r t'; cbn; intros [= <- <-]; [done|]. destruct (map _ _); cbn; [done|lia].
Defined.

(** A network that returns every packet. *)
#[local] Program Instance echo : Slirp unit := {|
  slirp_input p l := ([p], l); slirp_pollfds_fill l := ([], l); host_poll _ l := (WouldBlock, l);
  slirp_pollfds_poll _ _ l := ([], l) |}.
Next Obligation. intros p l Hp. by repeat constructor. Qed.
Next Obligation. intros. constructor. Qed.

(** Queue 0: a chain of 8 and of 100 bytes; queue 1: a chain of 8 and of 12 bytes, so the
    split lies inside the header. *)
Definition rx_descs (last : Z) : list Z :=
  WriteU64 0x5000 ++ WriteU32 8 ++ WriteU16 3 ++ WriteU16 1 ++
  WriteU64 0x5800 ++ WriteU32 last ++ WriteU16 2 ++ WriteU16 0.
Definition tx_descs : list Z :=
  WriteU64 0x6000 ++ WriteU32 8 ++ WriteU16 1 ++ WriteU16 1 ++
  WriteU64 0x6800 ++ WriteU32 12 ++ WriteU16 0 ++ WriteU16 0.
Definition ring : list Z := [0; 0; 1; 0; 0; 0].
Definition m (last : Z) : ram :=
  store (store (store (store (fun _ => 7) 0x1000 (rx_descs last)) 0x2000 ring) 0x3000 tx_descs) 0x4000 ring.
Definition mac0 : list Z := [2; 0; 0; 0; 0; 1].
Definition s0 (last : Z) (t : option tap_dev) (l : option unit) : VirtioNet tap_dev unit :=
  mkNet (mkGuestMemory (m last) 0x10000) 0xD0001000 6 t mac0 0 0 0 0 0 0
    (mkQueue 8 true 0 0x1000 0x2000 0x8000) (mkQueue 8 true 0 0x3000 0x4000 0x9000) [] l [].

Lemma net_m_ok last : ram_ok (m last).
Proof.
  repeat apply store_ok; [done| |by apply bytes_okb_ok..].
  unfold rx_descs. repeat (apply Forall_app; split); first [apply WriteU64_ok|apply WriteU32_ok|apply WriteU16_ok].
Qed.
Lemma s0_ok last t l : net_ok (s0 last t l).
Proof.
  split; cbn; try done; [apply net_m_ok|split; [done|by apply bytes_okb_ok]].
Qed.

Lemma kvm_net_safe_witness :
  let s := VirtioNet_new (mkGuestMemory (m 100) 0x10000) 0xD0001000 6 (Some (mkTap [[1; 2]] [])) mac0 (None : option unit) in
  only_writes (in_range 0 0x10000) (m 100) (data (mem (write_mmio 0xD0001044 [1; 0; 0; 0] s).2)).
Proof.
  intros s. refine (proj1 (kvm_net_safe (mkGuestMemory (m 100) 0x10000) 0xD0001000 6 (Some (mkTap [[1; 2]] [])) mac0 None
    (write_mmio 0xD0001044 [1; 0; 0; 0] s).2 _ (net_m_ok 100) _ _ _)).
  - done.
  - done.
  - by apply bytes_okb_ok.
  - eapply rtc_once, (net_write_at 0xD0001044 [1; 0; 0; 0]); [by apply (bytes_okb_ok [1; 0; 0; 0])|apply surjective_pairing].
Defined.

(** A frame of three bytes is laid out behind the header, in the second buffer. *)
Definition rx_run := inject_rx_frame [1; 2; 3] (s0 100 None None).
Lemma rx_run_taken : rx_run = (Ok true, rx_run.2).
Proof.
  assert (Hr : rx_run.1 = Ok true) by (by vm_compute). by rewrite <- Hr, <- surjective_pairing.
Qed.

Lemma kvm_rx_frame_witness :
  (exists ixs ds g, linked (mem (s0 100 None None)) 0x1000 8 0 ixs ds /\
     (forall x, data g x = scatter ds (packet [1; 2; 3]) (m 100) x) /\ 15 <= capacity ds) /\
  load (data (mem rx_run.2)) 0x5800 8 = [0; 0; 0; 0; 1; 2; 3; 7].
Proof.
  split; [|by vm_compute].
  destruct (kvm_rx_frame [1; 2; 3] (s0 100 None None) true rx_run.2 (s0_ok _ _ _) rx_run_taken)
    as [(_ & Hz & _)|(ixs & ds & g & Hl & _ & _ & Hg & Hc & _)]; [done|].
  exists ixs, ds, g. split; [exact Hl|]. split; [exact Hg|]. by apply Z.leb_le.
Defined.

(** With 13 bytes of buffers the frame does not fit: the chain is consumed (the cursor
    moves on, the next call finds nothing), and the used ring still says 0. *)
Lemma kvm_rx_chain_lost :
  let r := inject_rx_frame [1; 2; 3] (s0 5 None None) in
  r.1 = Ok false /\ last_avail (rxq r.2) = 1 /\ (inject_rx_frame [1; 2; 3] r.2).1 = Ok false /\
  load (data (mem r.2)) 0x5800 5 = [0; 0; 0; 0; 1] /\ load (data (mem r.2)) 0x8000 8 = repeat 7 8.
Proof. by vm_compute. Qed.

Definition tx_chain : list Desc := [mkDesc 0x6000 8 1 1; mkDesc 0x6800 12 0 0].
Lemma tx_linked last t l : linked (mem (s0 last t l)) 0x3000 8 0 [0; 1] tx_chain.
Proof.
  eapply linked_next; [split; [done|split; [done|split; [done|by vm_compute]]]|done|].
  apply linked_last; [split; [done|split; [done|split; [done|by vm_compute]]]|done].
Qed.

(** The guest's frame is the last 8 bytes of the chain; the echo queues it for the guest,
    padded, and puts it in the receive chain. *)
Lemma kvm_tx_frame_witness :
  (process_tx 0 (s0 100 (Some (mkTap [] [])) None)).1 = Ok tt /\
  exists pieces, concat pieces = repeat 7 8 /\
    tap (process_tx 0 (s0 100 (Some (mkTap [] [])) None)).2 = Some (mkTap [] [concat pieces]).
Proof.
  split; [by vm_compute|].
  destruct (kvm_tx_frame (s0 100 (Some (mkTap [] [])) None) 0 [0; 1] tx_chain) as (ps & Hps & _).
  - apply s0_ok.
  - done.
  - apply tx_linked.
  - repeat constructor; set_solver.
  - repeat (constructor; try split); try done; cbn; lia.
  - exists ps. rewrite Hps. split; by vm_compute.
Defined.

Example kvm_net_echo :
  let r := process_tx 0 (s0 100 None (Some tt)) in
  r.1 = Ok tt /\ slirp_rx_frames r.2 = [] /\
  load (data (mem r.2)) 0x5800 24 = repeat 0 4 ++ repeat 7 8 ++ repeat 0 12 /\
  irq_calls r.2 = [(6, true); (6, true)].
Proof. by vm_compute. Qed.
End Demo.
