(* ===== verification/KvmVm.v ===== *)
(** * native/kvm/backend.cc: RunVm as a whole

    The threads of KvmRunner on the devices of KvmUart, KvmBlk and KvmNet: [Board] holds
    what RunVm creates and is the instance of the class [Devices] the threads call under
    [device_mu].  The theorem follows every interleaving of the processors, the watchdog,
    the console input and the host, and says what holds of the machine at each moment. *)

From S2P Require Import Prelude Words Bytes GuestMemory VirtQueue Posix.
From S2P Require KvmAcpi KvmUart KvmBlk KvmNet.
From S2P Require Import KvmRunner.
#[local] Open Scope Z_scope.

(** [blks], [net] and the memory, the serial port, and what HandleIo and HandleMmio leave
    in the run structure of each processor. *)
Record Board (F H N : Type) := mkBoard {
  devs : KvmBlk.Devices F H N; uart : KvmUart.Uart; run_data : list (list Z) }.
Arguments mkBoard {F H N}. Arguments devs {F H N}. Arguments uart {F H N}. Arguments run_data {F H N}.
#[export] Instance eta_Board F H N : Eta (Board F H N) := fun b => mkBoard (devs b) (uart b) (run_data b).

Section Board.
Context {F H N : Type} `{PosixLaws F H} `{KvmBlk.NetWindow N}.
Local Notation board := (Board F H N).

(** A call under [device_mu] that works on the virtio devices. *)
Definition on_devs {A} (m : M (KvmBlk.Devices F H N) A) : M board A := fun b =>
  let '(o, d) := m (devs b) in (o, b <| devs := d |>).

(** [case KVM_EXIT_IO]: HandleIo with a fresh GuestExit. *)
Definition handle_io (i : nat) (io : KvmUart.kvm_io) (data : list Z) : M board bool := fun b =>
  let '(data, u, guest_exit) := KvmUart.HandleIo io data (uart b) (Some (KvmUart.mkGuestExit false 0)) in
  (Ok (match guest_exit with Some e => KvmUart.requested e | None => false end),
   (b <| uart := u |>) <| run_data := <[ i := data ]> (run_data b) |>).

(** [case KVM_EXIT_MMIO]: HandleMmio on [mmio.data[0 .. len)], an array of [uint8_t]. *)
Definition handle_mmio (i : nat) (m : kvm_mmio) : M board unit :=
  on_devs (KvmBlk.HandleMmio (is_write m) (phys_addr m) (map u8 (take (Z.to_nat (mmio_len m)) (mmio_data m))))
  ≫= fun r => modify (fun b => b <| run_data := <[ i := r.2 ]> (run_data b) |>).

(** [if (net) net->poll_rx();] *)
Definition poll_net : M board unit := on_devs (fun d =>
  match KvmBlk.net d with Some n => KvmBlk.with_net KvmBlk.net_poll n d | None => (Ok tt, d) end).

Definition console_halted (b : board) : bool :=
  KvmUart.contains KvmUart.kHalted (uart b) || KvmUart.contains KvmUart.kRestarting (uart b).

#[export] Instance board_devices : Devices board := {|
  dev_io := handle_io;
  dev_mmio := handle_mmio;
  dev_poll := poll_net;
  dev_halted := console_halted;
  dev_input bytes b := b <| uart := KvmUart.enqueue_rx bytes (uart b) |>;
  dev_console b := KvmUart.console_ (uart b) |}.
End Board.

(** ** What every step of the threads keeps *)

Section Keeps.
Context {D : Type} `{Devices D} (c : run_config) (P : D -> Prop).

(** Each call of a device keeps [P]. *)
Record devices_keep : Prop := {
  keep_io i io data d : P d -> P (dev_io i io data d).2;
  keep_mmio i m d : P d -> P (dev_mmio i m d).2;
  keep_poll d : P d -> P (dev_poll d).2;
  keep_input bytes d : P d -> P (dev_input bytes d) }.
Context (HP : devices_keep).

Lemma device_step_keeps {A} (m : M D A) k s p s' :
  (forall d, P d -> P (m d).2) -> device_step m k s = Some (p, s') -> P (devices s) -> P (devices s').
Proof.
  intros Hm. unfold device_step. intros E Hs. specialize (Hm _ Hs).
  destruct (m (devices s)) as [[a|e|] d]; by simplify_eq.
Qed.

Lemma poll_keeps i k s p s' : poll i k s = Some (p, s') -> P (devices s) -> P (devices s').
Proof.
  unfold poll. destruct (i =? 0)%nat; [|by intros [= <- <-]].
  apply device_step_keeps, HP.
Qed.

Lemma kvm_exit_keeps i x s p s' : handle_exit i x s = Some (p, s') -> P (devices s) -> P (devices s').
Proof.
  unfold handle_exit. destruct x; try (by intros [= <- <-]).
  - apply device_step_keeps. intros d. apply HP.
  - apply device_step_keeps. intros d. apply HP.
  - by destruct (i =? 0)%nat; intros [= <- <-].
Qed.

Lemma pc_step_keeps i r p s p' s' : pc_step c i r p s = Some (p', s') -> P (devices s) -> P (devices s').
Proof.
  unfold pc_step, finish_step. intros E Hs.
  destruct p; try exact (poll_keeps _ _ _ _ _ E Hs); try exact (kvm_exit_keeps _ _ _ _ _ E Hs);
    repeat case_match; simplify_eq/=; try done; by rewrite (kvm_set_state_eq devices).
Qed.

Lemma watchdog_step_keeps tap w s w' s' : watchdog_step c tap w s = Some (w', s') -> devices s' = devices s.
Proof. unfold watchdog_step. intros E. destruct w; repeat case_match; simplify_eq/=; done. Qed.

Lemma next_keeps l v v' : next c l v = Some v' -> P (devices (sh v)) -> P (devices (sh v')).
Proof.
  destruct l as [i r|tap|cmd|ns|bytes|]; cbn -[send]; intros E Hv.
  - destruct (vcpus v !! i) as [p|]; [|done]. destruct (may_step p v); [|done].
    destruct (pc_step c i r p (sh v)) as [[p' s']|] eqn:Es; [|done]. injection E as <-. by eapply pc_step_keeps.
  - destruct (watchdog_step c tap (watchdog v) (sh v)) as [[w s']|] eqn:Es; [|done]. injection E as <-. cbn.
    by rewrite (watchdog_step_keeps _ _ _ _ _ Es).
  - destruct (control (sh v)) as [[]|]; [|done]. by injection E as <-.
  - destruct (0 <=? ns); [|done]. by injection E as <-.
  - destruct (input_done (sh v)); [done|]. injection E as <-. by apply HP.
  - destruct (input_done (sh v)); [done|]. by injection E as <-.
Qed.

Lemma steps_keep v v' : steps c v v' -> P (devices (sh v)) -> P (devices (sh v')).
Proof. induction 1 as [v|v1 v2 v3 [l Hl] _ IH]; [done|]. intros Hv. by eapply IH, next_keeps. Qed.

Lemma launch_devices control (d : D) : devices (sh (launch c control d)) = d.
Proof. unfold launch. cbn [sh]. by rewrite (kvm_set_state_eq devices). Qed.
End Keeps.

(** ** The board as RunVm creates it *)

Section Create.
Context {F H T L : Type} `{PosixLaws F H} `{KvmNet.TapLaws T} `{KvmNet.Slirp L}.
Local Notation board := (Board F H (KvmNet.VirtioNet T L)).

(** The TAP device or the libslirp instance, and the MAC address. *)
Record NetConfig := mkNetConfig { net_tap : option T; net_slirp : option L; guest_mac : list Z }.

Definition create_net (g : GuestMemory) (disk_count : Z) (cfg : option NetConfig) : option (KvmNet.VirtioNet T L) :=
  match cfg with
  | None => None
  | Some cfg =>
      Some (KvmNet.VirtioNet_new g (KvmAcpi.VirtioMmioBase disk_count) (KvmAcpi.VirtioMmioIrq disk_count)
              (net_tap cfg) (guest_mac cfg) (net_slirp cfg))
  end.

Definition create_board (g : GuestMemory) (rootfs overlay : string) (disks : list KvmBlk.AttachedDiskConfig)
    (cfg : option NetConfig) (console_limit : Z) (interactive : bool) (ncpus : nat) : M F board := fun f =>
  match KvmBlk.create_disks g rootfs overlay disks f with
  | (Ok bs, f) =>
      (Ok (mkBoard (KvmBlk.mkDevices g f bs (create_net g (Z.of_nat (length bs)) cfg))
             (KvmUart.Uart_new console_limit interactive true true) (repeat [] ncpus)), f)
  | (Throw e, f) => (Throw e, f)
  | (OutOfFuel, f) => (OutOfFuel, f)
  end.
End Create.

(** ** The devices under the threads *)

Lemma io_item_ops io item u ge : exists ops, (KvmUart.io_item io item u ge).1.2 = KvmUart.run_ops ops u.
Proof.
  unfold KvmUart.io_item. repeat case_match; simplify_eq/=;
    try (by exists []); [by exists [KvmUart.Emit (take 1 item)]|
      by exists [KvmUart.Write (u16 (KvmUart.port io - KvmUart.kCom1Base)) (byte_at item 0)]|].
  exists [KvmUart.Read (u16 (KvmUart.port io - KvmUart.kCom1Base))]. cbn.
  match goal with E : KvmUart.read _ _ = _ |- _ => by rewrite E end.
Qed.

(** A port access is a sequence of operations of the serial port. *)
Lemma HandleIo_ops io data u ge : exists ops, (KvmUart.HandleIo io data u ge).1.2 = KvmUart.run_ops ops u.
Proof.
  unfold KvmUart.HandleIo. generalize (Z.to_nat (KvmUart.count io)) as n. intros n. revert data u ge.
  induction n as [|n IH]; intros data u ge; cbn [KvmUart.io_items]; [by exists []|].
  destruct (io_item_ops io (take (Z.to_nat (KvmUart.io_size io)) data) u ge) as [ops1 E1].
  destruct (KvmUart.io_item _ _ u ge) as [[item u1] ge1]. cbn [fst snd] in E1. subst u1.
  destruct (IH (drop (Z.to_nat (KvmUart.io_size io)) data) (KvmUart.run_ops ops1 u) ge1) as [ops2 E2].
  destruct (KvmUart.io_items n io _ _ ge1) as [[rest u2] ge2]. cbn [fst snd] in *. subst u2.
  exists (ops1 ++ ops2). unfold KvmUart.run_ops. by rewrite fold_left_app.
Qed.

Section Safe.
Context {F H N : Type} `{PosixLaws F H} `{KvmBlk.NetWindowLaws N}.
Local Notation board := (Board F H N).

(** What the calls of the threads keep, from the board [b0] on. *)
Record board_ok (b0 b : board) : Prop := {
  bo_devs : KvmBlk.devices_ok (devs b);
  bo_step : KvmBlk.devices_step (devs b0) (devs b);
  bo_uart : exists ops, uart b = KvmUart.run_ops ops (uart b0) }.

Lemma board_ok_refl b : KvmBlk.devices_ok (devs b) -> board_ok b b.
Proof. intros Hd. split; [done|by apply KvmBlk.devices_step_refl|by exists []]. Qed.

(** A call of the virtio devices that ends and keeps their invariant. *)
Definition devs_call {A} (m : M (KvmBlk.Devices F H N) A) : Prop := forall d o d',
  KvmBlk.devices_ok d -> m d = (o, d') -> o <> OutOfFuel /\ KvmBlk.devices_ok d' /\ KvmBlk.devices_step d d'.

Lemma on_devs_ok {A} (m : M (KvmBlk.Devices F H N) A) b0 b : devs_call m -> board_ok b0 b ->
  (on_devs m b).1 <> OutOfFuel /\ board_ok b0 (on_devs m b).2.
Proof.
  intros Hm [Hd Hs Hu]. unfold on_devs. destruct (m (devs b)) as [o d'] eqn:E.
  apply Hm in E as (Hnf & Hd' & Hs'); [|done]. split; [done|].
  split; [done|by eapply KvmBlk.devices_step_trans|done].
Qed.

Lemma mmio_call w a bytes : devs_call (KvmBlk.HandleMmio w a (map u8 bytes)).
Proof.
  intros d o d' Hd E. eapply KvmBlk.HandleMmio_ok; [done| |exact E].
  apply Forall_map, Forall_forall. intros x _. apply u8_range.
Qed.

Lemma poll_call : devs_call (fun d => match KvmBlk.net d with
  | Some n => KvmBlk.with_net KvmBlk.net_poll n d | None => (Ok tt, d) end).
Proof.
  intros d o d' Hd. destruct (KvmBlk.net d) as [n|] eqn:En.
  - intros E. eapply KvmBlk.with_net_ok; [done|done| |exact E]. intros o1 n' g' E1.
    eapply KvmBlk.net_poll_ok; [apply Hd|apply Hd|by apply (KvmBlk.do_net d Hd)|exact E1].
  - intros [= <- <-]. split; [done|]. split; [done|by apply KvmBlk.devices_step_refl].
Qed.

Lemma run_data_ok b0 b x : board_ok b0 b -> board_ok b0 (b <| run_data := x |>).
Proof. by intros []. Qed.

Lemma handle_mmio_ok b0 i m b : board_ok b0 b ->
  (handle_mmio i m b).1 <> OutOfFuel /\ board_ok b0 (handle_mmio i m b).2.
Proof.
  intros Hb. unfold handle_mmio. rewrite bind_run.
  destruct (on_devs_ok _ b0 b (mmio_call (is_write m) (phys_addr m) (take (Z.to_nat (mmio_len m)) (mmio_data m))) Hb)
    as [Hnf Hok].
  destruct (on_devs _ b) as [[r|e|] b1]; cbn in *; [|done..]. split; [done|by apply run_data_ok].
Qed.

Lemma uart_ok b0 b u : board_ok b0 b -> (exists ops, u = KvmUart.run_ops ops (uart b)) -> board_ok b0 (b <| uart := u |>).
Proof.
  intros [Hd Hs [ops1 E1]] [ops2 E2]. split; [done|done|]. exists (ops1 ++ ops2). cbn.
  rewrite E2, E1. unfold KvmUart.run_ops. by rewrite fold_left_app.
Qed.

Lemma handle_io_ok b0 i io data b : board_ok b0 b ->
  (handle_io i io data b).1 <> OutOfFuel /\ board_ok b0 (handle_io i io data b).2.
Proof.
  intros Hb. unfold handle_io.
  pose proof (HandleIo_ops io data (uart b) (Some (KvmUart.mkGuestExit false 0))) as Ho.
  destruct (KvmUart.HandleIo _ _ _ _) as [[data' u] ge]. split; [done|]. by apply run_data_ok, uart_ok.
Qed.

(** The threads' class of devices is safe on any board. *)
Lemma board_keeps b0 : devices_keep (board_ok b0).
Proof.
  split.
  - intros i io data b Hb. by apply handle_io_ok.
  - intros i m b Hb. by apply handle_mmio_ok.
  - intros b Hb. by apply (on_devs_ok _ b0 b poll_call).
  - intros bytes b Hb. apply uart_ok; [done|]. by exists [KvmUart.Input bytes].
Qed.

Lemma board_no_hang b0 (v : vm board) : board_ok b0 (devices (sh v)) -> no_hang v.
Proof.
  intros Hb. split; [|split].
  - intros i io data. by apply (handle_io_ok b0).
  - intros i m. by apply (handle_mmio_ok b0).
  - by apply (on_devs_ok _ b0 _ poll_call).
Qed.
End Safe.

(** ** The run *)

#[local] Existing Instances KvmNet.net_window KvmNet.net_window_laws.

Section Run.
Context {F H T L : Type} `{PosixLaws F H} `{KvmNet.TapLaws T} `{KvmNet.Slirp L}.
Local Notation board := (Board F H (KvmNet.VirtioNet T L)).

Definition mac_ok (cfg : option (@NetConfig T L)) : Prop :=
  forall n, cfg = Some n -> length (guest_mac n) = 6%nat /\ bytes_ok (guest_mac n).
(** The images are shorter than 2^63 bytes. *)
Definition sizes_ok (b : board) : Prop :=
  Forall (fun d => Blk.disk_bytes (KvmBlk.disk d) < 2 ^ 63) (KvmBlk.blks (devs b)).

(** The board as created: its devices are sound, and who may write the root image. *)
Record created (g : GuestMemory) (rootfs overlay : string) (disks : list KvmBlk.AttachedDiskConfig)
    (f : F) (b : board) : Prop := {
  cr_devs : KvmBlk.devices_ok (devs b);
  cr_mem : KvmBlk.mem (devs b) = g;
  cr_image : file_at rootfs (KvmBlk.host (devs b)) = file_at rootfs f;
  cr_writers : overlay <> ""%string -> exists h, path_of h = rootfs /\
    (KvmBlk.writable (devs b) rootfs -> exists d, d ∈ disks /\ KvmBlk.path d = rootfs /\ KvmBlk.read_only d = false);
  cr_uart : exists limit echo, uart b = KvmUart.Uart_new limit echo true true }.

Lemma create_board_ok g rootfs overlay disks cfg limit interactive n f b f' :
  0 <= len g < 2 ^ 64 -> ram_ok (data g) -> (length disks <= 18)%nat -> mac_ok cfg ->
  create_board g rootfs overlay disks cfg limit interactive n f = (Ok b, f') -> sizes_ok b ->
  created g rootfs overlay disks f b.
Proof.
  intros Hl Hg Hn Hmac. unfold create_board.
  destruct (KvmBlk.create_disks g rootfs overlay disks f) as [[bs|e|] f1] eqn:E; [|done..].
  intros [= <- <-] Hsz. unfold sizes_ok in Hsz. cbn in Hsz.
  destruct (KvmBlk.kvm_create_disks_ok g rootfs overlay disks f bs f1 (create_net g (Z.of_nat (length bs)) cfg))
    as [Hok Hw]; [done..| |].
  - intros d Hd. destruct cfg as [nc|]; [|done]. injection Hd as <-. destruct (Hmac nc eq_refl).
    split; [by apply KvmNet.VirtioNet_new_ok|done].
  - split; [done|done|by apply (KvmBlk.create_disks_files g rootfs overlay disks f bs)|done|by eexists _, _].
Qed.

(** No thread of the run is stuck: RunVm has returned or thrown, or a thread it waits for
    can take a step of the monitor's own code, or a processor runs the guest. *)
Definition runs_on (c : run_config) (v : vm board) : Prop :=
  ended v \/ (exists l v', awaited l v = true /\ own_step l v /\ next c l v = Some v') \/
  (exists i, vcpus v !! i = Some InGuest).

(** The Linux machine.  RunVm creates the disks, the network and the serial port and
    starts its threads; then, in every interleaving of processors, watchdog, console
    input and host, with whatever the guest puts in its memory and accesses, whatever the
    network delivers and whatever the host's file operations answer: only guest RAM is
    written; each interrupt line is at the level of what its device has pending; the
    image under the overlay keeps its bytes unless it is attached again as a writable
    disk; no call of a device hangs; and some thread can go on. *)
Theorem kvm_vm_safe c control g rootfs overlay disks cfg limit interactive f b0 f' v :
  1 <= cpus c -> 0 <= len g < 2 ^ 64 -> ram_ok (data g) -> (length disks <= 18)%nat -> mac_ok cfg ->
  create_board g rootfs overlay disks cfg limit interactive (ncpus c) f = (Ok b0, f') -> sizes_ok b0 ->
  steps c (launch c control b0) v ->
  let b := devices (sh v) in
  only_writes (in_range 0 (len g)) (data g) (data (KvmBlk.mem (devs b))) /\
  Forall (fun d => KvmBlk.level d = KvmBlk.pending d) (KvmBlk.blks (devs b)) /\
  (forall n, KvmBlk.net (devs b) = Some n -> KvmNet.level n = KvmNet.pending n) /\
  KvmUart.last_level (uart b) = negb (KvmUart.pending_iir (uart b) =? 0x01) /\
  (overlay <> ""%string -> (forall d, d ∈ disks -> KvmBlk.path d = rootfs -> KvmBlk.read_only d = true) ->
     forall a, KvmBlk.file_byte (file_at rootfs (KvmBlk.host (devs b))) a = KvmBlk.file_byte (file_at rootfs f) a) /\
  no_hang v /\ runs_on c v.
Proof.
  intros Hc Hl Hg Hn Hmac Hcr Hsz Hst b. apply create_board_ok in Hcr as [Hd Hm Himg Hw (lim & echo & Hu)]; [|done..].
  assert (Hb : board_ok b0 b).
  { apply (steps_keep c _ (board_keeps b0) _ _ Hst). rewrite launch_devices. by apply board_ok_refl. }
  pose proof (board_no_hang b0 v Hb) as Hh. destruct Hb as [Hbd Hbs [ops Hbu]]. rewrite Hu in Hbu. split_and!.
  - rewrite <- Hm. apply (KvmBlk.ds_mem _ _ Hbs).
  - apply Forall_lookup_2. intros i d Hi. by apply (KvmBlk.do_disk _ Hbd i d).
  - intros n Hnet. destruct (KvmBlk.do_net _ Hbd n Hnet) as [Hok _]. apply (KvmNet.ok_level _ Hok).
  - rewrite Hbu. destruct (KvmUart.kvm_run_ops_ok ops (KvmUart.Uart_new lim echo true true)) as [Hi Hlv _ _].
    { split; [done|done|constructor|apply Nat.le_0_l]. }
    rewrite <- Hi. apply Hlv. apply KvmUart.run_ops_sys.
  - intros Ho Hr a. destruct (Hw Ho) as (h & Hp & Hwr). rewrite <- Himg, <- Hp.
    apply (KvmBlk.ds_files _ _ Hbs). rewrite Hp. intros Hx. destruct (Hwr Hx) as (d & Hin & Hpd & Hro).
    by rewrite (Hr d Hin Hpd) in Hro.
  - done.
  - apply kvm_progress; [unfold ncpus; lia| |done]. eapply kvm_steps_joins; [done|apply kvm_launch_joins].
Qed.
End Run.

(** ** A run *)

Module Demo.
#[local] Existing Instances MemPosix.mem_posix MemPosix.mem_posix_laws.
#[local] Existing Instances KvmNet.Demo.tap_queue KvmNet.Demo.tap_queue_laws KvmNet.Demo.echo.

Definition net0 : NetConfig := mkNetConfig (Some (KvmNet.Demo.mkTap [[1; 2; 3]] [])) (None : option unit) KvmNet.Demo.mac0.
Definition config : run_config := mkRunConfig 2 0 0.
Definition made := create_board demo_mem "root" "overlay" KvmBlk.Demo.disks0 (Some net0) 65536 true 2 KvmBlk.Demo.host0.
Definition empty_board : Board MemPosix.files string (KvmNet.VirtioNet KvmNet.Demo.tap_dev unit) :=
  mkBoard (KvmBlk.mkDevices demo_mem KvmBlk.Demo.host0 [] None) (KvmUart.Uart_new 0 false true true) [].
Definition board0 := match made.1 with Ok b => b | _ => empty_board end.

Definition dummy := 0.
Lemma made_ok : made = (Ok board0, made.2).
Proof.
  assert (Hm : match made.1 with Ok _ => true | _ => false end = true) by (by vm_compute).
  unfold board0. destruct made as [[b|e|] f]; done.
Qed.

(** Processor 0 runs the guest, which notifies the receive queue of the network, then
    prints a byte; the host asks to stop, and processor 1 sees it. *)
Definition guest_runs (x : vm_exit) : list label := repeat (LCpu 0 RunAgain) 5 ++ [LCpu 0 (RunExit x)] ++ repeat (LCpu 0 RunAgain) 2.
Definition labels : list label :=
  [LCpu 0 RunAgain] ++
  guest_runs (ExitMmio (mkMmio 0xD0002050 [0; 0; 0; 0; 0; 0; 0; 0] 4 true)) ++
  guest_runs (ExitIo (KvmUart.mkIo KvmUart.KVM_EXIT_IO_OUT 1 0x3F8 1) [0x68]) ++
  [LCpu 0 RunAgain; LCommand kControlStop; LWatchdog true] ++ repeat (LCpu 1 RunAgain) 5.
Definition start0 := launch config (Some (0, 0)) board0.

(** It did: the byte is in the console, the waiting packet was taken from the TAP device,
    and processor 1 has set [vm_done]. *)
Definition as_expected (v : vm (Board MemPosix.files string (KvmNet.VirtioNet KvmNet.Demo.tap_dev unit))) : bool :=
  match vcpus v with [Top; Publish _ _ Return] => true | _ => false end &&
  bool_decide (KvmUart.console_ (uart (devices (sh v))) = [0x68]) &&
  match KvmBlk.net (devs (devices (sh v))) with
  | Some n => bool_decide (KvmNet.Demo.incoming <$> KvmNet.tap n = Some [])
  | None => false
  end.

Lemma kvm_vm_runs : exists v, exec config labels start0 = Some v /\ as_expected v = true.
Proof.
  assert (Hv : match exec config labels start0 with Some v => as_expected v | None => false end = true)
    by (by vm_compute).
  destruct (exec config labels start0) as [v|]; [by exists v|done].
Qed.

Lemma board0_sizes : sizes_ok board0.
Proof.
  apply Forall_forall. intros d Hd.
  assert (Hall : forallb (fun b => Blk.disk_bytes (KvmBlk.disk b) <? 2 ^ 63) (KvmBlk.blks (devs board0)) = true)
    by (by vm_compute).
  rewrite forallb_forall in Hall. by apply Z.ltb_lt, Hall.
Qed.

Lemma kvm_vm_safe_witness : exists v, exec config labels start0 = Some v /\ as_expected v = true /\
  no_hang v /\ runs_on config v /\
  forall a, KvmBlk.file_byte (file_at "root" (KvmBlk.host (devs (devices (sh v))))) a =
            KvmBlk.file_byte (file_at "root" KvmBlk.Demo.host0) a.
Proof.
  assert (Hc : 1 <= cpus config) by (cbn; lia).
  assert (Hl : 0 <= len demo_mem < 2 ^ 64) by done.
  assert (Hd : (length KvmBlk.Demo.disks0 <= 18)%nat) by (cbn; lia).
  assert (Hm : mac_ok (Some net0)) by (intros n [= <-]; split; [done|by apply bytes_okb_ok]).
  assert (Hr : forall d, d ∈ KvmBlk.Demo.disks0 -> KvmBlk.path d = "root"%string -> KvmBlk.read_only d = true)
    by (by intros d [->|[]%elem_of_nil]%elem_of_cons Hp).
  destruct kvm_vm_runs as (v & E & Hv). exists v. split; [exact E|]. split; [exact Hv|].
  destruct (kvm_vm_safe config (Some (0, 0)) demo_mem "root" "overlay" KvmBlk.Demo.disks0 (Some net0) 65536 true
    KvmBlk.Demo.host0 board0 made.2 v Hc Hl demo_mem_ok Hd Hm made_ok board0_sizes
    (kvm_exec_steps config labels start0 v E)) as (_ & _ & _ & _ & Himg & Hh & Hgo).
  split; [exact Hh|]. split; [exact Hgo|]. apply Himg; [discriminate|exact Hr].
Defined.
End Demo.
